(* ===== verification/_CoqProject ===== *)
-Q . S2P
Prelude.v
JsString.v
JsValue.v
JsJson.v
JsonText.v
SharedUtils.v
SharedUtilsTheorems.v
Localization.v
ModuleEditState.v
ModuleEditConfig.v
ModuleEditItems.v
ModuleEditFields.v
ModuleEditReducer.v
ModuleEditSelectors.v
NameMaps.v
ModuleEditInvariant.v
ModuleEditItemFacts.v
ModuleEditSafety.v
ModuleEditDefaults.v
ModuleEditOperations.v
ModuleEditSamples.v
ModuleEditTheorems.v
ModuleEditSectionTheorems.v
ParamForms.v
FormFacts.v
ParamFormFacts.v
FormTheorems.v
FilesTree.v
FilesTreeTheorems.v
Models.v
ModelsTheorems.v
ModuleEditEffects.v
ModuleEditSession.v
ModuleEditSessionTheorems.v
ModuleEditFacade.v
ModulePage.v
EventForms.v
EventFormTheorems.v
FileTabs.v
FileTabTheorems.v
Filtration.v
Paging.v
PoliciesStore.v
GroupsStore.v
AgentListStore.v
AgentCardStore.v
ModuleListStore.v
ModulesInstancesStore.v
SharedStore.v
PagedStores.v
StoreTheorems.v
Types.v
StoreTypes.v
Effects.v
EffectsFacts.v
Queries.v
EffectsFlags.v
Grid.v
PoliciesEffects.v
GroupsEffects.v
AgentListEffects.v
ModuleListEffects.v
AgentCardEffects.v
ModulesInstancesEffects.v
SharedEffects.v
TagsStore.v
ListGrids.v
StoreSessionTheorems.v
GridTheorems.v
Facades.v
UpgradeMessage.v
ListFacades.v
FacadeTheorems.v
Vxapi.v
VxapiTheorems.v
EventActions.v
EventActionTheorems.v
LinkPolicy.v
LinkPolicyTheorems.v
ModulesConfig.v
