(* ===== verification/Prelude.v ===== *)
(** * SOLDR web client: verification library

    SOLDR is a system for endpoint detection and response: a server, agents on
    the monitored machines, modules that run on the agents, and a web client
    ([src/web], Angular) in which an administrator groups agents, assigns
    policies and writes modules.  This library models the client's own logic —
    its NgRx stores with their effects, the conversions between server data
    and view models, and the shared utilities — and proves what makes it
    correct.  All paths below are under [src/web].

    ** The program and how its parts interact

    A page dispatches actions to a store.  A store has a reducer, a function
    from state and action to state, and effects, which listen to actions, send
    requests to the server and dispatch further actions when answers arrive.
    Selectors read the state for the page.  The conversions of [libs/models]
    turn answers into the models the reducers keep; the utilities of
    [libs/shared] compare, rename and fill configuration data.

    ** JavaScript

    - [Prelude]: results of code that may throw ([res]), record updates,
      folds, sorted and unique lists.
    - [JsString], [JsValue], [JsJson], [JsonText]: doubles as far
      as the code computes with them, strings, values with property reads and
      writes, property order, JSON text and cloning, [JSON.parse] (with fuel
      [json_fuel], twice the length of the text and two: a value is read off
      at least every second level of the recursion; [parse_fuel] proves that
      more does not change the result) and that it reads back what
      [JSON.stringify] writes.  [Throw TypeError] and [Throw SyntaxError] are exceptions of
      the program; [Throw
      Unsupported] marks what the model does not represent, so that [Ok] is
      only returned for outcomes that are represented exactly.

    ** Utilities and view models

    - [SharedUtils] ([libs/shared/src/lib/utils]): differences of name lists
      and their application, default values, fresh names, comparison, schema
      traversal (with fuel: the depth of the model; more does not change the
      result).  [SharedUtilsTheorems]: renaming is applied to every
      kept item, clones are exact on JSON, a fresh name is fresh up to 2^53,
      traversal ends.
    - [Localization] ([localize-schema.ts], [localize-config-schema.ts], the
      schemas of one event or action): the keys of translations in a text,
      registering new ones, putting translations into a schema; that labels
      arrive, and that one text is given to all keys.
    - [Models] ([libs/models/src/lib]); [ModelsTheorems]: unedited models are
      sent back as they came, aggregated systems are the union of those of
      the modules.
    - [Filtration] ([get-grid-filtration.ts] and its companions).

    ** The module editor ([libs/store/modules/src/lib/edit])

    [ModuleEditState] (state, actions), [ModuleEditConfig], [ModuleEditItems],
    [ModuleEditFields] (handlers by section), [ModuleEditReducer] (their
    composition in the order of [createReducer]), [ModuleEditSelectors].
    [NameMaps] and [ModuleEditInvariant] state what a coherent module is: each
    section keeps the same names in its schema, defaults, translations and
    lists; [ModuleEditItemFacts] and [ModuleEditSafety] prove that every
    action preserves it, [ModuleEditDefaults] and [ModuleEditOperations] what
    the actions do.  [ModuleEditTheorems] and [ModuleEditSectionTheorems] hold
    the properties, [ModuleEditSamples] concrete modules.
    [ModuleEditEffects] and [ModuleEditSession] add the effects and the
    interleavings of commands and answers; an effect whose callback throws
    loses its requests and is subscribed to again, and the session goes on.
    [ModuleEditSessionTheorems]: what holds in them — raised flags have a
    request in flight unless their effect threw, answers lower them, files are
    opened under their paths — and the cases where it does not.
    [ModuleEditFacade] is the facade: a method is the list of actions it
    dispatches.

    The pages of the editor ([libs/features/modules/src/lib]) edit these
    sections in forms.  [ParamForms]: from a schema to the items of a form and
    back, the form array of Angular as an interface with its instance, the
    parameter sections (what an edit, an answer of the store or a button does
    to form and store; [settle] runs the exchange of changes until nothing
    changes, its fuel the number of exchanges); [FormFacts],
    [ParamFormFacts]; [FormTheorems]: a schema edited in no way is sent back as
    the form shows it, items survive the exchange, an edit settles.
    [EventForms] (the sections of events and actions, written once over an
    [ItemForm], and the validators), [EventFormTheorems]: showing a schema and
    reading the form back keeps every event and action whose keys have no dot
    in their names.  [ModulePage]
    ([edit-module-page.component.ts]): opening, versions, tabs and saving, in
    which nine sections send values in any order; saved exactly when enough
    values came, all are good and the keys of the schemas can be registered
    (an exception ends the callback, not the page), unused fields removed.  [FilesTree], [FilesTreeTheorems] model the tree of files (fuel:
    one more than the length of the longest path, which every level
    shortens), which files it opens and which may be deleted.  [FileTabs],
    [FileTabTheorems] model the tabs of the editor of files: they follow the
    store, a tab counts as changed when its text differs from the store,
    saving registers the translation keys the text uses.

    ** The list stores

    - [PoliciesStore], [GroupsStore], [AgentListStore], [AgentCardStore],
      [ModuleListStore], [ModulesInstancesStore], [SharedStore], [TagsStore]
      ([libs/store/*]): state, action types, reducers.  Names are those of
      the source; a trailing comment marks a field the code writes that is
      not in the interface.
    - [Paging] (arrival of a page), [PagedStores] (the interfaces [Paged] and
      [Filtered] with their instances), [StoreTheorems]: scrolling shows all
      rows in order, one filter per field.
    - [Types], [StoreTypes]: the types of answers and states, and that on
      typed actions no reducer throws and states stay typed.

    ** Effects of the list stores

    - [Effects]: what NgRx and RxJS do with a list of effects — [debounceTime],
      [switchMap], [mergeMap], errors inside and outside [catchError], the
      queue of dispatched actions, retries — as an executable machine on
      [Session]s, for any store that is a [Feature].  A cascade of actions
      gets the fuel [weight]; [EffectsFacts] proves that it is enough.
    - [Queries] ([libs/api/src/lib/utils], and what the effects share).
    - [PoliciesEffects] and so on ([*.effects.ts], derived selectors of
      [*.selectors.ts]): one definition per [createEffect], with their
      instances of [Cascade] and [Flags].  [TagsStore] holds its own effect.
    - [EffectsFlags]: flags of the page, their effects (none, one or several)
      and what accounts for them.
      [StoreSessionTheorems]: in every session of every store
      cascades end, an operator holds one request, a raised flag is accounted
      for; logging out, hidden services, tags, moving agents.
    - [Grid], [ListGrids], [GridTheorems]: the lists of policies and groups refine a server with pages of rows: when a
      list waits for nothing it shows the pages of the current query, in
      order; and how scrolling too early breaks this.

    ** Facades, dialogs and channels

    - [Facades] (what the facades share), [ListFacades] (one module per
      facade), [UpgradeMessage], [FacadeTheorems]: column filters, who is
      asked to upgrade, the state of a list in the address of its page
      (the interface [Listing] with four instances; [Router] is what Angular
      documents of the router).
    - [LinkPolicy] ([link-policy.facade.service.ts] of policies and groups,
      [link-group-to-policy.component.ts]): which policies a group is offered
      and which groups a policy; [LinkPolicyTheorems]: linking what is offered
      keeps the policies of a group apart, both pages agree.
    - [ModulesConfig] ([modules-config.component.ts]): the modules of a policy
      in four lists, each module in exactly one; what the page emits when a
      request ends, in the order in which the store's values arrive.
    - [EventActions], [EventActionTheorems]: assigning actions to events, in a
      dialog and in a panel.
    - [Vxapi], [VxapiTheorems] ([modules-interactivity/src/lib/utils/proto.js]):
      the channel of a module's page as a machine in which sockets, timers and
      file readers answer in any order.

    ** Bounds of the model

    - Strings are sequences of bytes compared bytewise, where JavaScript
      compares UTF-16 code units; numbers are integers, NaN and infinities.
    - The server is the environment: any answer, in any order, or none.
      Hypotheses about it (truthful pages, types) are stated by the theorems
      that need them.  Calls of services are values with the name of the
      method; HTTP, toasts and dialogs are not followed.
    - Time is the order of events: a pause ends at any moment.
    - The eleventh failure of an effect, after which NgRx gives up, is
      [Unsupported]; so is a selector that throws inside [withLatestFrom].
    - [withLatestFrom] reads the state at the moment the action passes it.
    - Parameters: the language and the path of the page, translations of the
      client, the base64 decoder of the editor, the definitions of the forms of
      default values, the library of protocol buffers, the order of titles and
      lower case ([Collation]).  Numbers that are not integers keep their text.
    - The lists of agents and modules are not instances of [Grid]: updates of
      single agents and the unpaged list of modules change the rows outside
      of paging.

    ** Not modelled

    Selectors that only project a field of the state; the other components of
    Angular, directives, pipes, guards and routing (templates and DOM events);
    the forms of default values, which a third-party component draws; the
    API clients and their types (generated from the server's description);
    translations and styles (data); the remaining utilities of [libs/shared],
    which no modelled operation calls; the server, the agent and the module
    runtime, which are written in Go, Lua and SQL. *)

From coqutil Require Export Datatypes.RecordSetters.
From stdpp Require Export base tactics numbers option strings sorting pretty list.
Export OCamlLikeNotations.

(** ** Results of JavaScript code

    An expression or a reducer either yields a value or throws.  The code
    modelled here throws [TypeError] (a property read of [undefined] or
    [null], a property write on a primitive, which ES modules run in strict
    mode refuse, a method call on a value that has no such method) and
    [SyntaxError] ([JSON.parse] of a text that is not JSON); [Plain_error] is
    [throw Error(message)].
    [Unsupported] is not an exception of the program: it marks the few writes
    whose outcome the value model cannot represent (named properties of
    arrays, sparse arrays), so that [Ok] is only ever returned for an outcome
    that is represented exactly. *)
Inductive error := Type_error | Syntax_error | Plain_error (message : string).
Inductive exn := Error (e : error) | Unsupported.

Abbreviation TypeError := (Error Type_error).
Abbreviation SyntaxError := (Error Syntax_error).

#[export] Instance error_eq_dec : EqDecision error.
Proof. solve_decision. Defined.

#[export] Instance exn_eq_dec : EqDecision exn.
Proof. solve_decision. Defined.

Inductive res (A : Type) : Type :=
| Ok (a : A)
| Throw (e : exn).
Arguments Ok {A} a.
Arguments Throw {A} e.

#[export] Instance res_ret : MRet res := @Ok.
#[export] Instance res_bind : MBind res := λ A B f m,
  match m with Ok a => f a | Throw e => Throw e end.
#[export] Instance res_fmap : FMap res := λ A B f m,
  match m with Ok a => Ok (f a) | Throw e => Throw e end.

Definition is_ok {A} (r : res A) : bool :=
  match r with Ok _ => true | Throw _ => false end.

Definition of_option {A} (e : exn) (o : option A) : res A :=
  match o with Some a => Ok a | None => Throw e end.

Section res_lemmas.
Context {A B : Type}.
Implicit Types (m : res A) (f : A → res B).

Lemma bind_Ok_inv f m b : m ≫= f = Ok b → ∃ a, m = Ok a ∧ f a = Ok b.
Proof. destruct m as [a|e]; [by exists a | done]. Qed.

Lemma bind_Ok f a : Ok a ≫= f = f a.
Proof. done. Qed.

Lemma fmap_Ok_inv (g : A → B) m b : g <$> m = Ok b → ∃ a, m = Ok a ∧ g a = b.
Proof. destruct m as [a|e]; simpl; intros H; simplify_eq; by exists a. Qed.

Lemma is_ok_spec m : is_ok m = true ↔ ∃ a, m = Ok a.
Proof. destruct m; naive_solver. Qed.
End res_lemmas.

(** Decompose every hypothesis that says a computation returned [Ok]. *)
Ltac inv_res :=
  repeat match goal with
  | H : mbind _ _ = Ok _ |- _ => apply bind_Ok_inv in H as (? & ? & ?)
  | H : fmap _ _ = Ok _ |- _ => apply fmap_Ok_inv in H as (? & ? & ?)
  | H : Ok _ = Ok _ |- _ => progress simplify_eq
  | H : Throw _ = Ok _ |- _ => discriminate H
  | H : of_option _ ?o = Ok _ |- _ => destruct o eqn:?; simpl in H
  end; simplify_eq.

(** [reduce] with a callback that may throw, from the left. *)
Fixpoint foldM {A B} (f : A → B → res A) (a : A) (l : list B) : res A :=
  match l with
  | [] => Ok a
  | b :: l => a' ← f a b; foldM f a' l
  end.

Lemma foldM_app {A B} (f : A → B → res A) a l1 l2 :
  foldM f a (l1 ++ l2) = a' ← foldM f a l1; foldM f a' l2.
Proof.
  revert a. induction l1 as [|b l1 IH]; intros a; [done|]. simpl.
  destruct (f a b); [apply IH | done].
Qed.

(** An invariant of a loop body is an invariant of the loop. *)
Lemma foldM_inv {A B} (P : A → Prop) (f : A → B → res A) l a a' :
  (∀ x b x', b ∈ l → P x → f x b = Ok x' → P x') →
  P a → foldM f a l = Ok a' → P a'.
Proof.
  revert a. induction l as [|b l IH]; intros a Hstep Ha Hf; simpl in Hf; inv_res; [done|].
  eapply IH; [|by eapply Hstep; [apply list_elem_of_here|..]|done].
  intros y c y' Hc. apply Hstep. by apply list_elem_of_further.
Qed.

(** A loop whose body never throws under its invariant does not throw. *)
Lemma foldM_ok {A B} (P : A → Prop) (f : A → B → res A) l a :
  (∀ x b, b ∈ l → P x → ∃ x', f x b = Ok x' ∧ P x') →
  P a → ∃ a', foldM f a l = Ok a' ∧ P a'.
Proof.
  revert a. induction l as [|b l IH]; intros a Hstep Ha; simpl; [by exists a|].
  destruct (Hstep a b) as (a1 & -> & Ha1); [apply list_elem_of_here|done|]. simpl.
  apply IH; [|done]. intros y c Hc. apply Hstep. by apply list_elem_of_further.
Qed.

Lemma foldM_ext {A B} (f g : A → B → res A) a l :
  (∀ x b, b ∈ l → f x b = g x b) → foldM f a l = foldM g a l.
Proof.
  revert a. induction l as [|b l IH]; intros a Hfg; [done|]. simpl.
  rewrite (Hfg a b) by apply list_elem_of_here.
  destruct (g a b); [|done]. apply IH. intros y c Hc. apply Hfg. by apply list_elem_of_further.
Qed.

(** [map] with a callback that may throw. *)
Lemma mapM_build {A B} (f : A → res B) (P : A → B → Prop) l :
  (∀ x, x ∈ l → ∃ y, f x = Ok y ∧ P x y) → ∃ l', mapM f l = Ok l' ∧ Forall2 P l l'.
Proof.
  induction l as [|x l IH]; intros H; [by exists []|].
  destruct (H x) as (y & Hy & Hp); [apply list_elem_of_here|].
  destruct IH as (l' & Hl & Hf); [intros z Hz; apply H; by apply list_elem_of_further|].
  exists (y :: l'). cbn [mapM]. rewrite Hy. cbn [mbind res_bind]. rewrite Hl. split; [done|].
  by constructor.
Qed.

Lemma mapM_fmap {A B C} (f : B → res C) (g : A → B) l : mapM f (g <$> l) = mapM (λ x, f (g x)) l.
Proof. induction l as [|x l IH]; [done|]. cbn [fmap list_fmap mapM]. by rewrite <-IH. Qed.

Lemma mapM_pure {A B} (f : A → res B) (g : A → B) l :
  (∀ x, x ∈ l → f x = Ok (g x)) → mapM f l = Ok (g <$> l).
Proof.
  induction l as [|x l IH]; intros H; [done|]. cbn [mapM fmap list_fmap].
  rewrite (H x) by apply list_elem_of_here. cbn [mbind res_bind].
  by rewrite IH by (intros y Hy; apply H; by apply list_elem_of_further).
Qed.

Lemma Forall2_elem_r {A B} (P : A → B → Prop) l k y :
  Forall2 P l k → y ∈ k → ∃ x, x ∈ l ∧ P x y.
Proof.
  intros Hf [i Hi]%list_elem_of_lookup. destruct (Forall2_lookup_r _ _ _ _ _ Hf Hi) as (x & Hx & Hp).
  exists x. split; [by eapply list_elem_of_lookup_2|done].
Qed.

(** [filter] and [some] with a callback that may throw; [some] stops at the
    first element it holds for. *)
Fixpoint filterM {A} (p : A → res bool) (l : list A) : res (list A) :=
  match l with
  | [] => Ok []
  | x :: l =>
      b ← p x;
      l ← filterM p l;
      Ok (if (b : bool) then x :: l else l)
  end.

Fixpoint someM {A} (p : A → res bool) (l : list A) : res bool :=
  match l with
  | [] => Ok false
  | x :: l => b ← p x; if (b : bool) then Ok true else someM p l
  end.

Lemma filterM_pure {A} (p : A → res bool) (f : A → bool) l :
  (∀ x, x ∈ l → p x = Ok (f x)) → filterM p l = Ok (List.filter f l).
Proof.
  induction l as [|x l IH]; intros Hp; [done|]. cbn [filterM List.filter].
  rewrite (Hp x) by apply list_elem_of_here. cbn [mbind res_bind].
  rewrite IH by (intros y Hy; apply Hp; by apply list_elem_of_further).
  cbn [mbind res_bind]. by destruct (f x).
Qed.

Lemma someM_pure {A} (p : A → res bool) (f : A → bool) l :
  (∀ x, x ∈ l → p x = Ok (f x)) → someM p l = Ok (existsb f l).
Proof.
  induction l as [|x l IH]; intros Hp; [done|]. cbn [someM existsb].
  rewrite (Hp x) by apply list_elem_of_here. cbn [mbind res_bind].
  destruct (f x); [done|]. apply IH. intros y Hy. apply Hp. by apply list_elem_of_further.
Qed.

Lemma Forall_List_filter {A} (P : A → Prop) (f : A → bool) l : Forall P l → Forall P (List.filter f l).
Proof. induction 1 as [|x l Hx _ IH]; simpl; [done|]. by destruct (f x); [constructor|]. Qed.

Lemma elem_of_List_filter {A} (f : A → bool) l x : x ∈ List.filter f l ↔ x ∈ l ∧ f x = true.
Proof. rewrite !list_elem_of_In. apply filter_In. Qed.

(** ** Record update

    The object spread [{...state, x: v}] on a record is written
    [{ state with x := v }] (coqutil's record setters).  The instances below
    compute the eta-expansion of a record once per record type, which keeps
    the states of several dozen fields cheap to update. *)
Class Eta (R : Type) := eta_expand : R → R.

Ltac eta_of R := let e := RecordSetters.eta R in exact e.

Ltac cached_setter R E getter :=
  let h := RecordSetters.head getter in
  let e := constr:(_ : Eta R) in
  let e := eval cbv beta delta [eta_expand] in e in
  let e := (match e with ?c => eval cbv delta [c] in c end) in
  exact (fun (upd : E → E) (r : R) => ltac:(
    let b := eval cbv beta in (e r) in
    let g := eval cbv beta delta [h] in (getter r) in
    match b with
    | context C[?f] => constr_eq f g; let b' := context C[upd f] in exact b'
    end)).

#[export] Hint Extern 0 (@Setter ?R ?E ?getter) =>
  cached_setter R E getter : typeclass_instances.

(** ** Lists *)

(** [arr.sort()] on an array of strings: ascending by code units.  Sorting is
    stable and strings are totally ordered, so the result is determined. *)
Definition sort_strings (l : list string) : list string := merge_sort String.le l.

Lemma sort_strings_perm l : sort_strings l ≡ₚ l.
Proof. apply merge_sort_Permutation. Qed.

Lemma elem_of_sort_strings x l : x ∈ sort_strings l ↔ x ∈ l.
Proof. by rewrite sort_strings_perm. Qed.

Lemma NoDup_sort_strings l : NoDup (sort_strings l) ↔ NoDup l.
Proof. by rewrite sort_strings_perm. Qed.

Lemma sort_strings_unique l1 l2 : l1 ≡ₚ l2 → sort_strings l1 = sort_strings l2.
Proof.
  intros Hp. apply (StronglySorted_unique String.le).
  - apply StronglySorted_merge_sort; apply _.
  - apply StronglySorted_merge_sort; apply _.
  - by rewrite !sort_strings_perm.
Qed.

Lemma filter_length_sublist {B} (P : B → Prop) `{∀ x, Decision (P x)} l1 l2 :
  l1 `sublist_of` l2 → length (filter P l1) ≤ length (filter P l2).
Proof. induction 1; rewrite ?filter_cons; repeat case_decide; simpl; lia. Qed.

(** [arr.includes(x)] on an array of strings. *)
Definition includes (x : string) (l : list string) : bool := bool_decide (x ∈ l).

Lemma includes_spec x l : includes x l = true ↔ x ∈ l.
Proof. apply bool_decide_eq_true. Qed.

Lemma includes_false x l : includes x l = false ↔ x ∉ l.
Proof. apply bool_decide_eq_false. Qed.

(** [arr1.filter((x) => !arr2.includes(x))]. *)
Definition list_minus (l1 l2 : list string) : list string :=
  filter (λ x, x ∉ l2) l1.

Lemma elem_of_list_minus x l1 l2 : x ∈ list_minus l1 l2 ↔ x ∈ l1 ∧ x ∉ l2.
Proof. unfold list_minus. rewrite list_elem_of_filter. naive_solver. Qed.

Lemma NoDup_list_minus l1 l2 : NoDup l1 → NoDup (list_minus l1 l2).
Proof. apply NoDup_filter. Qed.

(** Two lists with the same elements. *)
Definition same_elems {A} (l1 l2 : list A) : Prop := ∀ x, x ∈ l1 ↔ x ∈ l2.
Infix "≡ₑ" := same_elems (at level 70, no associativity).

#[export] Instance same_elems_equiv {A} : Equivalence (@same_elems A).
Proof. split; unfold same_elems; [intros ?|intros ?|intros ???]; naive_solver. Qed.

Lemma same_elems_cons {A} (x : A) l1 l2 : l1 ≡ₑ l2 → x :: l1 ≡ₑ x :: l2.
Proof. intros H y. rewrite !elem_of_cons, (H y). done. Qed.

#[export] Instance same_elems_dec `{EqDecision A} (l1 l2 : list A) : Decision (l1 ≡ₑ l2).
Proof.
  refine (cast_if (decide (Forall (λ x, x ∈ l2) l1 ∧ Forall (λ x, x ∈ l1) l2)));
    unfold same_elems; rewrite !Forall_forall in *; naive_solver.
Defined.

Create HintDb soldr.
Create Rewrite HintDb soldr.
#[export] Hint Resolve sort_strings_perm NoDup_list_minus : soldr.
#[export] Hint Rewrite @elem_of_sort_strings elem_of_list_minus includes_spec
  includes_false : soldr.
