(* ===== verification/JsString.v ===== *)
(** * Numbers and strings of JavaScript *)

From Stdlib Require Import Ascii.
From S2P Require Import Prelude.

(** ** JavaScript numbers and the strings they are written as

    The modelled code computes with numbers in one place only: the index that
    [getNameForNewItem] appends to a prefix.  That index is a binary64 value,
    so reading it from a name and adding one both round; this file gives the
    rounding of natural numbers to 53 significant bits, the decimal text of an
    integral double ([Number::toString]) and the reading of a digit string
    ([ToNumber]). *)

Local Open Scope N_scope.

(** ** Digit strings *)

Definition digit_of (c : ascii) : option N :=
  let n := N_of_ascii c in
  if (48 <=? n) && (n <=? 57) then Some (n - 48) else None.

Fixpoint digits_acc (acc : N) (s : string) : option N :=
  match s with
  | EmptyString => Some acc
  | String c s => d ← digit_of c; digits_acc (acc * 10 + d) s
  end.

(** The value of a non-empty string of decimal digits ([\d+]). *)
Definition parse_digits (s : string) : option N :=
  match s with EmptyString => None | _ => digits_acc 0 s end.

Lemma digit_of_pretty d : d < 10 → digit_of (pretty_N_char d) = Some d.
Proof.
  intros Hd.
  assert (d = 0 ∨ d = 1 ∨ d = 2 ∨ d = 3 ∨ d = 4 ∨ d = 5 ∨ d = 6 ∨ d = 7 ∨ d = 8 ∨ d = 9)
    by lia.
  by repeat match goal with H : _ ∨ _ |- _ => destruct H as [->|H] end; subst.
Qed.

Lemma digits_acc_pretty_go (n : N) s :
  digits_acc 0 (pretty_N_go n s) = digits_acc n s.
Proof.
  revert s. induction (N.lt_wf_0 n) as [n _ IH]; intros s.
  destruct (decide (n = 0)) as [->|Hn]; [done|].
  rewrite pretty_N_go_step by lia.
  rewrite IH by (apply N.div_lt; lia). simpl.
  rewrite digit_of_pretty by (apply N.mod_lt; lia). simpl. f_equal.
  rewrite N.mul_comm. symmetry. apply N.div_mod. lia.
Qed.

Lemma pretty_N_nonempty (n : N) : pretty n ≠ ""%string.
Proof.
  unfold pretty, pretty_N. case_decide as Hn; [done|]. intros He.
  assert (digits_acc 0 (pretty_N_go n "") = Some n) as Hd
    by (by rewrite digits_acc_pretty_go).
  rewrite He in Hd. simpl in Hd. by simplify_eq.
Qed.

(** Reading back a decimal text gives the number. *)
Lemma parse_digits_pretty (n : N) : parse_digits (pretty n) = Some n.
Proof.
  unfold parse_digits. destruct (pretty n) eqn:He; [by apply pretty_N_nonempty in He|].
  rewrite <-He. unfold pretty, pretty_N. case_decide as Hn; [by subst|].
  apply digits_acc_pretty_go.
Qed.

(** ** Rounding to binary64 *)

Definition two53 : N := 9007199254740992.

(** A natural number rounded to the nearest double, ties to even; [None] is
    [Infinity]. *)
Definition round_double (n : N) : option N :=
  if n <=? two53 then Some n
  else
    let e := N.log2 n - 52 in
    let q := N.shiftr n e in
    let r := n - N.shiftl q e in
    let half := N.shiftl 1 (e - 1) in
    let q' := if r <? half then q
              else if half <? r then q + 1
              else if N.even q then q else q + 1 in
    let v := N.shiftl q' e in
    if v <? N.shiftl 1 1024 then Some v else None.

Lemma round_double_exact n : n <= two53 → round_double n = Some n.
Proof. intros H. unfold round_double. by rewrite (proj2 (N.leb_le _ _) H). Qed.

(** [a + 1] on doubles. *)
Definition double_succ (a : option N) : option N :=
  match a with Some n => round_double (n + 1) | None => None end.

(** ** [Number::toString] of an integral double *)

(** The integer with the fewest significant digits that still rounds to [v]:
    [k] significant digits are tried in increasing order. *)
Fixpoint shortest_from (fuel : nat) (digits k v : N) : N :=
  match fuel with
  | O => v
  | S fuel =>
      let unit := 10 ^ (digits - k) in
      let w := (v + unit / 2) / unit * unit in
      if bool_decide (round_double w = Some v) then w
      else shortest_from fuel digits (k + 1) v
  end.

Fixpoint strip_trailing_zeros (s : string) : string :=
  match s with
  | EmptyString => EmptyString
  | String c s =>
      match strip_trailing_zeros s with
      | EmptyString => if Ascii.eqb c "0" then EmptyString else String c EmptyString
      | s' => String c s'
      end
  end.

(** The text of an integral double: its digits below [10^21], the exponent
    form from there on, and ["Infinity"]. *)
Definition number_text (a : option N) : string :=
  match a with
  | None => "Infinity"
  | Some v =>
      if v <=? two53 then pretty v
      else
        let digits := N.of_nat (String.length (pretty v)) in
        let w := shortest_from 17 digits 1 v in
        if w <? 10 ^ 21 then pretty w
        else match strip_trailing_zeros (pretty w) with
             | EmptyString => ""
             | String c rest =>
                 String c EmptyString
                 +:+ (if String.eqb rest "" then "" else "." +:+ rest)
                 +:+ "e+" +:+ pretty (N.of_nat (String.length (pretty w)) - 1)
             end
  end.

Lemma number_text_exact n : n <= two53 → number_text (Some n) = pretty n.
Proof. intros H. unfold number_text. by rewrite (proj2 (N.leb_le _ _) H). Qed.

Example number_text_2_60 : number_text (Some 1152921504606846976) = "1152921504606847000".
Proof. vm_compute. reflexivity. Qed.

Example number_text_1e21 : number_text (round_double (10 ^ 21)) = "1e+21".
Proof. vm_compute. reflexivity. Qed.

Example round_double_tie : round_double (two53 + 1) = Some two53.
Proof. vm_compute. reflexivity. Qed.

(** [+s] for a string [s] that is a run of decimal digits. *)
Definition digits_to_number (s : string) : option (option N) :=
  round_double <$> parse_digits s.

Local Close Scope N_scope.

(** ** JavaScript strings

    The string methods the modelled code uses: prefixes, [split] and [join] on
    a one-character separator, substring search and replacement. *)

#[local] Arguments String.append : simpl nomatch.

(** ** Appending *)

Lemma string_app_nil_r s : s +:+ "" = s.
Proof. induction s as [|c s IH]; simpl; [done|]. by rewrite IH. Qed.

Lemma string_app_assoc s1 s2 s3 : (s1 +:+ s2) +:+ s3 = s1 +:+ s2 +:+ s3.
Proof. induction s1 as [|c s1 IH]; simpl; [done|]. by rewrite IH. Qed.

Lemma string_app_length s1 s2 :
  String.length (s1 +:+ s2) = String.length s1 + String.length s2.
Proof. induction s1 as [|c s1 IH]; simpl; [done|]. by rewrite IH. Qed.

Lemma string_app_inj_l s s1 s2 : s +:+ s1 = s +:+ s2 → s1 = s2.
Proof. induction s as [|c s IH]; simpl; [done|]. intros [=]. auto. Qed.

Lemma string_app_inj_r s s1 s2 : s1 +:+ s = s2 +:+ s → s1 = s2.
Proof.
  revert s2. induction s1 as [|c s1 IH]; intros [|d s2] H; simpl in H; [done|..].
  - apply (f_equal String.length) in H. simpl in H. rewrite string_app_length in H. lia.
  - apply (f_equal String.length) in H. simpl in H. rewrite string_app_length in H. lia.
  - injection H as -> H. f_equal. auto.
Qed.

Lemma string_app_cons c s t : String c s +:+ t = String c (s +:+ t).
Proof. done. Qed.

Lemma concat_cons sep p parts :
  parts ≠ [] → String.concat sep (p :: parts) = p +:+ sep +:+ String.concat sep parts.
Proof. by destruct parts. Qed.

(** ** Prefixes *)

(** [name.replace(prefix, '')] for a name that starts with the prefix, and
    [None] for one that does not. *)
Fixpoint strip_prefix (prefix name : string) : option string :=
  match prefix, name with
  | EmptyString, _ => Some name
  | String c prefix, String d name =>
      if Ascii.eqb c d then strip_prefix prefix name else None
  | String _ _, EmptyString => None
  end.

Lemma strip_prefix_app prefix s : strip_prefix prefix (prefix +:+ s) = Some s.
Proof. induction prefix as [|c prefix IH]; [by destruct s|]. simpl. by rewrite Ascii.eqb_refl. Qed.

Lemma strip_prefix_Some prefix name rest :
  strip_prefix prefix name = Some rest → name = prefix +:+ rest.
Proof.
  revert name. induction prefix as [|c prefix IH]; intros name H; simpl in H.
  - destruct name; by simplify_eq.
  - destruct name as [|d name]; [done|]. destruct (Ascii.eqb_spec c d) as [->|]; [|done].
    by rewrite (IH _ H).
Qed.

(** [s.startsWith(prefix)]. *)
Definition starts_with (prefix s : string) : bool :=
  match strip_prefix prefix s with Some _ => true | None => false end.

Lemma starts_with_spec prefix s :
  starts_with prefix s = true ↔ ∃ rest, s = prefix +:+ rest.
Proof.
  unfold starts_with. destruct (strip_prefix prefix s) as [rest|] eqn:H; split; try done.
  - intros _. exists rest. by apply strip_prefix_Some.
  - intros [rest ->]. by rewrite strip_prefix_app in H.
Qed.

(** [s.replace(/^prefix/, '')]. *)
Definition drop_prefix (prefix s : string) : string := default s (strip_prefix prefix s).

(** ** [split] and [join] *)

(** [s.split(sep)]. *)
Fixpoint split (sep : ascii) (s : string) : list string :=
  match s with
  | EmptyString => [""]
  | String c s =>
      let parts := split sep s in
      if Ascii.eqb c sep then "" :: parts
      else match parts with
           | [] => [String c ""]
           | p :: parts => String c p :: parts
           end
  end.

(** [parts.join(sep)]. *)
Definition join (sep : ascii) (parts : list string) : string :=
  String.concat (String sep "") parts.

(** A string without the separator. *)
Fixpoint has_char (c : ascii) (s : string) : bool :=
  match s with
  | EmptyString => false
  | String d s => Ascii.eqb d c || has_char c s
  end.

Lemma split_nonempty sep s : split sep s ≠ [].
Proof. destruct s as [|c s]; simpl; [done|]. by destruct (Ascii.eqb c sep), (split sep s). Qed.

Lemma split_single sep s : has_char sep s = false → split sep s = [s].
Proof.
  induction s as [|c s IH]; simpl; [done|]. intros [-> Hs]%orb_false_iff. by rewrite IH.
Qed.

Lemma split_app sep s t :
  has_char sep s = false → split sep (s +:+ String sep t) = s :: split sep t.
Proof.
  induction s as [|c s IH]; simpl; [by rewrite Ascii.eqb_refl|].
  intros [-> Hs]%orb_false_iff. by rewrite IH.
Qed.

Lemma join_cons sep p parts :
  parts ≠ [] → join sep (p :: parts) = p +:+ String sep (join sep parts).
Proof. by destruct parts. Qed.

Lemma join_split sep s : join sep (split sep s) = s.
Proof.
  induction s as [|c s IH]; [done|]. simpl.
  destruct (Ascii.eqb_spec c sep) as [->|].
  - rewrite join_cons by apply split_nonempty. simpl. by rewrite IH.
  - destruct (split sep s) as [|p parts] eqn:H; [by apply split_nonempty in H|].
    destruct parts as [|p' parts]; unfold join in *; simpl in *; by rewrite IH.
Qed.

Lemma split_join sep parts :
  parts ≠ [] → Forall (λ p, has_char sep p = false) parts →
  split sep (join sep parts) = parts.
Proof.
  intros Hne HF. induction HF as [|p parts Hp HF IH]; [done|].
  destruct parts as [|p' parts]; [by apply split_single|].
  rewrite join_cons by done. rewrite split_app by done. by rewrite IH.
Qed.

Lemma split_parts sep s : Forall (λ p, has_char sep p = false) (split sep s).
Proof.
  induction s as [|c s IH]; simpl; [by repeat constructor|].
  destruct (Ascii.eqb_spec c sep) as [->|Hne]; [by constructor|].
  destruct (split sep s) as [|p parts]; [repeat constructor; simpl|].
  - rewrite orb_false_r. by apply Ascii.eqb_neq.
  - inversion IH; subst. constructor; [simpl|done]. rewrite H1, orb_false_r.
    by apply Ascii.eqb_neq.
Qed.

(** ** Substrings *)

(** [/word/.test(s)] for a plain word, [s.includes(word)]. *)
Definition contains (word s : string) : bool :=
  match String.index 0 word s with Some _ => true | None => false end.

(** [s.replace(/word/g, by)] for a plain word that is not empty: the
    occurrences are replaced from the left, without overlaps.  The fuel is the
    length of the text. *)
Fixpoint replace_from (fuel : nat) (word by' s : string) : string :=
  match fuel, s with
  | O, _ | _, EmptyString => s
  | Datatypes.S fuel, String c s' =>
      match strip_prefix word s with
      | Some rest => by' +:+ replace_from fuel word by' rest
      | None => String c (replace_from fuel word by' s')
      end
  end.

Definition replace_all (word by' s : string) : string :=
  replace_from (String.length s) word by' s.

Example replace_all_ex : replace_all "ab" "x" "abcabab" = "xcxx".
Proof. vm_compute. reflexivity. Qed.

Example split_ex : split "/" "a//b/" = ["a"; ""; "b"; ""].
Proof. vm_compute. reflexivity. Qed.
