(* ===== verification/JsValue.v ===== *)
(** * JavaScript values

    The configuration data the client edits (schemas, default values,
    localisations) is untyped JSON that the code reads and writes through
    property paths.  It is modelled by a value type with the operations of the
    language the code uses on it: property reads (which throw on [undefined]
    and [null]), optional chaining, property writes and deletes (strict mode),
    [Object.keys], spreads, truthiness, string conversion.

    Objects are association lists in property order: integer-like keys in
    ascending order first, then the other keys in insertion order, which is
    the order [Object.keys] reports.  The code never compares objects by
    identity and never keeps two paths to one mutable object across a write
    (every in-place update acts on a fresh JSON clone), so objects are values
    and an in-place update returns the new object.

    Bounds of the model: a string is a list of code units below 256; property
    names are not those of [Object.prototype]; a number that is not an integer
    below [2^53] in magnitude is carried by its [Number::toString] text, which
    identifies it. *)

From S2P Require Import Prelude JsString.
From Stdlib Require Import Ascii.

(** ** Property maps *)

(** An array index: a canonical decimal below [2^32 - 1].  Such keys are
    enumerated first, in ascending order. *)
Definition array_index (k : string) : option N :=
  match parse_digits k with
  | Some n => if (n <? 4294967295)%N && String.eqb (pretty n) k then Some n else None
  | None => None
  end.

Definition key_before (k k' : string) : bool :=
  match array_index k, array_index k' with
  | Some i, Some j => (i <? j)%N
  | Some _, None => true
  | None, _ => false
  end.

Abbreviation obj A := (list (string * A)).

Section obj.
Context {A : Type}.
Implicit Types (o : obj A) (k : string) (v : A).

Fixpoint obj_get k o : option A :=
  match o with
  | [] => None
  | (k', v) :: o => if String.eqb k k' then Some v else obj_get k o
  end.

Fixpoint obj_set k v o : obj A :=
  match o with
  | [] => [(k, v)]
  | (k', v') :: o' =>
      if String.eqb k k' then (k, v) :: o'
      else if key_before k k' then (k, v) :: o
      else (k', v') :: obj_set k v o'
  end.

Definition obj_del k o : obj A := filter (λ kv, kv.1 ≠ k) o.

Definition obj_keys o : list string := o.*1.

(** Write a list of properties in order: the meaning of an object literal
    and of [Object.assign]. *)
Definition obj_assign o (kvs : obj A) : obj A :=
  foldl (λ o kv, obj_set kv.1 kv.2 o) o kvs.

(** The invariant of property maps: no key twice, keys in property order. *)
Definition obj_wf o : Prop :=
  NoDup (obj_keys o) ∧ StronglySorted (λ k k', key_before k' k = false) (obj_keys o).

(** *** Lookups *)
Lemma obj_get_set k k' v o :
  obj_get k (obj_set k' v o) = if String.eqb k k' then Some v else obj_get k o.
Proof.
  induction o as [|[k1 v1] o IH]; simpl; [done|].
  destruct (String.eqb_spec k' k1) as [->|Hne]; simpl.
  - by destruct (String.eqb k k1).
  - destruct (key_before k' k1); simpl; [done|]. rewrite IH.
    destruct (String.eqb_spec k k1) as [->|]; [|done].
    by destruct (String.eqb_spec k1 k').
Qed.

Lemma obj_get_set_eq k v o : obj_get k (obj_set k v o) = Some v.
Proof. by rewrite obj_get_set, String.eqb_refl. Qed.

Lemma obj_get_set_ne k k' v o : k ≠ k' → obj_get k (obj_set k' v o) = obj_get k o.
Proof. intros Hne. rewrite obj_get_set. by destruct (String.eqb_spec k k'). Qed.

Lemma obj_get_del k k' o :
  obj_get k (obj_del k' o) = if String.eqb k k' then None else obj_get k o.
Proof.
  unfold obj_del. induction o as [|[k1 v1] o IH]; simpl; [by destruct (String.eqb k k')|].
  rewrite filter_cons. simpl. case_decide as Hd; simpl.
  - rewrite IH. destruct (String.eqb_spec k k1) as [->|]; [|done].
    by destruct (String.eqb_spec k1 k').
  - destruct (decide (k1 = k')) as [->|]; [|done]. rewrite IH.
    by destruct (String.eqb_spec k k').
Qed.

Lemma obj_get_del_eq k o : obj_get k (obj_del k o) = None.
Proof. by rewrite obj_get_del, String.eqb_refl. Qed.

Lemma obj_get_del_ne k k' o : k ≠ k' → obj_get k (obj_del k' o) = obj_get k o.
Proof. intros Hne. rewrite obj_get_del. by destruct (String.eqb_spec k k'). Qed.

(** *** Keys *)
Lemma elem_of_obj_keys k o : k ∈ obj_keys o ↔ is_Some (obj_get k o).
Proof.
  unfold obj_keys. induction o as [|[k1 v1] o IH]; simpl.
  - split; [by intros []%elem_of_nil|by intros [? ?]].
  - rewrite elem_of_cons, IH. destruct (String.eqb_spec k k1); naive_solver.
Qed.

Lemma obj_get_Some_elem k v o : obj_get k o = Some v → (k, v) ∈ o.
Proof.
  induction o as [|[k1 v1] o IH]; simpl; [done|].
  destruct (String.eqb_spec k k1) as [->|]; intros ?; simplify_eq; [left|right; auto].
Qed.

Lemma obj_get_NoDup k v o : NoDup (obj_keys o) → (k, v) ∈ o → obj_get k o = Some v.
Proof.
  unfold obj_keys. induction o as [|[k1 v1] o IH]; simpl; intros Hnd Hin.
  - by apply elem_of_nil in Hin.
  - apply NoDup_cons in Hnd as [Hk Hnd]. apply elem_of_cons in Hin as [[= -> ->]|Hin].
    + by rewrite String.eqb_refl.
    + destruct (String.eqb_spec k k1) as [->|]; [|auto].
      destruct Hk. apply list_elem_of_fmap. by exists (k1, v).
Qed.

Lemma obj_get_elem k v o : obj_wf o → (k, v) ∈ o → obj_get k o = Some v.
Proof. intros [? _]. by apply obj_get_NoDup. Qed.

Lemma obj_keys_set k k' v o : k ∈ obj_keys (obj_set k' v o) ↔ k = k' ∨ k ∈ obj_keys o.
Proof.
  rewrite !elem_of_obj_keys, obj_get_set. destruct (String.eqb_spec k k'); naive_solver.
Qed.

Lemma obj_keys_del k k' o : k ∈ obj_keys (obj_del k' o) ↔ k ≠ k' ∧ k ∈ obj_keys o.
Proof.
  rewrite !elem_of_obj_keys, obj_get_del. destruct (String.eqb_spec k k'); subst.
  - split; [by intros [? ?]|naive_solver].
  - naive_solver.
Qed.

Lemma obj_keys_nil k o : k ∉ obj_keys o → obj_get k o = None.
Proof. rewrite elem_of_obj_keys, <-eq_None_not_Some. done. Qed.

Lemma key_before_irrefl k : key_before k k = false.
Proof. unfold key_before. destruct (array_index k); [apply N.ltb_irrefl|done]. Qed.

Lemma key_before_trans_false k k1 x :
  key_before k k1 = true → key_before x k1 = false → key_before x k = false.
Proof.
  unfold key_before.
  destruct (array_index k), (array_index k1), (array_index x); try done.
  rewrite N.ltb_lt, !N.ltb_ge. lia.
Qed.

Lemma obj_wf_nil : obj_wf [].
Proof. split; constructor. Qed.

Lemma obj_wf_cons_inv k v o : obj_wf ((k, v) :: o) →
  k ∉ obj_keys o ∧ obj_wf o ∧ Forall (λ k', key_before k' k = false) (obj_keys o).
Proof.
  intros [Hnd Hs]. apply NoDup_cons in Hnd as [? ?].
  inversion Hs; subst. by repeat split.
Qed.

Lemma obj_wf_cons k v o :
  k ∉ obj_keys o → obj_wf o → Forall (λ k', key_before k' k = false) (obj_keys o) →
  obj_wf ((k, v) :: o).
Proof. intros ? [??] ?. split; simpl; [by apply NoDup_cons|by constructor]. Qed.

Lemma obj_set_wf k v o : obj_wf o → obj_wf (obj_set k v o).
Proof.
  induction o as [|[k1 v1] o IH]; simpl; intros Hwf.
  - apply obj_wf_cons; [by intros []%elem_of_nil|done|constructor].
  - pose proof (obj_wf_cons_inv _ _ _ Hwf) as (Hk & Hwf' & Hf).
    destruct (String.eqb_spec k k1) as [->|Hne]; [by apply obj_wf_cons|].
    destruct (key_before k k1) eqn:Hb.
    + assert (Forall (λ k', key_before k' k = false) (obj_keys ((k1, v1) :: o))) as Hall.
      { apply Forall_cons. split; [|eapply Forall_impl; [done|]; simpl].
        - eapply key_before_trans_false; [done|]. apply key_before_irrefl.
        - intros x. by apply key_before_trans_false. }
      apply obj_wf_cons; [|done|done]. intros Hin. simpl in Hin.
      apply elem_of_cons in Hin as [->|Hin]; [done|].
      rewrite Forall_forall in Hf. by rewrite (Hf k Hin) in Hb.
    + apply obj_wf_cons; [|auto|].
      * rewrite obj_keys_set. naive_solver.
      * apply Forall_forall. intros x. rewrite obj_keys_set. intros [->|Hx]; [done|].
        rewrite Forall_forall in Hf. auto.
Qed.

Lemma obj_del_wf k o : obj_wf o → obj_wf (obj_del k o).
Proof.
  unfold obj_del. induction o as [|[k1 v1] o IH]; intros Hwf; [done|].
  pose proof (obj_wf_cons_inv _ _ _ Hwf) as (Hk & Hwf' & Hf).
  rewrite filter_cons. case_decide; [|auto].
  apply obj_wf_cons; [|auto|].
  - intros Hin. fold (obj_del k o) in Hin. rewrite obj_keys_del in Hin. tauto.
  - fold (obj_del k o). apply Forall_forall. intros x. rewrite obj_keys_del.
    intros [_ Hx]. rewrite Forall_forall in Hf. auto.
Qed.

Lemma obj_assign_wf o kvs : obj_wf o → obj_wf (obj_assign o kvs).
Proof.
  unfold obj_assign. revert o.
  induction kvs as [|[k v] kvs IH]; intros o Hwf; simpl; [done|].
  by apply IH, obj_set_wf.
Qed.

Lemma obj_wf_NoDup o : obj_wf o → NoDup (obj_keys o).
Proof. by intros [? _]. Qed.

(** Assigning properties: the last write of a key wins. *)
Lemma obj_get_assign k o kvs :
  obj_get k (obj_assign o kvs) =
    match obj_get k (reverse kvs) with Some v => Some v | None => obj_get k o end.
Proof.
  unfold obj_assign. induction kvs as [|[k1 v1] kvs IH] using rev_ind; [done|].
  rewrite foldl_app, reverse_app. simpl. rewrite obj_get_set.
  destruct (String.eqb k k1); [done|]. apply IH.
Qed.

Lemma obj_get_assign_NoDup k o kvs :
  NoDup (obj_keys kvs) →
  obj_get k (obj_assign o kvs) =
    match obj_get k kvs with Some v => Some v | None => obj_get k o end.
Proof.
  intros Hnd. rewrite obj_get_assign.
  assert (obj_get k (reverse kvs) = obj_get k kvs) as ->; [|done].
  assert (NoDup (obj_keys (reverse kvs))) as Hnd'.
  { unfold obj_keys. rewrite fmap_reverse. by rewrite reverse_Permutation. }
  apply option_eq. intros v. split; intros Hv%obj_get_Some_elem.
  - apply obj_get_NoDup; [done|]. by apply elem_of_reverse.
  - apply obj_get_NoDup; [done|]. by apply elem_of_reverse.
Qed.

Lemma obj_set_twice k v w o : obj_set k w (obj_set k v o) = obj_set k w o.
Proof.
  induction o as [|[k1 x] o IH]; simpl; [by rewrite String.eqb_refl|].
  destruct (String.eqb k k1) eqn:Hk; simpl; [by rewrite String.eqb_refl|].
  destruct (key_before k k1) eqn:Hb; simpl; [by rewrite String.eqb_refl|]. by rewrite Hk, Hb, IH.
Qed.

(** Writing fresh keys permutes them into place. *)
Lemma obj_set_perm k v o : k ∉ obj_keys o → obj_set k v o ≡ₚ (k, v) :: o.
Proof.
  unfold obj_keys. induction o as [|[k1 v1] o IH]; simpl; intros Hk; [done|].
  apply not_elem_of_cons in Hk as [Hne Hk].
  destruct (String.eqb_spec k k1) as [->|]; [done|].
  destruct (key_before k k1); [done|]. rewrite IH by done. constructor.
Qed.

Lemma obj_del_id k o : k ∉ obj_keys o → obj_del k o = o.
Proof.
  unfold obj_del, obj_keys. induction o as [|[k1 v1] o IH]; simpl; intros Hk; [done|].
  apply not_elem_of_cons in Hk as [Hne Hk]. rewrite filter_cons_True by (simpl; congruence).
  f_equal. by apply IH.
Qed.

Lemma obj_set_del_perm k v o : obj_wf o → obj_set k v o ≡ₚ (k, v) :: obj_del k o.
Proof.
  induction o as [|[k1 v1] o IH]; intros Hwf; [done|].
  apply obj_wf_cons_inv in Hwf as Hw. destruct Hw as (Hk1 & Hwf' & HF). simpl.
  unfold obj_del. rewrite filter_cons. cbn [fst]. fold (obj_del k o).
  destruct (String.eqb_spec k k1) as [->|Hne].
  - rewrite decide_False by (intros Hc; by apply Hc). by rewrite obj_del_id.
  - rewrite decide_True by done. destruct (key_before k k1) eqn:Hb.
    + rewrite obj_del_id; [done|]. intros Hin.
      rewrite Forall_forall in HF. specialize (HF k Hin). congruence.
    + rewrite IH by done. constructor.
Qed.

(** Looking a key up splits the object. *)
Lemma obj_get_del_perm k v o : obj_wf o → obj_get k o = Some v → o ≡ₚ (k, v) :: obj_del k o.
Proof.
  intros Hwf Hk. rewrite <-obj_set_del_perm by done.
  induction o as [|[k1 v1] o IH]; [done|].
  apply obj_wf_cons_inv in Hwf as Hw. destruct Hw as (Hk1 & Hwf' & HF). simpl in *.
  destruct (String.eqb_spec k k1) as [->|Hne]; [by simplify_eq|].
  destruct (key_before k k1) eqn:Hb; [|by rewrite <-IH].
  assert (k ∈ obj_keys o) as Hin by (apply elem_of_obj_keys; by eexists).
  rewrite Forall_forall in HF. specialize (HF k Hin). congruence.
Qed.

Lemma obj_assign_perm o kvs : NoDup (obj_keys (o ++ kvs)) → obj_assign o kvs ≡ₚ o ++ kvs.
Proof.
  unfold obj_assign. revert o.
  induction kvs as [|[k v] kvs IH]; intros o Hnd; simpl; [by rewrite app_nil_r|].
  assert (obj_set k v o ≡ₚ o ++ [(k, v)]) as Hp.
  { rewrite obj_set_perm; [by rewrite Permutation_app_comm|].
    unfold obj_keys in *. rewrite fmap_app in Hnd. apply NoDup_app in Hnd as (_ & Hd & _).
    intros Hin. by eapply Hd, list_elem_of_here. }
  rewrite IH; [rewrite Hp, <-app_assoc; done|].
  unfold obj_keys in *. rewrite Hp, <-app_assoc. done.
Qed.

(** Writing the properties of a well-formed object in order rebuilds it. *)
Lemma obj_set_last k v o :
  k ∉ obj_keys o → Forall (λ k', key_before k k' = false) (obj_keys o) →
  obj_set k v o = o ++ [(k, v)].
Proof.
  unfold obj_keys. induction o as [|[k1 v1] o IH]; simpl; intros Hk Hf; [done|].
  apply not_elem_of_cons in Hk as [Hne Hk]. inversion Hf as [|? ? Hb Hf']; subst.
  destruct (String.eqb_spec k k1); [done|]. rewrite Hb. by rewrite IH.
Qed.

Lemma obj_assign_app o o' : obj_wf (o ++ o') → obj_assign o o' = o ++ o'.
Proof.
  unfold obj_assign. revert o. induction o' as [|[k v] o' IH]; intros o Hwf; simpl.
  - by rewrite app_nil_r.
  - rewrite obj_set_last.
    + rewrite IH; by rewrite <-app_assoc.
    + destruct Hwf as [Hnd _]. unfold obj_keys in *. rewrite fmap_app in Hnd.
      apply NoDup_app in Hnd as (_ & Hd & _). intros Hin. by eapply Hd, list_elem_of_here.
    + destruct Hwf as [_ Hs]. unfold obj_keys in *. rewrite fmap_app in Hs.
      apply Forall_forall. intros x Hx.
      refine (StronglySorted_app_1_elem_of _ _ _ x k Hs Hx _). apply list_elem_of_here.
Qed.

Lemma obj_assign_nil o : obj_wf o → obj_assign [] o = o.
Proof. apply (obj_assign_app []). Qed.

Lemma obj_keys_assign k o kvs :
  k ∈ obj_keys (obj_assign o kvs) ↔ k ∈ obj_keys o ∨ k ∈ obj_keys kvs.
Proof.
  unfold obj_assign. revert o.
  induction kvs as [|[k1 v1] kvs IH]; intros o; simpl.
  - rewrite (elem_of_nil k). tauto.
  - rewrite IH, obj_keys_set, elem_of_cons. tauto.
Qed.
End obj.

(** Objects that agree on every property, whatever the order of the keys. *)
Definition obj_equiv {A} (o1 o2 : obj A) : Prop := ∀ k, obj_get k o1 = obj_get k o2.
Infix "≡ₒ" := obj_equiv (at level 70, no associativity).

#[export] Instance obj_equiv_equivalence {A} : Equivalence (@obj_equiv A).
Proof. split; unfold obj_equiv; [intros ?|intros ?|intros ???]; naive_solver congruence. Qed.

#[export] Instance obj_get_proper {A} k : Proper (obj_equiv ==> eq) (@obj_get A k).
Proof. intros o1 o2 H. apply H. Qed.

#[export] Instance obj_set_proper {A} k v : Proper (obj_equiv ==> obj_equiv) (@obj_set A k v).
Proof. intros o1 o2 H k'. by rewrite !obj_get_set, (H k'). Qed.

#[export] Instance obj_del_proper {A} k : Proper (obj_equiv ==> obj_equiv) (@obj_del A k).
Proof. intros o1 o2 H k'. by rewrite !obj_get_del, (H k'). Qed.

#[export] Instance obj_keys_proper {A} : Proper (obj_equiv ==> same_elems) (@obj_keys A).
Proof. intros o1 o2 H k. by rewrite !elem_of_obj_keys, (H k). Qed.

#[export] Hint Resolve obj_wf_nil obj_set_wf obj_del_wf obj_assign_wf obj_wf_NoDup : soldr.
#[export] Hint Rewrite @obj_get_set_eq @obj_get_del_eq @obj_keys_set @obj_keys_del
  @obj_keys_assign : soldr.

(** ** Values *)

Inductive num :=
| NInt (z : Z)            (* an integer below [2^53] in magnitude *)
| NText (text : string)   (* any other finite double, by its [Number::toString] text *)
| NNaN
| NInf (negative : bool).

#[export] Instance num_eq_dec : EqDecision num.
Proof. solve_decision. Defined.

Unset Elimination Schemes.
Inductive val :=
| VUndef
| VNull
| VBool (b : bool)
| VNum (n : num)
| VStr (s : string)
| VArr (l : list val)
| VObj (o : obj val).
Set Elimination Schemes.

(** Induction with hypotheses for the elements of arrays and objects. *)
Section val_ind.
Context (P : val → Prop).
Context (Hundef : P VUndef) (Hnull : P VNull) (Hbool : ∀ b, P (VBool b))
  (Hnum : ∀ n, P (VNum n)) (Hstr : ∀ s, P (VStr s))
  (Harr : ∀ l, Forall P l → P (VArr l))
  (Hobj : ∀ o, Forall (λ kv, P kv.2) o → P (VObj o)).

Fixpoint val_nested_ind (v : val) : P v :=
  match v with
  | VUndef => Hundef
  | VNull => Hnull
  | VBool b => Hbool b
  | VNum n => Hnum n
  | VStr s => Hstr s
  | VArr l => Harr l ((fix go l : Forall P l :=
      match l with
      | [] => List.Forall_nil _
      | v :: l => List.Forall_cons _ v l (val_nested_ind v) (go l)
      end) l)
  | VObj o => Hobj o ((fix go (o : obj val) : Forall (λ kv, P kv.2) o :=
      match o with
      | [] => List.Forall_nil _
      | kv :: o => List.Forall_cons _ kv o (val_nested_ind kv.2) (go o)
      end) o)
  end.
End val_ind.

Definition vint (z : Z) : val := VNum (NInt z).
Definition vlen {A} (l : list A) : val := vint (Z.of_nat (length l)).
Definition vstrs (l : list string) : val := VArr (VStr <$> l).

(** The nesting depth of a value. *)
Fixpoint val_depth (v : val) : nat :=
  match v with
  | VArr l => S (list_max (map val_depth l))
  | VObj o => S (list_max (map (λ kv, val_depth kv.2) o))
  | _ => 1
  end.

(** *** Classification *)

Definition num_falsy (n : num) : bool :=
  match n with NInt z => bool_decide (z = 0%Z) | NNaN => true | _ => false end.

(** [!!v]. *)
Definition truthy (v : val) : bool :=
  match v with
  | VUndef | VNull => false
  | VBool b => b
  | VNum n => negb (num_falsy n)
  | VStr s => negb (String.eqb s "")
  | VArr _ | VObj _ => true
  end.

(** [a || b] and [a && b]: the operands, not booleans. *)
Definition js_or (a b : val) : val := if truthy a then a else b.
Definition js_and (a b : val) : val := if truthy a then b else a.

Definition is_undef (v : val) : bool := match v with VUndef => true | _ => false end.
Definition is_nullish (v : val) : bool :=
  match v with VUndef | VNull => true | _ => false end.
Definition is_array (v : val) : bool := match v with VArr _ => true | _ => false end.

(** [typeof v]. *)
Definition typeof (v : val) : string :=
  match v with
  | VUndef => "undefined"
  | VNull | VArr _ | VObj _ => "object"
  | VBool _ => "boolean"
  | VNum _ => "number"
  | VStr _ => "string"
  end.

(** [v === s] for a string [s]. *)
Definition is_str (v : val) (s : string) : bool :=
  match v with VStr t => String.eqb t s | _ => false end.

(** [v === w] when one side is known to be a primitive. *)
Definition strict_eq (v w : val) : bool :=
  match v, w with
  | VUndef, VUndef | VNull, VNull => true
  | VBool a, VBool b => Bool.eqb a b
  | VNum NNaN, VNum NNaN => false
  | VNum a, VNum b => bool_decide (a = b)
  | VStr a, VStr b => String.eqb a b
  | _, _ => false
  end.

(** *** Conversion to strings *)

Definition num_to_string (n : num) : string :=
  match n with
  | NInt z => pretty z
  | NText t => t
  | NNaN => "NaN"
  | NInf false => "Infinity"
  | NInf true => "-Infinity"
  end.

(** [String(v)]: arrays are joined with commas, their [undefined] and [null]
    elements printing as nothing. *)
Fixpoint to_string (v : val) : string :=
  match v with
  | VUndef => "undefined"
  | VNull => "null"
  | VBool b => if b then "true" else "false"
  | VNum n => num_to_string n
  | VStr s => s
  | VArr l => String.concat ","
      (map (λ v, match v with VUndef | VNull => "" | _ => to_string v end) l)
  | VObj _ => "[object Object]"
  end.

(** ** Properties *)

Definition obj_lookup (k : string) (o : obj val) : val := default VUndef (obj_get k o).

Definition char_at (s : string) (i : nat) : val :=
  match String.get i s with Some c => VStr (String c "") | None => VUndef end.

(** [v.k] and [v[k]]. *)
Definition get (v : val) (k : string) : res val :=
  match v with
  | VUndef | VNull => Throw TypeError
  | VObj o => Ok (obj_lookup k o)
  | VArr l =>
      if String.eqb k "length" then Ok (vlen l)
      else Ok (match array_index k with
               | Some i => default VUndef (l !! N.to_nat i)
               | None => VUndef
               end)
  | VStr s =>
      if String.eqb k "length" then Ok (vint (Z.of_nat (String.length s)))
      else Ok (match array_index k with
               | Some i => char_at s (N.to_nat i)
               | None => VUndef
               end)
  | VBool _ | VNum _ => Ok VUndef
  end.

(** [v?.k]. *)
Definition getq (v : val) (k : string) : res val :=
  if is_nullish v then Ok VUndef else get v k.

(** [v.k1.k2...]. *)
Fixpoint get_path (v : val) (p : list string) : res val :=
  match p with
  | [] => Ok v
  | k :: p => w ← get v k; get_path w p
  end.

(** [v?.k1.k2...]: optional chaining skips the whole chain. *)
Definition getq_path (v : val) (p : list string) : res val :=
  if is_nullish v then Ok VUndef else get_path v p.

(** [v.k = x]: the updated [v].  ES modules are strict code, so a write to a
    primitive throws.  Arrays are extended by one element at most; a write
    that would leave a hole or name a property is not represented. *)
Definition set (v : val) (k : string) (x : val) : res val :=
  match v with
  | VObj o => Ok (VObj (obj_set k x o))
  | VArr l =>
      match array_index k with
      | Some i =>
          if bool_decide (N.to_nat i < length l) then Ok (VArr (<[N.to_nat i := x]> l))
          else if bool_decide (N.to_nat i = length l) then Ok (VArr (l ++ [x]))
          else Throw Unsupported
      | None => Throw Unsupported
      end
  | _ => Throw TypeError
  end.

(** [delete v.k]: the updated [v]. *)
Definition del (v : val) (k : string) : res val :=
  match v with
  | VUndef | VNull => Throw TypeError
  | VObj o => Ok (VObj (obj_del k o))
  | VArr l =>
      match array_index k with
      | Some i => if bool_decide (N.to_nat i < length l) then Throw Unsupported else Ok v
      | None => if String.eqb k "length" then Throw TypeError else Ok v
      end
  | VStr s =>
      match array_index k with
      | Some i =>
          if bool_decide (N.to_nat i < String.length s) then Throw TypeError else Ok v
      | None => if String.eqb k "length" then Throw TypeError else Ok v
      end
  | VBool _ | VNum _ => Ok v
  end.

(** [v.k1...kn = f(v.k1...kn)]: an update in place at the end of a path; the
    objects on the way must exist. *)
Fixpoint update_path (v : val) (p : list string) (f : val → res val) : res val :=
  match p with
  | [] => f v
  | k :: p =>
      w ← get v k;
      w' ← update_path w p f;
      set v k w'
  end.

Definition index_keys (n : nat) : list string := pretty <$> seq 0 n.

(** [Object.keys(v)]. *)
Definition Object_keys (v : val) : res (list string) :=
  match v with
  | VUndef | VNull => Throw TypeError
  | VObj o => Ok (obj_keys o)
  | VArr l => Ok (index_keys (length l))
  | VStr s => Ok (index_keys (String.length s))
  | VBool _ | VNum _ => Ok []
  end.

Definition chars (s : string) : list val :=
  (λ c, VStr (String c "")) <$> String.list_ascii_of_string s.

(** The properties an object spread [{...v}] copies; [undefined] and [null]
    contribute nothing. *)
Definition own_props (v : val) : obj val :=
  match v with
  | VObj o => o
  | VArr l => zip (index_keys (length l)) l
  | VStr s => zip (index_keys (String.length s)) (chars s)
  | _ => []
  end.

(** [{...v, k1: x1, ...}]. *)
Definition spread (v : val) (kvs : obj val) : val := VObj (obj_assign (own_props v) kvs).

(** [{k1: x1, ...}]. *)
Definition obj_lit (kvs : obj val) : val := VObj (obj_assign [] kvs).

(** [{...v, ...w}]. *)
Definition spread2 (v w : val) : val := spread v (own_props w).

(** [Object.values(v)]. *)
Definition Object_values (v : val) : res (list val) :=
  match v with
  | VUndef | VNull => Throw TypeError
  | _ => Ok (own_props v).*2
  end.

(** [Object.entries(v)]. *)
Definition Object_entries (v : val) : res (obj val) :=
  match v with
  | VUndef | VNull => Throw TypeError
  | _ => Ok (own_props v)
  end.

(** [[...v]] and [for (const x of v)]: arrays and strings are iterable. *)
Definition iter (v : val) : res (list val) :=
  match v with
  | VArr l => Ok l
  | VStr s => Ok (chars s)
  | _ => Throw TypeError
  end.

(** The receiver of an array method ([v.map], [v.filter], ...). *)
Definition as_array (v : val) : res (list val) :=
  match v with VArr l => Ok l | _ => Throw TypeError end.

(** The receiver of a string method ([v.replace], [v.split], ...). *)
Definition as_string (v : val) : res string :=
  match v with VStr s => Ok s | _ => Throw TypeError end.

(** *** Total reading, for specifications *)

(** The value at a path of object properties, [undefined] when there is none.
    The modelled code reads with [get]; specifications read with [at_path]. *)
Definition prop (v : val) (k : string) : val :=
  match v with VObj o => obj_lookup k o | _ => VUndef end.

Fixpoint at_path (v : val) (p : list string) : val :=
  match p with
  | [] => v
  | k :: p => at_path (prop v k) p
  end.

Infix "@@" := at_path (at level 25, left associativity).

(** The keys of an object. *)
Definition keys_of (v : val) : list string :=
  match v with VObj o => obj_keys o | _ => [] end.

Definition is_obj (v : val) : Prop := ∃ o, v = VObj o.

Lemma get_obj o k : get (VObj o) k = Ok (obj_lookup k o).
Proof. done. Qed.

Lemma get_is_obj v k : is_obj v → get v k = Ok (prop v k).
Proof. by intros [o ->]. Qed.

Lemma getq_obj v k : is_obj v → getq v k = Ok (prop v k).
Proof. by intros [o ->]. Qed.

Lemma prop_spread v kvs k :
  prop (spread v kvs) k =
    match obj_get k (reverse kvs) with
    | Some x => x
    | None => default VUndef (obj_get k (own_props v))
    end.
Proof.
  unfold prop, spread, obj_lookup. simpl. rewrite obj_get_assign.
  by destruct (obj_get k (reverse kvs)).
Qed.

Lemma own_props_obj o : own_props (VObj o) = o.
Proof. done. Qed.

Lemma keys_of_spread v kvs k :
  k ∈ keys_of (spread v kvs) ↔ k ∈ obj_keys (own_props v) ∨ k ∈ obj_keys kvs.
Proof. apply obj_keys_assign. Qed.

Lemma get_path_app v p q : get_path v (p ++ q) = w ← get_path v p; get_path w q.
Proof.
  revert v. induction p as [|k p IH]; intros v; [done|]. simpl.
  destruct (get v k); [apply IH|done].
Qed.

(** ** Writing a property of an object *)

Definition put (v : val) (k : string) (x : val) : val :=
  match v with VObj o => VObj (obj_set k x o) | _ => v end.

Lemma set_put v k x : is_obj v → set v k x = Ok (put v k x).
Proof. by intros [o ->]. Qed.

Lemma put_is_obj v k x : is_obj v → is_obj (put v k x).
Proof. intros [o ->]. by eexists. Qed.

Lemma prop_put v k x k' : is_obj v → prop (put v k x) k' = if decide (k' = k) then x else prop v k'.
Proof.
  intros [o ->]. cbn. unfold obj_lookup. case_decide as Hk; [subst; by rewrite obj_get_set_eq|].
  by rewrite obj_get_set_ne.
Qed.
