(* ===== verification/JsJson.v ===== *)
(** * JSON text and JSON cloning

    [JSON.stringify], the composition [JSON.parse(JSON.stringify(v))] that the
    client uses to copy values ([libs/shared/.../clone.ts]), and the class of
    values on which that copy is exact. *)

From S2P Require Import Prelude JsString JsValue.
From Stdlib Require Import Ascii.

(** ** JSON values *)

Definition num_finite (n : num) : bool :=
  match n with NInt _ | NText _ => true | NNaN | NInf _ => false end.

#[export] Instance obj_wf_dec {A} (o : obj A) : Decision (obj_wf o).
Proof. unfold obj_wf. apply _. Defined.

(** A value that JSON can represent: no [undefined], finite numbers only, and
    well-formed property maps, at every depth. *)
Fixpoint is_json (v : val) : bool :=
  match v with
  | VUndef => false
  | VNull | VBool _ | VStr _ => true
  | VNum n => num_finite n
  | VArr l => forallb is_json l
  | VObj o => bool_decide (obj_wf o) && forallb (λ kv, is_json kv.2) o
  end.

(** [JSON.parse(JSON.stringify(v))]: [None] when [JSON.stringify] returns
    [undefined].  Properties with an undefined value are dropped, undefined
    array elements and non-finite numbers become [null]. *)
Fixpoint json_norm (v : val) : option val :=
  match v with
  | VUndef => None
  | VNum NNaN | VNum (NInf _) => Some VNull
  | VArr l => Some (VArr (map (λ v, default VNull (json_norm v)) l))
  | VObj o => Some (VObj ((fix go (o : obj val) : obj val :=
      match o with
      | [] => []
      | (k, v) :: o =>
          match json_norm v with Some w => (k, w) :: go o | None => go o end
      end) o))
  | _ => Some v
  end.

Fixpoint norm_props (o : obj val) : obj val :=
  match o with
  | [] => []
  | (k, v) :: o =>
      match json_norm v with Some w => (k, w) :: norm_props o | None => norm_props o end
  end.

Lemma json_norm_obj o : json_norm (VObj o) = Some (VObj (norm_props o)).
Proof. done. Qed.

Lemma json_norm_None v : json_norm v = None ↔ v = VUndef.
Proof.
  split; [|by intros ->]. destruct v as [| | |[]| | |]; try done.
Qed.

(** [clone(value)] of [clone.ts]: [JSON.parse(undefined)] throws and the
    function then returns [undefined]. *)
Definition clone (v : val) : val := default VUndef (json_norm v).

Lemma clone_obj o : clone (VObj o) = VObj (norm_props o).
Proof. unfold clone. by rewrite json_norm_obj. Qed.

Lemma forallb_Forall {A} (f : A → bool) l :
  forallb f l = true ↔ Forall (λ x, f x = true) l.
Proof.
  rewrite Forall_forall. setoid_rewrite list_elem_of_In. apply List.forallb_forall.
Qed.

Lemma is_json_arr l : is_json (VArr l) = true ↔ Forall (λ v, is_json v = true) l.
Proof. apply forallb_Forall. Qed.

Lemma is_json_obj o :
  is_json (VObj o) = true ↔ obj_wf o ∧ Forall (λ kv, is_json kv.2 = true) o.
Proof. simpl. by rewrite andb_true_iff, bool_decide_eq_true, forallb_Forall. Qed.

(** On JSON values the copy is exact. *)
Lemma json_norm_json v : is_json v = true → json_norm v = Some v.
Proof.
  induction v as [| | |n| |l IH|o IH] using val_nested_ind; intros Hv; try done.
  - by destruct n.
  - apply is_json_arr in Hv. simpl. do 2 f_equal.
    induction l as [|v l IHl]; [done|]. inversion IH; inversion Hv; subst. simpl.
    f_equal; [|auto]. by rewrite H1.
  - apply is_json_obj in Hv as [_ Hv]. rewrite json_norm_obj. do 2 f_equal.
    induction o as [|[k v] o IHo]; [done|]. inversion IH; inversion Hv; subst. simpl in *.
    rewrite H1 by done. f_equal. auto.
Qed.

Lemma clone_json v : is_json v = true → clone v = v.
Proof. intros Hv. unfold clone. by rewrite json_norm_json. Qed.

(** Cloning only ever drops keys, and keeps those with a defined value. *)
Lemma norm_props_keys o k :
  k ∈ obj_keys (norm_props o) → k ∈ obj_keys o.
Proof.
  unfold obj_keys. induction o as [|[k1 v] o IH]; simpl; [done|].
  rewrite elem_of_cons. destruct (json_norm v); simpl; [rewrite elem_of_cons|]; naive_solver.
Qed.

Definition defined (v : val) : Prop := v ≠ VUndef.

#[export] Instance defined_dec v : Decision (defined v).
Proof. unfold defined. destruct v; try (left; done); right; by intros []. Defined.

Lemma norm_props_all_keys o :
  Forall (λ kv, defined kv.2) o → obj_keys (norm_props o) = obj_keys o.
Proof.
  unfold obj_keys. induction 1 as [|[k v] o Hv _ IH]; [done|]. simpl in *.
  destruct (json_norm v) eqn:He; [|by apply json_norm_None in He].
  simpl. by f_equal.
Qed.

Lemma obj_get_norm_props o k :
  Forall (λ kv, defined kv.2) o →
  obj_get k (norm_props o) = obj_get k o ≫= json_norm.
Proof.
  induction 1 as [|[k1 v] o Hv _ IH]; [done|]. simpl in *.
  destruct (json_norm v) eqn:He; [|by apply json_norm_None in He]. simpl.
  destruct (String.eqb k k1); [by rewrite <-He|done].
Qed.

Lemma norm_props_defined o : Forall (λ kv, defined kv.2) (norm_props o).
Proof.
  induction o as [|[k v] o IH]; simpl; [done|].
  destruct (json_norm v) eqn:He; [|done]. constructor; [|done]. simpl. intros ->.
  destruct v as [| | |[]| | |]; try done.
Qed.

Lemma norm_props_wf o : obj_wf o → obj_wf (norm_props o).
Proof.
  induction o as [|[k v] o IH]; intros Hwf; [done|]. simpl.
  apply obj_wf_cons_inv in Hwf as (Hk & Hwf & Hf).
  destruct (json_norm v); [|auto]. apply obj_wf_cons; [|auto|].
  - intros Hin. by apply norm_props_keys in Hin.
  - apply Forall_forall. intros x Hx%norm_props_keys. rewrite Forall_forall in Hf. auto.
Qed.

(** ** [JSON.stringify] *)

Definition hex_digit (n : N) : ascii :=
  ascii_of_N (if (n <? 10)%N then 48 + n else 87 + n)%N.

(** One character of a JSON string literal. *)
Definition escape_char (c : ascii) : string :=
  match N_of_ascii c with
  | 8 => "\b" | 9 => "\t" | 10 => "\n" | 12 => "\f" | 13 => "\r"
  | 34 => String "\" (String (ascii_of_N 34) "")
  | 92 => "\\"
  | n => if (n <? 32)%N
         then "\u00" +:+ String (hex_digit (n / 16)) (String (hex_digit (n mod 16)) "")
         else String c ""
  end%N.

Fixpoint escape (s : string) : string :=
  match s with
  | EmptyString => EmptyString
  | String c s => escape_char c +:+ escape s
  end.

Definition dquote : string := String (ascii_of_N 34) "".

Definition quote (s : string) : string := dquote +:+ escape s +:+ dquote.

(** The text of a value other than [undefined] ([undefined] inside an array
    prints as [null]); no white space. *)
Fixpoint json_text (v : val) : string :=
  match v with
  | VUndef | VNull => "null"
  | VBool b => if b then "true" else "false"
  | VNum n => if num_finite n then num_to_string n else "null"
  | VStr s => quote s
  | VArr l => "[" +:+ String.concat "," (map json_text l) +:+ "]"
  | VObj o =>
      "{" +:+ String.concat ","
        ((fix go (o : obj val) : list string :=
          match o with
          | [] => []
          | (k, v) :: o =>
              if is_undef v then go o else (quote k +:+ ":" +:+ json_text v) :: go o
          end) o) +:+ "}"
  end.

(** [JSON.stringify(v)]. *)
Definition stringify (v : val) : option string :=
  if is_undef v then None else Some (json_text v).

Example stringify_example :
  stringify (VObj [("a", vint 1); ("b", VArr [VStr "x"; VUndef]); ("c", VUndef)])
  = Some ("{" +:+ dquote +:+ "a" +:+ dquote +:+ ":1," +:+ dquote +:+ "b" +:+ dquote
          +:+ ":[" +:+ dquote +:+ "x" +:+ dquote +:+ ",null]}").
Proof. vm_compute. reflexivity. Qed.
