(* ===== verification/JsonText.v ===== *)
(** * Reading JSON text

    [JSON.parse], and [JSON.stringify] with an indentation: the forms of the
    module editor keep the free part of a parameter as indented JSON text, and
    several utilities work on the text of a schema.  The parser is the grammar
    of ECMA-404 as functions on strings; [json_parse_print] relates it to the
    printer: parsing the text of a value gives the value back, less what JSON
    cannot express ([JsJson.json_norm]).

    Numbers written with a fraction or an exponent, integers above [2^53], [-0]
    and escapes of code units above 255 are read as [Throw Unsupported]. *)

From S2P Require Import Prelude JsString JsValue JsJson.
From Stdlib Require Import Ascii.

(** ** Indented text *)

Definition newline : string := String (ascii_of_N 10) "".

Section print.
Context (gap : string).

(** The line break before an item; nothing when there is no indentation. *)
Definition line_break (indent : string) : string :=
  if String.eqb gap "" then "" else newline +:+ indent.

Definition bracketed (indent o c : string) (items : list string) : string :=
  match items with
  | [] => o +:+ c
  | _ =>
      let sep := line_break (indent +:+ gap) in
      o +:+ sep +:+ String.concat ("," +:+ sep) items +:+ line_break indent +:+ c
  end.

(** [SerializeJSONProperty] at the given indentation. *)
Fixpoint json_print (indent : string) (v : val) : string :=
  match v with
  | VUndef | VNull => "null"
  | VBool b => if b then "true" else "false"
  | VNum n => if num_finite n then num_to_string n else "null"
  | VStr s => quote s
  | VArr l => bracketed indent "[" "]" (map (json_print (indent +:+ gap)) l)
  | VObj o => bracketed indent "{" "}"
      ((fix go (o : obj val) : list string :=
        match o with
        | [] => []
        | (k, v) :: o =>
            if is_undef v then go o
            else (quote k +:+ ":" +:+ (if String.eqb gap "" then "" else " ")
                  +:+ json_print (indent +:+ gap) v) :: go o
        end) o)
  end.

Fixpoint print_members (indent : string) (o : obj val) : list string :=
  match o with
  | [] => []
  | (k, v) :: o =>
      if is_undef v then print_members indent o
      else (quote k +:+ ":" +:+ (if String.eqb gap "" then "" else " ")
            +:+ json_print indent v) :: print_members indent o
  end.

Lemma json_print_obj indent o :
  json_print indent (VObj o) =
    bracketed indent "{" "}" (print_members (indent +:+ gap) o).
Proof.
  simpl. f_equal.
  induction o as [|[k v] o IH]; simpl; [done|]. by rewrite IH.
Qed.
End print.

Definition TAB_SIZE : string := "  ".

(** [JSON.stringify(v, undefined, 2)] of a value that is not [undefined]. *)
Definition json_text_2 (v : val) : string := json_print TAB_SIZE "" v.

(** ** [JSON.parse] *)

Definition dquote_char : ascii := ascii_of_N 34.

Definition is_space (c : ascii) : bool :=
  match N_of_ascii c with 9 | 10 | 13 | 32 => true | _ => false end%N.

Fixpoint skip_space (s : string) : string :=
  match s with
  | EmptyString => EmptyString
  | String c s' => if is_space c then skip_space s' else s
  end.

(** The next character that is not white space. *)
Definition next_char (s : string) : res (ascii * string) :=
  match skip_space s with
  | EmptyString => Throw SyntaxError
  | String c s => Ok (c, s)
  end.

Definition hex_value (c : ascii) : option N :=
  let n := N_of_ascii c in
  (if (48 <=? n) && (n <=? 57) then Some (n - 48)
   else if (97 <=? n) && (n <=? 102) then Some (n - 87)
   else if (65 <=? n) && (n <=? 70) then Some (n - 55)
   else None)%N.

Definition hex4 (a b c d : ascii) : option N :=
  a ← hex_value a; b ← hex_value b; c ← hex_value c; d ← hex_value d;
  Some (((a * 16 + b) * 16 + c) * 16 + d)%N.

(** The character after a backslash, other than [u]. *)
Definition unescape (c : ascii) : option ascii :=
  match N_of_ascii c with
  | 34 | 47 | 92 => Some c
  | 98 => Some (ascii_of_N 8)
  | 102 => Some (ascii_of_N 12)
  | 110 => Some (ascii_of_N 10)
  | 114 => Some (ascii_of_N 13)
  | 116 => Some (ascii_of_N 9)
  | _ => None
  end%N.

(** A string literal after its opening quote, and the text after it. *)
Fixpoint parse_chars (s : string) : res (string * string) :=
  match s with
  | EmptyString => Throw SyntaxError
  | String c s =>
      if Ascii.eqb c dquote_char then Ok ("", s)
      else if Ascii.eqb c "\" then
        match s with
        | EmptyString => Throw SyntaxError
        | String e s =>
            if Ascii.eqb e "u" then
              match s with
              | String a (String b (String c (String d s))) =>
                  match hex4 a b c d with
                  | None => Throw SyntaxError
                  | Some n =>
                      if (n <? 256)%N
                      then r ← parse_chars s; Ok (String (ascii_of_N n) r.1, r.2)
                      else Throw Unsupported
                  end
              | _ => Throw SyntaxError
              end
            else match unescape e with
                 | Some c => r ← parse_chars s; Ok (String c r.1, r.2)
                 | None => Throw SyntaxError
                 end
        end
      else if (N_of_ascii c <? 32)%N then Throw SyntaxError
      else r ← parse_chars s; Ok (String c r.1, r.2)
  end.

(** *** Numbers *)

Fixpoint span_digits (s : string) : string * string :=
  match s with
  | EmptyString => (EmptyString, EmptyString)
  | String c s' =>
      match digit_of c with
      | Some _ => (String c (span_digits s').1, (span_digits s').2)
      | None => (EmptyString, s)
      end
  end.

Definition skip_digits (s : string) : res string :=
  match span_digits s with
  | (EmptyString, _) => Throw SyntaxError
  | (_, rest) => Ok rest
  end.

Definition skip_fraction (s : string) : res string :=
  match s with
  | String c s' => if Ascii.eqb c "." then skip_digits s' else Ok s
  | EmptyString => Ok s
  end.

Definition skip_exponent (s : string) : res string :=
  match s with
  | String c s' =>
      if Ascii.eqb c "e" || Ascii.eqb c "E" then
        match s' with
        | String d s'' =>
            if Ascii.eqb d "+" || Ascii.eqb d "-" then skip_digits s'' else skip_digits s'
        | EmptyString => Throw SyntaxError
        end
      else Ok s
  | EmptyString => Ok s
  end.

(** A number starts with no superfluous zero. *)
Definition leading_zero (ds : string) : bool :=
  match ds with
  | String c (String _ _) => Ascii.eqb c "0"
  | _ => false
  end.

Definition parse_number (s : string) : res (val * string) :=
  let neg := starts_with "-" s in
  let (ds, rest) := span_digits (drop_prefix "-" s) in
  match parse_digits ds with
  | None => Throw SyntaxError
  | Some n =>
      if leading_zero ds then Throw SyntaxError
      else
        rest1 ← skip_fraction rest;
        rest2 ← skip_exponent rest1;
        if String.eqb rest2 rest && (n <=? two53)%N && negb (neg && (n =? 0)%N)
        then Ok (vint (if neg then - Z.of_N n else Z.of_N n), rest)
        else Throw Unsupported
  end.

(** *** Values *)

Definition literals : list (string * val) :=
  [("true", VBool true); ("false", VBool false); ("null", VNull)].

Fixpoint parse_literal (ls : list (string * val)) (s : string) : option (val * string) :=
  match ls with
  | [] => None
  | (word, v) :: ls =>
      match strip_prefix word s with
      | Some rest => Some (v, rest)
      | None => parse_literal ls s
      end
  end.

(** A value, the rest of an array after [[] or a comma, the rest of an object
    after [{] or a comma, each with the text after it.  The fuel bounds the
    calls; [parse_fuel] shows that the text's length suffices. *)
Fixpoint parse_value (fuel : nat) (s : string) {struct fuel} : res (val * string) :=
  match fuel with
  | O => Throw Unsupported
  | S fuel =>
      cs ← next_char s;
      if Ascii.eqb cs.1 "{" then
        d ← next_char cs.2;
        if Ascii.eqb d.1 "}" then Ok (VObj [], d.2) else parse_members fuel [] cs.2
      else if Ascii.eqb cs.1 "[" then
        d ← next_char cs.2;
        if Ascii.eqb d.1 "]" then Ok (VArr [], d.2) else parse_elements fuel [] cs.2
      else if Ascii.eqb cs.1 dquote_char then
        r ← parse_chars cs.2; Ok (VStr r.1, r.2)
      else match parse_literal literals (String cs.1 cs.2) with
           | Some r => Ok r
           | None => parse_number (String cs.1 cs.2)
           end
  end
with parse_elements (fuel : nat) (acc : list val) (s : string) {struct fuel} :
    res (val * string) :=
  match fuel with
  | O => Throw Unsupported
  | S fuel =>
      r ← parse_value fuel s;
      d ← next_char r.2;
      if Ascii.eqb d.1 "," then parse_elements fuel (acc ++ [r.1]) d.2
      else if Ascii.eqb d.1 "]" then Ok (VArr (acc ++ [r.1]), d.2)
      else Throw SyntaxError
  end
with parse_members (fuel : nat) (acc : obj val) (s : string) {struct fuel} :
    res (val * string) :=
  match fuel with
  | O => Throw Unsupported
  | S fuel =>
      q ← next_char s;
      if Ascii.eqb q.1 dquote_char then
        k ← parse_chars q.2;
        colon ← next_char k.2;
        if Ascii.eqb colon.1 ":" then
          r ← parse_value fuel colon.2;
          d ← next_char r.2;
          let acc := obj_set k.1 r.1 acc in
          if Ascii.eqb d.1 "," then parse_members fuel acc d.2
          else if Ascii.eqb d.1 "}" then Ok (VObj acc, d.2)
          else Throw SyntaxError
        else Throw SyntaxError
      else Throw SyntaxError
  end.

Definition json_fuel (s : string) : nat := 2 * String.length s + 2.

(** [JSON.parse(s)]. *)
Definition json_parse (s : string) : res val :=
  r ← parse_value (json_fuel s) s;
  if String.eqb (skip_space r.2) "" then Ok r.1 else Throw SyntaxError.

Example json_parse_example :
  json_parse (json_text_2 (VObj [("a", vint (-12)); ("b", VArr [VStr "x"; VArr []; VNull])]))
  = Ok (VObj [("a", vint (-12)); ("b", VArr [VStr "x"; VArr []; VNull])]).
Proof. vm_compute. reflexivity. Qed.

Example json_parse_errors :
  map json_parse [""; "{"; "[1,]"; "01"; "1.5"; "nul"; "[1] 2"; "{" +:+ dquote +:+ "a" +:+ dquote +:+ "}"]
  = [Throw SyntaxError; Throw SyntaxError; Throw SyntaxError; Throw SyntaxError;
     Throw Unsupported; Throw SyntaxError; Throw SyntaxError; Throw SyntaxError].
Proof. vm_compute. reflexivity. Qed.

(** ** Reading what was printed *)

#[local] Arguments String.append : simpl nomatch.

Ltac step_eqb :=
  repeat match goal with
  | |- context [Ascii.eqb ?a ?b] =>
      is_ground a; is_ground b;
      let r := eval vm_compute in (Ascii.eqb a b) in change (Ascii.eqb a b) with r; cbn iota
  end.

(** *** Strings *)

Lemma parse_chars_escape_char c s :
  parse_chars (escape_char c +:+ s) = r ← parse_chars s; Ok (String c r.1, r.2).
Proof. destruct c as [[] [] [] [] [] [] [] []]; reflexivity. Qed.

Lemma parse_chars_escape t s : parse_chars (escape t +:+ String dquote_char s) = Ok (t, s).
Proof.
  induction t as [|c t IH]; [reflexivity|].
  cbn [escape]. by rewrite string_app_assoc, parse_chars_escape_char, IH.
Qed.

(** *** Numbers *)

(** A text at whose start a number has ended. *)
Definition number_ends (s : string) : Prop :=
  match s with
  | EmptyString => True
  | String c _ =>
      digit_of c = None ∧ Ascii.eqb c "." = false
      ∧ Ascii.eqb c "e" = false ∧ Ascii.eqb c "E" = false
  end.

Lemma span_digits_app ds rest acc n :
  digits_acc acc ds = Some n → number_ends rest → span_digits (ds +:+ rest) = (ds, rest).
Proof.
  intros Hd Hr. revert acc Hd. induction ds as [|c ds IH]; intros acc Hd; simpl in *.
  - destruct rest as [|c rest]; [done|]. simpl in *. by destruct Hr as [-> _].
  - destruct (digit_of c) as [d|]; [|done]. simpl in Hd. by rewrite (IH _ Hd).
Qed.

Lemma skip_rest_ends s : number_ends s → (r ← skip_fraction s; skip_exponent r) = Ok s.
Proof.
  destruct s as [|c s]; [done|]. intros (Hd & H1 & H2 & H3). simpl. rewrite H1. simpl.
  by rewrite H2, H3.
Qed.

Lemma pretty_N_go_first n s :
  (n ≠ 0)%N → ∃ c t, pretty_N_go n s = String c t ∧ Ascii.eqb c "0" = false
                     ∧ (n < 10 ∧ t = s ∨ t ≠ "")%N.
Proof.
  revert s. induction (N.lt_wf_0 n) as [n _ IH]; intros s Hn.
  rewrite pretty_N_go_step by lia.
  destruct (decide (n / 10 = 0)%N) as [Hz|Hz].
  - apply N.div_small_iff in Hz; [|done]. rewrite N.div_small, N.mod_small by done.
    exists (pretty_N_char n), s. split; [done|]. split; [|by left].
    assert (n = 1 ∨ n = 2 ∨ n = 3 ∨ n = 4 ∨ n = 5 ∨ n = 6 ∨ n = 7 ∨ n = 8 ∨ n = 9)%N by lia.
    by repeat match goal with H : _ ∨ _ |- _ => destruct H as [->|H] end; subst.
  - destruct (IH (n / 10)%N) with (s := String (pretty_N_char (n mod 10)) s)
      as (c & t & Hc & H0 & Ht); [apply N.div_lt; lia|done|].
    exists c, t. split; [done|]. split; [done|]. right. destruct Ht as [[_ ->]|Ht]; done.
Qed.

Lemma pretty_no_leading_zero (n : N) : leading_zero (pretty n) = false.
Proof.
  unfold pretty, pretty_N. case_decide as Hn; [done|].
  destruct (pretty_N_go_first n "") as (c & t & -> & Hc & _); [done|].
  destruct t; simpl; [done|]. done.
Qed.

Lemma pretty_N_cons (n : N) :
  ∃ c t, pretty n = String c t ∧ is_Some (digit_of c).
Proof.
  pose proof (parse_digits_pretty n) as H. destruct (pretty n) as [|c t]; [done|].
  exists c, t. split; [done|]. simpl in H. destruct (digit_of c); [by eexists|done].
Qed.

Lemma digits_acc_pretty (n : N) : digits_acc 0 (pretty n) = Some n.
Proof.
  pose proof (parse_digits_pretty n) as H. unfold parse_digits in H.
  by destruct (pretty n).
Qed.

Lemma strip_minus_digit c s : is_Some (digit_of c) → strip_prefix "-" (String c s) = None.
Proof. by destruct c as [[] [] [] [] [] [] [] []]; intros [? ?]. Qed.

Definition small_int (z : Z) : Prop := (Z.abs z <= Z.of_N two53)%Z.

Lemma parse_number_pretty (z : Z) rest :
  small_int z → number_ends rest →
  parse_number (pretty z +:+ rest) = Ok (vint z, rest).
Proof.
  intros Hz Hr.
  assert (∃ (neg : bool) (n : N), pretty z = (if neg then "-" else "") +:+ pretty n
    ∧ z = (if neg then - Z.of_N n else Z.of_N n)%Z ∧ (neg = true → n ≠ 0%N)
    ∧ (n <= two53)%N) as (neg & n & -> & Hv & Hn & Hb).
  { unfold small_int in Hz. destruct z as [|p|p].
    - by exists false, 0%N.
    - exists false, (N.pos p). repeat split; [done|]. lia.
    - exists true, (N.pos p). repeat split; [done|]. lia. }
  destruct (pretty_N_cons n) as (c & t & Hp & Hc).
  unfold parse_number.
  assert (starts_with "-" (((if neg then "-" else "") +:+ pretty n) +:+ rest) = neg) as ->.
  { destruct neg; [done|]. rewrite Hp. unfold starts_with.
    change (("" +:+ String c t) +:+ rest) with (String c (t +:+ rest)).
    by rewrite (strip_minus_digit c _ Hc). }
  assert (drop_prefix "-" (((if neg then "-" else "") +:+ pretty n) +:+ rest)
          = pretty n +:+ rest) as ->.
  { destruct neg; unfold drop_prefix.
    - by rewrite string_app_assoc, strip_prefix_app.
    - rewrite Hp. change (("" +:+ String c t) +:+ rest) with (String c (t +:+ rest)).
      by rewrite (strip_minus_digit c _ Hc). }
  rewrite (span_digits_app _ _ 0 n) by (done || apply digits_acc_pretty).
  rewrite parse_digits_pretty, pretty_no_leading_zero.
  pose proof (skip_rest_ends _ Hr) as Hs.
  destruct (skip_fraction rest) as [r1|]; [|done]. simpl in Hs |- *.
  rewrite Hs. simpl. rewrite String.eqb_refl, (proj2 (N.leb_le _ _) Hb).
  assert (neg && (n =? 0)%N = false) as ->.
  { destruct neg; [|done]. simpl. apply N.eqb_neq. auto. }
  simpl. by rewrite Hv.
Qed.

(** *** The fuel suffices *)

Lemma skip_space_length s : String.length (skip_space s) ≤ String.length s.
Proof. induction s as [|c s IH]; simpl; [lia|]. destruct (is_space c); simpl; lia. Qed.

Lemma next_char_length s c s' : next_char s = Ok (c, s') → String.length s' < String.length s.
Proof.
  unfold next_char. pose proof (skip_space_length s) as Hl.
  destruct (skip_space s) as [|d t]; intros H; simplify_eq. simpl in Hl. lia.
Qed.

Lemma parse_chars_length_le n s t r :
  String.length s ≤ n → parse_chars s = Ok (t, r) → String.length r < String.length s.
Proof.
  revert s t. induction n as [|n IH]; intros [|c s] t Hn H; simpl in *; try done; try lia.
  destruct (Ascii.eqb c dquote_char); [simplify_eq; lia|].
  destruct (Ascii.eqb c "\"); [|destruct (N_of_ascii c <? 32)%N; [done|]].
  - destruct s as [|e s]; [done|]. simpl in *. destruct (Ascii.eqb e "u").
    + destruct s as [|a [|b [|c' [|d s]]]]; try done. simpl in *.
      destruct (hex4 a b c' d) as [k|]; [|done]. destruct (k <? 256)%N; [|done].
      apply bind_Ok_inv in H as ([t' r'] & H & Hr). simplify_eq.
      apply IH in H; simpl; lia.
    + destruct (unescape e); [|done].
      apply bind_Ok_inv in H as ([t' r'] & H & Hr). simplify_eq.
      apply IH in H; simpl; lia.
  - apply bind_Ok_inv in H as ([t' r'] & H & Hr). simplify_eq. apply IH in H; simpl; lia.
Qed.

Lemma parse_chars_length s t r :
  parse_chars s = Ok (t, r) → String.length r < String.length s.
Proof. by apply parse_chars_length_le with (n := String.length s). Qed.

Lemma span_digits_length s :
  String.length (span_digits s).1 + String.length (span_digits s).2 = String.length s.
Proof. induction s as [|c s IH]; simpl; [done|]. destruct (digit_of c); simpl; lia. Qed.

Lemma parse_number_length s v r :
  parse_number s = Ok (v, r) → String.length r < String.length s.
Proof.
  unfold parse_number. pose proof (span_digits_length (drop_prefix "-" s)) as Hl.
  assert (String.length (drop_prefix "-" s) ≤ String.length s).
  { unfold drop_prefix. destruct (strip_prefix "-" s) eqn:H; simpl; [|lia].
    apply strip_prefix_Some in H as ->. rewrite string_app_length. simpl. lia. }
  destruct (span_digits (drop_prefix "-" s)) as [ds rest]. simpl in Hl.
  destruct (parse_digits ds) eqn:Hp; [|done]. destruct (leading_zero ds); [done|].
  intros Hr. inv_res. case_match; [|done]. simplify_eq.
  destruct ds; [done|]. simpl in Hl. lia.
Qed.

Lemma parse_literal_length ls s v r :
  Forall (λ wv : string * val, wv.1 ≠ "") ls → parse_literal ls s = Some (v, r) →
  String.length r < String.length s.
Proof.
  induction 1 as [|[w x] ls Hw _ IH]; simpl; [done|].
  destruct (strip_prefix w s) as [t|] eqn:Ht; [|done]. intros [= -> ->].
  apply strip_prefix_Some in Ht as ->. rewrite string_app_length.
  simpl in Hw. destruct w; [done|simpl; lia].
Qed.

Lemma literals_words : Forall (λ wv : string * val, wv.1 ≠ "") literals.
Proof. by repeat constructor. Qed.

Ltac parse_cases :=
  repeat match goal with
  | H : mbind _ _ = Ok _ |- _ => apply bind_Ok_inv in H as ([? ?] & ? & H); cbn [fst snd] in H
  | H : next_char _ = Ok (_, _) |- _ => apply next_char_length in H
  | H : parse_chars _ = Ok (_, _) |- _ => apply parse_chars_length in H
  | H : (if ?b then _ else _) = Ok _ |- _ => destruct b
  | H : Ok _ = Ok _ |- _ => progress simplify_eq
  | H : Throw _ = Ok _ |- _ => discriminate H
  end.

Lemma parse_value_S fuel s :
  parse_value (S fuel) s =
    cs ← next_char s;
    if Ascii.eqb cs.1 "{" then
      d ← next_char cs.2;
      if Ascii.eqb d.1 "}" then Ok (VObj [], d.2) else parse_members fuel [] cs.2
    else if Ascii.eqb cs.1 "[" then
      d ← next_char cs.2;
      if Ascii.eqb d.1 "]" then Ok (VArr [], d.2) else parse_elements fuel [] cs.2
    else if Ascii.eqb cs.1 dquote_char then
      r ← parse_chars cs.2; Ok (VStr r.1, r.2)
    else match parse_literal literals (String cs.1 cs.2) with
         | Some r => Ok r
         | None => parse_number (String cs.1 cs.2)
         end.
Proof. done. Qed.

Lemma parse_elements_S fuel acc s :
  parse_elements (S fuel) acc s =
    r ← parse_value fuel s;
    d ← next_char r.2;
    if Ascii.eqb d.1 "," then parse_elements fuel (acc ++ [r.1]) d.2
    else if Ascii.eqb d.1 "]" then Ok (VArr (acc ++ [r.1]), d.2)
    else Throw SyntaxError.
Proof. done. Qed.

Lemma parse_members_S fuel acc s :
  parse_members (S fuel) acc s =
    q ← next_char s;
    if Ascii.eqb q.1 dquote_char then
      k ← parse_chars q.2;
      colon ← next_char k.2;
      if Ascii.eqb colon.1 ":" then
        r ← parse_value fuel colon.2;
        d ← next_char r.2;
        if Ascii.eqb d.1 "," then parse_members fuel (obj_set k.1 r.1 acc) d.2
        else if Ascii.eqb d.1 "}" then Ok (VObj (obj_set k.1 r.1 acc), d.2)
        else Throw SyntaxError
      else Throw SyntaxError
    else Throw SyntaxError.
Proof. done. Qed.

(** Every part of the parser consumes text. *)
Lemma parse_consumes fuel :
  (∀ s v r, parse_value fuel s = Ok (v, r) → String.length r < String.length s)
  ∧ (∀ acc s v r, parse_elements fuel acc s = Ok (v, r) → String.length r < String.length s)
  ∧ (∀ acc s v r, parse_members fuel acc s = Ok (v, r) → String.length r < String.length s).
Proof.
  induction fuel as [|fuel (IHv & IHe & IHm)]; [done|].
  split; [|split].
  - intros s v r H. rewrite parse_value_S in H.
    apply bind_Ok_inv in H as ([c s'] & Hc & H). cbn [fst snd] in H.
    apply next_char_length in Hc.
    destruct (Ascii.eqb c "{").
    { parse_cases; [lia|]. apply IHm in H. lia. }
    destruct (Ascii.eqb c "[").
    { parse_cases; [lia|]. apply IHe in H. lia. }
    destruct (Ascii.eqb c dquote_char); [parse_cases; lia|].
    destruct (parse_literal literals (String c s')) as [[w t]|] eqn:Hw.
    { simplify_eq. apply parse_literal_length in Hw; [cbn in Hw; lia|apply literals_words]. }
    apply parse_number_length in H. cbn in H. lia.
  - intros acc s v r H. rewrite parse_elements_S in H.
    apply bind_Ok_inv in H as ([w t] & Hw & H).
    apply IHv in Hw. simpl in H. parse_cases; [|lia]. apply IHe in H. lia.
  - intros acc s v r H. rewrite parse_members_S in H. parse_cases;
      match goal with H : parse_value _ _ = _ |- _ => apply IHv in H end; [|lia].
    apply IHm in H. lia.
Qed.

(** More fuel than the length of the text asks for changes nothing. *)
Lemma parse_fuel n :
  (∀ m s, 2 * String.length s + 1 ≤ n → 2 * String.length s + 1 ≤ m →
     parse_value n s = parse_value m s)
  ∧ (∀ m acc s, 2 * String.length s + 2 ≤ n → 2 * String.length s + 2 ≤ m →
     parse_elements n acc s = parse_elements m acc s)
  ∧ (∀ m acc s, 2 * String.length s + 2 ≤ n → 2 * String.length s + 2 ≤ m →
     parse_members n acc s = parse_members m acc s).
Proof.
  induction n as [|n (IHv & IHe & IHm)]; [split; [|split]; intros; lia|].
  split; [|split].
  - intros [|m] s Hn Hm; [lia|]. rewrite !parse_value_S.
    destruct (next_char s) as [[c s']|] eqn:Hc; [|done]. apply next_char_length in Hc. simpl.
    by rewrite (IHm m [] s'), (IHe m [] s') by lia.
  - intros [|m] acc s Hn Hm; [lia|]. rewrite !parse_elements_S. rewrite (IHv m s) by lia.
    destruct (parse_value m s) as [[v r]|] eqn:Hv; [|done]. simpl.
    apply (parse_consumes m) in Hv.
    destruct (next_char r) as [[c r']|] eqn:Hc; [|done]. apply next_char_length in Hc. simpl.
    by rewrite (IHe m _ r') by lia.
  - intros [|m] acc s Hn Hm; [lia|]. rewrite !parse_members_S.
    destruct (next_char s) as [[c s1]|] eqn:Hc1; [|done]. apply next_char_length in Hc1. simpl.
    destruct (Ascii.eqb c dquote_char); [|done].
    destruct (parse_chars s1) as [[k s2]|] eqn:Hk; [|done]. apply parse_chars_length in Hk. simpl.
    destruct (next_char s2) as [[c2 s3]|] eqn:Hc2; [|done]. apply next_char_length in Hc2. simpl.
    destruct (Ascii.eqb c2 ":"); [|done]. rewrite (IHv m s3) by lia.
    destruct (parse_value m s3) as [[v r]|] eqn:Hv; [|done]. simpl.
    apply (parse_consumes m) in Hv.
    destruct (next_char r) as [[c4 r']|] eqn:Hc; [|done]. apply next_char_length in Hc. simpl.
    by rewrite (IHm m _ r') by lia.
Qed.

(** *** White space *)

Definition white (s : string) : Prop := skip_space s = "".

Lemma skip_space_white w s : white w → skip_space (w +:+ s) = skip_space s.
Proof.
  unfold white. induction w as [|c w IH]; intros Hw; [done|]. simpl in *.
  destruct (is_space c); [auto|done].
Qed.

Lemma white_app w1 w2 : white w1 → white w2 → white (w1 +:+ w2).
Proof. unfold white. intros H1 H2. by rewrite skip_space_white. Qed.

Lemma next_char_white w s : white w → next_char (w +:+ s) = next_char s.
Proof. intros Hw. unfold next_char. by rewrite skip_space_white. Qed.

Lemma next_char_at c s : is_space c = false → next_char (String c s) = Ok (c, s).
Proof. intros Hc. unfold next_char. simpl. by rewrite Hc. Qed.

Lemma parse_value_white n w s : white w → parse_value n (w +:+ s) = parse_value n s.
Proof. intros Hw. destruct n; [done|]. by rewrite !parse_value_S, next_char_white. Qed.

Lemma parse_members_white n acc w s :
  white w → parse_members n acc (w +:+ s) = parse_members n acc s.
Proof. intros Hw. destruct n; [done|]. by rewrite !parse_members_S, next_char_white. Qed.

(** *** Values *)

(** A value that JSON text carries exactly: integers below [2^53], well-formed
    property maps.  What [JSON.stringify] drops or replaces may occur. *)
Definition num_plain (n : num) : bool :=
  match n with
  | NInt z => bool_decide (Z.abs z <= Z.of_N two53)%Z
  | NText _ => false
  | NNaN | NInf _ => true
  end.

Fixpoint plain (v : val) : bool :=
  match v with
  | VNum n => num_plain n
  | VArr l => forallb plain l
  | VObj o => bool_decide (obj_wf o) && forallb (λ kv, plain kv.2) o
  | _ => true
  end.

Lemma plain_arr l : plain (VArr l) = true ↔ Forall (λ v, plain v = true) l.
Proof. apply forallb_Forall. Qed.

Lemma plain_obj o :
  plain (VObj o) = true ↔ obj_wf o ∧ Forall (λ kv, plain kv.2 = true) o.
Proof. simpl. by rewrite andb_true_iff, bool_decide_eq_true, forallb_Forall. Qed.

(** With enough fuel a part of the parser reads a value and leaves [rest]. *)
Definition reads (f : nat → res (val * string)) (v : val) (rest : string) : Prop :=
  ∃ n0, ∀ n, n0 ≤ n → f n = Ok (v, rest).

Lemma reads_const (f : nat → res (val * string)) v rest :
  (∀ n, f (S n) = Ok (v, rest)) → reads f v rest.
Proof. intros H. exists 1. intros [|n] Hn; [lia|done]. Qed.

Lemma quote_app t rest :
  quote t +:+ rest = String dquote_char (escape t +:+ String dquote_char rest).
Proof. unfold quote, dquote. simpl. by rewrite !string_app_assoc. Qed.

#[local] Opaque quote.

Lemma parse_literal_number (z : Z) rest :
  parse_literal literals (pretty z +:+ rest) = None.
Proof.
  assert (∃ c t, pretty z = String c t ∧ (is_Some (digit_of c) ∨ c = "-"%char)) as
    (c & t & -> & Hc).
  { destruct z as [|p|p].
    - exists "0"%char, "". split; [done|]. left. by eexists.
    - destruct (pretty_N_cons (N.pos p)) as (c & t & Hp & Hc). exists c, t. auto.
    - exists "-"%char, (pretty (N.pos p)). auto. }
  destruct Hc as [Hc| ->]; [|done].
  by destruct c as [[] [] [] [] [] [] [] []]; destruct Hc.
Qed.

(** The first character of a printed value opens it. *)
Definition opens (c : ascii) : bool :=
  negb (is_space c) && negb (Ascii.eqb c "]") && negb (Ascii.eqb c "}").

Lemma pretty_Z_first (z : Z) :
  ∃ c t, pretty z = String c t ∧ opens c = true ∧ Ascii.eqb c "{" = false
    ∧ Ascii.eqb c "[" = false ∧ Ascii.eqb c dquote_char = false.
Proof.
  assert (∀ n : N, ∃ c t, pretty n = String c t ∧ opens c = true ∧ Ascii.eqb c "{" = false
    ∧ Ascii.eqb c "[" = false ∧ Ascii.eqb c dquote_char = false) as HN.
  { intros n. destruct (pretty_N_cons n) as (c & t & Hp & Hc). exists c, t.
    split; [done|]. by destruct c as [[] [] [] [] [] [] [] []]; destruct Hc. }
  destruct z as [|p|p]; [apply (HN 0%N)|apply (HN (N.pos p))|].
  by exists "-"%char, (pretty (N.pos p)).
Qed.

Lemma next_char_opens c s : opens c = true → next_char (String c s) = Ok (c, s).
Proof.
  unfold opens. rewrite !andb_true_iff, !negb_true_iff. intros [[Hc _] _].
  by apply next_char_at.
Qed.

Section roundtrip.
Context (gap : string) (Hgap : white gap).

Lemma line_break_white indent : white indent → white (line_break gap indent).
Proof.
  intros Hi. unfold line_break. destruct (String.eqb gap ""); [done|].
  by apply white_app.
Qed.

Lemma line_break_ends indent c rest :
  number_ends (String c rest) → number_ends (line_break gap indent +:+ String c rest).
Proof. intros Hc. unfold line_break. by destruct (String.eqb gap ""). Qed.

Definition prints (v : val) : Prop :=
  ∀ indent rest, white indent → plain v = true → number_ends rest →
    reads (λ n, parse_value n (json_print gap indent v +:+ rest))
      (default VNull (json_norm v)) rest.

Lemma prints_number n : prints (VNum n).
Proof.
  intros indent rest Hi Hv Hr. destruct n as [z|t| |[]]; [|done| |..].
  - apply bool_decide_eq_true in Hv. simpl. apply reads_const. intros n.
    rewrite parse_value_S.
    pose proof (parse_literal_number z rest) as Hl.
    pose proof (parse_number_pretty z rest Hv Hr) as Hn.
    destruct (pretty_Z_first z) as (c & t & Hp & Hs & H1 & H2 & H3).
    rewrite Hp in Hl, Hn |- *. change (String c t +:+ rest) with (String c (t +:+ rest)) in *.
    rewrite next_char_opens by done. cbn [mbind res_bind fst snd].
    by rewrite H1, H2, H3, Hl, Hn.
  - by apply reads_const.
  - by apply reads_const.
  - by apply reads_const.
Qed.

(** After the opening bracket of an array that is not empty. *)
Lemma prints_elements l acc indent rest w lb :
  Forall prints l → Forall (λ v, plain v = true) l → l ≠ [] →
  white indent → white w → white lb → number_ends (lb +:+ String "]" rest) →
  reads (λ n, parse_elements n acc
           (w +:+ String.concat ("," +:+ w) (map (json_print gap indent) l)
            +:+ lb +:+ String "]" rest))
    (VArr (acc ++ map (λ v, default VNull (json_norm v)) l)) rest.
Proof.
  intros Hl Hp Hne Hi Hw Hlb Hends. revert acc Hp Hne.
  induction Hl as [|v l Hv Hl IH]; intros acc Hp Hne; [done|].
  apply Forall_cons_1 in Hp as [Hpv Hp].
  destruct l as [|v' l].
  - destruct (Hv indent (lb +:+ String "]" rest)) as [n0 Hn]; [done..|].
    exists (S n0). intros [|n] Hle; [lia|]. rewrite parse_elements_S, parse_value_white by done.
    cbn [map String.concat]. rewrite Hn by lia. cbn [mbind res_bind fst snd].
    rewrite next_char_white, next_char_at by done. done.
  - destruct (IH (acc ++ [default VNull (json_norm v)])) as [n1 Hn1]; [done..|].
    set (tail := w +:+ String.concat ("," +:+ w) (map (json_print gap indent) (v' :: l))
                 +:+ lb +:+ String "]" rest) in *.
    destruct (Hv indent (String "," tail)) as [n0 Hn]; [done..|].
    exists (S (n0 `max` n1)). intros [|n] Hle; [lia|].
    rewrite parse_elements_S, parse_value_white by done.
    assert (String.concat ("," +:+ w) (map (json_print gap indent) (v :: v' :: l))
            +:+ lb +:+ String "]" rest = json_print gap indent v +:+ String "," tail) as ->.
    { unfold tail. rewrite map_cons, concat_cons by done.
      by rewrite !string_app_assoc, string_app_cons. }
    rewrite Hn by lia. cbn [mbind res_bind fst snd]. rewrite next_char_at by done.
    cbn [mbind res_bind fst snd]. change (Ascii.eqb "," ",") with true. cbn iota.
    rewrite Hn1 by lia. by rewrite <-app_assoc.
Qed.

Lemma is_undef_norm v : is_undef v = false → ∃ w, json_norm v = Some w.
Proof.
  intros Hv. destruct (json_norm v) as [w|] eqn:H; [by exists w|].
  by apply json_norm_None in H as ->.
Qed.

Lemma print_members_nil indent o :
  print_members gap indent o = [] → norm_props o = [].
Proof.
  induction o as [|[k v] o IH]; simpl; [done|].
  destruct (is_undef v) eqn:Hv; [|done]. destruct v; auto; done.
Qed.

(** One member of an object, up to the character after it. *)
Lemma parse_member acc k w v indent rest c :
  white w → white indent → prints v → plain v = true → is_undef v = false →
  number_ends rest → next_char rest = Ok c →
  ∃ n0, ∀ n, n0 ≤ n →
    parse_members (S n) acc
      (w +:+ (quote k +:+ ":" +:+ (if String.eqb gap "" then "" else " ")
              +:+ json_print gap indent v) +:+ rest)
    = let acc := obj_set k (default VNull (json_norm v)) acc in
      if Ascii.eqb c.1 "," then parse_members n acc c.2
      else if Ascii.eqb c.1 "}" then Ok (VObj acc, c.2)
      else Throw SyntaxError.
Proof.
  intros Hw Hi Hv Hp Hu Hends Hc.
  destruct (Hv indent rest) as [n0 Hn]; [done..|]. exists n0. intros n Hle.
  rewrite parse_members_white by done. rewrite parse_members_S.
  rewrite !string_app_assoc, quote_app, next_char_at by done. cbn [mbind res_bind fst snd].
  change (Ascii.eqb dquote_char dquote_char) with true. cbn iota.
  rewrite parse_chars_escape. cbn [mbind res_bind fst snd].
  rewrite string_app_cons, next_char_at by done. cbn [mbind res_bind fst snd].
  change (Ascii.eqb ":" ":") with true. cbn iota.
  change ("" +:+ ?s) with s.
  rewrite parse_value_white by (by destruct (String.eqb gap "")).
  rewrite Hn by done. cbn [mbind res_bind fst snd]. rewrite Hc. done.
Qed.

(** After the opening brace of an object that prints a member. *)
Lemma prints_members o acc indent rest w lb :
  Forall (λ kv, prints kv.2) o → Forall (λ kv, plain kv.2 = true) o →
  print_members gap indent o ≠ [] →
  white indent → white w → white lb → number_ends (lb +:+ String "}" rest) →
  reads (λ n, parse_members n acc
           (w +:+ String.concat ("," +:+ w) (print_members gap indent o)
            +:+ lb +:+ String "}" rest))
    (VObj (obj_assign acc (norm_props o))) rest.
Proof.
  intros Ho Hp Hne Hi Hw Hlb Hends. revert acc Hp Hne.
  induction Ho as [|[k v] o Hv Ho IH]; intros acc Hp Hne; [done|].
  apply Forall_cons_1 in Hp as [Hpv Hp]. simpl in Hv, Hpv, Hne |- *.
  destruct (is_undef v) eqn:Hu.
  { destruct v; try done. by apply IH. }
  destruct (is_undef_norm v Hu) as [x Hx]. rewrite Hx.
  destruct (decide (print_members gap indent o = [])) as [Hnil|Hsome].
  - rewrite Hnil, (print_members_nil indent o) by done.
    destruct (parse_member acc k w v indent (lb +:+ String "}" rest) ("}"%char, rest))
      as [n0 Heq]; [done..|by rewrite next_char_white, next_char_at|].
    exists (S n0). intros [|n] Hn; [lia|].
    cbn [String.concat]. rewrite Heq, Hx by lia. done.
  - destruct (IH (obj_set k x acc)) as [n1 Hn1]; [done..|].
    set (tail := w +:+ String.concat ("," +:+ w) (print_members gap indent o)
                 +:+ lb +:+ String "}" rest) in *.
    destruct (parse_member acc k w v indent (String "," tail) (","%char, tail))
      as [n0 Heq]; [done..|by rewrite next_char_at|].
    exists (S (n0 `max` n1)). intros [|n] Hn; [lia|].
    rewrite concat_cons by done.
    replace ((_ +:+ ("," +:+ w) +:+ _) +:+ lb +:+ String "}" rest)
      with ((quote k +:+ ":" +:+ (if String.eqb gap "" then "" else " ")
             +:+ json_print gap indent v) +:+ String "," tail)
      by (unfold tail; by rewrite !string_app_assoc, ?string_app_cons, ?string_app_assoc).
    rewrite Heq by lia. cbn [fst snd].
    change (Ascii.eqb "," ",") with true. cbn iota. rewrite Hx. by apply Hn1; lia.
Qed.

Lemma plain_number_ends c rest :
  Ascii.eqb c "]" || Ascii.eqb c "}" = true → number_ends (String c rest).
Proof. by destruct c as [[] [] [] [] [] [] [] []]. Qed.

Lemma json_print_first indent v :
  plain v = true → ∃ c t, json_print gap indent v = String c t ∧ opens c = true.
Proof.
  destruct v as [| |[]|[z|t| |[]]|t|l|o]; intros Hp; try done; try (by eexists _, _).
  - destruct (pretty_Z_first z) as (c & t & Hc & Ho & _). by exists c, t.
  - exists dquote_char, (escape t +:+ dquote). split; [|done].
    pose proof (quote_app t "") as Hq. by rewrite string_app_nil_r in Hq.
  - simpl. unfold bracketed. by destruct (map _ l); eexists _, _.
  - rewrite json_print_obj. unfold bracketed. by destruct (print_members _ _ o); eexists _, _.
Qed.

Lemma concat_first sep p ps c t :
  p = String c t → ∃ t', String.concat sep (p :: ps) = String c t'.
Proof. intros ->. destruct ps; eexists; [done|]. by rewrite concat_cons, string_app_cons. Qed.

Lemma print_members_first indent o :
  Forall (λ p, ∃ t, p = String dquote_char t) (print_members gap indent o).
Proof.
  induction o as [|[k v] o IH]; simpl; [done|]. destruct (is_undef v); [done|].
  constructor; [|done]. eexists. apply quote_app.
Qed.

Lemma open_not_close c : opens c = true → Ascii.eqb c "]" = false ∧ Ascii.eqb c "}" = false.
Proof. unfold opens. rewrite !andb_true_iff, !negb_true_iff. tauto. Qed.

(** The text of a value reads as the value. *)
Lemma prints_all v : prints v.
Proof.
  induction v as [| |b|n|t|l IH|o IH] using val_nested_ind; try apply prints_number;
    intros indent rest Hi Hp Hr.
  - by apply reads_const.
  - by apply reads_const.
  - destruct b; by apply reads_const.
  - apply reads_const. intros n. simpl json_print. rewrite quote_app, parse_value_S.
    rewrite next_char_at by done. cbn [mbind res_bind fst snd].
    change (Ascii.eqb dquote_char dquote_char) with true.
    change (Ascii.eqb dquote_char "{") with false.
    change (Ascii.eqb dquote_char "[") with false. cbn iota.
    by rewrite parse_chars_escape.
  - apply plain_arr in Hp. simpl json_print. unfold bracketed.
    destruct l as [|v l]; [by apply reads_const|].
    set (w := line_break gap (indent +:+ gap)). set (lb := line_break gap indent).
    assert (white w) by (by apply line_break_white, white_app).
    destruct (prints_elements (v :: l) [] (indent +:+ gap) rest w lb) as [n0 Hn];
      [done..|by apply white_app|done|by apply line_break_white
      |by apply line_break_ends, plain_number_ends|].
    exists (S n0). intros [|n] Hle; [lia|]. cbn [map] in Hn |- *.
    rewrite !string_app_assoc, string_app_cons, parse_value_S, next_char_at by done.
    cbn [mbind res_bind fst snd]. change (Ascii.eqb "[" "{") with false.
    change (Ascii.eqb "[" "[") with true. cbn iota.
    change ("" +:+ ?s) with s.
    inversion Hp as [|? ? Hpv _]; subst.
    destruct (json_print_first (indent +:+ gap) v Hpv) as (c & t & Hc & Ho).
    destruct (concat_first ("," +:+ w) _ (map (json_print gap (indent +:+ gap)) l) c t Hc)
      as [t' Ht].
    rewrite next_char_white, Ht, string_app_cons, next_char_opens by done.
    cbn [mbind res_bind fst snd].
    destruct (open_not_close c Ho) as [-> _]. rewrite <-string_app_cons, <-Ht.
    by apply Hn; lia.
  - apply plain_obj in Hp as [Hwf Hp]. rewrite json_print_obj, json_norm_obj. unfold bracketed.
    destruct (print_members gap (indent +:+ gap) o) as [|p ps] eqn:Hps.
    { rewrite (print_members_nil _ _ Hps). by apply reads_const. }
    set (w := line_break gap (indent +:+ gap)). set (lb := line_break gap indent).
    assert (white w) by (by apply line_break_white, white_app).
    destruct (prints_members o [] (indent +:+ gap) rest w lb) as [n0 Hn];
      [done..|by rewrite Hps|by apply white_app|done|by apply line_break_white
      |by apply line_break_ends, plain_number_ends|].
    exists (S n0). intros [|n] Hle; [lia|]. rewrite Hps in Hn.
    rewrite !string_app_assoc, string_app_cons, parse_value_S, next_char_at by done.
    cbn [mbind res_bind fst snd]. change (Ascii.eqb "{" "{") with true. cbn iota.
    change ("" +:+ ?s) with s.
    pose proof (print_members_first (indent +:+ gap) o) as Hfirst. rewrite Hps in Hfirst.
    inversion Hfirst as [|? ? [t Hc] _]; subst.
    destruct (concat_first ("," +:+ w) _ ps dquote_char t eq_refl) as [t' Ht].
    rewrite next_char_white, Ht, string_app_cons, next_char_at by done.
    cbn [mbind res_bind fst snd]. change (Ascii.eqb dquote_char "}") with false. cbn iota.
    rewrite <-string_app_cons, <-Ht, Hn by lia.
    by rewrite obj_assign_nil by (by apply norm_props_wf).
Qed.
End roundtrip.

(** [JSON.parse] of the text of a value, however indented, is the value less
    what JSON cannot express. *)
Lemma json_parse_print gap v :
  white gap → plain v = true →
  json_parse (json_print gap "" v) = Ok (default VNull (json_norm v)).
Proof.
  intros Hg Hp. destruct (prints_all gap Hg v "" "") as [n0 Hn]; [done..|].
  rewrite string_app_nil_r in Hn. unfold json_parse, json_fuel.
  set (s := json_print gap "" v) in *.
  rewrite (proj1 (parse_fuel _) (n0 `max` (2 * String.length s + 2))) by lia.
  by rewrite Hn by lia.
Qed.

Lemma bracketed_plain indent o c items :
  bracketed "" indent o c items = o +:+ String.concat "," items +:+ c.
Proof. destruct items as [|p ps]; [done|]. unfold bracketed. by simpl. Qed.

(** Without indentation the text is that of [JsJson.stringify]. *)
Lemma json_print_text indent v : json_print "" indent v = json_text v.
Proof.
  revert indent. induction v as [| |b|n|t|l IH|o IH] using val_nested_ind; intros indent;
    try done.
  - simpl. rewrite bracketed_plain. do 3 f_equal.
    induction IH as [|v l Hv _ IHl]; [done|]. cbn [map]. by rewrite Hv, IHl.
  - rewrite json_print_obj, bracketed_plain. simpl json_text. do 3 f_equal.
    induction IH as [|[k v] o Hv _ IHo]; [done|]. simpl in Hv |- *.
    destruct (is_undef v); [done|]. by rewrite Hv, IHo.
Qed.

Lemma clone_norm v : is_undef v = false → clone v = default VNull (json_norm v).
Proof. intros Hv. unfold clone. by destruct (is_undef_norm v Hv) as [w ->]. Qed.

Lemma json_parse_text v :
  plain v = true → is_undef v = false → json_parse (json_text v) = Ok (clone v).
Proof.
  intros Hp Hu. rewrite <-(json_print_text ""), json_parse_print by done.
  by rewrite clone_norm.
Qed.

Lemma json_parse_text_2 v :
  plain v = true → is_undef v = false → json_parse (json_text_2 v) = Ok (clone v).
Proof.
  intros Hp Hu. unfold json_text_2. rewrite json_parse_print by done. by rewrite clone_norm.
Qed.

(** JSON whose numbers are integers up to [2^53]: what the text carries. *)
Definition json_value (v : val) : Prop := is_json v = true ∧ plain v = true.

Lemma json_value_arr l : json_value (VArr l) ↔ Forall json_value l.
Proof. unfold json_value. rewrite is_json_arr, plain_arr, !Forall_forall. naive_solver. Qed.

Lemma json_value_obj (o : obj val) :
  json_value (VObj o) ↔ obj_wf o ∧ Forall (λ kv, json_value kv.2) o.
Proof. unfold json_value. rewrite is_json_obj, plain_obj, !Forall_forall. naive_solver. Qed.

Lemma json_value_get k v (o : obj val) : json_value (VObj o) → obj_get k o = Some v → json_value v.
Proof.
  intros [_ HF]%json_value_obj Hk. rewrite Forall_forall in HF.
  apply (HF (k, v)). by apply obj_get_Some_elem.
Qed.

(** Two such values with the same text are the same. *)
Lemma json_text_inj v w : json_value v → json_value w → json_text v = json_text w → v = w.
Proof.
  intros [Hv Hpv] [Hw Hpw] H.
  assert (is_undef v = false ∧ is_undef w = false) as [Huv Huw] by (by destruct v, w).
  pose proof (json_parse_text v Hpv Huv) as H1. rewrite H, json_parse_text, !clone_json in H1 by done.
  by injection H1.
Qed.

(** [clone] ([try { return JSON.parse(JSON.stringify(value)) } catch { ... }])
    is what parsing the text of the value gives, for every value whose numbers
    the model carries: the parser reads back each value the printer writes, at
    any depth, and does not run out of fuel; only [undefined] has no text. *)
Theorem clone_parses_text v :
  plain v = true →
  clone v = match stringify v with
            | None => VUndef
            | Some text => match json_parse text with Ok w => w | Throw _ => VUndef end
            end.
Proof.
  intros Hp. unfold stringify. destruct (is_undef v) eqn:Hu; [by destruct v|].
  by rewrite json_parse_text.
Qed.

Lemma clone_parses_text_witness :
  clone (obj_lit [("a", VArr [vint (-1); VUndef]); ("b", VUndef)])
  = obj_lit [("a", VArr [vint (-1); VNull])].
Proof.
  rewrite (clone_parses_text (obj_lit [("a", VArr [vint (-1); VUndef]); ("b", VUndef)]));
    [vm_compute; reflexivity|vm_compute; reflexivity].
Defined.
