(* ===== verification/SharedUtils.v ===== *)
(** * Shared utilities (libs/shared/src/lib/utils)

    The helper functions the stores are written with: matching two lists of
    names into additions, removals and renamings, carrying such a change over
    to a property map, default values and empty schemas, fresh names, key
    sorting and structural comparison, schema-driven traversal of a model. *)

From S2P Require Import Prelude JsString JsValue JsJson.

(** ** get-changes-arrays.ts *)

(** Additions, removals, renamings. *)
Definition ChangesArrays : Type := list string * list string * obj string.

Definition getChangesArrays (a b : list string) : ChangesArrays :=
  let arr1 := sort_strings a in
  let arr2 := sort_strings b in
  let diff1 := list_minus arr1 arr2 in
  let diff2 := list_minus arr2 arr1 in
  let diff := diff1 ++ diff2 in
  if bool_decide (length diff = 0) then ([], [], [])
  else if bool_decide (length diff1 = length diff2)
  then ([], [], foldl (λ acc kw, obj_set kw.1 kw.2 acc) [] (zip diff1 diff2))
  else (diff2, diff1, []).

(** ** apply-changes-to-object.ts *)

Section applyChanges.
Context (callbackTransformer : option (string → res val)).

(** [obj[k] = callbackTransformer ? callbackTransformer(k) : {}] *)
Definition addKey (obj : val) (k : string) : res val :=
  x ← match callbackTransformer with Some f => f k | None => Ok (VObj []) end;
  set obj k x.

(** [getNewValue] of the renaming step. *)
Definition getNewValue (obj : val) (oldKey newKey : string) : res val :=
  vOld ← get obj oldKey;
  if negb (is_undef vOld) then Ok vOld else
  vNew ← get obj newKey;
  if negb (is_undef vNew) then Ok vNew else
  match callbackTransformer with
  | Some f =>
      resVal ← f newKey;
      if negb (is_undef resVal) then Ok resVal else Ok (VObj [])
  | None => Ok (VObj [])
  end.

(** [delete Object.assign(obj, { [newKey]: getNewValue() })[oldKey]] *)
Definition renameKey (obj : val) (kw : string * string) : res val :=
  x ← getNewValue obj kw.1 kw.2;
  obj' ← set obj kw.2 x;
  del obj' kw.1.

Definition applyChangesToObject (obj : val) (arr1 arr2 : list string) : res val :=
  let '(add, remove, rename) := getChangesArrays arr1 arr2 in
  obj1 ← foldM addKey obj add;
  obj2 ← foldM del obj1 remove;
  foldM renameKey obj2 rename.
End applyChanges.

Arguments addKey : simpl never.
Arguments getNewValue : simpl never.
Arguments renameKey : simpl never.

(** ** get-default-value-by-type.ts, get-empty-schema.ts, types/ncform.ts *)

(** The members of the enum [PropertyType]. *)
Module PropertyType.
Definition STRING := "string".
Definition NUMBER := "number".
Definition INTEGER := "integer".
Definition BOOLEAN := "boolean".
Definition OBJECT := "object".
Definition ARRAY := "array".
Definition HTML := "HTML".
Definition COMP := "COMP".
Definition NONE := "none".
End PropertyType.

Definition getDefaultValueByType (type : val) : val :=
  if is_str type PropertyType.OBJECT then VObj []
  else if is_str type PropertyType.ARRAY then VArr []
  else if is_str type PropertyType.BOOLEAN then VBool false
  else if is_str type PropertyType.INTEGER || is_str type PropertyType.NUMBER then vint 0
  else VStr "".

Definition getEmptySchema (additionalProperties : option bool) : val :=
  let schema := [("type", VStr PropertyType.OBJECT); ("properties", VObj []);
                 ("required", VArr [])] in
  VObj (match additionalProperties with
        | Some b => obj_set "additionalProperties" (VBool b) schema
        | None => schema
        end).

(** ** get-locale-description-by-value.ts *)

(** The keys of [LANGUAGES] (libs/i18n). *)
Definition LANGUAGES : list string := ["ru"; "en"].

Definition getLocaleDescriptionByValue (value : string) : val :=
  VObj (foldl (λ acc lang,
    obj_set lang (obj_lit [("title", VStr value); ("description", VStr value)]) acc)
    [] LANGUAGES).

(** ** get-name-for-new-item.ts *)

(** The number in a name that matches [^<prefix>\d+$] (names are single
    lines, so the [m] flag of the expression plays no part). *)
Definition name_index (prefix name : string) : option (option N) :=
  rest ← strip_prefix prefix name; digits_to_number rest.

(** [b - a <= 0] on indices, [None] being [Infinity]. *)
Definition index_ge (a b : option N) : Prop :=
  match a, b with
  | None, _ => True
  | Some _, None => False
  | Some a, Some b => (b <= a)%N
  end.

#[export] Instance index_ge_dec : RelDecision index_ge.
Proof. intros [a|] [b|]; simpl; apply _. Defined.

Definition getNameForNewItem (existedItems : list string) (prefix : string) : string :=
  let lastIndex :=
    default (Some 0%N) (head (merge_sort index_ge (omap (name_index prefix) existedItems))) in
  prefix +:+ number_text (double_succ lastIndex).

Example getNameForNewItem_ex :
  getNameForNewItem ["param_2"; "param_10"; "other"; "param_x"] "param_" = "param_11".
Proof. vm_compute. reflexivity. Qed.

(** ** sort-keys.ts, compare-objects.ts *)

(** The order of [Array.prototype.sort] without a comparator: by string
    conversion, [undefined] last. *)
Definition default_le (a b : val) : Prop :=
  match a, b with
  | _, VUndef => True
  | VUndef, _ => False
  | _, _ => String.le (to_string a) (to_string b)
  end.

#[export] Instance default_le_dec : RelDecision default_le.
Proof. intros [] []; simpl; apply _. Defined.

Definition sort_vals (l : list val) : list val := merge_sort default_le l.

Fixpoint sortKeys (x : val) : val :=
  match x with
  | VArr l => VArr (sort_vals (map sortKeys l))
  | VObj o =>
      let o' := map (λ kv, (kv.1, sortKeys kv.2)) o in
      VObj (foldl (λ acc k, obj_set k (obj_lookup k o') acc) [] (sort_strings (obj_keys o')))
  | _ => x
  end.

Definition compareObjects (obj1 obj2 : val) : bool :=
  bool_decide (stringify (sortKeys obj1) = stringify (sortKeys obj2)).

(** ** difference.ts *)

(** The values of [arr2] that are not in [arr1], without repetitions, in
    order of first occurrence (the order of a [Set]). *)
Fixpoint set_of_list_from (seen l : list string) : list string :=
  match l with
  | [] => []
  | x :: l =>
      if bool_decide (x ∈ seen) then set_of_list_from seen l
      else x :: set_of_list_from (x :: seen) l
  end.

Definition difference (arr1 arr2 : list string) : list string :=
  let set1 := set_of_list_from [] arr1 in
  let set2 := set_of_list_from [] arr2 in
  let intersect := filter (λ x, x ∈ set2) set1 in
  filter (λ x, x ∉ intersect) set2.

(** ** traverse-model-by-scheme.ts *)

(** The callback updates the model it is given in place; it returns the
    updated model.  A nested model is an alias of [model[propName]]: when it is
    an object, its update shows there. *)
Definition put_back (model : val) (propName : string) (m m' : val) : res val :=
  match m with
  | VObj _ | VArr _ => set model propName m'
  | _ => Ok model
  end.

Section traverse.
Context (callback : val → val → string → res val).

Fixpoint traverse (fuel : nat) (schema model : val) : res val :=
  match fuel with
  | O => Throw Unsupported
  | S fuel =>
      type ← get schema "type";
      if is_str type PropertyType.OBJECT then
        properties ← get schema "properties";
        entries ← Object_entries (js_or properties (VObj []));
        foldM (λ model '(propName, prop),
          propType ← get prop "type";
          if is_str propType PropertyType.OBJECT then
            m ← get model propName;
            m' ← traverse fuel prop m;
            put_back model propName m m'
          else callback schema model propName) model entries
      else Ok model
  end.
End traverse.

(** The recursion descends in the schema, so its depth is enough fuel
    ([traverse_fuel_enough]). *)
Definition traverseModelByScheme (schema model : val)
    (callback : val → val → string → res val) : res val :=
  traverse callback (val_depth schema) schema model.

(** The callback of [updateConfigSchema]: a missing leaf gets the default of
    its type. *)
Definition fillDefault (parent parentModel : val) (propName : string) : res val :=
  cur ← get parentModel propName;
  if is_undef cur then
    type ← get_path parent ["properties"; propName; "type"];
    set parentModel propName (getDefaultValueByType type)
  else Ok parentModel.

(** ** What sorting the keys keeps *)

Definition sorted_props (o : obj val) : obj val := map (λ kv, (kv.1, sortKeys kv.2)) o.

Lemma sorted_props_get o k : obj_get k (sorted_props o) = sortKeys <$> obj_get k o.
Proof.
  induction o as [|[k1 v] o IH]; [done|]. simpl. by destruct (String.eqb k k1).
Qed.

Lemma sorted_props_keys o : obj_keys (sorted_props o) = obj_keys o.
Proof. unfold obj_keys, sorted_props. induction o as [|[k v] o IH]; [done|]. simpl. by f_equal. Qed.

Lemma get_foldl_set (o' : obj val) ks acc k :
  obj_get k (foldl (λ acc k, obj_set k (obj_lookup k o') acc) acc ks)
  = if includes k ks then Some (obj_lookup k o') else obj_get k acc.
Proof.
  revert acc. induction ks as [|k1 ks IH]; intros acc; cbn [foldl].
  - unfold includes. by rewrite bool_decide_false by apply not_elem_of_nil.
  - rewrite IH, obj_get_set. unfold includes.
    rewrite (bool_decide_ext (k ∈ k1 :: ks) (k = k1 ∨ k ∈ ks)) by apply elem_of_cons.
    destruct (String.eqb_spec k k1) as [->|Hne]; repeat case_bool_decide; naive_solver.
Qed.

Lemma sortKeys_get o k : obj_get k (own_props (sortKeys (VObj o))) = sortKeys <$> obj_get k o.
Proof.
  cbn [sortKeys own_props]. change (map (λ kv, (kv.1, sortKeys kv.2)) o) with (sorted_props o).
  rewrite get_foldl_set, sorted_props_keys. unfold includes, obj_lookup. rewrite sorted_props_get.
  case_bool_decide as Hk; rewrite elem_of_sort_strings, elem_of_obj_keys in Hk.
  - destruct Hk as [v ->]. done.
  - by destruct (obj_get k o); [destruct Hk; by eexists|].
Qed.

(** ** Facts *)

(** What [getChangesArrays] computes: either the removed and the added names,
    or, when there are as many of each, a bijection between them. *)
Definition changes_ok (a b : list string) (c : ChangesArrays) : Prop :=
  let '(add, remove, rename) := c in
  (rename = [] ∧ NoDup add ∧ NoDup remove ∧
   (∀ k, k ∈ add ↔ k ∈ b ∧ k ∉ a) ∧ (∀ k, k ∈ remove ↔ k ∈ a ∧ k ∉ b)) ∨
  (add = [] ∧ remove = [] ∧ NoDup rename.*1 ∧ NoDup rename.*2 ∧
   (∀ k, k ∈ rename.*1 ↔ k ∈ a ∧ k ∉ b) ∧ (∀ k, k ∈ rename.*2 ↔ k ∈ b ∧ k ∉ a)).

Lemma changes_arrays_ok a b : NoDup a → NoDup b → changes_ok a b (getChangesArrays a b).
Proof.
  intros Ha Hb. unfold getChangesArrays.
  set (diff1 := list_minus (sort_strings a) (sort_strings b)).
  set (diff2 := list_minus (sort_strings b) (sort_strings a)).
  assert (NoDup diff1) as Hd1 by (by apply NoDup_list_minus, NoDup_sort_strings).
  assert (NoDup diff2) as Hd2 by (by apply NoDup_list_minus, NoDup_sort_strings).
  assert (∀ k, k ∈ diff1 ↔ k ∈ a ∧ k ∉ b) as He1.
  { intros k. unfold diff1. by rewrite elem_of_list_minus, !elem_of_sort_strings. }
  assert (∀ k, k ∈ diff2 ↔ k ∈ b ∧ k ∉ a) as He2.
  { intros k. unfold diff2. by rewrite elem_of_list_minus, !elem_of_sort_strings. }
  clearbody diff1 diff2. case_bool_decide as Hz.
  { rewrite length_app in Hz. destruct diff1, diff2; try (simpl in Hz; lia).
    left. split_and!; auto; constructor. }
  case_bool_decide as Hl; simpl; [right|left; by split_and!].
  assert (foldl (λ acc kw, obj_set kw.1 kw.2 acc) [] (zip diff1 diff2) ≡ₚ zip diff1 diff2)
    as Hp.
  { apply (obj_assign_perm []). unfold obj_keys. simpl. rewrite fst_zip by lia. done. }
  split_and!; [done|done|..]; rewrite ?Hp, ?fst_zip, ?snd_zip by lia; try done;
    intros k; rewrite Hp, ?fst_zip, ?snd_zip by lia; auto.
Qed.

Section applyChanges_facts.
Context (cb : option (string → res val)).

Lemma addKey_obj o k r :
  addKey cb (VObj o) k = Ok r →
  ∃ x, r = VObj (obj_set k x o) ∧ match cb with Some f => f k = Ok x | None => x = VObj [] end.
Proof.
  unfold addKey. intros H. inv_res. simpl in *. simplify_eq. eexists. split; [done|].
  destruct cb; by simplify_eq.
Qed.

Lemma getNewValue_obj o k k' x :
  getNewValue cb (VObj o) k k' = Ok x → defined (obj_lookup k o) → x = obj_lookup k o.
Proof.
  unfold getNewValue, defined. simpl. intros H Hd.
  destruct (obj_lookup k o); simpl in H; by simplify_eq.
Qed.

Lemma renameKey_obj o k k' r :
  renameKey cb (VObj o) (k, k') = Ok r →
  ∃ x, getNewValue cb (VObj o) k k' = Ok x ∧ r = VObj (obj_del k (obj_set k' x o)).
Proof. unfold renameKey. intros H. inv_res. do 2 (simpl in *; simplify_eq). by eexists. Qed.

(** The additions. *)
Lemma addKeys_obj ks o r :
  foldM (addKey cb) (VObj o) ks = Ok r →
  ∃ o', r = VObj o' ∧ (∀ k, k ∈ obj_keys o' ↔ k ∈ obj_keys o ∨ k ∈ ks) ∧
        (∀ k, k ∉ ks → obj_get k o' = obj_get k o) ∧
        (NoDup ks → ∀ k, k ∈ ks → ∃ x, obj_get k o' = Some x ∧
           match cb with Some f => f k = Ok x | None => x = VObj [] end) ∧
        (obj_wf o → obj_wf o').
Proof.
  revert o. induction ks as [|k ks IH]; intros o H; simpl in H; inv_res.
  { exists o. split_and!; try done; intros; rewrite ?elem_of_nil in *; tauto. }
  match goal with
  | H : addKey _ _ _ = _ |- _ => apply addKey_obj in H as (y & -> & Hy) end.
  match goal with
  | H : foldM _ _ _ = _ |- _ => apply IH in H as (o' & -> & Hk & Hg & Hn & Hwf) end.
  exists o'. split_and!; [done| | | |].
  - intros k1. rewrite Hk, obj_keys_set, elem_of_cons. tauto.
  - intros k1 Hk1. apply not_elem_of_cons in Hk1 as [Hne Hk1].
    by rewrite Hg, obj_get_set_ne.
  - intros [Hni Hnd]%NoDup_cons k1 [->|Hk1]%elem_of_cons; [|auto].
    exists y. rewrite Hg by done. by rewrite obj_get_set_eq.
  - intros. by apply Hwf, obj_set_wf.
Qed.

(** The removals. *)
Lemma delKeys_obj ks o :
  ∃ o', foldM del (VObj o) ks = Ok (VObj o') ∧
        (∀ k, obj_get k o' = if bool_decide (k ∈ ks) then None else obj_get k o) ∧
        (obj_wf o → obj_wf o').
Proof.
  revert o. induction ks as [|k ks IH]; intros o; simpl; [by exists o|].
  destruct (IH (obj_del k o)) as (o' & -> & Hg & Hwf).
  exists o'. split_and!; [done| |intros; by apply Hwf, obj_del_wf].
  intros k1. rewrite Hg, obj_get_del.
  destruct (String.eqb_spec k1 k) as [->|Hne].
  - rewrite (bool_decide_eq_true_2 (k ∈ k :: ks)) by apply list_elem_of_here.
    by case_bool_decide.
  - case_bool_decide as H1; case_bool_decide as H2; try done; rewrite elem_of_cons in H2;
      naive_solver.
Qed.

(** The renamings: every old key is gone, every new key is there, and the
    value of an old key moves to its new key. *)
Lemma renameKeys_obj (kws : obj string) o r :
  (∀ k, k ∈ kws.*1 → k ∉ kws.*2) → NoDup kws.*1 → NoDup kws.*2 →
  foldM (renameKey cb) (VObj o) kws = Ok r →
  ∃ o', r = VObj o' ∧
    (∀ k, k ∈ obj_keys o' ↔ (k ∈ obj_keys o ∧ k ∉ kws.*1) ∨ k ∈ kws.*2) ∧
    (∀ k, k ∉ kws.*1 → k ∉ kws.*2 → obj_get k o' = obj_get k o) ∧
    (∀ k k', (k, k') ∈ kws → defined (obj_lookup k o) → obj_get k' o' = obj_get k o) ∧
    (obj_wf o → obj_wf o').
Proof.
  revert o. induction kws as [|[k k'] kws IH]; intros o Hdisj Hn1 Hn2 H; simpl in *; inv_res.
  { exists o. split_and!; try done; intros; rewrite ?elem_of_nil in *; tauto. }
  apply NoDup_cons in Hn1 as [Hk1 Hn1]. apply NoDup_cons in Hn2 as [Hk2 Hn2].
  match goal with
  | H : renameKey _ _ _ = _ |- _ => apply renameKey_obj in H as (y & Hy & ->) end.
  assert (k ≠ k' ∧ k ∉ kws.*2) as [Hne Hkn].
  { apply not_elem_of_cons, Hdisj, list_elem_of_here. }
  assert (k' ∉ kws.*1) as Hk'.
  { intros Hin. eapply Hdisj; [by apply list_elem_of_further|apply list_elem_of_here]. }
  match goal with
  | H : foldM _ _ _ = _ |- _ => apply IH in H as (o' & -> & Hk & Hg & Hv & Hwf) end;
    [|intros k1 Hin Hin2; eapply Hdisj; by apply list_elem_of_further|done|done].
  exists o'. split_and!; [done| | | |].
  - intros k1. rewrite Hk, obj_keys_del, obj_keys_set, !elem_of_cons.
    destruct (decide (k1 = k)); naive_solver.
  - intros k1 [H1 H2]%not_elem_of_cons [H3 H4]%not_elem_of_cons.
    by rewrite Hg, obj_get_del_ne, obj_get_set_ne.
  - intros k1 k2 [[= -> ->]|Hin]%elem_of_cons Hd.
    + rewrite Hg by done. rewrite obj_get_del_ne, obj_get_set_eq by done.
      rewrite (getNewValue_obj _ _ _ _ Hy Hd). unfold obj_lookup in *.
      by destruct (obj_get k o).
    + assert (k1 ∈ kws.*1) by (apply list_elem_of_fmap; by exists (k1, k2)).
      assert (k1 ≠ k) by naive_solver. assert (k1 ≠ k') by naive_solver.
      assert (obj_get k1 (obj_del k (obj_set k' y o)) = obj_get k1 o) as He
        by (by rewrite obj_get_del_ne, obj_get_set_ne).
      rewrite <-He. apply Hv; [done|]. unfold obj_lookup. by rewrite He.
  - intros. by apply Hwf, obj_del_wf, obj_set_wf.
Qed.
End applyChanges_facts.

Section applyChanges_spec.
Context (cb : option (string → res val)).

Lemma applyChanges_obj o a b r :
  NoDup a → NoDup b → applyChangesToObject cb (VObj o) a b = Ok r →
  ∃ o', r = VObj o' ∧
    (∀ k, k ∈ obj_keys o' ↔ (k ∈ obj_keys o ∧ ¬ (k ∈ a ∧ k ∉ b)) ∨ (k ∈ b ∧ k ∉ a)) ∧
    (∀ k, (k ∈ a ↔ k ∈ b) → obj_get k o' = obj_get k o) ∧
    (obj_wf o → obj_wf o').
Proof.
  intros Ha Hb. unfold applyChangesToObject.
  pose proof (changes_arrays_ok a b Ha Hb) as Hc.
  destruct (getChangesArrays a b) as [[add remove] rename]. simpl in Hc.
  intros H. inv_res.
  destruct Hc as [(-> & Hna & Hnr & Hadd & Hrem)|(-> & -> & Hn1 & Hn2 & HR1 & HR2)];
    simpl in *; simplify_eq.
  - match goal with H : foldM (addKey _) _ _ = _ |- _ =>
      apply addKeys_obj in H as (o1 & -> & Hk1 & Hg1 & _ & Hw1) end.
    destruct (delKeys_obj remove o1) as (o2 & He & Hg2 & Hw2).
    rewrite He in *. simplify_eq. exists o2. split_and!; [done| | |auto].
    + intros k. rewrite elem_of_obj_keys, Hg2, <-Hrem. case_bool_decide as Hk.
      * split; [by intros []|]. specialize (Hadd k). specialize (Hrem k). tauto.
      * rewrite <-elem_of_obj_keys, Hk1, Hadd. tauto.
    + intros k Hk. rewrite Hg2, bool_decide_eq_false_2 by (rewrite Hrem; tauto).
      apply Hg1. rewrite Hadd. tauto.
  - match goal with H : foldM (renameKey _) _ _ = _ |- _ =>
      apply renameKeys_obj in H as (o' & -> & Hk & Hg & _ & Hw) end;
      [|intros k; rewrite HR1, HR2; tauto|done|done].
    exists o'. split_and!; [done| | |done].
    + intros k. rewrite Hk, HR1, HR2. tauto.
    + intros k Hiff. apply Hg; rewrite ?HR1, ?HR2; tauto.
Qed.

(** The value of a renamed key moves with it; renaming is one to one. *)
Lemma applyChanges_renamed o a b r k k' :
  NoDup a → NoDup b → applyChangesToObject cb (VObj o) a b = Ok r →
  (k, k') ∈ (getChangesArrays a b).2 → defined (obj_lookup k o) →
  prop r k' = obj_lookup k o.
Proof.
  intros Ha Hb. unfold applyChangesToObject.
  pose proof (changes_arrays_ok a b Ha Hb) as Hc.
  destruct (getChangesArrays a b) as [[add remove] rename]. simpl in *.
  intros H Hin Hd. inv_res.
  destruct Hc as [(-> & _)|(-> & -> & Hn1 & Hn2 & HR1 & HR2)]; [by apply elem_of_nil in Hin|].
  simpl in *. simplify_eq.
  match goal with H : foldM (renameKey _) _ _ = _ |- _ =>
    apply renameKeys_obj in H as (o' & -> & Hk & Hg & Hv & Hw) end;
    [|intros q; rewrite HR1, HR2; tauto|done|done].
  simpl. unfold obj_lookup at 1. by rewrite (Hv _ _ Hin Hd).
Qed.

(** A new key of an addition gets the value of the callback. *)
Lemma applyChanges_added o a b r k :
  NoDup a → NoDup b → applyChangesToObject cb (VObj o) a b = Ok r →
  (getChangesArrays a b).2 = [] → k ∈ b → k ∉ a →
  match cb with
  | Some f => f k = Ok (prop r k)
  | None => prop r k = VObj []
  end.
Proof.
  intros Ha Hb. unfold applyChangesToObject.
  pose proof (changes_arrays_ok a b Ha Hb) as Hc.
  destruct (getChangesArrays a b) as [[add remove] rename]. simpl in *.
  intros H -> Hkb Hka. inv_res. simpl in *. simplify_eq.
  destruct Hc as [(_ & Hna & Hnr & Hadd & Hrem)|(_ & _ & _ & _ & _ & HR2)].
  2:{ specialize (HR2 k). rewrite elem_of_nil in HR2. tauto. }
  match goal with H : foldM (addKey _) _ _ = _ |- _ =>
    apply addKeys_obj in H as (o1 & -> & Hk1 & Hg1 & Hn & Hw1) end.
  destruct (delKeys_obj remove o1) as (o2 & He & Hg2 & Hw2).
  rewrite He in *. simplify_eq. simpl.
  destruct (Hn Hna k) as (x & Hx & Hcb); [by apply Hadd|].
  unfold obj_lookup. rewrite Hg2, bool_decide_eq_false_2 by (rewrite Hrem; tauto).
  rewrite Hx. by destruct cb.
Qed.

Definition cb_total (a b : list string) : Prop :=
  match cb with
  | Some f => ∀ k, k ∈ b → k ∉ a → ∃ x, f k = Ok x
  | None => True
  end.

Lemma applyChanges_total o a b :
  NoDup a → NoDup b → cb_total a b → ∃ r, applyChangesToObject cb (VObj o) a b = Ok r.
Proof.
  intros Ha Hb Hcb. unfold applyChangesToObject.
  pose proof (changes_arrays_ok a b Ha Hb) as Hc.
  destruct (getChangesArrays a b) as [[add remove] rename]. simpl in *.
  destruct Hc as [(-> & Hna & Hnr & Hadd & Hrem)|(-> & -> & Hn1 & Hn2 & HR1 & HR2)]; simpl.
  - destruct (foldM_ok is_obj (addKey cb) add (VObj o)) as (v1 & -> & [o1 ->]); simpl.
    + intros v k Hk [o1 ->]. unfold addKey. apply Hadd in Hk as [??].
      unfold cb_total in Hcb. destruct cb as [f|]; simpl; [|by repeat eexists].
      destruct (Hcb k) as [x ->]; [done..|]. simpl. by repeat eexists.
    + by eexists.
    + destruct (delKeys_obj remove o1) as (o2 & -> & _). by eexists.
  - destruct (foldM_ok is_obj (renameKey cb) rename (VObj o)) as (v1 & -> & _);
      [|by eexists|by eexists].
    intros v [k k'] Hk [o1 ->]. unfold renameKey, getNewValue. simpl.
    assert (∃ x, (if negb (is_undef (obj_lookup k o1)) then Ok (obj_lookup k o1) else
                  if negb (is_undef (obj_lookup k' o1)) then Ok (obj_lookup k' o1) else
                  match cb with
                  | Some f => resVal ← f k';
                      if negb (is_undef resVal) then Ok resVal else Ok (VObj [])
                  | None => Ok (VObj [])
                  end) = Ok x) as [x ->]; [|by repeat eexists].
    case_match; [by eexists|]. case_match; [by eexists|].
    unfold cb_total in Hcb. destruct cb as [f|]; [|by eexists].
    assert (k' ∈ b ∧ k' ∉ a) as [??].
    { apply HR2. apply list_elem_of_fmap. by exists (k, k'). }
    destruct (Hcb k') as [y ->]; [done..|]. simpl. case_match; by eexists.
Qed.
End applyChanges_spec.

(** *** Fresh names *)

#[export] Instance index_ge_total : Total index_ge.
Proof. intros [a|] [b|]; simpl; auto. lia. Qed.

#[export] Instance index_ge_trans : Transitive index_ge.
Proof. intros [a|] [b|] [c|]; simpl; try done. lia. Qed.

(** The index read back from the name made of an index. *)
Lemma name_index_number_text prefix n :
  (n <= two53)%N → name_index prefix (prefix +:+ number_text (Some n)) = Some (Some n).
Proof.
  intros Hn. unfold name_index, digits_to_number. rewrite strip_prefix_app, number_text_exact by done.
  simpl. rewrite parse_digits_pretty. simpl. by rewrite round_double_exact.
Qed.

(** The first index after sorting bounds the others. *)
Lemma merge_sort_index_max l a :
  head (merge_sort index_ge l) = Some a → a ∈ l ∧ ∀ b, b ∈ l → index_ge a b.
Proof.
  intros Hh.
  pose proof (StronglySorted_merge_sort index_ge l) as Hs.
  pose proof (merge_sort_Permutation index_ge l) as Hp.
  destruct (merge_sort index_ge l) as [|x l'] eqn:He; simpl in Hh; [done|]. simplify_eq.
  split; [rewrite <-Hp; apply list_elem_of_here|].
  intros b. rewrite <-Hp. intros [->|Hb]%elem_of_cons; [by destruct a; simpl|].
  inversion Hs as [|? ? _ Hf]; subst. rewrite Forall_forall in Hf. auto.
Qed.

Definition indices_small (existed : list string) (prefix : string) : Prop :=
  ∀ name n, name ∈ existed → name_index prefix name = Some n → ∃ m, n = Some m ∧ (m < two53)%N.

Lemma getNameForNewItem_max existed prefix :
  indices_small existed prefix →
  ∃ m, (m < two53)%N ∧ getNameForNewItem existed prefix = prefix +:+ number_text (Some (m + 1)%N) ∧
       ∀ name n, name ∈ existed → name_index prefix name = Some (Some n) → (n <= m)%N.
Proof.
  intros Hsmall. unfold getNameForNewItem.
  destruct (head (merge_sort index_ge (omap (name_index prefix) existed))) as [a|] eqn:Hh.
  - apply merge_sort_index_max in Hh as [Ha Hmax].
    apply list_elem_of_omap in Ha as (name & Hname & Hi).
    destruct (Hsmall _ _ Hname Hi) as (m & -> & Hm). exists m. split_and!; [done| |].
    + simpl. rewrite round_double_exact by (unfold two53 in *; lia). done.
    + intros name' n' Hn' Hi'. apply (Hmax (Some n')), list_elem_of_omap. by exists name'.
  - exists 0%N. split_and!; [done|done|]. intros name n Hname Hi. exfalso.
    assert (Some n ∈ omap (name_index prefix) existed) as Hin
      by (apply list_elem_of_omap; by exists name).
    pose proof (merge_sort_Permutation index_ge (omap (name_index prefix) existed)) as Hp.
    destruct (merge_sort index_ge (omap (name_index prefix) existed)); simpl in Hh; [|done].
    apply Permutation_nil_l in Hp. rewrite <-Hp in Hin. by apply elem_of_nil in Hin.
Qed.

Lemma getNameForNewItem_not_elem existed prefix :
  indices_small existed prefix → getNameForNewItem existed prefix ∉ existed.
Proof.
  intros Hsmall. destruct (getNameForNewItem_max _ _ Hsmall) as (m & Hm & -> & Hmax).
  intros Hin. assert (m + 1 <= m)%N; [|lia].
  eapply Hmax; [exact Hin|]. apply name_index_number_text. unfold two53 in *. lia.
Qed.

(** *** Traversal *)

Lemma list_max_elem n l : n ∈ l → n ≤ list_max l.
Proof.
  intros Hin. apply list_elem_of_In in Hin.
  assert (Forall (λ k, k ≤ list_max l) l) as Hf by (by apply List.list_max_le).
  rewrite Forall_forall in Hf. by apply Hf, list_elem_of_In.
Qed.

Lemma val_depth_entry o k v : (k, v) ∈ o → val_depth v < val_depth (VObj o).
Proof.
  intros Hin. simpl. apply Nat.lt_succ_r, list_max_elem.
  change (val_depth v) with ((λ kv : string * val, val_depth kv.2) (k, v)).
  by apply list_elem_of_fmap_2.
Qed.

Lemma val_depth_arr l v : v ∈ l → val_depth v < val_depth (VArr l).
Proof. intros Hin. simpl. apply Nat.lt_succ_r, list_max_elem. by apply list_elem_of_fmap_2. Qed.

Lemma val_depth_pos v : 1 ≤ val_depth v.
Proof. destruct v; simpl; lia. Qed.

Lemma val_depth_get v k w : get v k = Ok w → val_depth w ≤ val_depth v.
Proof.
  pose proof (val_depth_pos v) as Hpos. destruct v as [| | | |s|l|o]; intros Hg; simpl in Hg;
    try discriminate; try (injection Hg as <-; simpl; lia).
  - destruct (String.eqb k "length"); injection Hg as <-; [simpl; lia|].
    destruct (array_index k); [|simpl; lia]. unfold char_at. case_match; simpl; lia.
  - destruct (String.eqb k "length"); injection Hg as <-; [simpl; lia|].
    destruct (array_index k) as [i|]; [|simpl; lia].
    destruct (l !! N.to_nat i) eqn:Hl; simpl; [|lia].
    apply list_elem_of_lookup_2, val_depth_arr in Hl. simpl in Hl. lia.
  - injection Hg as <-. unfold obj_lookup. destruct (obj_get k o) eqn:Ho; simpl; [|lia].
    apply obj_get_Some_elem, val_depth_entry in Ho. simpl in Ho. lia.
Qed.

Lemma val_depth_get_obj o k w :
  get (VObj o) k = Ok w → defined w → val_depth w < val_depth (VObj o).
Proof.
  simpl. intros Hg Hd. injection Hg as <-. unfold obj_lookup in *.
  destruct (obj_get k o) eqn:Ho; [|done]. simpl.
  by apply obj_get_Some_elem, val_depth_entry in Ho.
Qed.

Lemma Object_entries_depth v es k w :
  Object_entries v = Ok es → (k, w) ∈ es → val_depth w < val_depth v ∨ val_depth w = 1.
Proof.
  destruct v as [| | | |s|l|o]; simpl; intros Hg Hin; simplify_eq;
    try (by apply elem_of_nil in Hin).
  - right. apply elem_of_zip_r in Hin. unfold chars in Hin.
    by apply list_elem_of_fmap in Hin as (c & -> & _).
  - left. by apply elem_of_zip_r, val_depth_arr in Hin.
  - left. by apply val_depth_entry in Hin.
Qed.

(** Two amounts of fuel that both cover the schema give the same result: the
    recursion never runs out of fuel. *)
Lemma traverse_fuel_enough cb f1 f2 schema model :
  val_depth schema ≤ f1 → val_depth schema ≤ f2 →
  traverse cb f1 schema model = traverse cb f2 schema model.
Proof.
  revert f2 schema model. induction f1 as [|f1 IH]; intros f2 schema model H1 H2.
  { pose proof (val_depth_pos schema). lia. }
  destruct f2 as [|f2]; [pose proof (val_depth_pos schema); lia|]. simpl.
  destruct (get schema "type") as [t|] eqn:Ht; [|done]. simpl.
  destruct (is_str t PropertyType.OBJECT) eqn:Hts; [|done].
  destruct (get schema "properties") as [props|] eqn:Hp; [|done]. simpl.
  destruct (Object_entries (js_or props (VObj []))) as [es|] eqn:He; [|done]. simpl.
  apply foldM_ext. intros m [k prop] Hin.
  destruct (get prop "type") as [pt|] eqn:Hpt; [|done]. simpl.
  destruct (is_str pt PropertyType.OBJECT) eqn:Hpts; [|done].
  destruct (get m k) as [w|]; [|done]. simpl.
  assert (∃ o, schema = VObj o) as [o ->].
  { destruct schema as [| | | |s|l|o]; simpl in Ht; try discriminate;
      try (injection Ht as <-; discriminate); [by eexists]. }
  assert (val_depth prop < val_depth (VObj o)) as Hlt.
  { destruct (Object_entries_depth _ _ _ _ He Hin) as [Hlt|Heq].
    - unfold js_or in Hlt. destruct (truthy props) eqn:Htr.
      + pose proof (val_depth_get _ _ _ Hp). lia.
      + unfold js_or in He. rewrite Htr in He. simpl in He. injection He as <-.
        by apply elem_of_nil in Hin.
    - destruct prop as [| | | | |[]|[]]; simpl in Hpt; try discriminate;
        injection Hpt as <-; try discriminate.
      simpl in Heq. pose proof (val_depth_pos p.2). lia. }
  by rewrite (IH f2) by (simpl in *; lia).
Qed.
