(* ===== verification/SharedUtilsTheorems.v ===== *)
(** * Shared utilities: properties

    Contracts of the helpers of [libs/shared] that the stores are built on. *)

From S2P Require Import Prelude JsString JsValue JsJson SharedUtils.

(** ** Copies *)

Lemma norm_props_idem o :
  Forall (λ kv, ∀ w, json_norm kv.2 = Some w → json_norm w = Some w) o →
  norm_props (norm_props o) = norm_props o.
Proof.
  induction 1 as [|[k v] o Hv _ IH]; [done|]. simpl in *.
  destruct (json_norm v) as [w|]; [|done]. simpl. by rewrite (Hv w), IH.
Qed.

Lemma json_norm_idem v w : json_norm v = Some w → json_norm w = Some w.
Proof.
  revert w. induction v as [| | |n| |l IH|o IH] using val_nested_ind; intros w H; simpl in H;
    simplify_eq; try done.
  - by destruct n; simpl in H; simplify_eq.
  - simpl. do 2 f_equal. rewrite map_map. apply map_ext_in. intros v Hv%list_elem_of_In.
    rewrite Forall_forall in IH. specialize (IH v Hv).
    destruct (json_norm v) as [w|]; [|done]. simpl. by rewrite (IH w).
  - change (json_norm (VObj (norm_props o)) = Some (VObj (norm_props o))).
    by rewrite json_norm_obj, norm_props_idem.
Qed.

(** A copy made by [clone] is the value itself when the value is JSON, and
    copying a copy never changes it: properties that [JSON.stringify] drops
    and numbers it turns into [null] are lost by the first copy. *)
Theorem clone_exact v :
  (is_json v = true → clone v = v) ∧ clone (clone v) = clone v.
Proof.
  split; [apply clone_json|]. unfold clone.
  destruct (json_norm v) as [w|] eqn:H; simpl.
  - by rewrite (json_norm_idem v w).
  - by apply json_norm_None in H as ->.
Qed.

Lemma clone_exact_witness :
  clone (obj_lit [("a", VArr [vint 1; VNull])]) = obj_lit [("a", VArr [vint 1; VNull])].
Proof. apply (proj1 (clone_exact (obj_lit [("a", VArr [vint 1; VNull])]))). reflexivity. Defined.

(** ** Changes of a set of keys *)

(** Two lists of names without repetitions are told apart either by the
    names added and removed or, when as many were added as removed, by a
    renaming that pairs them one to one. *)
Theorem changes_found a b : NoDup a → NoDup b → changes_ok a b (getChangesArrays a b).
Proof. apply changes_arrays_ok. Qed.

Lemma changes_found_witness :
  changes_ok ["a"; "b"] ["b"; "c"] (getChangesArrays ["a"; "b"] ["b"; "c"]) ∧
  getChangesArrays ["a"; "b"] ["b"; "c"] = ([], [], [("a", "c")]).
Proof.
  split; [|vm_compute; reflexivity].
  apply changes_found; apply (bool_decide_unpack _); vm_compute; exact I.
Defined.

(** C34: Applying the changes between two lists of names to an object never
    throws when the new values can be computed, and gives an object that has
    the added names, lacks the removed ones and keeps every other property; a
    renamed property keeps its value, and a new one gets the value computed
    for it. *)
Theorem changes_applied cb o a b :
  NoDup a → NoDup b → cb_total cb a b →
  ∃ o', applyChangesToObject cb (VObj o) a b = Ok (VObj o') ∧
    (∀ k, k ∈ obj_keys o' ↔ (k ∈ obj_keys o ∧ ¬ (k ∈ a ∧ k ∉ b)) ∨ (k ∈ b ∧ k ∉ a)) ∧
    (∀ k, (k ∈ a ↔ k ∈ b) → obj_get k o' = obj_get k o) ∧
    (∀ k k', (k, k') ∈ (getChangesArrays a b).2 → defined (obj_lookup k o) →
       obj_lookup k' o' = obj_lookup k o) ∧
    (∀ k, (getChangesArrays a b).2 = [] → k ∈ b → k ∉ a →
       match cb with Some f => f k = Ok (obj_lookup k o') | None => obj_lookup k o' = VObj [] end).
Proof.
  intros Ha Hb Hcb. destruct (applyChanges_total cb o a b Ha Hb Hcb) as [r Hr].
  destruct (applyChanges_obj cb o a b r Ha Hb Hr) as (o' & -> & Hk & Hg & _).
  exists o'. split_and!; [done..| |].
  - intros k k' Hin Hd. exact (applyChanges_renamed cb o a b _ k k' Ha Hb Hr Hin Hd).
  - intros k Hn Hkb Hka. exact (applyChanges_added cb o a b _ k Ha Hb Hr Hn Hkb Hka).
Qed.

Lemma changes_applied_witness :
  ∃ o', applyChangesToObject None (VObj [("a", vint 1); ("b", vint 2)]) ["a"; "b"] ["b"; "c"]
      = Ok (VObj o') ∧ obj_lookup "c" o' = vint 1 ∧ obj_get "b" o' = Some (vint 2).
Proof.
  destruct (changes_applied None [("a", vint 1); ("b", vint 2)] ["a"; "b"] ["b"; "c"])
    as (o' & H & _ & Hg & Hr & _).
  - apply (bool_decide_unpack _). vm_compute. exact I.
  - apply (bool_decide_unpack _). vm_compute. exact I.
  - exact I.
  - exists o'. split; [exact H|]. split.
    + apply (Hr "a" "c"); [|discriminate]. vm_compute. apply list_elem_of_here.
    + apply (Hg "b"). rewrite !elem_of_cons. naive_solver.
Defined.

(** ** Names of new items *)

(** C40: The name of a new item is the prefix followed by a number above the
    number of every existing name of that form, and no existing item has it,
    as long as the existing numbers are below 2^53. *)
Theorem new_name_fresh existed prefix :
  indices_small existed prefix →
  (∃ m, (m < two53)%N ∧ getNameForNewItem existed prefix = prefix +:+ number_text (Some (m + 1)%N) ∧
     ∀ name n, name ∈ existed → name_index prefix name = Some (Some n) → (n <= m)%N) ∧
  getNameForNewItem existed prefix ∉ existed.
Proof.
  intros H. split; [by apply getNameForNewItem_max|by apply getNameForNewItem_not_elem].
Qed.

Lemma new_name_fresh_witness :
  getNameForNewItem ["param_1"; "limit"] "param_" ∉ ["param_1"; "limit"] ∧
  getNameForNewItem ["param_1"; "limit"] "param_" = "param_2".
Proof.
  split; [|vm_compute; reflexivity]. refine (proj2 (new_name_fresh _ _ _)).
  intros name n Hin Hn. rewrite !elem_of_cons in Hin.
  destruct Hin as [->|[->|[]%elem_of_nil]]; vm_compute in Hn; [|discriminate Hn].
  injection Hn as <-. by eexists.
Defined.

(** Above that bound the doubles run out: next to an item numbered 2^53 the
    new item gets the name that exists. *)
Theorem new_name_collides :
  let existed := ["param_9007199254740992"] in
  getNameForNewItem existed "param_" ∈ existed.
Proof.
  assert (getNameForNewItem ["param_9007199254740992"] "param_" = "param_9007199254740992") as He
    by (vm_compute; reflexivity).
  cbv zeta. rewrite He. apply list_elem_of_here.
Qed.

(** ** Walking a schema *)

(** Walking a model along its schema always ends: the depth of the schema
    bounds the recursion, so any larger bound gives the same result. *)
Theorem traverse_ends cb schema model fuel :
  val_depth schema ≤ fuel → traverse cb fuel schema model = traverseModelByScheme schema model cb.
Proof. intros H. by apply traverse_fuel_enough. Qed.

Lemma traverse_ends_witness :
  traverse fillDefault 9 (getEmptySchema None) (VObj []) =
    traverseModelByScheme (getEmptySchema None) (VObj []) fillDefault.
Proof. apply traverse_ends. vm_compute. lia. Defined.
