(* ===== verification/Localization.v ===== *)
(** * Translations in texts and schemas

    The keys of translations that a text uses ([t('a.b.c.d')] in a schema,
    [$t('a.b.c.d')] in the code of a module), and what the utilities of
    [libs/shared/src/lib/utils] do with them: [localize-schema.ts],
    [localize-config-schema.ts], [get-event-params-schema.ts],
    [get-action-params-schema.ts]. *)

From Stdlib Require Import Ascii.
From S2P Require Import Prelude JsString JsValue JsJson JsonText SharedUtils.

(** ** Keys of translations in a text *)

(** [((\[a-zA-Z\d\]+\.){3}\[a-zA-Z\d\]+)], after [t('] or [$t('] and before ['')]. *)
Definition is_alnum (c : ascii) : bool :=
  let n := N_of_ascii c in
  ((48 <=? n) && (n <=? 57) || (65 <=? n) && (n <=? 90) || (97 <=? n) && (n <=? 122))%N.

Fixpoint all_chars (p : ascii → bool) (s : string) : bool :=
  match s with EmptyString => true | String c s => p c && all_chars p s end.

Definition is_word (s : string) : bool := negb (String.eqb s "") && all_chars is_alnum s.

(** Four words with dots between them. *)
Definition is_key (s : string) : bool :=
  let words := split "."%char s in
  Nat.eqb (length words) 4 && forallb is_word words.

Fixpoint span_to (c : ascii) (s : string) : string * string :=
  match s with
  | EmptyString => ("", "")
  | String d t => if Ascii.eqb c d then ("", s) else let '(a, b) := span_to c t in (String d a, b)
  end.

Definition CODE_MARK : string := "$t('".
Definition SCHEMA_MARK : string := "t('".

Section pattern.
Context (mark : string).

(** A match of the pattern at the beginning of [s]. *)
Definition key_at (s : string) : option string :=
  rest ← strip_prefix mark s;
  let '(key, rest) := span_to "'" rest in
  _ ← strip_prefix "')" rest;
  if is_key key then Some key else None.

(** The keys of a text, from the left.  A match holds no second one. *)
Fixpoint keys_in (s : string) : list string :=
  match s with
  | EmptyString => []
  | String _ t => match key_at s with Some k => k :: keys_in t | None => keys_in t end
  end.

(** [new Set(keys)], in the order of insertion. *)
Definition localizationKeys (text : string) : list string :=
  reverse (remove_dups (reverse (keys_in text))).

(** [text.replace(pattern, by)] with a global pattern: [skip] characters of
    the current match are left. *)
Fixpoint replaceKeys (by' : string) (skip : nat) (s : string) : string :=
  match s with
  | EmptyString => EmptyString
  | String c t =>
      match skip with
      | S skip => replaceKeys by' skip t
      | O =>
          match key_at s with
          | Some k => by' +:+ replaceKeys by' (String.length mark + String.length k + 1) t
          | None => String c (replaceKeys by' 0 t)
          end
      end
  end.
End pattern.

(** [$] has a meaning of its own in the replacement; such texts are not
    represented. *)
Definition literal_replacement (s : string) : res string :=
  if has_char "$" s then Throw Unsupported else Ok s.

(** ** New keys *)

Definition emptyTranslation : val := obj_lit [("ru", VStr ""); ("en", VStr "")].

(** [keys.filter((key) => !names.includes(key))] *)
Definition newKeys (keys names : list string) : list string :=
  List.filter (λ key, negb (includes key names)) keys.

(** [sortKeys({ ...newLocalizationKeys, ...old })]: the new keys have empty
    translations. *)
Definition sortedKeys (new : list string) (old : val) : val :=
  sortKeys (spread2 (obj_lit ((λ k, (k, emptyTranslation)) <$> new)) old).

(** ** localize-schema.ts *)

(** [additionalKeys[key]?.[lang] || ''] *)
Definition translationOf (lang : string) (additionalKeys : val) (key : string) : res string :=
  texts ← get additionalKeys key;
  text ← getq texts lang;
  literal_replacement (to_string (js_or text (VStr ""))).

(** One round of [schemaKeys.forEach]. *)
Definition replaceRound (lang : string) (additionalKeys : val) (plainSchema key : string) :
    res string :=
  text ← translationOf lang additionalKeys key;
  Ok (replaceKeys SCHEMA_MARK text 0 plainSchema).

Definition localizeSchemaAdditionalKeys (lang : string) (schema additionalKeys : val) : res val :=
  names ← Object_keys (js_or additionalKeys (VObj []));
  if bool_decide (names = []) then Ok schema
  else
    match stringify schema with
    | None => Throw SyntaxError   (* [JSON.parse(undefined)] *)
    | Some plainSchema =>
        plainSchema ← foldM (replaceRound lang additionalKeys) plainSchema
                        (localizationKeys SCHEMA_MARK plainSchema);
        json_parse plainSchema
    end.

(** ** localize-config-schema.ts *)

(** One round of [forEach].  A [ui] that is made here is not put into the
    schema. *)
Definition localizeParam (configLocales : val) (lang : string) (schema : val) (property : string) :
    res val :=
  p ← get_path schema ["properties"; property];
  ui ← get p "ui";
  propertyLocale ← get configLocales property;
  text ← (l ← get propertyLocale lang; Ok (js_or l (VObj [])));
  title ← get text "title";
  description ← get text "description";
  type ← get p "type";
  let key := if is_str type PropertyType.ARRAY || is_str type PropertyType.OBJECT
             then "legend" else "description" in
  if truthy ui then
    update_path schema ["properties"; property; "ui"] (λ ui,
      ui ← set ui "label" title;
      set ui key description)
  else Ok schema.

Definition localizeSchemaParams (configSchema configLocales : val) (lang : string) : res val :=
  let schema := clone configSchema in
  names ← (p ← get schema "properties"; Object_keys p);
  foldM (localizeParam configLocales lang) schema names.

(** ** get-event-params-schema.ts, get-action-params-schema.ts *)

Definition is_identifier (s : string) : bool :=
  all_chars (λ c, is_alnum c || Ascii.eqb c "_") s.

(** [JSON.parse(JSON.stringify(schema).replace(/\$root\.name/g, '$root'))];
    names with a meaning in a pattern are not represented. *)
Definition rootedAt (name : string) (schema : val) : res val :=
  if negb (is_identifier name) then Throw Unsupported
  else
    match stringify schema with
    | None => Throw TypeError
    | Some text => json_parse (replace_all ("$root." +:+ name) "$root" text)
    end.

Definition paramsSchema (schemaKey : string) (dropped : list string) (module : val) (name : string) :
    res val :=
  own ← get_path module [schemaKey; "properties"; name; "allOf"; "1"];
  schema ← foldM (λ s k, update_path s ["properties"] (λ p, del p k)) (clone own) dropped;
  rootedAt name schema.

Definition getEventParamsSchema : val → string → res val :=
  paramsSchema "event_config_schema" ["fields"].
Definition getActionParamsSchema : val → string → res val :=
  paramsSchema "action_config_schema" ["fields"; "priority"].

(** ** The keys of a text *)

Lemma span_to_app c s t :
  has_char c s = false → span_to c (s +:+ String c t) = (s, String c t).
Proof.
  induction s as [|d s IH]; simpl; [by rewrite Ascii.eqb_refl|].
  intros [Hd Hs]%orb_false_iff. rewrite Ascii.eqb_sym, Hd. by rewrite IH.
Qed.

Lemma span_to_join c s a b : span_to c s = (a, b) → s = a +:+ b.
Proof.
  revert a b. induction s as [|d s IH]; intros a b H; simpl in H; [by simplify_eq|].
  destruct (Ascii.eqb c d); [by simplify_eq|]. destruct (span_to c s) as [a' b'].
  injection H as <- <-. rewrite string_app_cons. by rewrite (IH a' b').
Qed.

Lemma all_chars_app p s t : all_chars p (s +:+ t) = all_chars p s && all_chars p t.
Proof. induction s as [|c s IH]; simpl; [done|]. by rewrite IH, andb_assoc. Qed.

Lemma all_chars_no_char p c s : p c = false → all_chars p s = true → has_char c s = false.
Proof.
  intros Hc. induction s as [|d s IH]; simpl; [done|]. intros [Hd Hs]%andb_true_iff.
  rewrite IH by done. destruct (Ascii.eqb_spec d c) as [->|]; [congruence|done].
Qed.

(** A key has no quote. *)
Lemma is_key_no_quote k : is_key k = true → has_char "'" k = false.
Proof.
  unfold is_key. intros [_ Hw]%andb_true_iff.
  rewrite <-(join_split "."%char k). induction (split "."%char k) as [|w ws IH]; [done|].
  cbn [forallb] in Hw. apply andb_true_iff in Hw as [Hw Hws]. unfold is_word in Hw.
  apply andb_true_iff in Hw as [_ Hw].
  apply (all_chars_no_char _ "'") in Hw; [|done]. destruct ws as [|w' ws]; [done|].
  rewrite join_cons by done. specialize (IH Hws). clear Hws.
  induction w as [|c w IHw]; simpl in *; [done|]. apply orb_false_iff in Hw as [-> Hw]. by apply IHw.
Qed.

Section pattern_facts.
Context (mark : string).
Abbreviation key_at := (key_at mark).
Abbreviation keys_in := (keys_in mark).
Abbreviation localizationKeys := (localizationKeys mark).

Lemma key_at_spec s k :
  key_at s = Some k ↔ is_key k = true ∧ ∃ r, s = mark +:+ k +:+ "')" +:+ r.
Proof.
  unfold key_at. split.
  - destruct (strip_prefix mark s) as [rest|] eqn:Hs; [|done]. cbn [mbind option_bind].
    apply strip_prefix_Some in Hs as ->. destruct (span_to "'" rest) as [key r] eqn:Hsp.
    apply span_to_join in Hsp as ->. destruct (strip_prefix "')" r) as [r'|] eqn:Hr; [|done].
    cbn [mbind option_bind]. apply strip_prefix_Some in Hr as ->.
    destruct (is_key key) eqn:Hk; [|done]. intros [= <-]. split; [done|]. by exists r'.
  - intros (Hk & r & ->). rewrite strip_prefix_app. cbn [mbind option_bind].
    change (k +:+ "')" +:+ r) with (k +:+ String "'" (String ")" r)).
    rewrite span_to_app by by apply is_key_no_quote.
    change (String "'" (String ")" r)) with ("')" +:+ r). rewrite strip_prefix_app.
    cbn [mbind option_bind]. by rewrite Hk.
Qed.

(** The keys found in a text are those of the pattern, wherever it occurs. *)
Lemma keys_in_spec s k :
  k ∈ keys_in s ↔ is_key k = true ∧ ∃ a b, s = a +:+ mark +:+ k +:+ "')" +:+ b.
Proof.
  induction s as [|c s IH].
  - cbn [keys_in]. split; [by intros ?%elem_of_nil|]. intros (_ & a & b & H).
    apply (f_equal String.length) in H. rewrite !string_app_length in H. simpl in H. lia.
  - assert (k ∈ keys_in (String c s) ↔ key_at (String c s) = Some k ∨ k ∈ keys_in s) as ->.
    { cbn [keys_in]. destruct (key_at (String c s)) as [k'|]; [rewrite elem_of_cons|]; naive_solver. }
    rewrite key_at_spec, IH. split.
    + intros [(Hk & r & Hr)|(Hk & a & b & ->)]; (split; [done|]).
      * by exists "", r.
      * by exists (String c a), b.
    + intros (Hk & a & b & H). destruct a as [|d a].
      * left. split; [done|]. by exists b.
      * right. split; [done|]. rewrite string_app_cons in H. injection H as -> H. by exists a, b.
Qed.

Lemma localizationKeys_elem text k : k ∈ localizationKeys text ↔ k ∈ keys_in text.
Proof. unfold localizationKeys. by rewrite elem_of_reverse, elem_of_remove_dups, elem_of_reverse. Qed.

(** Without a key nothing is replaced. *)
Lemma replaceKeys_none by' s : keys_in s = [] → replaceKeys mark by' 0 s = s.
Proof.
  induction s as [|c s IH]; [done|]. cbn [Localization.keys_in replaceKeys].
  destruct (key_at (String c s)); [done|]. intros H. by rewrite IH.
Qed.
End pattern_facts.

(** ** Registering keys *)

(** The translations after new keys were added: the old ones, and empty ones
    for new keys. *)
Definition registers (keys : list string) (ui ui' : obj val) : Prop :=
  (∀ k x, obj_get k ui = Some x → obj_get k ui' = Some x ∨ obj_get k ui' = Some (sortKeys x)) ∧
  (∀ k, k ∈ keys → k ∉ obj_keys ui → obj_get k ui' = Some (sortKeys emptyTranslation)) ∧
  ∀ k, k ∈ obj_keys ui' ↔ k ∈ obj_keys ui ∨ k ∈ keys.

Lemma registers_refl keys ui : (∀ k, k ∈ keys → k ∈ obj_keys ui) → registers keys ui ui.
Proof. intros H. split; [naive_solver|]. split; [intros k Hk Hn; by destruct Hn; apply H|naive_solver]. Qed.

Lemma elem_of_newKeys keys names k : k ∈ newKeys keys names ↔ k ∈ keys ∧ k ∉ names.
Proof. unfold newKeys. by rewrite elem_of_List_filter, negb_true_iff, includes_false. Qed.

Lemma get_emptyTranslations new k :
  obj_get k (obj_assign [] ((λ k, (k, emptyTranslation)) <$> new))
  = if includes k new then Some emptyTranslation else None.
Proof.
  induction new as [|k1 new IH] using rev_ind.
  - unfold includes. by rewrite bool_decide_false by apply not_elem_of_nil.
  - rewrite fmap_app. unfold obj_assign in *. rewrite foldl_app. cbn [foldl fmap list_fmap].
    rewrite obj_get_set, IH. cbn [fst snd]. unfold includes.
    rewrite (bool_decide_ext (k ∈ new ++ [k1]) (k = k1 ∨ k ∈ new))
      by (rewrite elem_of_app, list_elem_of_singleton; tauto).
    destruct (String.eqb_spec k k1); repeat case_bool_decide; naive_solver.
Qed.

Lemma sortedKeys_registers keys ui :
  obj_wf ui → ∃ ui', sortedKeys (newKeys keys (obj_keys ui)) (VObj ui) = VObj ui' ∧ registers keys ui ui'.
Proof.
  intros Hwf. unfold sortedKeys, spread2, spread. cbn [own_props obj_lit].
  set (new := newKeys keys (obj_keys ui)).
  set (o := obj_assign [] ((λ k, (k, emptyTranslation)) <$> new)).
  assert (∀ k, obj_get k (obj_assign o ui) = match obj_get k ui with
     | Some x => Some x | None => if includes k new then Some emptyTranslation else None end) as Hget.
  { intros k. rewrite obj_get_assign_NoDup by apply Hwf. destruct (obj_get k ui); [done|].
    apply get_emptyTranslations. }
  exists (own_props (sortKeys (VObj (obj_assign o ui)))). split; [done|].
  assert (∀ k, k ∈ obj_keys ui ↔ is_Some (obj_get k ui)) as Hin
    by (intros k; apply elem_of_obj_keys).
  split; [|split].
  - intros k x Hx. right. by rewrite sortKeys_get, Hget, Hx.
  - intros k Hk Hn. rewrite sortKeys_get, Hget. assert (includes k new = true) as ->
      by (by apply includes_spec, elem_of_newKeys).
    rewrite Hin in Hn. destruct (obj_get k ui); [by destruct Hn; eexists|done].
  - intros k. rewrite elem_of_obj_keys, sortKeys_get, Hget, Hin. split.
    + destruct (obj_get k ui); [by left; eexists|]. destruct (includes k new) eqn:Hk; [|by intros []].
      right. by apply includes_spec, elem_of_newKeys in Hk as [? _].
    + intros [[x ->]|Hk]; [by eexists|]. destruct (obj_get k ui) eqn:Hu; [by eexists|].
      assert (includes k new = true) as ->; [|by eexists].
      apply includes_spec, elem_of_newKeys. split; [done|]. rewrite Hin, Hu. by intros [].
Qed.

(** ** Localized schemas *)

(** a schema is localized with the text of its first key alone: when no
    translation holds a mark or a [$], every mark of the schema, whatever its key,
    becomes the translation of the first one. *)
Theorem one_text_for_all_keys lang schema additionalKeys text k ks by' :
  keys_of additionalKeys ≠ [] → is_obj additionalKeys → stringify schema = Some text →
  localizationKeys SCHEMA_MARK text = k :: ks →
  (∀ k', k' ∈ k :: ks → is_ok (translationOf lang additionalKeys k') = true) →
  translationOf lang additionalKeys k = Ok by' →
  keys_in SCHEMA_MARK (replaceKeys SCHEMA_MARK by' 0 text) = [] →
  localizeSchemaAdditionalKeys lang schema additionalKeys =
    json_parse (replaceKeys SCHEMA_MARK by' 0 text).
Proof.
  intros Hne [o ->] Ht Hks Hok Hby Hno. unfold localizeSchemaAdditionalKeys.
  cbn [js_or truthy Object_keys mbind res_bind]. rewrite bool_decide_false by done.
  rewrite Ht, Hks. cbn [foldM].
  assert (replaceRound lang (VObj o) text k = Ok (replaceKeys SCHEMA_MARK by' 0 text)) as ->
    by (unfold replaceRound; by rewrite Hby).
  cbn [mbind res_bind].
  assert (foldM (replaceRound lang (VObj o)) (replaceKeys SCHEMA_MARK by' 0 text) ks
          = Ok (replaceKeys SCHEMA_MARK by' 0 text)) as ->; [|done].
  assert (∀ k', k' ∈ ks → is_ok (translationOf lang (VObj o) k') = true) as Hrest
    by (intros k' Hk'; by apply Hok, list_elem_of_further).
  clear Hok Hks. induction ks as [|k' ks IH]; [done|]. cbn [foldM].
  specialize (Hrest k' (list_elem_of_here _ _)) as Hk'. apply is_ok_spec in Hk' as (t & Hk').
  assert (replaceRound lang (VObj o) (replaceKeys SCHEMA_MARK by' 0 text) k'
          = Ok (replaceKeys SCHEMA_MARK by' 0 text)) as ->
    by (unfold replaceRound; rewrite Hk'; cbn [mbind res_bind]; by rewrite replaceKeys_none).
  cbn [mbind res_bind]. apply IH.
  intros k2 H2. by apply Hrest, list_elem_of_further.
Qed.

(** What localizing does to one property: a [ui] object gets label and
    description, a property without one is left. *)
Definition localizedProperty (text p : val) : val :=
  let key := if is_str (prop p "type") PropertyType.ARRAY || is_str (prop p "type") PropertyType.OBJECT
             then "legend" else "description" in
  if truthy (prop p "ui")
  then put p "ui" (put (put (prop p "ui") "label" (prop text "title")) key (prop text "description"))
  else p.

(** A property with a [ui] that is an object or missing. *)
Definition labelled (p : val) : Prop := is_obj p ∧ (truthy (prop p "ui") = true → is_obj (prop p "ui")).

Definition withProperty (schema : val) (k : string) (p : val) : val :=
  put schema "properties" (put (prop schema "properties") k p).

Lemma localizeParam_eq locales lang schema k :
  is_obj schema → is_obj (prop schema "properties") → labelled (schema @@ ["properties"; k]) →
  is_obj locales → is_obj (prop locales k) → is_obj (locales @@ [k; lang]) →
  localizeParam locales lang schema k =
    Ok (if truthy (schema @@ ["properties"; k; "ui"])
        then withProperty schema k (localizedProperty (locales @@ [k; lang]) (schema @@ ["properties"; k]))
        else schema).
Proof.
  intros Hs Hp [Ho Hu] Hl Hk Ht. unfold localizeParam. cbn [get_path at_path] in *.
  rewrite !(get_is_obj schema) by done. cbn [mbind res_bind].
  rewrite !(get_is_obj (prop schema "properties")) by done. cbn [mbind res_bind].
  set (p := prop (prop schema "properties") k) in *. set (text := prop (prop locales k) lang) in *.
  rewrite !(get_is_obj p), (get_is_obj locales) by done. cbn [mbind res_bind].
  rewrite (get_is_obj (prop locales k)) by done. cbn [mbind res_bind]. fold text.
  assert (js_or text (VObj []) = text) as -> by (by destruct Ht as [o ->]).
  rewrite !(get_is_obj text) by done. cbn [mbind res_bind].
  destruct (truthy (prop p "ui")) eqn:Htr; [|done]. specialize (Hu eq_refl).
  unfold localizedProperty. rewrite Htr. set (key := if is_str _ _ || _ then _ else _).
  cbn [update_path]. rewrite (get_is_obj schema) by done. cbn [mbind res_bind].
  rewrite (get_is_obj (prop schema "properties")) by done. cbn [mbind res_bind]. fold p.
  rewrite (get_is_obj p) by done. cbn [mbind res_bind].
  rewrite (set_put (prop p "ui")) by done. cbn [mbind res_bind].
  rewrite set_put by (by apply put_is_obj). cbn [mbind res_bind].
  rewrite (set_put p) by done. cbn [mbind res_bind].
  rewrite (set_put (prop schema "properties")) by done. cbn [mbind res_bind].
  by rewrite set_put.
Qed.

Lemma withProperty_obj schema k p :
  is_obj schema → is_obj (prop schema "properties") →
  is_obj (withProperty schema k p) ∧ is_obj (prop (withProperty schema k p) "properties") ∧
  ∀ k', withProperty schema k p @@ ["properties"; k'] =
    if decide (k' = k) then p else schema @@ ["properties"; k'].
Proof.
  intros Hs Hp. unfold withProperty. split; [by apply put_is_obj|]. cbn [at_path].
  rewrite prop_put by done. rewrite decide_True by done. split; [by apply put_is_obj|].
  intros k'. by apply prop_put.
Qed.

(** C31: localizing the parameters of a schema gives every parameter that has
    a [ui] object the title of its translation as label and its description
    as description (as legend, when the parameter is an array or an object),
    and changes no other parameter: one without a [ui] stays without label. *)
Theorem params_labelled schema locales lang props :
  is_json schema = true → is_obj schema → prop schema "properties" = VObj props → obj_wf props →
  Forall (λ kv, labelled kv.2) props → is_obj locales →
  (∀ k, k ∈ obj_keys props → is_obj (prop locales k) ∧ is_obj (locales @@ [k; lang])) →
  ∃ s', localizeSchemaParams schema locales lang = Ok s' ∧
    ∀ k p, obj_get k props = Some p →
      s' @@ ["properties"; k] = localizedProperty (locales @@ [k; lang]) p.
Proof.
  intros Hj Hs Hp Hwf HF Hl Ht. unfold localizeSchemaParams. rewrite clone_json by done.
  rewrite (get_is_obj schema), Hp by done. cbn [mbind res_bind Object_keys].
  pose proof (obj_wf_NoDup _ Hwf) as Hnd.
  assert (∀ s0 ks, NoDup ks → (∀ k, k ∈ ks → k ∈ obj_keys props) → is_obj s0 →
    is_obj (prop s0 "properties") →
    (∀ k, k ∈ ks → s0 @@ ["properties"; k] = schema @@ ["properties"; k]) →
    ∃ s', foldM (localizeParam locales lang) s0 ks = Ok s' ∧ ∀ k, s' @@ ["properties"; k] =
      if decide (k ∈ ks) then localizedProperty (locales @@ [k; lang]) (schema @@ ["properties"; k])
      else s0 @@ ["properties"; k]) as Hloop.
  { intros s0 ks. revert s0. induction ks as [|k ks IH]; intros s0 Hks Hin H0 H1 Hsame; cbn [foldM].
    { exists s0. split; [done|]. intros k. by rewrite decide_False by apply not_elem_of_nil. }
    apply NoDup_cons in Hks as [Hk Hks].
    assert (k ∈ obj_keys props) as Hkp by (apply Hin, list_elem_of_here).
    assert (s0 @@ ["properties"; k] = schema @@ ["properties"; k]) as Hks0
      by (apply Hsame, list_elem_of_here).
    assert (labelled (schema @@ ["properties"; k])) as Hlab.
    { cbn [at_path]. rewrite Hp. apply elem_of_obj_keys in Hkp as [p Hgp].
      cbn [prop]. unfold obj_lookup. rewrite Hgp. apply obj_get_Some_elem in Hgp.
      rewrite Forall_forall in HF. exact (HF _ Hgp). }
    destruct (Ht k Hkp) as [Hlk Hlt].
    rewrite localizeParam_eq by (done || by rewrite Hks0). cbn [mbind res_bind].
    change (s0 @@ ["properties"; k; "ui"]) with (prop (s0 @@ ["properties"; k]) "ui"). rewrite Hks0.
    set (p := schema @@ ["properties"; k]) in *. set (lp := localizedProperty (locales @@ [k; lang]) p).
    set (s1 := if truthy (prop p "ui") then withProperty s0 k lp else s0).
    assert (is_obj s1 ∧ is_obj (prop s1 "properties") ∧ ∀ k', s1 @@ ["properties"; k'] =
      if decide (k' = k) then lp else s0 @@ ["properties"; k']) as (Hs1 & Hp1 & Hs1').
    { unfold s1. destruct (truthy (prop p "ui")) eqn:Htr; [by apply withProperty_obj|].
      split; [done|]. split; [done|]. intros k'. destruct (decide (k' = k)) as [->|]; [|done].
      rewrite Hks0. unfold lp, localizedProperty. by rewrite Htr. }
    destruct (IH s1) as (s' & Hf & Hs'); [done|by intros k' ?; apply Hin, list_elem_of_further|done..| |].
    { intros k' Hk'. rewrite Hs1', decide_False by (by intros ->). by apply Hsame, list_elem_of_further. }
    exists s'. split; [done|]. intros k'. rewrite Hs', Hs1'.
    destruct (decide (k' ∈ ks)) as [Hin'|Hni].
    - by rewrite decide_True by by apply list_elem_of_further.
    - destruct (decide (k' = k)) as [->|Hne].
      + by rewrite decide_True by apply list_elem_of_here.
      + rewrite decide_False; [done|]. by intros [->|]%elem_of_cons. }
  destruct (Hloop schema (obj_keys props)) as (s' & Hf & Hs'); [done|done|done|by rewrite Hp; eexists|done|].
  exists s'. split; [done|]. intros k p Hg. rewrite Hs', decide_True by (apply elem_of_obj_keys; by eexists).
  f_equal. cbn [at_path]. rewrite Hp. cbn [prop]. unfold obj_lookup. by rewrite Hg.
Qed.

(** ** The theorems at concrete inputs *)

Definition twoMarks : val :=
  obj_lit [("title", VStr "t('A.b.c.title')"); ("text", VStr "t('A.b.c.text')")].
Definition twoTexts : val :=
  obj_lit [("A.b.c.title", obj_lit [("en", VStr "Title")]); ("A.b.c.text", obj_lit [("en", VStr "Text")])].

Lemma one_text_for_all_keys_witness :
  localizeSchemaAdditionalKeys "en" twoMarks twoTexts =
    Ok (obj_lit [("title", VStr "Title"); ("text", VStr "Title")]).
Proof.
  rewrite (one_text_for_all_keys "en" twoMarks twoTexts (json_text twoMarks) "A.b.c.title"
             ["A.b.c.text"] "Title").
  - by vm_compute.
  - by vm_compute.
  - by eexists.
  - done.
  - by vm_compute.
  - intros k Hk. repeat (apply elem_of_cons in Hk as [->|Hk]); [by vm_compute..|by apply elem_of_nil in Hk].
  - by vm_compute.
  - by vm_compute.
Defined.

(** A translation with a quote makes the text of the schema unreadable. *)
Example quoted_translation_throws :
  localizeSchemaAdditionalKeys "en" twoMarks
    (obj_lit [("A.b.c.title", obj_lit [("en", VStr ("the " +:+ dquote +:+ "title" +:+ dquote))])])
  = Throw SyntaxError.
Proof. by vm_compute. Qed.

Definition twoParams : obj val :=
  [("host", obj_lit [("type", VStr "string"); ("ui", obj_lit [("widget", VStr "input")])]);
   ("port", obj_lit [("type", VStr "integer")])].
Definition paramLocale (t : string) : val :=
  obj_lit [("en", obj_lit [("title", VStr t); ("description", VStr "")])].

Lemma params_labelled_witness :
  ∃ s', localizeSchemaParams (obj_lit [("properties", VObj twoParams)])
          (obj_lit [("host", paramLocale "Host"); ("port", paramLocale "Port")]) "en" = Ok s' ∧
    s' @@ ["properties"; "host"; "ui"; "label"] = VStr "Host" ∧
    s' @@ ["properties"; "port"] = obj_lit [("type", VStr "integer")].
Proof.
  destruct (params_labelled (obj_lit [("properties", VObj twoParams)])
    (obj_lit [("host", paramLocale "Host"); ("port", paramLocale "Port")]) "en" twoParams)
    as (s' & Hs & Hp).
  - by vm_compute.
  - by eexists.
  - done.
  - apply (obj_assign_wf [] twoParams), obj_wf_nil.
  - apply List.Forall_cons; [|apply List.Forall_cons; [|done]]; (split; [by eexists|]); [by eexists|done].
  - by eexists.
  - intros k Hk. vm_compute in Hk. repeat (apply elem_of_cons in Hk as [->|Hk]);
      [split; by eexists..|by apply elem_of_nil in Hk].
  - exists s'. split; [done|]. split.
    + change (prop (prop (s' @@ ["properties"; "host"]) "ui") "label" = VStr "Host").
      rewrite (Hp "host" (obj_lit [("type", VStr "string"); ("ui", obj_lit [("widget", VStr "input")])])) by done.
      by vm_compute.
    + rewrite (Hp "port" (obj_lit [("type", VStr "integer")])) by done. by vm_compute.
Defined.
