(* ===== verification/ModuleEditState.v ===== *)
(** * Module editor: state and actions

    [libs/store/modules/src/lib/edit/module-edit.reducer.ts] (the state) and
    [module-edit.actions.ts] (the actions).  The module under edit, the data
    fetched from the server and the error responses are untyped JSON values;
    the progress flags and the validation state are typed. *)

From S2P Require Import Prelude JsValue.

(** ** State *)

Record ValidationState := mkValidationState {
  general : bool;
  configuration : bool;
  secureConfiguration : bool;
  events : bool;
  actions : bool;
  fields : bool;
  dependencies : bool;
  localization : bool;
  files_valid : bool;            (* the property [files] *)
  changelog_valid : bool         (* the property [changelog] *)
}.

(** [keyof ValidationState]. *)
Inductive ValidationSection :=
| SGeneral | SConfiguration | SSecureConfiguration | SEvents | SActions | SFields
| SDependencies | SLocalization | SFiles | SChangelog.

Definition DEFAULT_ACTION_PRIORITY : Z := 10.

Record State := mkState {
  agentVersions : val;
  allModules : val;
  createDraftError : val;
  deleteError : val;
  deleteVersionError : val;
  exportError : val;
  fetchFilesError : val;
  files : val;
  filesContent : val;
  isCreatingDraft : bool;
  isDeleteNodule : bool;
  isDeleteNoduleVersion : bool;
  isExportingModule : bool;
  isFetchAgentVersions : bool;
  isFetchAllModules : bool;
  isFetchFiles : bool;
  isFetchModuleVersionByName : bool;
  isLoadingFile : bool;
  isLoadingModule : bool;
  isLoadingVersions : bool;
  isReleasingModule : bool;
  isSavingFiles : bool;
  isSavingModule : bool;
  isUpdatingModuleInPolicies : bool;
  loadFileErrors : val;
  module : val;
  moduleVersionByName : val;
  original : val;
  releaseError : val;
  restored : bool;
  saveError : val;
  saveFilesErrors : val;
  updates : val;
  updateInPoliciesError : val;
  validationState : ValidationState;
  versions : val;
  error : val                    (* not in the interface: written by [saveModule] *)
}.

#[export] Instance ValidationState_eta : Eta ValidationState := ltac:(eta_of ValidationState).
#[export] Instance State_eta : Eta State := ltac:(eta_of State).

Definition allValid : ValidationState :=
  mkValidationState true true true true true true true true true true.

Definition initialState : State := {|
  agentVersions := VArr [];
  allModules := VArr [];
  createDraftError := VUndef;
  deleteError := VUndef;
  deleteVersionError := VUndef;
  exportError := VUndef;
  fetchFilesError := VUndef;
  files := VArr [];
  filesContent := VObj [];
  isCreatingDraft := false;
  isDeleteNodule := false;
  isDeleteNoduleVersion := false;
  isExportingModule := false;
  isFetchAgentVersions := false;
  isFetchAllModules := false;
  isFetchFiles := false;
  isFetchModuleVersionByName := false;
  isLoadingFile := false;
  isLoadingModule := false;
  isLoadingVersions := false;
  isReleasingModule := false;
  isSavingFiles := false;
  isSavingModule := false;
  isUpdatingModuleInPolicies := false;
  loadFileErrors := VObj [];
  module := VUndef;
  moduleVersionByName := VObj [];
  original := VUndef;
  releaseError := VUndef;
  restored := false;
  saveError := VUndef;
  saveFilesErrors := VObj [];
  updates := VUndef;
  updateInPoliciesError := VUndef;
  validationState := allValid;
  versions := VArr [];
  error := VUndef
|}.

(** [{...validationState, [section]: status}]. *)
Definition setSection (v : ValidationState) (section : ValidationSection) (status : bool) :
    ValidationState :=
  match section with
  | SGeneral => { v with general := status }
  | SConfiguration => { v with configuration := status }
  | SSecureConfiguration => { v with secureConfiguration := status }
  | SEvents => { v with events := status }
  | SActions => { v with actions := status }
  | SFields => { v with fields := status }
  | SDependencies => { v with dependencies := status }
  | SLocalization => { v with localization := status }
  | SFiles => { v with files_valid := status }
  | SChangelog => { v with changelog_valid := status }
  end.

(** [{...state, module: {...state.module, ...}}], and the same with a section
    marked valid. *)
Definition patchModule (state : State) (kvs : obj val) : State :=
  { state with module := spread (module state) kvs }.
Definition patchSection (state : State) (section : ValidationSection) (kvs : obj val) : State :=
  { state with
    validationState := setSection (validationState state) section true;
    module := spread (module state) kvs }.
Arguments patchModule : simpl never.
Arguments patchSection : simpl never.

Lemma module_patchModule state kvs : module (patchModule state kvs) = spread (module state) kvs.
Proof. done. Qed.
Lemma module_patchSection state section kvs :
  module (patchSection state section kvs) = spread (module state) kvs.
Proof. done. Qed.
#[export] Hint Rewrite module_patchModule module_patchSection : soldr.

(** ** Actions *)

Record FileItem := mkFileItem { path : string; content : string }.
Record FileError := mkFileError { errorPath : string; fileError : val }.

Inductive Action :=
(* LOADING *)
| fetchModule (name version : string)
| fetchModuleSuccess (module versions updates files : val)
| fetchModuleFailure
| fetchModuleVersions (name : string)
| fetchModuleVersionsSuccess (data : val)
| fetchModuleVersionsFailure
| fetchModuleUpdates (name version : string)
| fetchModuleUpdatesSuccess (updates : val)
| fetchModuleUpdatesFailure
(* OPERATIONS *)
| releaseModule (name version : string) (module : val)
| releaseModuleSuccess
| releaseModuleFailure (error : val)
| createModuleDraft (name version : string) (changelog : val)
| createModuleDraftSuccess
| createModuleDraftFailure (error : val)
| deleteModule (name : string)
| deleteModuleSuccess
| deleteModuleFailure (error : val)
| deleteModuleVersion (name version : string)
| deleteModuleVersionSuccess
| deleteModuleVersionFailure (error : val)
| updateModuleInPolicies (name version : string)
| updateModuleInPoliciesSuccess
| updateModuleInPoliciesFailure (error : val)
| saveModule
| saveModuleSuccess
| saveModuleFailure (error : val)
(* GENERAL *)
| updateGeneralSection (info : val)
(* CONFIG *)
| addConfigParam
| removeConfigParam (name : string)
| removeAllConfigParams
| updateConfigSchema (schema : val)
| updateDefaultConfig (defaultConfig : val)
(* SECURE CONFIG *)
| addSecureConfigParam
| removeSecureConfigParam (name : string)
| removeAllSecureConfigParams
| updateSecureConfigSchema (schema : val)
| updateSecureDefaultConfig (defaultConfig : val)
(* EVENTS *)
| addEvent
| removeEvent (name : string)
| removeAllEvents
| updateEventsSchema (schema : val)
| updateEventsDefaultConfig (defaultConfig : val)
| addEventKey (eventName : string)
| removeEventKey (eventName keyName : string)
(* ACTIONS *)
| addAction
| removeAction (name : string)
| removeAllActions
| updateActionsSchema (schema : val)
| updateActionsDefaultConfig (defaultConfig : val)
| addActionKey (actionName : string)
| removeActionKey (actionName keyName : string)
(* FIELDS *)
| addField
| removeField (name : string)
| removeAllFields
| updateFieldsSchema (schema : val)
(* LOCALIZATION *)
| updateLocalizationModel (model : val)
(* FILES *)
| fetchFiles (name version : string)
| fetchFilesSuccess (files : val)
| fetchFilesFailure (error : val)
| loadFiles (moduleName version : string) (paths : list string)
| loadFilesSuccess (files : list FileItem)
| loadFilesFailure (errors : list FileError)
| saveFiles (moduleName version : string) (files : list FileItem)
| saveFilesSuccess (files : list FileItem)
| saveFilesFailure (errors : list FileError)
| closeFiles (filePaths : list string)
(* DEPENDENCIES *)
| changeAgentVersion (version : string)
| addReceiveDataDependency
| changeReceiveDataDependencies (dependencies : val)
| addSendDataDependency
| changeSendDataDependencies (dependencies : val)
| fetchAllModules
| fetchAllModulesSuccess (modules : val)
| fetchAllModulesFailure (error : val)
| fetchAgentVersions
| fetchAgentVersionsSuccess (agentVersions : val)
| fetchAgentVersionsFailure (error : val)
| fetchModuleVersionByName (name : string)
| fetchModuleVersionByNameSuccess (name : string) (versions : val)
| fetchModuleVersionByNameFailure (error : val)
(* CHANGELOG *)
| setValidationState (section : ValidationSection) (status : bool)
| deleteChangelogRecord (version : string)
| updateChangelogSection (changelog : val)
(* STATE *)
| resetOperationErrors
| resetFile
| restoreState                   (* the facade restores the empty partial state *)
| reset.

(** The [type] of an action, by which handlers and effects are selected. *)
Definition action_type (a : Action) : string :=
  match a with
  | fetchModule _ _ => "[module-edit] Fetch module"
  | fetchModuleSuccess _ _ _ _ => "[module-edit] Fetch module - Success"
  | fetchModuleFailure => "[module-edit] Fetch module - Failure"
  | fetchModuleVersions _ => "[module-edit] Fetch module versions"
  | fetchModuleVersionsSuccess _ => "[module-edit] Fetch module versions - Success"
  | fetchModuleVersionsFailure => "[module-edit] Fetch module versions - Failure"
  | fetchModuleUpdates _ _ => "[module-edit] Fetch module updates"
  | fetchModuleUpdatesSuccess _ => "[module-edit] Fetch module updates - Success"
  | fetchModuleUpdatesFailure => "[module-edit] Fetch module updates - Failure"
  | releaseModule _ _ _ => "[module-edit] Release module"
  | releaseModuleSuccess => "[module-edit] Release module - Success"
  | releaseModuleFailure _ => "[module-edit] Release module - Failure"
  | createModuleDraft _ _ _ => "[module-edit] Create module draft"
  | createModuleDraftSuccess => "[module-edit] Create module draft - Success"
  | createModuleDraftFailure _ => "[module-edit] Create module draft - Failure"
  | deleteModule _ => "[module-edit] Delete module"
  | deleteModuleSuccess => "[module-edit] Delete module success"
  | deleteModuleFailure _ => "[module-edit] Delete module failure"
  | deleteModuleVersion _ _ => "[module-edit] Delete module version"
  | deleteModuleVersionSuccess => "[module-edit] Delete module version failure"
  | deleteModuleVersionFailure _ => "[module-edit] Delete module version failure"
  | updateModuleInPolicies _ _ => "[module-edit] Update module in policies"
  | updateModuleInPoliciesSuccess => "[module-edit] Update module in policies - Success"
  | updateModuleInPoliciesFailure _ => "[module-edit] Update module in policies - Failure"
  | saveModule => "[module-edit] Save module"
  | saveModuleSuccess => "[module-edit] Save module - Success"
  | saveModuleFailure _ => "[module-edit] Save module - Failure"
  | updateGeneralSection _ => "[module-edit] Update general section"
  | addConfigParam => "[module-edit] Add config param"
  | removeConfigParam _ => "[module-edit] Remove config param"
  | removeAllConfigParams => "[module-edit] Remove all config params"
  | updateConfigSchema _ => "[module-edit] Update config schema"
  | updateDefaultConfig _ => "[module-edit] Update default config"
  | addSecureConfigParam => "[module-edit] Add secure config param"
  | removeSecureConfigParam _ => "[module-edit] Remove secure config param"
  | removeAllSecureConfigParams => "[module-edit] Remove all secure config params"
  | updateSecureConfigSchema _ => "[module-edit] Update secure config schema"
  | updateSecureDefaultConfig _ => "[module-edit] Update secure default config"
  | addEvent => "[module-edit] Add event"
  | removeEvent _ => "[module-edit] Remove event"
  | removeAllEvents => "[module-edit] Remove all events"
  | updateEventsSchema _ => "[module-edit] Update events schema"
  | updateEventsDefaultConfig _ => "[module-edit] Update events default config"
  | addEventKey _ => "[module-edit] Add event key"
  | removeEventKey _ _ => "[module-edit] Remove event key"
  | addAction => "[module-edit] Add action"
  | removeAction _ => "[module-edit] Remove action"
  | removeAllActions => "[module-edit] Remove all actions"
  | updateActionsSchema _ => "[module-edit] Update actions schema"
  | updateActionsDefaultConfig _ => "[module-edit] Update actions default config"
  | addActionKey _ => "[module-edit] Add action key"
  | removeActionKey _ _ => "[module-edit] Remove action key"
  | addField => "[module-edit] Add field"
  | removeField _ => "[module-edit] Remove field"
  | removeAllFields => "[module-edit] Remove all fields"
  | updateFieldsSchema _ => "[module-edit] Update fields schema"
  | updateLocalizationModel _ => "[module-edit] Update localization model"
  | fetchFiles _ _ => "[module-edit] Fetch files"
  | fetchFilesSuccess _ => "[module-edit] Fetch files - Success"
  | fetchFilesFailure _ => "[module-edit] Fetch files - Failure"
  | loadFiles _ _ _ => "[module-edit] Load files"
  | loadFilesSuccess _ => "[module-edit] Load files - Success"
  | loadFilesFailure _ => "[module-edit] Load files - Failure"
  | saveFiles _ _ _ => "[module-edit] Save files"
  | saveFilesSuccess _ => "[module-edit] Save files - Success"
  | saveFilesFailure _ => "[module-edit] Save files - Failure"
  | closeFiles _ => "[module-edit] Close files"
  | changeAgentVersion _ => "[module-edit] Change agent version dependency"
  | addReceiveDataDependency => "[module-edit] Add receive data dependency"
  | changeReceiveDataDependencies _ => "[module-edit] Change receive data dependencies"
  | addSendDataDependency => "[module-edit] Add send data dependency"
  | changeSendDataDependencies _ => "[module-edit] Change send data dependencies"
  | fetchAllModules => "[module-edit] Fetch all modules"
  | fetchAllModulesSuccess _ => "[module-edit] Fetch all modules - Success"
  | fetchAllModulesFailure _ => "[module-edit] Fetch all modules - Failure"
  | fetchAgentVersions => "[module-edit] Fetch agent versions"
  | fetchAgentVersionsSuccess _ => "[module-edit] Fetch agent versions - Success"
  | fetchAgentVersionsFailure _ => "[module-edit] Fetch agent versions - Failure"
  | fetchModuleVersionByName _ => "[module-edit] Fetch module versions by name"
  | fetchModuleVersionByNameSuccess _ _ => "[module-edit] Fetch module versions by name - Success"
  | fetchModuleVersionByNameFailure _ => "[module-edit] Fetch module versions by name - Failure"
  | setValidationState _ _ => "[module-edit] Set validation state"
  | deleteChangelogRecord _ => "[module-edit] Delete changelog record"
  | updateChangelogSection _ => "[module-edit] Update changelog section"
  | resetOperationErrors => "[module-edit] Reset operation errors"
  | resetFile => "[module-edit] Reset file"
  | restoreState => "[module-edit] Restore state"
  | reset => "[module-edit] reset"
  end.
