(* ===== verification/ModuleEditConfig.v ===== *)
(** * Module editor: general information, configuration, secure configuration

    The handlers of [module-edit.reducer.ts] for the sections GENERAL, CONFIG
    and SECURE CONFIG, and the helper [refactorIds] all sections share. *)

From S2P Require Import Prelude JsValue JsJson SharedUtils ModuleEditState.

(** An array of strings. *)
Definition to_strings (v : val) : res (list string) :=
  l ← iter v;
  mapM (λ x, match x with VStr s => Ok s | _ => Throw Unsupported end) l.

(** [arr.filter((x) => x !== name)]. *)
Definition filter_out (name : string) (arr : val) : res val :=
  l ← as_array arr;
  Ok (VArr (List.filter (λ x, negb (is_str x name)) l)).

(** [description === oldName ? newName : description], for one field of one
    locale. *)
Definition refactorField (oldName newName field : string) (desc : val) : res val :=
  cur ← get desc field;
  set desc field (if is_str cur oldName then VStr newName else cur).

Definition refactorLocale (oldName newName : string) (oldValue : val) (locale : string) :
    res val :=
  update_path oldValue [locale] (λ desc,
    desc ← refactorField oldName newName "title" desc;
    refactorField oldName newName "description" desc).

(** Replace the old name by the new one where it still stands as the title or
    the description of a renamed item. *)
Definition refactorName (data : val) (kw : string * string) : res val :=
  let '(oldName, newName) := kw in
  oldValue ← get data oldName;
  locales ← Object_keys oldValue;
  newValue ← foldM (refactorLocale oldName newName) oldValue locales;
  put_back data oldName oldValue newValue.

Definition refactorIds (obj : val) (arr1 arr2 : list string) : res val :=
  let data := clone obj in
  let '(_, _, renamed) := getChangesArrays arr1 arr2 in
  foldM refactorName data renamed.

(** ** GENERAL *)

Definition on_updateGeneralSection (state : State) (info : val) : res State :=
  tags ← get_path (module state) ["locale"; "tags"];
  let oldTagsLocale := clone tags in
  oldTags ← Object_keys tags;
  newTags ← (t ← get info "tags"; to_strings t);
  tagsLocale ← applyChangesToObject
    (Some (λ tag, Ok (getLocaleDescriptionByValue tag))) oldTagsLocale oldTags newTags;
  locale ← get (module state) "locale";
  Ok (patchSection state SGeneral [("info", info); ("locale", spread locale [("tags", tagsLocale)])]).

(** ** CONFIG and SECURE CONFIG

    The two sections are kept in parallel: a schema whose properties are the
    parameters, a default configuration, a locale map.  The source repeats the
    code with the other section's property names; a [ParamSection] holds those
    names. *)

Record ParamSection := mkParamSection {
  paramSchemaKey : string;
  paramDefaultKey : string;
  paramLocaleKey : string
}.

Definition configSection : ParamSection :=
  mkParamSection "config_schema" "default_config" "config".
Definition secureSection : ParamSection :=
  mkParamSection "secure_config_schema" "secure_default_config" "secure_config".

(** The schema of a new parameter, field or key. *)
Definition stringProperty : val :=
  obj_lit [("type", VStr PropertyType.STRING); ("rules", VObj []);
           ("ui", obj_lit [("widgetConfig", VObj [])])].

(** [delete schema.properties[name]] and the removal from [schema.required],
    on a clone of the schema. *)
Definition removeFromSchema (schema : val) (name : string) : res val :=
  let newSchema := clone schema in
  newSchema ← update_path newSchema ["properties"] (λ props, del props name);
  update_path newSchema ["required"] (filter_out name).

Section params.
Context (sec : ParamSection).

(** [addConfigParam], [addSecureConfigParam]: [paramSchema] and
    [paramDefault] are the schema and the default of a new parameter. *)
Definition addParam (paramSchema paramDefault : val) (state : State) : res State :=
  let m := module state in
  schema ← get m (paramSchemaKey sec);
  properties ← get schema "properties";
  names ← Object_keys properties;
  let newParamName := getNameForNewItem names "param_" in
  defaultConfig ← get m (paramDefaultKey sec);
  locale ← get m "locale";
  paramLocale ← get locale (paramLocaleKey sec);
  Ok (patchModule state
    [(paramSchemaKey sec, spread schema
        [("properties", spread properties [(newParamName, paramSchema)])]);
     (paramDefaultKey sec, spread defaultConfig [(newParamName, paramDefault)]);
     ("locale", spread locale
        [(paramLocaleKey sec, spread paramLocale
           [(newParamName, getLocaleDescriptionByValue newParamName)])])]).

(** [removeConfigParam], [removeSecureConfigParam]. *)
Definition removeParam (state : State) (name : string) : res State :=
  let m := module state in
  schema ← get m (paramSchemaKey sec);
  newSchema ← removeFromSchema schema name;
  locale ← get m "locale";
  paramLocale ← (l ← get locale (paramLocaleKey sec); del (clone l) name);
  defaultConfig ← (c ← get m (paramDefaultKey sec); del (clone c) name);
  Ok (patchModule state
    [(paramSchemaKey sec, newSchema);
     (paramDefaultKey sec, defaultConfig);
     ("locale", spread locale [(paramLocaleKey sec, paramLocale)])]).

(** [removeAllConfigParams], [removeAllSecureConfigParams]. *)
Definition removeAllParams (state : State) : res State :=
  let m := module state in
  locale ← get m "locale";
  Ok (patchModule state
    [(paramSchemaKey sec, getEmptySchema (Some false));
     (paramDefaultKey sec, VObj []);
     ("locale", spread locale [(paramLocaleKey sec, VObj [])])]).

(** [updateConfigSchema], [updateSecureConfigSchema].  [paramType] reads the
    type of a parameter in a schema, [updateParam] is the body of the loop
    over the new parameters, [stored] the schema that ends up in the
    module. *)
Definition updateParams (vs : ValidationSection)
    (paramType : val → string → res val)
    (updateParam : val → val → val → string → res val)
    (stored : val → val) (state : State) (schema : val) : res State :=
  let m := module state in
  oldProperties ← get_path m [paramSchemaKey sec; "properties"];
  namesOld ← Object_keys oldProperties;
  names ← (p ← get schema "properties"; Object_keys p);
  let processedSchema := clone schema in
  config ← get m (paramDefaultKey sec);
  defaultConfig ← applyChangesToObject
    (Some (λ paramName,
      type ← paramType processedSchema paramName; Ok (getDefaultValueByType type)))
    (clone config) namesOld names;
  processedProperties ← get processedSchema "properties";
  processedNames ← Object_keys processedProperties;
  defaultConfig ←
    foldM (updateParam oldProperties processedProperties) defaultConfig processedNames;
  locale ← get m "locale";
  let locale := clone locale in
  paramLocale ← get locale (paramLocaleKey sec);
  paramLocale ← refactorIds paramLocale namesOld names;
  paramLocale ← applyChangesToObject None paramLocale namesOld names;
  locale ← set locale (paramLocaleKey sec) paramLocale;
  Ok (patchSection state vs
    [(paramSchemaKey sec, stored schema); (paramDefaultKey sec, defaultConfig);
       ("locale", locale)]).

Definition updateParamsDefault (vs : ValidationSection) (state : State) (defaultConfig : val) :
    res State :=
  Ok (patchSection state vs [(paramDefaultKey sec, defaultConfig)]).
End params.

(** *** CONFIG *)

Definition on_addConfigParam : State → res State :=
  addParam configSection stringProperty (getDefaultValueByType (VStr PropertyType.STRING)).
Definition on_removeConfigParam : State → string → res State := removeParam configSection.
Definition on_removeAllConfigParams : State → res State := removeAllParams configSection.

(** [processedSchema.properties[paramName].type]. *)
Definition configParamType (schema : val) (paramName : string) : res val :=
  get_path schema ["properties"; paramName; "type"].

(** The loop body of [updateConfigSchema]: reset the default of a parameter
    whose type changed, complete the default of an object parameter. *)
Definition updateConfigParam (oldProperties processedProperties : val)
    (defaultConfig : val) (paramName : string) : res val :=
  param ← get processedProperties paramName;
  type ← get param "type";
  oldParam ← get oldProperties paramName;
  oldType ← getq oldParam "type";
  defaultConfig ←
    (if negb (strict_eq oldType type)
     then set defaultConfig paramName (getDefaultValueByType type)
     else Ok defaultConfig);
  if is_str type PropertyType.OBJECT then
    model ← get defaultConfig paramName;
    model' ← traverseModelByScheme param model fillDefault;
    put_back defaultConfig paramName model model'
  else Ok defaultConfig.

Definition on_updateConfigSchema : State → val → res State :=
  updateParams configSection SConfiguration configParamType updateConfigParam clone.
Definition on_updateDefaultConfig : State → val → res State :=
  updateParamsDefault configSection SConfiguration.

(** *** SECURE CONFIG *)

(** The schema of a new secure parameter, and its default. *)
Definition secureProperty : val :=
  obj_lit [
    ("type", VStr PropertyType.OBJECT);
    ("properties", obj_lit [
       ("value", stringProperty);
       ("server_only", obj_lit [
          ("type", VStr PropertyType.BOOLEAN); ("value", VBool false);
          ("ui", obj_lit [("hidden", VBool true)]); ("enum", VArr [VBool false])])]);
    ("required", vstrs ["server_only"; "value"])].

Definition secureDefault : val :=
  obj_lit [("value", getDefaultValueByType (VStr PropertyType.STRING));
           ("server_only", VBool false)].

Definition on_addSecureConfigParam : State → res State :=
  addParam secureSection secureProperty secureDefault.
Definition on_removeSecureConfigParam : State → string → res State := removeParam secureSection.
Definition on_removeAllSecureConfigParams : State → res State := removeAllParams secureSection.

(** [processedSchema.properties[paramName].properties.value.type]. *)
Definition secureParamType (schema : val) (paramName : string) : res val :=
  get_path schema ["properties"; paramName; "properties"; "value"; "type"].

(** The loop body of [updateSecureConfigSchema]. *)
Definition updateSecureParam (oldProperties processedProperties : val)
    (defaultConfig : val) (paramName : string) : res val :=
  param ← get processedProperties paramName;
  value ← get_path param ["properties"; "value"];
  type ← get value "type";
  serverOnly ← get_path param ["properties"; "server_only"; "value"];
  defaultConfig ← update_path defaultConfig [paramName] (λ p, set p "server_only" serverOnly);
  oldParam ← get oldProperties paramName;
  oldType ← getq_path oldParam ["properties"; "value"; "type"];
  defaultConfig ←
    (if negb (strict_eq oldType type)
     then update_path defaultConfig [paramName]
            (λ p, set p "value" (getDefaultValueByType type))
     else Ok defaultConfig);
  if is_str type PropertyType.OBJECT then
    model ← get_path defaultConfig [paramName; "value"];
    model' ← traverseModelByScheme value model fillDefault;
    update_path defaultConfig [paramName] (λ p, put_back p "value" model model')
  else Ok defaultConfig.

(** The module keeps the schema it was given, not the clone. *)
Definition on_updateSecureConfigSchema : State → val → res State :=
  updateParams secureSection SSecureConfiguration secureParamType updateSecureParam (λ s, s).
Definition on_updateSecureDefaultConfig : State → val → res State :=
  updateParamsDefault secureSection SSecureConfiguration.
