(* ===== verification/ModuleEditItems.v ===== *)
(** * Module editor: events and actions

    The handlers of [module-edit.reducer.ts] for the sections EVENTS and
    ACTIONS.  The two sections are kept in parallel: both have a schema whose
    properties are the items, a default configuration, a list of names in
    [info] and two locale maps; the source repeats the code of most handlers
    with the other section's property names.  An [ItemSection] holds those
    names, and the handlers the source writes identically are written once
    over it. *)

From Stdlib Require Import Ascii.
From S2P Require Import Prelude JsString JsValue JsJson SharedUtils ModuleEditState.
From S2P Require Import ModuleEditConfig.

Record ItemSection := mkItemSection {
  schemaKey : string;      (* the schema in the module *)
  defaultKey : string;     (* the default configuration in the module *)
  namesKey : string;       (* the names in [info], their locale in [locale] *)
  configKey : string;      (* the locale of the items' keys *)
  reservedKeys : list string
}.

Definition eventSection : ItemSection :=
  mkItemSection "event_config_schema" "default_event_config" "events" "event_config" ["fields"].
Definition actionSection : ItemSection :=
  mkItemSection "action_config_schema" "default_action_config" "actions" "action_config"
    ["priority"; "fields"].

Section items.
Context (sec : ItemSection).

(** [addEvent], [addAction]: [itemSchema] and [itemDefault] are the schema
    and the default configuration of a new item. *)
Definition addItem (prefix : string) (itemSchema itemDefault : val) (state : State) :
    res State :=
  let m := module state in
  schema ← get m (schemaKey sec);
  properties ← get schema "properties";
  names ← Object_keys properties;
  let newName := getNameForNewItem names prefix in
  info ← get m "info";
  infoNames ← (l ← get info (namesKey sec); iter l);
  required ← (l ← get schema "required"; iter l);
  defaultConfig ← get m (defaultKey sec);
  locale ← get m "locale";
  namesLocale ← get locale (namesKey sec);
  configLocale ← get locale (configKey sec);
  Ok (patchModule state
    [("info", spread info [(namesKey sec, VArr (infoNames ++ [VStr newName]))]);
     (schemaKey sec, spread schema
        [("properties", spread properties [(newName, itemSchema)]);
         ("required", VArr (required ++ [VStr newName]))]);
     (defaultKey sec, spread defaultConfig [(newName, itemDefault)]);
     ("locale", spread locale
        [(namesKey sec, spread namesLocale [(newName, getLocaleDescriptionByValue newName)]);
         (configKey sec, spread configLocale [(newName, VObj [])])])]).

(** [removeEvent], [removeAction]. *)
Definition removeItem (state : State) (name : string) : res State :=
  let m := module state in
  schema ← get m (schemaKey sec);
  properties ← get schema "properties";
  props ← del (clone properties) name;
  locale ← get m "locale";
  namesLocale ← (l ← get locale (namesKey sec); del (clone l) name);
  configLocale ← (l ← get locale (configKey sec); del (clone l) name);
  defaultConfig ← (c ← get m (defaultKey sec); del (clone c) name);
  info ← get m "info";
  infoNames ← (l ← get info (namesKey sec); filter_out name l);
  required ← (l ← get schema "required"; filter_out name l);
  Ok (patchModule state
    [("info", spread info [(namesKey sec, infoNames)]);
     (schemaKey sec, spread schema [("properties", props); ("required", required)]);
     (defaultKey sec, defaultConfig);
     ("locale", spread locale
        [(namesKey sec, namesLocale); (configKey sec, configLocale)])]).

(** [removeAllEvents], [removeAllActions]. *)
Definition removeAllItems (state : State) : res State :=
  let m := module state in
  info ← get m "info";
  locale ← get m "locale";
  Ok (patchModule state
    [("info", spread info [(namesKey sec, VArr [])]);
     (schemaKey sec, getEmptySchema None);
     (defaultKey sec, VObj []);
     ("locale", spread locale [(namesKey sec, VObj []); (configKey sec, VObj [])])]).

(** [addEventKey], [addActionKey]. *)
Definition addItemKey (state : State) (itemName : string) : res State :=
  let m := module state in
  schema ← get m (schemaKey sec);
  properties ← get schema "properties";
  allOf ← get_path properties [itemName; "allOf"];
  base ← get allOf "0";
  own ← get allOf "1";
  ownProps ← getq own "properties";
  keys ← Object_keys (js_or ownProps (VObj []));
  let existedKeys := list_minus keys (reservedKeys sec) in
  let newKeyName := getNameForNewItem existedKeys "key_" in
  ownProperties ← get own "properties";
  defaultConfig ← get m (defaultKey sec);
  itemDefault ← get defaultConfig itemName;
  locale ← get m "locale";
  configLocale ← get locale (configKey sec);
  itemLocale ← get configLocale itemName;
  Ok (patchModule state
    [(schemaKey sec, spread schema
        [("properties", spread properties
           [(itemName, obj_lit
              [("allOf", VArr [base; spread own
                 [("properties", spread ownProperties [(newKeyName, stringProperty)])]])])])]);
     (defaultKey sec, spread defaultConfig
        [(itemName, spread itemDefault [(newKeyName, VStr "")])]);
     ("locale", spread locale
        [(configKey sec, spread configLocale
           [(itemName, spread itemLocale
              [(newKeyName, getLocaleDescriptionByValue newKeyName)])])])]).

(** [removeEventKey], [removeActionKey]: the key may name a nested property
    by a dotted path. *)
Definition removeItemKey (state : State) (itemName keyName : string) : res State :=
  let m := module state in
  schema ← get m (schemaKey sec);
  properties ← get schema "properties";
  let props := clone properties in
  let keyParts := split "."%char keyName in
  props ←
    (if bool_decide (1 < length keyParts) then
       let parents := removelast keyParts in
       let key := List.last keyParts "" in
       update_path props
         ([itemName; "allOf"; "1"] ++ mjoin ((λ p, ["properties"; p]) <$> parents)
            ++ ["properties"])
         (λ p, del p key)
     else update_path props [itemName; "allOf"; "1"; "properties"] (λ p, del p keyName));
  locale ← get m "locale";
  configLocale ← get locale (configKey sec);
  configLocale ← update_path (clone configLocale) [itemName] (λ l, del l keyName);
  defaultConfig ← get m (defaultKey sec);
  defaultConfig ← update_path (clone defaultConfig) [itemName] (λ c, del c keyName);
  Ok (patchModule state
    [(schemaKey sec, spread schema [("properties", props)]);
     (defaultKey sec, defaultConfig);
     ("locale", spread locale [(configKey sec, configLocale)])]).

(** The properties of an item in a schema:
    [schema.properties[name]?.allOf[1].properties || {}]. *)
Definition itemProperties (schema : val) (name : string) : res val :=
  item ← get_path schema ["properties"; name];
  props ← getq_path item ["allOf"; "1"; "properties"];
  Ok (js_or props (VObj [])).

(** The locale of the keys of one item, in [updateEventsSchema] and
    [updateActionsSchema]. *)
Definition updateKeysLocale (schema : val) (configLocale : val) (name : string) : res val :=
  props ← itemProperties schema name;
  keys ← Object_keys props;
  let itemKeys := list_minus keys (reservedKeys sec) in
  cur ← get configLocale name;
  curKeys ← Object_keys (js_or cur (VObj []));
  refactored ← refactorIds cur curKeys itemKeys;
  refKeys ← Object_keys (js_or refactored (VObj []));
  updated ← applyChangesToObject
    (Some (λ keyName, Ok (getLocaleDescriptionByValue keyName))) refactored refKeys itemKeys;
  set configLocale name updated.

(** The locale of the whole module after a change of the item names. *)
Definition updateItemsLocale (schema locale : val) (namesOld names : list string) : res val :=
  l ← get locale (namesKey sec);
  l ← refactorIds l namesOld names;
  l ← applyChangesToObject None l namesOld names;
  locale ← set locale (namesKey sec) l;
  c ← get locale (configKey sec);
  c ← applyChangesToObject None c namesOld names;
  itemNames ← Object_keys c;
  c ← foldM (updateKeysLocale schema) c itemNames;
  set locale (configKey sec) c.

(** The part [updateEventsSchema] and [updateActionsSchema] return. *)
Definition withItems (state : State) (vs : ValidationSection) (names : list string)
    (schema defaultConfig locale : val) : res State :=
  info ← get (module state) "info";
  Ok (patchSection state vs
    [("info", spread info [(namesKey sec, vstrs names)]);
       (schemaKey sec, spread schema [("required", vstrs names)]);
       (defaultKey sec, defaultConfig);
       ("locale", locale)]).
End items.

(** The defaults of the keys of an item ([getEventProperties],
    [getActionProperties]). *)
Definition keyDefault (props acc : val) (k : string) : res val :=
  p ← get props k;
  d ← get p "default";
  type ← get p "type";
  Ok (spread acc [(k, js_or d (getDefaultValueByType type))]).

Definition getEventProperties (props : val) : res val :=
  keys ← Object_keys props;
  fields ← get props "fields";
  default ← get (js_or fields (VObj [])) "default";
  foldM (keyDefault props) (obj_lit [("fields", default)]) keys.

Definition getActionProperties (props : val) : res val :=
  keys ← Object_keys props;
  fields ← get props "fields";
  default ← get (js_or fields (VObj [])) "default";
  foldM (keyDefault props) (obj_lit [("fields", default)]) keys.

(** Fill the falsy properties of an item's default:
    [if (!config[prop]) config[prop] = empty[prop]]. *)
Definition fillFalsy (empty : val) (config : val) (prop : string) : res val :=
  cur ← get config prop;
  if truthy cur then Ok config else x ← get empty prop; set config prop x.

(** ** EVENTS *)

Definition ATOMIC_EVENT : val := obj_lit [("actions", VArr []); ("fields", VArr [])].
Definition COMPLEX_EVENT : val := obj_lit
  [("seq", VArr []); ("group_by", VArr []); ("max_count", vint 0); ("max_time", vint 0);
   ("actions", VArr []); ("fields", VArr [])].

Definition getDefaultEvent (ref : val) : val :=
  let s := to_string ref in
  if contains "aggregation" s
  then spread2 (obj_lit [("type", VStr "aggregation")]) COMPLEX_EVENT
  else if contains "correlation" s
  then spread2 (obj_lit [("type", VStr "correlation")]) COMPLEX_EVENT
  else spread2 (obj_lit [("type", VStr "atomic")]) ATOMIC_EVENT.

Definition arrayOfStrings : val :=
  obj_lit [("default", VArr []); ("items", obj_lit [("type", VStr "string")]);
           ("type", VStr "array")].

Definition newEventSchema : val := obj_lit
  [("type", VStr PropertyType.OBJECT);
   ("allOf", VArr
      [obj_lit [("$ref", VStr "#/definitions/events.atomic")];
       obj_lit [("properties", obj_lit [("fields", arrayOfStrings)]);
                ("required", vstrs ["fields"]); ("type", VStr PropertyType.OBJECT)]])].

Definition newEventDefault : val :=
  obj_lit [("actions", VArr []); ("fields", VArr []); ("type", VStr "atomic")].

Definition on_addEvent : State → res State :=
  addItem eventSection "event_" newEventSchema newEventDefault.
Definition on_removeEvent : State → string → res State := removeItem eventSection.
Definition on_removeAllEvents : State → res State := removeAllItems eventSection.
Definition on_addEventKey : State → string → res State := addItemKey eventSection.
Definition on_removeEventKey : State → string → string → res State := removeItemKey eventSection.

(** The type of an event in a schema, as the default event of that type. *)
Definition defaultEventOf (schema : val) (eventName : string) : res val :=
  ref ← get_path schema ["properties"; eventName; "allOf"; "0"; "$ref"];
  Ok (getDefaultEvent ref).

(** The first loop body of [updateEventsSchema]. *)
Definition updateEventDefault (schema : val) (defaultConfig : val) (eventName : string) :
    res val :=
  props ← itemProperties schema eventName;
  eventData ← getEventProperties props;
  defaultEvent ← defaultEventOf schema eventName;
  let emptyDefaultEventData := spread2 defaultEvent eventData in
  cur ← get defaultConfig eventName;
  curKeys ← Object_keys cur;
  emptyKeys ← Object_keys emptyDefaultEventData;
  config ← applyChangesToObject (Some (get emptyDefaultEventData)) cur curKeys emptyKeys;
  type ← get emptyDefaultEventData "type";
  config ← set config "type" type;
  newType ← get config "type";
  config ←
    (if is_str newType "atomic" then
       fields ← get emptyDefaultEventData "fields";
       set config "fields" fields
     else Ok config);
  configKeys ← Object_keys config;
  config ← foldM (fillFalsy emptyDefaultEventData) config configKeys;
  set defaultConfig eventName config.

Definition on_updateEventsSchema (state : State) (schema : val) : res State :=
  oldProperties ← get_path (module state) ["event_config_schema"; "properties"];
  namesOld ← Object_keys oldProperties;
  names ← (p ← get schema "properties"; Object_keys p);
  default_event_config ← get (module state) "default_event_config";
  let defaultConfig := clone default_event_config in
  configNames ← Object_keys defaultConfig;
  defaultConfig ←
    applyChangesToObject (Some (defaultEventOf schema)) defaultConfig configNames names;
  eventNames ← Object_keys defaultConfig;
  defaultConfig ← foldM (updateEventDefault schema) defaultConfig eventNames;
  locale ← get (module state) "locale";
  locale ← updateItemsLocale eventSection schema (clone locale) namesOld names;
  withItems eventSection state SEvents names schema defaultConfig locale.

Definition on_updateEventsDefaultConfig (state : State) (defaultConfig : val) : res State :=
  Ok (patchSection state SEvents [("default_event_config", defaultConfig)]).

(** ** ACTIONS *)

Definition newActionSchema : val := obj_lit
  [("allOf", VArr
      [obj_lit [("$ref", VStr "#/definitions/base.action")];
       obj_lit
         [("properties", obj_lit
            [("fields", arrayOfStrings);
             ("priority", obj_lit
                [("default", vint DEFAULT_ACTION_PRIORITY);
                 ("maximum", vint DEFAULT_ACTION_PRIORITY);
                 ("minimum", vint DEFAULT_ACTION_PRIORITY); ("type", VStr "integer")])]);
          ("required", vstrs ["fields"; "priority"]); ("type", VStr PropertyType.OBJECT)]])].

Definition newActionDefault : val :=
  obj_lit [("fields", VArr []); ("priority", vint DEFAULT_ACTION_PRIORITY)].

Definition on_addAction : State → res State :=
  addItem actionSection "action_" newActionSchema newActionDefault.
Definition on_removeAction : State → string → res State := removeItem actionSection.
Definition on_removeAllActions : State → res State := removeAllItems actionSection.
Definition on_addActionKey : State → string → res State := addItemKey actionSection.
Definition on_removeActionKey : State → string → string → res State :=
  removeItemKey actionSection.

(** The first loop body of [updateActionsSchema]. *)
Definition updateActionDefault (schema : val) (defaultConfig : val) (actionName : string) :
    res val :=
  props ← itemProperties schema actionName;
  actionData ← getActionProperties props;
  let emptyDefaultActionData :=
    spread2 (obj_lit [("fields", VArr []); ("priority", vint 1)]) actionData in
  cur ← get defaultConfig actionName;
  curKeys ← Object_keys cur;
  emptyKeys ← Object_keys emptyDefaultActionData;
  config ← applyChangesToObject (Some (get emptyDefaultActionData)) cur curKeys emptyKeys;
  fields ← get emptyDefaultActionData "fields";
  config ← set config "fields" fields;
  priority ← get emptyDefaultActionData "priority";
  config ← set config "priority" priority;
  configKeys ← Object_keys config;
  config ← foldM (fillFalsy emptyDefaultActionData) config configKeys;
  set defaultConfig actionName config.

(** [defaultConfig[name].priority = schema.properties[name]...priority.default]. *)
Definition setActionPriority (schema : val) (defaultConfig : val) (name : string) : res val :=
  priority ← get_path schema
    ["properties"; name; "allOf"; "1"; "properties"; "priority"; "default"];
  update_path defaultConfig [name] (λ c, set c "priority" priority).

Definition on_updateActionsSchema (state : State) (schema : val) : res State :=
  oldProperties ← get_path (module state) ["action_config_schema"; "properties"];
  namesOld ← Object_keys oldProperties;
  names ← (p ← get schema "properties"; Object_keys p);
  default_action_config ← get (module state) "default_action_config";
  defaultConfig ← applyChangesToObject None (clone default_action_config) namesOld names;
  actionNames ← Object_keys defaultConfig;
  defaultConfig ← foldM (updateActionDefault schema) defaultConfig actionNames;
  defaultConfig ← foldM (setActionPriority schema) defaultConfig names;
  locale ← get (module state) "locale";
  locale ← updateItemsLocale actionSection schema (clone locale) namesOld names;
  withItems actionSection state SActions names schema defaultConfig locale.

Definition on_updateActionsDefaultConfig (state : State) (defaultConfig : val) : res State :=
  Ok (patchSection state SActions [("default_action_config", defaultConfig)]).
