(* ===== verification/ModuleEditFields.v ===== *)
(** * Module editor: fields, localization, files, dependencies, changelog

    The handlers of [module-edit.reducer.ts] for the remaining sections of the
    module and for its files. *)

From S2P Require Import Prelude JsValue JsJson SharedUtils ModuleEditState ModuleEditConfig ModuleEditItems.

(** ** FIELDS *)

Definition on_addField (state : State) : res State :=
  let m := module state in
  schema ← get m "fields_schema";
  properties ← get schema "properties";
  names ← Object_keys properties;
  let newFieldName := getNameForNewItem names "field_" in
  info ← get m "info";
  infoFields ← (l ← get info "fields"; iter l);
  locale ← get m "locale";
  fieldsLocale ← get locale "fields";
  Ok (patchModule state
      [("info", spread info [("fields", VArr (infoFields ++ [VStr newFieldName]))]);
     ("fields_schema", spread schema
        [("properties", spread properties [(newFieldName, stringProperty)])]);
     ("locale", spread locale
        [("fields", spread fieldsLocale
           [(newFieldName, getLocaleDescriptionByValue newFieldName)])])]).

Definition on_removeField (state : State) (name : string) : res State :=
  let m := module state in
  schema ← get m "fields_schema";
  properties ← get schema "properties";
  props ← del (clone properties) name;
  locale ← get m "locale";
  fieldsLocale ← (l ← get locale "fields"; del (clone l) name);
  info ← get m "info";
  infoFields ← (l ← get info "fields"; filter_out name l);
  Ok (patchModule state
      [("info", spread info [("fields", infoFields)]);
     ("fields_schema", spread schema [("properties", props)]);
     ("locale", spread locale [("fields", fieldsLocale)])]).

Definition on_removeAllFields (state : State) : res State :=
  let m := module state in
  info ← get m "info";
  locale ← get m "locale";
  Ok (patchModule state
      [("info", spread info [("fields", VArr [])]);
     ("fields_schema", getEmptySchema None);
     ("locale", spread locale [("fields", VObj [])])]).

(** [renamed[field] || field]. *)
Definition renamedField (renamed : obj string) (field : val) : val :=
  match obj_get (to_string field) renamed with
  | Some name => js_or (VStr name) field
  | None => field
  end.

(** The fields an item keeps after a change of the module's fields. *)
Definition keptFields (renamed : obj string) (names : list string) (fields : list val) :
    list val :=
  List.filter (λ f, match f with VStr s => includes s names | _ => false end)
    (map (renamedField renamed) fields).

(** The loop bodies of [updateFieldsSchema], on the schema of an item section
    and its default configuration. *)
Definition syncItemFields (renamed : obj string) (names : list string)
    (acc : val * val) (itemName : string) : res (val * val) :=
  let '(configSchema, defaultConfig) := acc in
  let fieldsPath := ["properties"; itemName; "allOf"; "1"; "properties"; "fields"] in
  itemFields ← get_path configSchema fieldsPath;
  default ← getq itemFields "default";
  match default with
  | VArr fields =>
      let kept := keptFields renamed names fields in
      itemFields ← set itemFields "default" (VArr kept);
      itemFields ← update_path itemFields ["items"] (λ items, set items "enum" (VArr kept));
      itemFields ←
        (if bool_decide (0 < length kept) then
           itemFields ← set itemFields "maxItems" (vlen kept);
           set itemFields "minItems" (vlen kept)
         else Ok itemFields);
      configSchema ← update_path configSchema fieldsPath (λ _, Ok itemFields);
      defaultConfig ← update_path defaultConfig [itemName] (λ c, set c "fields" (VArr kept));
      Ok (configSchema, defaultConfig)
  | _ => Ok (configSchema, defaultConfig)
  end.

Definition syncFields (renamed : obj string) (names : list string)
    (configSchema defaultConfig : val) : res (val * val) :=
  properties ← get configSchema "properties";
  itemNames ← Object_keys (js_or properties (VArr []));
  foldM (syncItemFields renamed names) (configSchema, defaultConfig) itemNames.

Definition on_updateFieldsSchema (state : State) (schema : val) : res State :=
  let m := module state in
  oldProperties ← get_path m ["fields_schema"; "properties"];
  namesOld ← Object_keys oldProperties;
  names ← (p ← get schema "properties"; Object_keys p);
  event_config_schema ← get m "event_config_schema";
  action_config_schema ← get m "action_config_schema";
  default_event_config ← get m "default_event_config";
  default_action_config ← get m "default_action_config";
  let '(_, _, renamed) := getChangesArrays namesOld names in
  '(eventConfigSchema, defaultEventConfig) ←
    syncFields renamed names (clone event_config_schema) (clone default_event_config);
  '(actionConfigSchema, defaultActionConfig) ←
    syncFields renamed names (clone action_config_schema) (clone default_action_config);
  locale ← get m "locale";
  let locale := clone locale in
  fieldsLocale ← get locale "fields";
  fieldsLocale ← refactorIds fieldsLocale namesOld names;
  fieldsLocale ← applyChangesToObject None fieldsLocale namesOld names;
  locale ← set locale "fields" fieldsLocale;
  info ← get m "info";
  Ok (patchSection state SFields
      [("info", spread info [("fields", vstrs names)]);
       ("fields_schema", schema);
       ("event_config_schema", eventConfigSchema);
       ("action_config_schema", actionConfigSchema);
       ("default_event_config", defaultEventConfig);
       ("default_action_config", defaultActionConfig);
       ("locale", locale)]).

(** ** LOCALIZATION *)

Definition on_updateLocalizationModel (state : State) (model : val) : res State :=
  locale ← get (module state) "locale";
  Ok (patchSection state SLocalization [("locale", spread2 locale model)]).

(** ** FILES *)

(** [items.reduce((acc, item) => ({...acc, [key(item)]: value(item)}), {})] *)
Definition keyed {A} (key : A → string) (value : A → val) (items : list A) : val :=
  obj_lit (map (λ item, (key item, value item)) items).

Definition fileContent (loaded : bool) (content : string) : val :=
  obj_lit [("loaded", VBool loaded); ("content", VStr content)].

Definition on_loadFiles (state : State) (paths : list string) : State :=
  { state with
    isLoadingFile := true;
    filesContent :=
      spread2 (filesContent state) (keyed (λ p, p) (λ _, fileContent false "") paths) }.

Definition on_loadFilesSuccess (state : State) (files : list FileItem) : res State :=
  errors ← foldM del (clone (loadFileErrors state)) (map path files);
  Ok { state with
    isLoadingFile := false;
    loadFileErrors := errors;
    filesContent := spread2 (filesContent state)
      (keyed path (λ item, fileContent true (content item)) files) }.

Definition on_loadFilesFailure (state : State) (errors : list FileError) : State :=
  { state with
    isLoadingFile := false;
    loadFileErrors := spread2 (loadFileErrors state) (keyed errorPath fileError errors) }.

Definition on_saveFilesSuccess (state : State) (files : list FileItem) : res State :=
  errors ← foldM del (clone (saveFilesErrors state)) (map path files);
  Ok { state with
    isSavingFiles := false;
    saveFilesErrors := errors;
    filesContent := spread2 (filesContent state)
      (keyed path (λ item,
         obj_lit [("content", VStr (content item)); ("loaded", VBool true)]) files) }.

Definition on_saveFilesFailure (state : State) (errors : list FileError) : State :=
  { state with
    isSavingFiles := false;
    saveFilesErrors := spread2 (saveFilesErrors state) (keyed errorPath fileError errors) }.

Definition on_closeFiles (state : State) (filePaths : list string) : res State :=
  content ← foldM del (clone (filesContent state)) filePaths;
  Ok { state with filesContent := content }.

(** ** DEPENDENCIES *)

Module DependencyType.
Definition ToReceiveData := "to_receive_data".
Definition ToSendData := "to_send_data".
Definition ToMakeAction := "to_make_action".
Definition AgentVersion := "agent_version".
End DependencyType.

(** [clone(state.module.static_dependencies)]. *)
Definition staticDependencies (state : State) : res val :=
  deps ← get (module state) "static_dependencies";
  Ok (clone deps).

(** [deps.filter((item) => item.type !== type)]. *)
Fixpoint otherDependencies (type : string) (deps : list val) : res (list val) :=
  match deps with
  | [] => Ok []
  | item :: deps =>
      t ← get item "type";
      rest ← otherDependencies type deps;
      Ok (if is_str t type then rest else item :: rest)
  end.

Definition withDependencies (state : State) (deps : list val) : State :=
  (patchModule state [("static_dependencies", VArr deps)]).

Definition dependenciesValid (state : State) : State :=
  { state with validationState := setSection (validationState state) SDependencies true }.

Definition on_changeAgentVersion (state : State) (version : string) : res State :=
  deps ← (d ← staticDependencies state; as_array d);
  others ← otherDependencies DependencyType.AgentVersion deps;
  Ok (withDependencies state (others ++
    if truthy (VStr version)
    then [obj_lit [("type", VStr DependencyType.AgentVersion);
                   ("min_agent_version", VStr version)]]
    else [])).

(** [addReceiveDataDependency] and [addSendDataDependency] append a blank
    dependency. *)
Definition blankDependency (type : string) : val :=
  obj_lit [("type", VStr type); ("module_name", VStr ""); ("min_agent_version", VStr "")].

Definition on_addReceiveDataDependency (state : State) : res State :=
  deps ← (d ← staticDependencies state; iter d);
  Ok (dependenciesValid (withDependencies state
        (deps ++ [blankDependency DependencyType.ToReceiveData]))).

Definition on_addSendDataDependency (state : State) : res State :=
  deps ← (d ← staticDependencies state; iter d);
  Ok (withDependencies state (deps ++ [blankDependency DependencyType.ToSendData])).

Definition on_changeReceiveDataDependencies (state : State) (dependencies : val) : res State :=
  deps ← (d ← staticDependencies state; as_array d);
  others ← otherDependencies DependencyType.ToReceiveData deps;
  new ← iter dependencies;
  Ok (dependenciesValid (withDependencies state (others ++ new))).

Definition on_changeSendDataDependencies (state : State) (dependencies : val) : res State :=
  deps ← (d ← staticDependencies state; as_array d);
  others ← otherDependencies DependencyType.ToSendData deps;
  new ← iter dependencies;
  Ok (dependenciesValid (withDependencies state (others ++ new))).

(** ** CHANGELOG *)

Definition on_deleteChangelogRecord (state : State) (version : string) : res State :=
  log ← get (module state) "changelog";
  changelog ← del (clone log) version;
  Ok (patchModule state [("changelog", changelog)]).

Definition on_updateChangelogSection (state : State) (changelog : val) : State :=
  (patchSection state SChangelog [("changelog", changelog)]).
