(* ===== verification/ModuleEditReducer.v ===== *)
(** * Module editor: the reducer

    [reducer] of [module-edit.reducer.ts], with the handlers for loading,
    operations and state resets.  [createReducer] runs, in the order they are
    registered, every handler whose action creator has the [type] of the
    dispatched action; [deleteModuleVersionSuccess] and
    [deleteModuleVersionFailure] have the same type. *)

From S2P Require Import Prelude JsValue JsJson SharedUtils ModuleEditState ModuleEditConfig ModuleEditItems.
From S2P Require Import ModuleEditFields.

(** ** LOADING *)

Definition on_loading (state : State) (a : Action) : res State :=
  match a with
  | fetchModule _ _ => Ok { state with isLoadingModule := true }
  | fetchModuleSuccess m vs us fs => Ok
      { state with isLoadingModule := false; module := m; versions := vs; updates := us;
                   files := fs; original := m }
  | fetchModuleFailure => Ok { state with isLoadingModule := false }
  | fetchModuleVersions _ => Ok { state with isLoadingVersions := true }
  | fetchModuleVersionsSuccess data =>
      modules ← get data "modules";
      Ok { state with isLoadingVersions := false; versions := modules }
  | fetchModuleVersionsFailure => Ok { state with isLoadingVersions := false }
  | fetchModuleUpdatesSuccess us => Ok { state with updates := us }
  | _ => Ok state
  end.

(** ** OPERATIONS *)

(** The handlers of [deleteModuleVersionSuccess] and
    [deleteModuleVersionFailure]; the latter also sees success actions, which
    carry no error. *)
Definition on_deleteModuleVersionSuccess (state : State) : State :=
  { state with isDeleteNoduleVersion := false }.
Definition on_deleteModuleVersionFailure (state : State) (error : val) : State :=
  { state with isDeleteNoduleVersion := false; deleteVersionError := error }.

Definition on_operations (state : State) (a : Action) : State :=
  match a with
  | saveModule => { state with isSavingModule := true; error := VUndef }
  | saveModuleSuccess => { state with isSavingModule := false; original := module state }
  | saveModuleFailure e => { state with isSavingModule := false; saveError := e }
  | releaseModule _ _ _ => { state with isReleasingModule := true; releaseError := VUndef }
  | releaseModuleSuccess => { state with isReleasingModule := false }
  | releaseModuleFailure e => { state with isReleasingModule := false; releaseError := e }
  | createModuleDraft _ _ _ => { state with isCreatingDraft := true; createDraftError := VUndef }
  | createModuleDraftSuccess => { state with isCreatingDraft := false }
  | createModuleDraftFailure e => { state with isCreatingDraft := false; createDraftError := e }
  | deleteModule _ => { state with isDeleteNodule := true; deleteError := VUndef }
  | deleteModuleSuccess => { state with isDeleteNodule := false }
  | deleteModuleFailure e => { state with isDeleteNodule := false; deleteError := e }
  | deleteModuleVersion _ _ =>
      { state with isDeleteNoduleVersion := true; deleteVersionError := VUndef }
  | deleteModuleVersionSuccess =>
      on_deleteModuleVersionFailure (on_deleteModuleVersionSuccess state) VUndef
  | deleteModuleVersionFailure e =>
      on_deleteModuleVersionFailure (on_deleteModuleVersionSuccess state) e
  | updateModuleInPolicies _ _ =>
      { state with isUpdatingModuleInPolicies := true; updateInPoliciesError := VUndef }
  | updateModuleInPoliciesSuccess => { state with isUpdatingModuleInPolicies := false }
  | updateModuleInPoliciesFailure e =>
      { state with isUpdatingModuleInPolicies := false; updateInPoliciesError := e }
  | _ => state
  end.

(** ** The sections of the module *)

Definition on_sections (state : State) (a : Action) : res State :=
  match a with
  | updateGeneralSection info => on_updateGeneralSection state info
  | addConfigParam => on_addConfigParam state
  | removeConfigParam name => on_removeConfigParam state name
  | removeAllConfigParams => on_removeAllConfigParams state
  | updateConfigSchema schema => on_updateConfigSchema state schema
  | updateDefaultConfig config => on_updateDefaultConfig state config
  | addSecureConfigParam => on_addSecureConfigParam state
  | removeSecureConfigParam name => on_removeSecureConfigParam state name
  | removeAllSecureConfigParams => on_removeAllSecureConfigParams state
  | updateSecureConfigSchema schema => on_updateSecureConfigSchema state schema
  | updateSecureDefaultConfig config => on_updateSecureDefaultConfig state config
  | addEvent => on_addEvent state
  | removeEvent name => on_removeEvent state name
  | removeAllEvents => on_removeAllEvents state
  | updateEventsSchema schema => on_updateEventsSchema state schema
  | updateEventsDefaultConfig config => on_updateEventsDefaultConfig state config
  | addEventKey name => on_addEventKey state name
  | removeEventKey name key => on_removeEventKey state name key
  | addAction => on_addAction state
  | removeAction name => on_removeAction state name
  | removeAllActions => on_removeAllActions state
  | updateActionsSchema schema => on_updateActionsSchema state schema
  | updateActionsDefaultConfig config => on_updateActionsDefaultConfig state config
  | addActionKey name => on_addActionKey state name
  | removeActionKey name key => on_removeActionKey state name key
  | addField => on_addField state
  | removeField name => on_removeField state name
  | removeAllFields => on_removeAllFields state
  | updateFieldsSchema schema => on_updateFieldsSchema state schema
  | updateLocalizationModel model => on_updateLocalizationModel state model
  | changeAgentVersion version => on_changeAgentVersion state version
  | addReceiveDataDependency => on_addReceiveDataDependency state
  | changeReceiveDataDependencies deps => on_changeReceiveDataDependencies state deps
  | addSendDataDependency => on_addSendDataDependency state
  | changeSendDataDependencies deps => on_changeSendDataDependencies state deps
  | deleteChangelogRecord version => on_deleteChangelogRecord state version
  | updateChangelogSection changelog => Ok (on_updateChangelogSection state changelog)
  | _ => Ok state
  end.

(** ** FILES *)

Definition on_files (state : State) (a : Action) : res State :=
  match a with
  | fetchFiles _ _ => Ok { state with isFetchFiles := true }
  | fetchFilesSuccess fs => Ok { state with isFetchFiles := false; files := fs }
  | fetchFilesFailure e => Ok { state with isFetchFiles := false; fetchFilesError := e }
  | loadFiles _ _ paths => Ok (on_loadFiles state paths)
  | loadFilesSuccess items => on_loadFilesSuccess state items
  | loadFilesFailure errors => Ok (on_loadFilesFailure state errors)
  | saveFiles _ _ _ => Ok { state with isSavingFiles := true }
  | saveFilesSuccess items => on_saveFilesSuccess state items
  | saveFilesFailure errors => Ok (on_saveFilesFailure state errors)
  | closeFiles paths => on_closeFiles state paths
  | _ => Ok state
  end.

(** ** The data the dependencies form needs *)

Definition on_dependencyData (state : State) (a : Action) : State :=
  match a with
  | fetchAgentVersions => { state with isFetchAgentVersions := true }
  | fetchAgentVersionsSuccess vs =>
      { state with isFetchAgentVersions := false; agentVersions := vs }
  | fetchAgentVersionsFailure _ => { state with isFetchAgentVersions := false }
  | fetchModuleVersionByName _ => { state with isFetchModuleVersionByName := true }
  | fetchModuleVersionByNameSuccess name vs =>
      { state with
        isFetchModuleVersionByName := false;
        moduleVersionByName := spread (moduleVersionByName state) [(name, vs)] }
  | fetchModuleVersionByNameFailure _ => { state with isFetchModuleVersionByName := false }
  | fetchAllModules => { state with isFetchAllModules := true }
  | fetchAllModulesSuccess ms => { state with isFetchAllModules := false; allModules := ms }
  | fetchAllModulesFailure _ => { state with isFetchAllModules := false }
  | _ => state
  end.

(** ** STATE *)

Definition on_state (state : State) (a : Action) : State :=
  match a with
  | setValidationState vs status =>
      { state with validationState := setSection (validationState state) vs status }
  | resetOperationErrors =>
      { state with releaseError := VUndef; deleteError := VUndef; deleteVersionError := VUndef }
  | resetFile =>
      { state with isLoadingFile := false; isSavingFiles := false; filesContent := VObj [];
                   loadFileErrors := VObj []; saveFilesErrors := VObj [] }
  | restoreState => { state with restored := true }
  | reset => initialState
  | _ => state
  end.

(** Each handler is the identity on the actions it is not registered for. *)
Definition reducer (state : State) (a : Action) : res State :=
  state ← on_loading state a;
  state ← on_sections (on_operations state a) a;
  state ← on_files state a;
  Ok (on_state (on_dependencyData state a) a).

(** The store's state after a sequence of actions.  [Throw] stands for a
    reducer that threw: the stream of states ends there. *)
Definition run (state : State) (l : list Action) : res State := foldM reducer state l.
