(* ===== verification/ModuleEditSelectors.v ===== *)
(** * Module editor: selectors

    The derived selectors of [module-edit.selectors.ts]: which sections differ
    from the saved module, which items changed, which fields are unused, the
    dependencies by kind.  The other selectors are projections of the state. *)

From S2P Require Import Prelude JsValue JsJson SharedUtils ModuleEditState ModuleEditConfig ModuleEditFields.

(** [module?.k && original?.k && !compareObjects(module?.k, original?.k)] *)
Definition isDirtySection (k : string) (module original : val) : res val :=
  a ← getq module k;
  b ← getq original k;
  Ok (js_and a (js_and b (VBool (negb (compareObjects a b))))).

Definition selectDirty (k : string) (state : State) : res val :=
  isDirtySection k (module state) (original state).

Definition selectDirty2 (k1 k2 : string) (state : State) : res val :=
  a ← selectDirty k1 state;
  b ← selectDirty k2 state;
  Ok (js_or a b).

Definition selectIsDirtyGeneral : State → res val := selectDirty "info".
Definition selectIsDirtyConfig : State → res val :=
  selectDirty2 "config_schema" "default_config".
Definition selectIsDirtySecureConfig : State → res val :=
  selectDirty2 "secure_config_schema" "secure_default_config".
Definition selectIsDirtyEventsConfig : State → res val :=
  selectDirty2 "event_config_schema" "default_event_config".
Definition selectIsDirtyActionsConfig : State → res val :=
  selectDirty2 "action_config_schema" "default_action_config".
Definition selectIsDirtyFieldsConfigSchema : State → res val := selectDirty "fields_schema".
Definition selectIsDirtyLocalizationModel : State → res val := selectDirty "locale".
Definition selectIsDirtyStaticDependenciesModel : State → res val :=
  selectDirty "static_dependencies".
Definition selectIsDirtyChangelogModel : State → res val := selectDirty "changelog".

Definition dirtySelectors : list (State → res val) :=
  [selectIsDirtyGeneral; selectIsDirtyConfig; selectIsDirtySecureConfig;
   selectIsDirtyEventsConfig; selectIsDirtyActionsConfig; selectIsDirtyFieldsConfigSchema;
   selectIsDirtyLocalizationModel; selectIsDirtyStaticDependenciesModel;
   selectIsDirtyChangelogModel].

(** [a || b || ...] over the results of the selectors. *)
Fixpoint orAll (l : list val) : val :=
  match l with
  | [] => VUndef
  | [v] => v
  | v :: l => js_or v (orAll l)
  end.

Definition selectIsDirty (state : State) : res val :=
  l ← mapM (λ sel, sel state) dirtySelectors;
  Ok (orAll l).

(** The items of a schema that are new or differ from the saved ones
    ([selectChangedSecureParams], [selectChangedEvents],
    [selectChangedActions]). *)
Definition isChangedItem (schemaKey : string) (schema original : val) (name : string) :
    res bool :=
  old ← get_path original [schemaKey; "properties"; name];
  if truthy old then
    new ← get_path schema ["properties"; name];
    Ok (negb (compareObjects new old))
  else Ok true.

Definition selectChangedItems (schemaKey : string) (state : State) : res (list string) :=
  schema ← get (module state) schemaKey;
  properties ← get schema "properties";
  names ← Object_keys properties;
  filterM (isChangedItem schemaKey schema (original state)) names.

Definition selectChangedSecureParams : State → res (list string) :=
  selectChangedItems "secure_config_schema".
Definition selectChangedEvents : State → res (list string) :=
  selectChangedItems "event_config_schema".
Definition selectChangedActions : State → res (list string) :=
  selectChangedItems "action_config_schema".

(** [Object.keys(config || {}).reduce((acc, name) =>
      [...new Set([...acc, ...config[name].fields])], [])] *)
Definition usedFields (config : val) : res (list string) :=
  names ← Object_keys (js_or config (VObj []));
  foldM (λ acc name,
    fields ← (f ← get_path config [name; "fields"]; to_strings f);
    Ok (set_of_list_from [] (acc ++ fields))) [] names.

Definition selectUnusedFields (state : State) : res (list string) :=
  let m := module state in
  actionFields ← (c ← getq m "default_action_config"; usedFields c);
  eventFields ← (c ← getq m "default_event_config"; usedFields c);
  let used := actionFields ++ eventFields in
  if is_nullish m then Ok []
  else
    fields ← (f ← get_path m ["info"; "fields"]; to_strings f);
    Ok (List.filter (λ field, negb (includes field used)) fields).

(** [item.fields && Array.isArray(item.fields) && !item.fields.includes(field)] *)
Definition lacksField (field : string) (item : val) : res bool :=
  fields ← get item "fields";
  Ok (match fields with
      | VArr l => negb (existsb (λ f, is_str f field) l)
      | _ => false
      end).

Definition selectUnusedRequiredFields (state : State) : res (list string) :=
  let m := module state in
  events ← (c ← get m "default_event_config"; Object_values c);
  events ← filterM (λ e, t ← get e "type"; Ok (is_str t "atomic")) events;
  actions ← (c ← get m "default_action_config"; Object_values c);
  schema ← get m "fields_schema";
  required ← getq schema "required";
  requiredFields ← to_strings (js_or required (VArr []));
  filterM (λ field, someM (lacksField field) (events ++ actions)) requiredFields.

(** ** Dependencies *)

Definition selectDependencies (state : State) : res (list val) :=
  deps ← get (module state) "static_dependencies"; as_array deps.

Definition hasType (type : string) (item : val) : res bool :=
  t ← get item "type"; Ok (is_str t type).

(** [arr.find(p)]. *)
Fixpoint findM (p : val → res bool) (l : list val) : res val :=
  match l with
  | [] => Ok VUndef
  | x :: l => b ← p x; if (b : bool) then Ok x else findM p l
  end.

Definition selectAgentVersionDependency (state : State) : res val :=
  deps ← selectDependencies state; findM (hasType DependencyType.AgentVersion) deps.
Definition selectReceiveDataDependencies (state : State) : res (list val) :=
  deps ← selectDependencies state; filterM (hasType DependencyType.ToReceiveData) deps.
Definition selectSendDataDependencies (state : State) : res (list val) :=
  deps ← selectDependencies state; filterM (hasType DependencyType.ToSendData) deps.

(** ** module-edit.facade.ts *)

(** [data?.policies?.length > 0]: the operand is [undefined] (not greater) or
    the length of an array. *)
Definition canUpdateModuleInPolicies (state : State) : res bool :=
  policies ← getq (updates state) "policies";
  len ← getq policies "length";
  Ok (match len with VNum (NInt n) => bool_decide (0 < n)%Z | _ => false end).
