(* ===== verification/NameMaps.v ===== *)
(** * Objects used as maps from names

    The module editor keeps one object per aspect of a section (schema
    properties, default configuration, locale), keyed by the names of the
    items.  [good_map] is what makes such an object a map that survives JSON
    cloning: property order well formed, no property with an undefined value.
    The lemmas say what the operations of the editor do to the key set. *)

From S2P Require Import Prelude JsValue JsJson SharedUtils ModuleEditState ModuleEditConfig.

Definition good_map (v : val) : Prop :=
  match v with VObj o => obj_wf o ∧ Forall (λ kv, defined kv.2) o | _ => False end.

#[export] Instance good_map_dec v : Decision (good_map v).
Proof. destruct v; simpl; apply _. Defined.

Section obj_forall.
Context {A : Type} (P : string * A → Prop).

Lemma Forall_obj_set k v (o : obj A) : P (k, v) → Forall P o → Forall P (obj_set k v o).
Proof.
  intros Hv. induction 1 as [|[k1 v1] o H1 Ho IH]; simpl; [by repeat constructor|].
  destruct (String.eqb k k1); [by constructor|].
  destruct (key_before k k1); by repeat constructor.
Qed.

Lemma Forall_obj_del k (o : obj A) : Forall P o → Forall P (obj_del k o).
Proof.
  unfold obj_del. rewrite !Forall_forall. intros Ho kv.
  rewrite list_elem_of_filter. naive_solver.
Qed.

Lemma Forall_obj_assign (o kvs : obj A) :
  Forall P o → Forall P kvs → Forall P (obj_assign o kvs).
Proof.
  unfold obj_assign. intros Ho Hk. revert o Ho.
  induction Hk as [|[k v] kvs Hv Hk IH]; intros o Ho; simpl; [done|].
  by apply IH, Forall_obj_set.
Qed.
End obj_forall.

Lemma good_map_inv v :
  good_map v → ∃ o, v = VObj o ∧ obj_wf o ∧ Forall (λ kv, defined kv.2) o.
Proof. destruct v; naive_solver. Qed.

Lemma good_map_is_obj v : good_map v → is_obj v.
Proof. intros (o & -> & _)%good_map_inv. by exists o. Qed.

Lemma good_map_defined v : good_map v → defined v.
Proof. by destruct v. Qed.

Lemma good_map_nil : good_map (VObj []).
Proof. split; [apply obj_wf_nil|constructor]. Qed.

Lemma good_map_NoDup v : good_map v → NoDup (keys_of v).
Proof. intros (o & -> & Hwf & _)%good_map_inv. by apply obj_wf_NoDup. Qed.

Lemma Object_keys_good v : good_map v → Object_keys v = Ok (keys_of v).
Proof. by intros (o & -> & _)%good_map_inv. Qed.

Lemma Object_keys_obj v : is_obj v → Object_keys v = Ok (keys_of v).
Proof. by intros [o ->]. Qed.

Lemma good_map_key v k : good_map v → k ∈ keys_of v ↔ defined (prop v k).
Proof.
  intros (o & -> & Hwf & Hd)%good_map_inv. simpl. unfold obj_lookup.
  rewrite elem_of_obj_keys. destruct (obj_get k o) as [x|] eqn:Hg; simpl.
  - split; [|by eexists]. intros _.
    apply obj_get_Some_elem in Hg. rewrite Forall_forall in Hd. apply (Hd _ Hg).
  - split; [by intros []|by intros []].
Qed.

(** *** Writing, deleting, spreading *)

Lemma good_map_set v k x :
  good_map v → defined x →
  ∃ w, set v k x = Ok w ∧ good_map w ∧ (∀ k', k' ∈ keys_of w ↔ k' = k ∨ k' ∈ keys_of v) ∧
       (∀ k', prop w k' = if String.eqb k' k then x else prop v k').
Proof.
  intros (o & -> & Hwf & Hd)%good_map_inv Hx. simpl. eexists. split; [done|]. split_and!.
  - split; [by apply obj_set_wf|by apply Forall_obj_set].
  - intros k'. apply obj_keys_set.
  - intros k'. simpl. unfold obj_lookup. rewrite obj_get_set. by destruct (String.eqb k' k).
Qed.

Lemma set_good v k x w : set v k x = Ok w → good_map v → defined x → good_map w.
Proof. intros Hs Hv Hx. destruct (good_map_set v k x Hv Hx) as (w' & He & Hw & _). congruence. Qed.

Lemma set_keys v k x w : set v k x = Ok w → is_obj v → keys_of w ≡ₑ k :: keys_of v.
Proof.
  intros Hs [o ->]. simpl in *. simplify_eq. simpl. intros k'.
  by rewrite obj_keys_set, elem_of_cons.
Qed.

Lemma set_prop v k x w k' :
  set v k x = Ok w → is_obj v → prop w k' = if String.eqb k' k then x else prop v k'.
Proof.
  intros Hs [o ->]. simpl in *. simplify_eq. simpl. unfold obj_lookup. rewrite obj_get_set.
  by destruct (String.eqb k' k).
Qed.

Lemma set_is_obj v k x w : set v k x = Ok w → is_obj v → is_obj w.
Proof. intros Hs [o ->]. simpl in *. simplify_eq. by eexists. Qed.

Lemma good_map_del v k :
  good_map v → ∃ w, del v k = Ok w ∧ good_map w ∧
    (∀ k', k' ∈ keys_of w ↔ k' ≠ k ∧ k' ∈ keys_of v).
Proof.
  intros (o & -> & Hwf & Hd)%good_map_inv. simpl. eexists. split; [done|]. split_and!.
  - split; [by apply obj_del_wf|by apply Forall_obj_del].
  - intros k'. apply obj_keys_del.
Qed.

Lemma spread_good v kvs :
  good_map v → Forall (λ kv, defined kv.2) kvs → good_map (spread v kvs).
Proof.
  intros (o & -> & Hwf & Hd)%good_map_inv Hk. unfold spread.
  split; [by apply obj_assign_wf|by apply Forall_obj_assign].
Qed.

Lemma spread_is_obj v kvs : is_obj (spread v kvs).
Proof. by eexists. Qed.

Lemma spread1_keys v k x : is_obj v → keys_of (spread v [(k, x)]) ≡ₑ k :: keys_of v.
Proof.
  intros [o ->] k'. rewrite keys_of_spread. unfold obj_keys. simpl.
  rewrite list_elem_of_singleton, elem_of_cons. naive_solver.
Qed.

(** *** Cloning *)

Lemma obj_get_norm_props_NoDup o k :
  NoDup (obj_keys o) → obj_get k (norm_props o) = obj_get k o ≫= json_norm.
Proof.
  unfold obj_keys. induction o as [|[k1 v] o IH]; simpl; intros Hnd; [done|].
  apply NoDup_cons in Hnd as [Hk1 Hnd]. specialize (IH Hnd).
  destruct (json_norm v) as [w|] eqn:He; simpl.
  - destruct (String.eqb k k1); [by rewrite <-He|done].
  - destruct (String.eqb_spec k k1) as [->|]; [|done].
    simpl. rewrite He, IH. by rewrite (obj_keys_nil k1 o).
Qed.

Lemma clone_good v :
  good_map v → good_map (clone v) ∧ keys_of (clone v) = keys_of v.
Proof.
  intros (o & -> & Hwf & Hd)%good_map_inv. rewrite clone_obj. split_and!.
  - split; [by apply norm_props_wf|apply norm_props_defined].
  - by apply norm_props_all_keys.
Qed.

Lemma clone_prop v k : good_map v → prop (clone v) k = clone (prop v k).
Proof.
  intros (o & -> & [Hnd _] & Hd)%good_map_inv. rewrite clone_obj. simpl. unfold obj_lookup.
  rewrite obj_get_norm_props_NoDup by done. by destruct (obj_get k o).
Qed.

Lemma clone_arr_is_array v : is_array v = true → is_array (clone v) = true.
Proof. by destruct v. Qed.

Lemma clone_is_obj v : is_obj v → is_obj (clone v).
Proof. intros [o ->]. rewrite clone_obj. by eexists. Qed.

Lemma clone_vstrs l : clone (vstrs l) = vstrs l.
Proof.
  unfold vstrs. apply clone_json, is_json_arr, Forall_fmap, Forall_true. done.
Qed.

(** *** Changes of names *)

Lemma is_undef_defined v : is_undef v = false → defined v.
Proof. by destruct v. Qed.

(** A renamed property always gets a value. *)
Lemma getNewValue_defined cb v k k' x : getNewValue cb v k k' = Ok x → defined x.
Proof.
  unfold getNewValue. intros H.
  destruct (get v k) as [x1|]; simpl in H; [|done].
  destruct (is_undef x1) eqn:H1; simpl in H; [|injection H as <-; by apply is_undef_defined].
  destruct (get v k') as [x2|]; simpl in H; [|done].
  destruct (is_undef x2) eqn:H2; simpl in H; [|injection H as <-; by apply is_undef_defined].
  destruct cb as [f|]; [|by injection H as <-].
  destruct (f k') as [x3|]; simpl in H; [|done].
  destruct (is_undef x3) eqn:H3; simpl in H; injection H as <-; [done|].
  by apply is_undef_defined.
Qed.

Lemma applyChanges_good cb v a b r :
  good_map v → NoDup a → NoDup b →
  (∀ f k x, cb = Some f → k ∈ b → f k = Ok x → defined x) →
  applyChangesToObject cb v a b = Ok r → good_map r.
Proof.
  intros (o & -> & Hwf & Hd)%good_map_inv Ha Hb Hcb H.
  destruct (applyChanges_obj cb o a b r Ha Hb H) as (o' & -> & _ & _ & Hwf').
  split; [auto|]. unfold applyChangesToObject in H.
  pose proof (changes_arrays_ok a b Ha Hb) as Hc.
  destruct (getChangesArrays a b) as [[add remove] rename]. inv_res.
  set (P := λ v : val, ∃ o, v = VObj o ∧ Forall (λ kv, defined kv.2) o).
  assert (P (VObj o)) as HP by (by exists o).
  assert (∀ k, k ∈ add → k ∈ b) as Hadd.
  { destruct Hc as [(_ & _ & _ & Hk & _)|(-> & _)]; intros k Hk'; [by apply Hk|].
    by apply elem_of_nil in Hk'. }
  match goal with H : foldM (addKey _) _ _ = Ok ?v1 |- _ =>
    assert (P v1) as HP1; [refine (foldM_inv P _ _ _ _ _ HP H)|] end.
  { intros y k y' Hk (oy & -> & Hy) Hadd'. apply addKey_obj in Hadd' as (z & -> & Hz).
    eexists. split; [done|]. apply Forall_obj_set; [|done]. simpl.
    destruct cb as [f|] eqn:Hf; [|by subst]. by eapply Hcb; [done|apply Hadd|]. }
  match goal with H : foldM del _ _ = Ok ?v2 |- _ =>
    assert (P v2) as HP2; [refine (foldM_inv P _ _ _ _ _ HP1 H)|] end.
  { intros y k y' _ (oy & -> & Hy) [= <-]. eexists. split; [done|]. by apply Forall_obj_del. }
  match goal with H : foldM (renameKey _) _ _ = Ok ?v3 |- _ =>
    assert (P v3) as (? & [= <-] & HP3); [refine (foldM_inv P _ _ _ _ _ HP2 H)|done] end.
  intros y [k k'] y' _ (oy & -> & Hy) Hren. apply renameKey_obj in Hren as (z & Hz & ->).
  eexists. split; [done|]. apply Forall_obj_del, Forall_obj_set; [|done]. simpl.
  by eapply getNewValue_defined.
Qed.

(** Carrying a change of names [a ⇒ b] over to a map keyed by [a] gives a map
    keyed by [b]. *)
Lemma applyChanges_sync cb v a b r :
  good_map v → keys_of v ≡ₑ a → NoDup a → NoDup b →
  applyChangesToObject cb v a b = Ok r → keys_of r ≡ₑ b.
Proof.
  intros (o & -> & Hwf & Hd)%good_map_inv He Ha Hb H.
  destruct (applyChanges_obj cb o a b r Ha Hb H) as (o' & -> & Hk & _).
  intros k. simpl. rewrite Hk. specialize (He k). simpl in He. rewrite He.
  destruct (decide (k ∈ a)), (decide (k ∈ b)); tauto.
Qed.

(** *** Renaming titles *)

Definition container (v : val) : Prop :=
  match v with VObj _ | VArr _ => True | _ => False end.

#[export] Instance container_dec v : Decision (container v).
Proof. destruct v; simpl; apply _. Defined.

Lemma set_container v k x w : set v k x = Ok w → container w.
Proof.
  destruct v; simpl; try done; [|by intros [= <-]].
  destruct (array_index k); [|done]. repeat case_bool_decide; naive_solver.
Qed.

Lemma refactorLocales_container a b v ls w :
  container v → foldM (refactorLocale a b) v ls = Ok w → container w.
Proof.
  intros Hv. apply foldM_inv; [|done]. intros x l x' _ _.
  unfold refactorLocale. simpl. intros H. inv_res. by eapply set_container.
Qed.

Lemma refactorName_good v kw w :
  good_map v → refactorName v kw = Ok w → good_map w ∧ keys_of w ≡ₑ keys_of v.
Proof.
  intros Hv. destruct kw as [a b]. unfold refactorName. intros H. inv_res.
  match goal with H : get v a = Ok ?x |- _ =>
    rewrite (get_is_obj _ _ (good_map_is_obj _ Hv)) in H; injection H as <- end.
  match goal with H : put_back v a ?x ?y = Ok w |- _ => rename H into Hp; rename y into z end.
  assert (container (prop v a) → container z) as Hc.
  { intros. eapply refactorLocales_container; eauto. }
  unfold put_back in Hp.
  destruct (prop v a) eqn:He; inv_res; try done.
  all: assert (a ∈ keys_of v) as Hin by (apply good_map_key; [done|by rewrite He]).
  all: destruct z; try (destruct Hc; done).
  all: split; [eapply set_good; eauto; done|].
  all: rewrite (set_keys _ _ _ _ Hp) by (by apply good_map_is_obj).
  all: intros k; rewrite elem_of_cons; naive_solver.
Qed.

Lemma refactorIds_good v a b w :
  good_map v → refactorIds v a b = Ok w → good_map w ∧ keys_of w ≡ₑ keys_of v.
Proof.
  intros Hv. unfold refactorIds. destruct (getChangesArrays a b) as [[? ?] ren].
  destruct (clone_good v Hv) as [Hc Hk]. intros H.
  refine (foldM_inv (λ w, good_map w ∧ keys_of w ≡ₑ keys_of v) _ _ _ _ _ _ H).
  - intros x kw x' _ [Hx Hxk] Hr. apply refactorName_good in Hr as [? Hr]; [|done].
    split; [done|]. by rewrite Hr.
  - rewrite Hk. done.
Qed.

(** *** Updates in place *)

Lemma container_defined v : container v → defined v.
Proof. by destruct v. Qed.

(** A callback that throws on [undefined] and never yields it. *)
Definition strict_cb (f : val → res val) : Prop :=
  ∀ x y, f x = Ok y → defined x ∧ defined y.

Lemma set_strict k x : strict_cb (λ v, set v k x).
Proof.
  intros v y H. split; [by destruct v|]. by eapply container_defined, set_container.
Qed.

Lemma del_strict k : strict_cb (λ v, del v k).
Proof.
  unfold strict_cb, defined. intros v y H.
  destruct v; simpl in H; try done; simplify_eq; try done;
    repeat case_match; simplify_eq; done.
Qed.

Lemma set_defined v k x w : set v k x = Ok w → defined w.
Proof. intros H. by destruct (set_strict k x _ _ H). Qed.

Lemma del_defined v k w : del v k = Ok w → defined w.
Proof. intros H. by destruct (del_strict k _ _ H). Qed.

Lemma update_path_strict p f : p ≠ [] → strict_cb (λ v, update_path v p f).
Proof.
  destruct p as [|k p]; [done|]. intros _ v y H. simpl in H. inv_res.
  split; [by destruct v|]. by eapply container_defined, set_container.
Qed.

Lemma update_path_good_at v k p f w :
  good_map v → (∀ x, update_path (prop v k) p f = Ok x → defined (prop v k) ∧ defined x) →
  update_path v (k :: p) f = Ok w →
  ∃ x, update_path (prop v k) p f = Ok x ∧ k ∈ keys_of v ∧ good_map w ∧
       keys_of w ≡ₑ keys_of v ∧ ∀ k', prop w k' = if String.eqb k' k then x else prop v k'.
Proof.
  intros Hv Hst H. cbn [update_path] in H.
  rewrite (get_is_obj v k) in H by (by apply good_map_is_obj). simpl in H.
  destruct (update_path (prop v k) p f) as [x|] eqn:Hx; simpl in H; [|done].
  destruct (Hst _ eq_refl) as [Hd Hd']. exists x.
  assert (k ∈ keys_of v) as Hk by (by apply good_map_key).
  destruct (good_map_set v k x Hv Hd') as (w' & Hw & Hgw & Hkw & Hpw).
  assert (w' = w) as -> by congruence. split_and!; try done.
  intros k'. rewrite Hkw. naive_solver.
Qed.

Lemma update_path_good v k p f w :
  good_map v → strict_cb (λ x, update_path x p f) → update_path v (k :: p) f = Ok w →
  ∃ x, update_path (prop v k) p f = Ok x ∧ k ∈ keys_of v ∧ good_map w ∧
       keys_of w ≡ₑ keys_of v ∧ ∀ k', prop w k' = if String.eqb k' k then x else prop v k'.
Proof. intros Hv Hst. apply update_path_good_at; [done|]. intros x. apply Hst. Qed.

Lemma set_key_good v k x w :
  good_map v → k ∈ keys_of v → defined x → set v k x = Ok w →
  good_map w ∧ keys_of w ≡ₑ keys_of v.
Proof.
  intros Hv Hk Hx H. split; [by eapply set_good|].
  intros k'. pose proof (set_keys _ _ _ _ H (good_map_is_obj _ Hv) k') as Hk'.
  rewrite Hk', elem_of_cons. naive_solver.
Qed.

(** A loop over names of a map whose body rewrites the entry of its name. *)
Lemma foldM_keys_good (f : val → string → res val) v l w :
  good_map v → (∀ k, k ∈ l → k ∈ keys_of v) →
  (∀ x k y, good_map x → k ∈ keys_of x → f x k = Ok y →
            good_map y ∧ keys_of y ≡ₑ keys_of x) →
  foldM f v l = Ok w → good_map w ∧ keys_of w ≡ₑ keys_of v.
Proof.
  intros Hv Hl Hf H.
  refine (foldM_inv (λ x, good_map x ∧ keys_of x ≡ₑ keys_of v) f l v w _ _ H); [|done].
  intros x k x' Hk [Hx Hxk] He. destruct (Hf x k x') as [? Hk']; [done| |done|].
  - apply Hxk, Hl, Hk.
  - split; [done|]. by rewrite Hk'.
Qed.

(** [applyChangesToObject] and [refactorIds] never make a value undefined. *)
Lemma applyChanges_defined cb v a b r :
  defined v → applyChangesToObject cb v a b = Ok r → defined r.
Proof.
  intros Hv. unfold applyChangesToObject.
  destruct (getChangesArrays a b) as [[add remove] rename].
  destruct (foldM (addKey cb) v add) as [v1|] eqn:H1; simpl; [|done].
  destruct (foldM del v1 remove) as [v2|] eqn:H2; simpl; [|done]. intros H3.
  apply (foldM_inv defined) in H1; [| |done].
  2:{ clear. intros x k x' _ Hx H. unfold addKey in H.
      destruct (match cb with Some f => f k | None => Ok (VObj []) end); simpl in H; [|done].
      by apply set_defined in H. }
  apply (foldM_inv defined) in H2; [| |done].
  2:{ clear. intros x k x' _ Hx H. by apply del_defined in H. }
  apply (foldM_inv defined) in H3; [done| |done].
  clear. intros x k x' _ _ H. unfold renameKey in H.
  destruct (getNewValue _ _ _ _); simpl in H; [|done].
  destruct (set _ _ _); simpl in H; [|done]. by apply del_defined in H.
Qed.

Lemma clone_defined v : defined v → defined (clone v).
Proof.
  intros Hv. unfold clone. destruct (json_norm v) eqn:He; simpl.
  - intros ->. destruct v as [| | |[]| | |]; done.
  - by apply json_norm_None in He.
Qed.

Lemma put_back_defined v k x y w : defined v → put_back v k x y = Ok w → defined w.
Proof. intros Hv. destruct x; simpl; intros H; simplify_eq; try done; by eapply set_defined. Qed.

Lemma refactorIds_defined v a b r : defined v → refactorIds v a b = Ok r → defined r.
Proof.
  intros Hv. unfold refactorIds. destruct (getChangesArrays a b) as [[? ?] ren].
  apply foldM_inv; [|by apply clone_defined].
  intros x [k k'] x' _ Hx H. unfold refactorName in H. inv_res. by eapply put_back_defined.
Qed.

(** The traversal of a model yields a model. *)
Lemma traverse_container cb fuel schema model r :
  (∀ s m k r, container m → cb s m k = Ok r → container r) →
  container model → traverse cb fuel schema model = Ok r → container r.
Proof.
  intros Hcb. revert schema model r. induction fuel as [|fuel IH]; [done|].
  intros schema model r Hm. simpl.
  destruct (get schema "type") as [t|]; simpl; [|done].
  destruct (is_str t PropertyType.OBJECT); [|intros; by simplify_eq].
  destruct (get schema "properties") as [ps|]; simpl; [|done].
  destruct (Object_entries (js_or ps (VObj []))) as [es|]; simpl; [|done].
  apply foldM_inv; [|done]. intros x [k prop] x' _ Hx.
  destruct (get prop "type") as [t'|]; simpl; [|done].
  destruct (is_str t' PropertyType.OBJECT); [|by apply Hcb].
  destruct (get x k) as [m1|]; simpl; [|done].
  destruct (traverse cb fuel prop m1) as [m2|]; simpl; [|done].
  unfold put_back. destruct m1; intros H; simplify_eq; try done; by eapply set_container.
Qed.

Lemma fillDefault_container s m k r : container m → fillDefault s m k = Ok r → container r.
Proof.
  intros Hm. unfold fillDefault.
  destruct (get m k) as [cur|]; cbn [mbind res_bind]; [|done].
  destruct (is_undef cur); [|intros; by simplify_eq].
  destruct (get_path s ["properties"; k; "type"]) as [ty|] eqn:Hty; cbn [mbind res_bind]; [|done].
  apply set_container.
Qed.

Lemma put_back_good v k cb s y w :
  good_map v → (∀ s m k r, container m → cb s m k = Ok r → container r) →
  traverseModelByScheme s (prop v k) cb = Ok y → put_back v k (prop v k) y = Ok w →
  good_map w ∧ keys_of w ≡ₑ keys_of v.
Proof.
  intros Hv Hcb Ht Hp.
  destruct (decide (container (prop v k))) as [Hc|Hc].
  - assert (container y) by (by eapply traverse_container).
    eapply (set_key_good v k y); [done| | |].
    + apply good_map_key; [done|]. by apply container_defined.
    + by apply container_defined.
    + by destruct (prop v k).
  - destruct (prop v k); simpl in *; simplify_eq; done.
Qed.

(** ** Equal maps

    Two property maps with the same keys in the same order and the same values
    are equal; writing an existing key keeps the order. *)

Section obj_ext.
Context {A : Type}.
Implicit Types (o : obj A) (k : string) (v : A).

Lemma obj_ext o1 o2 :
  NoDup (obj_keys o1) → obj_keys o1 = obj_keys o2 →
  (∀ k, k ∈ obj_keys o1 → obj_get k o1 = obj_get k o2) → o1 = o2.
Proof.
  revert o2. induction o1 as [|[k v] o1 IH]; intros [|[k2 v2] o2] Hnd Hk Hg;
    unfold obj_keys in *; simplify_eq/=; [done|].
  apply NoDup_cons in Hnd as [Hn Hnd].
  pose proof (Hg k2) as H1. rewrite String.eqb_refl in H1.
  assert (v = v2) as -> by (assert (Some v = Some v2) by (apply H1, list_elem_of_here); congruence).
  f_equal. apply IH; [done|done|]. intros k Hin.
  specialize (Hg k). destruct (String.eqb_spec k k2) as [He|He]; [subst; done|].
  apply Hg. by apply list_elem_of_further.
Qed.

Lemma obj_keys_set_in k v o : k ∈ obj_keys o → obj_wf o → obj_keys (obj_set k v o) = obj_keys o.
Proof.
  unfold obj_keys. induction o as [|[k1 v1] o IH]; simpl; intros Hin Hwf; [by apply elem_of_nil in Hin|].
  destruct (String.eqb_spec k k1) as [->|Hne]; [done|].
  apply obj_wf_cons_inv in Hwf as (_ & Hwf & Hf).
  apply elem_of_cons in Hin as [->|Hin]; [done|].
  rewrite Forall_forall in Hf. rewrite (Hf k Hin). simpl. f_equal. by apply IH.
Qed.

Lemma obj_keys_assign_in kvs o :
  obj_wf o → Forall (λ kv, kv.1 ∈ obj_keys o) kvs → obj_keys (obj_assign o kvs) = obj_keys o.
Proof.
  revert o. induction kvs as [|[k v] kvs IH]; intros o Hwf Hf; [done|].
  apply Forall_cons in Hf as [Hk Hf]. simpl in Hk. unfold obj_assign in *. simpl.
  assert (obj_keys (obj_set k v o) = obj_keys o) as He by (by apply obj_keys_set_in).
  rewrite IH; [done|by apply obj_set_wf|by rewrite He].
Qed.

(** Deleting a key undoes writing it. *)
Lemma obj_del_set k v o : obj_del k (obj_set k v o) = obj_del k o.
Proof.
  unfold obj_del. induction o as [|[k1 v1] o IH]; simpl.
  - by rewrite filter_cons_False by (simpl; tauto).
  - destruct (String.eqb_spec k k1) as [->|Hne].
    + by rewrite !filter_cons_False by (simpl; tauto).
    + destruct (key_before k k1).
      * by rewrite filter_cons_False by (simpl; tauto).
      * rewrite !(filter_cons_True _ (k1, v1)) by (simpl; congruence). by f_equal.
Qed.
End obj_ext.

(** Two updates of the same existing properties: the second one counts. *)
Lemma spread_spread o kvs kvs' :
  obj_wf o → obj_keys kvs = obj_keys kvs' → NoDup (obj_keys kvs) →
  Forall (λ k, k ∈ obj_keys o) (obj_keys kvs) →
  spread (spread (VObj o) kvs) kvs' = spread (VObj o) kvs'.
Proof.
  intros Hwf Hk Hnd Hin. unfold spread. simpl. f_equal.
  assert (Forall (λ kv, kv.1 ∈ obj_keys o) kvs) as Hf by (by apply Forall_fmap in Hin).
  assert (Forall (λ kv, kv.1 ∈ obj_keys o) kvs') as Hf'
    by (rewrite Hk in Hin; by apply Forall_fmap in Hin).
  pose proof (obj_keys_assign_in _ _ Hwf Hf) as He.
  pose proof (obj_keys_assign_in _ _ Hwf Hf') as He'.
  assert (obj_keys (obj_assign (obj_assign o kvs) kvs') = obj_keys o) as He2.
  { rewrite obj_keys_assign_in; [done|by apply obj_assign_wf|by rewrite He]. }
  apply obj_ext.
  - rewrite He2. by apply obj_wf_NoDup.
  - congruence.
  - intros k _. rewrite !(obj_get_assign_NoDup k _ kvs') by (by rewrite <-Hk).
    destruct (obj_get k kvs') as [v|] eqn:Hv; [done|].
    rewrite obj_get_assign_NoDup by done.
    destruct (obj_get k kvs) as [v|] eqn:Hv2; [|done].
    assert (k ∈ obj_keys kvs) as Hkin by (apply elem_of_obj_keys; by eexists).
    rewrite Hk in Hkin. apply elem_of_obj_keys in Hkin as [? Hx]. congruence.
Qed.

(** Writing what is there changes nothing. *)
Lemma spread_same o kvs :
  obj_wf o → NoDup (obj_keys kvs) → Forall (λ kv, obj_get kv.1 o = Some kv.2) kvs →
  spread (VObj o) kvs = VObj o.
Proof.
  intros Hwf Hnd Hf. unfold spread. simpl. f_equal.
  assert (obj_keys (obj_assign o kvs) = obj_keys o) as He.
  { apply obj_keys_assign_in; [done|]. eapply Forall_impl; [exact Hf|].
    intros kv H. apply elem_of_obj_keys. rewrite H. by eexists. }
  apply obj_ext; [rewrite He; by apply obj_wf_NoDup|done|].
  intros k _. rewrite obj_get_assign_NoDup by done.
  destruct (obj_get k kvs) as [v|] eqn:Hv; [|done].
  apply obj_get_Some_elem in Hv. rewrite Forall_forall in Hf. specialize (Hf _ Hv). simpl in Hf. by rewrite Hf.
Qed.

(** Deleting the property just added restores the object. *)
Lemma del_spread o k x :
  k ∉ obj_keys o → del (spread (VObj o) [(k, x)]) k = Ok (VObj o).
Proof.
  intros Hk. unfold spread. simpl. by rewrite obj_del_set, obj_del_id.
Qed.

(** Updating a property of an object with JSON values. *)
Lemma is_json_spread v kvs :
  is_json v = true → is_obj v → Forall (λ kv, is_json kv.2 = true) kvs →
  is_json (spread v kvs) = true.
Proof.
  intros Hv [o ->] Hf. apply is_json_obj in Hv as [Hwf Ho]. apply is_json_obj. split.
  - by apply obj_assign_wf.
  - by apply Forall_obj_assign.
Qed.

Lemma is_json_prop v k : is_json v = true → defined (prop v k) → is_json (prop v k) = true.
Proof.
  destruct v as [| | | | | |o]; try done. intros [_ Ho]%is_json_obj. unfold prop, obj_lookup.
  destruct (obj_get k o) as [x|] eqn:Hx; [|done]. intros _. simpl.
  apply obj_get_Some_elem in Hx. rewrite Forall_forall in Ho. exact (Ho _ Hx).
Qed.

Lemma is_json_wf o : is_json (VObj o) = true → obj_wf o.
Proof. by intros [? _]%is_json_obj. Qed.

Lemma obj_get_prop o k : defined (prop (VObj o) k) → obj_get k o = Some (prop (VObj o) k).
Proof. unfold prop, obj_lookup. by destruct (obj_get k o). Qed.

(** ** Reading an update in place *)

Lemma get_set_same v k x w : set v k x = Ok w → get w k = Ok x.
Proof.
  destruct v as [| | | | |l|o]; simpl; try done.
  - destruct (array_index k) as [i|] eqn:Hi; [|done].
    assert (String.eqb k "length" = false) as Hk
      by (destruct (String.eqb_spec k "length") as [->|]; [by vm_compute in Hi|done]).
    case_bool_decide as H1; [|case_bool_decide as H2; [|done]]; intros [= <-]; simpl;
      rewrite Hk, Hi; do 2 f_equal.
    + by rewrite list_lookup_insert_eq.
    + rewrite lookup_app_r by lia. by rewrite H2, Nat.sub_diag.
  - intros [= <-]. simpl. unfold obj_lookup. by rewrite obj_get_set_eq.
Qed.

Lemma set_named v k x w : array_index k = None → set v k x = Ok w → is_obj v.
Proof. destruct v; simpl; try done; [by intros ->|by eexists]. Qed.

Lemma get_set_other v k k' x w :
  is_obj v → k' ≠ k → set v k x = Ok w → get w k' = get v k'.
Proof.
  intros [o ->] Hne [= <-]. simpl. unfold obj_lookup. by rewrite obj_get_set_ne.
Qed.

Lemma update_path_inv v p f w :
  update_path v p f = Ok w →
  ∃ x y, get_path v p = Ok x ∧ f x = Ok y ∧ get_path w p = Ok y.
Proof.
  revert v w. induction p as [|k p IH]; intros v w H; simpl in *; [by exists v, w|].
  destruct (get v k) as [v1|]; simpl in *; [|done].
  destruct (update_path v1 p f) as [w1|] eqn:E; simpl in *; [|done].
  destruct (IH _ _ E) as (x & y & ? & ? & ?). exists x, y. split_and!; [done|done|].
  by rewrite (get_set_same _ _ _ _ H).
Qed.

Lemma update_path_other v k p f w :
  is_obj v → update_path v (k :: p) f = Ok w →
  is_obj w ∧ ∀ k', k' ≠ k → get w k' = get v k'.
Proof.
  intros Hv H. simpl in H. destruct (get v k) as [v1|]; simpl in *; [|done].
  destruct (update_path v1 p f) as [w1|]; simpl in *; [|done].
  split; [by eapply set_is_obj|]. intros k' Hne. by eapply get_set_other.
Qed.
