(* ===== verification/ModuleEditInvariant.v ===== *)
(** * Module editor: the sections stay coherent

    Every section of a module keeps the same names in several places: the
    properties of its schema, its default configuration, its locale maps, its
    list in [info].  This file states that invariant once for the five
    sections and proves that every action of the editor preserves it. *)

From S2P Require Import Prelude JsString JsValue JsJson SharedUtils ModuleEditState.
From S2P Require Import ModuleEditConfig.
From S2P Require Import ModuleEditItems ModuleEditFields ModuleEditReducer NameMaps.

(** ** The invariant *)

Record EditorSection := mkEditorSection {
  schemaOf : string;                (* the schema in the module *)
  mirrors : list (list string);     (* the maps with the schema's names *)
  infoNames : option string         (* the list of the names in [info] *)
}.

Definition paramEditor (sec : ParamSection) : EditorSection :=
  mkEditorSection (paramSchemaKey sec)
    [[paramDefaultKey sec]; ["locale"; paramLocaleKey sec]] None.
Definition itemEditor (sec : ItemSection) : EditorSection :=
  mkEditorSection (schemaKey sec)
    [[defaultKey sec]; ["locale"; namesKey sec]; ["locale"; configKey sec]]
    (Some (namesKey sec)).
Definition fieldEditor : EditorSection :=
  mkEditorSection "fields_schema" [["locale"; "fields"]] (Some "fields").

Definition editorSections : list EditorSection :=
  [paramEditor configSection; paramEditor secureSection; itemEditor eventSection;
   itemEditor actionSection; fieldEditor].

Definition schema_ok (schema : val) : Prop :=
  good_map schema ∧ good_map (prop schema "properties") ∧
  is_array (prop schema "required") = true.

(** The names of a section. *)
Definition names_of (x : EditorSection) (m : val) : list string :=
  keys_of (m @@ [schemaOf x; "properties"]).

Definition mirrors_ok (names : list string) (v : val) : Prop :=
  good_map v ∧ keys_of v ≡ₑ names.

Definition names_ok (names : list string) (v : val) : Prop :=
  ∃ l, v = vstrs l ∧ NoDup l ∧ l ≡ₑ names.

Definition coherent (x : EditorSection) (m : val) : Prop :=
  schema_ok (m @@ [schemaOf x]) ∧
  Forall (λ p, mirrors_ok (names_of x m) (m @@ p)) (mirrors x) ∧
  match infoNames x with
  | Some i => names_ok (names_of x m) (m @@ ["info"; i])
  | None => True
  end.

Definition module_ok (m : val) : Prop :=
  is_obj m ∧ good_map (m @@ ["locale"]) ∧ is_obj (m @@ ["info"]) ∧
  Forall (λ x, coherent x m) editorSections.

(** The invariant is decidable. *)
#[export] Instance is_obj_dec v : Decision (is_obj v).
Proof. destruct v; first [by right; intros [? [=]]|left; by eexists]. Defined.

Fixpoint strings_of (l : list val) : option (list string) :=
  match l with
  | [] => Some []
  | VStr s :: l => cons s <$> strings_of l
  | _ => None
  end.

Lemma strings_of_vstrs l : strings_of (VStr <$> l) = Some l.
Proof. induction l as [|s l IH]; simpl; [done|]. unfold fmap in IH. by rewrite IH. Qed.

Lemma strings_of_Some l l' : strings_of l = Some l' → l = VStr <$> l'.
Proof.
  revert l'. induction l as [|[] l IH]; intros l' H; simpl in H; simplify_eq; [done|].
  destruct (strings_of l); simplify_eq/=. f_equal. by apply IH.
Qed.

#[export] Instance names_ok_dec names v : Decision (names_ok names v).
Proof.
  unfold names_ok. destruct v as [| | | | |l|]; try (right; by intros (? & [=] & _)).
  destruct (strings_of l) as [l'|] eqn:He.
  - destruct (decide (NoDup l' ∧ l' ≡ₑ names)) as [Hy|Hn].
    + left. exists l'. split; [|done]. apply strings_of_Some in He. by subst.
    + right. intros (l2 & [= ->] & ?). rewrite strings_of_vstrs in He. naive_solver.
  - right. intros (l2 & [= ->] & ?). by rewrite strings_of_vstrs in He.
Defined.

#[export] Instance schema_ok_dec schema : Decision (schema_ok schema).
Proof. unfold schema_ok. apply _. Defined.
#[export] Instance mirrors_ok_dec names v : Decision (mirrors_ok names v).
Proof. unfold mirrors_ok. apply _. Defined.
#[export] Instance coherent_dec x m : Decision (coherent x m).
Proof.
  unfold coherent. apply and_dec; [apply _|]. apply and_dec; [apply _|].
  destruct (infoNames x); apply _.
Defined.
#[export] Instance module_ok_dec m : Decision (module_ok m).
Proof. unfold module_ok. apply _. Defined.

(** ** Reading a path of an updated module *)

Lemma prop_spread_obj v kvs k :
  is_obj v →
  prop (spread v kvs) k =
    match obj_get k (reverse kvs) with Some x => x | None => prop v k end.
Proof. intros [o ->]. apply prop_spread. Qed.

Lemma at_path_cons v k p : v @@ (k :: p) = prop v k @@ p.
Proof. done. Qed.

Lemma at_path_spread_in v kvs k p x :
  is_obj v → obj_get k (reverse kvs) = Some x → spread v kvs @@ (k :: p) = x @@ p.
Proof. intros Hv Hk. by rewrite at_path_cons, prop_spread_obj, Hk. Qed.

Lemma at_path_spread_out v kvs k p :
  is_obj v → obj_get k (reverse kvs) = None → spread v kvs @@ (k :: p) = v @@ (k :: p).
Proof. intros Hv Hk. by rewrite !at_path_cons, prop_spread_obj, Hk. Qed.

(** ** Frames *)

(** What an action may do to the sections it is not about: nothing, or clone
    the value. *)
Definition kept (v v' : val) : Prop := v' = v ∨ v' = clone v.

Lemma mirrors_ok_kept names v v' : kept v v' → mirrors_ok names v → mirrors_ok names v'.
Proof.
  intros [->| ->] [Hg Hk]; [done|]. destruct (clone_good v Hg) as [? He].
  split; [done|]. by rewrite He.
Qed.

Lemma mirrors_ok_proper names names' v :
  names ≡ₑ names' → mirrors_ok names v → mirrors_ok names' v.
Proof. intros Hn [Hg Hk]. split; [done|]. by rewrite Hk. Qed.

Lemma names_ok_proper names names' v :
  names ≡ₑ names' → names_ok names v → names_ok names' v.
Proof. intros Hn (l & ? & ? & Hk). exists l. split_and!; [done..|]. by rewrite Hk. Qed.

(** A section survives when its schema keeps its names, its maps keep theirs
    and its list of names is not touched. *)
Lemma coherent_frame x m m' :
  coherent x m →
  (schema_ok (m @@ [schemaOf x]) →
   schema_ok (m' @@ [schemaOf x]) ∧ names_of x m' ≡ₑ names_of x m) →
  Forall (λ p, mirrors_ok (names_of x m) (m @@ p) → mirrors_ok (names_of x m) (m' @@ p))
    (mirrors x) →
  (∀ i, infoNames x = Some i → m' @@ ["info"; i] = m @@ ["info"; i]) →
  coherent x m'.
Proof.
  intros (Hs & Hm & Hi) Hs' Hm' Hi'. destruct (Hs' Hs) as [Hok Hn].
  split_and!; [done| |].
  - rewrite Forall_forall in *. intros p Hp.
    eapply mirrors_ok_proper; [by symmetry|]. by apply Hm', Hm.
  - destruct (infoNames x) as [i|]; [|done]. rewrite (Hi' i) by done.
    by eapply names_ok_proper; [symmetry|].
Qed.

Lemma coherent_kept x m m' :
  coherent x m →
  m' @@ [schemaOf x] = m @@ [schemaOf x] →
  Forall (λ p, kept (m @@ p) (m' @@ p)) (mirrors x) →
  (∀ i, infoNames x = Some i → m' @@ ["info"; i] = m @@ ["info"; i]) →
  coherent x m'.
Proof.
  intros Hc Hs Hm Hi. eapply coherent_frame; [done| | |done].
  - intros Hok. rewrite Hs. split; [done|]. unfold names_of.
    simpl in *. by rewrite Hs.
  - eapply Forall_impl; [exact Hm|]. intros p Hp. by apply mirrors_ok_kept.
Qed.

(** An action of the form [{...module, key: value, ...}].  The five sections of
    the updated module are five goals; paths the action does not write are
    read from the old module. *)
Ltac path_simpl :=
  repeat first
    [ erewrite at_path_spread_in by (first [assumption | reflexivity])
    | rewrite at_path_spread_out by (first [assumption | reflexivity]) ].

Section spread_module.
Context (m : val) (Hm : is_obj m) (Hl : good_map (m @@ ["locale"])) (Hi : is_obj (m @@ ["info"])).

(** The writes [kvs] leave section [x] alone, except that the locale is
    replaced by [locale'], which keeps the section's locale maps. *)
Lemma coherent_spread_other x kvs :
  coherent x m →
  obj_get (schemaOf x) (reverse kvs) = None →
  Forall (λ p, kept (m @@ p) (spread m kvs @@ p)) (mirrors x) →
  (∀ i, infoNames x = Some i → spread m kvs @@ ["info"; i] = m @@ ["info"; i]) →
  coherent x (spread m kvs).
Proof.
  intros Hc Hs Hp Hn. apply (coherent_kept x m); [done| |done|done].
  by rewrite at_path_spread_out.
Qed.
End spread_module.

(** Every new name is written to the schema, to each map and to the list. *)
Lemma mirrors_ok_add names v k x :
  mirrors_ok names v → defined x → mirrors_ok (k :: names) (spread v [(k, x)]).
Proof.
  intros [Hg Hk] Hx. split; [by apply spread_good; repeat constructor|].
  rewrite spread1_keys by (by apply good_map_is_obj). by apply same_elems_cons.
Qed.

Lemma names_ok_add names l k :
  k ∉ names → names_ok names (vstrs l) → names_ok (k :: names) (VArr ((VStr <$> l) ++ [VStr k])).
Proof.
  intros Hk (l' & He & Hnd & Hl). unfold vstrs in He. injection He as He.
  apply list_fmap_eq_inj in He; [|intros ?? [=]; done]. subst l'.
  exists (l ++ [k]). split_and!.
  - unfold vstrs. by rewrite fmap_app.
  - apply NoDup_app. split_and!; [done| |apply NoDup_singleton].
    intros x Hx ->%list_elem_of_singleton. apply Hk. by apply Hl.
  - intros x. rewrite elem_of_app, list_elem_of_singleton, elem_of_cons, (Hl x). tauto.
Qed.

(** The schema with other properties, and with other required properties. *)
Lemma schema_ok_props schema props :
  schema_ok schema → good_map props → schema_ok (spread schema [("properties", props)]).
Proof.
  intros (Hg & Hp & Hr) Hp'. pose proof (good_map_is_obj _ Hg).
  split_and!; rewrite ?prop_spread_obj by done; try done.
  apply spread_good; [done|]. repeat constructor. by destruct props.
Qed.

Lemma schema_ok_props_required schema props r :
  schema_ok schema → good_map props → is_array r = true →
  schema_ok (spread schema [("properties", props); ("required", r)]).
Proof.
  intros (Hg & Hp & Hr) Hp' Hr'. pose proof (good_map_is_obj _ Hg).
  split_and!; rewrite ?prop_spread_obj by done; try done.
  apply spread_good; [done|]. repeat constructor; [by destruct props|by destruct r].
Qed.

(** The names without one of them. *)
Definition without (name : string) (names : list string) : list string :=
  List.filter (λ x, negb (String.eqb x name)) names.

Lemma elem_of_without name names x : x ∈ without name names ↔ x ≠ name ∧ x ∈ names.
Proof.
  unfold without. rewrite !list_elem_of_In, List.filter_In, negb_true_iff, String.eqb_neq. tauto.
Qed.

Lemma without_proper name l1 l2 : l1 ≡ₑ l2 → without name l1 ≡ₑ without name l2.
Proof. intros H x. by rewrite !elem_of_without, (H x). Qed.

Lemma good_map_del_names v k :
  good_map v → ∃ w, del v k = Ok w ∧ good_map w ∧ keys_of w ≡ₑ without k (keys_of v).
Proof.
  intros Hg. destruct (good_map_del v k Hg) as (w & ? & ? & Hk). exists w.
  split_and!; [done..|]. intros x. by rewrite Hk, elem_of_without.
Qed.

Lemma mirrors_ok_del names v k :
  mirrors_ok names v → ∃ w, del (clone v) k = Ok w ∧ mirrors_ok (without k names) w.
Proof.
  intros [Hg Hk]. destruct (clone_good v Hg) as [Hc Hck].
  destruct (good_map_del_names _ k Hc) as (w & ? & ? & Hw). exists w.
  split; [done|]. split; [done|]. rewrite Hw, Hck. by apply without_proper.
Qed.

Lemma filter_out_vstrs name l : filter_out name (vstrs l) = Ok (vstrs (without name l)).
Proof.
  unfold filter_out, vstrs. simpl. do 2 f_equal.
  induction l as [|x l IH]; simpl; [done|].
  destruct (String.eqb x name); simpl; [exact IH|]. f_equal. exact IH.
Qed.

Lemma filter_out_array name v :
  is_array v = true → ∃ w, filter_out name v = Ok w ∧ is_array w = true.
Proof. destruct v; try done. intros _. by eexists. Qed.

Lemma names_ok_del names v k :
  names_ok names v → ∃ w, filter_out k v = Ok w ∧ names_ok (without k names) w.
Proof.
  intros (l & -> & Hnd & Hl). rewrite filter_out_vstrs. eexists. split; [done|].
  exists (without k l). split_and!; [done| |by apply without_proper].
  apply NoDup_ListNoDup, List.NoDup_filter. by apply NoDup_ListNoDup.
Qed.

(** [delete schema.properties[name]] with the removal from [required]. *)
Lemma removeFromSchema_ok schema name :
  schema_ok schema →
  ∃ s, removeFromSchema schema name = Ok s ∧ schema_ok s ∧
       keys_of (prop s "properties") ≡ₑ without name (keys_of (prop schema "properties")).
Proof.
  intros (Hg & Hp & Hr). unfold removeFromSchema. cbn [update_path].
  destruct (clone_good _ Hg) as [Hc _]. pose proof (good_map_is_obj _ Hc).
  destruct (clone_good _ Hp) as [Hcp Hcpk].
  rewrite get_is_obj, clone_prop by done. cbn [mbind res_bind].
  destruct (good_map_del_names _ name Hcp) as (p & -> & Hgp & Hkp). cbn [mbind res_bind].
  destruct (good_map_set (clone schema) "properties" p Hc) as (s1 & -> & Hs1 & _ & Hp1);
    [by destruct p|]. cbn [mbind res_bind].
  rewrite get_is_obj, Hp1, clone_prop by (try done; by apply good_map_is_obj). simpl.
  destruct (filter_out_array name (clone (prop schema "required"))) as (r & -> & Hr');
    [by apply clone_arr_is_array|]. cbn [mbind res_bind].
  destruct (good_map_set s1 "required" r Hs1) as (s2 & -> & Hs2 & _ & Hp2); [by destruct r|].
  exists s2. split; [done|]. rewrite Hp2, Hp1. simpl. split; [|by rewrite Hkp, Hcpk].
  split_and!; rewrite ?Hp2, ?Hp1; done.
Qed.

(** ** Reading a coherent module *)

Lemma module_ok_coherent m x : module_ok m → x ∈ editorSections → coherent x m.
Proof. intros (_ & _ & _ & Hf). rewrite Forall_forall in Hf. apply Hf. Qed.

Lemma module_ok_intro m :
  is_obj m → good_map (m @@ ["locale"]) → is_obj (m @@ ["info"]) →
  coherent (paramEditor configSection) m → coherent (paramEditor secureSection) m →
  coherent (itemEditor eventSection) m → coherent (itemEditor actionSection) m →
  coherent fieldEditor m → module_ok m.
Proof.
  intros. do 3 (split; [assumption|]). unfold editorSections.
  do 5 (apply Forall_cons_2; [assumption|]). constructor.
Qed.

(** Expose the facts about the sections of a coherent module. *)
Ltac open_module H :=
  let Hm := fresh "Hm" in let Hl := fresh "Hl" in let Hi := fresh "Hi" in
  let Hf := fresh "Hf" in
  pose proof H as (Hm & Hl & Hi & Hf);
  let Hlo := fresh "Hlo" in pose proof (good_map_is_obj _ Hl) as Hlo;
  let H1 := fresh "Hconfig" in let H2 := fresh "Hsecure" in let H3 := fresh "Hevents" in
  let H4 := fresh "Hactions" in let H5 := fresh "Hfields" in
  unfold editorSections in Hf;
  apply Forall_cons in Hf as [H1 Hf]; apply Forall_cons in Hf as [H2 Hf];
  apply Forall_cons in Hf as [H3 Hf]; apply Forall_cons in Hf as [H4 Hf];
  apply Forall_cons in Hf as [H5 _].

(** Compute the property names of a section. *)
Ltac section_keys :=
  cbn [schemaOf mirrors infoNames paramEditor itemEditor fieldEditor paramSchemaKey
         paramDefaultKey paramLocaleKey schemaKey defaultKey namesKey configKey configSection
         secureSection eventSection actionSection].

Ltac section_keys_in H :=
  cbn [schemaOf mirrors infoNames paramEditor itemEditor fieldEditor paramSchemaKey
       paramDefaultKey paramLocaleKey schemaKey defaultKey namesKey configKey configSection
       secureSection eventSection actionSection] in H.

(** A section the action does not write. *)
Ltac other_section :=
  apply coherent_spread_other;
    section_keys;
    [assumption | assumption | reflexivity
    | repeat (apply Forall_cons_2; [left; path_simpl; reflexivity|]); apply Forall_nil_2
    | intros ? [=]; subst; path_simpl; reflexivity].

Lemma names_of_spread_in x m kvs schema :
  is_obj m → obj_get (schemaOf x) (reverse kvs) = Some schema →
  names_of x (spread m kvs) = keys_of (prop schema "properties").
Proof. intros Hm Hs. unfold names_of. by rewrite (at_path_spread_in _ _ _ _ schema). Qed.

(** The section whose schema the action writes. *)
Lemma coherent_own x m kvs schema names :
  is_obj m → obj_get (schemaOf x) (reverse kvs) = Some schema →
  schema_ok schema → keys_of (prop schema "properties") ≡ₑ names →
  Forall (λ p, mirrors_ok names (spread m kvs @@ p)) (mirrors x) →
  (∀ i, infoNames x = Some i → names_ok names (spread m kvs @@ ["info"; i])) →
  coherent x (spread m kvs).
Proof.
  intros Hm Hs Hok Hn Hp Hi.
  assert (names_of x (spread m kvs) = keys_of (prop schema "properties")) as He
    by (by apply names_of_spread_in).
  split_and!.
  - by rewrite (at_path_spread_in _ _ _ _ schema).
  - rewrite He. eapply Forall_impl; [exact Hp|]. intros p. by apply mirrors_ok_proper.
  - destruct (infoNames x) as [i|]; [|done]. rewrite He.
    eapply names_ok_proper; [by symmetry|]. by apply Hi.
Qed.

(** ** CONFIG and SECURE CONFIG *)

Definition paramSections : list ParamSection := [configSection; secureSection].

Ltac pick_section H :=
  repeat (apply elem_of_cons in H as [->|H]); [..|by apply elem_of_nil in H].

(** Every map is an object. *)
Ltac objs :=
  repeat match goal with
  | H : schema_ok _ |- _ =>
      let H1 := fresh "Hg" in let H2 := fresh "Hp" in let H3 := fresh "Hr" in
      pose proof H as (H1 & H2 & H3); revert H
  | H : mirrors_ok _ _ |- _ => let H1 := fresh "Hg" in pose proof H as [H1 _]; revert H
  end; intros;
  repeat match goal with
  | H : good_map ?v |- _ =>
      lazymatch goal with
      | _ : is_obj v |- _ => fail
      | _ => pose proof (good_map_is_obj v H)
      end
  end.

(** Run the property reads of a handler on values known to be objects. *)
Ltac run_reads :=
  repeat first
    [ rewrite get_is_obj by assumption
    | rewrite Object_keys_obj by assumption
    | progress cbn [mbind res_bind] ].

Lemma add_schema_keys schema kvs k x :
  is_obj schema → is_obj (prop schema "properties") →
  obj_get "properties" (reverse kvs) = Some (spread (prop schema "properties") [(k, x)]) →
  keys_of (prop (spread schema kvs) "properties") ≡ₑ k :: keys_of (prop schema "properties").
Proof. intros Hs Hp He. rewrite prop_spread_obj, He by done. by apply spread1_keys. Qed.

(** The section an action is about: its own facts, and the other sections'. *)
Ltac own_section Hown :=
  let Hs := fresh "Hs" in let Hmir := fresh "Hmir" in let Hn := fresh "Hn" in
  pose proof Hown as (Hs & Hmir & Hn);
  cbn [schemaOf mirrors infoNames paramEditor itemEditor fieldEditor] in Hs, Hmir, Hn;
  repeat (let H := fresh "Hmir" in apply Forall_cons in Hmir as [H Hmir]); clear Hmir;
  simpl in *; objs.

Ltac new_map :=
  first [ by apply good_map_nil
        | apply spread_good; [assumption|];
          repeat (apply Forall_cons_2; [first [assumption|done|by apply good_map_defined]|]);
          apply Forall_nil_2 ].

(** The maps of the section the action is about. *)
Ltac own_maps lem :=
  repeat (apply Forall_cons_2; [path_simpl; first [assumption|by apply lem]|]);
  apply Forall_nil_2.

Lemma addParam_ok sec ps pd s :
  sec ∈ paramSections → module_ok (module s) → defined ps → defined pd →
  ∃ s', addParam sec ps pd s = Ok s' ∧ module_ok (module s').
Proof.
  intros Hsec Hok Hps Hpd. open_module Hok.
  pick_section Hsec; [own_section Hconfig|own_section Hsecure].
  all: unfold addParam; simpl; run_reads.
  all: eexists; split; [reflexivity|]; rewrite module_patchModule.
  all: apply module_ok_intro; [by eexists| | |..]; try by other_section.
  all: try (path_simpl; first [new_map|done]).
  all: eapply coherent_own; [done|reflexivity|apply schema_ok_props; [done|new_map]|..].
  1,4: by eapply add_schema_keys.
  2,4: done.
  all: own_maps mirrors_ok_add.
Qed.

Lemma removeParam_ok sec s name :
  sec ∈ paramSections → module_ok (module s) →
  ∃ s', removeParam sec s name = Ok s' ∧ module_ok (module s').
Proof.
  intros Hsec Hok. open_module Hok.
  pick_section Hsec; [own_section Hconfig|own_section Hsecure].
  all: unfold removeParam; simpl; run_reads.
  all: edestruct removeFromSchema_ok as (schema & -> & Hschema & Hk); [exact Hs|].
  all: edestruct mirrors_ok_del as (l & Hl' & Hlok); [exact Hmir1|].
  all: edestruct mirrors_ok_del as (c & Hc' & Hcok); [exact Hmir0|].
  all: run_reads; rewrite Hl'; run_reads; rewrite Hc'; run_reads.
  all: eexists; split; [reflexivity|]; rewrite module_patchModule; clear Hl' Hc'.
  all: objs; apply module_ok_intro; [by eexists| | |..]; try by other_section.
  all: try (path_simpl; first [new_map|done]).
  all: eapply coherent_own; [done|reflexivity|done|exact Hk| |done].
  all: own_maps mirrors_ok_add.
Qed.

Lemma schema_ok_empty b : schema_ok (getEmptySchema b).
Proof. destruct b as [[]|]; apply (bool_decide_unpack _); vm_compute; done. Qed.

Lemma mirrors_ok_nil : mirrors_ok [] (VObj []).
Proof. split; [apply good_map_nil|done]. Qed.

Lemma removeAllParams_ok sec s :
  sec ∈ paramSections → module_ok (module s) →
  ∃ s', removeAllParams sec s = Ok s' ∧ module_ok (module s').
Proof.
  intros Hsec Hok. open_module Hok.
  pose proof (schema_ok_empty (Some false)) as Hempty.
  pose proof mirrors_ok_nil as Hnil.
  pick_section Hsec; [own_section Hconfig|own_section Hsecure].
  all: unfold removeAllParams; simpl; run_reads.
  all: eexists; split; [reflexivity|]; rewrite module_patchModule.
  all: apply module_ok_intro; [by eexists| | |..]; try by other_section.
  all: try (path_simpl; first [new_map|done]).
  all: eapply (coherent_own _ _ _ _ []); [done|reflexivity|exact Hempty|done| |done].
  all: own_maps mirrors_ok_add.
Qed.

(** A locale map after a change of names. *)
Lemma update_mirror cb v namesOld names l l' :
  mirrors_ok namesOld v → NoDup namesOld → NoDup names →
  (∀ f k x, cb = Some f → k ∈ names → f k = Ok x → defined x) →
  refactorIds (clone v) namesOld names = Ok l →
  applyChangesToObject cb l namesOld names = Ok l' → mirrors_ok names l'.
Proof.
  intros [Hg Hk] Ho Hn Hcb Hr Ha. destruct (clone_good v Hg) as [Hc Hck].
  destruct (refactorIds_good _ _ _ _ Hc Hr) as [Hl Hlk]. split.
  - by apply (applyChanges_good cb l namesOld names).
  - apply (applyChanges_sync cb l namesOld names); try done. by rewrite Hlk, Hck.
Qed.

(** A default configuration after a change of names. *)
Lemma update_default cb v namesOld names d :
  mirrors_ok namesOld v → NoDup namesOld → NoDup names →
  (∀ f k x, cb = Some f → k ∈ names → f k = Ok x → defined x) →
  applyChangesToObject cb (clone v) namesOld names = Ok d → mirrors_ok names d.
Proof.
  intros [Hg Hk] Ho Hn Hcb Ha. destruct (clone_good v Hg) as [Hc Hck]. split.
  - by apply (applyChanges_good cb (clone v) namesOld names).
  - apply (applyChanges_sync cb (clone v) namesOld names); try done. by rewrite Hck.
Qed.

Lemma getDefaultValueByType_defined t : defined (getDefaultValueByType t).
Proof. unfold getDefaultValueByType. repeat case_match; done. Qed.

(** Take the next read of a hypothesis that says a handler returned [Ok]. *)
Tactic Notation "step" hyp(H) "as" ident(x) ident(E) :=
  match type of H with
  | (?e ≫= _) = Ok _ =>
      destruct e as [x|] eqn:E; cbn [mbind res_bind] in H; [|discriminate H]
  end.

(** The bodies of the two loops keep the names of the default configuration. *)
Definition keeps_names (f : val → string → res val) : Prop :=
  ∀ x k y, good_map x → k ∈ keys_of x → f x k = Ok y →
    good_map y ∧ keys_of y ≡ₑ keys_of x.

Lemma updateConfigParam_keeps old new : keeps_names (updateConfigParam old new).
Proof.
  intros x k y Hx Hk H. unfold updateConfigParam in H.
  step H as param E1. step H as type E2. step H as oldParam E3. step H as oldType E4.
  step H as x1 H1.
  assert (good_map x1 ∧ keys_of x1 ≡ₑ keys_of x) as [Hx1 Hk1].
  { destruct (negb _); [|by simplify_eq].
    eapply set_key_good; [done|done|apply getDefaultValueByType_defined|exact H1]. }
  destruct (is_str type _); [|by simplify_eq].
  rewrite get_is_obj in H by (by apply good_map_is_obj). cbn [mbind res_bind] in H.
  step H as m' Ht.
  destruct (put_back_good x1 k fillDefault param m' y) as [? Hky]; try done.
  - apply fillDefault_container.
  - split; [done|]. by rewrite Hky.
Qed.

Lemma updateSecureParam_keeps old new : keeps_names (updateSecureParam old new).
Proof.
  intros x k y Hx Hk H. unfold updateSecureParam in H.
  step H as param E1. step H as value E2. step H as type E3. step H as serverOnly E4.
  step H as x0 H0.
  apply update_path_good in H0 as (z0 & _ & _ & Hx0 & Hk0 & _); [|done|apply set_strict].
  step H as oldParam E5. step H as oldType E6. step H as x1 H1.
  assert (good_map x1 ∧ keys_of x1 ≡ₑ keys_of x) as [Hx1 Hk1].
  { destruct (negb _); [|by simplify_eq].
    apply update_path_good in H1 as (z1 & _ & _ & ? & Hk1 & _); [|done|apply set_strict].
    split; [done|]. by rewrite Hk1. }
  destruct (is_str _ _); [|by simplify_eq].
  step H as model E7. step H as model' E8.
  apply update_path_good_at in H as (z2 & _ & _ & ? & Hk2 & _);
    [split; [done|by rewrite Hk2]|done|].
  intros z Hz. cbn [get_path] in E7.
  rewrite get_is_obj in E7 by (by apply good_map_is_obj). cbn [mbind res_bind] in E7.
  assert (defined (prop x1 k)) as Hd by (by intros He; rewrite He in E7).
  split; [done|]. by eapply put_back_defined.
Qed.

(** The schemas the forms hand over. *)
Definition stores_names (stored : val → val) : Prop :=
  ∀ schema, schema_ok schema → schema_ok (stored schema) ∧
    keys_of (prop (stored schema) "properties") = keys_of (prop schema "properties").

Lemma schema_ok_clone : stores_names clone.
Proof.
  intros schema (Hg & Hp & Hr). destruct (clone_good _ Hg) as [Hc _].
  destruct (clone_good _ Hp) as [Hcp Hcpk]. rewrite clone_prop by done.
  split; [|done]. split_and!; rewrite ?clone_prop by done; try done.
  by apply clone_arr_is_array.
Qed.

Ltac run_reads_in H :=
  repeat first
    [ progress cbn [mbind res_bind get_path] in H
    | match goal with
      | Ho : is_obj ?v |- _ =>
          first [ rewrite (get_is_obj v) in H by exact Ho
                | rewrite (Object_keys_obj v) in H by exact Ho ]
      end ].

(** Clone a locale and replace one of its maps. *)
Lemma locale_set l k x l' :
  good_map l → defined x → set (clone l) k x = Ok l' →
  good_map l' ∧ prop l' k = x ∧ ∀ k', k' ≠ k → prop l' k' = clone (prop l k').
Proof.
  intros Hl Hx H. destruct (clone_good l Hl) as [Hc _].
  destruct (good_map_set (clone l) k x Hc Hx) as (w & Hw & Hg & _ & Hp).
  assert (w = l') as -> by congruence. split; [done|]. split.
  - by rewrite Hp, String.eqb_refl.
  - intros k' Hk. rewrite Hp, clone_prop by done. by destruct (String.eqb_spec k' k).
Qed.

(** Sections other than the one the action is about, when the locale was
    cloned. *)
Ltac kept_path Hother :=
  path_simpl; first
    [ left; reflexivity
    | right; cbn [at_path]; rewrite Hother by done; reflexivity ].

Ltac other_section_cloned Hother :=
  apply coherent_spread_other;
    section_keys;
    [assumption | assumption | reflexivity
    | repeat (apply Forall_cons_2; [kept_path Hother|]); apply Forall_nil_2
    | intros ? [=]; subst; path_simpl; reflexivity].

Lemma updateParams_ok sec vs paramType updateParam stored s schema s' :
  sec ∈ paramSections → module_ok (module s) → schema_ok schema → stores_names stored →
  (∀ old new, keeps_names (updateParam old new)) →
  updateParams sec vs paramType updateParam stored s schema = Ok s' →
  module_ok (module s').
Proof.
  intros Hsec Hok Hschema Hst Hbody H. open_module Hok.
  destruct (Hst schema Hschema) as [Hss Hsk].
  pose proof Hschema as (Hsg & Hsp & Hsr).
  pose proof (good_map_is_obj _ Hsg). pose proof (good_map_is_obj _ Hsp).
  destruct (clone_good _ Hsg) as [Hcs _]. pose proof (good_map_is_obj _ Hcs).
  destruct (clone_good _ Hsp) as [Hcsp Hcspk]. pose proof (good_map_is_obj _ Hcsp).
  destruct (clone_good _ Hl) as [Hcl _]. pose proof (good_map_is_obj _ Hcl).
  pick_section Hsec; [own_section Hconfig|own_section Hsecure].
  all: unfold updateParams in H; simpl in H; run_reads_in H.
  all: step H as d Hd; run_reads_in H.
  all: rewrite ?clone_prop in H by assumption; run_reads_in H.
  all: step H as d' Hd'; run_reads_in H.
  all: rewrite ?clone_prop in H by assumption.
  all: step H as l1 Hl1; step H as l2 Hl2; step H as loc Hloc.
  all: injection H as <-; rewrite module_patchSection.
  all: apply update_default in Hd;
    [|exact Hmir0|by apply good_map_NoDup|by apply good_map_NoDup|].
  2,4: intros f k x [= <-] _ Hx; apply bind_Ok_inv in Hx as (t & _ & [= <-]);
       apply getDefaultValueByType_defined.
  all: destruct Hd as [Hdg Hdk]; rewrite Hcspk in Hd'.
  all: apply foldM_keys_good in Hd' as [Hdg' Hdk'];
    [|done|intros k Hk; by apply Hdk|by apply Hbody].
  all: assert (mirrors_ok (keys_of (prop schema "properties")) d') as Hdok
    by (split; [done|by rewrite Hdk']).
  all: eapply update_mirror in Hl2;
    [|exact Hmir1|by apply good_map_NoDup|by apply good_map_NoDup|done|exact Hl1].
  all: pose proof (proj1 Hl2) as Hl2g.
  all: apply locale_set in Hloc as (Hlg & Hlk & Hother); [|done|by apply good_map_defined].
  all: apply module_ok_intro; [by eexists| | |..]; try by other_section_cloned Hother.
  all: try (path_simpl; done).
  all: eapply (coherent_own _ _ _ _ (keys_of (prop schema "properties")));
    [done|reflexivity|done|by rewrite Hsk| |done].
  all: repeat (apply Forall_cons_2; [section_keys; path_simpl; cbn [at_path]; rewrite ?Hlk; done|]);
       apply Forall_nil_2.
Qed.
