(* ===== verification/ModuleEditItemFacts.v ===== *)
(** * Module editor: coherence of events, actions and fields

    The handlers of the sections EVENTS, ACTIONS and FIELDS preserve
    [module_ok]; adding and removing items never throws on a coherent module,
    and a new item never replaces an existing one. *)

From S2P Require Import Prelude JsString JsValue JsJson SharedUtils ModuleEditState.
From S2P Require Import ModuleEditConfig.
From S2P Require Import ModuleEditItems ModuleEditFields NameMaps ModuleEditInvariant.

Definition itemSections : list ItemSection := [eventSection; actionSection].

(** The names the next item could clash with have indices that doubles
    represent exactly. *)
Definition names_small (prefix : string) (names : list string) : Prop :=
  indices_small names prefix.

Lemma iter_array v : is_array v = true → ∃ l, iter v = Ok l.
Proof. destruct v; try done. by eexists. Qed.

Lemma iter_vstrs l : iter (vstrs l) = Ok (VStr <$> l).
Proof. done. Qed.

Lemma addItem_ok sec prefix isch idef s :
  sec ∈ itemSections → module_ok (module s) → defined isch → defined idef →
  names_small prefix (names_of (itemEditor sec) (module s)) →
  ∃ s', addItem sec prefix isch idef s = Ok s' ∧ module_ok (module s').
Proof.
  intros Hsec Hok Hisch Hidef Hsm. open_module Hok.
  pick_section Hsec; [own_section Hevents|own_section Hactions].
  all: pose proof Hn as (ns & Hns & _).
  all: edestruct iter_array as (r & Hr'); [exact Hr|].
  all: unfold addItem; simpl; run_reads; rewrite Hr', Hns, iter_vstrs; run_reads.
  all: eexists; split; [reflexivity|]; rewrite module_patchModule; clear Hr'.
  all: apply module_ok_intro; [by eexists| | |..]; try by other_section.
  all: try (path_simpl; first [new_map|by eexists]).
  all: eapply (coherent_own _ _ _ _ (getNameForNewItem _ prefix :: _));
    [done|reflexivity|apply schema_ok_props_required; [done|new_map|done]
    |by eapply add_schema_keys| |].
  all: try own_maps mirrors_ok_add.
  all: intros i [= <-]; path_simpl.
  all: apply names_ok_add; [by apply getNameForNewItem_not_elem|by rewrite <-Hns].
Qed.

(** Deleting a name from the cloned properties of a schema. *)
Lemma del_clone_names v k :
  good_map v → ∃ w, del (clone v) k = Ok w ∧ good_map w ∧ keys_of w ≡ₑ without k (keys_of v).
Proof.
  intros Hg. destruct (clone_good v Hg) as [Hc Hk].
  destruct (good_map_del_names _ k Hc) as (w & ? & ? & Hw). exists w.
  split; [done|]. split; [done|]. by rewrite Hw, Hk.
Qed.

Lemma schema_names_required schema props r names :
  is_obj schema → keys_of props ≡ₑ names →
  keys_of (prop (spread schema [("properties", props); ("required", r)]) "properties") ≡ₑ names.
Proof. intros Hs Hk. by rewrite prop_spread_obj. Qed.

Lemma schema_names_props schema props names :
  is_obj schema → keys_of props ≡ₑ names →
  keys_of (prop (spread schema [("properties", props)]) "properties") ≡ₑ names.
Proof. intros Hs Hk. by rewrite prop_spread_obj. Qed.

Lemma removeItem_ok sec s name :
  sec ∈ itemSections → module_ok (module s) →
  ∃ s', removeItem sec s name = Ok s' ∧ module_ok (module s').
Proof.
  intros Hsec Hok. open_module Hok.
  pick_section Hsec; [own_section Hevents|own_section Hactions].
  all: destruct (filter_out_array name _ Hr) as (r & Hr' & Hra).
  all: destruct (names_ok_del _ _ name Hn) as (ns & Hns & Hnsok).
  all: destruct (del_clone_names _ name Hp) as (ps & Hps & Hpsg & Hpsk).
  all: destruct (mirrors_ok_del _ _ name Hmir0) as (d & Hd & Hdok).
  all: destruct (mirrors_ok_del _ _ name Hmir1) as (l1 & Hl1 & Hl1ok).
  all: destruct (mirrors_ok_del _ _ name Hmir2) as (l2 & Hl2 & Hl2ok).
  all: unfold removeItem; simpl; run_reads;
    rewrite Hps; run_reads; rewrite Hl1; run_reads; rewrite Hl2; run_reads;
    rewrite Hd; run_reads; rewrite Hns; run_reads; rewrite Hr'; run_reads.
  all: eexists; split; [reflexivity|]; rewrite module_patchModule; clear Hps Hl1 Hl2 Hd Hns Hr'.
  all: objs; apply module_ok_intro; [by eexists| | |..]; try by other_section.
  all: try (path_simpl; first [new_map|by eexists]).
  all: eapply coherent_own;
    [done|reflexivity|by apply schema_ok_props_required|by apply schema_names_required| |].
  all: try own_maps mirrors_ok_add.
  all: intros i [= <-]; path_simpl; exact Hnsok.
Qed.

Lemma names_ok_nil : names_ok [] (VArr []).
Proof. exists []. split_and!; [done|constructor|done]. Qed.

Lemma removeAllItems_ok sec s :
  sec ∈ itemSections → module_ok (module s) →
  ∃ s', removeAllItems sec s = Ok s' ∧ module_ok (module s').
Proof.
  intros Hsec Hok. open_module Hok.
  pose proof (schema_ok_empty None) as Hempty.
  pose proof mirrors_ok_nil as Hnil.
  pick_section Hsec; [own_section Hevents|own_section Hactions].
  all: unfold removeAllItems; simpl; run_reads.
  all: eexists; split; [reflexivity|]; rewrite module_patchModule.
  all: apply module_ok_intro; [by eexists| | |..]; try by other_section.
  all: try (path_simpl; first [new_map|by eexists]).
  all: eapply (coherent_own _ _ _ _ []); [done|reflexivity|exact Hempty|done| |].
  all: try own_maps mirrors_ok_add.
  all: intros i [= <-]; path_simpl; apply names_ok_nil.
Qed.

(** Rewriting the entry of a name keeps the names. *)
Lemma mirrors_ok_overwrite names v k x :
  mirrors_ok names v → k ∈ names → defined x → mirrors_ok names (spread v [(k, x)]).
Proof.
  intros Hv Hk Hx. apply (mirrors_ok_proper (k :: names)); [|by apply mirrors_ok_add].
  intros y. rewrite elem_of_cons. naive_solver.
Qed.

Lemma overwrite_names v k x :
  good_map v → k ∈ keys_of v → keys_of (spread v [(k, x)]) ≡ₑ keys_of v.
Proof.
  intros Hg Hk. rewrite spread1_keys by (by apply good_map_is_obj).
  intros y. rewrite elem_of_cons. naive_solver.
Qed.

Lemma get_prop_key v k k' x : good_map v → get (prop v k) k' = Ok x → k ∈ keys_of v.
Proof.
  intros Hg H. apply good_map_key; [done|]. intros He. by rewrite He in H.
Qed.

Lemma addItemKey_ok sec s itemName s' :
  sec ∈ itemSections → module_ok (module s) →
  addItemKey sec s itemName = Ok s' → module_ok (module s').
Proof.
  intros Hsec Hok H. open_module Hok.
  pick_section Hsec; [own_section Hevents|own_section Hactions].
  all: unfold addItemKey in H; simpl in H; run_reads_in H.
  all: step H as allOf E1; step H as base E2; step H as own E3; step H as ownProps E4;
    step H as keys E5; step H as ownProperties E6; run_reads_in H.
  all: injection H as <-; rewrite module_patchModule.
  all: step E1 as allOf' E0; apply get_prop_key in E0; [|done].
  all: apply module_ok_intro; [by eexists| | |..]; try by other_section.
  all: try (path_simpl; first [new_map|done]).
  all: eapply coherent_own;
    [done|reflexivity|apply schema_ok_props; [done|new_map]
    |apply schema_names_props; [done|by apply overwrite_names]| |].
  all: try (intros i [= <-]; path_simpl; exact Hn).
  all: repeat (apply Forall_cons_2; [path_simpl; first [assumption|by apply mirrors_ok_overwrite]|]);
    apply Forall_nil_2.
Qed.

(** Deleting a key inside an item keeps the items. *)
Lemma update_entry_mirror names v k f w :
  mirrors_ok names v → strict_cb f → update_path (clone v) [k] f = Ok w → mirrors_ok names w.
Proof.
  intros [Hg Hk] Hst H. destruct (clone_good v Hg) as [Hc Hck].
  apply update_path_good in H as (x & _ & _ & Hw & Hwk & _); [|done|done].
  split; [done|]. by rewrite Hwk, Hck.
Qed.

Lemma update_deep_names v k k' p f w :
  good_map v → update_path (clone v) (k :: k' :: p) f = Ok w →
  good_map w ∧ keys_of w ≡ₑ keys_of v.
Proof.
  intros Hg H. destruct (clone_good v Hg) as [Hc Hck].
  apply update_path_good in H as (x & _ & _ & Hw & Hwk & _);
    [|done|by apply (update_path_strict (k' :: p))].
  split; [done|]. by rewrite Hwk, Hck.
Qed.

Lemma removeItemKey_ok sec s itemName keyName s' :
  sec ∈ itemSections → module_ok (module s) →
  removeItemKey sec s itemName keyName = Ok s' → module_ok (module s').
Proof.
  intros Hsec Hok H. open_module Hok.
  pick_section Hsec; [own_section Hevents|own_section Hactions].
  all: unfold removeItemKey in H; cbn zeta in H; section_keys_in H; run_reads_in H.
  all: step H as props E1; run_reads_in H; step H as l E2; run_reads_in H; step H as c E3.
  all: injection H as <-; rewrite module_patchModule.
  all: apply update_entry_mirror with (1 := Hmir0) in E3; [|apply del_strict].
  all: apply update_entry_mirror with (1 := Hmir2) in E2; [|apply del_strict].
  all: match type of E1 with context [clone ?ps] =>
         assert (good_map props ∧ keys_of props ≡ₑ keys_of ps) as [Hpg Hpk] end;
    [destruct (bool_decide _); exact (update_deep_names _ itemName "allOf" _ _ _ Hp E1)|].
  all: clear E1; objs; apply module_ok_intro; [by eexists| | |..]; try by other_section.
  all: try (path_simpl; first [new_map|done]).
  all: eapply coherent_own;
    [done|reflexivity|by apply schema_ok_props|by apply schema_names_props| |].
  all: try (intros i [= <-]; path_simpl; exact Hn).
  all: own_maps mirrors_ok_add.
Qed.

(** ** Changes of the whole schema *)

Lemma keeps_names_set (f : val → string → res val) :
  (∀ x k y, good_map x → k ∈ keys_of x → f x k = Ok y →
     ∃ z, defined z ∧ set x k z = Ok y) → keeps_names f.
Proof.
  intros Hf x k y Hx Hk H. destruct (Hf x k y Hx Hk H) as (z & Hz & Hs).
  by eapply set_key_good.
Qed.

Lemma fillFalsy_defined empty config prop w :
  defined config → fillFalsy empty config prop = Ok w → defined w.
Proof.
  intros Hc H. unfold fillFalsy in H. step H as cur E. destruct (truthy cur).
  - by injection H as <-.
  - step H as x E1. by eapply set_defined.
Qed.

Lemma updateEventDefault_keeps schema : keeps_names (updateEventDefault schema).
Proof.
  apply keeps_names_set. intros x k y Hx Hk H. unfold updateEventDefault in H.
  step H as props E1. step H as data E2. step H as event E3. step H as cur E4.
  step H as curKeys E5. step H as emptyKeys E6. step H as config E7. step H as type E8.
  step H as config1 E9. step H as newType E10. step H as config2 E11.
  step H as configKeys E12. step H as config3 E13.
  exists config3. split; [|done].
  apply (foldM_inv defined) in E13; [done| |].
  - intros c p c' _. apply fillFalsy_defined.
  - apply set_defined in E9. destruct (is_str newType "atomic"); [|by simplify_eq].
    step E11 as fields E14. by eapply set_defined.
Qed.

Lemma updateActionDefault_keeps schema : keeps_names (updateActionDefault schema).
Proof.
  apply keeps_names_set. intros x k y Hx Hk H. unfold updateActionDefault in H.
  step H as props E1. step H as data E2. step H as cur E4.
  step H as curKeys E5. step H as emptyKeys E6. step H as config E7. step H as fields E8.
  step H as config1 E9. step H as priority E10. step H as config2 E11.
  step H as configKeys E12. step H as config3 E13.
  exists config3. split; [|done].
  apply (foldM_inv defined) in E13; [done| |by eapply set_defined].
  intros c p c' _. apply fillFalsy_defined.
Qed.

Lemma setActionPriority_keeps schema : keeps_names (setActionPriority schema).
Proof.
  intros x k y Hx Hk H. unfold setActionPriority in H. step H as priority E1.
  apply update_path_good in H as (z & _ & _ & ? & ? & _); [done|done|apply set_strict].
Qed.

Lemma updateKeysLocale_keeps sec schema : keeps_names (updateKeysLocale sec schema).
Proof.
  apply keeps_names_set. intros x k y Hx Hk H. unfold updateKeysLocale in H.
  step H as props E1. step H as keys E2. step H as cur E3. step H as curKeys E4.
  step H as refactored E5. step H as refKeys E6. step H as updated E7.
  exists updated. split; [|done].
  rewrite get_is_obj in E3 by (by apply good_map_is_obj). injection E3 as <-.
  eapply applyChanges_defined; [|exact E7]. eapply refactorIds_defined; [|exact E5].
  by apply good_map_key.
Qed.

(** The loop of a schema update over a map that already has the new names. *)
Lemma loop_mirror f names v l w :
  keeps_names f → mirrors_ok names v → (∀ k, k ∈ l → k ∈ names) → foldM f v l = Ok w →
  mirrors_ok names w.
Proof.
  intros Hf [Hg Hk] Hl H. apply foldM_keys_good in H as [Hw Hwk]; [|done| |done].
  - split; [done|]. by rewrite Hwk.
  - intros k Hkl. by apply Hk, Hl.
Qed.

(** The locale after a change of the items' names. *)
Lemma updateItemsLocale_ok sec schema l old new l' :
  sec ∈ itemSections → good_map l → NoDup old → NoDup new →
  mirrors_ok old (prop l (namesKey sec)) → mirrors_ok old (prop l (configKey sec)) →
  updateItemsLocale sec schema (clone l) old new = Ok l' →
  good_map l' ∧ mirrors_ok new (prop l' (namesKey sec)) ∧
  mirrors_ok new (prop l' (configKey sec)) ∧
  ∀ k, k ≠ namesKey sec → k ≠ configKey sec → prop l' k = clone (prop l k).
Proof.
  intros Hsec Hl Ho Hn Hm1 Hm2 H. destruct (clone_good l Hl) as [Hc _].
  assert (namesKey sec ≠ configKey sec) as Hne
    by (pick_section Hsec; done).
  unfold updateItemsLocale in H.
  rewrite get_is_obj in H by (by apply good_map_is_obj). cbn [mbind res_bind] in H.
  rewrite clone_prop in H by done.
  step H as n1 E1. step H as n2 E2. step H as l1 E3.
  eapply update_mirror in E2; [|exact Hm1|done..|exact E1].
  apply locale_set in E3 as (Hl1 & Hl1k & Hl1o); [|done|by apply good_map_defined, E2].
  rewrite get_is_obj in H by (by apply good_map_is_obj). cbn [mbind res_bind] in H.
  rewrite Hl1o in H by done.
  step H as c1 E4. step H as names E5. step H as c2 E6.
  apply update_default in E4; [|exact Hm2|done..].
  rewrite Object_keys_good in E5 by apply E4. injection E5 as <-.
  eapply loop_mirror in E6;
    [|apply updateKeysLocale_keeps|exact E4|intros k Hk; by apply (proj2 E4)].
  destruct (good_map_set l1 (configKey sec) c2 Hl1) as (w & Hw & Hwg & _ & Hwp);
    [by apply good_map_defined, E6|].
  assert (w = l') as -> by congruence.
  split; [done|]. rewrite !Hwp, String.eqb_refl.
  destruct (String.eqb_spec (namesKey sec) (configKey sec)) as [?|_]; [done|].
  rewrite Hl1k. split; [done|]. split; [done|]. intros k H1 H2.
  rewrite Hwp. destruct (String.eqb_spec k (configKey sec)); [done|]. by apply Hl1o.
Qed.

Lemma schema_ok_required schema r :
  schema_ok schema → is_array r = true → schema_ok (spread schema [("required", r)]).
Proof.
  intros (Hg & Hp & Hr) Hr'. pose proof (good_map_is_obj _ Hg).
  split_and!; rewrite ?prop_spread_obj by done; try done.
  apply spread_good; [done|]. repeat constructor. by destruct r.
Qed.

Lemma names_ok_vstrs l : NoDup l → names_ok l (vstrs l).
Proof. intros Hl. by exists l. Qed.

(** The common end of [updateEventsSchema] and [updateActionsSchema]. *)
Lemma withItems_ok sec vs s schema d locale s' :
  sec ∈ itemSections → module_ok (module s) → schema_ok schema →
  let names := keys_of (prop schema "properties") in
  let l := prop (module s) "locale" in
  mirrors_ok names d → good_map locale → mirrors_ok names (prop locale (namesKey sec)) →
  mirrors_ok names (prop locale (configKey sec)) →
  (∀ k, k ≠ namesKey sec → k ≠ configKey sec → prop locale k = clone (prop l k)) →
  withItems sec s vs names schema d locale = Ok s' → module_ok (module s').
Proof.
  intros Hsec Hok Hschema names l Hd Hlg Hl1 Hl2 Hother H. subst l.
  assert (NoDup names) as Hnd by (apply good_map_NoDup, Hschema).
  pose proof Hschema as (Hsg & _). pose proof (good_map_is_obj _ Hsg).
  open_module Hok. unfold withItems in H. run_reads_in H. injection H as <-.
  rewrite module_patchSection.
  pick_section Hsec; [own_section Hevents|own_section Hactions].
  all: apply module_ok_intro; [by eexists| | |..]; try by other_section_cloned Hother.
  all: try (path_simpl; first [done|by eexists]).
  all: eapply (coherent_own _ _ _ _ names);
    [done|reflexivity|by apply schema_ok_required|by rewrite prop_spread_obj| |].
  all: try (intros i [= <-]; path_simpl; by apply names_ok_vstrs).
  all: repeat (apply Forall_cons_2; [path_simpl; cbn [at_path]; done|]); apply Forall_nil_2.
Qed.

Lemma getDefaultEvent_defined ref : defined (getDefaultEvent ref).
Proof. unfold getDefaultEvent. by repeat case_match. Qed.

Lemma on_updateEventsSchema_ok s schema s' :
  module_ok (module s) → schema_ok schema →
  on_updateEventsSchema s schema = Ok s' → module_ok (module s').
Proof.
  intros Hok Hschema H. pose proof Hok as Hok'. open_module Hok'. own_section Hevents.
  pose proof Hschema as (Hsg & Hsp & Hsr).
  pose proof (good_map_is_obj _ Hsg). pose proof (good_map_is_obj _ Hsp).
  destruct (clone_good _ (proj1 Hmir0)) as [Hcd Hcdk]. pose proof (good_map_is_obj _ Hcd).
  unfold on_updateEventsSchema in H. simpl in H. run_reads_in H.
  step H as d1 E1. step H as names E2. step H as d2 E3. run_reads_in H.
  step H as locale E4.
  assert (mirrors_ok (keys_of (prop schema "properties")) d1) as Hd1.
  { eapply (update_default _ _ (keys_of (prop (module s) "default_event_config")));
      [split; [exact (proj1 Hmir0)|reflexivity]|by apply good_map_NoDup|by apply good_map_NoDup| |by rewrite <-Hcdk].
    intros f k x [= <-] _ Hx. unfold defaultEventOf in Hx. step Hx as ref Er.
    injection Hx as <-. apply getDefaultEvent_defined. }
  rewrite Object_keys_good in E2 by apply Hd1. injection E2 as <-.
  eapply loop_mirror in E3;
    [|apply updateEventDefault_keeps|exact Hd1|intros k Hk; by apply (proj2 Hd1)].
  eapply updateItemsLocale_ok in E4 as (Hlg & Hl1 & Hl2 & Hother);
    [|apply list_elem_of_here|done|by apply good_map_NoDup|by apply good_map_NoDup|done|done].
  eapply withItems_ok; [|exact Hok|exact Hschema|exact E3|exact Hlg|exact Hl1|exact Hl2
                        |exact Hother|exact H].
  apply list_elem_of_here.
Qed.

Lemma on_updateActionsSchema_ok s schema s' :
  module_ok (module s) → schema_ok schema →
  on_updateActionsSchema s schema = Ok s' → module_ok (module s').
Proof.
  intros Hok Hschema H. pose proof Hok as Hok'. open_module Hok'. own_section Hactions.
  pose proof Hschema as (Hsg & Hsp & Hsr).
  pose proof (good_map_is_obj _ Hsg). pose proof (good_map_is_obj _ Hsp).
  unfold on_updateActionsSchema in H. simpl in H. run_reads_in H.
  step H as d1 E1. step H as names E2. step H as d2 E3. step H as d3 E4. run_reads_in H.
  step H as locale E5.
  eapply update_default in E1;
    [|exact Hmir0|by apply good_map_NoDup|by apply good_map_NoDup|done].
  rewrite Object_keys_good in E2 by apply E1. injection E2 as <-.
  eapply loop_mirror in E3;
    [|apply updateActionDefault_keeps|exact E1|intros k Hk; by apply (proj2 E1)].
  eapply loop_mirror in E4; [|apply setActionPriority_keeps|exact E3|done].
  eapply updateItemsLocale_ok in E5 as (Hlg & Hl1 & Hl2 & Hother);
    [|apply list_elem_of_further, list_elem_of_here|done|by apply good_map_NoDup
     |by apply good_map_NoDup|done|done].
  eapply withItems_ok; [|exact Hok|exact Hschema|exact E4|exact Hlg|exact Hl1|exact Hl2
                        |exact Hother|exact H].
  apply list_elem_of_further, list_elem_of_here.
Qed.
