(* ===== verification/ModuleEditSafety.v ===== *)
(** * Module editor: every action keeps the module coherent

    Coherence of the FIELDS section, and the invariant of the whole reducer:
    from a coherent module, no sequence of actions leads to a module whose
    sections disagree about the names of their items. *)

From S2P Require Import Prelude JsString JsValue JsJson SharedUtils ModuleEditState.
From S2P Require Import ModuleEditConfig.
From S2P Require Import ModuleEditItems ModuleEditFields ModuleEditReducer NameMaps.
From S2P Require Import ModuleEditInvariant ModuleEditItemFacts.

(** ** FIELDS *)

Lemma on_addField_ok s :
  module_ok (module s) → names_small "field_" (names_of fieldEditor (module s)) →
  ∃ s', on_addField s = Ok s' ∧ module_ok (module s').
Proof.
  intros Hok Hsm. open_module Hok. own_section Hfields. pose proof Hn as (ns & Hns & _).
  unfold on_addField. simpl. run_reads. rewrite Hns, iter_vstrs. run_reads.
  eexists. split; [reflexivity|]. rewrite module_patchModule.
  apply module_ok_intro; [by eexists| | |..]; try by other_section.
  1,2: path_simpl; first [new_map|by eexists].
  eapply (coherent_own _ _ _ _ (getNameForNewItem _ "field_" :: _));
    [done|reflexivity|apply schema_ok_props; [done|new_map]|by eapply add_schema_keys| |].
  { own_maps mirrors_ok_add. }
  intros i [= <-]. path_simpl.
  apply names_ok_add; [by apply getNameForNewItem_not_elem|by rewrite <-Hns].
Qed.

Lemma on_removeField_ok s name :
  module_ok (module s) → ∃ s', on_removeField s name = Ok s' ∧ module_ok (module s').
Proof.
  intros Hok. open_module Hok. own_section Hfields.
  destruct (names_ok_del _ _ name Hn) as (ns & Hns & Hnsok).
  destruct (del_clone_names _ name Hp) as (ps & Hps & Hpsg & Hpsk).
  destruct (mirrors_ok_del _ _ name Hmir0) as (l & Hl' & Hlok).
  unfold on_removeField. simpl.
  run_reads. rewrite Hps. run_reads. rewrite Hl'. run_reads. rewrite Hns. run_reads.
  eexists. split; [reflexivity|]. rewrite module_patchModule. clear Hps Hl' Hns.
  objs. apply module_ok_intro; [by eexists| | |..]; try by other_section.
  1,2: path_simpl; first [new_map|by eexists].
  eapply coherent_own;
    [done|reflexivity|by apply schema_ok_props|by apply schema_names_props| |].
  { own_maps mirrors_ok_add. }
  intros i [= <-]. path_simpl. exact Hnsok.
Qed.

Lemma on_removeAllFields_ok s :
  module_ok (module s) → ∃ s', on_removeAllFields s = Ok s' ∧ module_ok (module s').
Proof.
  intros Hok. open_module Hok. own_section Hfields.
  pose proof (schema_ok_empty None) as Hempty. pose proof mirrors_ok_nil as Hnil.
  unfold on_removeAllFields. simpl. run_reads.
  eexists. split; [reflexivity|]. rewrite module_patchModule.
  apply module_ok_intro; [by eexists| | |..]; try by other_section.
  1,2: path_simpl; first [new_map|by eexists].
  eapply (coherent_own _ _ _ _ []); [done|reflexivity|exact Hempty|done| |].
  { own_maps mirrors_ok_add. }
  intros i [= <-]. path_simpl. apply names_ok_nil.
Qed.

(** *** The fields of events and actions *)

(** A schema whose items were rewritten keeps its names. *)
Definition same_names (schema schema' : val) : Prop :=
  schema_ok schema' ∧
  keys_of (prop schema' "properties") ≡ₑ keys_of (prop schema "properties").

Lemma update_schema_item schema item k p f schema' :
  schema_ok schema → update_path schema ("properties" :: item :: k :: p) f = Ok schema' →
  same_names schema schema'.
Proof.
  intros (Hg & Hp & Hr) H.
  apply update_path_good in H as (ps & Hps & _ & Hg' & _ & Hprop);
    [|done|by apply (update_path_strict (item :: k :: p))].
  apply update_path_good in Hps as (x & _ & _ & Hpg & Hpk & _);
    [|done|by apply (update_path_strict (k :: p))].
  split; [|by rewrite Hprop]. split_and!; rewrite ?Hprop; done.
Qed.

Lemma syncItemFields_ok renamed names schema d item schema' d' ns :
  schema_ok schema → mirrors_ok ns d →
  syncItemFields renamed names (schema, d) item = Ok (schema', d') →
  same_names schema schema' ∧ mirrors_ok ns d'.
Proof.
  intros Hs Hd H. unfold syncItemFields in H.
  step H as fields E1. step H as def E2.
  destruct def; try (injection H as <- <-; split; [by split|done]).
  step H as f1 E3. step H as f2 E4. step H as f3 E5. step H as s1 E6. step H as d1 E7.
  injection H as <- <-. split; [by eapply update_schema_item|].
  destruct Hd as [Hg Hk].
  apply update_path_good in E7 as (x & _ & _ & ? & Hk' & _); [|done|apply set_strict].
  split; [done|]. by rewrite Hk'.
Qed.

Lemma syncFields_ok renamed names schema d schema' d' ns :
  schema_ok schema → mirrors_ok ns d →
  syncFields renamed names (clone schema) (clone d) = Ok (schema', d') →
  same_names schema schema' ∧ mirrors_ok ns d'.
Proof.
  intros Hs Hd H. destruct (schema_ok_clone schema Hs) as [Hc Hck].
  pose proof (mirrors_ok_kept ns d (clone d) (or_intror eq_refl) Hd) as Hdc.
  unfold syncFields in H. step H as props E1. step H as items E2.
  apply (foldM_inv (λ acc, same_names schema acc.1 ∧ mirrors_ok ns acc.2)) in H; [done| |].
  - intros [s1 d1] item [s2 d2] _ [[Hs1 Hk1] Hd1] Hf.
    apply (syncItemFields_ok _ _ _ _ _ _ _ ns Hs1 Hd1) in Hf as [[Hs2 Hk2] Hd2].
    split; [|done]. split; [done|]. simpl in *. by rewrite Hk2.
  - split; [|done]. split; [done|]. simpl. by rewrite Hck.
Qed.

Lemma on_updateFieldsSchema_ok s schema s' :
  module_ok (module s) → schema_ok schema →
  on_updateFieldsSchema s schema = Ok s' → module_ok (module s').
Proof.
  intros Hok Hschema H. open_module Hok. own_section Hfields.
  pose proof Hevents as (Hes & Hem & Hen). pose proof Hactions as (Has & Ham & Han).
  section_keys_in Hem. section_keys_in Ham.
  apply Forall_cons in Hem as [He0 Hem]. apply Forall_cons in Hem as [He1 Hem].
  apply Forall_cons in Hem as [He2 _].
  apply Forall_cons in Ham as [Ha0 Ham]. apply Forall_cons in Ham as [Ha1 Ham].
  apply Forall_cons in Ham as [Ha2 _]. simpl in *.
  pose proof Hschema as (Hsg & Hsp & Hsr).
  pose proof (good_map_is_obj _ Hsg). pose proof (good_map_is_obj _ Hsp).
  destruct (clone_good _ Hl) as [Hcl _]. pose proof (good_map_is_obj _ Hcl).
  unfold on_updateFieldsSchema in H. simpl in H. run_reads_in H.
  destruct (getChangesArrays _ _) as [[add rem] renamed].
  step H as p1 E1. destruct p1 as [es ed]. step H as p2 E2. destruct p2 as [as_ ad].
  run_reads_in H. rewrite ?clone_prop in H by done.
  step H as l1 E3. step H as l2 E4. step H as loc E5. run_reads_in H.
  injection H as <-. rewrite module_patchSection.
  eapply syncFields_ok in E1 as [[Hes' Hek] Hed]; [|exact Hes|exact He0].
  eapply syncFields_ok in E2 as [[Has' Hak] Had]; [|exact Has|exact Ha0].
  eapply update_mirror in E4;
    [|exact Hmir0|by apply good_map_NoDup|by apply good_map_NoDup|done|exact E3].
  apply locale_set in E5 as (Hlg & Hlk & Hother); [|done|by apply good_map_defined, E4].
  assert (∀ k ns, k ≠ "fields" → mirrors_ok ns (prop (prop (module s) "locale") k) →
            mirrors_ok ns (prop loc k)) as Hkeep.
  { intros k ns Hk. apply mirrors_ok_kept. right. by apply Hother. }
  apply module_ok_intro; [by eexists| | |..]; try by other_section_cloned Hother.
  1,2: path_simpl; first [done|by eexists].
  - eapply (coherent_own _ _ _ _ (names_of (itemEditor eventSection) (module s)));
      [done|reflexivity|exact Hes'|exact Hek| |].
    + repeat (apply Forall_cons_2; [section_keys; path_simpl; cbn [at_path];
        first [done|by apply Hkeep]|]); apply Forall_nil_2.
    + intros i [= <-]. section_keys. path_simpl. exact Hen.
  - eapply (coherent_own _ _ _ _ (names_of (itemEditor actionSection) (module s)));
      [done|reflexivity|exact Has'|exact Hak| |].
    + repeat (apply Forall_cons_2; [section_keys; path_simpl; cbn [at_path];
        first [done|by apply Hkeep]|]); apply Forall_nil_2.
    + intros i [= <-]. section_keys. path_simpl. exact Han.
  - eapply (coherent_own _ _ _ _ (keys_of (prop schema "properties")));
      [done|reflexivity|done|done| |].
    + apply Forall_cons_2; [path_simpl; cbn [at_path]; by rewrite Hlk|apply Forall_nil_2].
    + intros i [= <-]. path_simpl. by apply names_ok_vstrs, good_map_NoDup.
Qed.

(** ** The remaining handlers *)

(** A write to a property of the module that no section uses. *)
Lemma module_ok_other m k x :
  module_ok m → k ∈ ["static_dependencies"; "changelog"] → module_ok (spread m [(k, x)]).
Proof.
  intros Hok Hk. open_module Hok. pick_section Hk.
  all: apply module_ok_intro; [by eexists| | |..]; try by other_section.
  all: path_simpl; done.
Qed.

(** A new default configuration with the names of its section. *)
Definition defaultOwners : list (string * EditorSection) :=
  [("default_config", paramEditor configSection);
   ("secure_default_config", paramEditor secureSection);
   ("default_event_config", itemEditor eventSection);
   ("default_action_config", itemEditor actionSection)].

Lemma module_ok_default m k sec c :
  (k, sec) ∈ defaultOwners → module_ok m → mirrors_ok (names_of sec m) c →
  module_ok (spread m [(k, c)]).
Proof.
  intros Hk Hok Hc. open_module Hok. unfold defaultOwners in Hk.
  repeat (apply elem_of_cons in Hk as [[= -> ->]|Hk]); [..|by apply elem_of_nil in Hk].
  all: apply module_ok_intro; [by eexists| | |..]; try by other_section.
  all: try (path_simpl; done).
  all: match goal with Hx : coherent ?x ?m |- coherent ?x _ =>
         eapply (coherent_frame x m); [exact Hx|..] end.
  all: try (intros Hs; unfold names_of; section_keys; path_simpl; done).
  all: try (intros i [=]; subst; section_keys; path_simpl; done).
  all: section_keys; repeat (apply Forall_cons_2; [path_simpl; done|]); apply Forall_nil_2.
Qed.

(** The general form replaces [info] but not the lists of names in it. *)
Definition keeps_lists (m info : val) : Prop :=
  is_obj info ∧ Forall (λ i, prop info i = m @@ ["info"; i]) ["events"; "actions"; "fields"].

Lemma on_updateGeneralSection_ok s info s' :
  module_ok (module s) → keeps_lists (module s) info →
  on_updateGeneralSection s info = Ok s' → module_ok (module s').
Proof.
  intros Hok [Hio Hil] H. open_module Hok. simpl in *.
  repeat (let Hx := fresh "Hlist" in apply Forall_cons in Hil as [Hx Hil]). clear Hil.
  unfold on_updateGeneralSection in H. simpl in H. run_reads_in H.
  step H as old E1. step H as new E2. step H as tags E3.
  injection H as <-. rewrite module_patchSection.
  assert (defined tags) as Htags.
  { eapply applyChanges_defined; [|exact E3]. apply clone_defined.
    intros Hu. rewrite Hu in E1. done. }
  apply module_ok_intro; [by eexists| | |..].
  1,2: path_simpl; first [new_map|done].
  all: apply coherent_spread_other; section_keys; try assumption; try reflexivity.
  all: try (repeat (apply Forall_cons_2; [left; path_simpl; reflexivity|]); apply Forall_nil_2).
  all: intros i [=]; subst; path_simpl; cbn [at_path]; congruence.
Qed.

(** The localization form hands over the locale maps it edits. *)
Definition keeps_locale (m model : val) : Prop :=
  good_map model ∧
  Forall (λ x, Forall (λ p, match p with
    | ["locale"; l] => l ∈ keys_of model → mirrors_ok (names_of x m) (prop model l)
    | _ => True
    end) (mirrors x)) editorSections.

Lemma obj_get_reverse_own model k :
  good_map model → obj_get k (reverse (own_props model)) = obj_get k (own_props model).
Proof.
  intros (o & -> & [Hnd _] & _)%good_map_inv. simpl.
  assert (NoDup (obj_keys (reverse o))) as Hnd'.
  { unfold obj_keys. rewrite fmap_reverse. by rewrite reverse_Permutation. }
  apply option_eq. intros v. split; intros Hv%obj_get_Some_elem.
  - apply obj_get_NoDup; [done|]. by apply elem_of_reverse.
  - apply obj_get_NoDup; [done|]. by apply elem_of_reverse.
Qed.

Lemma prop_spread2 v model k :
  is_obj v → good_map model →
  prop (spread2 v model) k = if bool_decide (k ∈ keys_of model) then prop model k else prop v k.
Proof.
  intros Hv Hg. unfold spread2. rewrite prop_spread_obj, obj_get_reverse_own by done.
  pose proof (good_map_inv _ Hg) as (o & -> & _). simpl. unfold obj_lookup.
  case_bool_decide as Hk; rewrite elem_of_obj_keys in Hk.
  - by destruct Hk as [x ->].
  - apply eq_None_not_Some in Hk. by rewrite Hk.
Qed.

Lemma on_updateLocalizationModel_ok s model s' :
  module_ok (module s) → keeps_locale (module s) model →
  on_updateLocalizationModel s model = Ok s' → module_ok (module s').
Proof.
  intros Hok [Hg Hmodel] H. open_module Hok.
  unfold on_updateLocalizationModel in H. run_reads_in H. injection H as <-.
  rewrite module_patchSection.
  assert (∀ x l, x ∈ editorSections → ["locale"; l] ∈ mirrors x →
    mirrors_ok (names_of x (module s)) (prop (prop (module s) "locale") l) →
    mirrors_ok (names_of x (module s)) (prop (spread2 (prop (module s) "locale") model) l))
    as Hlocale.
  { intros x l Hx Hl' Hold. rewrite prop_spread2 by done.
    case_bool_decide as Hk; [|done]. rewrite Forall_forall in Hmodel.
    specialize (Hmodel x Hx). rewrite Forall_forall in Hmodel.
    exact (Hmodel _ Hl' Hk). }
  apply module_ok_intro; [by eexists| | |..].
  2: path_simpl; done.
  { path_simpl. apply spread_good; [done|].
    pose proof (good_map_inv _ Hg) as (o & -> & _ & Hd). exact Hd. }
  all: match goal with Hx : coherent ?x ?m |- coherent ?x _ =>
         eapply (coherent_frame x m); [exact Hx|..] end.
  all: try (intros Hs; unfold names_of; section_keys; path_simpl; done).
  all: try (intros i [=]; subst; section_keys; path_simpl; done).
  all: repeat (apply Forall_cons_2; [section_keys; path_simpl; first [done|apply Hlocale]|]);
    try apply Forall_nil_2.
  all: unfold editorSections; section_keys; rewrite !elem_of_cons; naive_solver.
Qed.

(** ** The whole reducer *)

(** What the forms and the server guarantee about the data an action carries,
    given the module under edit. *)
Definition action_ok (m : val) (a : Action) : Prop :=
  match a with
  | fetchModuleSuccess m' _ _ _ => module_ok m'
  | updateGeneralSection info => keeps_lists m info
  | updateConfigSchema schema | updateSecureConfigSchema schema
  | updateEventsSchema schema | updateActionsSchema schema | updateFieldsSchema schema =>
      schema_ok schema
  | updateDefaultConfig c => is_obj m ∧ mirrors_ok (names_of (paramEditor configSection) m) c
  | updateSecureDefaultConfig c =>
      is_obj m ∧ mirrors_ok (names_of (paramEditor secureSection) m) c
  | updateEventsDefaultConfig c => is_obj m ∧ mirrors_ok (names_of (itemEditor eventSection) m) c
  | updateActionsDefaultConfig c =>
      is_obj m ∧ mirrors_ok (names_of (itemEditor actionSection) m) c
  | addEvent => names_small "event_" (names_of (itemEditor eventSection) m)
  | addAction => names_small "action_" (names_of (itemEditor actionSection) m)
  | addField => names_small "field_" (names_of fieldEditor m)
  | updateLocalizationModel model => keeps_locale m model
  | updateChangelogSection _ => is_obj m
  | _ => True
  end.

(** No module is loaded, or a coherent one is. *)
Definition state_ok (s : State) : Prop := module s = VUndef ∨ module_ok (module s).

Lemma on_loading_module s a s' :
  on_loading s a = Ok s' →
  module s' = match a with fetchModuleSuccess m _ _ _ => m | _ => module s end.
Proof. destruct a; simpl; intros H; inv_res; simplify_eq; done. Qed.

Lemma on_operations_module s a : module (on_operations s a) = module s.
Proof. by destruct a. Qed.

Lemma on_files_module s a s' : on_files s a = Ok s' → module s' = module s.
Proof.
  destruct a; simpl; unfold on_loadFilesSuccess, on_saveFilesSuccess, on_closeFiles;
    intros H; inv_res; simplify_eq; done.
Qed.

Lemma on_dependencyData_module s a : module (on_dependencyData s a) = module s.
Proof. by destruct a. Qed.

Lemma on_state_module s a :
  module (on_state s a) = match a with reset => VUndef | _ => module s end.
Proof. by destruct a. Qed.

(** Before a module is loaded no section can be edited. *)
Lemma on_sections_undef s a s' :
  module s = VUndef → action_ok VUndef a → on_sections s a = Ok s' → module s' = VUndef.
Proof.
  intros Hm Ha H. destruct a; simpl in *; try (by simplify_eq).
  all: try match goal with
       | Ho : is_obj VUndef ∧ _ |- _ => destruct Ho as [[o Ho] _]; discriminate Ho
       | Ho : is_obj VUndef |- _ => destruct Ho as [o Ho]; discriminate Ho
       end.
  all: exfalso; revert H;
    unfold on_updateGeneralSection, on_addConfigParam, on_removeConfigParam,
      on_removeAllConfigParams, on_updateConfigSchema, on_addSecureConfigParam,
      on_removeSecureConfigParam, on_removeAllSecureConfigParams, on_updateSecureConfigSchema,
      on_addEvent, on_removeEvent, on_removeAllEvents, on_updateEventsSchema, on_addEventKey,
      on_removeEventKey, on_addAction, on_removeAction, on_removeAllActions,
      on_updateActionsSchema, on_addActionKey, on_removeActionKey, on_addField, on_removeField,
      on_removeAllFields, on_updateFieldsSchema, on_updateLocalizationModel,
      on_changeAgentVersion, on_addReceiveDataDependency, on_changeReceiveDataDependencies,
      on_addSendDataDependency, on_changeSendDataDependencies, on_deleteChangelogRecord,
      addParam, removeParam, removeAllParams, updateParams, addItem, removeItem,
      removeAllItems, addItemKey, removeItemKey, staticDependencies;
    simpl; rewrite Hm; done.
Qed.

Lemma Ok_module (r : res State) s :
  (∃ b, r = Ok b ∧ module_ok (module b)) → r = Ok s → module_ok (module s).
Proof. intros (b & -> & Hb) [= ->]. exact Hb. Qed.

Lemma module_ok_dependencies m deps :
  module_ok m → module_ok (spread m [("static_dependencies", deps)]).
Proof. intros Hok. apply module_ok_other; [done|]. apply list_elem_of_here. Qed.

Lemma module_ok_changelog m log : module_ok m → module_ok (spread m [("changelog", log)]).
Proof.
  intros Hok. apply module_ok_other; [done|]. apply list_elem_of_further, list_elem_of_here.
Qed.

Ltac total_handler H lem := revert H; by apply Ok_module, lem.

Lemma on_sections_ok s a s' :
  module_ok (module s) → action_ok (module s) a → on_sections s a = Ok s' →
  module_ok (module s').
Proof.
  intros Hok Ha H.
  assert (configSection ∈ paramSections ∧ secureSection ∈ paramSections ∧
          eventSection ∈ itemSections ∧ actionSection ∈ itemSections) as (Pc & Ps & Ie & Ia)
    by (unfold paramSections, itemSections; rewrite !elem_of_cons; tauto).
  destruct a; simpl in *; try (by injection H as <-).
  all: try first [total_handler H addParam_ok | total_handler H removeParam_ok
                 | total_handler H removeAllParams_ok | total_handler H addItem_ok
                 | total_handler H removeItem_ok | total_handler H removeAllItems_ok
                 | total_handler H on_addField_ok | total_handler H on_removeField_ok
                 | total_handler H on_removeAllFields_ok ].
  all: try (injection H as <-; rewrite module_patchSection;
            eapply module_ok_default; [|done|exact (proj2 Ha)];
            unfold defaultOwners; rewrite !elem_of_cons; tauto).
  - by eapply on_updateGeneralSection_ok.
  - eapply updateParams_ok; [exact Pc|done|done|apply schema_ok_clone| |exact H].
    apply updateConfigParam_keeps.
  - eapply updateParams_ok; [exact Ps|done|done|intros sc Hsc; exact (conj Hsc eq_refl)| |exact H].
    apply updateSecureParam_keeps.
  - by eapply on_updateEventsSchema_ok.
  - exact (addItemKey_ok eventSection _ _ _ Ie Hok H).
  - exact (removeItemKey_ok eventSection _ _ _ _ Ie Hok H).
  - by eapply on_updateActionsSchema_ok.
  - exact (addItemKey_ok actionSection _ _ _ Ia Hok H).
  - exact (removeItemKey_ok actionSection _ _ _ _ Ia Hok H).
  - by eapply on_updateFieldsSchema_ok.
  - by eapply on_updateLocalizationModel_ok.
  - unfold on_changeAgentVersion in H. inv_res. by apply module_ok_dependencies.
  - unfold on_addReceiveDataDependency in H. inv_res. by apply module_ok_dependencies.
  - unfold on_changeReceiveDataDependencies in H. inv_res. by apply module_ok_dependencies.
  - unfold on_addSendDataDependency in H. inv_res. by apply module_ok_dependencies.
  - unfold on_changeSendDataDependencies in H. inv_res. by apply module_ok_dependencies.
  - unfold on_deleteChangelogRecord in H. inv_res. by apply module_ok_changelog.
  - injection H as <-. by apply module_ok_changelog.
Qed.

(** The sections do not react to the actions that replace the module. *)
Lemma on_sections_fetched s m v u f : on_sections s (fetchModuleSuccess m v u f) = Ok s.
Proof. done. Qed.

Lemma reducer_ok s a s' :
  state_ok s → action_ok (module s) a → reducer s a = Ok s' → state_ok s'.
Proof.
  intros Hs Ha H. unfold reducer in H.
  step H as s1 E1. step H as s2 E2. step H as s3 E3. injection H as <-.
  unfold state_ok. rewrite on_state_module, on_dependencyData_module.
  rewrite (on_files_module _ _ _ E3).
  assert (state_ok s2) as Hs2; [|destruct a; try exact Hs2; by left].
  pose proof (on_loading_module _ _ _ E1) as Hm1.
  pose proof (on_operations_module s1 a) as Hmo. rewrite Hm1 in Hmo.
  assert (∀ m, module (on_operations s1 a) = m → module s = m → state_ok s2) as Hsec.
  { intros m Ho <-. destruct Hs as [Hu|Hok].
    - left. eapply (on_sections_undef _ a); [by rewrite Ho| |exact E2]. by rewrite <-Hu.
    - right. eapply on_sections_ok; [by rewrite Ho| |exact E2]. by rewrite Ho. }
  destruct a; try (by eapply Hsec).
  rewrite on_sections_fetched in E2. injection E2 as <-. right. by rewrite Hm1.
Qed.

(** Sequences of actions whose data is as the forms and the server provide it. *)
Inductive reachable : State → Prop :=
| reachable_init : reachable initialState
| reachable_step s a s' :
    reachable s → action_ok (module s) a → reducer s a = Ok s' → reachable s'.

Lemma reachable_ok s : reachable s → state_ok s.
Proof. induction 1 as [|s a s' _ IH Ha H]; [by left|]. by eapply reducer_ok. Qed.
