(* ===== verification/ModuleEditDefaults.v ===== *)
(** * Module editor: the default values after a schema change

    Which default a parameter has once its schema was edited, and how the
    schemas of events and actions follow the fields of the module. *)

From S2P Require Import Prelude JsString JsValue JsJson SharedUtils ModuleEditState.
From S2P Require Import ModuleEditConfig ModuleEditItems ModuleEditFields ModuleEditReducer.
From S2P Require Import NameMaps ModuleEditInvariant ModuleEditItemFacts ModuleEditSafety.
From S2P Require Import ModuleEditSelectors.

(** ** Loops over the names of a map *)

(** A loop body that reads and writes the entry of its own name only. *)
Definition own_key (f : val → string → res val) : Prop :=
  ∀ x k y, is_obj x → f x k = Ok y → is_obj y ∧ ∀ k', k' ≠ k → prop y k' = prop x k'.

Lemma foldM_own_key_other f l v w k :
  own_key f → is_obj v → k ∉ l → foldM f v l = Ok w → is_obj w ∧ prop w k = prop v k.
Proof.
  intros Hf. revert v. induction l as [|k1 l IH]; intros v Hv Hk H; simpl in H.
  { by injection H as <-. }
  apply not_elem_of_cons in Hk as [Hne Hk]. step H as v1 E.
  destruct (Hf v k1 v1 Hv E) as [Hv1 Ho]. destruct (IH v1 Hv1 Hk H) as [? ->]. by rewrite Ho.
Qed.

Lemma foldM_own_key f l v w k :
  own_key f → is_obj v → NoDup l → k ∈ l → foldM f v l = Ok w →
  ∃ x y, is_obj x ∧ prop x k = prop v k ∧ f x k = Ok y ∧ prop w k = prop y k.
Proof.
  intros Hf. revert v. induction l as [|k1 l IH]; intros v Hv Hnd Hk H; simpl in H.
  { by apply elem_of_nil in Hk. }
  apply NoDup_cons in Hnd as [Hn Hnd]. step H as v1 E.
  destruct (Hf v k1 v1 Hv E) as [Hv1 Ho].
  destruct (decide (k = k1)) as [->|Hne].
  - exists v, v1. destruct (foldM_own_key_other f l v1 w k1) as [_ ?]; done.
  - apply elem_of_cons in Hk as [?|Hk]; [done|].
    destruct (IH v1 Hv1 Hnd Hk H) as (x & y & ? & Hx & ? & ?).
    exists x, y. split; [done|]. split; [by rewrite Hx, Ho|done].
Qed.

Lemma set_own_key x k v y :
  is_obj x → set x k v = Ok y → is_obj y ∧ ∀ k', k' ≠ k → prop y k' = prop x k'.
Proof.
  intros Hx Hs. split; [by eapply set_is_obj|]. intros k' Hne.
  rewrite (set_prop _ _ _ _ _ Hs Hx). by destruct (String.eqb_spec k' k).
Qed.

Lemma put_back_own_key x k m m' y :
  is_obj x → put_back x k m m' = Ok y → is_obj y ∧ ∀ k', k' ≠ k → prop y k' = prop x k'.
Proof.
  intros Hx H. unfold put_back in H. destruct m; try (by injection H as <-); by eapply set_own_key.
Qed.

Lemma updateConfigParam_own_key old new : own_key (updateConfigParam old new).
Proof.
  intros x k y Hx H. unfold updateConfigParam in H.
  step H as param E1. step H as type E2. step H as oldParam E3. step H as oldType E4.
  step H as x1 H1.
  assert (is_obj x1 ∧ ∀ k', k' ≠ k → prop x1 k' = prop x k') as [Hx1 Ho1].
  { destruct (negb _); [by eapply set_own_key|by injection H1 as <-]. }
  destruct (is_str type _); [|by injection H as <-].
  step H as model E5. step H as model' E6. apply put_back_own_key in H as [? Ho]; [|done].
  split; [done|]. intros k' Hk. by rewrite Ho, Ho1.
Qed.

(** ** The type of a property *)

Lemma getq_type v x : getq v "type" = Ok x → x = prop v "type".
Proof. destruct v; simpl; intros H; try (by injection H as <-). Qed.

(** One turn of the loop over the parameters, for a type that is not
    [object]. *)
Lemma updateConfigParam_scalar old new x k y t :
  is_obj x → is_obj old → is_obj new → new @@ [k; "type"] = VStr t → t ≠ PropertyType.OBJECT →
  updateConfigParam old new x k = Ok y →
  prop y k = if is_str (old @@ [k; "type"]) t then prop x k else getDefaultValueByType (VStr t).
Proof.
  intros Hx Hold Hnew Ht Hobj H. unfold updateConfigParam in H.
  rewrite !get_is_obj in H by done. cbn [mbind res_bind] in H. simpl in Ht.
  assert (is_obj (prop new k)) as Hp by (destruct (prop new k); simpl in Ht; try done; by eexists).
  rewrite get_is_obj, Ht in H by done. cbn [mbind res_bind] in H.
  step H as oldType E. apply getq_type in E. subst oldType.
  assert (is_str (VStr t) PropertyType.OBJECT = false) as Hns
    by (simpl; by destruct (String.eqb_spec t PropertyType.OBJECT)).
  rewrite Hns in H. step H as x1 H1. injection H as <-. simpl.
  assert (strict_eq (prop (prop old k) "type") (VStr t) = is_str (prop (prop old k) "type") t) as He
    by (by destruct (prop (prop old k) "type") as [| | |[]| | |]).
  rewrite He in H1. destruct (is_str (prop (prop old k) "type") t); simpl in H1.
  - by injection H1 as <-.
  - rewrite (set_prop _ _ _ _ _ H1 Hx). by rewrite String.eqb_refl.
Qed.

(** ** The defaults after [updateConfigSchema] *)

Lemma on_sections_of s a s' :
  on_loading s a = Ok s → on_operations s a = s → (∀ s, on_files s a = Ok s) →
  (∀ s, on_dependencyData s a = s) → (∀ s, on_state s a = s) →
  reducer s a = Ok s' → on_sections s a = Ok s'.
Proof.
  intros H1 H2 H3 H4 H5. unfold reducer. rewrite H1. simpl. rewrite H2.
  destruct (on_sections s a); simpl; [|done]. by rewrite H3; simpl; rewrite H4, H5.
Qed.

Lemma applyChanges_kept cb v a b r k :
  is_obj v → NoDup a → NoDup b → k ∈ a → k ∈ b →
  applyChangesToObject cb v a b = Ok r → is_obj r ∧ prop r k = prop v k.
Proof.
  intros [o ->] Ha Hb Hka Hkb H.
  destruct (applyChanges_obj cb o a b r Ha Hb H) as (o' & -> & _ & Hk & _).
  split; [by eexists|]. unfold prop, obj_lookup. by rewrite Hk.
Qed.

Lemma applyChanges_is_obj cb v a b r :
  is_obj v → NoDup a → NoDup b → applyChangesToObject cb v a b = Ok r → is_obj r.
Proof.
  intros [o ->] Ha Hb H.
  destruct (applyChanges_obj cb o a b r Ha Hb H) as (o' & -> & _). by eexists.
Qed.

Lemma on_updateConfigSchema_default s schema s' name t :
  module_ok (module s) → is_json (module s) = true → schema_ok schema → is_json schema = true →
  on_updateConfigSchema s schema = Ok s' →
  schema @@ ["properties"; name; "type"] = VStr t → t ≠ PropertyType.OBJECT →
  prop (module s' @@ ["default_config"]) name =
    if is_str (module s @@ ["config_schema"; "properties"; name; "type"]) t
    then prop (module s @@ ["default_config"]) name
    else getDefaultValueByType (VStr t).
Proof.
  intros Hok Hj Hschema Hjs H Ht Hobj. open_module Hok.
  pose proof Hschema as (Hsg & Hsp & Hsr).
  pose proof (good_map_is_obj _ Hsg). pose proof (good_map_is_obj _ Hsp).
  own_section Hconfig.
  assert (name ∈ keys_of (prop schema "properties")) as Hname.
  { apply good_map_key; [done|]. intros He. by rewrite He in Ht. }
  unfold on_updateConfigSchema, updateParams in H. simpl in H. run_reads_in H.
  rewrite (clone_json schema), (clone_json (prop (module s) "default_config")) in H;
    [|by apply is_json_prop; [|by apply good_map_defined]|done].
  step H as d Hd. run_reads_in H. step H as d' Hd'. run_reads_in H.
  step H as l0 Hl0. step H as l1 Hl1. step H as l2 Hl2. step H as loc Hloc.
  injection H as <-. rewrite module_patchSection, prop_spread_obj by done. cbn.
  assert (NoDup (keys_of (prop (prop (module s) "config_schema") "properties"))) as Hnd1
    by (by apply good_map_NoDup).
  assert (NoDup (keys_of (prop schema "properties"))) as Hnd2 by (by apply good_map_NoDup).
  assert (is_obj (prop (module s) "default_config")) as Hdc by done.
  pose proof (applyChanges_is_obj _ _ _ _ _ Hdc Hnd1 Hnd2 Hd) as Hdo.
  destruct (foldM_own_key _ _ _ _ name (updateConfigParam_own_key _ _) Hdo Hnd2 Hname Hd')
    as (x & y & Hx & Hxn & Hbody & Hw).
  eapply updateConfigParam_scalar in Hbody; [|done|done|done|exact Ht|done].
  rewrite Hw, Hbody.
  cbn [at_path].
  cbn [at_path]. destruct (is_str _ t) eqn:Hty; [|done]. rewrite Hxn.
  assert (name ∈ keys_of (prop (prop (module s) "config_schema") "properties")) as Hold.
  { apply good_map_key; [done|]. intros He. rewrite !at_path_cons, He in Hty. done. }
  by apply (applyChanges_kept _ _ _ _ _ name Hdc Hnd1 Hnd2 Hold Hname Hd).
Qed.

(** ** Priorities of actions *)

Lemma prop_get_eq v w k : is_obj v → is_obj w → get w k = get v k → prop w k = prop v k.
Proof. intros Hv Hw. rewrite !get_is_obj by done. congruence. Qed.

Lemma setActionPriority_own_key schema : own_key (setActionPriority schema).
Proof.
  intros x k y Hx H. unfold setActionPriority in H. step H as p Hp.
  apply update_path_other in H as [Hy Ho]; [|done]. split; [done|].
  intros k' Hk. apply prop_get_eq; [done..|]. by apply Ho.
Qed.

Lemma setActionPriority_priority schema x k y p :
  is_obj x → setActionPriority schema x k = Ok y →
  get_path schema ["properties"; k; "allOf"; "1"; "properties"; "priority"; "default"] = Ok p →
  prop (prop y k) "priority" = p.
Proof.
  intros Hx H Hp. unfold setActionPriority in H. rewrite Hp in H. cbn [mbind res_bind] in H.
  pose proof (update_path_other _ _ _ _ _ Hx H) as [Hy _].
  apply update_path_inv in H as (c & c' & _ & Hc & Hg).
  cbn [get_path] in Hg. rewrite get_is_obj in Hg by done. injection Hg as ->.
  pose proof (set_named _ "priority" _ _ eq_refl Hc) as Hco.
  rewrite (set_prop _ _ _ _ _ Hc Hco). done.
Qed.

Lemma on_updateActionsSchema_priority s schema s' name p :
  module_ok (module s) → schema_ok schema →
  on_updateActionsSchema s schema = Ok s' →
  name ∈ keys_of (prop schema "properties") →
  get_path schema ["properties"; name; "allOf"; "1"; "properties"; "priority"; "default"] = Ok p →
  module s' @@ ["default_action_config"; name; "priority"] = p.
Proof.
  intros Hok Hschema H Hname Hp. open_module Hok.
  pose proof Hschema as (Hsg & Hsp & Hsr).
  pose proof (good_map_is_obj _ Hsg). pose proof (good_map_is_obj _ Hsp).
  own_section Hactions.
  unfold on_updateActionsSchema in H. simpl in H. run_reads_in H.
  step H as d1 E1. step H as names E2. step H as d2 E3. step H as d3 E4. run_reads_in H.
  step H as loc Hloc. unfold withItems in H. run_reads_in H. injection H as <-.
  rewrite module_patchSection, prop_spread_obj by done. cbn.
  eapply update_default in E1;
    [|exact Hmir0|by apply good_map_NoDup|by apply good_map_NoDup|done].
  rewrite Object_keys_good in E2 by apply E1. injection E2 as <-.
  eapply loop_mirror in E3;
    [|apply updateActionDefault_keeps|exact E1|intros k Hk; by apply (proj2 E1)].
  assert (is_obj d2) as Hd2 by (by apply good_map_is_obj, E3).
  destruct (foldM_own_key _ _ _ _ name (setActionPriority_own_key schema) Hd2
              (good_map_NoDup _ Hsp) Hname E4) as (x & y & Hx & _ & Hy & ->).
  by eapply setActionPriority_priority.
Qed.

(** ** Secure parameters *)

Lemma update_key_own_key x k f y :
  is_obj x → update_path x [k] f = Ok y → is_obj y ∧ ∀ k', k' ≠ k → prop y k' = prop x k'.
Proof.
  intros Hx H. apply update_path_other in H as [Hy Ho]; [|done]. split; [done|].
  intros k' Hk. apply prop_get_eq; [done..|]. by apply Ho.
Qed.

Lemma updateSecureParam_own_key old new : own_key (updateSecureParam old new).
Proof.
  intros x k y Hx H. unfold updateSecureParam in H.
  step H as param E1. step H as value E2. step H as type E3. step H as serverOnly E4.
  step H as x0 H0. apply update_key_own_key in H0 as [Hx0 Ho0]; [|done].
  step H as oldParam E5. step H as oldType E6. step H as x1 H1.
  assert (is_obj x1 ∧ ∀ k', k' ≠ k → prop x1 k' = prop x0 k') as [Hx1 Ho1].
  { destruct (negb _); [by eapply update_key_own_key|by injection H1 as <-]. }
  destruct (is_str _ _); [|injection H as <-; split; [done|]; intros k' Hk; by rewrite Ho1, Ho0].
  step H as model E7. step H as model' E8. apply update_key_own_key in H as [Hy Ho]; [|done].
  split; [done|]. intros k' Hk. by rewrite Ho, Ho1, Ho0.
Qed.

Lemma get_path_at_path v p : v @@ p ≠ VUndef → get_path v p = Ok (v @@ p).
Proof.
  assert (∀ q, VUndef @@ q = VUndef) as Hu by (by intros q; induction q).
  revert v. induction p as [|k p IH]; intros v Hd; [done|]. simpl in *.
  destruct v as [| | | | | |o]; simpl in Hd; rewrite ?Hu in Hd; try done.
  rewrite get_obj. simpl. by apply IH.
Qed.

Lemma scalar_default t :
  t ∉ [PropertyType.OBJECT; PropertyType.ARRAY] →
  (∀ o, getDefaultValueByType (VStr t) ≠ VObj o) ∧
  is_array (getDefaultValueByType (VStr t)) = false.
Proof.
  rewrite !not_elem_of_cons. intros (Ho & Ha & _). unfold getDefaultValueByType.
  simpl. rewrite (proj2 (String.eqb_neq _ _) Ho), (proj2 (String.eqb_neq _ _) Ha).
  by repeat case_match.
Qed.

(** [defaultConfig[name].server_only = ...] throws when the parameter's
    default is a primitive. *)
Lemma updateSecureParam_primitive old new x k y :
  is_obj x → is_obj (prop x k) ∨ is_array (prop x k) = true ∨
             ¬ updateSecureParam old new x k = Ok y.
Proof.
  intros Hx. destruct (prop x k) as [| | | | |l|o] eqn:Hk;
    [..|by right; left|by left; eexists]; right; right; intros H.
  all: unfold updateSecureParam in H; step H as param E1; step H as value E2;
    step H as type E3; step H as serverOnly E4; step H as x0 H0; cbn [update_path] in H0;
    rewrite get_is_obj, Hk in H0 by done; discriminate H0.
Qed.

Lemma on_updateSecureConfigSchema_added s schema s' name t :
  module_ok (module s) → schema_ok schema → is_json schema = true →
  let namesOld := keys_of (module s @@ ["secure_config_schema"; "properties"]) in
  let names := keys_of (schema @@ ["properties"]) in
  (getChangesArrays namesOld names).2 = [] → name ∈ names → name ∉ namesOld →
  schema @@ ["properties"; name; "properties"; "value"; "type"] = VStr t →
  t ∉ [PropertyType.OBJECT; PropertyType.ARRAY] →
  on_updateSecureConfigSchema s schema ≠ Ok s'.
Proof.
  intros Hok Hschema Hjs namesOld names Hren Hin Hout Ht Hprim H. open_module Hok.
  pose proof Hschema as (Hsg & Hsp & Hsr).
  pose proof (good_map_is_obj _ Hsg). pose proof (good_map_is_obj _ Hsp).
  own_section Hsecure.
  assert (is_obj (clone (prop (module s) "secure_default_config"))) as Hco by (by apply clone_is_obj).
  unfold on_updateSecureConfigSchema, updateParams in H. simpl in H. run_reads_in H.
  rewrite (clone_json schema Hjs) in H.
  step H as d Hd. run_reads_in H. step H as d' Hd'. clear H.
  pose proof (good_map_NoDup _ Hp) as Hnd1. pose proof (good_map_NoDup _ Hsp) as Hnd2.
  pose proof (applyChanges_is_obj _ _ _ _ _ Hco Hnd1 Hnd2 Hd) as Hdo.
  destruct (foldM_own_key _ _ _ _ name (updateSecureParam_own_key _ _) Hdo Hnd2 Hin Hd')
    as (x & y & Hx & Hxn & Hbody & _).
  destruct Hco as [oc Hoc]. rewrite Hoc in Hd.
  pose proof (applyChanges_added _ _ _ _ _ name Hnd1 Hnd2 Hd Hren Hin Hout) as Hcb. simpl in Hcb.
  apply bind_Ok_inv in Hcb as (ty & Hty & [= Hdef]).
  assert (Ok ty = Ok (VStr t)) as [= ->]
    by (rewrite <-Hty; rewrite <-Ht at 1; unfold secureParamType;
        exact (get_path_at_path schema [_; _; _; _; _] (ltac:(simpl; rewrite Ht; discriminate)))).
  rewrite <-Hxn in Hdef.
  destruct (updateSecureParam_primitive (prop (prop (module s) "secure_config_schema") "properties")
    (prop schema "properties") x name y Hx) as [[o Ho]|[Ha|Hnot]]; [| |done].
  - rewrite Ho in Hdef. by destruct (scalar_default t Hprim) as [Hno _]; destruct (Hno o).
  - rewrite <-Hdef in Ha. destruct (scalar_default t Hprim) as [_ Hna]. congruence.
Qed.

(** ** Fields used by events and actions *)

Definition known (names : list string) (v : val) : Prop := ∃ n, v = VStr n ∧ n ∈ names.

Lemma keptFields_known renamed names l : Forall (known names) (keptFields renamed names l).
Proof.
  apply Forall_forall. intros v Hv%list_elem_of_In. unfold keptFields in Hv.
  apply List.filter_In in Hv as [_ Hv]. destruct v; try done. exists s. split; [done|].
  by apply includes_spec.
Qed.

(** The fields an item lists in a schema, and in the default configuration. *)
Definition fieldsPath (item : string) : list string :=
  ["properties"; item; "allOf"; "1"; "properties"; "fields"].

Definition synced (names : list string) (acc : val * val) (item : string) : Prop :=
  ∀ l, get_path acc.1 (fieldsPath item ++ ["default"]) = Ok (VArr l) →
    Forall (known names) l ∧ get_path acc.2 [item; "fields"] = Ok (VArr l).

Lemma getq_get v k x y : getq v k = Ok x → get v k = Ok y → x = y.
Proof. unfold getq. destruct v; simpl; congruence. Qed.

(** The writes to [items], [minItems] and [maxItems] keep [default]. *)
Lemma itemFields_default fields kept f1 f2 f3 :
  set fields "default" (VArr kept) = Ok f1 →
  update_path f1 ["items"] (λ items, set items "enum" (VArr kept)) = Ok f2 →
  (if bool_decide (0 < length kept)
   then itemFields ← set f2 "maxItems" (vlen kept); set itemFields "minItems" (vlen kept)
   else Ok f2) = Ok f3 →
  get f3 "default" = Ok (VArr kept).
Proof.
  intros H1 H2 H3.
  pose proof (get_set_same _ _ _ _ H1) as Hd.
  pose proof (set_named _ "default" _ _ eq_refl H1) as Ho.
  pose proof (set_is_obj _ _ _ _ H1 Ho) as Ho1.
  apply update_path_other in H2 as [Ho2 Hg2]; [|done]. rewrite <-(Hg2 "default") in Hd by done.
  case_bool_decide; [|congruence]. step H3 as f E.
  rewrite <-(get_set_other f2 "maxItems" "default" (vlen kept) f) in Hd by done.
  pose proof (set_is_obj _ _ _ _ E Ho2).
  by rewrite <-(get_set_other f "minItems" "default" (vlen kept) f3) in Hd.
Qed.

Lemma syncItemFields_synced renamed names acc item acc' :
  syncItemFields renamed names acc item = Ok acc' → synced names acc' item.
Proof.
  unfold synced. intros H l. destruct acc as [schema d]. unfold syncItemFields in H.
  step H as fields E1. step H as def E2. rewrite get_path_app.
  assert ((∀ old, def ≠ VArr old) → acc' = (schema, d) →
    get_path acc'.1 (fieldsPath item) ≫= (λ w, get_path w ["default"]) = Ok (VArr l) → False)
    as Hkeep.
  { intros Hdef -> Hg. cbn [fst] in Hg. unfold fieldsPath in Hg. rewrite E1 in Hg.
    cbn [mbind res_bind get_path] in Hg. step Hg as x Hx. injection Hg as ->.
    by apply (Hdef l), (getq_get fields "default"). }
  destruct def as [| | | | |old|];
    try (injection H as <-; intros Hg; destruct Hkeep; done).
  clear Hkeep. step H as f1 H1. step H as f2 H2. step H as f3 H3. step H as s1 H4.
  step H as d1 H5. injection H as <-. cbn [fst snd].
  pose proof (itemFields_default _ _ _ _ _ H1 H2 H3) as Hd.
  apply update_path_inv in H4 as (x & y & _ & [= <-] & Hg4).
  apply update_path_inv in H5 as (c & c' & _ & Hc & Hg5).
  unfold fieldsPath. rewrite Hg4. cbn [mbind res_bind get_path]. rewrite Hd.
  cbn [mbind res_bind]. intros [= <-]. split; [apply keptFields_known|].
  cbn [get_path] in Hg5. step Hg5 as w E5. injection Hg5 as ->.
  cbn [mbind res_bind]. by rewrite (get_set_same _ _ _ _ Hc).
Qed.

Lemma update_nested_other v k1 k2 k2' p q f w :
  is_obj v → is_obj (prop v k1) → k2' ≠ k2 → update_path v (k1 :: k2 :: p) f = Ok w →
  get_path w (k1 :: k2' :: q) = get_path v (k1 :: k2' :: q).
Proof.
  intros Hv Hp Hne H. change (update_path v (k1 :: k2 :: p) f)
    with (get v k1 ≫= λ w, update_path w (k2 :: p) f ≫= set v k1) in H.
  rewrite get_is_obj in H by done. cbn [mbind res_bind] in H. step H as v1 E1.
  apply update_path_other in E1 as [_ Ho]; [|done].
  cbn [get_path]. rewrite (get_set_same _ _ _ _ H), (get_is_obj v) by done.
  cbn [mbind res_bind]. by rewrite Ho.
Qed.

Lemma syncItemFields_other renamed names acc item acc' other :
  schema_ok acc.1 → is_obj acc.2 → other ≠ item →
  syncItemFields renamed names acc item = Ok acc' →
  synced names acc other → synced names acc' other.
Proof.
  intros (Hg & Hp & _) Hd Hne H Hs. destruct acc as [schema d]. unfold syncItemFields in H.
  step H as fields E1. step H as def E2.
  destruct def as [| | | | |old|]; try (injection H as <-; exact Hs).
  step H as f1 H1. step H as f2 H2. step H as f3 H3. step H as s1 H4. step H as d1 H5.
  injection H as <-. intros l Hl. cbn [fst snd] in *.
  unfold fieldsPath in Hl. cbn [app] in Hl.
  rewrite (update_nested_other _ _ _ other _ _ _ _ (good_map_is_obj _ Hg)
             (good_map_is_obj _ Hp) Hne H4) in Hl.
  destruct (Hs l Hl) as [? Hf]. split; [done|]. cbn [snd] in Hf. rewrite <-Hf.
  apply update_path_other in H5 as [_ Ho]; [|done]. cbn [get_path]. by rewrite Ho.
Qed.

Lemma syncFields_synced renamed names schema d acc :
  schema_ok schema → good_map d →
  syncFields renamed names schema d = Ok acc →
  ∀ item, item ∈ keys_of (prop schema "properties") → synced names acc item.
Proof.
  intros Hs Hd H. unfold syncFields in H. pose proof Hs as (Hg & Hp & _).
  rewrite get_is_obj in H by (by apply good_map_is_obj). cbn [mbind res_bind] in H.
  assert (js_or (prop schema "properties") (VArr []) = prop schema "properties") as Hor
    by (by destruct (good_map_is_obj _ Hp) as [o ->]).
  rewrite Hor, Object_keys_good in H by done. cbn [mbind res_bind] in H.
  assert (∀ l acc0, schema_ok acc0.1 → good_map acc0.2 →
    foldM (syncItemFields renamed names) acc0 l = Ok acc →
    (∀ item, item ∈ l ∨ synced names acc0 item → synced names acc item)) as Hloop.
  2:{ intros item Hi. apply (Hloop _ (schema, d) Hs Hd H). by left. }
  clear H Hs Hd Hg Hp Hor. intros l. induction l as [|i l IH]; intros acc0 Hs Hd H item Hi.
  { injection H as <-. destruct Hi as [Hi|Hi]; [by apply elem_of_nil in Hi|done]. }
  cbn [foldM] in H. step H as acc1 E.
  assert (schema_ok acc1.1 ∧ good_map acc1.2) as [Hs1 Hd1].
  { destruct acc0 as [s0 d0], acc1 as [s1 d1].
    apply (syncItemFields_ok _ _ _ _ _ _ _ (keys_of d0) Hs) in E as [[? _] [? _]]; [done|].
    by split. }
  apply (IH acc1 Hs1 Hd1 H). rewrite elem_of_cons in Hi.
  destruct (decide (item = i)) as [->|Hne]; [right; by eapply syncItemFields_synced|].
  destruct Hi as [[?|?]|Hi]; [done|by left|right].
  eapply syncItemFields_other; [exact Hs|by apply good_map_is_obj|exact Hne|exact E|exact Hi].
Qed.

(** After [updateFieldsSchema]: every event and action lists fields of the
    module only, in its schema and in its default configuration. *)
Definition fields_known (sec : ItemSection) (names : list string) (m : val) : Prop :=
  ∀ item l, item ∈ names_of (itemEditor sec) m →
    get_path (m @@ [schemaKey sec]) (fieldsPath item ++ ["default"]) = Ok (VArr l) →
    Forall (known names) l ∧ get_path (m @@ [defaultKey sec]) [item; "fields"] = Ok (VArr l).

Lemma fields_known_intro renamed names schema d acc :
  schema_ok schema → good_map d →
  syncFields renamed names (clone schema) (clone d) = Ok acc →
  ∀ item l, item ∈ keys_of (prop acc.1 "properties") →
    get_path acc.1 (fieldsPath item ++ ["default"]) = Ok (VArr l) →
    Forall (known names) l ∧ get_path acc.2 [item; "fields"] = Ok (VArr l).
Proof.
  intros Hs Hd H item l Hi. destruct (schema_ok_clone schema Hs) as [Hc Hck].
  destruct (clone_good d Hd) as [Hcd _]. pose proof H as H'. destruct acc as [s1 d1].
  apply (syncFields_ok _ _ _ _ _ _ (keys_of d) Hs) in H' as [[_ Hk] _]; [|done].
  apply (syncFields_synced _ _ _ _ _ Hc Hcd H item). rewrite Hck. by apply Hk.
Qed.

Lemma on_updateFieldsSchema_known s schema s' :
  module_ok (module s) → schema_ok schema → on_updateFieldsSchema s schema = Ok s' →
  let names := keys_of (prop schema "properties") in
  module s' @@ ["info"; "fields"] = vstrs names ∧
  fields_known eventSection names (module s') ∧ fields_known actionSection names (module s').
Proof.
  intros Hok Hschema H names. open_module Hok. own_section Hfields.
  pose proof Hevents as (Hes & Hem & Hen). pose proof Hactions as (Has & Ham & Han).
  section_keys_in Hem. section_keys_in Ham.
  apply Forall_cons in Hem as [He0 _]. apply Forall_cons in Ham as [Ha0 _]. simpl in *.
  pose proof Hschema as (Hsg & Hsp & Hsr).
  pose proof (good_map_is_obj _ Hsg). pose proof (good_map_is_obj _ Hsp).
  unfold on_updateFieldsSchema in H. simpl in H. run_reads_in H.
  destruct (getChangesArrays _ _) as [[add rem] renamed].
  step H as p1 E1. destruct p1 as [es ed]. step H as p2 E2. destruct p2 as [as_ ad].
  step H as l0 E0. step H as l1 E3. step H as l2 E4. step H as loc E5. run_reads_in H.
  injection H as <-. rewrite module_patchSection.
  split; [rewrite prop_spread_obj by done; cbn -[prop spread]; by rewrite prop_spread_obj by done|].
  pose proof (fields_known_intro _ _ _ _ _ Hes (proj1 He0) E1) as Hke.
  pose proof (fields_known_intro _ _ _ _ _ Has (proj1 Ha0) E2) as Hka.
  split; intros item l; unfold names_of; section_keys; path_simpl; cbn [at_path]; [apply Hke|apply Hka].
Qed.

Lemma on_removeField_references s s' name key item l :
  module_ok (module s) → key ∈ ["default_event_config"; "default_action_config"] →
  on_removeField s name = Ok s' →
  get_path (module s @@ [key]) [item; "fields"] = Ok (VArr l) →
  get_path (module s' @@ [key]) [item; "fields"] = Ok (VArr l) ∧
  name ∉ names_of fieldEditor (module s') ∧
  ∀ l', module s' @@ ["info"; "fields"] = VArr l' → VStr name ∉ l'.
Proof.
  intros Hok Hkey H Hl. open_module Hok. own_section Hfields.
  destruct (names_ok_del _ _ name Hn) as (ns & Hns & Hnsok).
  destruct (del_clone_names _ name Hp) as (ps & Hps & Hpsg & Hpsk).
  unfold on_removeField in H. simpl in H. run_reads_in H. rewrite Hps in H. run_reads_in H.
  step H as l1 E1. rewrite Hns in H. run_reads_in H. injection H as <-.
  rewrite module_patchModule. split; [|split].
  - rewrite <-Hl. do 2 (apply elem_of_cons in Hkey as [->|Hkey]; [by rewrite prop_spread_obj|]).
    by apply elem_of_nil in Hkey.
  - erewrite names_of_spread_in by (first [done|reflexivity]).
    rewrite prop_spread_obj by done. cbn -[keys_of]. rewrite (Hpsk name), elem_of_without. tauto.
  - intros l' Hl'. rewrite prop_spread_obj in Hl' by done. cbn -[prop spread] in Hl'.
    rewrite prop_spread_obj in Hl' by done. cbn in Hl'. subst ns.
    destruct Hnsok as (ks & [= ->] & _ & Hks).
    intros (k & [= <-] & Hk)%list_elem_of_fmap. apply Hks, elem_of_without in Hk. tauto.
Qed.

(** ** Module editor: unsaved changes

    What the editor considers a change: the comparison of two modules
    ([compareObjects]) and the selectors of [module-edit.selectors.ts] that use
    it, followed through fetching, editing and saving. *)

(** ** compareObjects *)

Lemma compareObjects_refl v : compareObjects v v = true.
Proof. by apply bool_decide_eq_true_2. Qed.

#[export] Instance default_le_total : Total default_le.
Proof.
  intros a b. unfold default_le.
  destruct a, b; try (by left); try (by right); apply (total String.le).
Qed.

#[export] Instance default_le_trans : Transitive default_le.
Proof.
  intros a b c. unfold default_le.
  destruct a, b, c; try done; apply (transitivity (R := String.le)).
Qed.

(** The same data up to the order of the keys of objects, at any depth, and of
    the elements of arrays of strings. *)
Unset Elimination Schemes.
Inductive reordered : val → val → Prop :=
| reordered_refl v : reordered v v
| reordered_strs l1 l2 : l1 ≡ₚ l2 → reordered (vstrs l1) (vstrs l2)
| reordered_arr l1 l2 : Forall2 reordered l1 l2 → reordered (VArr l1) (VArr l2)
| reordered_obj o1 o2 :
    obj_keys o1 ≡ₚ obj_keys o2 →
    (∀ k v1 v2, obj_get k o1 = Some v1 → obj_get k o2 = Some v2 → reordered v1 v2) →
    reordered (VObj o1) (VObj o2).
Set Elimination Schemes.

Lemma sortKeys_strs l : map sortKeys (VStr <$> l) = VStr <$> l.
Proof. induction l as [|x l IH]; [done|]. simpl. f_equal. exact IH. Qed.

(** Arrays of strings are sorted, so their order does not matter. *)
Lemma sort_vals_strs l1 l2 : l1 ≡ₚ l2 → sort_vals (VStr <$> l1) = sort_vals (VStr <$> l2).
Proof.
  intros Hp. apply (StronglySorted_unique_strong default_le).
  - intros x y Hx Hy. unfold sort_vals in *.
    rewrite merge_sort_Permutation in Hx, Hy.
    apply list_elem_of_fmap in Hx as (a & -> & _). apply list_elem_of_fmap in Hy as (b & -> & _).
    simpl. intros H1 H2. f_equal. by apply (anti_symm String.le).
  - apply StronglySorted_merge_sort; apply _.
  - apply StronglySorted_merge_sort; apply _.
  - unfold sort_vals. rewrite !merge_sort_Permutation. by apply Permutation_map.
Qed.

Lemma foldl_ext {A B} (f g : A → B → A) a l :
  (∀ x b, f x b = g x b) → foldl f a l = foldl g a l.
Proof. intros H. revert a. induction l as [|b l IH]; intros a; simpl; [done|]. by rewrite H. Qed.

Lemma reordered_sortKeys v w : reordered v w → sortKeys v = sortKeys w.
Proof.
  revert w. induction v as [| | | | |l IH|o IH] using val_nested_ind; intros w H;
    inversion H as [|l1 l2 Hp Hv|l1 l2 Hf|o1 o2 Hk Hg]; subst; try done.
  - simpl. rewrite !sortKeys_strs. f_equal. by apply sort_vals_strs.
  - simpl. do 2 f_equal. clear H. induction Hf as [|v w l l2 Hvw _ IHf]; [done|].
    inversion IH; subst. simpl. f_equal; auto.
  - simpl. f_equal. change (map (λ kv, (kv.1, sortKeys kv.2)) o) with (sorted_props o).
    change (map (λ kv, (kv.1, sortKeys kv.2)) o2) with (sorted_props o2).
    rewrite !sorted_props_keys, (sort_strings_unique _ _ Hk).
    apply foldl_ext. intros acc k. f_equal. unfold obj_lookup. rewrite !sorted_props_get.
    assert (k ∈ obj_keys o ↔ k ∈ obj_keys o2) as Hkk by (by rewrite Hk).
    rewrite !elem_of_obj_keys in Hkk.
    destruct (obj_get k o) as [v1|] eqn:H1, (obj_get k o2) as [v2|] eqn:H2; simpl.
    + rewrite Forall_forall in IH. apply (IH (k, v1)); [by apply obj_get_Some_elem|by eapply Hg].
    + destruct (proj1 Hkk) as [? [=]]; by eexists.
    + destruct (proj2 Hkk) as [? [=]]; by eexists.
    + done.
Qed.

Lemma compareObjects_reordered v w : reordered v w → compareObjects v w = true.
Proof. intros H. apply bool_decide_eq_true. by rewrite (reordered_sortKeys v w H). Qed.

(** ** The dirty selectors *)

(** [v?.k], which never throws. *)
Definition field (v : val) (k : string) : val :=
  match getq v k with Ok x => x | Throw _ => VUndef end.

Lemma getq_field v k : getq v k = Ok (field v k).
Proof. unfold field, getq. destruct v; simpl; try done; by destruct (String.eqb k "length"). Qed.

(** The keys of a module the editor compares with the saved module. *)
Definition dirtyKeys : list string :=
  ["info"; "config_schema"; "default_config"; "secure_config_schema"; "secure_default_config";
   "event_config_schema"; "default_event_config"; "action_config_schema";
   "default_action_config"; "fields_schema"; "locale"; "static_dependencies"; "changelog"].

Definition differs (s : State) (k : string) : bool :=
  truthy (field (module s) k) && (truthy (field (original s) k) &&
    negb (compareObjects (field (module s) k) (field (original s) k))).

Lemma truthy_and a b : truthy (js_and a b) = truthy a && truthy b.
Proof. unfold js_and. destruct (truthy a) eqn:Ha; simpl; by rewrite ?Ha. Qed.

Lemma truthy_or a b : truthy (js_or a b) = truthy a || truthy b.
Proof. unfold js_or. destruct (truthy a) eqn:Ha; simpl; by rewrite ?Ha. Qed.

Lemma truthy_orAll l : truthy (orAll l) = existsb truthy l.
Proof.
  induction l as [|v l IH]; [done|].
  destruct l as [|w l]; [by simpl; rewrite orb_false_r|].
  change (orAll (v :: w :: l)) with (js_or v (orAll (w :: l))).
  rewrite truthy_or, IH. done.
Qed.

Lemma selectDirty_differs k s : ∃ v, selectDirty k s = Ok v ∧ truthy v = differs s k.
Proof.
  unfold selectDirty, isDirtySection. rewrite !getq_field. eexists. split; [done|].
  by rewrite !truthy_and.
Qed.

Lemma selectDirty2_differs k1 k2 s :
  ∃ v, selectDirty2 k1 k2 s = Ok v ∧ truthy v = differs s k1 || differs s k2.
Proof.
  unfold selectDirty2.
  destruct (selectDirty_differs k1 s) as (a & -> & Ha).
  destruct (selectDirty_differs k2 s) as (b & -> & Hb).
  eexists. split; [done|]. by rewrite truthy_or, Ha, Hb.
Qed.

(** The selector that guards leaving the page. *)
Lemma selectIsDirty_differs s :
  ∃ v, selectIsDirty s = Ok v ∧ truthy v = existsb (differs s) dirtyKeys.
Proof.
  unfold selectIsDirty, dirtySelectors. cbn [mapM].
  unfold selectIsDirtyGeneral, selectIsDirtyConfig, selectIsDirtySecureConfig,
    selectIsDirtyEventsConfig, selectIsDirtyActionsConfig, selectIsDirtyFieldsConfigSchema,
    selectIsDirtyLocalizationModel, selectIsDirtyStaticDependenciesModel,
    selectIsDirtyChangelogModel.
  destruct (selectDirty_differs "info" s) as (v1 & -> & H1).
  destruct (selectDirty2_differs "config_schema" "default_config" s) as (v2 & -> & H2).
  destruct (selectDirty2_differs "secure_config_schema" "secure_default_config" s)
    as (v3 & -> & H3).
  destruct (selectDirty2_differs "event_config_schema" "default_event_config" s)
    as (v4 & -> & H4).
  destruct (selectDirty2_differs "action_config_schema" "default_action_config" s)
    as (v5 & -> & H5).
  destruct (selectDirty_differs "fields_schema" s) as (v6 & -> & H6).
  destruct (selectDirty_differs "locale" s) as (v7 & -> & H7).
  destruct (selectDirty_differs "static_dependencies" s) as (v8 & -> & H8).
  destruct (selectDirty_differs "changelog" s) as (v9 & -> & H9).
  eexists. split; [reflexivity|]. rewrite truthy_orAll. cbn [existsb dirtyKeys].
  rewrite H1, H2, H3, H4, H5, H6, H7, H8, H9, !orb_assoc. done.
Qed.

Lemma not_dirty s :
  module s = original s → ∃ v, selectIsDirty s = Ok v ∧ truthy v = false.
Proof.
  intros Hm. destruct (selectIsDirty_differs s) as (v & Hv & Ht). exists v. split; [done|].
  rewrite Ht. cbn [existsb dirtyKeys].
  assert (∀ k, differs s k = false) as Hd.
  { intros k. unfold differs. by rewrite Hm, compareObjects_refl, !andb_false_r. }
  by rewrite !Hd.
Qed.
