(* ===== verification/ModuleEditOperations.v ===== *)
(** * Module editor: saving, validation, dependencies, files

    Facts about the handlers that do not edit a schema: which section an
    action validates, how the three kinds of static dependencies share one
    list, how files are opened, loaded and closed. *)

From S2P Require Import Prelude JsValue JsJson SharedUtils ModuleEditState ModuleEditConfig.
From S2P Require Import ModuleEditItems ModuleEditFields ModuleEditReducer ModuleEditSelectors.
From S2P Require Import NameMaps ModuleEditInvariant ModuleEditSafety JsString.
From S2P Require Import ModuleEditItemFacts.

(** ** Validation *)

Definition getSection (v : ValidationState) (section : ValidationSection) : bool :=
  match section with
  | SGeneral => general v
  | SConfiguration => configuration v
  | SSecureConfiguration => secureConfiguration v
  | SEvents => events v
  | SActions => actions v
  | SFields => fields v
  | SDependencies => dependencies v
  | SLocalization => localization v
  | SFiles => files_valid v
  | SChangelog => changelog_valid v
  end.

#[export] Instance ValidationSection_eq_dec : EqDecision ValidationSection.
Proof. solve_decision. Defined.

Lemma getSection_setSection v section status section' :
  getSection (setSection v section status) section' =
    if decide (section' = section) then status else getSection v section'.
Proof. by destruct section, section'. Qed.

(** The section an action marks as valid. *)
Definition validates (a : Action) : option ValidationSection :=
  match a with
  | updateGeneralSection _ => Some SGeneral
  | updateConfigSchema _ | updateDefaultConfig _ => Some SConfiguration
  | updateSecureConfigSchema _ | updateSecureDefaultConfig _ => Some SSecureConfiguration
  | updateEventsSchema _ | updateEventsDefaultConfig _ => Some SEvents
  | updateActionsSchema _ | updateActionsDefaultConfig _ => Some SActions
  | updateFieldsSchema _ => Some SFields
  | updateLocalizationModel _ => Some SLocalization
  | addReceiveDataDependency | changeReceiveDataDependencies _
  | changeSendDataDependencies _ => Some SDependencies
  | updateChangelogSection _ => Some SChangelog
  | _ => None
  end.

Definition validated (v : ValidationState) (a : Action) : ValidationState :=
  match a with
  | setValidationState section status => setSection v section status
  | reset => allValid
  | _ => match validates a with Some section => setSection v section true | None => v end
  end.

Lemma on_loading_validation s a s' :
  on_loading s a = Ok s' → validationState s' = validationState s.
Proof. destruct a; simpl; intros H; inv_res; simplify_eq; done. Qed.

Lemma on_operations_validation s a : validationState (on_operations s a) = validationState s.
Proof. by destruct a. Qed.

Lemma on_files_validation s a s' :
  on_files s a = Ok s' → validationState s' = validationState s.
Proof.
  destruct a; simpl; unfold on_loadFilesSuccess, on_saveFilesSuccess, on_closeFiles;
    intros H; inv_res; simplify_eq; done.
Qed.

Lemma on_dependencyData_validation s a :
  validationState (on_dependencyData s a) = validationState s.
Proof. by destruct a. Qed.

Lemma validation_patchModule s kvs : validationState (patchModule s kvs) = validationState s.
Proof. done. Qed.
Lemma validation_patchSection s section kvs :
  validationState (patchSection s section kvs) = setSection (validationState s) section true.
Proof. done. Qed.

(** The handlers of [on_sections]. *)
Ltac unfold_handlers :=
  unfold on_updateGeneralSection, on_addConfigParam, on_removeConfigParam,
    on_removeAllConfigParams, on_updateConfigSchema, on_updateDefaultConfig,
    on_addSecureConfigParam, on_removeSecureConfigParam, on_removeAllSecureConfigParams,
    on_updateSecureConfigSchema, on_updateSecureDefaultConfig,
    on_addEvent, on_removeEvent, on_removeAllEvents, on_updateEventsSchema,
    on_updateEventsDefaultConfig, on_addEventKey, on_removeEventKey,
    on_addAction, on_removeAction, on_removeAllActions, on_updateActionsSchema,
    on_updateActionsDefaultConfig, on_addActionKey, on_removeActionKey,
    on_addField, on_removeField, on_removeAllFields, on_updateFieldsSchema,
    on_updateLocalizationModel, on_changeAgentVersion, on_addReceiveDataDependency,
    on_changeReceiveDataDependencies, on_addSendDataDependency,
    on_changeSendDataDependencies, on_deleteChangelogRecord,
    addParam, removeParam, removeAllParams, updateParams, updateParamsDefault,
    addItem, removeItem, removeAllItems, addItemKey, removeItemKey, withItems.

(** Read off the state a handler returned. *)
Ltac handler_result :=
  intros H; repeat first [progress inv_res
    | match goal with H : (match ?x with _ => _ end) = Ok _ |- _ => destruct x eqn:? end]; simplify_eq;
  rewrite ?validation_patchSection, ?validation_patchModule; try done.

Lemma on_sections_validation s a s' :
  on_sections s a = Ok s' →
  validationState s' =
    match validates a with
    | Some section => setSection (validationState s) section true
    | None => validationState s
    end.
Proof.
  destruct a; cbn [on_sections validates]; try (by intros [= <-]);
    unfold_handlers; cbv zeta; handler_result.
Qed.

Lemma reducer_validation s a s' :
  reducer s a = Ok s' → validationState s' = validated (validationState s) a.
Proof.
  unfold reducer. intros H.
  destruct (on_loading s a) as [s1|] eqn:E1; cbn [mbind res_bind] in H; [|done].
  destruct (on_sections (on_operations s1 a) a) as [s2|] eqn:E2; cbn [mbind res_bind] in H; [|done].
  destruct (on_files s2 a) as [s3|] eqn:E3; cbn [mbind res_bind] in H; [|done].
  injection H as <-.
  apply on_loading_validation in E1. apply on_sections_validation in E2.
  apply on_files_validation in E3. rewrite on_operations_validation, E1 in E2. rewrite E2 in E3.
  rewrite <-(on_dependencyData_validation s3 a) in E3.
  by destruct a; simpl in *; rewrite ?E3.
Qed.

(** ** Dependencies *)

(** The dependencies of a kind. *)
Definition of_type (type : string) (l : list val) : list val :=
  List.filter (λ d, is_str (prop d "type") type) l.

Definition not_of_type (type : string) (l : list val) : list val :=
  List.filter (λ d, negb (is_str (prop d "type") type)) l.

Lemma otherDependencies_objs type l :
  Forall is_obj l → otherDependencies type l = Ok (not_of_type type l).
Proof.
  unfold not_of_type. induction 1 as [|d l Hd _ IH]; [done|]. cbn [otherDependencies].
  rewrite get_is_obj by done. cbn [mbind res_bind]. rewrite IH. simpl.
  by destruct (is_str (prop d "type") type).
Qed.

Lemma hasType_obj type d : is_obj d → hasType type d = Ok (is_str (prop d "type") type).
Proof. intros Hd. unfold hasType. by rewrite get_is_obj. Qed.

Lemma filterM_hasType type l :
  Forall is_obj l → filterM (hasType type) l = Ok (of_type type l).
Proof.
  unfold of_type. induction 1 as [|d l Hd _ IH]; [done|]. cbn [filterM].
  rewrite hasType_obj by done. cbn [mbind res_bind]. rewrite IH. simpl.
  by destruct (is_str (prop d "type") type).
Qed.

Lemma findM_hasType type l :
  Forall is_obj l → findM (hasType type) l = Ok (default VUndef (head (of_type type l))).
Proof.
  unfold of_type. induction 1 as [|d l Hd _ IH]; [done|]. cbn [findM].
  rewrite hasType_obj by done. simpl.
  by destruct (is_str (prop d "type") type).
Qed.

Lemma of_type_app type l1 l2 : of_type type (l1 ++ l2) = of_type type l1 ++ of_type type l2.
Proof. apply List.filter_app. Qed.

Lemma of_type_other type type' l :
  of_type type (not_of_type type' l) = if String.eqb type type' then [] else of_type type l.
Proof.
  unfold of_type, not_of_type. destruct (String.eqb_spec type type') as [->|Hne];
    (induction l as [|d l IH]; [done|]); simpl.
  - destruct (is_str (prop d "type") type') eqn:E; simpl; [done|]. by rewrite E.
  - destruct (is_str (prop d "type") type') eqn:E; simpl.
    + rewrite IH. destruct (prop d "type"); try done. simpl in *.
      apply String.eqb_eq in E as ->. by rewrite (proj2 (String.eqb_neq _ _)).
    + by rewrite IH.
Qed.

Lemma of_type_all type l :
  Forall (λ d, prop d "type" = VStr type) l → of_type type l = l.
Proof.
  unfold of_type. induction 1 as [|d l Hd _ IH]; [done|]. simpl. rewrite Hd. simpl.
  rewrite String.eqb_refl. by f_equal.
Qed.

Lemma of_type_none type type' l :
  type ≠ type' → Forall (λ d, prop d "type" = VStr type') l → of_type type l = [].
Proof.
  intros Hne. unfold of_type. induction 1 as [|d l Hd _ IH]; [done|]. simpl. rewrite Hd. simpl.
  by rewrite (proj2 (String.eqb_neq _ _)).
Qed.

Lemma Forall_not_of_type (P : val → Prop) type l : Forall P l → Forall P (not_of_type type l).
Proof.
  rewrite !Forall_forall. intros H x Hx%list_elem_of_In. apply List.filter_In in Hx as [Hx _].
  apply H. by apply list_elem_of_In.
Qed.

(** The static dependencies as the server sends them and the forms edit them. *)
Definition dependencies_are (s : State) (l : list val) : Prop :=
  is_obj (module s) ∧ prop (module s) "static_dependencies" = VArr l ∧
  is_json (VArr l) = true ∧ Forall is_obj l.

Lemma staticDependencies_are s l : dependencies_are s l → staticDependencies s = Ok (VArr l).
Proof.
  intros (Hm & Hl & Hj & _). unfold staticDependencies. rewrite get_is_obj, Hl by done.
  cbn [mbind res_bind]. by rewrite clone_json.
Qed.

Lemma selectDependencies_are s l : dependencies_are s l → selectDependencies s = Ok l.
Proof. intros (Hm & Hl & _). unfold selectDependencies. by rewrite get_is_obj, Hl. Qed.

Lemma selectors_are s l :
  dependencies_are s l →
  selectAgentVersionDependency s = Ok (default VUndef (head (of_type "agent_version" l))) ∧
  selectReceiveDataDependencies s = Ok (of_type "to_receive_data" l) ∧
  selectSendDataDependencies s = Ok (of_type "to_send_data" l).
Proof.
  intros Hl. unfold selectAgentVersionDependency, selectReceiveDataDependencies,
    selectSendDataDependencies. rewrite (selectDependencies_are s l Hl). simpl.
  destruct Hl as (_ & _ & _ & Ho). by rewrite findM_hasType, !filterM_hasType.
Qed.

Lemma withDependencies_are s l l' :
  dependencies_are s l → is_json (VArr l') = true → Forall is_obj l' →
  dependencies_are (withDependencies s l') l'.
Proof.
  intros (Hm & _) Hj Ho. unfold withDependencies, dependencies_are.
  rewrite module_patchModule. split_and!; [by eexists| |done|done].
  by rewrite prop_spread_obj.
Qed.

Lemma is_json_app l1 l2 :
  is_json (VArr l1) = true → is_json (VArr l2) = true → is_json (VArr (l1 ++ l2)) = true.
Proof. rewrite !is_json_arr, Forall_app. done. Qed.

Lemma is_json_not_of_type type l :
  is_json (VArr l) = true → is_json (VArr (not_of_type type l)) = true.
Proof. rewrite !is_json_arr. apply Forall_not_of_type. Qed.

(** ** Files *)

(** The three maps from paths are objects in every state of the editor. *)
Definition files_maps (s : State) : Prop :=
  is_obj (filesContent s) ∧ is_obj (loadFileErrors s) ∧ is_obj (saveFilesErrors s).

Lemma prop_keyed {A} (key : A → string) (value : A → val) items k :
  NoDup (key <$> items) →
  prop (keyed key value items) k =
    default VUndef (value <$> List.find (λ x, String.eqb (key x) k) items).
Proof.
  intros Hnd. unfold keyed, obj_lit. cbn [prop]. unfold obj_lookup.
  rewrite obj_get_assign_NoDup.
  - induction items as [|x items IH]; [done|]. simpl. rewrite String.eqb_sym.
    destruct (String.eqb (key x) k); [done|]. apply IH. by apply NoDup_cons in Hnd as [_ ?].
  - unfold obj_keys. rewrite <-list_fmap_compose. exact Hnd.
Qed.

Lemma is_obj_keyed {A} (key : A → string) (value : A → val) items : is_obj (keyed key value items).
Proof. by eexists. Qed.

Lemma find_NoDup {A} (key : A → string) items x :
  NoDup (key <$> items) → x ∈ items → List.find (λ y, String.eqb (key y) (key x)) items = Some x.
Proof.
  induction items as [|y items IH]; intros Hnd Hx; [by apply elem_of_nil in Hx|]. simpl.
  apply NoDup_cons in Hnd as [Hy Hnd]. apply elem_of_cons in Hx as [->|Hx].
  - by rewrite String.eqb_refl.
  - destruct (String.eqb_spec (key y) (key x)) as [He|]; [|by apply IH].
    destruct Hy. rewrite He. by apply list_elem_of_fmap_2.
Qed.

Lemma find_None_key {A} (key : A → string) items k :
  k ∉ key <$> items → List.find (λ y, String.eqb (key y) k) items = None.
Proof.
  induction items as [|y items IH]; simpl; intros Hk; [done|].
  apply not_elem_of_cons in Hk as [Hne Hk].
  rewrite (proj2 (String.eqb_neq _ _)) by congruence. by apply IH.
Qed.

(** Deleting several entries. *)
Lemma foldM_del ks v :
  is_obj v → ∃ w, foldM del v ks = Ok w ∧ is_obj w ∧
    ∀ k, prop w k = if includes k ks then VUndef else prop v k.
Proof.
  revert v. induction ks as [|k1 ks IH]; intros v Hv.
  { exists v. split_and!; [done..|]. intros k. unfold includes.
    by rewrite bool_decide_eq_false_2 by apply not_elem_of_nil. }
  destruct Hv as [o ->]. simpl.
  destruct (IH (VObj (obj_del k1 o))) as (w & Hw & Ho & Hp); [by eexists|].
  exists w. split; [done|]. split; [done|]. intros k. rewrite Hp. unfold includes.
  rewrite (bool_decide_ext (k ∈ k1 :: ks) (k = k1 ∨ k ∈ ks)) by apply elem_of_cons.
  unfold prop, obj_lookup. rewrite obj_get_del.
  destruct (String.eqb_spec k k1) as [He|He]; repeat case_bool_decide; try done; tauto.
Qed.

Lemma keyed_good {A} (key : A → string) (value : A → val) items :
  Forall (λ x, defined (value x)) items → good_map (keyed key value items).
Proof.
  intros Hd. unfold keyed, obj_lit. split; [apply obj_assign_wf, obj_wf_nil|].
  apply Forall_obj_assign; [constructor|]. by apply Forall_fmap.
Qed.

Lemma keys_of_keyed {A} (key : A → string) (value : A → val) items k :
  k ∈ keys_of (keyed key value items) ↔ k ∈ key <$> items.
Proof.
  unfold keyed, obj_lit. cbn [keys_of]. rewrite obj_keys_assign. unfold obj_keys at 1 2.
  rewrite <-list_fmap_compose, (elem_of_nil k). simpl. tauto.
Qed.

(** Entries written by path. *)
Lemma prop_spread_keyed {A} (key : A → string) (value : A → val) items v k :
  is_obj v → NoDup (key <$> items) → Forall (λ x, defined (value x)) items →
  prop (spread2 v (keyed key value items)) k =
    match List.find (λ x, String.eqb (key x) k) items with
    | Some x => value x
    | None => prop v k
    end.
Proof.
  intros Hv Hnd Hd. rewrite prop_spread2; [|done|by apply keyed_good].
  case_bool_decide as Hk; rewrite keys_of_keyed in Hk.
  - rewrite prop_keyed by done. apply list_elem_of_fmap in Hk as (x & -> & Hx).
    by rewrite (find_NoDup key items x Hnd Hx).
  - by rewrite find_None_key.
Qed.

Lemma prop_clone_obj v k : is_json v = true → prop (clone v) k = prop v k.
Proof. intros Hv. by rewrite clone_json. Qed.

(** The answer to a load opens every file with its content and forgets its
    error; other files are left alone. *)
Lemma on_loadFilesSuccess_effect s items :
  files_maps s → is_json (loadFileErrors s) = true → NoDup (path <$> items) →
  ∃ s', on_loadFilesSuccess s items = Ok s' ∧ isLoadingFile s' = false ∧
    is_obj (loadFileErrors s') ∧
    (∀ p, prop (filesContent s') p =
       match List.find (λ x, String.eqb (path x) p) items with
       | Some x => fileContent true (content x)
       | None => prop (filesContent s) p
       end) ∧
    (∀ p, prop (loadFileErrors s') p =
       if includes p (path <$> items) then VUndef else prop (loadFileErrors s) p).
Proof.
  intros (Hc & Hl & _) Hj Hnd. unfold on_loadFilesSuccess.
  destruct (foldM_del (map path items) (clone (loadFileErrors s))) as (w & Hw & Hwo & Hp);
    [by apply clone_is_obj|].
  rewrite Hw. cbn [mbind res_bind]. eexists. split; [reflexivity|]. split; [done|]. split; [done|]. split.
  - intros p. cbn. apply prop_spread_keyed; [done|done|]. by apply Forall_true.
  - intros p. cbn. by rewrite Hp, prop_clone_obj.
Qed.

Lemma on_saveFilesSuccess_effect s items :
  files_maps s → is_json (saveFilesErrors s) = true → NoDup (path <$> items) →
  ∃ s', on_saveFilesSuccess s items = Ok s' ∧ isSavingFiles s' = false ∧
    (∀ x, x ∈ items → prop (filesContent s') (path x) @@ ["content"] = VStr (content x)) ∧
    (∀ p, prop (saveFilesErrors s') p =
       if includes p (path <$> items) then VUndef else prop (saveFilesErrors s) p).
Proof.
  intros (Hc & _ & Hl) Hj Hnd. unfold on_saveFilesSuccess.
  destruct (foldM_del (map path items) (clone (saveFilesErrors s))) as (w & Hw & Hwo & Hp);
    [by apply clone_is_obj|].
  rewrite Hw. cbn [mbind res_bind]. eexists. split; [reflexivity|]. split; [done|]. split.
  - intros x Hx. cbn -[at_path prop spread2 keyed]. unfold constant. rewrite prop_spread_keyed; [|done|done|by apply Forall_true].
    by rewrite (find_NoDup path items x Hnd Hx).
  - intros p. cbn. by rewrite Hp, prop_clone_obj.
Qed.

Lemma on_closeFiles_effect s paths :
  files_maps s → is_json (filesContent s) = true →
  ∃ s', on_closeFiles s paths = Ok s' ∧
    ∀ p, prop (filesContent s') p =
      if includes p paths then VUndef else prop (filesContent s) p.
Proof.
  intros (Hc & _) Hj. unfold on_closeFiles.
  destruct (foldM_del paths (clone (filesContent s))) as (w & Hw & Hwo & Hp);
    [by apply clone_is_obj|].
  rewrite Hw. cbn [mbind res_bind]. eexists. split; [reflexivity|].
  intros p. cbn. by rewrite Hp, prop_clone_obj.
Qed.

(** ** Module editor: adding and removing an item

    Removing the item just added gives back the state the editor was in, to
    the last property and its position, and a new item changes nothing of the
    items that were there. *)

(** ** Reading and restoring updated objects *)

Lemma get_spread_in v kvs k x :
  is_obj v → obj_get k (reverse kvs) = Some x → get (spread v kvs) k = Ok x.
Proof.
  intros Hv Hk. rewrite get_is_obj by apply spread_is_obj. by rewrite prop_spread_obj, Hk.
Qed.

(** A JSON object whose updated properties are set back to their values. *)
Lemma restore v kvs kvs' :
  is_json v = true → is_obj v → obj_keys kvs = obj_keys kvs' → NoDup (obj_keys kvs) →
  Forall (λ kv, prop v kv.1 = kv.2 ∧ defined kv.2) kvs' →
  spread (spread v kvs) kvs' = v.
Proof.
  intros Hj [o ->] Hk Hnd Hf. pose proof (is_json_wf _ Hj) as Hwf.
  assert (Forall (λ kv, obj_get kv.1 o = Some kv.2) kvs') as Hf'.
  { eapply Forall_impl; [exact Hf|]. intros [k x] [<- Hd]. by apply obj_get_prop. }
  rewrite spread_spread; [apply spread_same; [done|by rewrite <-Hk|done]|done..|].
  rewrite Hk. apply Forall_fmap. eapply Forall_impl; [exact Hf'|].
  intros kv H. apply elem_of_obj_keys. simpl. rewrite H. by eexists.
Qed.

Lemma remove_added v k x :
  is_json v = true → is_obj v → is_json x = true → k ∉ keys_of v →
  del (clone (spread v [(k, x)])) k = Ok v.
Proof.
  intros Hj Hv Hx Hk. rewrite clone_json.
  - destruct Hv as [o ->]. by apply del_spread.
  - apply is_json_spread; [done|done|]. by repeat constructor.
Qed.

Lemma filter_out_last n l : VStr n ∉ l → filter_out n (VArr (l ++ [VStr n])) = Ok (VArr l).
Proof.
  intros Hn. unfold filter_out. simpl. do 2 f_equal.
  rewrite List.filter_app. simpl. rewrite String.eqb_refl. simpl. rewrite app_nil_r.
  induction l as [|v l IH]; simpl; [done|].
  apply not_elem_of_cons in Hn as [Hv Hl]. rewrite IH by done.
  destruct v; try done. simpl. destruct (String.eqb_spec s n); [by subst|done].
Qed.

Lemma is_json_locale name : is_json (getLocaleDescriptionByValue name) = true.
Proof. reflexivity. Qed.

Lemma patchModule_restore s kvs kvs' :
  spread (spread (module s) kvs) kvs' = module s → patchModule (patchModule s kvs) kvs' = s.
Proof. intros H. destruct s. unfold patchModule in *. cbn in *.
  unfold constant. by rewrite H.
Qed.

Lemma is_json_prop_obj v k : is_json v = true → is_obj (prop v k) → is_json (prop v k) = true.
Proof. intros Hv [o Ho]. apply is_json_prop; [done|]. by rewrite Ho. Qed.

Lemma mirrors_fresh names v n : mirrors_ok names v → n ∉ names → n ∉ keys_of v.
Proof. intros [_ Hk] Hn Hin. apply Hn. by apply Hk. Qed.

Lemma array_iter v : is_array v = true → ∃ l, v = VArr l.
Proof. destruct v; try done. by eexists. Qed.

(** Every JSON object the proof meets. *)
Ltac json_objs :=
  repeat match goal with
  | Hj : is_json ?v = true, Ho : is_obj (prop ?v ?k) |- _ =>
      lazymatch goal with
      | _ : is_json (prop v k) = true |- _ => fail
      | _ => pose proof (is_json_prop_obj v k Hj Ho)
      end
  end.

Lemma is_obj_defined v : is_obj v → defined v.
Proof. by intros [o ->]. Qed.

(** The side conditions of [restore]. *)
Ltac restored :=
  first [ assumption | reflexivity | by apply (bool_decide_unpack _)
        | repeat (apply Forall_cons_2;
                  [split; [done|first [done|by apply good_map_defined|by apply is_obj_defined]]|]);
          apply Forall_nil_2 ].

Lemma addItem_removeItem sec prefix isch idef s :
  sec ∈ itemSections → module_ok (module s) → is_json (module s) = true →
  is_json isch = true → is_json idef = true →
  names_small prefix (names_of (itemEditor sec) (module s)) →
  let n := getNameForNewItem (names_of (itemEditor sec) (module s)) prefix in
  (∀ l, module s @@ [schemaKey sec; "required"] = VArr l → VStr n ∉ l) →
  ∃ s1, addItem sec prefix isch idef s = Ok s1 ∧ removeItem sec s1 n = Ok s.
Proof.
  intros Hsec Hok Hj Hisch Hidef Hsm n Hreq.
  assert (n ∉ names_of (itemEditor sec) (module s)) as Hfresh
    by (by apply getNameForNewItem_not_elem).
  open_module Hok.
  pick_section Hsec; [own_section Hevents|own_section Hactions].
  all: pose proof Hn as (ns & Hns & _ & Hnsn).
  all: edestruct array_iter as (r & Hr'); [exact Hr|].
  all: assert (VStr n ∉ VStr <$> ns) as Hnns
    by (intros (? & [= <-] & Hin)%list_elem_of_fmap; by apply Hfresh, Hnsn).
  all: pose proof (Hreq _ Hr') as Hnr.
  all: pose proof (mirrors_fresh _ _ _ Hmir0 Hfresh); pose proof (mirrors_fresh _ _ _ Hmir1 Hfresh);
    pose proof (mirrors_fresh _ _ _ Hmir2 Hfresh).
  all: unfold addItem; simpl; run_reads; rewrite Hr', Hns; simpl; eexists; split; [reflexivity|].
  all: match goal with |- context [getNameForNewItem ?x ?p] =>
         change (getNameForNewItem x p) with n end.
  all: pose proof Hfresh as Hnp; unfold names_of in Hnp; simpl in Hnp.
  all: clearbody n; json_objs; unfold removeItem; rewrite module_patchModule; cbv zeta; section_keys.
  all: repeat (first
    [ erewrite get_spread_in by (first [assumption|reflexivity])
    | rewrite remove_added by (first [assumption|reflexivity])
    | rewrite filter_out_last by assumption
    | progress cbn [mbind res_bind] ]).
  all: f_equal; apply patchModule_restore.
  all: repeat (rewrite (restore (prop _ _)); [|restored..]).
  all: apply restore; restored.
Qed.


(** ** What a new item adds *)

Definition written (n : string) (x : val) (v v' : val) : Prop :=
  ∀ k, prop v' k = if String.eqb k n then x else prop v k.

Lemma written_spread v n x : is_obj v → written n x v (spread v [(n, x)]).
Proof. intros Hv k. rewrite prop_spread_obj by done. simpl. by destruct (String.eqb k n). Qed.

(** Two objects agree but for some properties. *)
Definition same_but (ks : list string) (v v' : val) : Prop := ∀ k, k ∉ ks → prop v' k = prop v k.

Lemma same_but_spread ks v kvs :
  is_obj v → kvs.*1 ⊆ ks → same_but ks v (spread v kvs).
Proof.
  intros Hv Hks k Hk. rewrite prop_spread_obj by done.
  destruct (obj_get k (reverse kvs)) as [x|] eqn:Hx; [|done]. destruct Hk. apply Hks.
  apply obj_get_Some_elem in Hx. rewrite elem_of_reverse in Hx. exact (list_elem_of_fmap_2 fst _ _ Hx).
Qed.

(** The module [m'] is [m] with one more item [n] in a section: its schema
    (with its name among the required ones), its default configuration, its
    locale and its name; the other properties of the module, of its information,
    of its locale and of the section's schema are as they were. *)
Definition adds_item (sec : ItemSection) (n : string) (isch idef m m' : val) : Prop :=
  written n isch (m @@ [schemaKey sec; "properties"]) (m' @@ [schemaKey sec; "properties"]) ∧
  (∀ l, m @@ [schemaKey sec; "required"] = VArr l →
        m' @@ [schemaKey sec; "required"] = VArr (l ++ [VStr n])) ∧
  written n idef (m @@ [defaultKey sec]) (m' @@ [defaultKey sec]) ∧
  written n (getLocaleDescriptionByValue n)
    (m @@ ["locale"; namesKey sec]) (m' @@ ["locale"; namesKey sec]) ∧
  written n (VObj []) (m @@ ["locale"; configKey sec]) (m' @@ ["locale"; configKey sec]) ∧
  (∀ l, m @@ ["info"; namesKey sec] = VArr l →
        m' @@ ["info"; namesKey sec] = VArr (l ++ [VStr n])) ∧
  same_but ["properties"; "required"] (m @@ [schemaKey sec]) (m' @@ [schemaKey sec]) ∧
  same_but [namesKey sec; configKey sec] (m @@ ["locale"]) (m' @@ ["locale"]) ∧
  same_but [namesKey sec] (m @@ ["info"]) (m' @@ ["info"]) ∧
  same_but ["info"; schemaKey sec; defaultKey sec; "locale"] m m'.

Lemma adds_item_intro sec m n isch idef ns r :
  sec ∈ itemSections → module_ok m → m @@ ["info"; namesKey sec] = VArr ns →
  (∀ l, m @@ [schemaKey sec; "required"] = VArr l → r = VArr (l ++ [VStr n])) →
  adds_item sec n isch idef m
    (spread m
      [("info", spread (prop m "info") [(namesKey sec, VArr (ns ++ [VStr n]))]);
       (schemaKey sec, spread (m @@ [schemaKey sec])
          [("properties", spread (m @@ [schemaKey sec; "properties"]) [(n, isch)]);
           ("required", r)]);
       (defaultKey sec, spread (m @@ [defaultKey sec]) [(n, idef)]);
       ("locale", spread (m @@ ["locale"])
          [(namesKey sec, spread (m @@ ["locale"; namesKey sec])
              [(n, getLocaleDescriptionByValue n)]);
           (configKey sec, spread (m @@ ["locale"; configKey sec]) [(n, VObj [])])])]).
Proof.
  intros Hsec Hok Hns Hreq. open_module Hok.
  pick_section Hsec; [own_section Hevents|own_section Hactions].
  all: unfold adds_item; section_keys; path_simpl; cbn [at_path].
  all: split; [by apply written_spread|]; split; [done|]; split; [by apply written_spread|].
  all: split; [by apply written_spread|]; split; [by apply written_spread|].
  all: split; [intros l Hl'; congruence|].
  all: split_and!; by apply same_but_spread.
Qed.

Lemma addItem_adds sec prefix isch idef s s1 :
  sec ∈ itemSections → module_ok (module s) → addItem sec prefix isch idef s = Ok s1 →
  adds_item sec (getNameForNewItem (names_of (itemEditor sec) (module s)) prefix) isch idef
    (module s) (module s1).
Proof.
  intros Hsec Hok H.
  assert (∃ ns, module s @@ ["info"; namesKey sec] = VArr ns) as [ns Hns].
  { open_module Hok.
    pick_section Hsec; [own_section Hevents|own_section Hactions]; destruct Hn as (ns & Hns & _);
      exists (VStr <$> ns); exact Hns. }
  pose proof (λ r, adds_item_intro sec (module s)
    (getNameForNewItem (names_of (itemEditor sec) (module s)) prefix) isch idef ns
    (VArr (r ++ [VStr (getNameForNewItem (names_of (itemEditor sec) (module s)) prefix)]))
    Hsec Hok Hns) as Hadd.
  open_module Hok.
  pick_section Hsec; [own_section Hevents|own_section Hactions].
  all: edestruct iter_array as (r & Hr'); [exact Hr|].
  all: revert H; unfold addItem; simpl; run_reads; rewrite Hr', Hns; simpl; intros [= <-].
  all: apply Hadd; intros l Hl'; section_keys; rewrite Hl' in Hr'; by injection Hr' as ->.
Qed.
