(* ===== verification/ModuleEditSamples.v ===== *)
(** * Module editor: sample modules

    A concrete module and concrete states of the editor, reached by running
    the reducer, on which the properties are instantiated. *)

From S2P Require Import Prelude JsString JsValue JsJson SharedUtils ModuleEditState.
From S2P Require Import ModuleEditConfig.
From S2P Require Import ModuleEditItems ModuleEditFields ModuleEditReducer ModuleEditSelectors.
From S2P Require Import NameMaps ModuleEditInvariant ModuleEditItemFacts.
From S2P Require Import ModuleEditSafety.

(** ** A concrete module *)

Definition emptySchema : val := getEmptySchema None.

Definition sampleModule : val := obj_lit [
  ("info", obj_lit [("name", VStr "sample"); ("events", VArr []); ("actions", VArr []);
                    ("fields", VArr []); ("tags", VArr [])]);
  ("config_schema", emptySchema); ("default_config", VObj []);
  ("secure_config_schema", emptySchema); ("secure_default_config", VObj []);
  ("event_config_schema", emptySchema); ("default_event_config", VObj []);
  ("action_config_schema", emptySchema); ("default_action_config", VObj []);
  ("fields_schema", emptySchema);
  ("static_dependencies", VArr []); ("changelog", VObj []);
  ("locale", obj_lit [("config", VObj []); ("secure_config", VObj []); ("events", VObj []);
     ("event_config", VObj []); ("actions", VObj []); ("action_config", VObj []);
     ("fields", VObj []); ("tags", VObj [])])].

Definition sampleState : State :=
  { initialState with module := sampleModule; original := sampleModule }.

Lemma sampleModule_ok : module_ok sampleModule.
Proof. apply (bool_decide_unpack _). vm_compute. done. Qed.

Lemma names_small_nil prefix : names_small prefix [].
Proof. intros name n Hin. by apply elem_of_nil in Hin. Qed.

(** A run of the editor: load a module, add an event, a key and a parameter. *)
Definition exec (s : State) (a : Action) : State :=
  match reducer s a with Ok s' => s' | Throw _ => s end.

Definition sampleFetch : Action := fetchModuleSuccess sampleModule (VArr []) VNull (VArr []).
Definition sampleFetched : State := exec initialState sampleFetch.
Definition sampleEvent : State := exec sampleFetched addEvent.
Definition sampleKey : State := exec sampleEvent (addEventKey "event_1").
Definition sampleParam : State := exec sampleKey addConfigParam.

Lemma sampleParam_reachable : reachable sampleParam.
Proof.
  apply (reachable_step sampleKey addConfigParam); [|exact I|vm_compute; reflexivity].
  apply (reachable_step sampleEvent (addEventKey "event_1")); [|exact I|vm_compute; reflexivity].
  apply (reachable_step sampleFetched addEvent).
  - apply (reachable_step initialState sampleFetch);
      [constructor|exact sampleModule_ok|vm_compute; reflexivity].
  - unfold action_ok.
    assert (names_of (itemEditor eventSection) (module sampleFetched) = []) as ->
      by (vm_compute; reflexivity).
    apply names_small_nil.
  - vm_compute. reflexivity.
Qed.
