(* ===== verification/ModuleEditTheorems.v ===== *)
(** * Module editor: properties

    The properties of the editor that follow from the invariant and from the
    helper lemmas of the earlier files, with concrete modules that show their
    hypotheses can hold. *)

From S2P Require Import Prelude JsString JsValue JsJson SharedUtils ModuleEditState.
From S2P Require Import ModuleEditConfig.
From S2P Require Import ModuleEditItems ModuleEditFields ModuleEditReducer ModuleEditSelectors.
From S2P Require Import NameMaps ModuleEditInvariant ModuleEditItemFacts.
From S2P Require Import ModuleEditSafety ModuleEditOperations ModuleEditDefaults.
From S2P Require Import ModuleEditSamples.

(** C1: Whatever the user does in the editor, the loaded module stays
    coherent: in each of the five sections the properties of the schema, the
    default configuration, the locale maps and the names listed in [info] are
    about the same items, and every schema keeps its shape. *)
Theorem reachable_module_ok s :
  reachable s → module s ≠ VUndef → module_ok (module s).
Proof. intros Hr Hm. by destruct (reachable_ok s Hr). Qed.

Lemma reachable_module_ok_witness :
  module_ok (module sampleParam) ∧
  names_of (itemEditor eventSection) (module sampleParam) = ["event_1"].
Proof.
  split; [|vm_compute; reflexivity].
  apply (reachable_module_ok sampleParam sampleParam_reachable). vm_compute. discriminate.
Defined.

(** ** Editing the structure of the module *)

(** The actions by which the user adds and removes items. *)
Definition structural (a : Action) : bool :=
  match a with
  | addConfigParam | removeConfigParam _ | removeAllConfigParams
  | addSecureConfigParam | removeSecureConfigParam _ | removeAllSecureConfigParams
  | addEvent | removeEvent _ | removeAllEvents
  | addAction | removeAction _ | removeAllActions
  | addField | removeField _ | removeAllFields => true
  | _ => false
  end.

(** The actions by which the user edits a schema. *)
Definition edits_schema (a : Action) : bool :=
  match a with
  | updateConfigSchema _ | updateSecureConfigSchema _ | updateEventsSchema _
  | updateActionsSchema _ | updateFieldsSchema _ => true
  | _ => false
  end.

(** Only the handler of its section reacts to such an action. *)
Lemma reducer_section s a : structural a || edits_schema a = true → reducer s a = on_sections s a.
Proof.
  intros Ha. unfold reducer. destruct a; try discriminate Ha;
    cbn [on_loading on_operations mbind res_bind]; destruct (on_sections _ _); done.
Qed.

Lemma reducer_structural s a : structural a = true → reducer s a = on_sections s a.
Proof. intros Ha. apply reducer_section. by rewrite Ha. Qed.

(** C3: On a coherent module adding an item, removing one (listed or not) and
    removing all of them never throws, in any section, and leaves a coherent
    module. *)
Theorem structural_edit_total s a :
  module_ok (module s) → action_ok (module s) a → structural a = true →
  ∃ s', reducer s a = Ok s' ∧ module_ok (module s').
Proof.
  intros Hok Ha Hst. rewrite reducer_structural by done.
  assert (configSection ∈ paramSections ∧ secureSection ∈ paramSections ∧
          eventSection ∈ itemSections ∧ actionSection ∈ itemSections) as (Pc & Ps & Ie & Ia)
    by (unfold paramSections, itemSections; rewrite !elem_of_cons; tauto).
  destruct a; try discriminate Hst; simpl in *;
    first [ by apply addParam_ok | by apply removeParam_ok | by apply removeAllParams_ok
          | by apply addItem_ok | by apply removeItem_ok | by apply removeAllItems_ok
          | by apply on_addField_ok | by apply on_removeField_ok | by apply on_removeAllFields_ok ].
Qed.

Lemma structural_edit_total_witness :
  ∃ s', reducer sampleParam (removeEvent "event_1") = Ok s' ∧ module_ok (module s').
Proof.
  apply structural_edit_total; [|exact I|reflexivity].
  apply (bool_decide_unpack _). vm_compute. exact I.
Defined.

(** ** New events and actions *)

Record ItemEditor := mkItemEditor {
  section : ItemSection;
  prefix : string;
  itemSchema : val;
  itemDefault : val;
  add : Action;
  remove : string → Action
}.

Definition itemEditors : list ItemEditor := [
  mkItemEditor eventSection "event_" newEventSchema newEventDefault addEvent removeEvent;
  mkItemEditor actionSection "action_" newActionSchema newActionDefault addAction removeAction].

Definition item_names (e : ItemEditor) (s : State) : list string :=
  names_of (itemEditor (section e)) (module s).

(** The name the next item gets. *)
Definition new_name (e : ItemEditor) (s : State) : string :=
  getNameForNewItem (item_names e s) (prefix e).

Lemma reducer_add e s :
  e ∈ itemEditors →
  reducer s (add e) = addItem (section e) (prefix e) (itemSchema e) (itemDefault e) s.
Proof. intros He. unfold itemEditors in He. pick_section He; by apply reducer_structural. Qed.

Lemma reducer_remove e s n :
  e ∈ itemEditors → reducer s (remove e n) = removeItem (section e) s n.
Proof.
  intros He. unfold itemEditors in He.
  pick_section He; by rewrite reducer_structural.
Qed.

Lemma section_of e : e ∈ itemEditors → section e ∈ itemSections.
Proof.
  intros He. unfold itemEditors in He. unfold itemSections.
  pick_section He; rewrite !elem_of_cons; simpl; tauto.
Qed.

Lemma item_json e :
  e ∈ itemEditors → is_json (itemSchema e) = true ∧ is_json (itemDefault e) = true.
Proof. intros He. unfold itemEditors in He. by pick_section He. Qed.

(** C8: In a coherent module whose item names carry no number of 2^53 or more,
    adding an event or an action gives it a name no other item has, writes its
    schema, default configuration and locale under that name, appends the name
    to the list in [info] and to the required names of the schema, and changes
    nothing else: neither the other properties of the module, of its
    information, of its locale and of the section's schema, nor the rest of
    the editor's state. *)
Theorem new_item_effect e s s1 :
  e ∈ itemEditors → module_ok (module s) → names_small (prefix e) (item_names e s) →
  reducer s (add e) = Ok s1 →
  new_name e s ∉ item_names e s ∧
  adds_item (section e) (new_name e s) (itemSchema e) (itemDefault e) (module s) (module s1) ∧
  s1 = { s with module := module s1 }.
Proof.
  intros He Hok Hsm H. rewrite reducer_add in H by done. split; [|split].
  - by apply getNameForNewItem_not_elem.
  - by apply addItem_adds; [apply section_of| |].
  - unfold addItem in H. cbv zeta in H. inv_res. by simplify_eq.
Qed.

Definition eventEditor : ItemEditor :=
  mkItemEditor eventSection "event_" newEventSchema newEventDefault addEvent removeEvent.

Lemma eventEditor_in : eventEditor ∈ itemEditors.
Proof. apply list_elem_of_here. Qed.

Lemma sampleEvent_ok : module_ok (module sampleEvent).
Proof. apply (bool_decide_unpack _). vm_compute. exact I. Qed.

Lemma sampleEvent_small : names_small (prefix eventEditor) (item_names eventEditor sampleEvent).
Proof.
  intros name n Hin Hn.
  assert (item_names eventEditor sampleEvent = ["event_1"]) as He by (vm_compute; reflexivity).
  rewrite He in Hin. apply list_elem_of_singleton in Hin as ->.
  vm_compute in Hn. injection Hn as <-. by eexists.
Qed.

Lemma new_item_effect_witness :
  new_name eventEditor sampleEvent = "event_2" ∧
  adds_item eventSection "event_2" newEventSchema newEventDefault (module sampleEvent)
    (module (exec sampleEvent addEvent)).
Proof.
  split; [vm_compute; reflexivity|].
  refine (proj1 (proj2 (new_item_effect eventEditor sampleEvent (exec sampleEvent addEvent) _ _ _ _))).
  - exact eventEditor_in.
  - exact sampleEvent_ok.
  - exact sampleEvent_small.
  - vm_compute. reflexivity.
Defined.

(** C7: In a coherent module that is plain JSON, whose item names carry no
    number of 2^53 or more, and whose schema does not already require the name
    the new item gets (a stale requirement, which would be lost): removing
    the event or the action just added succeeds and restores the state of the
    editor exactly, every value and the order of the properties. *)
Theorem add_remove_item e s :
  e ∈ itemEditors → module_ok (module s) → is_json (module s) = true →
  names_small (prefix e) (item_names e s) →
  (∀ l, module s @@ [schemaKey (section e); "required"] = VArr l → VStr (new_name e s) ∉ l) →
  ∃ s1, reducer s (add e) = Ok s1 ∧ reducer s1 (remove e (new_name e s)) = Ok s.
Proof.
  intros He Hok Hj Hsm Hr. destruct (item_json e He) as [Hs Hd].
  destruct (addItem_removeItem (section e) (prefix e) (itemSchema e) (itemDefault e) s)
    as (s1 & H1 & H2); [by apply section_of|done..|].
  exists s1. by rewrite reducer_add, reducer_remove.
Qed.

Lemma add_remove_item_witness :
  reducer (exec sampleEvent addEvent) (removeEvent "event_2") = Ok sampleEvent.
Proof.
  destruct (add_remove_item eventEditor sampleEvent) as (s1 & H1 & H2).
  - exact eventEditor_in.
  - exact sampleEvent_ok.
  - vm_compute. reflexivity.
  - exact sampleEvent_small.
  - intros l Hl. vm_compute in Hl. injection Hl as <-. vm_compute.
    intros Hin. by repeat (inversion Hin as [|? ? ? Hin']; subst; clear Hin; rename Hin' into Hin).
  - assert (s1 = exec sampleEvent addEvent) as -> by (vm_compute in H1 |- *; congruence).
    exact H2.
Defined.

(** ** Editing a schema *)

(** When the configuration schema is edited, a parameter whose type did
    not change keeps its default value; every other parameter (new, renamed or
    of another type) gets the default of its type, so renaming a parameter
    resets its value. *)
Theorem config_parameter_default s schema s' name t :
  module_ok (module s) → is_json (module s) = true → schema_ok schema → is_json schema = true →
  reducer s (updateConfigSchema schema) = Ok s' →
  schema @@ ["properties"; name; "type"] = VStr t → t ≠ PropertyType.OBJECT →
  prop (module s' @@ ["default_config"]) name =
    if is_str (module s @@ ["config_schema"; "properties"; name; "type"]) t
    then prop (module s @@ ["default_config"]) name
    else getDefaultValueByType (VStr t).
Proof.
  intros Hok Hj Hs Hjs H. rewrite reducer_section in H by done.
  by apply on_updateConfigSchema_default.
Qed.

(** The configuration with the parameter [param_1] renamed to [limit]. *)
Definition schemaWith (name : string) (property : val) : val :=
  spread emptySchema [("properties", obj_lit [(name, property)])].
Definition renamedSchema : val := schemaWith "limit" stringProperty.
Definition sampleValue : State :=
  exec sampleParam (updateDefaultConfig (obj_lit [("param_1", VStr "ten")])).

Lemma config_parameter_default_witness :
  module sampleValue @@ ["default_config"; "param_1"] = VStr "ten" ∧
  prop (module (exec sampleValue (updateConfigSchema renamedSchema)) @@ ["default_config"]) "limit"
    = VStr "".
Proof.
  split; [vm_compute; reflexivity|].
  refine (config_parameter_default sampleValue renamedSchema _ "limit" "string" _ _ _ _ _ _ _).
  - apply (bool_decide_unpack _). vm_compute. exact I.
  - vm_compute. reflexivity.
  - apply (bool_decide_unpack _). vm_compute. exact I.
  - vm_compute. reflexivity.
  - vm_compute. reflexivity.
  - reflexivity.
  - discriminate.
Defined.

(** Adding, by an edit of the schema, a secure parameter whose value is
    neither an object nor an array always throws: its default is a primitive,
    on which [server_only] cannot be written. *)
Theorem secure_parameter_added_throws s schema s' name t :
  module_ok (module s) → schema_ok schema → is_json schema = true →
  (getChangesArrays (keys_of (module s @@ ["secure_config_schema"; "properties"]))
     (keys_of (schema @@ ["properties"]))).2 = [] →
  name ∈ keys_of (schema @@ ["properties"]) →
  name ∉ keys_of (module s @@ ["secure_config_schema"; "properties"]) →
  schema @@ ["properties"; name; "properties"; "value"; "type"] = VStr t →
  t ∉ [PropertyType.OBJECT; PropertyType.ARRAY] →
  reducer s (updateSecureConfigSchema schema) ≠ Ok s'.
Proof.
  intros Hok Hs Hj Hr Hin Hout Ht Hp. rewrite reducer_section by done.
  by eapply on_updateSecureConfigSchema_added.
Qed.

Lemma secure_parameter_added_throws_witness :
  reducer sampleParam (updateSecureConfigSchema (schemaWith "token" secureProperty)) ≠ Ok sampleParam.
Proof.
  apply (secure_parameter_added_throws _ _ _ "token" "string").
  - apply (bool_decide_unpack _). vm_compute. exact I.
  - apply (bool_decide_unpack _). vm_compute. exact I.
  - vm_compute. reflexivity.
  - vm_compute. reflexivity.
  - apply (bool_decide_unpack _). vm_compute. exact I.
  - apply (bool_decide_unpack _). vm_compute. exact I.
  - reflexivity.
  - apply (bool_decide_unpack _). vm_compute. exact I.
Defined.

(** After an edit of the actions every action of the default
    configuration has the priority its schema prescribes. *)
Theorem action_priority_follows_schema s schema s' name p :
  module_ok (module s) → schema_ok schema →
  reducer s (updateActionsSchema schema) = Ok s' →
  name ∈ keys_of (prop schema "properties") →
  get_path schema ["properties"; name; "allOf"; "1"; "properties"; "priority"; "default"] = Ok p →
  module s' @@ ["default_action_config"; name; "priority"] = p.
Proof.
  intros Hok Hs H. rewrite reducer_section in H by done. by apply (on_updateActionsSchema_priority s schema).
Qed.

Lemma action_priority_follows_schema_witness :
  module (exec sampleParam (updateActionsSchema (schemaWith "block" newActionSchema)))
    @@ ["default_action_config"; "block"; "priority"] = vint 10.
Proof.
  apply (action_priority_follows_schema sampleParam (schemaWith "block" newActionSchema) _ "block").
  - apply (bool_decide_unpack _). vm_compute. exact I.
  - apply (bool_decide_unpack _). vm_compute. exact I.
  - vm_compute. reflexivity.
  - apply (bool_decide_unpack _). vm_compute. exact I.
  - vm_compute. reflexivity.
Defined.

(** C28: After an edit of the module's fields [info.fields] lists exactly the
    fields of the schema, and no event or action refers to another field: the
    fields its schema lists are fields of the module, and its default
    configuration lists the same ones. *)
Theorem fields_follow_module s schema s' :
  module_ok (module s) → schema_ok schema → reducer s (updateFieldsSchema schema) = Ok s' →
  let names := keys_of (prop schema "properties") in
  module s' @@ ["info"; "fields"] = vstrs names ∧
  fields_known eventSection names (module s') ∧ fields_known actionSection names (module s').
Proof.
  intros Hok Hs H. rewrite reducer_section in H by done.
  by apply (on_updateFieldsSchema_known s).
Qed.

(** An event that uses two fields, one of which is then renamed. *)
Definition twoFields : State := exec (exec (exec sampleFetched addEvent) addField) addField.
Definition eventUsing (fields : list string) : val := obj_lit
  [("type", VStr "object");
   ("allOf", VArr
      [obj_lit [("$ref", VStr "#/definitions/events.atomic")];
       obj_lit [("properties", obj_lit [("fields", obj_lit
          [("default", vstrs fields); ("items", obj_lit [("type", VStr "string")]);
           ("type", VStr "array")])])]])].
Definition usingFields : State :=
  exec twoFields (updateEventsSchema (schemaWith "event_1" (eventUsing ["field_1"; "field_2"]))).
Definition renamedField1 : val :=
  spread emptySchema [("properties", obj_lit [("host", stringProperty); ("field_2", stringProperty)])].

Lemma fields_follow_module_witness :
  module (exec usingFields (updateFieldsSchema renamedField1)) @@ ["info"; "fields"]
    = vstrs ["host"; "field_2"] ∧
  get_path (module (exec usingFields (updateFieldsSchema renamedField1)) @@ ["default_event_config"])
    ["event_1"; "fields"] = Ok (vstrs ["host"; "field_2"]).
Proof.
  refine (match fields_follow_module usingFields renamedField1
                  (exec usingFields (updateFieldsSchema renamedField1)) _ _ _ with
          | conj Hi (conj He _) => conj Hi (proj2 (He "event_1" [VStr "host"; VStr "field_2"] _ _))
          end).
  - apply (bool_decide_unpack _). vm_compute. exact I.
  - apply (bool_decide_unpack _). vm_compute. exact I.
  - vm_compute. reflexivity.
  - apply (bool_decide_unpack _). vm_compute. exact I.
  - vm_compute. reflexivity.
Defined.

(** Removing a field, unlike editing the fields, does not update the
    events and actions: an item that lists the field still lists it, although
    the module no longer has it. *)
Theorem removed_field_still_referenced s s' name key item l :
  module_ok (module s) → key ∈ ["default_event_config"; "default_action_config"] →
  reducer s (removeField name) = Ok s' →
  get_path (module s @@ [key]) [item; "fields"] = Ok (VArr l) → VStr name ∈ l →
  get_path (module s' @@ [key]) [item; "fields"] = Ok (VArr l) ∧
  name ∉ names_of fieldEditor (module s') ∧
  ∀ l', module s' @@ ["info"; "fields"] = VArr l' → VStr name ∉ l'.
Proof.
  intros Hok Hkey H Hl Hin. rewrite reducer_structural in H by done. simpl in H.
  by apply (on_removeField_references s).
Qed.

Lemma removed_field_still_referenced_witness :
  let s' := exec usingFields (removeField "field_1") in
  get_path (module s' @@ ["default_event_config"]) ["event_1"; "fields"]
    = Ok (vstrs ["field_1"; "field_2"]) ∧
  "field_1" ∉ names_of fieldEditor (module s') ∧
  ∀ l', module s' @@ ["info"; "fields"] = VArr l' → VStr "field_1" ∉ l'.
Proof.
  apply (removed_field_still_referenced usingFields _ _ _ _ [VStr "field_1"; VStr "field_2"]).
  - apply (bool_decide_unpack _). vm_compute. exact I.
  - apply list_elem_of_here.
  - vm_compute. reflexivity.
  - vm_compute. reflexivity.
  - apply list_elem_of_here.
Defined.
