(* ===== verification/ModuleEditSectionTheorems.v ===== *)
(** * Module editor: properties of the other sections

    Unsaved changes, validation, dependencies and open files. *)

From S2P Require Import Prelude JsValue JsJson JsonText SharedUtils ModuleEditState.
From S2P Require Import ModuleEditConfig.
From S2P Require Import ModuleEditItems.
From S2P Require Import ModuleEditFields ModuleEditReducer ModuleEditSelectors NameMaps.
From S2P Require Import ModuleEditInvariant ModuleEditSafety.
From S2P Require Import ModuleEditDefaults ModuleEditOperations ModuleEditSamples.

(** ** Unsaved changes *)

(** The same data up to the order of properties and of the elements of arrays,
    at any depth. *)
Unset Elimination Schemes.
Inductive sameData : val → val → Prop :=
| sameData_refl v : sameData v v
| sameData_arr l1 l2 l3 :
    Forall2 sameData l1 l2 → l2 ≡ₚ l3 → sameData (VArr l1) (VArr l3)
| sameData_obj o1 o2 :
    (∀ k, k ∈ obj_keys o1 ↔ k ∈ obj_keys o2) →
    (∀ k v1 v2, obj_get k o1 = Some v1 → obj_get k o2 = Some v2 → sameData v1 v2) →
    sameData (VObj o1) (VObj o2).
Set Elimination Schemes.

Lemma sortKeys_sameData v w : sortKeys v = sortKeys w → sameData v w.
Proof.
  revert w. induction v as [| | | | |l IH|o IH] using val_nested_ind; intros w H;
    destruct w as [| | | | |l'|o']; try discriminate H; try (rewrite <-H || injection H as ->; constructor);
    try (simpl in H; injection H as ->; constructor).
  - constructor.
  - constructor.
  - cbn [sortKeys] in H. injection H as H.
    assert (map sortKeys l ≡ₚ map sortKeys l') as Hp
      by (unfold sort_vals in H; by rewrite <-(merge_sort_Permutation default_le), H, merge_sort_Permutation).
    apply Permutation_map_inv in Hp as (l2 & Hl2 & Hp). apply (sameData_arr _ l2); [|by symmetry].
    clear H Hp. revert l2 Hl2. induction IH as [|x l Hx _ IHl]; intros [|y l2] Hl2; try done.
    cbn [map] in Hl2. injection Hl2 as Hxy Hl2. constructor; [by apply Hx|by apply IHl].
  - assert (∀ k, sortKeys <$> obj_get k o = sortKeys <$> obj_get k o') as Hg
      by (intros k; by rewrite <-!sortKeys_get, H).
    constructor.
    + intros k. rewrite !elem_of_obj_keys. specialize (Hg k).
      destruct (obj_get k o), (obj_get k o'); try done; split; by intros [].
    + intros k v1 v2 H1 H2. specialize (Hg k). rewrite H1, H2 in Hg. injection Hg as Hg.
      rewrite Forall_forall in IH. apply (IH (k, v1)); [by apply obj_get_Some_elem|done].
Qed.

Lemma foldl_set_wf (o' : obj val) ks acc :
  obj_wf acc → obj_wf (foldl (λ acc k, obj_set k (obj_lookup k o') acc) acc ks).
Proof. revert acc. induction ks as [|k ks IH]; intros acc Hw; [done|]. by apply IH, obj_set_wf. Qed.

Lemma sortKeys_json v : json_value v → json_value (sortKeys v).
Proof.
  induction v as [| | | | |l IH|o IH] using val_nested_ind; intros Hv; try done.
  - cbn [sortKeys]. apply json_value_arr in Hv. apply json_value_arr. unfold sort_vals.
    rewrite merge_sort_Permutation. apply Forall_fmap. rewrite Forall_forall in *. naive_solver.
  - pose proof Hv as [Hwf HF]%json_value_obj.
    set (r := own_props (sortKeys (VObj o))).
    assert (sortKeys (VObj o) = VObj r) as -> by done.
    assert (obj_wf r) as Hr by (unfold r; cbn [sortKeys own_props]; apply foldl_set_wf, obj_wf_nil).
    apply json_value_obj. split; [done|]. apply Forall_forall. intros [k x] Hin.
    apply obj_get_elem in Hin; [|done]. unfold r in Hin. rewrite sortKeys_get in Hin.
    destruct (obj_get k o) as [y|] eqn:Hy; [|done]. injection Hin as <-. cbn [snd].
    rewrite Forall_forall in IH. apply (IH (k, y)); [by apply obj_get_Some_elem|].
    by eapply json_value_get.
Qed.

Lemma compareObjects_sameData v w :
  json_value v → json_value w → compareObjects v w = true → sameData v w.
Proof.
  intros Hv Hw H. apply sortKeys_sameData. unfold compareObjects in H. apply bool_decide_eq_true in H.
  pose proof (sortKeys_json v Hv) as Hsv. pose proof (sortKeys_json w Hw) as Hsw.
  apply json_text_inj; [done..|]. unfold stringify in H.
  assert (is_undef (sortKeys v) = false ∧ is_undef (sortKeys w) = false) as [E1 E2].
  { destruct Hsv as [Hsv _], Hsw as [Hsw _]. by destruct (sortKeys v), (sortKeys w). }
  rewrite E1, E2 in H. by injection H.
Qed.

(** A section that the editor compares: it is there in the module and in the
    saved module. *)
Definition compared (s : State) (k : string) : Prop :=
  k ∈ dirtyKeys ∧ truthy (field (module s) k) = true ∧ truthy (field (original s) k) = true.

Lemma differs_compared s k : k ∈ dirtyKeys → differs s k = true →
  compared s k ∧ compareObjects (field (module s) k) (field (original s) k) = false.
Proof. unfold differs, compared. rewrite !andb_true_iff, negb_true_iff. tauto. Qed.

Lemma field_json m k : is_obj m → json_value m → truthy (field m k) = true → json_value (field m k).
Proof.
  intros [o ->] Hj Ht. unfold field, getq in *. cbn [is_nullish get] in *. unfold obj_lookup in *.
  destruct (obj_get k o) as [v|] eqn:Hv; [|done]. by eapply json_value_get.
Qed.

(** C39: For modules that are plain JSON with integers up to 2^53, the editor
    never fails to tell whether there are unsaved changes.  It misses none but
    in the order: when it reports none, every section that is there both in
    the module and in the saved module holds the same data in both, up to the
    order of properties and of the elements of arrays.  And it reports none
    when these sections differ at most in the order of properties and of the
    elements of arrays of strings, at any depth. *)
Theorem unsaved_changes s :
  is_obj (module s) → json_value (module s) → is_obj (original s) → json_value (original s) →
  ∃ v, selectIsDirty s = Ok v ∧
    (truthy v = false →
      ∀ k, compared s k → sameData (field (module s) k) (field (original s) k)) ∧
    ((∀ k, compared s k → reordered (field (module s) k) (field (original s) k)) →
      truthy v = false).
Proof.
  intros Hm Hjm Ho Hjo. destruct (selectIsDirty_differs s) as (v & Hv & Ht). exists v.
  split; [done|]. rewrite Ht. split.
  - intros Hd k (Hk & Hkm & Hko). apply compareObjects_sameData; [by apply field_json..|].
    destruct (compareObjects _ _) eqn:Hc; [done|]. apply not_true_iff_false in Hd. destruct Hd.
    apply existsb_exists. exists k. split; [by apply list_elem_of_In|].
    unfold differs. by rewrite Hkm, Hko, Hc.
  - intros Hr. apply not_true_iff_false. intros (k & Hk%list_elem_of_In & Hd)%existsb_exists.
    destruct (differs_compared s k Hk Hd) as [Hc Hcmp].
    by rewrite compareObjects_reordered in Hcmp by by apply Hr.
Qed.

(** The default configuration of the sample lists its tags in another order. *)
Definition tagged (tags : list string) : val :=
  spread (module sampleFetched) [("default_config", obj_lit [("tags", vstrs tags)])].
Definition reorderedTags : State :=
  { sampleFetched with module := tagged ["b"; "a"]; original := tagged ["a"; "b"] }.

Lemma unsaved_changes_witness :
  ∃ v, selectIsDirty reorderedTags = Ok v ∧ truthy v = false ∧
    sameData (obj_lit [("tags", vstrs ["b"; "a"])]) (obj_lit [("tags", vstrs ["a"; "b"])]).
Proof.
  destruct (unsaved_changes reorderedTags) as (v & Hv & Hs & Hr);
    [by eexists|by vm_compute|by eexists|by vm_compute|].
  assert (truthy v = false) as Ht by (vm_compute in Hv; by injection Hv as <-).
  exists v. split; [exact Hv|]. split; [exact Ht|].
  apply (Hs Ht "default_config"). split; [|by split].
  apply (bool_decide_unpack _). by vm_compute.
Defined.

(** Loading a module leaves it without unsaved changes, and so does saving
    it. *)
Theorem clean_after_load_or_save s a s' :
  reducer s a = Ok s' →
  (∃ m vs us fs, a = fetchModuleSuccess m vs us fs) ∨ a = saveModuleSuccess →
  original s' = module s' ∧ ∃ v, selectIsDirty s' = Ok v ∧ truthy v = false.
Proof.
  intros H Ha.
  assert (original s' = module s') as He.
  { destruct Ha as [(m & vs & us & fs & ->)| ->]; cbn in H; by injection H as <-. }
  split; [done|]. by apply not_dirty.
Qed.

Lemma clean_after_load_or_save_witness :
  original sampleFetched = module sampleFetched ∧
  ∃ v, selectIsDirty sampleFetched = Ok v ∧ truthy v = false.
Proof.
  apply (clean_after_load_or_save initialState sampleFetch).
  - vm_compute. reflexivity.
  - left. by repeat eexists.
Defined.

(** The comparison that finds unsaved changes ignores the order of the
    properties of an object and the order of the strings of an array, at any
    depth: reordering the tags or the required parameters is not a change. *)
Theorem reordering_is_no_change v w : reordered v w → compareObjects v w = true.
Proof. apply compareObjects_reordered. Qed.

Lemma reordering_is_no_change_witness :
  compareObjects (VObj [("tags", vstrs ["b"; "a"]); ("name", VStr "x")])
    (VObj [("name", VStr "x"); ("tags", vstrs ["a"; "b"])]) = true.
Proof.
  apply reordering_is_no_change, reordered_obj.
  - apply Permutation_swap.
  - intros k v1 v2. simpl. destruct (String.eqb_spec k "tags") as [->|Hk].
    + intros [= <-] [= <-]. apply (reordered_strs ["b"; "a"] ["a"; "b"]), Permutation_swap.
    + destruct (String.eqb k "name"); [|done]. intros [= <-] [= <-]. apply reordered_refl.
Defined.

(** ** Validation *)

(** A section is valid after an action when the action set it so, when it
    is the section the action edits as a form, when the action resets the
    editor, or when it was valid already: no action marks another section. *)
Theorem validation_after s a s' section :
  reducer s a = Ok s' →
  getSection (validationState s') section =
    match a with
    | setValidationState section' status =>
        if decide (section = section') then status else getSection (validationState s) section
    | reset => true
    | _ => bool_decide (validates a = Some section) || getSection (validationState s) section
    end.
Proof.
  intros H. rewrite (reducer_validation _ _ _ H).
  destruct a; cbn [validated validates]; rewrite ?getSection_setSection;
    try (by destruct section);
    try (case_decide as Hd; [subst|];
         [by rewrite bool_decide_eq_true_2|by rewrite bool_decide_eq_false_2 by congruence]);
    by rewrite bool_decide_eq_false_2.
Qed.

Lemma validation_after_witness :
  getSection (validationState (exec (exec sampleFetched (setValidationState SConfiguration false))
                                    (updateConfigSchema emptySchema))) SConfiguration = true.
Proof.
  rewrite (validation_after (exec sampleFetched (setValidationState SConfiguration false))
             (updateConfigSchema emptySchema)).
  - vm_compute. reflexivity.
  - vm_compute. reflexivity.
Defined.

(** ** Dependencies *)

Lemma dependencies_section s a :
  match a with
  | changeAgentVersion _ | addReceiveDataDependency | changeReceiveDataDependencies _
  | addSendDataDependency | changeSendDataDependencies _ => reducer s a = on_sections s a
  | _ => True
  end.
Proof.
  destruct a; try exact I; unfold reducer; cbn [on_loading on_operations mbind res_bind];
    by destruct (on_sections _ _).
Qed.

(** The dependencies of the three kinds a form edits. *)
Definition kinds : list string := ["agent_version"; "to_receive_data"; "to_send_data"].

Lemma others_of_type l type new type' :
  Forall (λ d, prop d "type" = VStr type) new →
  of_type type' (not_of_type type l ++ new) = if String.eqb type' type then new else of_type type' l.
Proof.
  intros Hn. rewrite of_type_app, of_type_other. destruct (String.eqb_spec type' type) as [->|Hne].
  - by apply of_type_all.
  - by rewrite (of_type_none type' type new), app_nil_r.
Qed.

(** The new dependencies of a kind that an action sets. *)
Definition sets_dependencies (a : Action) (type : string) (new : list val) : Prop :=
  match a with
  | changeReceiveDataDependencies v => v = VArr new ∧ type = "to_receive_data"
  | changeSendDataDependencies v => v = VArr new ∧ type = "to_send_data"
  | changeAgentVersion version =>
      type = "agent_version" ∧
      new = if truthy (VStr version)
            then [obj_lit [("type", VStr "agent_version"); ("min_agent_version", VStr version)]]
            else []
  | _ => False
  end.

Lemma sets_dependencies_effect s l a type new :
  dependencies_are s l → sets_dependencies a type new →
  is_json (VArr new) = true → Forall is_obj new →
  ∃ s', reducer s a = Ok s' ∧ dependencies_are s' (not_of_type type l ++ new).
Proof.
  intros Hl Ha Hj Ho. pose proof Hl as (_ & _ & Hlj & Hlo).
  assert (dependencies_are (withDependencies s (not_of_type type l ++ new))
            (not_of_type type l ++ new)) as Hw.
  { apply (withDependencies_are s l); [done|apply is_json_app; [by apply is_json_not_of_type|done]|].
    apply Forall_app. split; [by apply Forall_not_of_type|done]. }
  pose proof (dependencies_section s a) as Hsec.
  destruct a; try done; destruct Ha as [Hv1 Hv2]; subst; rewrite Hsec; cbn [on_sections];
    unfold on_changeAgentVersion, on_changeReceiveDataDependencies, on_changeSendDataDependencies;
    rewrite (staticDependencies_are s l Hl); cbn [mbind res_bind as_array];
    rewrite otherDependencies_objs by done; cbn [mbind res_bind iter];
    (eexists; split; [reflexivity|exact Hw]).
Qed.

(** Editing the list of one kind of dependencies replaces exactly the
    dependencies of that kind and leaves the other kinds as they were, in
    order; changing the agent version replaces the only one of its kind, or
    removes it when the version is empty. *)
Theorem dependency_kinds_independent s l a type new :
  dependencies_are s l → sets_dependencies a type new →
  is_json (VArr new) = true → Forall is_obj new →
  Forall (λ d, prop d "type" = VStr type) new →
  ∃ s' l', reducer s a = Ok s' ∧ selectDependencies s' = Ok l' ∧ of_type type l' = new ∧
    (∀ type', type' ≠ type → of_type type' l' = of_type type' l) ∧
    selectReceiveDataDependencies s' = Ok (of_type "to_receive_data" l') ∧
    selectSendDataDependencies s' = Ok (of_type "to_send_data" l').
Proof.
  intros Hl Ha Hj Ho Ht.
  destruct (sets_dependencies_effect s l a type new Hl Ha Hj Ho) as (s' & Hs & Hd).
  destruct (selectors_are _ _ Hd) as (_ & Hr & Hsd).
  exists s', (not_of_type type l ++ new). split_and!; try done.
  - by apply selectDependencies_are.
  - by rewrite others_of_type, String.eqb_refl by done.
  - intros type' Hne. rewrite others_of_type by done.
    by rewrite (proj2 (String.eqb_neq _ _)).
Qed.

Definition receives : list val :=
  [obj_lit [("type", VStr "to_receive_data"); ("module_name", VStr "syslog")]].
Definition sampleSends : State := exec sampleFetched addSendDataDependency.

Lemma dependency_kinds_independent_witness :
  ∃ s', reducer sampleSends (changeReceiveDataDependencies (VArr receives)) = Ok s' ∧
    selectReceiveDataDependencies s' = Ok receives ∧
    selectSendDataDependencies s' = Ok [blankDependency "to_send_data"].
Proof.
  destruct (dependency_kinds_independent sampleSends [blankDependency "to_send_data"]
              (changeReceiveDataDependencies (VArr receives)) "to_receive_data" receives)
    as (s' & l' & H & _ & Hnew & Hold & Hr & Hsd).
  - split; [by eexists|]. split; [vm_compute; reflexivity|]. split; [vm_compute; reflexivity|].
    repeat constructor. by eexists.
  - split; reflexivity.
  - vm_compute. reflexivity.
  - repeat constructor. by eexists.
  - repeat constructor.
  - exists s'. split; [exact H|]. rewrite Hr, Hsd, Hnew, Hold by discriminate.
    split; reflexivity.
Defined.

(** ** Files *)

(** Closing files forgets their contents and nothing else. *)
Theorem close_files_effect s paths :
  files_maps s → is_json (filesContent s) = true →
  ∃ s', reducer s (closeFiles paths) = Ok s' ∧
    (∀ p, prop (filesContent s') p = if includes p paths then VUndef else prop (filesContent s) p) ∧
    isLoadingFile s' = isLoadingFile s ∧ module s' = module s.
Proof.
  intros Hm Hj. destruct (on_closeFiles_effect s paths Hm Hj) as (s' & H & Hp).
  exists s'. unfold reducer. cbn [on_loading on_operations on_sections on_files mbind res_bind].
  rewrite H. split; [done|]. split; [exact Hp|].
  unfold on_closeFiles in H. inv_res. by simplify_eq.
Qed.

Definition sampleOpen : State :=
  exec sampleFetched (loadFiles "scanner" "1.0.0" ["a.lua"; "b.lua"]).

Lemma close_files_effect_witness :
  ∃ s', reducer sampleOpen (closeFiles ["a.lua"]) = Ok s' ∧
    prop (filesContent s') "a.lua" = VUndef ∧
    prop (filesContent s') "b.lua" = fileContent false "".
Proof.
  destruct (close_files_effect sampleOpen ["a.lua"]) as (s' & H & Hp & _).
  - split; [by eexists|]. split; by eexists.
  - vm_compute. reflexivity.
  - exists s'. split; [exact H|]. rewrite !Hp. split; vm_compute; reflexivity.
Defined.
