(* ===== verification/ParamForms.v ===== *)
(** * The forms of the parameter sections

    [libs/features/modules/src/lib]: how a schema becomes the items of a form
    and back, the form arrays of Angular, and the sections that tie forms to
    the store. *)

From Stdlib Require Import Ascii.
From stdpp Require Import list sorting.
From S2P Require Import Prelude JsString JsValue JsJson JsonText SharedUtils ModuleEditState.
From S2P Require Import ModuleEditConfig ModuleEditFields.
Import PropertyType.

(** ** The parameters of a schema as items of a form

    The sections of the module editor show a schema as a list of items, one per
    parameter: name, type, whether it is required, and the rest of its schema
    as JSON text ([libs/features/modules/src/lib/utils]).  This file holds the
    conversions in both directions, for plain parameters and for secure ones
    (whose schema wraps the value together with a [server_only] flag). *)

(** ** Items ([types/module-development.ts]) *)

Record ConfigurationItem := mkItem {
  name : string;
  required : bool;
  type : val;
  fields : string
}.

#[export] Instance ConfigurationItem_eta : Eta ConfigurationItem := ltac:(eta_of ConfigurationItem).

Record SecureConfigurationItem := mkSecureItem {
  secureItem : ConfigurationItem;
  serverOnly : val
}.

#[export] Instance SecureConfigurationItem_eta : Eta SecureConfigurationItem :=
  ltac:(eta_of SecureConfigurationItem).

(** [typeof v === 'object' && !Array.isArray(v)]: [null] passes. *)
Definition is_plain_object (v : val) : bool :=
  String.eqb (typeof v) "object" && negb (is_array v).

(** [Array.isArray(v) ? v : []]. *)
Definition array_or_empty (v : val) : list val := match v with VArr l => l | _ => [] end.

(** [reqs.indexOf(key) !== -1]. *)
Definition is_required (reqs : list val) (key : string) : bool :=
  existsb (λ v, is_str v key) reqs.

Definition names_of (items : list ConfigurationItem) : list string := name <$> items.

(** ** get-model-from-schema.ts *)

(** [Object.keys(p).filter(keep).reduce((res, k) => { res[k] = src[k]; ... }, {})] *)
Definition pick (keep : string → bool) (p src : val) : res val :=
  ks ← Object_keys p;
  foldM (λ acc k, v ← get src k; set acc k v) (VObj []) (List.filter keep ks).

(** The properties of a parameter that its text shows. *)
Definition in_fields (inline : bool) (k : string) : bool :=
  negb (String.eqb k "type") && (negb (String.eqb k "properties") || inline)
  && negb (String.eqb k "required").

Definition item_of (inline : bool) (reqs : list val) (name key : string) (p : val) :
    res ConfigurationItem :=
  t ← get p "type";
  rest ← pick (in_fields inline) p p;
  Ok (mkItem name (is_required reqs key) t (json_text_2 rest)).

Section make.
Context (inline : bool).

(** [make(obj, base)], with the list pushed so far.  The recursion descends
    into the schema; its depth is enough fuel. *)
Fixpoint make (fuel : nat) (model : list ConfigurationItem) (obj : val) (base : string) :
    res (list ConfigurationItem) :=
  match fuel with
  | O => Throw Unsupported
  | S fuel =>
      if negb (is_plain_object obj) then Ok model
      else
        props ← get obj "properties";
        if negb (is_plain_object props) then Ok model
        else
          reqs ← get obj "required";
          keys ← Object_keys props;
          foldM (λ model key,
            let name := if String.eqb base "" then key else base +:+ "." +:+ key in
            p ← get props key;
            item ← item_of inline (array_or_empty reqs) name key p;
            if is_str (type item) OBJECT && negb inline
            then make fuel (model ++ [item]) p name
            else Ok (model ++ [item])) model keys
  end.
End make.

Definition getModelFromSchema (schema : val) (inline : bool) : res (list ConfigurationItem) :=
  make inline (val_depth schema) [] schema "".

(** ** get-schema-from-model.ts *)

(** [Object.assign(v, src)] for the values a schema holds. *)
Definition assign_to (v src : val) : res val :=
  match v with
  | VObj o => Ok (VObj (obj_assign o (own_props src)))
  | VUndef | VNull => Throw TypeError
  | VArr _ | VStr _ => Throw Unsupported
  | VBool _ | VNum _ => Ok v
  end.

(** [try { Object.assign(v, JSON.parse(text)) } catch (e) {}] *)
Definition assign_text (v : val) (text : string) : res val :=
  match json_parse text with
  | Ok src => assign_to v src
  | Throw Unsupported => Throw Unsupported
  | Throw _ => Ok v
  end.

Definition emptyObjectSchema : val :=
  obj_lit [("type", VStr OBJECT); ("properties", obj_lit []); ("required", VArr [])].

(** [!(o is an object of type 'object')]: a path goes through it only then. *)
Definition not_object_schema (o : val) : res bool :=
  if negb (is_plain_object o) then Ok true
  else t ← get o "type"; Ok (negb (is_str t OBJECT)).

(** Update the schema at the end of a path of nested parameters; missing
    parents are created. *)
Fixpoint at_parent (obj : val) (path : list string) (f : val → res val) : res val :=
  match path with
  | [] => f obj
  | fieldName :: path =>
      props ← get obj "properties";
      o ← get props fieldName;
      missing ← not_object_schema o;
      o' ← at_parent (if missing : bool then emptyObjectSchema else o) path f;
      props' ← set props fieldName o';
      set obj "properties" props'
  end.

(** [v.k.push(x)]. *)
Definition push_to (v : val) (k : string) (x : val) : res val :=
  l ← get v k; l ← as_array l; set v k (VArr (l ++ [x])).

(** [if (!(typeof fobj[k] === 'object') || otherwise) fobj[k] = empty]. *)
Definition reset_unless_object (k : string) (otherwise : bool) (empty fobj : val) : res val :=
  v ← get fobj k;
  if negb (String.eqb (typeof v) "object") || otherwise then set fobj k empty else Ok fobj.

(** Write one item into its parent.  The test [Array.isArray(['properties'])]
    is of a literal. *)
Definition put_item (data : ConfigurationItem) (field : string) (obj : val) : res val :=
  obj ← (if required data then push_to obj "required" (VStr field) else Ok obj);
  props ← get obj "properties";
  old ← get props field;
  let fobj := if is_undef old then obj_lit [] else old in
  oldType ← get fobj "type";
  fobj ← (if negb (is_str oldType NONE) then assign_to fobj (obj_lit [("type", type data)])
          else Ok fobj);
  newType ← get fobj "type";
  fobj ← (if is_str newType OBJECT then
            fobj ← reset_unless_object "properties" (is_array (VArr [VStr "properties"]))
                     (obj_lit []) fobj;
            reset_unless_object "required" (negb (is_array (VArr [VStr "required"])))
              (VArr []) fobj
          else Ok fobj);
  fobj ← assign_text fobj (fields data);
  props ← set props field fobj;
  set obj "properties" props.

Definition item_path (inline : bool) (name : string) : list string :=
  if inline then [name] else split "."%char name.

Definition add_to_schema (inline : bool) (schema : val) (data : ConfigurationItem) : res val :=
  let path := item_path inline (name data) in
  at_parent schema (removelast path) (put_item data (List.last path "")).

Definition getSchemaFromModel (model : list ConfigurationItem)
    (additionalProperties : option bool) (inline : bool) : res val :=
  foldM (add_to_schema inline) (getEmptySchema additionalProperties) model.

(** ** get-secure-config-model-from-schema.ts *)

Section secure_make.
Context (inline : bool).

Fixpoint secure_make (fuel : nat) (model : list SecureConfigurationItem) (obj : val)
    (base : string) (root : option SecureConfigurationItem) :
    res (list SecureConfigurationItem) :=
  match fuel with
  | O => Throw Unsupported
  | S fuel =>
      if negb (is_plain_object obj) then Ok model
      else
        props ← get obj "properties";
        if negb (is_plain_object props) then Ok model
        else
          reqs ← get obj "required";
          keys ← Object_keys props;
          foldM (λ model key,
            let isRoot := String.eqb base "" in
            let name := if isRoot then key else base +:+ "." +:+ key in
            p ← get props key;
            serverOnly ← (if isRoot then get_path p ["properties"; "server_only"; "value"]
                          else Ok (match root with Some r => serverOnly r | None => VUndef end));
            type ← (if isRoot then get_path p ["properties"; "value"; "type"]
                    else get p "type");
            value ← (if isRoot then get_path p ["properties"; "value"] else Ok p);
            keys ← Object_keys value;
            rest ← foldM (λ acc k,
                     src ← get_path p ["properties"; "value"];
                     v ← get src k; set acc k v)
                   (VObj []) (List.filter (in_fields inline) keys);
            let item := mkSecureItem
              (mkItem name (is_required (array_or_empty reqs) key) type (json_text_2 rest))
              serverOnly in
            if is_str type OBJECT && negb inline
            then secure_make fuel (model ++ [item]) value name (Some item)
            else Ok (model ++ [item])) model keys
  end.
End secure_make.

Definition getSecureConfigModelFromSchema (schema : val) (inline : bool) :
    res (list SecureConfigurationItem) :=
  secure_make inline (val_depth schema) [] schema "" None.

(** ** get-secure-config-schema-from-model.ts *)

Definition secureRootSchema (data : SecureConfigurationItem) : val := obj_lit
  [("type", VStr OBJECT);
   ("properties", obj_lit
     [("server_only", obj_lit
        [("type", VStr BOOLEAN); ("value", serverOnly data);
         ("ui", obj_lit [("hidden", VBool true)]); ("enum", VArr [serverOnly data])]);
      ("value", obj_lit [("type", VStr STRING)])]);
   ("required", VArr [VStr "server_only"; VStr "value"])].

(** The object that holds the value: inside the wrapper of a root parameter,
    the parameter itself below. *)
Definition on_value (isRoot : bool) (fieldObject : val) (f : val → res val) : res val :=
  if isRoot then update_path fieldObject ["properties"; "value"] f else f fieldObject.

Definition value_of (isRoot : bool) (fieldObject : val) : res val :=
  if isRoot then get_path fieldObject ["properties"; "value"] else Ok fieldObject.

(** [valueObject.type = ...], with the content that the type asks for. *)
Definition set_value_type (type : val) (valueObject : val) : res val :=
  v ← set valueObject "type" type;
  v ← (if is_str type OBJECT then set v "properties" (obj_lit []) else Ok v);
  if is_str type ARRAY then set v "items" (VArr []) else Ok v.

Definition put_secure_field (data : SecureConfigurationItem) (isRoot : bool)
    (fieldObject : val) : res val :=
  oldType ← (v ← value_of isRoot fieldObject; get v "type");
  fo ← (if negb (is_str oldType NONE)
        then on_value isRoot fieldObject (set_value_type (type (secureItem data)))
        else Ok fieldObject);
  fo ← (if is_str oldType OBJECT then
          fo ← on_value isRoot fo (reset_unless_object "properties" false (obj_lit []));
          r ← get fo "required";
          reset_unless_object "required" (negb (is_array r)) (VArr []) fo
        else Ok fo);
  on_value isRoot fo (λ v, assign_text v (fields (secureItem data))).

Definition put_secure_root (data : SecureConfigurationItem) (field : string) (obj : val) :
    res val :=
  obj ← (if required (secureItem data) then push_to obj "required" (VStr field) else Ok obj);
  props ← get obj "properties";
  old ← get props field;
  fo ← put_secure_field data true (if is_undef old then secureRootSchema data else old);
  props ← set props field fo;
  set obj "properties" props.

(** A parameter below a root parameter [obj]: it goes into the schema of the
    value, [obj.properties.value]. *)
Definition put_secure_nested (data : SecureConfigurationItem) (field : string) (obj : val) :
    res val :=
  props ← get obj "properties";
  obj ← (if required (secureItem data) then
           if is_nullish props then Ok obj
           else update_path obj ["properties"; "value"] (λ v, push_to v "required" (VStr field))
         else Ok obj);
  value ← get_path obj ["properties"; "value"];
  inner ← get value "properties";
  old ← getq inner field;
  value ← (if is_undef old && negb (truthy inner) then set value "properties" (obj_lit [])
           else Ok value);
  fo ← put_secure_field data false (if is_undef old then emptyObjectSchema else old);
  inner ← get value "properties";
  inner ← set inner field fo;
  value ← set value "properties" inner;
  update_path obj ["properties"; "value"] (λ _, Ok value).

Definition add_to_secure_schema (inline : bool) (schema : val)
    (data : SecureConfigurationItem) : res val :=
  let path := item_path inline (name (secureItem data)) in
  let field := List.last path "" in
  at_parent schema (removelast path)
    (if bool_decide (length path = 1) then put_secure_root data field
     else put_secure_nested data field).

Definition getSecureConfigSchemaFromModel (model : list SecureConfigurationItem)
    (additionalProperties : option bool) (inline : bool) : res val :=
  foldM (add_to_secure_schema inline) (getEmptySchema additionalProperties) model.

(** ** Form arrays and [applyDiff]

    A section of the module editor keeps its items in a [FormArray] of
    Angular, one group of controls per item, and follows changes of the schema
    with [applyDiff] ([features/modules/src/lib/utils/apply-diff.ts]).  The
    form library is an interface: the operations the code uses, with their
    documented behaviour on indices that are in range.  The lemmas show what
    [applyDiff] does to the groups. *)

(** ** The form library *)

Class FormArray (A G : Type) := {
  controls : A → list G;
  removeAt : nat → A → A;
  push : G → A → A;
  setControl : nat → G → A → A
}.

Class FormArrayLaws (A G : Type) `{!FormArray A G} := {
  controls_removeAt (i : nat) (a : A) :
    i < length (controls a) → controls (removeAt i a) = base.delete i (controls a);
  controls_push (g : G) (a : A) : controls (push g a) = controls a ++ [g];
  controls_setControl (i : nat) (g : G) (a : A) :
    i < length (controls a) → controls (setControl i g a) = <[i := g]> (controls a)
}.

(** Lists of groups implement it. *)
#[export] Instance list_form_array {G} : FormArray (list G) G := {|
  controls l := l;
  removeAt i l := base.delete i l;
  push g l := l ++ [g];
  setControl i g l := <[i := g]> l
|}.

#[export] Instance list_form_array_laws {G} : FormArrayLaws (list G) G.
Proof. by split. Qed.

(** ** apply-diff.ts *)

Section apply_diff.
Context {A G T : Type} `{!FormArray A G}.
Context (keyOf : T → string) (callback : T → G).

(** [model.findIndex((item) => item[keyName] === key)]; [-1] is [None]. *)
Definition index_of (key : string) (model : list T) : option nat :=
  fst <$> list_find (λ item, keyOf item = key) model.

Definition index_desc (i j : nat) : Prop := j ≤ i.
#[local] Instance index_desc_dec : RelDecision index_desc.
Proof. unfold index_desc. intros i j. apply _. Defined.

(** Removing, then appending; neither emits.  A name that is not found would
    reach the library as the index [-1], an added name that is not found would
    reach the callback as [undefined]. *)
Definition removeNames (removed : list string) (oldModel : list T) (a : A) : res A :=
  indexes ← mapM (λ key, of_option Unsupported (index_of key oldModel)) removed;
  Ok (foldl (λ a i, removeAt i a) a (merge_sort index_desc indexes)).

Definition addNames (added : list string) (newModel : list T) (a : A) : res A :=
  foldM (λ a key,
    match list_find (λ item, keyOf item = key) newModel with
    | Some (_, param) => Ok (push (callback param) a)
    | None => Throw TypeError
    end) a added.

(** Replacing the groups of changed items; every replacement emits the value
    of the array.  The result is the array and the emitted values. *)
Definition replaceNames (changed : list string) (newModel : list T) (a : A) : res (A * list A) :=
  foldM (λ '(a, emitted) key,
    match list_find (λ item, keyOf item = key) newModel with
    | Some (index, param) =>
        let a := setControl index (callback param) a in Ok (a, emitted ++ [a])
    | None => Throw TypeError
    end) (a, []) changed.

(** [applyDiff(formArray, [added, removed, renamed, changed], ...)]; the
    renamed names play no part. *)
Definition applyDiff (a : A) (added removed : list string) (changed : option (list string))
    (oldModel newModel : list T) : res (A * list A) :=
  a ← removeNames removed oldModel a;
  a ← addNames added newModel a;
  replaceNames (default [] changed) newModel a.
End apply_diff.

(** ** What it does *)

Section lists.
Context {G : Type} (nm : G → string).

Lemma filter_other (l : list G) k :
  k ∉ nm <$> l → filter (λ x, nm x ≠ k) l = l.
Proof.
  induction l as [|x l IH]; intros Hk; [done|].
  apply not_elem_of_cons in Hk as [Hx Hk]. rewrite filter_cons_True by done. by rewrite IH.
Qed.

Lemma delete_filter (l : list G) i g :
  NoDup (nm <$> l) → l !! i = Some g →
  base.delete i l = filter (λ x, nm x ≠ nm g) l.
Proof.
  revert i. induction l as [|x l IH]; intros [|i] Hnd Hi; simplify_eq/=;
    apply NoDup_cons in Hnd as [Hx Hnd].
  - rewrite filter_cons_False by (intros H; by apply H). by rewrite filter_other.
  - rewrite filter_cons_True.
    + unfold base.delete in IH |- *. simpl. f_equal. by apply IH.
    + intros Heq. apply Hx. rewrite Heq. apply list_elem_of_fmap_2.
      by apply list_elem_of_lookup_2 in Hi.
Qed.

(** Deleting positions in descending order deletes the names at them. *)
Lemma delete_all_filter (idx : list nat) (l : list G) names :
  NoDup (nm <$> l) → StronglySorted (λ i j, j < i) idx →
  Forall2 (λ i k, (nm <$> l) !! i = Some k) idx names →
  foldl (λ l i, base.delete i l) l idx = filter (λ x, nm x ∉ names) l.
Proof.
  intros Hnd Hs HF. revert l Hnd HF. revert names.
  induction Hs as [|i idx _ IH Hi]; intros names l Hnd HF; inversion HF as [|? k ? ks Hk HF']; subst.
  - simpl. symmetry. clear. induction l as [|x l IH]; [done|].
    rewrite filter_cons_True; [by rewrite IH|]. by intros []%elem_of_nil.
  - simpl. rewrite list_lookup_fmap in Hk. apply fmap_Some in Hk as (g & Hg & ->).
    pose proof (delete_filter l i g Hnd Hg) as Hd. rewrite Hd.
    rewrite (IH ks).
    + rewrite list_filter_filter. apply list_filter_iff. intros x.
      rewrite not_elem_of_cons. tauto.
    + apply (sublist_NoDup _ (nm <$> l)); [done|]. apply fmap_sublist, sublist_filter.
    + apply Forall2_lookup. intros j. rewrite Forall2_lookup in HF'. specialize (HF' j).
      destruct (idx !! j) as [m|] eqn:Hm; inversion HF' as [? k' Hk'|]; subst; constructor.
      rewrite Forall_forall in Hi. assert (m < i) by (apply Hi; by eapply list_elem_of_lookup_2).
      rewrite <-Hd. rewrite list_lookup_fmap in Hk' |- *. by rewrite list_lookup_delete_lt.
Qed.
End lists.

Lemma index_of_lookup {T} (keyOf : T → string) key model i :
  index_of keyOf key model = Some i → (keyOf <$> model) !! i = Some key.
Proof.
  unfold index_of. intros ((j & x) & Hf & ->)%fmap_Some.
  apply list_find_Some in Hf as (Hx & Hk & _). simpl in Hk |- *.
  rewrite list_lookup_fmap, Hx. simpl. by f_equal.
Qed.

Lemma list_find_key {T} (keyOf : T → string) key model :
  key ∈ keyOf <$> model →
  ∃ i x, list_find (λ item, keyOf item = key) model = Some (i, x)
         ∧ model !! i = Some x ∧ keyOf x = key.
Proof.
  intros (x & Hk & Hx)%list_elem_of_fmap.
  assert (is_Some (list_find (λ item, keyOf item = key) model)) as [[i y] Hf].
  { by eapply list_find_elem_of. }
  apply list_find_Some in Hf as Hy. exists i, y. naive_solver.
Qed.

Lemma index_of_Some {T} (keyOf : T → string) key model :
  key ∈ keyOf <$> model → ∃ i, index_of keyOf key model = Some i.
Proof.
  intros (i & x & Hf & _)%list_find_key. exists i. unfold index_of. by rewrite Hf.
Qed.

Section apply_diff_facts.
Context {A G T : Type} `{FormArrayLaws A G}.
Context (keyOf : T → string) (callback : T → G) (nm : G → string).
Context (nm_callback : ∀ x, nm (callback x) = keyOf x).

Lemma controls_removeAll idx a :
  StronglySorted (λ i j, j < i) idx → Forall (λ i, i < length (controls a)) idx →
  controls (foldl (λ a i, removeAt i a) a idx)
  = foldl (λ l i, base.delete i l) (controls a) idx.
Proof.
  intros Hs. revert a. induction Hs as [|i idx _ IH Hi]; intros a Hr; [done|].
  apply Forall_cons_1 in Hr as [Hir Hr]. simpl.
  rewrite IH; [by rewrite controls_removeAt|].
  rewrite controls_removeAt by done. apply Forall_forall. intros j Hj.
  rewrite Forall_forall in Hi. pose proof (Hi j Hj).
  rewrite length_delete by by apply lookup_lt_is_Some. lia.
Qed.

Lemma removeNames_filter removed oldModel a :
  NoDup removed → keyOf <$> oldModel = nm <$> controls a → NoDup (nm <$> controls a) →
  (∀ k, k ∈ removed → k ∈ nm <$> controls a) →
  ∃ a', removeNames keyOf removed oldModel a = Ok a'
        ∧ controls a' = filter (λ g, nm g ∉ removed) (controls a).
Proof.
  intros Hrem Hal Hnd Hsub. unfold removeNames.
  assert (∃ idx, mapM (λ key, of_option Unsupported (index_of keyOf key oldModel)) removed = Ok idx
    ∧ Forall2 (λ k i, (nm <$> controls a) !! i = Some k) removed idx) as (idx & -> & HF).
  { clear Hrem. induction removed as [|k removed IH]; [by exists []|].
    destruct IH as (idx & Hidx & HF).
    { intros k' Hk'. apply Hsub. by apply list_elem_of_further. }
    destruct (index_of_Some keyOf k oldModel) as [i Hi].
    { rewrite Hal. apply Hsub, list_elem_of_here. }
    exists (i :: idx). cbn [mapM]. rewrite Hi, Hidx. split; [done|]. constructor; [|done].
    rewrite <-Hal. by apply index_of_lookup in Hi. }
  eexists. split; [done|].
  set (sorted := merge_sort index_desc idx).
  assert (sorted ≡ₚ idx) as Hp by apply merge_sort_Permutation.
  assert (NoDup idx) as Hni.
  { apply NoDup_alt. intros i j x Hi Hj. rewrite Forall2_lookup in HF.
    pose proof (HF i) as H1. pose proof (HF j) as H2. rewrite Hi in H1. rewrite Hj in H2.
    inversion H1 as [k1 ? Hk1 E1|]; inversion H2 as [k2 ? Hk2 E2|]; subst.
    rewrite Hk1 in Hk2. simplify_eq. by apply (NoDup_lookup removed i j k2). }
  assert (StronglySorted (λ i j, j < i) sorted) as Hs.
  { assert (StronglySorted index_desc sorted) as Hsd.
    { apply StronglySorted_merge_sort; unfold index_desc.
      - intros i j k. lia.
      - intros i j. lia. }
    assert (NoDup sorted) as Hns by by rewrite Hp. revert Hns.
    clear Hp. induction Hsd as [|i l _ IH HF']; [constructor|].
    intros [Hi Hl]%NoDup_cons. constructor; [auto|].
    eapply Forall_impl; [apply Forall_forall; intros j Hj; exact (conj Hj (proj1 (Forall_forall _ _) HF' j Hj))|].
    simpl. unfold index_desc. intros j [Hj Hle]. assert (i ≠ j) by (by intros ->). lia. }
  assert (∃ ks, ks ≡ₚ removed ∧ Forall2 (λ i k, (nm <$> controls a) !! i = Some k) sorted ks)
    as (ks & Hks & HF').
  { clear Hs Hni. revert HF. generalize sorted, Hp. clear. intros sorted Hp HF.
    apply Forall2_flip in HF. destruct (Permutation_Forall2 (symmetry Hp) HF) as (ks & Hks & Hf).
    exists ks. by split. }
  rewrite controls_removeAll; [|done|].
  - rewrite (delete_all_filter nm sorted _ ks) by done.
    apply list_filter_iff. intros x. by rewrite Hks.
  - apply Forall_lookup. intros i j Hi. rewrite Forall2_lookup in HF'. specialize (HF' i).
    rewrite Hi in HF'. inversion HF' as [? k Hk|]; subst. apply lookup_lt_Some in Hk.
    by rewrite length_fmap in Hk.
Qed.

Lemma addNames_push added newModel a :
  (∀ k, k ∈ added → k ∈ keyOf <$> newModel) →
  ∃ a' gs, addNames keyOf callback added newModel a = Ok a'
    ∧ controls a' = controls a ++ (callback <$> gs)
    ∧ keyOf <$> gs = added ∧ Forall (λ x, x ∈ newModel) gs.
Proof.
  revert a. induction added as [|k added IH]; intros a Hin.
  { exists a, []. by rewrite app_nil_r. }
  destruct (list_find_key keyOf k newModel) as (i & x & Hf & Hx & Hk).
  { apply Hin, list_elem_of_here. }
  destruct (IH (push (callback x) a)) as (a' & gs & Ha & Hc & Hn & Hgs).
  { intros k' Hk'. by apply Hin, list_elem_of_further. }
  exists a', (x :: gs). unfold addNames in *. cbn [foldM]. rewrite Hf. cbn [mbind res_bind].
  split; [done|]. rewrite Hc, controls_push, <-app_assoc. split; [done|]. split.
  - by rewrite fmap_cons, Hn, Hk.
  - constructor; [|done]. by eapply list_elem_of_lookup_2.
Qed.

Lemma applyDiff_replace changed oldModel newModel a :
  applyDiff keyOf callback a [] [] (Some changed) oldModel newModel
  = replaceNames keyOf callback changed newModel a.
Proof. done. Qed.

(** Lists whose elements come from [l], or from the model at their place. *)
Definition mixed (newModel : list T) (l l' : list G) : Prop :=
  nm <$> l' = nm <$> l
  ∧ ∀ i, l' !! i = l !! i ∨ l' !! i = callback <$> newModel !! i.

Lemma mixed_refl newModel l : mixed newModel l l.
Proof. split; [done|]. by left. Qed.

Lemma mixed_insert newModel l l' i x :
  keyOf <$> newModel = nm <$> l → mixed newModel l l' → newModel !! i = Some x →
  mixed newModel l (<[i := callback x]> l').
Proof.
  intros Hal [Hn Hm] Hx.
  assert ((nm <$> l') !! i = Some (keyOf x)) as Hi.
  { by rewrite Hn, <-Hal, list_lookup_fmap, Hx. }
  assert (i < length l') as Hlt.
  { apply lookup_lt_Some in Hi. by rewrite length_fmap in Hi. }
  split.
  - rewrite <-Hn. rewrite list_fmap_insert, nm_callback. by apply list_insert_id.
  - intros j. destruct (decide (i = j)) as [<-|Hne].
    + right. rewrite list_lookup_insert_eq by done. by rewrite Hx.
    + rewrite list_lookup_insert_ne by done. apply Hm.
Qed.

(** Replacing groups by those of the model emits the array as often; the last
    value emitted is the final one. *)
Lemma replaceNames_mixed changed newModel a :
  keyOf <$> newModel = nm <$> controls a → (∀ k, k ∈ changed → k ∈ nm <$> controls a) →
  ∃ a' emitted, replaceNames keyOf callback changed newModel a = Ok (a', emitted)
    ∧ mixed newModel (controls a) (controls a')
    ∧ Forall (λ e, mixed newModel (controls a) (controls e)) emitted
    ∧ length emitted = length changed
    ∧ last (a :: emitted) = Some a'.
Proof.
  intros Hal Hsub. unfold replaceNames.
  assert (∀ a1 em, mixed newModel (controls a) (controls a1) →
    Forall (λ e, mixed newModel (controls a) (controls e)) em → last (a :: em) = Some a1 →
    ∃ a' em', foldM (λ '(a, emitted) key,
        match list_find (λ item, keyOf item = key) newModel with
        | Some (index, param) =>
            let a := setControl index (callback param) a in Ok (a, emitted ++ [a])
        | None => Throw TypeError
        end) (a1, em) changed = Ok (a', em')
      ∧ mixed newModel (controls a) (controls a')
      ∧ Forall (λ e, mixed newModel (controls a) (controls e)) em'
      ∧ length em' = length em + length changed
      ∧ last (a :: em') = Some a') as Hloop.
  { revert Hsub. induction changed as [|k changed IH]; intros Hsub a1 em Hm Hem Hl.
    { exists a1, em. simpl. rewrite Nat.add_0_r. done. }
    destruct (list_find_key keyOf k newModel) as (i & x & Hf & Hx & Hk).
    { rewrite Hal. apply Hsub, list_elem_of_here. }
    set (a2 := setControl i (callback x) a1).
    assert (controls a2 = <[i := callback x]> (controls a1)) as Hc.
    { apply controls_setControl. destruct Hm as [Hn _].
      assert ((nm <$> controls a1) !! i = Some (keyOf x)) as Hi.
      { by rewrite Hn, <-Hal, list_lookup_fmap, Hx. }
      apply lookup_lt_Some in Hi. by rewrite length_fmap in Hi. }
    assert (mixed newModel (controls a) (controls a2)) as Hm2.
    { rewrite Hc. by apply mixed_insert. }
    destruct (IH (λ k' Hk', Hsub k' (list_elem_of_further _ _ _ Hk')) a2 (em ++ [a2]))
      as (a' & em' & Hf' & Hm' & Hem' & Hlen & Hl'); [done| | |].
    - apply Forall_app. split; [done|by apply List.Forall_cons].
    - change (a :: em ++ [a2]) with ((a :: em) ++ [a2]). by rewrite last_snoc.
    - exists a', em'. cbn [foldM]. rewrite Hf. cbn [mbind res_bind].
      split; [done|]. split; [done|]. split; [done|]. split; [|done].
      rewrite Hlen, length_app. simpl. lia. }
  destruct (Hloop a []) as (a' & em & H1 & H2 & H3 & H4 & H5);
    [apply mixed_refl|done|done|].
  by exists a', em.
Qed.
End apply_diff_facts.

(** ** Forms of parameter lists

    The configuration, secure configuration and fields sections of the module
    editor ([edit-config-section], [edit-secure-config-section],
    [edit-fields-section]): a form of items that follows the schema in the
    store ([onSchema], the first subscription of [ngOnInit]) and sends the
    schema of its items back when the user edits them ([onValue], the second
    one).  [settle] is the loop of the two through the queue of NgRx, which
    handles one action at a time.

    Selectors emit when the value they select is a new object; the model runs
    the subscriber after every update of the section, which is a superset: for
    an unchanged schema it changes nothing. *)

(** ** Groups of controls *)

(** A group of the form array: the value of its controls, and whether they are
    disabled. *)
Record Group (T : Type) := mkGroup { value : T; disabled : bool }.
Arguments mkGroup {T} _ _.
Arguments value {T} _.
Arguments disabled {T} _.

(** [getParamFormGroup], [getFieldFormGroup]: every control is disabled in a
    section that is read only. *)
Definition getParamFormGroup {T} (readOnly : bool) (param : T) : Group T :=
  mkGroup param readOnly.

(** What tells the sections apart. *)
Record Section_ (T : Type) := mkSection {
  itemName : T → string;
  itemType : T → val;
  toModel : val → res (list T);
  toSchema : list T → res val;
  schemaNames : val → list T → res (list string);
  schemaOf : State → val;
  updateSchema : State → val → res State
}.
Arguments mkSection {T} _ _ _ _ _ _ _.
Arguments itemName {T} _ _.
Arguments itemType {T} _ _.
Arguments toModel {T} _ _.
Arguments toSchema {T} _ _.
Arguments schemaNames {T} _ _ _.
Arguments schemaOf {T} _ _.
Arguments updateSchema {T} _ _ _.

(** [Object.keys(schema.properties)]. *)
Definition propertyNames (schema : val) : res (list string) :=
  p ← get schema "properties"; Object_keys p.

Definition EditConfigSection : Section_ ConfigurationItem := {|
  itemName := name;
  itemType := type;
  toModel schema := getModelFromSchema schema true;
  toSchema params := getSchemaFromModel params (Some false) true;
  schemaNames _ model := Ok (names_of model);
  schemaOf s := prop (module s) "config_schema";
  updateSchema := on_updateConfigSchema
|}.

Definition EditFieldsSection : Section_ ConfigurationItem := {|
  itemName := name;
  itemType := type;
  toModel schema := getModelFromSchema schema true;
  toSchema params := getSchemaFromModel params (Some true) true;
  schemaNames schema _ := propertyNames schema;
  schemaOf s := prop (module s) "fields_schema";
  updateSchema := on_updateFieldsSchema
|}.

Definition EditSecureConfigSection : Section_ SecureConfigurationItem := {|
  itemName item := name (secureItem item);
  itemType item := type (secureItem item);
  toModel schema := getSecureConfigModelFromSchema schema true;
  toSchema params := getSecureConfigSchemaFromModel params (Some false) false;
  schemaNames _ model := Ok ((λ item, name (secureItem item)) <$> model);
  schemaOf s := prop (module s) "secure_config_schema";
  updateSchema := on_updateSecureConfigSchema
|}.

Section forms.
Context {A T : Type} `{!FormArray A (Group T)}.
Context (sec : Section_ T) (readOnly : bool).

(** [model.find(({ name }) => name === key)]. *)
Definition find_item (key : string) (model : list T) : option T :=
  snd <$> list_find (λ item, itemName sec item = key) model.

(** The names of [names] whose item has another type than before. *)
Definition changedTypes (names : list string) (model oldModel : list T) : list string :=
  List.filter (λ propName,
    match find_item propName model, find_item propName oldModel with
    | Some prop, Some propFromOldModel =>
        negb (strict_eq (itemType sec prop) (itemType sec propFromOldModel))
    | _, _ => false
    end) names.

(** The first subscription of [ngOnInit]: the array after it, the values it
    emitted, and the selected tab when a parameter was added. *)
Definition onSchema (oldSchema : option val) (schema : val) (form : A) :
    res (A * list A * option nat) :=
  let prevSchema := default (getEmptySchema None) oldSchema in
  oldModel ← toModel sec prevSchema;
  model ← toModel sec schema;
  namesOld ← schemaNames sec prevSchema oldModel;
  names ← schemaNames sec schema model;
  let '(added, removed, _) := getChangesArrays namesOld names in
  let changed := changedTypes names model oldModel in
  r ← applyDiff (itemName sec) (getParamFormGroup readOnly) form added removed (Some changed)
        oldModel model;
  Ok (r.1, r.2, if bool_decide (added = []) then None else Some (length names - 1)).

Definition values (form : A) : list T := value <$> controls form.

(** The second subscription: the schema to store, unless two items have the
    same name. *)
Definition onValue (params : list T) : option (res val) :=
  let names := itemName sec <$> params in
  let hasOverlappedNames := bool_decide (length (remove_dups names) < length names) in
  if hasOverlappedNames then None else Some (toSchema sec params).

(** The actions an emitted value leads to.  An exception of the subscriber is
    reported and dispatches nothing. *)
Definition dispatched (params : list T) : res (list val) :=
  match onValue params with
  | None => Ok []
  | Some (Ok schema) => Ok [schema]
  | Some (Throw Unsupported) => Throw Unsupported
  | Some (Throw _) => Ok []
  end.

(** ** The section and the store *)

Record Editor := mkEditor {
  store : State;
  form : A;
  shown : option val      (* the schema emitted last *)
}.

(** The section changed in the store: the form follows, and its emitted values
    are schemas to store. *)
Definition follow (ed : Editor) (s : State) : res (Editor * list val) :=
  '(form', emitted, _) ← onSchema (shown ed) (schemaOf sec s) (form ed);
  more ← mapM dispatched (values <$> emitted);
  Ok (mkEditor s form' (Some (schemaOf sec s)), concat more).

(** The store takes a schema. *)
Definition handle (ed : Editor) (schema : val) : res (Editor * list val) :=
  s ← updateSchema sec (store ed) schema; follow ed s.

(** Handle the queued updates of the schema, oldest first; [None] when the
    fuel does not suffice. *)
Fixpoint settle (fuel : nat) (ed : Editor) (queue : list val) : option (res Editor) :=
  match queue with
  | [] => Some (Ok ed)
  | schema :: queue =>
      match fuel with
      | O => None
      | Datatypes.S fuel =>
          match handle ed schema with
          | Throw e => Some (Throw e)
          | Ok (ed, more) => settle fuel ed (queue ++ more)
          end
      end
  end.

(** The user edits the controls: the array now has other values. *)
Definition edit (fuel : nat) (ed : Editor) (form' : A) : option (res Editor) :=
  match dispatched (values form') with
  | Throw e => Some (Throw e)
  | Ok queue => settle fuel (mkEditor (store ed) form' (shown ed)) queue
  end.

(** Another action of the store changed the section: a parameter was added or
    removed with the buttons, or the module was loaded. *)
Definition storeChanged (fuel : nat) (ed : Editor) (s : State) : option (res Editor) :=
  match follow ed s with
  | Throw e => Some (Throw e)
  | Ok (ed, queue) => settle fuel ed queue
  end.
End forms.
