(* ===== verification/FormFacts.v ===== *)
(** * Facts about the conversions between schemas and form items

    For the inline conversions, which the sections use: the schema built from
    a list of items in closed form, and the items read from a schema. *)

From S2P Require Import Prelude JsString JsValue JsJson JsonText SharedUtils.
From S2P Require Import ParamForms.
Import PropertyType.

(** ** Schemas of forms *)

(** The schema of a section: its properties, the required ones, and whether
    others are allowed. *)
Definition schema_form (props : obj val) (reqs : list string) (ap : option bool) : val :=
  VObj ([("type", VStr OBJECT); ("properties", VObj props); ("required", vstrs reqs)]
        ++ match ap with Some b => [("additionalProperties", VBool b)] | None => [] end).

Lemma getEmptySchema_form ap : getEmptySchema ap = schema_form [] [] ap.
Proof. by destruct ap as [[]|]. Qed.

Lemma schema_form_properties props reqs ap :
  prop (schema_form props reqs ap) "properties" = VObj props.
Proof. done. Qed.

(** The property a fresh item becomes. *)
Definition item_base (data : ConfigurationItem) : obj val :=
  if is_str (type data) OBJECT
  then [("type", type data); ("properties", VObj []); ("required", VArr [])]
  else [("type", type data)].

Definition item_property (data : ConfigurationItem) : res (obj val) :=
  match json_parse (fields data) with
  | Ok src => Ok (obj_assign (item_base data) (own_props src))
  | Throw Unsupported => Throw Unsupported
  | Throw _ => Ok (item_base data)
  end.

Lemma item_base_wf data : obj_wf (item_base data).
Proof.
  unfold item_base. destruct (is_str (type data) OBJECT).
  - apply (obj_assign_wf [] [("type", type data); ("properties", VObj []); ("required", VArr [])]).
    apply obj_wf_nil.
  - apply (obj_assign_wf [] [("type", type data)]). apply obj_wf_nil.
Qed.

Lemma item_property_wf data o : item_property data = Ok o → obj_wf o.
Proof.
  unfold item_property.
  destruct (json_parse (fields data)) as [src|[]]; intros ?; simplify_eq;
    auto using item_base_wf, obj_assign_wf.
Qed.

(** Writing an item whose name is new. *)
Lemma put_item_fresh data field props reqs ap :
  field ∉ obj_keys props →
  put_item data field (schema_form props reqs ap) =
    o ← item_property data;
    Ok (schema_form (obj_set field (VObj o) props)
          (reqs ++ if required data then [field] else []) ap).
Proof.
  intros Hf. unfold put_item.
  assert ((if required data then push_to (schema_form props reqs ap) "required" (VStr field)
           else Ok (schema_form props reqs ap))
          = Ok (schema_form props (reqs ++ if required data then [field] else []) ap)) as ->.
  { destruct (required data); [|by rewrite app_nil_r].
    unfold vstrs. unfold push_to, schema_form, vstrs. simpl. by rewrite fmap_app. }
  cbn [mbind res_bind]. change (get (schema_form ?p ?r ap) "properties") with (Ok (VObj p)).
  cbn [mbind res_bind get]. unfold obj_lookup. rewrite (obj_keys_nil field props Hf).
  cbn [default is_undef]. change (get (obj_lit []) "type") with (Ok VUndef).
  cbn [mbind res_bind]. change (negb (is_str VUndef NONE)) with true. cbn iota.
  change (assign_to (obj_lit []) (obj_lit [("type", type data)]))
    with (Ok (VObj [("type", type data)])).
  cbn [mbind res_bind get]. change (obj_lookup "type" [("type", type data)]) with (type data).
  unfold item_property, item_base, assign_text, assign_to.
  assert ((if is_str (type data) OBJECT then
      fobj ← reset_unless_object "properties" (is_array (VArr [VStr "properties"])) (obj_lit [])
               (VObj [("type", type data)]);
      reset_unless_object "required" (negb (is_array (VArr [VStr "required"]))) (VArr []) fobj
    else Ok (VObj [("type", type data)]))
    = Ok (VObj (item_base data))) as ->.
  { unfold item_base. by destruct (is_str (type data) OBJECT). }
  cbn [mbind res_bind].
  by destruct (json_parse (fields data)) as [src|[]], ap.
Qed.

Lemma add_to_schema_inline data schema :
  add_to_schema true schema data = put_item data (name data) schema.
Proof. done. Qed.

Lemma schema_of_fresh items props reqs ap :
  NoDup (obj_keys props ++ names_of items) →
  foldM (add_to_schema true) (schema_form props reqs ap) items =
    os ← mapM item_property items;
    Ok (schema_form (obj_assign props (zip (names_of items) (VObj <$> os)))
          (reqs ++ names_of (List.filter required items)) ap).
Proof.
  revert props reqs. induction items as [|data items IH]; intros props reqs Hnd.
  { simpl. by rewrite app_nil_r. }
  assert (name data ∉ obj_keys props) as Hk.
  { apply NoDup_app in Hnd as (_ & Hd & _). intros Hin. by eapply Hd, list_elem_of_here. }
  cbn [foldM mapM]. rewrite add_to_schema_inline, put_item_fresh by done.
  destruct (item_property data) as [o|] eqn:Ho; [|done]. cbn [mbind res_bind].
  rewrite IH.
  - destruct (mapM item_property items) as [os|]; [|done]. cbn [mbind res_bind].
    do 2 f_equal. simpl. destruct (required data); simpl; by rewrite <-?app_assoc, ?app_nil_r.
  - assert (obj_keys (obj_set (name data) (VObj o) props) ≡ₚ obj_keys props ++ [name data]) as Hp.
    { unfold obj_keys. rewrite (obj_set_perm _ _ _ Hk). simpl.
      by rewrite <-Permutation_cons_append. }
    rewrite Hp, <-app_assoc. done.
Qed.

(** ** Reading the items of a schema *)

Lemma obj_filter_wf {A} (keep : string → bool) (o : obj A) :
  obj_wf o → obj_wf (List.filter (λ kv, keep kv.1) o).
Proof.
  induction o as [|[k v] o IH]; intros Hwf; [done|].
  apply obj_wf_cons_inv in Hwf as (Hk & Hwf & Hf). simpl. destruct (keep k); [|auto].
  assert (∀ x, x ∈ obj_keys (List.filter (λ kv, keep kv.1) o) → x ∈ obj_keys o) as Hsub.
  { unfold obj_keys. intros x (kv & -> & Hin)%list_elem_of_fmap.
    apply list_elem_of_In, filter_In in Hin as [Hin _]. apply list_elem_of_fmap.
    exists kv. by rewrite list_elem_of_In. }
  apply obj_wf_cons; [auto|auto|]. apply Forall_forall. intros x Hx%Hsub.
  rewrite Forall_forall in Hf. auto.
Qed.

Lemma copy_props src a ks :
  foldM (λ acc k, v ← get (VObj src) k; set acc k v) (VObj a) ks
  = Ok (VObj (obj_assign a ((λ k, (k, obj_lookup k src)) <$> ks))).
Proof.
  revert a. induction ks as [|k ks IH]; intros a; [done|].
  cbn [foldM get mbind res_bind set]. rewrite IH. done.
Qed.

Lemma lookup_pairs (keep : string → bool) (o : obj val) :
  NoDup (obj_keys o) →
  (λ k, (k, obj_lookup k o)) <$> List.filter keep (obj_keys o)
  = List.filter (λ kv, keep kv.1) o.
Proof.
  intros Hnd. assert (∀ o', (∀ kv, kv ∈ o' → kv ∈ o) →
    (λ k, (k, obj_lookup k o)) <$> List.filter keep (obj_keys o')
    = List.filter (λ kv, keep kv.1) o') as H; [|by apply H].
  unfold obj_keys. induction o' as [|[k v] o' IH]; intros Hsub; [done|]. simpl.
  assert (obj_lookup k o = v) as Hv.
  { unfold obj_lookup. rewrite (obj_get_NoDup k v); [done..|]. apply Hsub, list_elem_of_here. }
  destruct (keep k); [rewrite fmap_cons, Hv; f_equal|];
    apply IH; intros kv Hin; by apply Hsub, list_elem_of_further.
Qed.

Lemma pick_obj keep o :
  obj_wf o → pick keep (VObj o) (VObj o) = Ok (VObj (List.filter (λ kv, keep kv.1) o)).
Proof.
  intros Hwf. unfold pick. cbn [Object_keys mbind res_bind]. rewrite copy_props.
  rewrite lookup_pairs by apply Hwf. rewrite obj_assign_nil; [done|]. by apply obj_filter_wf.
Qed.

(** The item a property is shown as. *)
Definition item_view (reqs : list val) (k : string) (o : obj val) : ConfigurationItem :=
  mkItem k (is_required reqs k) (obj_lookup "type" o)
    (json_text_2 (VObj (List.filter (λ kv, in_fields true kv.1) o))).

Definition view_of (reqs : list val) (kv : string * val) : ConfigurationItem :=
  item_view reqs kv.1 (own_props kv.2).

Lemma is_required_vstrs reqs key :
  is_required (VStr <$> reqs) key = existsb (String.eqb key) reqs.
Proof.
  unfold is_required. induction reqs as [|r reqs IH]; [done|].
  rewrite fmap_cons. cbn [existsb is_str]. by rewrite String.eqb_sym, IH.
Qed.

Lemma item_of_obj reqs key o :
  obj_wf o → item_of true reqs key key (VObj o) = Ok (item_view reqs key o).
Proof.
  intros Hwf. unfold item_of. cbn [get mbind res_bind]. by rewrite pick_obj.
Qed.

(** A property of a form's schema is an object. *)
Definition obj_property (v : val) : Prop := ∃ o, v = VObj o ∧ obj_wf o.

(** A loop over the keys of an object that pushes a result for each. *)
Lemma foldM_push {A B} (f : list B → string → res (list B)) (g : string * A → B) l acc :
  (∀ kv acc, kv ∈ l → f acc kv.1 = Ok (acc ++ [g kv])) →
  foldM f acc (obj_keys l) = Ok (acc ++ (g <$> l)).
Proof.
  revert acc. induction l as [|kv l IH]; intros acc Hf; [by rewrite app_nil_r|].
  change (obj_keys (kv :: l)) with (kv.1 :: obj_keys l). cbn [foldM].
  rewrite Hf by apply list_elem_of_here. cbn [mbind res_bind].
  rewrite IH; [by rewrite <-app_assoc|]. intros kv' acc' Hin. by apply Hf, list_elem_of_further.
Qed.

Lemma val_depth_S v : ∃ n, val_depth v = S n.
Proof. destruct v; by eexists. Qed.

(** A schema whose properties are objects, with its list of required names. *)
Record section_schema (schema : val) (props : obj val) (reqs : list val) : Prop := {
  section_obj : is_obj schema;
  section_props : prop schema "properties" = VObj props;
  section_reqs : array_or_empty (prop schema "required") = reqs;
  section_wf : obj_wf props;
  section_each : Forall (λ kv, obj_property kv.2) props
}.

Lemma schema_form_section props reqs ap :
  obj_wf props → Forall (λ kv, obj_property kv.2) props →
  section_schema (schema_form props reqs ap) props (VStr <$> reqs).
Proof. intros ??. split; [by eexists|done..]. Qed.

Lemma model_of_section schema props reqs :
  section_schema schema props reqs →
  getModelFromSchema schema true = Ok (view_of reqs <$> props).
Proof.
  intros [Ho Hp Hr Hwf HF]. unfold getModelFromSchema.
  destruct (val_depth_S schema) as [n ->]. cbn [make].
  assert (is_plain_object schema = true) as -> by (by destruct Ho as [o ->]).
  cbn [negb]. cbn iota. rewrite !get_is_obj by done. rewrite Hp. cbn [mbind res_bind].
  change (is_plain_object (VObj props)) with true. cbn [negb]. cbn iota.
  cbn [mbind res_bind Object_keys]. rewrite Hr.
  apply (foldM_push _ (view_of reqs) props []). intros [k v] model Hin.
  rewrite Forall_forall in HF. destruct (HF _ Hin) as (o & Hv & Hwo). simpl in Hv. subst v.
  assert (get (VObj props) k = Ok (VObj o)) as Hk.
  { simpl. unfold obj_lookup. by rewrite (obj_get_elem k (VObj o) props Hwf Hin). }
  cbn [fst]. rewrite Hk. cbn [mbind res_bind].
  change (if String.eqb "" "" then k else "" +:+ "." +:+ k) with k.
  rewrite item_of_obj by done. cbn [mbind res_bind]. by rewrite andb_false_r.
Qed.

(** ** Round trips *)

Lemma obj_get_filter {A} (keep : string → bool) (o : obj A) k :
  obj_get k (List.filter (λ kv, keep kv.1) o) = if keep k then obj_get k o else None.
Proof.
  induction o as [|[k1 v] o IH]; simpl; [by destruct (keep k)|].
  destruct (String.eqb_spec k k1) as [->|Hne].
  - destruct (keep k1) eqn:Hk; simpl; [by rewrite String.eqb_refl|]. done.
  - destruct (keep k1); simpl; [|done]. by destruct (String.eqb_spec k k1).
Qed.

Lemma is_json_filter (keep : string * val → bool) o :
  obj_wf (List.filter keep o) → is_json (VObj o) = true → is_json (VObj (List.filter keep o)) = true.
Proof. rewrite !is_json_obj. intros Hwf [_ HF]. split; [done|]. by apply Forall_List_filter. Qed.

Lemma plain_filter (keep : string * val → bool) o :
  obj_wf (List.filter keep o) → plain (VObj o) = true → plain (VObj (List.filter keep o)) = true.
Proof. rewrite !plain_obj. intros Hwf [_ HF]. split; [done|]. by apply Forall_List_filter. Qed.

(** What is left of a property after it was shown in a form and read back: the
    list [required] is emptied in an object parameter and dropped elsewhere,
    and an object parameter gets properties. *)
Definition form_view (o : obj val) : obj val :=
  if is_str (obj_lookup "type" o) OBJECT
  then obj_set "required" (VArr [])
         (if decide (is_Some (obj_get "properties" o)) then o
          else obj_set "properties" (VObj []) o)
  else obj_del "required" o.

Definition has_type (v : val) : Prop := ∃ o, v = VObj o ∧ is_Some (obj_get "type" o).

Lemma get_form_view x o :
  obj_get x (form_view o) =
    let object := is_str (obj_lookup "type" o) OBJECT in
    if String.eqb x "required" then if object then Some (VArr []) else None
    else match obj_get x o with
         | Some v => Some v
         | None => if object && String.eqb x "properties" then Some (VObj []) else None
         end.
Proof.
  unfold form_view. cbn zeta. destruct (is_str (obj_lookup "type" o) OBJECT); cbn [andb].
  - rewrite obj_get_set. destruct (String.eqb_spec x "required") as [|H]; [done|].
    case_decide as Hd.
    + destruct (String.eqb_spec x "properties") as [->|]; [|by destruct (obj_get x o)].
      by destruct Hd as [v ->].
    + rewrite obj_get_set. apply eq_None_not_Some in Hd.
      destruct (String.eqb_spec x "properties") as [->|]; [by rewrite Hd|by destruct (obj_get x o)].
  - rewrite obj_get_del. destruct (String.eqb x "required"); [done|]. by destruct (obj_get x o).
Qed.

Lemma get_item_base x data :
  obj_get x (item_base data) =
    if String.eqb x "type" then Some (type data)
    else if is_str (type data) OBJECT then
      if String.eqb x "properties" then Some (VObj [])
      else if String.eqb x "required" then Some (VArr []) else None
    else None.
Proof. unfold item_base. by destruct (is_str (type data) OBJECT). Qed.

Lemma item_view_property reqs k o :
  is_json (VObj o) = true → plain (VObj o) = true → is_Some (obj_get "type" o) →
  ∃ o', item_property (item_view reqs k o) = Ok o' ∧ o' ≡ₒ form_view o.
Proof.
  intros Hj Hp [t Ht]. pose proof (proj1 (is_json_obj o) Hj) as [Hwf _].
  set (keep := in_fields true). set (f := List.filter (λ kv, keep kv.1) o).
  assert (obj_wf f) as Hf by by apply obj_filter_wf.
  unfold item_property. cbn [fields item_view].
  fold f. rewrite json_parse_text_2 by (done || by apply plain_filter).
  rewrite clone_json by by apply is_json_filter. cbn [own_props].
  eexists. split; [done|]. intros x.
  rewrite obj_get_assign_NoDup by by apply obj_wf_NoDup. unfold f.
  rewrite obj_get_filter.
  rewrite get_form_view, get_item_base. cbn [type item_view].
  unfold obj_lookup. rewrite Ht. cbn [default].
  change (in_fields true x) with (negb (String.eqb x "type") && (negb (String.eqb x "properties") || true)
                        && negb (String.eqb x "required")).
  rewrite orb_true_r, andb_true_r. change (id t) with t.
  destruct (String.eqb_spec x "type") as [->|H1].
  { rewrite Ht. done. }
  destruct (String.eqb_spec x "required") as [->|H2]; cbn [negb andb].
  { by destruct (is_str t OBJECT). }
  destruct (obj_get x o), (is_str t OBJECT); try done.
Qed.

(** Properties without integer-like names are kept in the order they are
    written in. *)
Definition plain_names (names : list string) : Prop :=
  Forall (λ k, array_index k = None) names.

Lemma obj_assign_plain (o kvs : obj val) :
  NoDup (obj_keys (o ++ kvs)) → plain_names (obj_keys kvs) → obj_assign o kvs = o ++ kvs.
Proof.
  unfold obj_assign, plain_names. revert o.
  induction kvs as [|[k v] kvs IH]; intros o Hnd HF; simpl; [by rewrite app_nil_r|].
  change (obj_keys ((k, v) :: kvs)) with (k :: obj_keys kvs) in HF.
  inversion HF as [|? ? Hk HF']; subst. rewrite obj_set_last.
  - rewrite IH; [by rewrite <-app_assoc| |done]. by rewrite <-app_assoc.
  - unfold obj_keys in Hnd. rewrite fmap_app in Hnd. apply NoDup_app in Hnd as (_ & Hd & _).
    intros Hin. by eapply Hd, list_elem_of_here.
  - apply Forall_forall. intros x _. unfold key_before. by rewrite Hk.
Qed.

(** The schema that a list of items becomes: one property per item. *)
Lemma schema_of_items items ap os :
  NoDup (names_of items) → mapM item_property items = Ok os →
  getSchemaFromModel items ap true =
    Ok (schema_form (obj_assign [] (zip (names_of items) (VObj <$> os)))
          (names_of (List.filter required items)) ap).
Proof.
  intros Hnd Hos. unfold getSchemaFromModel. rewrite getEmptySchema_form, schema_of_fresh by done.
  by rewrite Hos.
Qed.

(** An item whose text the model can read (see [JsonText]). *)
Definition readable (data : ConfigurationItem) : Prop := json_parse (fields data) ≠ Throw Unsupported.

Lemma readable_property data : readable data → ∃ o, item_property data = Ok o.
Proof.
  unfold readable, item_property.
  destruct (json_parse (fields data)) as [src|[]]; intros ?; [by eexists|by eexists|done].
Qed.

Lemma mapM_Ok {A B} (f : A → res B) l :
  Forall (λ x, ∃ y, f x = Ok y) l → ∃ ys, mapM f l = Ok ys ∧ Forall2 (λ x y, f x = Ok y) l ys.
Proof.
  induction 1 as [|x l [y Hy] _ (ys & Hys & HF)]; [by exists []|].
  exists (y :: ys). simpl. rewrite Hy, Hys. split; [done|by constructor].
Qed.

Lemma zip_keys {A} (ks : list string) (vs : list A) :
  length ks = length vs → obj_keys (zip ks vs) = ks.
Proof.
  unfold obj_keys. revert vs. induction ks as [|k ks IH]; intros [|v vs] H; try done.
  simpl in *. rewrite IH; [done|lia].
Qed.

Lemma obj_get_zip {A} (ks : list string) (vs : list A) i k v :
  NoDup ks → ks !! i = Some k → vs !! i = Some v → obj_get k (zip ks vs) = Some v.
Proof.
  intros Hnd Hk Hv. apply obj_get_NoDup.
  - apply (sublist_NoDup _ ks); [done|]. unfold obj_keys.
    clear. revert vs. induction ks as [|k ks IH]; intros [|v vs]; simpl;
      [apply sublist_nil_l..|by apply sublist_skip].
  - apply list_elem_of_lookup. exists i. rewrite lookup_zip_with, Hk. simpl. by rewrite Hv.
Qed.

(** The properties of that schema: their order and their values. *)
Lemma form_properties items os :
  NoDup (names_of items) → Forall2 (λ i o, item_property i = Ok o) items os →
  let props := obj_assign [] (zip (names_of items) (VObj <$> os)) in
  obj_wf props ∧ obj_keys props ≡ₚ names_of items
  ∧ (plain_names (names_of items) → obj_keys props = names_of items)
  ∧ Forall (λ kv, obj_property kv.2) props
  ∧ ∀ j item o, items !! j = Some item → os !! j = Some o →
      obj_get (name item) props = Some (VObj o).
Proof.
  intros Hnd HF props. pose proof (Forall2_length _ _ _ HF) as Hlen.
  assert (obj_keys (zip (names_of items) (VObj <$> os)) = names_of items) as Hk.
  { apply zip_keys. unfold names_of. by rewrite !length_fmap. }
  assert (NoDup (obj_keys ([] ++ zip (names_of items) (VObj <$> os)))) as Hnd'
    by (rewrite app_nil_l; by rewrite Hk).
  assert (props ≡ₚ zip (names_of items) (VObj <$> os)) as Hp by by apply obj_assign_perm.
  split; [apply obj_assign_wf, obj_wf_nil|]. split; [|split; [|split]].
  - rewrite <-Hk. unfold obj_keys. by rewrite Hp.
  - intros Hpl. unfold props. rewrite obj_assign_plain; [done|done|by rewrite Hk].
  - rewrite Hp. apply Forall_forall. intros [k v] Hin.
    apply elem_of_zip_r in Hin. apply list_elem_of_fmap in Hin as (o & -> & Ho).
    exists o. split; [done|]. apply list_elem_of_lookup in Ho as [j Hj].
    destruct (Forall2_lookup_r _ _ _ _ _ HF Hj) as (item & _ & Hi). by eapply item_property_wf.
  - intros j item o Hj Ho. unfold props. rewrite obj_get_assign_NoDup by done.
    rewrite (obj_get_zip _ _ j (name item) (VObj o)); [done|done|..].
    + unfold names_of. by rewrite list_lookup_fmap, Hj.
    + by rewrite list_lookup_fmap, Ho.
Qed.

(** What the section shows of a schema it was given. *)
Lemma view_names reqs props : names_of (view_of reqs <$> props) = obj_keys props.
Proof. unfold names_of, obj_keys. by rewrite <-list_fmap_compose. Qed.

Lemma existsb_eqb k l : existsb (String.eqb k) l = true ↔ k ∈ l.
Proof.
  rewrite existsb_exists. setoid_rewrite String.eqb_eq. rewrite list_elem_of_In. naive_solver.
Qed.
