(* ===== verification/ParamFormFacts.v ===== *)
(** * Facts about the forms of parameter lists

    Values read from JSON text are JSON; how a form follows a schema; that the
    loop between form and store comes to rest. *)

From stdpp Require Import list sorting.
From Stdlib Require Import Ascii.
From S2P Require Import Prelude JsString JsValue JsJson JsonText SharedUtils.
From S2P Require Import ModuleEditState ModuleEditConfig ModuleEditFields.
From S2P Require Import FormFacts ParamForms.
Import PropertyType.

(** ** What the parser returns *)

Lemma json_value_set k v (o : obj val) :
  json_value (VObj o) → json_value v → json_value (VObj (obj_set k v o)).
Proof.
  rewrite !json_value_obj. intros [Hwf HF] Hv. split; [by apply obj_set_wf|]. clear Hwf.
  induction o as [|[k1 v1] o IH]; simpl; [by apply List.Forall_cons|].
  inversion HF; subst. destruct (String.eqb k k1); [by constructor|].
  destruct (key_before k k1); [by constructor|]. constructor; auto.
Qed.

Lemma json_value_assign kvs (o : obj val) :
  json_value (VObj o) → Forall (λ kv, json_value kv.2) kvs → json_value (VObj (obj_assign o kvs)).
Proof.
  unfold obj_assign. revert o. induction kvs as [|[k v] kvs IH]; intros o Ho HF; [done|].
  inversion HF; subst. simpl. apply IH; [|done]. by apply json_value_set.
Qed.

Lemma parse_number_json s v r : parse_number s = Ok (v, r) → json_value v.
Proof.
  unfold parse_number. destruct (span_digits _) as [ds rest].
  destruct (parse_digits ds) as [n|]; [|done]. destruct (leading_zero ds); [done|].
  intros H. inv_res. case_match eqn:Hc; [|done]. simplify_eq.
  apply andb_true_iff in Hc as [[_ Hn]%andb_true_iff _]. apply N.leb_le in Hn.
  split; [done|]. apply bool_decide_eq_true. unfold two53 in *. destruct (starts_with "-" s); lia.
Qed.

Lemma parse_literal_json ls s v r :
  Forall (λ wv : string * val, json_value wv.2) ls → parse_literal ls s = Some (v, r) →
  json_value v.
Proof.
  induction 1 as [|[w x] ls Hx _ IH]; simpl; [done|].
  destruct (strip_prefix w s); [intros; by simplify_eq|done].
Qed.

Lemma parse_json fuel :
  (∀ s v r, parse_value fuel s = Ok (v, r) → json_value v)
  ∧ (∀ acc s v r, Forall json_value acc → parse_elements fuel acc s = Ok (v, r) → json_value v)
  ∧ (∀ acc s v r, json_value (VObj acc) → parse_members fuel acc s = Ok (v, r) → json_value v).
Proof.
  induction fuel as [|fuel (IHv & IHe & IHm)]; [done|]. split; [|split].
  - intros s v r H. rewrite parse_value_S in H.
    apply bind_Ok_inv in H as ([c s'] & _ & H). cbn [fst snd] in H.
    destruct (Ascii.eqb c "{"); [|destruct (Ascii.eqb c "["); [|destruct (Ascii.eqb c dquote_char)]].
    + apply bind_Ok_inv in H as ([d s2] & _ & H). cbn [fst snd] in H.
      destruct (Ascii.eqb d "}"); [simplify_eq; by split|]. eapply IHm; [|exact H]. by split.
    + apply bind_Ok_inv in H as ([d s2] & _ & H). cbn [fst snd] in H.
      destruct (Ascii.eqb d "]"); [simplify_eq; by split|]. by eapply (IHe []).
    + apply bind_Ok_inv in H as ([d s2] & _ & H). simplify_eq. by split.
    + destruct (parse_literal literals (String c s')) as [[w t]|] eqn:Hw.
      * simplify_eq. apply parse_literal_json in Hw; [done|]. by repeat apply List.Forall_cons.
      * by apply parse_number_json in H.
  - intros acc s v r Hacc H. rewrite parse_elements_S in H.
    apply bind_Ok_inv in H as ([w t] & Hw & H). cbn [fst snd] in H.
    apply IHv in Hw. apply bind_Ok_inv in H as ([d s2] & _ & H). cbn [fst snd] in H.
    assert (Forall json_value (acc ++ [w])) by (apply Forall_app; split; [done|by apply List.Forall_cons]).
    destruct (Ascii.eqb d ","); [by eapply IHe|]. destruct (Ascii.eqb d "]"); [|done].
    simplify_eq. by apply json_value_arr.
  - intros acc s v r Hacc H. rewrite parse_members_S in H.
    apply bind_Ok_inv in H as ([q s1] & _ & H). cbn [fst snd] in H.
    destruct (Ascii.eqb q dquote_char); [|done].
    apply bind_Ok_inv in H as ([k s2] & _ & H). cbn [fst snd] in H.
    apply bind_Ok_inv in H as ([c s3] & _ & H). cbn [fst snd] in H.
    destruct (Ascii.eqb c ":"); [|done].
    apply bind_Ok_inv in H as ([w t] & Hw & H). cbn [fst snd] in H. apply IHv in Hw.
    apply bind_Ok_inv in H as ([d s4] & _ & H). cbn [fst snd] in H.
    assert (json_value (VObj (obj_set k w acc))) by by apply json_value_set.
    destruct (Ascii.eqb d ","); [by eapply IHm|]. destruct (Ascii.eqb d "}"); [|done].
    by simplify_eq.
Qed.

(** What [JSON.parse] returns is JSON. *)
Lemma json_parse_json s v : json_parse s = Ok v → json_value v.
Proof.
  unfold json_parse. intros H. apply bind_Ok_inv in H as ([w r] & Hw & H).
  destruct (String.eqb _ _); [|done]. simplify_eq. by apply (parse_json (json_fuel s)) in Hw.
Qed.

(** ** Items and the schema they stand for *)

Definition property_type (o : obj val) : val := obj_lookup "type" o.

(** An item the form can hold: a type, and a text that
    the model can read and that does not replace the type by an object or an
    array. *)
Definition item_ok (i : ConfigurationItem) : Prop :=
  json_value (type i) ∧ readable i ∧
  ∀ o, item_property i = Ok o → strict_eq (property_type o) (property_type o) = true.

Lemma item_base_json data : json_value (type data) → json_value (VObj (item_base data)).
Proof.
  intros Ht. apply json_value_obj. split; [apply item_base_wf|].
  unfold item_base. destruct (is_str (type data) OBJECT); by repeat apply List.Forall_cons.
Qed.


Lemma item_property_type data o :
  item_property data = Ok o → is_Some (obj_get "type" o).
Proof.
  assert (is_Some (obj_get "type" (item_base data))) as Hb.
  { rewrite get_item_base. by eexists. }
  unfold item_property. destruct (json_parse (fields data)) as [src|[]]; intros ?; simplify_eq; [|done].
  rewrite obj_get_assign. destruct (obj_get "type" (reverse _)); [by eexists|done].
Qed.

Lemma own_props_json v : json_value v → Forall (λ kv, json_value kv.2) (own_props v).
Proof.
  destruct v as [| | | |s|l|o]; intros Hv; simpl; try done.
  - apply Forall_forall. intros [k x] Hin%elem_of_zip_r. unfold chars in Hin.
    by apply list_elem_of_fmap in Hin as (c & -> & _).
  - destruct Hv as [Hj Hp]. apply is_json_arr in Hj. apply plain_arr in Hp.
    rewrite Forall_forall in Hj, Hp. apply Forall_forall. intros [k x] Hin%elem_of_zip_r.
    split; auto.
  - by apply json_value_obj in Hv as [_ Hv].
Qed.

Lemma item_property_json data o :
  item_ok data → item_property data = Ok o → json_value (VObj o).
Proof.
  intros [Ht _]. unfold item_property.
  destruct (json_parse (fields data)) as [src|[]] eqn:Hs; intros ?; simplify_eq;
    auto using item_base_json.
  apply json_value_assign; [by apply item_base_json|]. by apply own_props_json, (json_parse_json (fields data)).
Qed.

(** An item shown for a property has the property's type, and its text does
    not override it. *)
Lemma view_property_type reqs k o :
  json_value (VObj o) → is_Some (obj_get "type" o) →
  ∃ o', item_property (item_view reqs k o) = Ok o' ∧ property_type o' = property_type o
        ∧ json_value (VObj o').
Proof.
  intros [Hj Hp] [t Ht]. destruct (item_view_property reqs k o) as (o' & Ho' & He); [done..|by eexists|].
  exists o'. split; [done|]. split.
  - unfold property_type, obj_lookup. rewrite (He "type"), get_form_view.
    cbn [String.eqb]. change (String.eqb "type" "required") with false. cbn iota. by rewrite Ht.
  - unfold item_property in Ho'. cbn [fields item_view] in Ho'.
    set (f := List.filter (λ kv, in_fields true kv.1) o) in *.
    assert (json_value (VObj f)) as [Hfj Hfp].
    { destruct (proj1 (json_value_obj o) (conj Hj Hp)) as [Hwf HF].
      apply json_value_obj. split; [by apply obj_filter_wf|by apply Forall_List_filter]. }
    rewrite json_parse_text_2, clone_json in Ho' by done. simplify_eq.
    apply json_value_assign.
    + apply item_base_json. cbn [type item_view]. unfold obj_lookup. rewrite Ht.
      by apply (json_value_get "type" t o).
    + by apply json_value_obj.
Qed.

(** ** A form follows a schema *)

Lemma length_list_minus l1 l2 :
  NoDup l1 → length (list_minus l1 l2) + length (filter (λ x, x ∈ l2) l1) = length l1.
Proof.
  intros _. unfold list_minus. induction l1 as [|x l1 IH]; [done|].
  rewrite !filter_cons. repeat case_decide; simpl; try done; lia.
Qed.

Lemma common_length (l1 l2 : list string) :
  NoDup l1 → NoDup l2 →
  length (filter (λ x, x ∈ l2) l1) = length (filter (λ x, x ∈ l1) l2).
Proof.
  intros H1 H2. apply Permutation_length, NoDup_Permutation; [by apply NoDup_filter..|].
  intros x. rewrite !list_elem_of_filter. tauto.
Qed.

(** As many names as before: renamings only. *)
Lemma changes_same_length a b :
  NoDup a → NoDup b → length a = length b → (getChangesArrays a b).1 = ([], []).
Proof.
  intros Ha Hb Hl. unfold getChangesArrays. case_bool_decide; [done|].
  rewrite bool_decide_true; [done|].
  assert (NoDup (sort_strings a)) as Ha' by by apply NoDup_sort_strings.
  assert (NoDup (sort_strings b)) as Hb' by by apply NoDup_sort_strings.
  pose proof (length_list_minus (sort_strings a) (sort_strings b) Ha') as H1.
  pose proof (length_list_minus (sort_strings b) (sort_strings a) Hb') as H2.
  pose proof (common_length _ _ Ha' Hb') as H3.
  rewrite (Permutation_length (sort_strings_perm a)) in H1.
  rewrite (Permutation_length (sort_strings_perm b)) in H2. lia.
Qed.

(** The sections whose items are plain parameters. *)
Record item_section (sec : Section_ ConfigurationItem) (ap : bool) : Prop := {
  is_name : itemName sec = name;
  is_type : itemType sec = type;
  is_model schema : toModel sec schema = getModelFromSchema schema true;
  is_schema params : toSchema sec params = getSchemaFromModel params (Some ap) true;
  is_names schema props reqs :
    section_schema schema props reqs →
    schemaNames sec schema (view_of reqs <$> props) = Ok (obj_keys props);
  is_stored s schema s' :
    json_value schema → updateSchema sec s schema = Ok s' → schemaOf sec s' = schema
}.

Lemma Forall2_last {X Y} (R : X → Y → Prop) (l : list X) (k : list Y) x0 y0 x y :
  Forall2 R l k → R x0 y0 → last (x0 :: l) = Some x → last (y0 :: k) = Some y → R x y.
Proof.
  intros HF. revert x0 y0. induction HF as [|x1 y1 l k H1 _ IH]; intros x0 y0 H0 Hx Hy.
  - by simplify_eq/=.
  - rewrite last_cons_cons in Hx. rewrite last_cons_cons in Hy. exact (IH x1 y1 H1 Hx Hy).
Qed.

Section loop.
Context {A : Type} `{FormArrayLaws A (Group ConfigurationItem)}.
Context (sec : Section_ ConfigurationItem) (ap : bool) (Hsec : item_section sec ap).
Context (readOnly : bool).

#[local] Abbreviation onSchema := (onSchema (A := A) sec readOnly).
#[local] Abbreviation values := (values (A := A) (T := ConfigurationItem)).

Definition groupName (g : Group ConfigurationItem) : string := name (value g).

Lemma names_values a : names_of (values a) = groupName <$> controls a.
Proof. unfold names_of, values. by rewrite <-list_fmap_compose. Qed.

(** Values that are the old ones or those of the model at their place. *)
Definition mixed_values (model items items' : list ConfigurationItem) : Prop :=
  names_of items' = names_of items ∧ ∀ i, items' !! i = items !! i ∨ items' !! i = model !! i.

Lemma mixed_controls model a a' :
  mixed (getParamFormGroup readOnly) groupName model (controls a) (controls a') →
  mixed_values model (values a) (values a').
Proof.
  intros [Hn Hm]. split; [by rewrite !names_values|].
  intros i. unfold values. rewrite !list_lookup_fmap. destruct (Hm i) as [->| ->]; [by left|right].
  by destruct (model !! i).
Qed.

(** The subscriber of the schema, when the new schema has the names of the
    form and as many parameters as before. *)
Lemma onSchema_renamed old props reqs new props' reqs' a :
  section_schema old props reqs → section_schema new props' reqs' →
  length (obj_keys props) = length (obj_keys props') →
  names_of (values a) = obj_keys props' →
  let model := view_of reqs' <$> props' in
  let changed := changedTypes sec (obj_keys props') model (view_of reqs <$> props) in
  ∃ a' emitted, onSchema (Some old) new a = Ok (a', emitted, None)
    ∧ mixed_values model (values a) (values a')
    ∧ Forall (λ e, mixed_values model (values a) (values e)) emitted
    ∧ length emitted = length changed ∧ last (a :: emitted) = Some a'.
Proof.
  intros Ho Hn Hlen Hnames model changed.
  pose proof (section_wf _ _ _ Ho) as [Hnd _]. pose proof (section_wf _ _ _ Hn) as [Hnd' _].
  unfold ParamForms.onSchema. change (default (getEmptySchema None) (Some old)) with old.
  rewrite !(is_model _ _ Hsec).
  rewrite (model_of_section _ _ _ Ho), (model_of_section _ _ _ Hn). cbn [mbind res_bind].
  rewrite (is_names _ _ Hsec _ _ _ Ho), (is_names _ _ Hsec _ _ _ Hn). cbn [mbind res_bind].
  pose proof (changes_same_length _ _ Hnd Hnd' Hlen) as Hch.
  destruct (getChangesArrays (obj_keys props) (obj_keys props')) as [[added removed] renamed].
  simpl in Hch. simplify_eq. rewrite (is_name _ _ Hsec), applyDiff_replace.
  assert (name <$> model = groupName <$> controls a) as Hal.
  { rewrite <-names_values, Hnames. unfold model. apply view_names. }
  destruct (replaceNames_mixed name (getParamFormGroup readOnly) groupName (λ _, eq_refl)
              changed model a) as (a' & emitted & Hr & Hm & He & Hl & Hlast); [done| |].
  { intros k Hk. rewrite <-names_values, Hnames.
    unfold changed, changedTypes in Hk. apply list_elem_of_In, filter_In in Hk as [Hk _].
    by apply list_elem_of_In. }
  exists a', emitted. fold model changed. rewrite Hr.
  split; [|split; [|split; [|by split]]].
  - done.
  - by apply mixed_controls.
  - eapply Forall_impl; [exact He|]. intros e. apply mixed_controls.
Qed.

(** *** Schemas of items *)

(** A schema with the names [names], whose parameters have the types [types]. *)
Definition profile (names : list string) (types : string → val) (schema : val) : Prop :=
  json_value schema ∧ ∃ props reqs, section_schema schema props reqs
    ∧ obj_keys props = names
    ∧ ∀ k o, obj_get k props = Some (VObj o) → property_type o = types k.

Lemma find_view reqs props k v :
  NoDup (obj_keys props) → obj_get k props = Some v →
  find_item sec k (view_of reqs <$> props) = Some (view_of reqs (k, v)).
Proof.
  intros Hnd Hk. unfold find_item. rewrite (is_name _ _ Hsec).
  apply obj_get_Some_elem, list_elem_of_lookup in Hk as [i Hi].
  assert (list_find (λ item, name item = k) (view_of reqs <$> props)
          = Some (i, view_of reqs (k, v))) as ->; [|done].
  apply list_find_Some. split; [by rewrite list_lookup_fmap, Hi|]. split; [done|].
  intros j y Hj Hlt Hy. rewrite list_lookup_fmap in Hj.
  apply fmap_Some in Hj as ([k' v'] & Hj & ->). simpl in Hy. subst k'.
  assert (j = i); [|lia]. apply (NoDup_lookup (obj_keys props) j i k); [done|..];
    unfold obj_keys; by rewrite list_lookup_fmap, ?Hi, ?Hj.
Qed.

Lemma changedTypes_none reqs props reqs' props' types :
  NoDup (obj_keys props) → NoDup (obj_keys props') → obj_keys props = obj_keys props' →
  Forall (λ kv, obj_property kv.2) props → Forall (λ kv, obj_property kv.2) props' →
  (∀ k o, obj_get k props = Some (VObj o) → property_type o = types k) →
  (∀ k o, obj_get k props' = Some (VObj o) → property_type o = types k) →
  (∀ k, k ∈ obj_keys props → strict_eq (types k) (types k) = true) →
  changedTypes sec (obj_keys props') (view_of reqs' <$> props') (view_of reqs <$> props) = [].
Proof.
  intros Hnd Hnd' Hk Ho Ho' Ht Ht' Hs. unfold changedTypes. rewrite (is_type _ _ Hsec).
  assert (∀ l, (∀ k, k ∈ l → k ∈ obj_keys props) →
    List.filter (λ propName,
      match find_item sec propName (view_of reqs' <$> props'),
            find_item sec propName (view_of reqs <$> props) with
      | Some prop, Some propFromOldModel =>
          negb (strict_eq (type prop) (type propFromOldModel))
      | _, _ => false
      end) l = []) as Hnone; [|apply Hnone; by rewrite <-Hk].
  induction l as [|k l IH]; intros Hsub; [done|]. simpl.
  assert (k ∈ obj_keys props) as Hin by apply Hsub, list_elem_of_here.
  destruct (proj1 (elem_of_obj_keys k props) Hin) as [v Hv].
  destruct (proj1 (elem_of_obj_keys k props') (eq_ind _ (λ l, k ∈ l) Hin _ Hk)) as [v' Hv'].
  rewrite (find_view reqs' props' k v'), (find_view reqs props k v) by done.
  rewrite Forall_forall in Ho, Ho'.
  destruct (Ho (k, v)) as (o & Hov & _); [by apply obj_get_Some_elem|]. simpl in Hov. subst v.
  destruct (Ho' (k, v')) as (o' & Hov' & _); [by apply obj_get_Some_elem|]. simpl in Hov'. subst v'.
  change (type (view_of reqs' (k, VObj o'))) with (property_type o').
  change (type (view_of reqs (k, VObj o))) with (property_type o).
  rewrite (Ht k o Hv), (Ht' k o' Hv'), (Hs k Hin). simpl.
  apply IH. intros k' Hk'. by apply Hsub, list_elem_of_further.
Qed.

(** *** At rest *)

Lemma settle_quiet names types queue s (a : A) old :
  NoDup names → (∀ k, k ∈ names → strict_eq (types k) (types k) = true) →
  names_of (values a) = names → profile names types old → schemaOf sec s = old →
  Forall (profile names types) queue →
  ∃ r, settle sec readOnly (length queue) (mkEditor s a (Some old)) queue = Some r
    ∧ ∀ ed', r = Ok ed' →
        form ed' = a ∧ shown ed' = Some (schemaOf sec (store ed'))
        ∧ last (old :: queue) = Some (schemaOf sec (store ed')).
Proof.
  intros Hnd Hs Hnames. revert s old. induction queue as [|schema queue IH]; intros s old Hold Hso Hq.
  { exists (Ok (mkEditor s a (Some old))). split; [done|]. intros ed' [= <-]. simpl. by subst old. }
  apply Forall_cons_1 in Hq as [Hp Hq].
  destruct Hold as (_ & props & reqs & Ho & Hk & Ht).
  pose proof Hp as (Hj & props' & reqs' & Hn & Hk' & Ht').
  cbn [settle length]. unfold handle, follow. cbn [store shown form].
  destruct (updateSchema sec s schema) as [s'|e] eqn:Hu; [|by exists (Throw e)].
  cbn [mbind res_bind]. rewrite (is_stored _ _ Hsec _ _ _ Hj Hu).
  destruct (onSchema_renamed old props reqs schema props' reqs' a)
    as (a' & em & -> & _ & _ & Hlen & Hlast); [done|done|congruence|congruence|].
  rewrite (changedTypes_none reqs props reqs' props' types) in Hlen;
    [|apply Ho|apply Hn|congruence|apply Ho|apply Hn|done|done|by rewrite Hk].
  destruct em; [|done]. simpl in Hlast. simplify_eq. cbn [fmap list_fmap mapM mbind res_bind concat].
  change (mret []) with (Ok (@nil (list val))). cbn [mbind res_bind]. change (concat []) with (@nil val).
  rewrite app_nil_r.
  destruct (IH s' schema Hp (is_stored _ _ Hsec _ _ _ Hj Hu) Hq) as (r & Hr & Hr').
  exists r. split; [exact Hr|]. intros ed' He. destruct (Hr' ed' He) as (H1 & H2 & H3).
  split; [done|]. split; [done|]. by rewrite last_cons_cons.
Qed.

(** *** An edit *)

Definition types_in (props : obj val) (k : string) : val :=
  match obj_get k props with Some v => property_type (own_props v) | None => VUndef end.

(** The schema of items, with what is needed of it. *)
Lemma schema_of_ok items :
  NoDup (names_of items) → plain_names (names_of items) → Forall item_ok items →
  ∃ os props reqs, Forall2 (λ i o, item_property i = Ok o) items os
    ∧ toSchema sec items = Ok (schema_form props reqs (Some ap))
    ∧ json_value (schema_form props reqs (Some ap))
    ∧ section_schema (schema_form props reqs (Some ap)) props (VStr <$> reqs)
    ∧ obj_keys props = names_of items
    ∧ ∀ j item o, items !! j = Some item → os !! j = Some o →
        obj_get (name item) props = Some (VObj o).
Proof.
  intros Hnd Hpl HF.
  destruct (mapM_Ok item_property items) as (os & Hos & HF2).
  { eapply Forall_impl; [exact HF|]. intros i (_ & Hr & _). by apply readable_property. }
  destruct (form_properties items os Hnd HF2) as (Hwf & _ & Hk & Hp & Hget).
  set (props := obj_assign [] (zip (names_of items) (VObj <$> os))) in *.
  exists os, props, (names_of (List.filter required items)).
  split; [done|]. split; [by rewrite (is_schema _ _ Hsec), (schema_of_items _ _ os)|].
  split; [|split; [by apply schema_form_section|split; [by apply Hk|done]]].
  apply json_value_obj. split.
  - apply (obj_assign_wf [] ([("type", _); ("properties", _); ("required", _);
      ("additionalProperties", _)] : obj val)), obj_wf_nil.
  - repeat apply List.Forall_cons; try done; simpl.
    + apply json_value_obj. split; [done|]. apply Forall_forall. intros [k v] Hin.
      rewrite Forall_forall in Hp. destruct (Hp _ Hin) as (o & Hv & _). simpl in Hv |- *. subst v.
      assert (k ∈ names_of items) as Hkn.
      { rewrite <-(Hk Hpl). apply elem_of_obj_keys. exists (VObj o). by apply obj_get_elem. }
      apply list_elem_of_fmap in Hkn as (item & -> & Hitem).
      apply list_elem_of_lookup in Hitem as [j Hj].
      destruct (Forall2_lookup_l _ _ _ _ _ HF2 Hj) as (o' & Ho' & Hi).
      pose proof (Hget j item o' Hj Ho') as Hg.
      rewrite (obj_get_elem _ (VObj o) props) in Hg by done. simplify_eq.
      rewrite Forall_lookup in HF. by apply (item_property_json item), Hi; apply (HF j).
    + apply json_value_arr. apply Forall_fmap, Forall_forall. by intros.
Qed.

Lemma view_item_ok reqs k o t :
  json_value (VObj o) → obj_get "type" o = Some t → strict_eq t t = true →
  item_ok (item_view reqs k o)
  ∧ ∀ o', item_property (item_view reqs k o) = Ok o' → property_type o' = t.
Proof.
  intros Hj Ht Hs. destruct (view_property_type reqs k o Hj) as (o' & Ho' & Hty & _); [by eexists|].
  assert (property_type o = t) as Hpt by (unfold property_type, obj_lookup; by rewrite Ht).
  split; [split; [|split]|].
  - cbn [type item_view]. unfold obj_lookup. rewrite Ht. by eapply json_value_get.
  - unfold readable. intros Hu. unfold item_property in Ho'. by rewrite Hu in Ho'.
  - intros o1 Ho1. rewrite Ho' in Ho1. injection Ho1 as <-. by rewrite Hty, Hpt.
  - intros o1 Ho1. rewrite Ho' in Ho1. injection Ho1 as <-. by rewrite Hty, Hpt.
Qed.

(** Items that are those of a form or the ones shown for its schema stand for
    parameters of the same types. *)
Lemma mixed_profile items props reqs items' :
  NoDup (names_of items) → plain_names (names_of items) → Forall item_ok items →
  obj_keys props = names_of items →
  (∀ j item, items !! j = Some item →
     ∃ o, item_property item = Ok o ∧ obj_get (name item) props = Some (VObj o)) →
  mixed_values (view_of reqs <$> props) items items' →
  ∃ schema, toSchema sec items' = Ok schema
    ∧ profile (names_of items) (types_in props) schema.
Proof.
  intros Hnd Hpl HF Hk Hget [Hn Hm].
  assert (∀ j item', items' !! j = Some item' → item_ok item' ∧
    ∀ o', item_property item' = Ok o' → property_type o' = types_in props (name item')) as Hall.
  { intros j item' Hj.
    assert (∃ item, items !! j = Some item ∧ name item = name item') as (item & Hi & Hname).
    { assert (names_of items !! j = Some (name item')) as H1.
      { rewrite <-Hn. unfold names_of. by rewrite list_lookup_fmap, Hj. }
      unfold names_of in H1. rewrite list_lookup_fmap in H1.
      apply fmap_Some in H1 as (item & Hi & ->). by exists item. }
    destruct (Hget j item Hi) as (o & Ho & Hg).
    assert (item_ok item) as Hok by (rewrite Forall_lookup in HF; by apply (HF j)).
    assert (types_in props (name item') = property_type o) as Hty.
    { unfold types_in. by rewrite <-Hname, Hg. }
    destruct (Hm j) as [Heq|Heq]; rewrite Hj in Heq.
    - rewrite Hi in Heq. injection Heq as ->. split; [done|]. intros o' Ho'.
      rewrite Ho in Ho'. injection Ho' as <-. by rewrite Hty.
    - rewrite list_lookup_fmap in Heq.
      destruct (props !! j) as [[k v]|] eqn:Hpj; simplify_eq/=.
      assert (obj_get (name item) props = Some v) as Hv.
      { apply obj_get_NoDup; [by rewrite Hk|]. by eapply list_elem_of_lookup_2. }
      rewrite Hg in Hv. simplify_eq. unfold view_of. cbn [fst snd own_props].
      destruct (item_property_type item o Ho) as [t Ht].
      destruct (view_item_ok reqs (name item) o t) as [H1 H2]; [|done| |].
      + by apply (item_property_json item).
      + destruct Hok as (_ & _ & Hs). specialize (Hs o Ho). unfold property_type, obj_lookup in Hs.
        by rewrite Ht in Hs.
      + split; [done|]. intros o' Ho'. rewrite (H2 o' Ho'). unfold types_in.
        cbn [name item_view]. rewrite Hg. cbn [own_props]. unfold property_type, obj_lookup.
        by rewrite Ht. }
  destruct (schema_of_ok items') as (os' & props' & reqs' & HF2 & Hs' & Hj' & Hsec' & Hk' & Hget');
    [by rewrite Hn|by rewrite Hn|apply Forall_lookup; intros j i Hj; by apply (Hall j)|].
  eexists. split; [exact Hs'|]. split; [done|]. exists props', (VStr <$> reqs').
  split; [done|]. split; [by rewrite Hk'|]. intros k o Hko.
  assert (k ∈ names_of items') as Hin by (rewrite <-Hk'; apply elem_of_obj_keys; by eexists).
  apply list_elem_of_fmap in Hin as (item' & -> & Hin). apply list_elem_of_lookup in Hin as [j Hj].
  destruct (Forall2_lookup_l _ _ _ _ _ HF2 Hj) as (o' & Ho' & Hi).
  rewrite (Hget' j item' o' Hj Ho') in Hko. simplify_eq. by apply (Hall j).
Qed.

Lemma dispatched_ok items schema :
  NoDup (names_of items) → toSchema sec items = Ok schema → dispatched sec items = Ok [schema].
Proof.
  intros Hnd Hs. unfold dispatched, onValue. rewrite (is_name _ _ Hsec). fold (names_of items).
  rewrite bool_decide_false; [by rewrite Hs|].
  assert (remove_dups (names_of items) ≡ₚ names_of items) as ->; [|lia].
  apply NoDup_Permutation; [apply NoDup_remove_dups|done|]. intros x. apply elem_of_remove_dups.
Qed.

Lemma settle_fuel f f' ed queue r :
  f ≤ f' → settle sec readOnly f ed queue = Some r → settle (A := A) sec readOnly f' ed queue = Some r.
Proof.
  revert f' ed queue. induction f as [|f IH]; intros f' ed queue Hle Hset.
  { destruct queue; [|done]. by destruct f'. }
  destruct f' as [|f']; [lia|]. destruct queue as [|schema queue]; [done|].
  cbn [settle] in Hset |- *. destruct (handle sec readOnly ed schema) as [[ed' more]|]; [|done].
  apply IH; [lia|done].
Qed.

Lemma mapM_dispatched items (em : list A) props reqs :
  NoDup (names_of items) → plain_names (names_of items) → Forall item_ok items →
  obj_keys props = names_of items →
  (∀ j item, items !! j = Some item →
     ∃ o, item_property item = Ok o ∧ obj_get (name item) props = Some (VObj o)) →
  Forall (λ e, mixed_values (view_of reqs <$> props) items (values e)) em →
  ∃ more, mapM (dispatched sec) (values <$> em) = Ok more
    ∧ Forall2 (λ e schema, toSchema sec (values e) = Ok schema) em (concat more)
    ∧ Forall (profile (names_of items) (types_in props)) (concat more).
Proof.
  intros Hnd Hpl HF Hk Hget. induction 1 as [|e em He _ (more & Hmore & HF2 & Hp)]; [by exists []|].
  destruct (mixed_profile items props reqs (values e)) as (schema & Hs & Hpr); [done..|].
  exists ([schema] :: more). rewrite fmap_cons. cbn [mapM].
  rewrite (dispatched_ok (values e) schema), Hmore; [|by rewrite (proj1 He)|done].
  split; [done|]. split; by constructor.
Qed.

(** An edit of the controls comes to rest after at most one update per
    parameter and one more; then the store has the schema of the form. *)
Lemma edit_comes_to_rest ed a' old props0 reqs0 :
  shown ed = Some old → section_schema old props0 reqs0 →
  length (obj_keys props0) = length (values a') →
  NoDup (names_of (values a')) → plain_names (names_of (values a')) →
  Forall item_ok (values a') →
  ∃ r, edit sec readOnly (S (length (values a'))) ed a' = Some r
    ∧ ∀ ed', r = Ok ed' →
        names_of (values (form ed')) = names_of (values a')
        ∧ shown ed' = Some (schemaOf sec (store ed'))
        ∧ toSchema sec (values (form ed')) = Ok (schemaOf sec (store ed')).
Proof.
  intros Hold Ho Hlen Hnd Hpl HF.
  destruct (schema_of_ok (values a')) as (os & props & reqs & HF2 & Hs & Hj & Hsec' & Hk & Hget);
    [done..|].
  assert (∀ j item, values a' !! j = Some item →
     ∃ o, item_property item = Ok o ∧ obj_get (name item) props = Some (VObj o)) as Hget'.
  { intros j item Hi. destruct (Forall2_lookup_l _ _ _ _ _ HF2 Hi) as (o & Ho' & Hio).
    exists o. split; [done|]. by eapply Hget. }
  unfold edit. rewrite (dispatched_ok _ _ Hnd Hs). cbn [settle]. unfold handle, follow.
  cbn [store shown form]. rewrite Hold.
  destruct (updateSchema sec (store ed) _) as [s'|e] eqn:Hu; [|by exists (Throw e)].
  cbn [mbind res_bind]. rewrite (is_stored _ _ Hsec _ _ _ Hj Hu).
  destruct (onSchema_renamed old props0 reqs0 _ props (VStr <$> reqs) a' Ho Hsec')
    as (a'' & em & -> & Hm & Hem & Hl & Hlast); [by rewrite Hlen, Hk; unfold names_of; rewrite length_fmap|done|].
  cbn [mbind res_bind].
  destruct (mapM_dispatched (values a') em props (VStr <$> reqs)) as (more & -> & HF2' & Hp); [done..|].
  cbn [mbind res_bind].
  assert (profile (names_of (values a')) (types_in props) (schema_form props reqs (Some ap))) as Hp0.
  { destruct (mixed_profile (values a') props (VStr <$> reqs) (values a')) as (sch & Hs' & Hpr);
      [done..|split; [done|by left]|]. rewrite Hs in Hs'. by simplify_eq. }
  destruct (settle_quiet (names_of (values a')) (types_in props) (concat more) s' a''
              (schema_form props reqs (Some ap))) as (r & Hr & Hr');
    [done| |by destruct Hm|done|by apply (is_stored _ _ Hsec _ _ _ Hj Hu)|done|].
  { intros k Hin. apply list_elem_of_fmap in Hin as (item & -> & Hin).
    apply list_elem_of_lookup in Hin as [j Hj']. destruct (Hget' j item Hj') as (o & Hio & Hg).
    unfold types_in. rewrite Hg. rewrite Forall_lookup in HF. by apply (HF j item Hj'). }
  exists r. split.
  - eapply settle_fuel; [|exact Hr]. rewrite <-(Forall2_length _ _ _ HF2'), Hl.
    unfold changedTypes. etransitivity; [apply filter_length_le|].
    rewrite Hk. unfold names_of. by rewrite length_fmap.
  - intros ed' He. destruct (Hr' ed' He) as (-> & Hsh & Hl').
    split; [by destruct Hm|]. split; [done|].
    refine (Forall2_last (λ e schema, toSchema sec (values e) = Ok schema)
              em (concat more) a' _ _ _ HF2' Hs Hlast Hl').
Qed.
End loop.

(** ** The sections *)

Lemma patched_schema s vs kvs key schema :
  obj_get key (reverse kvs) = Some schema → prop (module (patchSection s vs kvs)) key = schema.
Proof. intros H. by rewrite module_patchSection, prop_spread, H. Qed.

Lemma config_item_section : item_section EditConfigSection false.
Proof.
  split; try done.
  - intros schema props reqs _. simpl. by rewrite view_names.
  - intros s schema s' [Hj _] H. cbn [EditConfigSection updateSchema schemaOf] in *.
    unfold on_updateConfigSchema, updateParams in H. inv_res.
    rewrite module_patchSection, prop_spread. by apply clone_json.
Qed.

Lemma fields_item_section : item_section EditFieldsSection true.
Proof.
  split; try done.
  - intros schema props reqs [Ho Hp _ _ _]. simpl. unfold propertyNames.
    rewrite get_is_obj, Hp by done. done.
  - intros s schema s' _ H. cbn [EditFieldsSection updateSchema schemaOf] in *.
    unfold on_updateFieldsSchema in H. inv_res.
    repeat (case_match; simplify_eq; inv_res).
    rewrite module_patchSection, prop_spread. done.
Qed.

(** ** Loading and removing *)

Lemma filter_none_in {B} (f : B → bool) l : (∀ x, x ∈ l → f x = false) → List.filter f l = [].
Proof.
  induction l as [|x l IH]; intros Hf; simpl; [done|]. rewrite Hf by apply list_elem_of_here.
  apply IH. intros y Hy. by apply Hf, list_elem_of_further.
Qed.

Lemma filter_none {B} (f : B → bool) l : (∀ x, f x = false) → List.filter f l = [].
Proof. intros Hf. by apply filter_none_in. Qed.

Section load.
Context {A : Type} `{FormArrayLaws A (Group ConfigurationItem)}.
Context (sec : Section_ ConfigurationItem) (ap : bool) (Hsec : item_section sec ap).
Context (readOnly : bool).

#[local] Abbreviation onSchema := (onSchema (A := A) sec readOnly).
#[local] Abbreviation values := (values (A := A) (T := ConfigurationItem)).

Lemma empty_section : section_schema (getEmptySchema None) [] [].
Proof. split; [by eexists|done|done|apply obj_wf_nil|done]. Qed.

Lemma changes_from_nothing names :
  NoDup names → (getChangesArrays [] names).1 = (sort_strings names, []).
Proof.
  intros Hnd. unfold getChangesArrays. cbn [app].
  change (list_minus (sort_strings []) (sort_strings names)) with (@nil string).
  assert (list_minus (sort_strings names) (sort_strings []) = sort_strings names) as ->.
  { unfold list_minus. change (sort_strings []) with (@nil string).
    induction (sort_strings names) as [|x l IH]; [done|].
    rewrite filter_cons_True by (by intros []%elem_of_nil). by rewrite IH. }
  simpl. case_bool_decide as Hz.
  - apply nil_length_inv in Hz. by rewrite Hz.
  - rewrite bool_decide_false; [done|]. by intros Heq.
Qed.

(** A form that is empty shows the parameters of a schema sorted by name. *)
Lemma onSchema_loads new props reqs (a : A) :
  section_schema new props reqs → controls a = [] →
  ∃ a' tab, onSchema None new a = Ok (a', [], tab)
    ∧ names_of (values a') = sort_strings (obj_keys props).
Proof.
  intros Hn Ha. pose proof (section_wf _ _ _ Hn) as [Hnd _].
  unfold ParamForms.onSchema. change (default (getEmptySchema None) None) with (getEmptySchema None).
  rewrite !(is_model _ _ Hsec), (model_of_section _ _ _ empty_section), (model_of_section _ _ _ Hn).
  cbn [mbind res_bind].
  rewrite (is_names _ _ Hsec _ _ _ empty_section), (is_names _ _ Hsec _ _ _ Hn).
  cbn [mbind res_bind]. change (obj_keys []) with (@nil string).
  pose proof (changes_from_nothing _ Hnd) as Hch.
  destruct (getChangesArrays [] (obj_keys props)) as [[added removed] renamed].
  simpl in Hch. injection Hch as -> ->. rewrite (is_name _ _ Hsec).
  assert (changedTypes sec (obj_keys props) (view_of reqs <$> props) (view_of [] <$> []) = []) as ->.
  { unfold changedTypes. apply filter_none. intros k.
    by destruct (find_item sec k (view_of reqs <$> props)). }
  unfold applyDiff. change (removeNames name [] (view_of [] <$> []) a) with (Ok a).
  cbn [mbind res_bind].
  destruct (addNames_push name (getParamFormGroup readOnly) (sort_strings (obj_keys props))
              (view_of reqs <$> props) a) as (a' & gs & -> & Hc & Hgs & _).
  { intros k Hk. rewrite elem_of_sort_strings in Hk. fold (names_of (view_of reqs <$> props)).
    by rewrite view_names. }
  cbn [mbind res_bind]. eexists a', _. split; [done|].
  rewrite names_values, Hc, Ha. cbn [app]. rewrite <-list_fmap_compose, <-Hgs. done.
Qed.

Lemma delete_names (names : list string) i k :
  NoDup names → names !! i = Some k → base.delete i names = filter (λ x, x ≠ k) names.
Proof.
  intros Hnd Hi. pose proof (delete_filter id names i k) as Hf.
  rewrite list_fmap_id in Hf. by apply Hf.
Qed.

Lemma changes_one_removed (names : list string) i k :
  NoDup names → names !! i = Some k →
  (getChangesArrays names (base.delete i names)).1 = ([], [k]).
Proof.
  intros Hnd Hi.
  pose proof (delete_names _ i k Hnd Hi) as Hd.
  set (arr1 := sort_strings names). set (arr2 := sort_strings (base.delete i names)).
  assert (list_minus arr2 arr1 = []) as H2.
  { apply elem_of_nil_inv. intros x. unfold arr1, arr2. rewrite elem_of_list_minus, !elem_of_sort_strings, Hd.
    rewrite list_elem_of_filter. tauto. }
  assert (list_minus arr1 arr2 = [k]) as H1.
  { apply Permutation_singleton_r, NoDup_Permutation.
    - by apply NoDup_list_minus, NoDup_sort_strings.
    - apply NoDup_singleton.
    - intros x. unfold arr1, arr2. rewrite elem_of_list_minus, !elem_of_sort_strings, Hd, list_elem_of_filter.
      rewrite list_elem_of_singleton. split.
      + intros [Hx Hn]. destruct (decide (x = k)); [done|]. destruct Hn. by split.
      + intros ->. split; [by eapply list_elem_of_lookup_2|]. intros [? _]. done. }
  unfold getChangesArrays. fold arr1 arr2. by rewrite H1, H2.
Qed.

Lemma obj_keys_del_names {B} k (o : obj B) :
  obj_keys (obj_del k o) = filter (λ x, x ≠ k) (obj_keys o).
Proof.
  unfold obj_del, obj_keys. induction o as [|[k1 v] o IH]; [done|].
  cbn [fmap list_fmap]. rewrite !filter_cons. cbn [fst].
  repeat case_decide; try done. cbn [fmap list_fmap]. by f_equal.
Qed.

(** The parameters that are left keep their types. *)
Lemma changedTypes_removed k reqs reqs' props :
  NoDup (obj_keys props) →
  (∀ k' v, obj_get k' props = Some v →
     strict_eq (property_type (own_props v)) (property_type (own_props v)) = true) →
  changedTypes sec (obj_keys (obj_del k props)) (view_of reqs' <$> obj_del k props)
    (view_of reqs <$> props) = [].
Proof.
  intros Hnd Hs. unfold changedTypes. apply filter_none_in. intros x Hx.
  apply obj_keys_del in Hx as Hx'. destruct Hx' as [Hne Hin].
  apply elem_of_obj_keys in Hin as [v Hv].
  rewrite (find_view sec ap Hsec reqs props x v) by done.
  rewrite (find_view sec ap Hsec reqs' (obj_del k props) x v).
  - rewrite (is_type _ _ Hsec).
    change (type (view_of reqs' (x, v))) with (property_type (own_props v)).
    change (type (view_of reqs (x, v))) with (property_type (own_props v)).
    by rewrite (Hs x v).
  - rewrite obj_keys_del_names. by apply NoDup_filter.
  - by rewrite obj_get_del_ne.
Qed.

(** When one parameter was removed from the schema, the form removes the group
    at its place in the schema. *)
Lemma onSchema_removes old new props reqs reqs' i k (a : A) :
  section_schema old props reqs → section_schema new (obj_del k props) reqs' →
  obj_keys props !! i = Some k → length (controls a) = length (obj_keys props) →
  (∀ k' v, obj_get k' props = Some v →
     strict_eq (property_type (own_props v)) (property_type (own_props v)) = true) →
  ∃ a', onSchema (Some old) new a = Ok (a', [], None)
    ∧ names_of (values a') = base.delete i (names_of (values a)).
Proof.
  intros Ho Hn Hi Hlen Hs. pose proof (section_wf _ _ _ Ho) as [Hnd _].
  unfold ParamForms.onSchema. change (default (getEmptySchema None) (Some old)) with old.
  rewrite !(is_model _ _ Hsec), (model_of_section _ _ _ Ho), (model_of_section _ _ _ Hn).
  cbn [mbind res_bind]. rewrite (is_names _ _ Hsec _ _ _ Ho), (is_names _ _ Hsec _ _ _ Hn).
  cbn [mbind res_bind].
  pose proof (changes_one_removed _ i k Hnd Hi) as Hch.
  rewrite (delete_names _ i k Hnd Hi), <-obj_keys_del_names in Hch.
  destruct (getChangesArrays (obj_keys props) (obj_keys (obj_del k props))) as [[added removed] renamed].
  simpl in Hch. injection Hch as -> ->. rewrite (is_name _ _ Hsec), changedTypes_removed by done.
  assert (index_of name k (view_of reqs <$> props) = Some i) as Hix.
  { destruct (index_of_Some name k (view_of reqs <$> props)) as [j Hj].
    { fold (names_of (view_of reqs <$> props)). rewrite view_names. by eapply list_elem_of_lookup_2. }
    rewrite Hj. apply index_of_lookup in Hj. fold (names_of (view_of reqs <$> props)) in Hj.
    rewrite view_names in Hj. f_equal. by apply (NoDup_lookup (obj_keys props) j i k). }
  unfold applyDiff, removeNames. cbn [mapM]. rewrite Hix.
  cbn [of_option mbind res_bind mret res_ret].
  change (merge_sort index_desc [i]) with [i]. cbn [foldl addNames foldM default].
  cbn [mbind res_bind]. exists (removeAt i a). split; [done|].
  rewrite !names_values. rewrite controls_removeAt.
  - apply list_eq. intros j.
    rewrite list_lookup_fmap. destruct (decide (j < i)).
    + by rewrite !list_lookup_delete_lt, list_lookup_fmap.
    + by rewrite !list_lookup_delete_ge, list_lookup_fmap by lia.
  - rewrite Hlen. apply lookup_lt_Some in Hi. done.
Qed.
End load.
