(* ===== verification/FormTheorems.v ===== *)
(** * Theorems about the forms of parameter lists

    What a section of the module editor keeps of a schema, that its form and
    the store come to rest after an edit, and where the two part. *)

From stdpp Require Import list sorting.
From Stdlib Require Import Ascii.
From S2P Require Import Prelude JsString JsValue JsJson JsonText SharedUtils.
From S2P Require Import ModuleEditState ModuleEditConfig ModuleEditFields ModuleEditReducer.
From S2P Require Import ModuleEditSamples FormFacts ParamForms ParamFormFacts.
Import PropertyType.

(** ** What a form keeps *)

Lemma items_of_properties reqs props :
  json_value (VObj props) → Forall (λ kv, has_type kv.2) props →
  ∃ os, mapM item_property (view_of reqs <$> props) = Ok os
    ∧ Forall2 (λ kv o', ∃ o, kv.2 = VObj o ∧ o' ≡ₒ form_view o) props os.
Proof.
  intros [_ HF]%json_value_obj Ht. induction props as [|[k v] props IH]; [by exists []|].
  apply Forall_cons_1 in HF as [[Hj Hp] HF]. apply Forall_cons_1 in Ht as [(o & Hv & Hty) Ht].
  simpl in Hj, Hp, Hv. subst v.
  destruct (IH HF Ht) as (os & Hos & HF2).
  destruct (item_view_property reqs k o Hj Hp Hty) as (o' & Ho' & He).
  exists (o' :: os). rewrite fmap_cons. cbn [mapM].
  change (view_of reqs (k, VObj o)) with (item_view reqs k o). rewrite Ho', Hos.
  split; [done|]. constructor; [|done]. by exists o.
Qed.

(** The schema read back from what is shown of properties. *)
Lemma schema_of_views reqs props ap :
  obj_wf props → json_value (VObj props) → Forall (λ kv, has_type kv.2) props →
  ∃ props',
    getSchemaFromModel (view_of reqs <$> props) ap true =
      Ok (schema_form props' (List.filter (is_required reqs) (obj_keys props)) ap) ∧
    obj_keys props' = obj_keys props ∧
    ∀ k o, obj_get k props = Some (VObj o) →
      ∃ o', obj_get k props' = Some (VObj o') ∧ o' ≡ₒ form_view o.
Proof.
  intros Hwf Hj Ht.
  destruct (items_of_properties reqs props Hj Ht) as (os & Hos & HF2).
  pose proof (Forall2_length _ _ _ HF2) as Hlen.
  assert (obj_keys (zip (obj_keys props) (VObj <$> os)) = obj_keys props) as Hk.
  { apply zip_keys. unfold obj_keys. by rewrite !length_fmap. }
  exists (zip (obj_keys props) (VObj <$> os)). split; [|split; [done|]].
  - rewrite (schema_of_items _ ap os); [|rewrite view_names; apply Hwf|done].
    rewrite view_names, obj_assign_nil.
    + do 2 f_equal. unfold names_of, obj_keys. clear. induction props as [|[k v] props IH]; [done|].
      cbn [fmap list_fmap List.filter]. change (required (view_of reqs (k, v))) with (is_required reqs k).
      cbn [fst]. destruct (is_required reqs k); cbn [fmap list_fmap]; by rewrite IH.
    + destruct Hwf as [Hnd Hord]. split; rewrite ?Hk; done.
  - intros k o Hg. apply obj_get_Some_elem, list_elem_of_lookup in Hg as [j Hj'].
    destruct (Forall2_lookup_l _ _ _ _ _ HF2 Hj') as (o' & Ho' & o1 & Ho1 & He).
    simplify_eq/=. exists o'. split; [|done].
    apply (obj_get_zip _ _ j); [apply Hwf| |by rewrite list_lookup_fmap, Ho'].
    unfold obj_keys. by rewrite list_lookup_fmap, Hj'.
Qed.

(** C9: A schema that is shown in a form and read back has the same
    parameters in the same order; the required ones are those that are named
    in it.  Each parameter keeps its properties, but loses its own list of
    required names, which an object parameter gets back empty. *)
Theorem form_keeps_schema schema props reqs ap :
  section_schema schema props reqs → json_value (VObj props) →
  Forall (λ kv, has_type kv.2) props →
  ∃ items props',
    getModelFromSchema schema true = Ok items ∧
    getSchemaFromModel items ap true =
      Ok (schema_form props' (List.filter (is_required reqs) (obj_keys props)) ap) ∧
    obj_keys props' = obj_keys props ∧
    ∀ k o, obj_get k props = Some (VObj o) →
      ∃ o', obj_get k props' = Some (VObj o') ∧ o' ≡ₒ form_view o.
Proof.
  intros Hs Hj Ht. destruct (schema_of_views reqs props ap) as (props' & H); [by apply Hs|done..|].
  exists (view_of reqs <$> props), props'. split; [by apply model_of_section|done].
Qed.

(** The properties of the schema of [items], place by place. *)
Lemma form_properties_at items os :
  NoDup (names_of items) → plain_names (names_of items) →
  Forall2 (λ i o, item_property i = Ok o) items os →
  obj_assign [] (zip (names_of items) (VObj <$> os)) = zip (names_of items) (VObj <$> os).
Proof.
  intros Hnd Hpl HF2. pose proof (Forall2_length _ _ _ HF2) as Hlen.
  assert (obj_keys (zip (names_of items) (VObj <$> os)) = names_of items) as Hk.
  { apply zip_keys. unfold names_of. by rewrite !length_fmap. }
  rewrite obj_assign_plain; [done|by rewrite app_nil_l, Hk|by rewrite Hk].
Qed.

(** The names that are required, looked up item by item. *)
Lemma required_shown items :
  NoDup (names_of items) →
  (λ item, is_required (VStr <$> names_of (List.filter required items)) (name item)) <$> items
  = required <$> items.
Proof.
  intros Hnd. apply list_fmap_ext. intros j item Hj. rewrite is_required_vstrs.
  apply eq_true_iff_eq. rewrite existsb_eqb. unfold names_of at 1.
  rewrite list_elem_of_fmap. setoid_rewrite list_elem_of_In. setoid_rewrite filter_In. split.
  - intros (item1 & Hn & Hin & Hr). apply list_elem_of_In, list_elem_of_lookup in Hin as [j1 Hj1].
    assert (j1 = j) as ->; [|by simplify_eq].
    apply (NoDup_lookup (names_of items) j1 j (name item)); [done|..];
      unfold names_of; rewrite list_lookup_fmap; [by rewrite Hj1, Hn|by rewrite Hj].
  - intros Hr. exists item. split; [done|]. split; [|done].
    apply list_elem_of_In. by eapply list_elem_of_lookup_2.
Qed.

(** Items of different names survive the schema: shown again, they have
    the same names, the same required marks, the type that their property has
    (their own one, or the one of their text), and a text that stands for the
    same property. *)
Theorem items_survive items ap :
  NoDup (names_of items) → plain_names (names_of items) → Forall item_ok items →
  ∃ schema items',
    getSchemaFromModel items ap true = Ok schema ∧
    getModelFromSchema schema true = Ok items' ∧
    names_of items' = names_of items ∧ required <$> items' = required <$> items ∧
    Forall2 (λ item item', ∃ o o',
      item_property item = Ok o ∧ type item' = property_type o ∧
      item_property item' = Ok o' ∧ o' ≡ₒ form_view o) items items'.
Proof.
  intros Hnd Hpl HF.
  destruct (mapM_Ok item_property items) as (os & Hos & HF2).
  { eapply Forall_impl; [exact HF|]. intros i (_ & Hr & _). by apply readable_property. }
  destruct (form_properties items os Hnd HF2) as (Hwf & _ & Hk & Hp & Hget).
  specialize (Hk Hpl). rewrite (form_properties_at items os) in * by done.
  set (props := zip (names_of items) (VObj <$> os)) in *.
  set (reqs := names_of (List.filter required items)).
  exists (schema_form props reqs ap), (view_of (VStr <$> reqs) <$> props).
  split.
  { rewrite (schema_of_items _ ap os), (form_properties_at items os) by done. done. }
  split; [by apply model_of_section, schema_form_section|]. split; [by rewrite view_names|]. split.
  - rewrite <-(required_shown items Hnd). fold reqs.
    assert (∀ l, required <$> (view_of (VStr <$> reqs) <$> l)
                 = is_required (VStr <$> reqs) <$> obj_keys l) as ->.
    { intros l. unfold obj_keys. by rewrite <-!list_fmap_compose. }
    rewrite Hk. unfold names_of. by rewrite <-list_fmap_compose.
  - clear Hwf Hk Hp Hget Hos Hnd Hpl. subst props. unfold names_of.
    generalize (VStr <$> reqs). intros rs. clear reqs.
    induction HF2 as [|item o items os Ho HF2 IH]; [constructor|].
    apply Forall_cons_1 in HF as [Hok HF]. cbn [fmap list_fmap zip_with]. constructor; [|by apply IH].
    destruct (item_property_json item o Hok Ho) as [Hoj Hop].
    destruct (item_view_property rs (name item) o Hoj Hop (item_property_type item o Ho))
      as (o' & Ho' & He).
    by exists o, o'.
Qed.

(** ** The loop of form and store *)

(** C10: When the user edits the controls of the configuration or of the fields
    section — without adding or removing items, under distinct names that are
    not array indices, and with texts that can be read and leave every item a
    type that is neither an array nor an object ([item_ok]) — form and store
    come to rest after at most one update per parameter and one more (unless
    the store throws): the form keeps its names, and the store has the schema
    of the items in the form.  Without the condition on types the edit may
    never come to rest ([array_type_never_rests]). *)
Theorem edit_settles {A} `{FormArrayLaws A (Group ConfigurationItem)}
    sec readOnly (ed : Editor (A := A)) (form' : A) old props reqs :
  sec ∈ [EditConfigSection; EditFieldsSection] →
  shown ed = Some old → section_schema old props reqs →
  length (obj_keys props) = length (values form') →
  NoDup (names_of (values form')) → plain_names (names_of (values form')) →
  Forall item_ok (values form') →
  ∃ r, edit sec readOnly (S (length (values form'))) ed form' = Some r
    ∧ ∀ ed', r = Ok ed' →
        names_of (values (form ed')) = names_of (values form')
        ∧ shown ed' = Some (schemaOf sec (store ed'))
        ∧ toSchema sec (values (form ed')) = Ok (schemaOf sec (store ed')).
Proof.
  intros Hsec. apply elem_of_cons in Hsec as [->|Hsec].
  - by apply edit_comes_to_rest with (ap := false), config_item_section.
  - apply list_elem_of_singleton in Hsec as ->.
    by apply edit_comes_to_rest with (ap := true), fields_item_section.
Qed.

(** *** Removing a parameter *)

Lemma removeFromSchema_section schema props reqs k new :
  json_value schema → section_schema schema props reqs → removeFromSchema schema k = Ok new →
  ∃ reqs', section_schema new (obj_del k props) reqs'.
Proof.
  intros [Hj _] [[o ->] Hp _ Hwf HF] H. unfold removeFromSchema in H.
  rewrite clone_json in H by done. cbn [update_path get mbind res_bind] in H.
  change (obj_lookup "properties" o) with (prop (VObj o) "properties") in H. rewrite Hp in H.
  inv_res. cbn [set get mbind res_bind] in *. inv_res.
  cbn [set] in *. simplify_eq.
  eexists. split; [by eexists| | | |].
  - cbn [prop]. unfold obj_lookup. rewrite !obj_get_set. cbn [del] in H. by simplify_eq.
  - done.
  - by apply obj_del_wf.
  - unfold obj_del. apply Forall_forall. intros kv [_ Hin]%list_elem_of_filter.
    rewrite Forall_forall in HF. by apply HF.
Qed.

Lemma removeParam_section sec s s' k props reqs :
  (sec = configSection ∨ sec = secureSection) →
  json_value (prop (module s) (paramSchemaKey sec)) →
  section_schema (prop (module s) (paramSchemaKey sec)) props reqs →
  removeParam sec s k = Ok s' →
  ∃ reqs', section_schema (prop (module s') (paramSchemaKey sec)) (obj_del k props) reqs'.
Proof.
  intros Hsec Hj Hs H. unfold removeParam in H. inv_res.
  match goal with Hg : get _ (paramSchemaKey sec) = Ok ?v |- _ =>
    assert (prop (module s) (paramSchemaKey sec) = v) as Hv end.
  { destruct (module s); simpl in *; simplify_eq; done. }
  rewrite <-Hv in *.
  match goal with Hr : removeFromSchema _ _ = Ok _ |- _ =>
    destruct (removeFromSchema_section _ _ _ _ _ Hj Hs Hr) as [reqs' Hs'] end.
  exists reqs'. rewrite module_patchModule, prop_spread.
  by destruct Hsec as [-> | ->].
Qed.

Section removal.
Context {A : Type} `{FormArrayLaws A (Group ConfigurationItem)}.

(** The configuration section shows the parameters of a module sorted by
    name.  When one of them is removed, the form drops the group at the place
    that the parameter has in the schema: the form still has the names of the
    schema only if that is its place in the sorted list too. *)
Theorem removal_takes_schema_place readOnly s0 (a : A) s s' i k props reqs :
  controls a = [] → json_value (prop (module s) "config_schema") →
  section_schema (prop (module s) "config_schema") props reqs →
  (∀ k v, obj_get k props = Some v →
     strict_eq (property_type (own_props v)) (property_type (own_props v)) = true) →
  obj_keys props !! i = Some k → reducer s (removeConfigParam k) = Ok s' →
  ∃ ed ed' props' reqs',
    storeChanged EditConfigSection readOnly 0 (mkEditor s0 a None) s = Some (Ok ed) ∧
    storeChanged EditConfigSection readOnly 0 ed s' = Some (Ok ed') ∧
    section_schema (prop (module (store ed')) "config_schema") props' reqs' ∧
    names_of (values (form ed)) = sort_strings (obj_keys props) ∧
    names_of (values (form ed')) = base.delete i (sort_strings (obj_keys props)) ∧
    (names_of (values (form ed')) ≡ₚ obj_keys props' ↔
     sort_strings (obj_keys props) !! i = Some k).
Proof.
  intros Ha Hj Hs Ht Hi Hr.
  assert (on_removeConfigParam s k = Ok s') as Hr'.
  { unfold reducer in Hr. cbn [on_loading on_operations on_sections on_files on_dependencyData
      on_state mbind res_bind] in Hr. by destruct (on_removeConfigParam s k). }
  destruct (removeParam_section configSection s s' k props reqs) as [reqs' Hs']; [by left|done..|].
  destruct (onSchema_loads EditConfigSection false config_item_section readOnly
              (prop (module s) "config_schema") props reqs a) as (a1 & tab & H1 & Hn1); [done..|].
  assert (length (controls a1) = length (obj_keys props)) as Hlen.
  { rewrite <-(Permutation_length (sort_strings_perm (obj_keys props))), <-Hn1, names_values.
    by rewrite length_fmap. }
  destruct (onSchema_removes EditConfigSection false config_item_section readOnly
              (prop (module s) "config_schema") (prop (module s') "config_schema")
              props reqs reqs' i k a1) as (a2 & H2 & Hn2); [done..|].
  exists (mkEditor s a1 (Some (prop (module s) "config_schema"))),
    (mkEditor s' a2 (Some (prop (module s') "config_schema"))), (obj_del k props), reqs'.
  unfold storeChanged, follow. cbn [shown form store].
  change (schemaOf EditConfigSection s) with (prop (module s) "config_schema").
  change (schemaOf EditConfigSection s') with (prop (module s') "config_schema").
  rewrite H1, H2.
  split; [done|]. split; [done|]. split; [done|]. split; [done|].
  rewrite Hn2, Hn1. split; [done|].
  pose proof (section_wf _ _ _ Hs) as [Hnd _].
  rewrite obj_keys_del_names. rewrite <-(delete_names _ i k Hnd Hi).
  set (names := obj_keys props) in *.
  assert (NoDup (sort_strings names)) as Hnds by by apply NoDup_sort_strings.
  assert (i < length (sort_strings names)) as [k' Hk']%lookup_lt_is_Some.
  { rewrite (Permutation_length (sort_strings_perm names)). by eapply lookup_lt_Some. }
  rewrite Hk', (delete_names _ i k Hnd Hi), (delete_names _ i k' Hnds Hk'). split.
  - intros Hp. f_equal. destruct (decide (k' = k)) as [|Hne]; [done|].
    assert (k ∈ filter (λ x, x ≠ k) names) as [? _]%list_elem_of_filter; [|done].
    rewrite <-Hp. apply list_elem_of_filter. split; [by intros ->|].
    rewrite elem_of_sort_strings. by eapply list_elem_of_lookup_2.
  - intros [= ->]. by rewrite (sort_strings_perm names).
Qed.
End removal.

(** *** Edits that do not come to rest, or get lost *)

Section lost.
Context {A T : Type} `{!FormArray A (Group T)} (sec : Section_ T) (readOnly : bool).

Lemma settle_cycle (ed : Editor (A := A)) schema fuel :
  handle sec readOnly ed schema = Ok (ed, [schema]) → settle sec readOnly fuel ed [schema] = None.
Proof. intros Hh. induction fuel as [|fuel IH]; [done|]. cbn [settle]. by rewrite Hh. Qed.

Lemma edit_lost (ed : Editor (A := A)) form' :
  toSchema sec (values form') = Throw TypeError →
  edit sec readOnly 0 ed form' = Some (Ok (mkEditor (store ed) form' (shown ed))).
Proof.
  intros Ht. unfold edit, dispatched, onValue.
  destruct (bool_decide _); [done|]. by rewrite Ht.
Qed.
End lost.

(** The section of a module with one parameter, and its form when the text of
    the parameter gives it an array for a type. *)
Definition sampleEditor : Editor (A := list (Group ConfigurationItem)) :=
  match storeChanged EditConfigSection false 0 (mkEditor initialState [] None) sampleParam with
  | Some (Ok ed) => ed
  | _ => mkEditor initialState [] None
  end.

Definition arrayTypeForm : list (Group ConfigurationItem) :=
  [getParamFormGroup false
     (mkItem "param_1" false (VStr STRING) (json_text_2 (obj_lit [("type", VArr [])])))].

(** A text that replaces the type of a parameter by an array keeps form
    and store busy for ever: types are compared by identity, and every update
    makes a new array. *)
Theorem array_type_never_rests fuel :
  names_of (values (form sampleEditor)) = names_of (values arrayTypeForm) ∧
  edit EditConfigSection false fuel sampleEditor arrayTypeForm = None.
Proof.
  split; [vm_compute; reflexivity|]. unfold edit.
  destruct (dispatched EditConfigSection (values arrayTypeForm)) as [queue|] eqn:Hd;
    vm_compute in Hd; [|discriminate]. injection Hd as <-.
  destruct fuel as [|fuel]; [reflexivity|]. cbn [settle].
  match goal with |- context [handle ?sec ?r ?ed ?sch] =>
    destruct (handle sec r ed sch) as [[ed1 more]|] eqn:Hh end;
    vm_compute in Hh; [|discriminate].
  injection Hh as <- <-. destruct fuel as [|fuel]; [reflexivity|]. cbn [settle app].
  match goal with |- context [handle ?sec ?r ?ed ?sch] =>
    destruct (handle sec r ed sch) as [[ed2 more]|] eqn:Hh end;
    vm_compute in Hh; [|discriminate].
  injection Hh as <- <-. cbn [app]. apply settle_cycle. vm_compute. reflexivity.
Qed.

Lemma secure_nested_throws data field :
  put_secure_nested data field emptyObjectSchema = Throw TypeError.
Proof. unfold put_secure_nested. by destruct (required (secureItem data)). Qed.

Lemma at_parent_throws path f e :
  f emptyObjectSchema = Throw e → at_parent emptyObjectSchema path f = Throw e.
Proof.
  intros Hf. induction path as [|p path IH]; [done|]. simpl. by rewrite IH.
Qed.

Lemma split_removelast c s a rest :
  split c s = a :: rest → rest ≠ [] → removelast (split c s) = a :: removelast rest.
Proof. intros -> Hr. by destruct rest. Qed.

(** A secure parameter whose name has a dot is lost, unless what is before
    the dot names a parameter above it in the form: the conversion to a schema
    throws, the form shows the edit, and the store keeps what it had. *)
Theorem dotted_secure_name_lost {A} `{!FormArray A (Group SecureConfigurationItem)}
    readOnly (ed : Editor (A := A)) (form' : A) above item below schema a b rest :
  values form' = above ++ item :: below →
  getSecureConfigSchemaFromModel above (Some false) false = Ok schema →
  split "."%char (name (secureItem item)) = a :: b :: rest →
  get_path schema ["properties"; a] = Ok VUndef →
  edit EditSecureConfigSection readOnly 0 ed form' =
    Some (Ok (mkEditor (store ed) form' (shown ed))).
Proof.
  intros Hv Hs Hsplit Ha. apply edit_lost. rewrite Hv. cbn [toSchema EditSecureConfigSection].
  unfold getSecureConfigSchemaFromModel in *. rewrite foldM_app, Hs. cbn [mbind res_bind foldM].
  assert (add_to_secure_schema false schema item = Throw TypeError) as ->; [|done].
  unfold add_to_secure_schema, item_path.
  rewrite (split_removelast _ _ a (b :: rest)) by done.
  rewrite bool_decide_false by by rewrite Hsplit.
  cbn [at_parent]. cbn [get_path] in Ha.
  destruct (get schema "properties") as [props|]; [|done]. cbn [mbind res_bind] in Ha |- *.
  destruct (get props a) as [o|]; [|done]. cbn [mbind res_bind] in Ha |- *. simplify_eq.
  change (not_object_schema VUndef) with (Ok true). cbn [mbind res_bind].
  rewrite at_parent_throws with (e := TypeError); [done|]. apply secure_nested_throws.
Qed.

(** ** The theorems at concrete inputs *)

(** Two parameters, not in alphabetical order; the second is an object with a
    required member. *)
Definition twoParams : obj val :=
  [("port", stringProperty);
   ("host", obj_lit [("type", VStr OBJECT);
      ("properties", obj_lit [("name", stringProperty)]); ("required", vstrs ["name"])])].
Definition twoSchema : val := schema_form twoParams ["host"] (Some false).

Lemma twoParams_json : json_value (VObj twoParams).
Proof. split; vm_compute; reflexivity. Qed.

Lemma twoSchema_section : section_schema twoSchema twoParams (VStr <$> ["host"]).
Proof.
  apply schema_form_section.
  - apply json_value_obj, twoParams_json.
  - pose proof twoParams_json as [Hj _]. apply is_json_obj in Hj as [_ HF].
    repeat apply List.Forall_cons; [..|done]; eexists; (split; [reflexivity|]); simpl.
    + by apply is_json_obj, (Forall_inv HF).
    + by apply is_json_obj, (Forall_inv (Forall_inv_tail HF)).
Qed.

Lemma form_keeps_schema_witness :
  ∃ items props', getModelFromSchema twoSchema true = Ok items ∧
    getSchemaFromModel items (Some false) true = Ok (schema_form props' ["host"] (Some false)) ∧
    obj_keys props' = ["port"; "host"] ∧
    ∃ o', obj_get "host" props' = Some (VObj o') ∧ obj_get "required" o' = Some (VArr []).
Proof.
  destruct (form_keeps_schema twoSchema twoParams (VStr <$> ["host"]) (Some false)
              twoSchema_section twoParams_json) as (items & props' & H1 & H2 & H3 & H4).
  { repeat apply List.Forall_cons; [..|done]; eexists; (split; [reflexivity|]); by eexists. }
  exists items, props'. split; [exact H1|]. split; [exact H2|]. split; [exact H3|].
  destruct (H4 "host" _ eq_refl) as (o' & Ho' & He). exists o'. split; [exact Ho'|].
  rewrite (He "required"), get_form_view. reflexivity.
Defined.

Definition twoItems : list ConfigurationItem :=
  [mkItem "port" true (VStr STRING) "{}"; mkItem "host" false (VStr INTEGER) "{"].

Lemma twoItems_ok : Forall item_ok twoItems.
Proof.
  repeat apply List.Forall_cons; [..|done]; (split; [by split|]); (split; [by vm_compute|]);
    intros o Ho; vm_compute in Ho; injection Ho as <-; reflexivity.
Qed.

Lemma items_survive_witness :
  ∃ schema items', getSchemaFromModel twoItems None true = Ok schema ∧
    getModelFromSchema schema true = Ok items' ∧ names_of items' = ["port"; "host"] ∧
    required <$> items' = [true; false].
Proof.
  destruct (items_survive twoItems None) as (schema & items' & H1 & H2 & H3 & H4 & _).
  - apply (bool_decide_unpack _). vm_compute. done.
  - apply (bool_decide_unpack _). vm_compute. done.
  - exact twoItems_ok.
  - exists schema, items'. split; [exact H1|]. split; [exact H2|]. split; [exact H3|exact H4].
Defined.

(** The user renames the parameter and makes it a number. *)
Definition renamedForm : list (Group ConfigurationItem) :=
  [getParamFormGroup false (mkItem "port" true (VStr INTEGER) "{}")].

Lemma edit_settles_witness :
  ∃ ed', edit EditConfigSection false 2 sampleEditor renamedForm = Some (Ok ed') ∧
    Ok (prop (module (store ed')) "config_schema")
      = getSchemaFromModel (values (form ed')) (Some false) true.
Proof.
  destruct (edit_settles EditConfigSection false sampleEditor renamedForm
              (prop (module sampleParam) "config_schema") [("param_1", stringProperty)] [])
    as (r & Hr & Hok).
  - apply list_elem_of_here.
  - vm_compute. reflexivity.
  - split; [by eexists|vm_compute; reflexivity|vm_compute; reflexivity| |].
    + apply (bool_decide_unpack _). vm_compute. done.
    + repeat apply List.Forall_cons; [|done]. eexists. split; [reflexivity|].
      apply (bool_decide_unpack _). vm_compute. done.
  - vm_compute. reflexivity.
  - apply (bool_decide_unpack _). vm_compute. done.
  - apply (bool_decide_unpack _). vm_compute. done.
  - repeat apply List.Forall_cons; [|done]. split; [by split|]. split; [by vm_compute|].
    intros o Ho. vm_compute in Ho. injection Ho as <-. reflexivity.
  - destruct r as [ed'|e]; [|by vm_compute in Hr].
    exists ed'. split; [exact Hr|]. symmetry. exact (proj2 (proj2 (Hok ed' eq_refl))).
Defined.

(** The state of a module with the two parameters, and what removing the first
    one gives. *)
Definition twoState : State :=
  { sampleFetched with module := spread (module sampleFetched)
      [("config_schema", twoSchema);
       ("default_config", obj_lit [("port", VStr ""); ("host", VObj [])]);
       ("locale", obj_lit [("config", obj_lit [("port", VObj []); ("host", VObj [])])])] }.

Lemma removal_takes_schema_place_witness :
  ∃ ed ed' : Editor (A := list (Group ConfigurationItem)),
    names_of (values (form ed)) = ["host"; "port"] ∧
    storeChanged EditConfigSection false 0 ed (exec twoState (removeConfigParam "port"))
      = Some (Ok ed') ∧
    names_of (values (form ed')) = ["port"].
Proof.
  destruct (removal_takes_schema_place (A := list (Group ConfigurationItem)) false initialState []
              twoState (exec twoState (removeConfigParam "port")) 0 "port" twoParams
              (VStr <$> ["host"])) as (ed & ed' & props' & reqs' & _ & H2 & _ & H4 & H5 & _).
  - reflexivity.
  - split; vm_compute; reflexivity.
  - exact twoSchema_section.
  - intros k v. unfold twoParams. cbn [obj_get].
    repeat (case_match; [intros [= <-]; reflexivity|]). done.
  - reflexivity.
  - vm_compute. reflexivity.
  - exists ed, ed'. split; [rewrite H4; vm_compute; reflexivity|]. split; [exact H2|].
    rewrite H5. vm_compute. reflexivity.
Defined.

Lemma dotted_secure_name_lost_witness :
  let form' := [getParamFormGroup false
    (mkSecureItem (mkItem "db.password" true (VStr STRING) "{}") (VBool true))] in
  edit EditSecureConfigSection false 0 (mkEditor sampleFetched [] None) form'
  = Some (Ok (mkEditor sampleFetched form' None)).
Proof.
  intros form'.
  apply (dotted_secure_name_lost false (mkEditor sampleFetched [] None) form' []
           (mkSecureItem (mkItem "db.password" true (VStr STRING) "{}") (VBool true)) []
           (getEmptySchema (Some false)) "db" "password" []); reflexivity.
Defined.
