(* ===== verification/FilesTree.v ===== *)
(** * The tree of a module's files

    [FilesTreeService] ([features/modules/src/lib/services]) turns the list of
    a module's files into a tree with a node per section (agent, server,
    browser), per part (code, data, libraries), per folder and per file;
    [FilesTreeComponent] opens, creates, uploads, moves and removes what the
    nodes stand for, and asks the dialogs for the paths.  A node's reference to
    its parent is left out: nothing reads it. *)

From S2P Require Import Prelude JsString JsValue.
From Stdlib Require Import Ascii.

(** ** Nodes ([types/module-development.ts]) *)

Inductive ModuleFolderSection := Agent | Browser | Server.

Definition section_name (s : ModuleFolderSection) : string :=
  match s with Agent => "cmodule" | Browser => "bmodule" | Server => "smodule" end.

Inductive FileTreeNodeType := SectionNode | Part | Folder | File.

#[export] Instance FileTreeNodeType_eq_dec : EqDecision FileTreeNodeType.
Proof. solve_decision. Defined.

Inductive FilesTreeNode :=
| mkNode (type : FileTreeNodeType) (level : nat) (name path : string)
    (children : option (list FilesTreeNode)).

Definition node_type (n : FilesTreeNode) := let 'mkNode t _ _ _ _ := n in t.
Definition node_level (n : FilesTreeNode) := let 'mkNode _ l _ _ _ := n in l.
Definition node_path (n : FilesTreeNode) := let 'mkNode _ _ _ p _ := n in p.
Definition node_children (n : FilesTreeNode) := let 'mkNode _ _ _ _ ch := n in ch.

(** ** The service ([files-tree.service.ts]) *)

Definition slash : ascii := "/".

(** [path.split('/').slice(n).join('/')]. *)
Definition without_segments (n : nat) (path : string) : string :=
  join slash (drop n (split slash path)).

Definition clibsFolders : list string :=
  ["windows/amd64"; "darwin/amd64"; "linux/amd64"; "windows/386"; "linux/386"].
Definition clibsFoldersWithSys : list string := (λ v, v +:+ "/sys/") <$> clibsFolders.

(** [allowedClibsPattern.test(value)]: the pattern is
    [/^(windows\/amd64)|(darwin\/amd64)|.../], whose anchor belongs to the
    first alternative. *)
Definition isValidClibsFilePath (value : string) : bool :=
  match clibsFolders with
  | [] => true
  | folder :: folders => starts_with folder value || existsb (λ v, contains v value) folders
  end.

Definition getFilesBySection (files : list string) (section : string) : list string :=
  without_segments 1 <$> List.filter (starts_with section) files.

Definition getCodeFiles (files : list string) : list string :=
  List.filter (λ path, negb (existsb (λ p, starts_with p path) ["data/"; "clibs/"])) files.

Definition getDataFiles (files : list string) : list string :=
  drop_prefix "data/" <$> List.filter (starts_with "data/") files.

Definition geCLibsFiles (files : list string) : list string :=
  drop_prefix "clibs/" <$> (clibsFoldersWithSys ++ List.filter (starts_with "clibs/") files).

(** What an empty object literal inherits.  A name of this list that is read
    from an object is a function (or a prototype) and has no [push]. *)
Definition inherited : list string :=
  ["constructor"; "hasOwnProperty"; "isPrototypeOf"; "propertyIsEnumerable";
   "toLocaleString"; "toString"; "valueOf"; "__proto__"; "__defineGetter__";
   "__defineSetter__"; "__lookupGetter__"; "__lookupSetter__"].

(** The loop body of [getTree]: the paths below each first segment, and the
    files at this level. *)
Definition groupPath (acc : obj (list string) * list string) (path : string) :
    res (obj (list string) * list string) :=
  let '(grouped, rest) := acc in
  match split slash path with
  | (folderName :: _ :: _) as segments =>
      if bool_decide (folderName ∈ inherited) then Throw TypeError
      else
        let paths := default [] (obj_get folderName grouped) in
        Ok (obj_set folderName (paths ++ [join slash (drop 1 segments)]) grouped, rest)
  | [name] => Ok (grouped, if String.eqb name "" then rest else rest ++ [name])
  | [] => Ok (grouped, rest)
  end.

Definition file_node (level : nat) (path name : string) : FilesTreeNode :=
  mkNode File (S level) name (path +:+ "/" +:+ name) None.

(** [getTree] below a parent of the given level and path. *)
Fixpoint tree (fuel : nat) (files : list string) (level : nat) (path : string) :
    res (list FilesTreeNode) :=
  match fuel with
  | O => Throw Unsupported
  | S fuel =>
      gr ← foldM groupPath ([], []) (sort_strings files);
      folders ← mapM (λ kp : string * list string,
        let folderPath := path +:+ "/" +:+ kp.1 in
        children ← tree fuel kp.2 (S level) folderPath;
        Ok (mkNode Folder (S level) kp.1 folderPath (Some children))) gr.1;
      Ok (folders ++ (file_node level path <$> gr.2))
  end.

(** Every step down makes the paths shorter. *)
Definition tree_fuel (files : list string) : nat := S (max_list (String.length <$> files)).

Definition getTree (files : list string) (level : nat) (path : string) :
    res (list FilesTreeNode) := tree (tree_fuel files) files level path.

Definition partNode (files : list string) (partLevel : nat) (name path : string) :
    res FilesTreeNode :=
  children ← getTree files partLevel path;
  Ok (mkNode Part partLevel name path (Some children)).

Definition buildSectionTree (files : list string) (section : ModuleFolderSection)
    (hideClibs : bool) (parentLevel : option nat) : res (list FilesTreeNode) :=
  let s := section_name section in
  let sectionFiles := getFilesBySection files s in
  let partLevel := match parentLevel with Some l => S l | None => 0 end in
  codePart ← partNode (getCodeFiles sectionFiles) partLevel "code" s;
  dataPart ← partNode (getDataFiles sectionFiles) partLevel "data" (s +:+ "/data");
  clibsPart ← partNode (geCLibsFiles sectionFiles) partLevel "clibs" (s +:+ "/clibs");
  Ok ([codePart; dataPart] ++ if hideClibs then [] else [clibsPart]).

Section files.
Context (translate : string → string).

Definition sectionNode (files : list string) (section : ModuleFolderSection)
    (hideClibs : bool) (label : string) : res FilesTreeNode :=
  children ← buildSectionTree files section hideClibs (Some 0);
  Ok (mkNode SectionNode 0 (translate label) (section_name section) (Some children)).

Definition buildTree (files : list string) (hideClibs : bool)
    (section : option ModuleFolderSection) : res (list FilesTreeNode) :=
  match section with
  | None =>
      agent ← sectionNode files Agent hideClibs "modules.Modules.ModuleEdit.Label.AgentModule";
      server ← sectionNode files Server hideClibs "modules.Modules.ModuleEdit.Label.ServerModule";
      browser ← sectionNode files Browser hideClibs "modules.Modules.ModuleEdit.Label.BrowserModule";
      Ok [agent; server; browser]
  | Some section => buildSectionTree files section hideClibs None
  end.

(** ** The component ([files-tree.component.ts]) *)

Record FilesTreeComponent := mkFilesTree {
  moduleName : string;
  moduleVersion : string;
  treeSection : option ModuleFolderSection;
  hideClibs : bool
}.

Definition normalizeFile (path : string) : string := without_segments 2 path.

(** The tree that [ngOnInit] puts into the data source for a list of files. *)
Definition filesData (c : FilesTreeComponent) (files : list string) : res (list FilesTreeNode) :=
  buildTree (normalizeFile <$> files) (hideClibs c) (treeSection c).

Definition root (c : FilesTreeComponent) : string := moduleName c +:+ "/" +:+ moduleVersion c.

Definition hasChild (n : FilesTreeNode) : bool :=
  bool_decide (node_type n ∈ [SectionNode; Part; Folder]).

Definition getIsExpandable (n : FilesTreeNode) : bool :=
  hasChild n && match node_children n with Some (_ :: _) => true | _ => false end.

(** [path.replace(/^code\//, '')]. *)
Definition restoreCodePath (path : string) : string := drop_prefix "code/" path.

Definition fullPath (c : FilesTreeComponent) (path : string) : string :=
  root c +:+ "/" +:+ restoreCodePath path.

(** [open]: the path that is emitted. *)
Definition open (c : FilesTreeComponent) (n : FilesTreeNode) : option string :=
  match node_type n with File => Some (fullPath c (node_path n)) | _ => None end.

(** [utils/constants.ts]. *)
Definition supportedLanguages : list (string * string) :=
  [("bat", "bat"); ("css", "css"); ("css3", "css"); ("html", "html"); ("ini", "ini");
   ("js", "javascript"); ("json", "json"); ("less", "less"); ("lua", "lua"); ("php", "php");
   ("pl", "perl"); ("ps1", "powershell"); ("psd1", "powershell"); ("psm1", "powershell");
   ("py", "python"); ("rb", "ruby"); ("scss", "scss"); ("sh", "shell"); ("sql", "sql");
   ("tcl", "tcl"); ("ts", "typescript"); ("txt", "plain"); ("vb", "vb"); ("vba", "vb");
   ("vbs", "vb"); ("vue", "html"); ("xml", "xml"); ("yaml", "yaml"); ("yml", "yaml")].

(** The inherited members of the table count as languages as well. *)
Definition canEdit (n : FilesTreeNode) : bool :=
  let extension := List.last (split "."%char (node_path n)) "" in
  bool_decide (extension ∈ (fst <$> supportedLanguages) ++ inherited).

(** [new RegExp(`^${p}$`).test(s)] for a pattern [p] whose only special
    character is the dot. *)
Fixpoint matches_dots (p s : string) : bool :=
  match p, s with
  | EmptyString, EmptyString => true
  | String c p, String d s =>
      (if Ascii.eqb c "." then negb (Ascii.eqb d "010" || Ascii.eqb d "013") else Ascii.eqb c d)
      && matches_dots p s
  | _, _ => false
  end.

Definition staticBackendFiles : list string := ["main.lua"; "args.json"].
Definition staticBrowserFiles : list string := ["main.vue"].

Definition archs : list string := ["386"; "amd64"].
Definition oss : list string := ["windows"; "darwin"; "linux"].

(** The loop over the architectures of one system; [maxLevel] is [undefined]
    in the only call, and no comparison with it holds. *)
Fixpoint archFolders (maxLevel : option nat) (osItem : string) (archs : list string) : list string :=
  let below n := match maxLevel with Some l => Nat.ltb l n | None => false end in
  match archs with
  | [] => []
  | archItem :: archs =>
      if below 1 then []
      else if String.eqb archItem "386" && String.eqb osItem "darwin"
      then archFolders maxLevel osItem archs
      else
        let folder := osItem +:+ "/" +:+ archItem in
        folder :: if below 2 then []
                  else (folder +:+ "/sys") :: archFolders maxLevel osItem archs
  end.

Definition getClibsDefaultTree (maxLevel : option nat) : list string :=
  flat_map (λ osItem, osItem :: archFolders maxLevel osItem archs) oss.

Definition getIsDefaultClibsFolders (n : FilesTreeNode) : bool :=
  existsb (λ path, matches_dots ("clibs/" +:+ path) (node_path n)) (getClibsDefaultTree None).

Definition getIsStaticFiles (c : FilesTreeComponent) (n : FilesTreeNode) : bool :=
  let files := match treeSection c with
               | Some Browser => staticBrowserFiles
               | _ => staticBackendFiles
               end in
  existsb (λ path, matches_dots ("code/" +:+ path) (node_path n)) files.

Definition canDeleteFile (c : FilesTreeComponent) (n : FilesTreeNode) : bool :=
  negb (getIsStaticFiles c n).
Definition canMoveFile (c : FilesTreeComponent) (n : FilesTreeNode) : bool :=
  negb (getIsStaticFiles c n).
Definition canDeleteFolder (n : FilesTreeNode) : bool :=
  Nat.ltb 0 (node_level n) && negb (getIsDefaultClibsFolders n).
Definition canMoveFolder (n : FilesTreeNode) : bool :=
  Nat.ltb 0 (node_level n) && negb (getIsDefaultClibsFolders n).

(** *** Commands and their requests *)

Inductive Patch :=
| Save (path data : string)
| Remove (path : string)
| Move (path newpath : string).

(** The dialog for a new path ([create-file-modal.component.ts]): the
    validator, and what [getPath] gives back for the text in the control. *)
Definition clibsError (path : string) (pristine : bool) : bool :=
  let segments := split slash path in
  match segments !! 1 with
  | Some part => String.eqb part "clibs" && negb pristine
                 && negb (isValidClibsFilePath (join slash (drop 2 segments)))
  | None => false
  end.

Definition getPath (path : string) : option string :=
  if clibsError path false then None else Some path.

(** [if (path) result.next(path)]. *)
Definition chosenPath (path : string) : option string :=
  p ← getPath path; if String.eqb p "" then None else Some p.

(** What the dialogs of [createFile] and [uploadFile] show first. *)
Definition createSuggestion (path : string) : string := path +:+ "/new_file.ext".

Definition uploadSuggestion (folderPath fileName : string) : string :=
  let processedPath := match strip_prefix "code" folderPath with
                       | Some rest => drop_prefix "/" rest
                       | None => folderPath
                       end in
  (if String.eqb processedPath "" then "" else processedPath +:+ "/") +:+ fileName.

(** The dialogs, given what they were left with: the text of the control and
    the button for it, or [None] for the cancel button.  The dialog for a new
    path stays open while there is no path. *)
Definition selectPathForUpload (answer : option string) : option string := answer ≫= chosenPath.
Definition selectPathForCreate (answer : option string) : option string := answer ≫= chosenPath.
Definition selectPathForMoving (answer : option string) : option string := answer.
Definition warnAboutDeleting (confirmed : bool) : bool := confirmed.

(** The requests. *)
Definition deleteObject (c : FilesTreeComponent) (path : string) (confirmed : bool) :
    option Patch :=
  if warnAboutDeleting confirmed then Some (Remove (fullPath c path)) else None.

Definition createFile (c : FilesTreeComponent) (answer : option string) : option Patch :=
  path ← selectPathForCreate answer; Some (Save (fullPath c path) "").

Definition uploadFile (c : FilesTreeComponent) (data : string) (answer : option string) :
    option Patch :=
  path ← selectPathForUpload answer; Some (Save (root c +:+ "/" +:+ path) data).

Definition moveObject (c : FilesTreeComponent) (path : string) (answer : option string) :
    option Patch :=
  newPath ← selectPathForMoving answer; Some (Move (fullPath c path) (fullPath c newPath)).

Definition downloadFile (c : FilesTreeComponent) (path : string) : string * string :=
  (fullPath c path, List.last (split slash path) "").

(** *** Answers *)

Inductive PatchAnswer := Answered (status : string) | HttpError.

Inductive PatchEffect :=
| FetchFiles (name version : string)
| FetchUpdates (name version : string)
| ShowError (title : string).

Definition refresh (c : FilesTreeComponent) : list PatchEffect :=
  [FetchFiles (moduleName c) (moduleVersion c); FetchUpdates (moduleName c) (moduleVersion c)].

Definition onPatched (c : FilesTreeComponent) (title : string) (a : PatchAnswer) :
    list PatchEffect :=
  match a with
  | Answered status => if String.eqb status "success" then refresh c else [ShowError title]
  | HttpError => [ShowError title]
  end.

(** The subscribers of [deleteObject], [createFile] and [moveObject]. *)
Definition onDeleted (c : FilesTreeComponent) : PatchAnswer → list PatchEffect :=
  onPatched c "modules.Modules.ModuleEdit.ErrorText.FileRemoveError".
Definition onCreated (c : FilesTreeComponent) : PatchAnswer → list PatchEffect :=
  onPatched c "modules.Modules.ModuleEdit.ErrorText.FileCreateError".
Definition onMoved (c : FilesTreeComponent) : PatchAnswer → list PatchEffect :=
  onPatched c "modules.Modules.ModuleEdit.ErrorText.FileMoveError".

(** The one of [uploadFile] does not look at the status. *)
Definition onUploaded (c : FilesTreeComponent) (a : PatchAnswer) : list PatchEffect :=
  match a with
  | Answered _ => refresh c
  | HttpError => [ShowError "modules.Modules.ModuleEdit.ErrorText.FileUploadError"]
  end.
End files.
