(* ===== verification/FilesTreeTheorems.v ===== *)
(** * Facts about the tree of files

    Which paths the files of a tree have, and when it can be built. *)

From stdpp Require Import list sorting.
From Stdlib Require Import Ascii.
From S2P Require Import Prelude JsString JsValue FilesTree.

(** ** Walking a tree *)

Fixpoint nodes_of (n : FilesTreeNode) : list FilesTreeNode :=
  match n with
  | mkNode _ _ _ _ children =>
      n :: match children with Some l => flat_map nodes_of l | None => [] end
  end.

Definition is_file (n : FilesTreeNode) : bool :=
  match node_type n with File => true | _ => false end.

(** The paths of the files below [ns]. *)
Definition leaves (ns : list FilesTreeNode) : list string :=
  node_path <$> List.filter is_file (flat_map nodes_of ns).

Lemma leaves_app ns ms : leaves (ns ++ ms) = leaves ns ++ leaves ms.
Proof. unfold leaves. by rewrite flat_map_app, List.filter_app, fmap_app. Qed.

Lemma leaves_cons n ns : leaves (n :: ns) = leaves [n] ++ leaves ns.
Proof. apply (leaves_app [n]). Qed.

Lemma leaves_inner t l nm p ns : t ≠ File → leaves [mkNode t l nm p (Some ns)] = leaves ns.
Proof. intros Ht. unfold leaves. simpl. rewrite app_nil_r. by destruct t. Qed.

Lemma leaves_files level path names :
  leaves (file_node level path <$> names) = (λ f, path +:+ "/" +:+ f) <$> names.
Proof. induction names as [|n names IH]; [done|]. rewrite !fmap_cons, leaves_cons, IH. done. Qed.

(** ** Paths *)

(** A path that ends in a name: not one of a folder. *)
Definition shown (f : string) : bool := negb (String.eqb (List.last (split slash f) "") "").

Definition plain_segment (k : string) : Prop := has_char slash k = false.

Lemma shown_below k p : plain_segment k → shown (k +:+ "/" +:+ p) = shown p.
Proof.
  intros Hk. unfold shown. change (k +:+ "/" +:+ p) with (k +:+ String slash p).
  rewrite split_app by done. simpl. destruct (split slash p) eqn:Hs; [|done].
  by apply split_nonempty in Hs.
Qed.

Lemma shown_name k : plain_segment k → shown k = negb (String.eqb k "").
Proof. intros Hk. unfold shown. by rewrite split_single. Qed.

Lemma split_cons f k p ps :
  split slash f = k :: p :: ps →
  f = k +:+ "/" +:+ join slash (p :: ps) ∧ plain_segment k
  ∧ split slash (join slash (p :: ps)) = p :: ps.
Proof.
  intros Hf. pose proof (split_parts slash f) as HF. rewrite Hf in HF.
  apply Forall_cons_1 in HF as [Hk HF]. split; [|split; [done|by apply split_join]].
  rewrite <-(join_split slash f) at 1. rewrite Hf. by rewrite join_cons.
Qed.

(** ** Grouping *)

Definition below (kp : string * list string) : list string :=
  (λ p, kp.1 +:+ "/" +:+ p) <$> kp.2.

(** The paths a group stands for. *)
Definition contents (gr : obj (list string) * list string) : list string :=
  flat_map below gr.1 ++ gr.2.

(** Folder names are segments, file names are segments that are not empty. *)
Definition grouped_ok (gr : obj (list string) * list string) : Prop :=
  obj_wf gr.1 ∧ Forall (λ kp, plain_segment kp.1) gr.1
  ∧ Forall (λ n, plain_segment n ∧ n ≠ "") gr.2.

Definition named (f : string) : bool := negb (String.eqb f "").

Lemma groupPath_ok gr f gr' :
  grouped_ok gr → groupPath gr f = Ok gr' →
  grouped_ok gr' ∧ contents gr' ≡ₚ contents gr ++ List.filter named [f].
Proof.
  destruct gr as [g r]. intros (Hwf & Hk & Hr). unfold groupPath.
  destruct (split slash f) as [|k [|p ps]] eqn:Hs.
  - by apply split_nonempty in Hs.
  - assert (k = f) as ->. { by rewrite <-(join_split slash f), Hs. }
    assert (plain_segment f) as Hf.
    { pose proof (split_parts slash f) as HF. rewrite Hs in HF. by apply Forall_inv in HF. }
    intros [= <-]. unfold contents, named. simpl.
    destruct (String.eqb_spec f "") as [->|Hne]; simpl.
    + by rewrite app_nil_r.
    + split; [|by rewrite app_assoc]. split; [done|]. split; [done|].
      apply Forall_app. split; [done|]. by apply List.Forall_cons.
  - apply split_cons in Hs as (Hf & Hkp & _). case_bool_decide as Hin; [done|].
    intros [= <-]. set (q := join slash (p :: ps)) in *.
    change (join slash (drop 1 (k :: p :: ps))) with q.
    assert (named f = true) as Hn.
    { unfold named. rewrite Hf. by destruct k. }
    cbn [List.filter]. rewrite Hn. unfold contents. cbn [fst snd].
    assert (flat_map below (obj_set k (default [] (obj_get k g) ++ [q]) g)
            ≡ₚ flat_map below g ++ [f]) as Hp.
    { rewrite obj_set_del_perm by done. cbn [flat_map]. unfold below at 1. cbn [fst snd].
      rewrite fmap_app. cbn [fmap list_fmap]. rewrite <-Hf.
      destruct (obj_get k g) as [ps0|] eqn:Hg; cbn [default].
      - rewrite (obj_get_del_perm k ps0 g Hwf Hg) at 2. cbn [flat_map]. unfold below at 2. cbn [fst snd].
        rewrite <-!app_assoc. apply Permutation_app_head. apply Permutation_app_comm.
      - rewrite obj_del_id; [|by rewrite elem_of_obj_keys, Hg; intros []]. apply Permutation_app_comm. }
    split.
    + split; [by apply obj_set_wf|]. split; [|done]. cbn [fst].
      rewrite obj_set_del_perm by done. constructor; [done|]. unfold obj_del.
      apply Forall_forall. intros kp [_ Hkp']%list_elem_of_filter. rewrite Forall_forall in Hk. by apply Hk.
    + rewrite Hp, <-!app_assoc. apply Permutation_app_head, Permutation_app_comm.
Qed.

Lemma groupPaths_ok l gr gr' :
  grouped_ok gr → foldM groupPath gr l = Ok gr' →
  grouped_ok gr' ∧ contents gr' ≡ₚ contents gr ++ List.filter named l.
Proof.
  revert gr. induction l as [|f l IH]; intros gr Hgr H.
  - simplify_eq/=. split; [done|]. by rewrite app_nil_r.
  - cbn [foldM] in H. apply bind_Ok_inv in H as (gr1 & H1 & H).
    apply groupPath_ok in H1 as [Hgr1 Hp1]; [|done]. apply IH in H as [Hgr' Hp]; [|done].
    split; [done|]. rewrite Hp, Hp1, <-app_assoc, <-List.filter_app. done.
Qed.

Lemma grouped_ok_nil : grouped_ok ([], []).
Proof. split; [apply obj_wf_nil|]. by split. Qed.

(** ** The files of a tree *)

Lemma shown_named f : shown f = true → named f = true.
Proof. unfold named. by destruct f. Qed.

Lemma filter_filter_implied {A} (f g : A → bool) l :
  (∀ x, f x = true → g x = true) → List.filter f (List.filter g l) = List.filter f l.
Proof.
  intros Hfg. induction l as [|x l IH]; [done|]. simpl. destruct (g x) eqn:Hg; simpl.
  - by rewrite IH.
  - destruct (f x) eqn:Hf; [|done]. apply Hfg in Hf. congruence.
Qed.

Lemma filter_Permutation {A} (f : A → bool) l l' : l ≡ₚ l' → List.filter f l ≡ₚ List.filter f l'.
Proof.
  induction 1 as [|x l l' _ IH|x y l|l l1 l' _ IH1 _ IH2]; simpl; [done|..].
  - destruct (f x); [by constructor|done].
  - destruct (f x), (f y); try done. constructor.
  - by etransitivity.
Qed.

Lemma filter_shown_below k (ps : list string) :
  plain_segment k →
  List.filter shown ((λ p, k +:+ "/" +:+ p) <$> ps) = (λ p, k +:+ "/" +:+ p) <$> List.filter shown ps.
Proof.
  intros Hk. induction ps as [|p ps IH]; [done|]. rewrite fmap_cons. cbn [List.filter].
  rewrite shown_below, IH by done. by destruct (shown p).
Qed.

Lemma below_twice path k (ps : list string) :
  (λ f, (path +:+ "/" +:+ k) +:+ "/" +:+ f) <$> ps
  = (λ f, path +:+ "/" +:+ f) <$> ((λ p, k +:+ "/" +:+ p) <$> ps).
Proof.
  induction ps as [|p ps IH]; [done|]. rewrite !fmap_cons, IH. by rewrite !string_app_assoc.
Qed.

(** The files in the tree are the paths that end in a name, each once. *)
Lemma tree_leaves fuel files level path nodes :
  tree fuel files level path = Ok nodes →
  leaves nodes ≡ₚ (λ f, path +:+ "/" +:+ f) <$> List.filter shown files.
Proof.
  revert files level path nodes.
  induction fuel as [|fuel IH]; intros files level path nodes H; [done|].
  cbn [tree] in H. apply bind_Ok_inv in H as (gr & Hgr & H).
  apply bind_Ok_inv in H as (folders & Hfolders & H). simplify_eq.
  apply groupPaths_ok in Hgr as [(_ & Hk & Hr) Hp]; [|apply grouped_ok_nil].
  rewrite leaves_app, leaves_files.
  assert (leaves folders ≡ₚ (λ f, path +:+ "/" +:+ f) <$> List.filter shown (flat_map below gr.1)) as Hfs.
  { clear Hp Hr. revert folders Hfolders. generalize dependent (gr.1).
    intros g Hk. induction g as [|[k ps] g IHg]; intros folders Hfolders; [by injection Hfolders as <-|].
    apply Forall_cons_1 in Hk as [Hk Hg]. cbn [mapM] in Hfolders.
    apply bind_Ok_inv in Hfolders as (n & Hn & Hfolders).
    apply bind_Ok_inv in Hfolders as (ms & Hms & [= <-]).
    apply bind_Ok_inv in Hn as (children & Hch & [= <-]).
    rewrite leaves_cons, leaves_inner by done. cbn [flat_map].
    rewrite List.filter_app, fmap_app. apply Permutation_app; [|by apply IHg].
    rewrite (IH _ _ _ _ Hch). cbn [fst snd]. unfold below. cbn [fst snd].
    by rewrite filter_shown_below, below_twice. }
  assert (List.filter shown gr.2 = gr.2) as Hsr.
  { clear Hp Hfolders Hfs. induction Hr as [|n r [Hn Hne] _ IHr]; [done|]. simpl.
    rewrite shown_name by done. apply String.eqb_neq in Hne. rewrite Hne. simpl. by rewrite IHr. }
  rewrite Hfs. rewrite <-Hsr at 1. rewrite <-fmap_app, <-List.filter_app. fold (contents gr).
  apply Permutation_map. rewrite (filter_Permutation _ _ _ Hp).
  change (contents ([], [])) with (@nil string). rewrite app_nil_l.
  rewrite filter_filter_implied by apply shown_named.
  by apply filter_Permutation, sort_strings_perm.
Qed.

(** ** When the tree can be built *)

(** No folder on the path has the name of an inherited member. *)
Definition buildable (f : string) : Prop :=
  Forall (λ k, k ∉ inherited) (removelast (split slash f)).

Lemma buildable_below k p :
  plain_segment k → buildable (k +:+ "/" +:+ p) ↔ k ∉ inherited ∧ buildable p.
Proof.
  intros Hk. unfold buildable. change (k +:+ "/" +:+ p) with (k +:+ String slash p).
  rewrite split_app by done. destruct (split slash p) eqn:Hs; [by apply split_nonempty in Hs|].
  change (removelast (k :: s :: l)) with (k :: removelast (s :: l)). by rewrite Forall_cons.
Qed.

(** The first folder of a path may be looked up. *)
Definition first_ok (f : string) : Prop :=
  match split slash f with k :: _ :: _ => k ∉ inherited | _ => True end.

Lemma buildable_first f : buildable f → first_ok f.
Proof.
  unfold buildable, first_ok. destruct (split slash f) as [|k [|p ps]]; [done..|].
  by intros HF%Forall_inv.
Qed.

Lemma groupPath_total gr f : first_ok f ↔ ∃ gr', groupPath gr f = Ok gr'.
Proof.
  unfold first_ok, groupPath. destruct gr as [g r].
  destruct (split slash f) as [|k [|p ps]]; [naive_solver..|].
  case_bool_decide as Hk; naive_solver.
Qed.

Lemma groupPaths_total l gr : Forall first_ok l ↔ ∃ gr', foldM groupPath gr l = Ok gr'.
Proof.
  revert gr. induction l as [|f l IH]; intros gr; [split; [by exists gr|by constructor]|].
  rewrite Forall_cons, (groupPath_total gr). cbn [foldM]. split.
  - intros [[gr1 ->] H]. by apply (IH gr1).
  - intros [gr' (gr1 & H1 & H)%bind_Ok_inv]. split; [by exists gr1|]. apply (IH gr1). by exists gr'.
Qed.

Lemma contents_below gr k ps p : (k, ps) ∈ gr.1 → p ∈ ps → k +:+ "/" +:+ p ∈ contents gr.
Proof.
  intros Hk Hp. apply elem_of_app. left. apply list_elem_of_In, in_flat_map.
  exists (k, ps). split; [by apply list_elem_of_In|]. apply list_elem_of_In.
  apply list_elem_of_fmap. by exists p.
Qed.

Lemma mapM_total {A B} (f : A → res B) l :
  Forall (λ x, ∃ y, f x = Ok y) l ↔ ∃ ys, mapM f l = Ok ys.
Proof.
  induction l as [|x l IH]; [split; [by exists []|by constructor]|].
  rewrite Forall_cons, IH. cbn [mapM]. split.
  - intros [[y ->] [ys ->]]. by exists (y :: ys).
  - intros [ys' (y & Hy & (ys & Hys & _)%bind_Ok_inv)%bind_Ok_inv].
    split; [by exists y|by exists ys].
Qed.

Lemma contents_files gr files f :
  foldM groupPath ([], []) (sort_strings files) = Ok gr → f ∈ contents gr → f ∈ files.
Proof.
  intros Hgr Hf. apply groupPaths_ok in Hgr as [_ Hp]; [|apply grouped_ok_nil].
  rewrite Hp in Hf. change (contents ([], [])) with (@nil string) in Hf. rewrite app_nil_l in Hf.
  apply list_elem_of_In, filter_In in Hf as [Hf _]. apply list_elem_of_In in Hf.
  by rewrite elem_of_sort_strings in Hf.
Qed.

Lemma tree_S fuel files level path :
  tree (S fuel) files level path =
    gr ← foldM groupPath ([], []) (sort_strings files);
    folders ← mapM (λ kp : string * list string,
      children ← tree fuel kp.2 (S level) (path +:+ "/" +:+ kp.1);
      Ok (mkNode Folder (S level) kp.1 (path +:+ "/" +:+ kp.1) (Some children))) gr.1;
    Ok (folders ++ (file_node level path <$> gr.2)).
Proof. done. Qed.

(** With fuel for the longest path, the tree is built if no folder has the name
    of an inherited member. *)
Lemma tree_total fuel files level path :
  Forall (λ f, String.length f ≤ fuel) files → Forall buildable files →
  ∃ nodes, tree (S fuel) files level path = Ok nodes.
Proof.
  revert files level path. induction fuel as [|fuel IH]; intros files level path Hlen HF.
  - cbn [tree]. assert (foldM groupPath ([], []) (sort_strings files) = Ok ([], [])) as ->.
    { assert (Forall (λ f, f = "") (sort_strings files)) as He.
      { apply Forall_forall. intros f Hf. rewrite elem_of_sort_strings in Hf.
        rewrite Forall_forall in Hlen. specialize (Hlen f Hf). destruct f; [done|]. simpl in Hlen. lia. }
      induction He as [|f l -> _ IHl]; [done|]. cbn [foldM]. done. }
    by eexists.
  - rewrite tree_S.
    destruct (proj1 (groupPaths_total (sort_strings files) ([], []))) as [gr Hgr].
    { apply Forall_forall. intros f Hf. rewrite elem_of_sort_strings in Hf.
      rewrite Forall_forall in HF. by apply buildable_first, HF. }
    rewrite Hgr. cbn [mbind res_bind].
    pose proof (groupPaths_ok _ _ _ grouped_ok_nil Hgr) as [(_ & Hk & _) _].
    destruct (proj1 (mapM_total (λ kp : string * list string,
        children ← tree (S fuel) kp.2 (S level) (path +:+ "/" +:+ kp.1);
        Ok (mkNode Folder (S level) kp.1 (path +:+ "/" +:+ kp.1) (Some children))) gr.1)) as [ns Hns].
    { apply Forall_forall. intros [k ps] Hin. cbn [fst snd].
      rewrite Forall_forall in Hk. specialize (Hk _ Hin). simpl in Hk.
      assert (∀ p, p ∈ ps → String.length p ≤ fuel ∧ buildable p) as Hps.
      { intros p Hp. pose proof (contents_files _ _ _ Hgr (contents_below _ _ _ _ Hin Hp)) as Hf.
        rewrite Forall_forall in Hlen, HF. specialize (Hlen _ Hf). specialize (HF _ Hf).
        apply buildable_below in HF as [_ Hb]; [|done]. split; [|done].
        rewrite !string_app_length in Hlen. simpl in Hlen. lia. }
      destruct (IH ps (S level) (path +:+ "/" +:+ k)) as [ch Hch].
      - apply Forall_forall. intros p Hp. by apply Hps.
      - apply Forall_forall. intros p Hp. by apply Hps.
      - rewrite Hch. by eexists. }
    rewrite Hns. by eexists.
Qed.

Lemma getTree_total files level path :
  Forall buildable files → ∃ nodes, getTree files level path = Ok nodes.
Proof.
  intros HF. apply tree_total; [|done]. apply Forall_forall. intros f Hf.
  apply max_list_elem_of_le. by apply list_elem_of_fmap_2.
Qed.

Lemma tree_buildable fuel files level path nodes :
  tree fuel files level path = Ok nodes → Forall buildable files.
Proof.
  revert files level path nodes.
  induction fuel as [|fuel IH]; intros files level path nodes H; [done|].
  cbn [tree] in H. apply bind_Ok_inv in H as (gr & Hgr & H).
  apply bind_Ok_inv in H as (folders & Hfolders & _).
  pose proof (groupPaths_ok _ _ _ grouped_ok_nil Hgr) as [(_ & Hk & Hr) Hp].
  assert (Forall first_ok files) as Hfirst.
  { assert (Forall first_ok (sort_strings files)) as Hs by (apply (groupPaths_total _ ([], [])); by exists gr).
    by rewrite (sort_strings_perm files) in Hs. }
  assert (∀ k ps p, (k, ps) ∈ gr.1 → p ∈ ps → buildable p) as Hbelow.
  { intros k ps p Hin Hp'. assert (∃ ns, mapM (λ kp : string * list string,
        children ← tree fuel kp.2 (S level) (path +:+ "/" +:+ kp.1);
        Ok (mkNode Folder (S level) kp.1 (path +:+ "/" +:+ kp.1) (Some children))) gr.1 = Ok ns)
      as Hm by by eexists.
    rewrite <-mapM_total, Forall_forall in Hm. destruct (Hm _ Hin) as [n (ch & Hch & _)%bind_Ok_inv].
    apply IH in Hch. rewrite Forall_forall in Hch. by apply Hch. }
  apply Forall_forall. intros f Hf. rewrite Forall_forall in Hfirst. specialize (Hfirst f Hf).
  destruct (named f) eqn:Hn.
  2:{ unfold named in Hn. apply negb_false_iff, String.eqb_eq in Hn as ->. constructor. }
  assert (f ∈ contents gr) as Hc.
  { rewrite Hp. change (contents ([], [])) with (@nil string). rewrite app_nil_l. apply list_elem_of_In, filter_In.
    split; [|done]. apply list_elem_of_In. by apply elem_of_sort_strings. }
  apply elem_of_app in Hc as [Hc|Hc].
  - apply list_elem_of_In, in_flat_map in Hc as ([k ps] & Hin & Hf').
    apply list_elem_of_In in Hin, Hf'. apply list_elem_of_fmap in Hf' as (p & -> & Hp').
    cbn [fst snd] in *. rewrite Forall_forall in Hk. specialize (Hk _ Hin). cbn [fst] in Hk.
    apply buildable_below; [done|]. split; [|by eapply Hbelow].
    unfold first_ok in Hfirst. change (k +:+ "/" +:+ p) with (k +:+ String slash p) in Hfirst.
    rewrite split_app in Hfirst by done. destruct (split slash p) eqn:Hs; [by apply split_nonempty in Hs|done].
  - rewrite Forall_forall in Hr. destruct (Hr f Hc) as [Hs _]. unfold buildable.
    by rewrite split_single.
Qed.

(** Every node below a parent has the path of the parent as a prefix. *)
Definition below_path (path : string) (n : FilesTreeNode) : Prop :=
  ∃ r, node_path n = path +:+ "/" +:+ r.

Lemma tree_paths fuel files level path nodes :
  tree fuel files level path = Ok nodes → Forall (below_path path) (flat_map nodes_of nodes).
Proof.
  revert files level path nodes.
  induction fuel as [|fuel IH]; intros files level path nodes H; [done|].
  cbn [tree] in H. apply bind_Ok_inv in H as (gr & _ & H).
  apply bind_Ok_inv in H as (folders & Hfolders & [= <-]).
  rewrite flat_map_app. apply Forall_app. split.
  - revert folders Hfolders. generalize (gr.1). intros g.
    induction g as [|[k ps] g IHg]; intros folders Hf; [by injection Hf as <-|].
    cbn [mapM] in Hf. apply bind_Ok_inv in Hf as (n & Hn & Hf).
    apply bind_Ok_inv in Hf as (ms & Hms & [= <-]).
    apply bind_Ok_inv in Hn as (children & Hch & [= <-]).
    cbn [flat_map nodes_of]. constructor; [by exists k|]. apply Forall_app. split; [|by apply IHg].
    eapply Forall_impl; [exact (IH _ _ _ _ Hch)|]. intros n [r Hr]. exists (k +:+ "/" +:+ r).
    rewrite Hr. cbn [fst]. by rewrite !string_app_assoc.
  - generalize (gr.2). intros l. induction l as [|f l IHl]; [constructor|].
    rewrite fmap_cons. cbn [flat_map nodes_of file_node app]. constructor; [by exists f|done].
Qed.

(** ** Theorems about the tree of files

    The tree shows every file of its sections once and a click opens the file
    it stands for; which folder names keep the tree from being built; which
    protections of files and folders do not apply. *)

(** ** Files of a section *)

Definition under (d f : string) : string := d +:+ "/" +:+ f.

(** The files a section shows: not the folders that some stores list as paths
    ending in a slash, nor the libraries when they are hidden. *)
Definition section_file (s : ModuleFolderSection) (hide : bool) (f : string) : bool :=
  starts_with (under (section_name s) "") f && shown f
  && negb (hide && starts_with (under (section_name s) "clibs/") f).

(** No file or folder next to a section's folder has a name that begins with
    the section's. *)
Definition separated (f : string) : Prop :=
  ∀ s, starts_with (section_name s) f = true → starts_with (under (section_name s) "") f = true.

Lemma section_plain s : plain_segment (section_name s).
Proof. by destruct s. Qed.

Lemma under_empty d f : under d f = under d "" +:+ f.
Proof. unfold under. by rewrite string_app_assoc. Qed.

Lemma starts_with_app p r : starts_with p (p +:+ r) = true.
Proof. apply starts_with_spec. by exists r. Qed.

Lemma strip_prefix_app_l p q r : strip_prefix (p +:+ q) (p +:+ r) = strip_prefix q r.
Proof. induction p as [|c p IH]; [done|]. simpl. by rewrite Ascii.eqb_refl. Qed.

Lemma starts_with_app_l p q r : starts_with (p +:+ q) (p +:+ r) = starts_with q r.
Proof. unfold starts_with. by rewrite strip_prefix_app_l. Qed.

Lemma drop_prefix_app p r : drop_prefix p (p +:+ r) = r.
Proof. unfold drop_prefix. by rewrite strip_prefix_app. Qed.

Lemma without_segments_under n d f :
  plain_segment d → without_segments (S n) (under d f) = without_segments n f.
Proof.
  intros Hd. unfold without_segments, under. change (d +:+ "/" +:+ f) with (d +:+ String slash f).
  by rewrite split_app.
Qed.

Lemma without_segments_0 f : without_segments 0 f = f.
Proof. apply join_split. Qed.

(** The names of a section, in front of which the section is put again. *)
Lemma files_of_section s F :
  Forall separated F →
  under (section_name s) <$> getFilesBySection F (section_name s)
  = List.filter (starts_with (under (section_name s) "")) F.
Proof.
  intros HF. unfold getFilesBySection. induction HF as [|f F Hf _ IH]; [done|]. cbn [List.filter].
  destruct (starts_with (section_name s) f) eqn:Hs.
  - rewrite (Hf s Hs). rewrite !fmap_cons, IH.
    apply Hf, starts_with_spec in Hs as [r ->]. rewrite <-under_empty.
    rewrite without_segments_under by apply section_plain. by rewrite without_segments_0.
  - assert (starts_with (under (section_name s) "") f = false) as ->; [|done].
    apply not_true_iff_false. intros [r ->]%starts_with_spec.
    unfold under in Hs. by rewrite string_app_assoc, starts_with_app in Hs.
Qed.

(** ** Parts *)

Lemma leaves_part files l nm path n :
  partNode files l nm path = Ok n →
  leaves [n] ≡ₚ under path <$> List.filter shown files.
Proof.
  intros (ch & Hch & [= <-])%bind_Ok_inv. rewrite leaves_inner by done. by apply (tree_leaves _ _ _ _ _ Hch).
Qed.

Lemma shown_under d f : plain_segment d → shown (under d f) = shown f.
Proof. apply shown_below. Qed.

Lemma under_under s d f : under (under s d) f = under s (under d f).
Proof. unfold under. by rewrite !string_app_assoc. Qed.

(** The files of a folder, without the folder in their names. *)
Lemma folder_files s d (rel : list string) :
  plain_segment d →
  under (under s d) <$> List.filter shown (drop_prefix (under d "") <$> List.filter (starts_with (under d "")) rel)
  = under s <$> List.filter shown (List.filter (starts_with (under d "")) rel).
Proof.
  intros Hd. induction rel as [|f rel IH]; [done|]. cbn [List.filter].
  destruct (starts_with (under d "") f) eqn:Hs; [|done].
  apply starts_with_spec in Hs as [r ->]. rewrite fmap_cons. cbn [List.filter].
  rewrite drop_prefix_app, <-under_empty, shown_under by done.
  destruct (shown r); [|done]. by rewrite !fmap_cons, IH, under_under.
Qed.

Lemma default_clibs_hidden l :
  List.filter shown (drop_prefix "clibs/" <$> (clibsFoldersWithSys ++ l))
  = List.filter shown (drop_prefix "clibs/" <$> l).
Proof. rewrite fmap_app, List.filter_app. done. Qed.

Lemma filter_partition (a b : string → bool) l :
  (∀ x, a x = true → b x = false) →
  List.filter (λ x, negb (a x || (b x || false))) l ++ List.filter a l
  ≡ₚ List.filter (λ x, negb (b x)) l.
Proof.
  intros Hab. induction l as [|x l IH]; [done|]. simpl. specialize (Hab x).
  destruct (a x), (b x); simpl; try (discriminate (Hab eq_refl)).
  - rewrite <-Permutation_middle. by constructor.
  - done.
  - by constructor.
Qed.

Lemma filter_split (b : string → bool) l :
  List.filter (λ x, negb (b x)) l ++ List.filter b l ≡ₚ l.
Proof.
  induction l as [|x l IH]; [done|]. simpl. destruct (b x); simpl; [|by constructor].
  rewrite <-Permutation_middle. by constructor.
Qed.

Lemma data_not_clibs f : starts_with "data/" f = true → starts_with "clibs/" f = false.
Proof. by intros [r ->]%starts_with_spec. Qed.

Lemma filter_and {A} (f g : A → bool) l :
  List.filter (λ x, f x && g x) l = List.filter f (List.filter g l).
Proof.
  induction l as [|x l IH]; [done|]. simpl. destruct (g x); simpl; rewrite ?andb_true_r, ?andb_false_r; by rewrite IH.
Qed.

Lemma filter_ext_all {A} (f g : A → bool) l : (∀ x, f x = g x) → List.filter f l = List.filter g l.
Proof. intros Hfg. induction l as [|x l IH]; [done|]. simpl. by rewrite Hfg, IH. Qed.

Lemma filter_true {A} (l : list A) : List.filter (λ _, true) l = l.
Proof. induction l as [|x l IH]; [done|]. simpl. by rewrite IH. Qed.

(** What a section shows, in the section's own names. *)
Lemma section_file_under s hide files :
  Forall separated files →
  List.filter (section_file s hide) files
  = under (section_name s) <$>
      List.filter shown (List.filter (λ r, negb (hide && starts_with "clibs/" r))
        (getFilesBySection files (section_name s))).
Proof.
  intros HF. transitivity
    (List.filter (λ f, shown f && negb (hide && starts_with (under (section_name s) "clibs/") f))
       (List.filter (starts_with (under (section_name s) "")) files)).
  { rewrite <-filter_and. apply filter_ext_all. intros f. unfold section_file.
    destruct (starts_with (under (section_name s) "") f), (shown f), (negb _); reflexivity. }
  rewrite <-files_of_section, <-filter_and by done.
  generalize (getFilesBySection files (section_name s)). intros rel.
  induction rel as [|r rel IH]; [done|]. rewrite fmap_cons. cbn [List.filter].
  rewrite shown_under by apply section_plain.
  assert (starts_with (under (section_name s) "clibs/") (under (section_name s) r)
          = starts_with "clibs/" r) as ->.
  { rewrite (under_empty _ "clibs/"), (under_empty _ r). apply starts_with_app_l. }
  destruct (shown r && _); [|done]. by rewrite fmap_cons, IH.
Qed.

Lemma section_leaves files s hide l nodes :
  Forall separated files → buildSectionTree files s hide l = Ok nodes →
  leaves nodes ≡ₚ List.filter (section_file s hide) files.
Proof.
  intros HF H. unfold buildSectionTree in H. rewrite section_file_under by done.
  set (rel := getFilesBySection files (section_name s)) in *.
  apply bind_Ok_inv in H as (code & Hcode & H). apply bind_Ok_inv in H as (data & Hdata & H).
  apply bind_Ok_inv in H as (clibs & Hclibs & [= <-]).
  apply leaves_part in Hcode, Hdata, Hclibs.
  unfold getDataFiles in Hdata. rewrite (folder_files (section_name s) "data") in Hdata by done.
  unfold geCLibsFiles in Hclibs. rewrite default_clibs_hidden in Hclibs.
  rewrite (folder_files (section_name s) "clibs") in Hclibs by done.
  pose proof (filter_partition (starts_with "data/") (starts_with "clibs/") rel data_not_clibs) as Hp.
  change (List.filter (λ x, negb (_ x || _)) rel) with (getCodeFiles rel) in Hp.
  cbn [app]. rewrite (leaves_cons code), (leaves_cons data), Hcode, Hdata, app_assoc, <-fmap_app, <-List.filter_app.
  rewrite (filter_Permutation _ _ _ Hp). destruct hide; cbn [negb andb].
  - change (leaves []) with (@nil string). by rewrite app_nil_r.
  - rewrite Hclibs, <-fmap_app, <-List.filter_app, filter_true. apply Permutation_map.
    apply filter_Permutation, filter_split.
Qed.

(** ** The component *)

Section component.
Context (translate : string → string) (c : FilesTreeComponent).

Definition sections : list ModuleFolderSection :=
  match treeSection c with Some s => [s] | None => [Agent; Server; Browser] end.

(** The paths that the files of a tree open. *)
Definition opened (nodes : list FilesTreeNode) : list string :=
  omap (open c) (flat_map nodes_of nodes).

Lemma opened_leaves nodes : opened nodes = fullPath c <$> leaves nodes.
Proof.
  unfold opened, leaves. generalize (flat_map nodes_of nodes). intros l.
  induction l as [|n l IH]; [done|]. cbn [omap list_omap List.filter]. unfold open, is_file at 1.
  destruct (node_type n); rewrite ?fmap_cons; by rewrite <-IH.
Qed.

Lemma fullPath_section s r : fullPath c (under (section_name s) r) = under (root c) (under (section_name s) r).
Proof. unfold fullPath, restoreCodePath, drop_prefix, under. by destruct s. Qed.

Lemma normalize_root (F : list string) :
  plain_segment (moduleName c) → plain_segment (moduleVersion c) →
  normalizeFile <$> (under (root c) <$> F) = F.
Proof.
  intros Hn Hv. induction F as [|f F IH]; [done|]. rewrite !fmap_cons, IH. f_equal.
  unfold normalizeFile, root. fold (under (moduleName c) (moduleVersion c)).
  rewrite under_under, !without_segments_under by done. apply without_segments_0.
Qed.

Lemma leaves_sectionNode files s hide label n :
  sectionNode translate files s hide label = Ok n →
  ∃ nodes, buildSectionTree files s hide (Some 0) = Ok nodes ∧ leaves [n] = leaves nodes.
Proof.
  intros (ch & Hch & [= <-])%bind_Ok_inv. exists ch. split; [done|]. by apply leaves_inner.
Qed.

Lemma buildTree_leaves F nodes :
  Forall separated F → buildTree translate F (hideClibs c) (treeSection c) = Ok nodes →
  leaves nodes ≡ₚ flat_map (λ s, List.filter (section_file s (hideClibs c)) F) sections.
Proof.
  intros HF. unfold buildTree, sections. destruct (treeSection c) as [s|].
  - intros H. cbn [flat_map]. rewrite app_nil_r. by eapply section_leaves.
  - intros H. apply bind_Ok_inv in H as (a & Ha & H). apply bind_Ok_inv in H as (sv & Hsv & H).
    apply bind_Ok_inv in H as (b & Hb & [= <-]).
    apply leaves_sectionNode in Ha as (na & Ha & Hla), Hsv as (ns & Hsv & Hls), Hb as (nb & Hb & Hlb).
    apply section_leaves in Ha, Hsv, Hb; [|done..].
    rewrite leaves_cons, (leaves_cons sv), Hla, Hls, Hlb, Ha, Hsv, Hb. cbn [flat_map].
    by rewrite app_nil_r.
Qed.

(** C25: In a module without files or folders whose names merely begin with
    the name of a section ([separated]: no cmodule_old next to cmodule), the
    files of the tree, opened, are the files of its sections, each once:
    whatever a user clicks opens the file that it stands for, and no file is
    missing (files of the libraries where they are hidden apart).  A folder
    such as cmodule_old is shown in the section cmodule, and its files open
    paths that do not exist ([sibling_folder_opens_wrong_file]). *)
Theorem tree_opens_its_files (F : list string) nodes :
  plain_segment (moduleName c) → plain_segment (moduleVersion c) → Forall separated F →
  filesData translate c (under (root c) <$> F) = Ok nodes →
  opened nodes ≡ₚ
    under (root c) <$> flat_map (λ s, List.filter (section_file s (hideClibs c)) F) sections.
Proof.
  intros Hn Hv HF H. unfold filesData in H. rewrite normalize_root in H by done.
  rewrite opened_leaves. rewrite <-(buildTree_leaves F nodes HF H).
  apply buildTree_leaves in H as Hl; [|done].
  assert (Forall (λ p, fullPath c p = under (root c) p) (leaves nodes)) as Hfull.
  { rewrite Hl. apply Forall_forall. intros p Hp. apply list_elem_of_In, in_flat_map in Hp as (s & _ & Hp).
    apply filter_In in Hp as [_ Hp]. unfold section_file in Hp.
    apply andb_true_iff in Hp as [[Hp _]%andb_true_iff _]. apply starts_with_spec in Hp as [r ->].
    rewrite <-under_empty. apply fullPath_section. }
  clear -Hfull. induction Hfull as [|p l Hp _ IH]; [done|]. rewrite !fmap_cons, Hp. by constructor.
Qed.

(** ** When there is a tree *)

Lemma getTree_ok files l path : (∃ nodes, getTree files l path = Ok nodes) ↔ Forall buildable files.
Proof. split; [intros [nodes H]; by eapply tree_buildable|apply getTree_total]. Qed.

Lemma partNode_ok files l nm path :
  (∃ n, partNode files l nm path = Ok n) ↔ Forall buildable files.
Proof.
  rewrite <-(getTree_ok files l path). unfold partNode. split.
  - intros [n (ch & Hch & _)%bind_Ok_inv]. by exists ch.
  - intros [ch ->]. by eexists.
Qed.

Lemma buildable_under d f : plain_segment d → d ∉ inherited → buildable (under d f) ↔ buildable f.
Proof. intros Hd Hi. unfold under. rewrite buildable_below by done. tauto. Qed.

Lemma Forall_List_filter_iff {A} (P : A → Prop) (f : A → bool) l :
  Forall P (List.filter f l) ↔ ∀ x, x ∈ l → f x = true → P x.
Proof.
  rewrite Forall_forall. setoid_rewrite list_elem_of_In. setoid_rewrite filter_In. naive_solver.
Qed.

Lemma folder_buildable d (rel : list string) :
  plain_segment d → d ∉ inherited →
  Forall buildable (drop_prefix (under d "") <$> List.filter (starts_with (under d "")) rel)
  ↔ ∀ f, f ∈ rel → starts_with (under d "") f = true → buildable f.
Proof.
  intros Hd Hi. rewrite Forall_fmap, Forall_List_filter_iff. split; intros H f Hf Hs; specialize (H f Hf Hs);
    apply starts_with_spec in Hs as [r ->]; cbn in H |- *; rewrite drop_prefix_app in *;
    rewrite <-under_empty in *; by apply (buildable_under d r).
Qed.

Lemma buildSectionTree_ok files s hide l :
  (∃ nodes, buildSectionTree files s hide l = Ok nodes)
  ↔ Forall buildable (getFilesBySection files (section_name s)).
Proof.
  unfold buildSectionTree. set (rel := getFilesBySection files (section_name s)).
  set (pl := match l with Some l => _ | None => _ end). transitivity
    (Forall buildable (getCodeFiles rel) ∧ Forall buildable (getDataFiles rel)
     ∧ Forall buildable (geCLibsFiles rel)).
  - rewrite <-(partNode_ok (getCodeFiles rel) pl "code" (section_name s)).
    rewrite <-(partNode_ok (getDataFiles rel) pl "data" (section_name s +:+ "/data")).
    rewrite <-(partNode_ok (geCLibsFiles rel) pl "clibs" (section_name s +:+ "/clibs")). split.
    + intros [nodes (x & Hx & (y & Hy & (z & Hz & _)%bind_Ok_inv)%bind_Ok_inv)%bind_Ok_inv].
      split; [by exists x|]. split; [by exists y|by exists z].
    + intros ([x ->] & [y ->] & [z ->]). by eexists.
  - unfold geCLibsFiles. rewrite fmap_app, Forall_app.
    assert (Forall buildable (drop_prefix "clibs/" <$> clibsFoldersWithSys)) as Hd.
    { apply (bool_decide_unpack _). vm_compute. done. }
    unfold getDataFiles. rewrite (folder_buildable "data"), (folder_buildable "clibs") by
      (try done; apply (bool_decide_unpack _); vm_compute; done).
    unfold getCodeFiles. rewrite Forall_List_filter_iff, (Forall_forall buildable rel).
    change (under "data" "") with "data/". change (under "clibs" "") with "clibs/".
    split.
    2:{ intros H. split; [|split; [|split; [exact Hd|]]]; intros f Hf _; by apply H. }
    intros (Hc & Hda & _ & Hcl) f Hf.
    destruct (starts_with "data/" f) eqn:H1; [by apply Hda|].
    destruct (starts_with "clibs/" f) eqn:H2; [by apply Hcl|].
    apply Hc; [done|]. cbn [existsb]. by rewrite H1, H2.
Qed.

Lemma section_buildable s F :
  Forall separated F →
  Forall buildable (getFilesBySection F (section_name s))
  ↔ ∀ f, f ∈ F → starts_with (section_name s) f = true → buildable f.
Proof.
  intros HF. unfold getFilesBySection. rewrite Forall_fmap, Forall_List_filter_iff.
  rewrite Forall_forall in HF.
  split; intros H f Hf Hs; specialize (H f Hf Hs); pose proof (HF f Hf s Hs) as [r ->]%starts_with_spec;
    cbn in H |- *; rewrite <-under_empty in *;
    rewrite without_segments_under, without_segments_0 in * by apply section_plain;
    (apply (buildable_under (section_name s) r); [apply section_plain|by destruct s; apply (bool_decide_unpack _); vm_compute|done]).
Qed.

Lemma sectionNode_ok files s hide label :
  (∃ n, sectionNode translate files s hide label = Ok n)
  ↔ ∃ nodes, buildSectionTree files s hide (Some 0) = Ok nodes.
Proof.
  unfold sectionNode. split.
  - intros [n (ch & Hch & _)%bind_Ok_inv]. by exists ch.
  - intros [ch ->]. by eexists.
Qed.

(** C35: The tree is built exactly if no folder of its sections has the name of
    a member that every object inherits: a folder called [constructor] leaves
    the user without a tree. *)
Theorem tree_built_unless_inherited (F : list string) :
  plain_segment (moduleName c) → plain_segment (moduleVersion c) → Forall separated F →
  (∃ nodes, filesData translate c (under (root c) <$> F) = Ok nodes) ↔
  ∀ s f, s ∈ sections → f ∈ F → starts_with (section_name s) f = true → buildable f.
Proof.
  intros Hn Hv HF. unfold filesData. rewrite normalize_root by done. unfold buildTree, sections.
  destruct (treeSection c) as [s|].
  - rewrite buildSectionTree_ok, section_buildable by done. split.
    + intros H s' f ->%list_elem_of_singleton. apply H.
    + intros H f. apply H, list_elem_of_here.
  - transitivity ((∃ n, sectionNode translate F Agent (hideClibs c) "modules.Modules.ModuleEdit.Label.AgentModule" = Ok n)
      ∧ (∃ n, sectionNode translate F Server (hideClibs c) "modules.Modules.ModuleEdit.Label.ServerModule" = Ok n)
      ∧ (∃ n, sectionNode translate F Browser (hideClibs c) "modules.Modules.ModuleEdit.Label.BrowserModule" = Ok n)).
    + split.
      * intros [nodes (x & Hx & (y & Hy & (z & Hz & _)%bind_Ok_inv)%bind_Ok_inv)%bind_Ok_inv].
        split; [by exists x|]. split; [by exists y|by exists z].
      * intros ([x ->] & [y ->] & [z ->]). by eexists.
    + rewrite !sectionNode_ok, !buildSectionTree_ok, !section_buildable by done. split.
      * intros (H1 & H2 & H3) [| |] f _; [apply H1|apply H3|apply H2].
      * intros H. split; [|split]; intros f; apply H;
          repeat (apply list_elem_of_here || apply list_elem_of_further).
Qed.

(** ** What a user may remove *)

Definition in_section (n : FilesTreeNode) : Prop := ∃ s r, node_path n = section_name s +:+ r.

Lemma part_in_section files l nm s q n :
  partNode files l nm (section_name s +:+ q) = Ok n → Forall in_section (nodes_of n).
Proof.
  intros (ch & Hch & [= <-])%bind_Ok_inv. cbn [nodes_of]. constructor; [by exists s, q|].
  apply (tree_paths _ _ _ _) in Hch. eapply Forall_impl; [exact Hch|].
  intros m [r Hr]. exists s, (q +:+ "/" +:+ r). by rewrite Hr, string_app_assoc.
Qed.

Lemma section_nodes files s hide l nodes :
  buildSectionTree files s hide l = Ok nodes → Forall in_section (flat_map nodes_of nodes).
Proof.
  intros (x & Hx & (y & Hy & (z & Hz & [= <-])%bind_Ok_inv)%bind_Ok_inv)%bind_Ok_inv.
  rewrite <-(string_app_nil_r (section_name s)) in Hx.
  apply part_in_section in Hx, Hy, Hz. cbn [app flat_map].
  destruct hide; cbn [flat_map]; rewrite ?app_nil_r; by repeat (apply Forall_app; split).
Qed.

Lemma buildTree_nodes F nodes :
  buildTree translate F (hideClibs c) (treeSection c) = Ok nodes →
  Forall in_section (flat_map nodes_of nodes).
Proof.
  unfold buildTree. destruct (treeSection c) as [s|]; [apply section_nodes|].
  assert (∀ s label n, sectionNode translate F s (hideClibs c) label = Ok n →
    Forall in_section (nodes_of n)) as Hs.
  { intros s label n (ch & Hch & [= <-])%bind_Ok_inv. cbn [nodes_of]. constructor.
    - exists s, "". by rewrite string_app_nil_r.
    - by eapply section_nodes. }
  intros (x & Hx & (y & Hy & (z & Hz & [= <-])%bind_Ok_inv)%bind_Ok_inv)%bind_Ok_inv.
  apply Hs in Hx, Hy, Hz. cbn [flat_map]. rewrite app_nil_r. by repeat (apply Forall_app; split).
Qed.

Lemma unprotected n : in_section n → getIsStaticFiles c n = false ∧ getIsDefaultClibsFolders n = false.
Proof.
  intros (s & r & Hp). unfold getIsStaticFiles, getIsDefaultClibsFolders. rewrite Hp.
  by destruct s, (treeSection c) as [[]|].
Qed.

Lemma nothing_protected nodes files n :
  filesData translate c files = Ok nodes → n ∈ flat_map nodes_of nodes →
  canDeleteFile c n = true ∧ canMoveFile c n = true ∧
  canDeleteFolder n = Nat.ltb 0 (node_level n) ∧ canMoveFolder n = Nat.ltb 0 (node_level n).
Proof.
  intros H Hn. apply buildTree_nodes in H. rewrite Forall_forall in H.
  destruct (unprotected n (H n Hn)) as [H1 H2].
  unfold canDeleteFile, canMoveFile, canDeleteFolder, canMoveFolder.
  rewrite H1, H2. by rewrite andb_true_r.
Qed.

(** No file of a tree counts as static and no folder as a default folder of
    the libraries: the patterns expect paths that begin with [code/] and
    [clibs/], and those of the tree begin with a section.  Every file, main.lua
    included, can be removed and moved, and every folder below the top. *)
Theorem nothing_is_protected files nodes n :
  filesData translate c files = Ok nodes → n ∈ flat_map nodes_of nodes →
  canDeleteFile c n = true ∧ canMoveFile c n = true ∧
  canDeleteFolder n = Nat.ltb 0 (node_level n) ∧ canMoveFolder n = Nat.ltb 0 (node_level n).
Proof. apply nothing_protected. Qed.

(** In the tree of all sections, the code part of a section can be removed,
    and the request names the folder of the whole section: every path below
    it, data and libraries too, has that folder in front. *)
Theorem code_part_is_whole_section F nodes s :
  treeSection c = None → filesData translate c F = Ok nodes →
  ∃ n, n ∈ flat_map nodes_of nodes ∧ node_type n = Part ∧ node_path n = section_name s ∧
    canDeleteFolder n = true ∧
    deleteObject c (node_path n) true = Some (Remove (under (root c) (section_name s))) ∧
    ∀ m r, m ∈ flat_map nodes_of nodes → node_path m = under (section_name s) r →
      starts_with (under (root c) (section_name s)) (fullPath c (node_path m)) = true.
Proof.
  intros Hs H. pose proof H as Hall. unfold filesData, buildTree in H. rewrite Hs in H.
  apply bind_Ok_inv in H as (a & Ha & H). apply bind_Ok_inv in H as (sv & Hsv & H).
  apply bind_Ok_inv in H as (b & Hb & [= <-]).
  assert (∀ s label m, sectionNode translate (normalizeFile <$> F) s (hideClibs c) label = Ok m →
    ∃ ch, mkNode Part 1 "code" (section_name s) (Some ch) ∈ nodes_of m) as Hcode.
  { clear. intros s label m (ch & Hch & [= <-])%bind_Ok_inv.
    apply bind_Ok_inv in Hch as (x & Hx & (y & Hy & (z & Hz & [= <-])%bind_Ok_inv)%bind_Ok_inv).
    apply bind_Ok_inv in Hx as (ch & _ & [= <-]). exists ch.
    cbn [nodes_of app flat_map]. apply list_elem_of_further, list_elem_of_here. }
  assert (∃ ch, mkNode Part 1 "code" (section_name s) (Some ch) ∈ flat_map nodes_of [a; sv; b]) as [ch Hin].
  { cbn [flat_map]. setoid_rewrite elem_of_app. setoid_rewrite elem_of_app.
    destruct s; [destruct (Hcode _ _ _ Ha)|destruct (Hcode _ _ _ Hb)|destruct (Hcode _ _ _ Hsv)]; eexists; eauto.
    setoid_rewrite elem_of_app. eauto. }
  eexists. split; [exact Hin|]. split; [done|]. split; [done|]. split; [|split].
  - destruct (nothing_protected _ _ _ Hall Hin) as (_ & _ & -> & _). done.
  - unfold deleteObject, warnAboutDeleting. cbn [node_path]. do 2 f_equal.
    unfold fullPath, restoreCodePath, drop_prefix, under. by destruct s.
  - intros m r _ ->. rewrite fullPath_section, <-under_under. unfold under at 2.
    apply starts_with_app.
Qed.
End component.

(** ** Paths of libraries *)

Lemma string_prefix_app word r : String.prefix word (word +:+ r) = true.
Proof. induction word as [|d word IH]; [by destruct r|]. simpl. by destruct (ascii_dec d d). Qed.

Lemma index_app word p r : ∃ n, String.index 0 word (p +:+ word +:+ r) = Some n.
Proof.
  induction p as [|c p [n Hn]].
  - pose proof (string_prefix_app word r) as Hp. change ("" +:+ word +:+ r) with (word +:+ r). exists 0.
    destruct (word +:+ r) as [|d t] eqn:Hw; [by destruct word|]. cbn [String.index]. by rewrite Hp.
  - rewrite string_app_cons. cbn [String.index].
    destruct (String.prefix word (String c (p +:+ word +:+ r))); [by exists 0|]. rewrite Hn. by eexists.
Qed.

(** The check of a library's path accepts a folder of the list anywhere in
    the path, apart from the first one: the anchor of the pattern belongs to
    its first alternative.  A new file may so be put into folders that the
    agent does not load libraries from. *)
Theorem clibs_folder_anywhere s before folder after :
  folder ∈ drop 1 clibsFolders →
  isValidClibsFilePath (before +:+ folder +:+ after) = true ∧
  chosenPath (under (section_name s) (under "clibs" (before +:+ folder +:+ after)))
  = Some (under (section_name s) (under "clibs" (before +:+ folder +:+ after))).
Proof.
  intros Hf. set (path := before +:+ folder +:+ after).
  assert (isValidClibsFilePath path = true) as Hv.
  { unfold isValidClibsFilePath. apply orb_true_iff. right. apply existsb_exists. exists folder.
    split; [by apply list_elem_of_In|]. unfold contains. destruct (index_app folder before after) as [n Hn].
    fold path in Hn. by rewrite Hn. }
  split; [done|]. unfold chosenPath, getPath, clibsError.
  unfold under. change (section_name s +:+ "/" +:+ "clibs" +:+ "/" +:+ path)
    with (section_name s +:+ String slash ("clibs" +:+ String slash path)).
  rewrite split_app by apply section_plain. rewrite split_app by done.
  change (join slash (drop 2 (section_name s :: "clibs" :: split slash path)))
    with (join slash (split slash path)). rewrite join_split, Hv. by destruct s.
Qed.

(** ** The theorems at concrete inputs *)

Definition backend : FilesTreeComponent := mkFilesTree "scanner" "1.0.0" (Some Agent) false.
Definition allSections : FilesTreeComponent := mkFilesTree "scanner" "1.0.0" None true.
Definition scannerFiles : list string :=
  ["cmodule/main.lua"; "cmodule/args.json"; "cmodule/data/a/b.txt"; "cmodule/data/";
   "cmodule/clibs/linux/amd64/x.so"; "smodule/main.lua"; "bmodule/main.vue"].

Lemma scannerFiles_separated : Forall separated scannerFiles.
Proof. repeat apply List.Forall_cons; try apply List.Forall_nil; by intros []. Qed.

Definition built (c : FilesTreeComponent) : list FilesTreeNode :=
  match filesData id c (under "scanner/1.0.0" <$> scannerFiles) with Ok nodes => nodes | Throw _ => [] end.

Lemma tree_opens_its_files_witness :
  opened backend (built backend) ≡ₚ
    ["scanner/1.0.0/cmodule/main.lua"; "scanner/1.0.0/cmodule/args.json";
     "scanner/1.0.0/cmodule/data/a/b.txt"; "scanner/1.0.0/cmodule/clibs/linux/amd64/x.so"].
Proof.
  apply (tree_opens_its_files id backend scannerFiles); [reflexivity|reflexivity|exact scannerFiles_separated|].
  vm_compute. reflexivity.
Defined.

(** The test for the files of a section is without a slash. *)
Example sibling_folder_opens_wrong_file :
  match filesData id backend ["scanner/1.0.0/cmodule_old/x.lua"] with
  | Ok nodes => opened backend nodes = ["scanner/1.0.0/cmodule/x.lua"]
  | Throw _ => False
  end.
Proof. by vm_compute. Qed.

Lemma tree_built_unless_inherited_witness :
  ¬ ∃ nodes, filesData id backend (under "scanner/1.0.0" <$> ["cmodule/constructor/x.lua"]) = Ok nodes.
Proof.
  assert (Forall separated ["cmodule/constructor/x.lua"]) as Hs.
  { apply List.Forall_cons; [by intros []|done]. }
  rewrite (tree_built_unless_inherited id backend ["cmodule/constructor/x.lua"] eq_refl eq_refl Hs).
  intros H. specialize (H Agent "cmodule/constructor/x.lua" (list_elem_of_here _ _)
    (list_elem_of_here _ _) eq_refl).
  apply (bool_decide_pack _) in H. vm_compute in H. exact H.
Defined.

Definition mainNode : FilesTreeNode := mkNode File 1 "main.lua" "cmodule/main.lua" None.

Lemma nothing_is_protected_witness : canDeleteFile backend mainNode = true.
Proof.
  apply (nothing_is_protected id backend (under "scanner/1.0.0" <$> scannerFiles) (built backend) mainNode).
  - vm_compute. reflexivity.
  - vm_compute. repeat (apply list_elem_of_here || apply list_elem_of_further).
Defined.

Lemma code_part_is_whole_section_witness :
  ∃ n, canDeleteFolder n = true ∧
    deleteObject allSections (node_path n) true = Some (Remove "scanner/1.0.0/cmodule").
Proof.
  destruct (code_part_is_whole_section id allSections (under "scanner/1.0.0" <$> scannerFiles)
              (built allSections) Agent) as (n & _ & _ & _ & H1 & H2 & _); [reflexivity|vm_compute; reflexivity|].
  exists n. split; [exact H1|exact H2].
Defined.

Lemma clibs_folder_anywhere_witness :
  chosenPath "cmodule/clibs/old/linux/amd64/x.so" = Some "cmodule/clibs/old/linux/amd64/x.so".
Proof.
  refine (proj2 (clibs_folder_anywhere Agent "old/" "linux/amd64" "/x.so" _)).
  apply list_elem_of_further, list_elem_of_here.
Defined.
