(* ===== verification/Models.v ===== *)
(** * From server data to view models (libs/models/src/lib)

    The conversions the stores apply to every response: items joined with
    their details by hash or name, agents with their operating systems, events
    with the agent, module, policy and group they refer to, and back to the
    data the server stores. *)

From Stdlib Require Import Ascii.
From S2P Require Import Prelude JsString JsValue SharedUtils.

(** ** Array methods with callbacks that may throw *)

(** [arr.map(f)]. *)
Definition map_array (f : val → res val) (v : val) : res val :=
  l ← as_array v;
  l' ← mapM f l;
  Ok (VArr l').

(** [v?.map(f)]. *)
Definition map_arrayq (f : val → res val) (v : val) : res val :=
  if is_nullish v then Ok VUndef else map_array f v.

(** [arr.find(p)]: the first element that satisfies [p], or [undefined]. *)
Fixpoint find_list (p : val → res bool) (l : list val) : res val :=
  match l with
  | [] => Ok VUndef
  | x :: l => b ← p x; if (b : bool) then Ok x else find_list p l
  end.

(** [arr.find((item) => item.key === x)] and [arr?.find(...)]. *)
Definition key_is (key : string) (x item : val) : res bool :=
  k ← get item key; Ok (strict_eq k x).
Definition find_by (key : string) (x arr : val) : res val :=
  l ← as_array arr; find_list (key_is key x) l.
Definition find_byq (key : string) (x arr : val) : res val :=
  if is_nullish arr then Ok VUndef else find_by key x arr.

(** ** agent.ts *)

(** [s.replace(/^v/, '')]. *)
Definition strip_v (s : string) : string := default s (strip_prefix "v" s).

(** [s.split('-')[0]]. *)
Fixpoint before_dash (s : string) : string :=
  match s with
  | EmptyString => ""
  | String c s => if Ascii.eqb c "-"%char then "" else String c (before_dash s)
  end.

Definition removeHashFromVersion (version : val) : res string :=
  s ← as_string (js_or version (VStr ""));
  Ok (before_dash (strip_v s)).

Definition toOsList (os : val) : res val :=
  type ← get os "type";
  arch ← get os "arch";
  Ok (obj_lit [(to_string type, VArr [arch])]).

(** One agent with the details found for it. *)
Definition agentToModel (agent details : val) : res val :=
  info ← get agent "info";
  os ← get info "os";
  osList ← toOsList os;
  version ← (v ← get agent "version"; as_string v);
  Ok (spread agent
    [("info", spread info [("os", osList)]); ("version", VStr (strip_v version));
     ("details", details); ("_origin", agent)]).

Definition manyAgentsToModels (data : val) : res val :=
  agents ← get data "agents";
  map_array (λ agent,
    hash ← get agent "hash";
    details ← (d ← get data "details"; find_by "hash" hash d);
    agentToModel agent details) agents.

Definition oneAgentToModel (data : val) : res val :=
  agent ← get data "agent";
  details ← get data "details";
  agentToModel agent details.

Definition agentToDto (agent : val) : res val :=
  origin ← get agent "_origin";
  description ← get agent "description";
  info ← get origin "info";
  tags ← get_path agent ["info"; "tags"];
  Ok (spread origin [("description", description); ("info", spread info [("tags", tags)])]).

(** [['new', 'running'].includes(status)]. *)
Definition upgradeRunning (status : val) : bool :=
  is_str status "new" || is_str status "running".

Definition canUpgradeAgent (agent latestBinaryVersion : val) : res val :=
  status ← getq agent "auth_status";
  if negb (is_str status "authorized") then Ok (VBool false)
  else if negb (truthy latestBinaryVersion) then Ok latestBinaryVersion
  else
    version ← getq agent "version";
    current ← removeHashFromVersion version;
    latest ← removeHashFromVersion latestBinaryVersion;
    if String.eqb current latest then Ok (VBool false)
    else
      details ← get agent "details";
      task ← getq_path details ["upgrade_task"];
      taskStatus ← getq task "status";
      Ok (VBool (negb (upgradeRunning taskStatus))).

Definition isUpgradeAgentInProgress (agent : val) : res bool :=
  details ← getq agent "details";
  task ← getq details "upgrade_task";
  status ← getq task "status";
  Ok (upgradeRunning status).

(** ** agent-module.ts, group-module.ts, policy-module.ts *)

(** [data.modules?.map((module) => ({...module, details: ...}))]: the three
    files hold the same function. *)
Definition modulesWithDetails (data : val) : res val :=
  modules ← get data "modules";
  map_arrayq (λ module,
    name ← get_path module ["info"; "name"];
    details ← (d ← get data "details"; find_by "name" name d);
    Ok (spread module [("details", details)])) modules.

Definition privateAgentModulesToModels : val → res val := modulesWithDetails.
Definition privateGroupModulesToModels : val → res val := modulesWithDetails.
Definition privatePoliciesModulesToModels : val → res val := modulesWithDetails.

(** ** event.ts *)

Definition eventToModel (data event : val) : res val :=
  agent_id ← get event "agent_id";
  agent ← (l ← get data "agents"; find_byq "id" agent_id l);
  module_id ← get event "module_id";
  module ← (l ← get data "modules"; find_byq "id" module_id l);
  policy_id ← getq module "policy_id";
  policy ← (l ← get data "policies"; find_byq "id" policy_id l);
  group_id ← getq agent "group_id";
  group ← (l ← get data "groups"; find_byq "id" group_id l);
  Ok (spread event
    [("agent", agent); ("group", group); ("module", module); ("policy", policy)]).

Definition privateEventsToModels (data : val) : res val :=
  events ← get data "events";
  map_array (eventToModel data) events.

(** ** group.ts *)

Definition privateGroupsToModels (data : val) : res val :=
  groups ← get data "groups";
  map_arrayq (λ group,
    hash ← get group "hash";
    details ← (d ← get data "details"; find_by "hash" hash d);
    Ok (spread group [("details", details); ("_origin", group)])) groups.

Definition privateGroupToModel (data : val) : res val :=
  group ← get data "group";
  details ← getq data "details";
  Ok (spread group [("details", details); ("_origin", group)]).

Definition modelsGroupToModel (group : val) : val := spread group [("_origin", group)].

Definition groupToDto (group : val) : res val :=
  origin ← get group "_origin";
  info ← get origin "info";
  name ← get_path group ["info"; "name"];
  tags ← get_path group ["info"; "tags"];
  Ok (spread origin [("info", spread info [("name", name); ("tags", tags)])]).

(** ** modules.ts *)

Definition manyModulesToModels (data : val) : res val :=
  modules ← get data "modules";
  map_arrayq (λ module, Ok (spread module [("_origin", module)])) modules.

(** ** policy.ts *)

(** [[...acc[os], ...added.filter((arch) => !acc[os].includes(arch))]]. *)
Definition addArchs (old added : list val) : list val :=
  old ++ List.filter (λ arch, negb (existsb (strict_eq arch) old)) added.

Definition aggregateModuleOs (module acc : val) (os : string) : res val :=
  added ← (a ← get_path module ["info"; "os"; os]; as_array a);
  cur ← get acc os;
  old ← iter (js_or cur (VArr []));
  set acc os (VArr (addArchs old added)).

Definition aggregateModulesOs (modules : val) : res val :=
  l ← as_array modules;
  foldM (λ acc module,
    osList ← get_path module ["info"; "os"];
    names ← Object_keys osList;
    foldM (aggregateModuleOs module) acc names) (VObj []) l.

Definition policyWithDetails (policy details : val) : res val :=
  info ← get policy "info";
  modules ← get details "modules";
  os ← aggregateModulesOs (js_or modules (VArr []));
  Ok (spread policy
    [("details", details); ("info", spread info [("os", os)]); ("_origin", policy)]).

Definition privatePoliciesToModels (data : val) : res val :=
  policies ← get data "policies";
  map_arrayq (λ policy,
    hash ← get policy "hash";
    details ← (d ← get data "details"; find_by "hash" hash d);
    policyWithDetails policy details) policies.

Definition privatePolicyToModel (data : val) : res val :=
  policy ← get data "policy";
  details ← get data "details";
  policyWithDetails policy details.

Definition policyToDto (policy : val) : res val :=
  origin ← get policy "_origin";
  info ← get origin "info";
  name ← get_path policy ["info"; "name"];
  tags ← get_path policy ["info"; "tags"];
  system ← get_path policy ["info"; "system"];
  Ok (spread origin
    [("info", spread info [("name", name); ("tags", tags); ("system", system)])]).

(** ** Updates of a list of models *)

(** [items.map((item) => (item.id === updated.id ? updated : item))], as the
    stores apply it to the answer of an update. *)
Definition replaceById (updated items : val) : res val :=
  map_array (λ item,
    item_id ← get item "id";
    id ← get updated "id";
    Ok (if strict_eq item_id id then updated else item)) items.
