(* ===== verification/ModelsTheorems.v ===== *)
(** * View models: properties

    The conversions between the data of the server and the models the stores
    keep: what a model shows, and that sending it back loses nothing. *)

From S2P Require Import Prelude JsValue JsJson SharedUtils NameMaps Models.

(** ** Aggregated operating systems *)

(** The architectures a module (or an aggregate) lists for a system. *)
Definition listed (o : obj val) (os arch : string) : Prop :=
  ∃ l : list string, obj_get os o = Some (vstrs l) ∧ arch ∈ l.

Definition os_map (o : obj val) : Prop :=
  ∀ os v, obj_get os o = Some v → ∃ l : list string, v = vstrs l.

(** A module of the server: [info.os] maps systems to arrays of strings. *)
Definition has_os (m : val) (o : obj val) : Prop :=
  get_path m ["info"; "os"] = Ok (VObj o) ∧ os_map o.

#[export] Instance VStr_inj : Inj (=) (=) VStr.
Proof. by intros a b [=]. Qed.

#[export] Instance vstrs_inj : Inj (=) (=) vstrs.
Proof. intros l1 l2 [= H]. by apply (inj (fmap VStr)) in H. Qed.

Lemma strict_eq_str a v : strict_eq (VStr a) v = true ↔ v = VStr a.
Proof.
  destruct v; simpl; try (split; done). rewrite String.eqb_eq. split; congruence.
Qed.

Lemma existsb_strs a l : existsb (strict_eq (VStr a)) (VStr <$> l) = bool_decide (a ∈ l).
Proof.
  induction l as [|x l IH]; [done|].
  change (VStr <$> x :: l) with (VStr x :: (VStr <$> l)). cbn [existsb]. rewrite IH. simpl.
  rewrite (bool_decide_ext (a ∈ x :: l) (a = x ∨ a ∈ l)) by apply elem_of_cons.
  destruct (String.eqb_spec a x); repeat case_bool_decide; naive_solver.
Qed.

(** Adding architectures keeps them in the order of first appearance, once. *)
Lemma addArchs_strs l1 l2 :
  addArchs (VStr <$> l1) (VStr <$> l2) = VStr <$> (l1 ++ filter (λ x, x ∉ l1) l2).
Proof.
  unfold addArchs. rewrite fmap_app. f_equal.
  induction l2 as [|x l2 IH]; [done|].
  change (VStr <$> x :: l2) with (VStr x :: (VStr <$> l2)). cbn [List.filter].
  rewrite existsb_strs, filter_cons, IH. by case_bool_decide; case_decide.
Qed.

Lemma aggregateModuleOs_step m om o os :
  has_os m om → os ∈ obj_keys om → os_map o →
  ∃ o', aggregateModuleOs m (VObj o) os = Ok (VObj o') ∧ os_map o' ∧
    ∀ os' arch, listed o' os' arch ↔ listed o os' arch ∨ (os' = os ∧ listed om os arch).
Proof.
  intros [Hm Hom] Hos Ho. apply elem_of_obj_keys in Hos as [v Hv].
  destruct (Hom _ _ Hv) as [added ->]. unfold aggregateModuleOs.
  assert (get_path m ["info"; "os"; os] = Ok (vstrs added)) as Hg.
  { change ["info"; "os"; os] with (["info"; "os"] ++ [os]).
    rewrite get_path_app, Hm. simpl. unfold obj_lookup. by rewrite Hv. }
  rewrite Hg. cbn [mbind res_bind as_array vstrs get].
  assert (∃ old : list string, iter (js_or (obj_lookup os o) (VArr [])) = Ok (VStr <$> old) ∧
            ∀ arch, arch ∈ old ↔ listed o os arch) as (old & -> & Hold).
  { unfold obj_lookup, listed. destruct (obj_get os o) as [w|] eqn:Hw; simpl.
    - destruct (Ho _ _ Hw) as [old ->]. exists old. split; [done|]. intros arch.
      split; [by eexists|]. by intros (l & [= ->%(inj (fmap VStr))] & Hin).
    - exists []. split; [done|]. intros arch. rewrite elem_of_nil. naive_solver. }
  cbn [mbind res_bind set]. rewrite addArchs_strs. eexists. split; [reflexivity|]. split.
  - intros os' v. rewrite obj_get_set. destruct (String.eqb os' os); [|apply Ho].
    intros [= <-]. by eexists.
  - intros os' arch. unfold listed. rewrite obj_get_set.
    destruct (String.eqb_spec os' os) as [->|Hne]; [|naive_solver].
    fold (listed o os arch). fold (listed om os arch). rewrite <-Hold.
    assert (listed om os arch ↔ arch ∈ added) as ->.
    { unfold listed. rewrite Hv. split; [|by eexists]. by intros (l & [= ->%(inj (fmap VStr))] & Hin). }
    split.
    + intros (l & [= <-%(inj (fmap VStr))] & Hin). apply elem_of_app in Hin as [Hin|Hin]; [by left|].
      apply list_elem_of_filter in Hin as [_ Hin]. by right.
    + intros Hin. eexists. split; [reflexivity|]. rewrite elem_of_app, list_elem_of_filter.
      destruct (decide (arch ∈ old)); [by left|]. right. naive_solver.
Qed.

(** One module adds what it lists. *)
Lemma aggregateModule_step m om o :
  has_os m om → os_map o →
  ∃ o', foldM (aggregateModuleOs m) (VObj o) (obj_keys om) = Ok (VObj o') ∧ os_map o' ∧
    ∀ os arch, listed o' os arch ↔ listed o os arch ∨ listed om os arch.
Proof.
  intros Hm Ho.
  assert (∀ names, (∀ os, os ∈ names → os ∈ obj_keys om) →
    ∃ o', foldM (aggregateModuleOs m) (VObj o) names = Ok (VObj o') ∧ os_map o' ∧
      ∀ os arch, listed o' os arch ↔ listed o os arch ∨ (os ∈ names ∧ listed om os arch)) as Hgen.
  { intros names. revert o Ho. induction names as [|os names IH]; intros o Ho Hin.
    - exists o. split; [done|]. split; [done|]. intros os arch. rewrite elem_of_nil. tauto.
    - destruct (aggregateModuleOs_step m om o os) as (o1 & H1 & Ho1 & Hl1);
        [done|apply Hin, list_elem_of_here|done|].
      destruct (IH o1 Ho1) as (o2 & H2 & Ho2 & Hl2);
        [intros os' Hos'; by apply Hin, list_elem_of_further|].
      exists o2. cbn [foldM]. rewrite H1. split; [done|]. split; [done|].
      intros os' arch. rewrite Hl2, Hl1, elem_of_cons. intuition congruence. }
  destruct (Hgen (obj_keys om)) as (o' & H & Ho' & Hl); [done|]. exists o'.
  split; [done|]. split; [done|]. intros os arch. rewrite Hl.
  assert (listed om os arch → os ∈ obj_keys om); [|tauto].
  intros (l & Hl' & _). apply elem_of_obj_keys. by eexists.
Qed.

(** The operating systems shown for a policy are exactly those of its
    modules: an architecture is listed for a system when some module lists it
    there, and nothing is lost or made up. *)
Theorem aggregated_os_union modules oss :
  Forall2 has_os modules oss →
  ∃ o, aggregateModulesOs (VArr modules) = Ok (VObj o) ∧ os_map o ∧
    ∀ os arch, listed o os arch ↔ ∃ om, om ∈ oss ∧ listed om os arch.
Proof.
  intros Hf. unfold aggregateModulesOs. cbn [as_array mbind res_bind].
  assert (∀ acc, os_map acc →
    ∃ o, foldM (λ acc module,
      osList ← get_path module ["info"; "os"]; names ← Object_keys osList;
      foldM (aggregateModuleOs module) acc names) (VObj acc) modules = Ok (VObj o) ∧ os_map o ∧
    ∀ os arch, listed o os arch ↔ listed acc os arch ∨ ∃ om, om ∈ oss ∧ listed om os arch) as Hgen.
  { induction Hf as [|m om modules oss Hm _ IH]; intros acc Hacc.
    - exists acc. split; [done|]. split; [done|]. intros os arch.
      split; [tauto|]. intros [|(om & []%elem_of_nil & _)]; done.
    - destruct (aggregateModule_step m om acc Hm Hacc) as (o1 & H1 & Ho1 & Hl1).
      destruct (IH o1 Ho1) as (o2 & H2 & Ho2 & Hl2). exists o2. cbn [foldM].
      destruct Hm as [Hm _]. rewrite Hm. cbn [mbind res_bind Object_keys]. rewrite H1.
      split; [done|]. split; [done|]. intros os arch. rewrite Hl2, Hl1.
      setoid_rewrite elem_of_cons. naive_solver. }
  destruct (Hgen []) as (o & H & Ho & Hl); [done|]. exists o. split; [done|]. split; [done|].
  intros os arch. rewrite Hl. unfold listed at 1. simpl. naive_solver.
Qed.

Definition linuxModule (arch : string) : val :=
  obj_lit [("info", obj_lit [("os", obj_lit [("linux", vstrs [arch])])])].

Lemma linuxModule_has_os arch : has_os (linuxModule arch) [("linux", vstrs [arch])].
Proof.
  split; [reflexivity|]. intros os v. simpl. destruct (String.eqb os "linux"); [|done].
  intros [= <-]. by eexists.
Qed.

Lemma aggregated_os_union_witness :
  ∃ o, aggregateModulesOs (VArr [linuxModule "amd64"; linuxModule "386"]) = Ok (VObj o) ∧
    listed o "linux" "386".
Proof.
  destruct (aggregated_os_union [linuxModule "amd64"; linuxModule "386"]
              [[("linux", vstrs ["amd64"])]; [("linux", vstrs ["386"])]]) as (o & H & _ & Hl).
  - constructor; [apply linuxModule_has_os|]. constructor; [apply linuxModule_has_os|constructor].
  - exists o. split; [exact H|]. apply Hl. exists [("linux", vstrs ["386"])].
    split; [apply list_elem_of_further, list_elem_of_here|].
    exists ["386"]. split; [reflexivity|apply list_elem_of_here].
Defined.

(** ** Back to the server *)

Lemma get_spread o kvs k :
  get (spread (VObj o) kvs) k =
    Ok (match obj_get k (reverse kvs) with Some x => x | None => obj_lookup k o end).
Proof. rewrite get_is_obj by (by eexists). by rewrite prop_spread. Qed.

(** An item of the server: a record with [info]. *)
Record item (v : val) (o i : obj val) : Prop := {
  item_obj : v = VObj o;
  item_wf : obj_wf o;
  item_info : obj_get "info" o = Some (VObj i);
  item_info_wf : obj_wf i
}.

Lemma item_get_info v o i : item v o i → get v "info" = Ok (VObj i).
Proof. intros [-> _ Hi _]. simpl. unfold obj_lookup. by rewrite Hi. Qed.

(** Writing back the values that are there. *)
Lemma item_rewrite v o i kvs extra :
  item v o i → NoDup (obj_keys (extra ++ [("info", VUndef)])) →
  Forall (λ kv, obj_get kv.1 o = Some kv.2) extra →
  NoDup (obj_keys kvs) → Forall (λ kv, obj_get kv.1 i = Some kv.2) kvs →
  spread v (extra ++ [("info", spread (VObj i) kvs)]) = v.
Proof.
  intros [-> Hwf Hi Hwi] Hnd He Hk Hf. rewrite (spread_same i kvs) by done.
  apply spread_same; [done| |].
  - unfold obj_keys in *. by rewrite map_app in *.
  - apply Forall_app. split; [done|]. by constructor.
Qed.

Lemma obj_get_lookup k (o : obj val) : k ∈ obj_keys o → obj_get k o = Some (obj_lookup k o).
Proof. rewrite elem_of_obj_keys. unfold obj_lookup. by intros [v ->]. Qed.

Lemma written_back o ks :
  Forall (λ k, k ∈ obj_keys o) ks →
  Forall (λ kv : string * val, obj_get kv.1 o = Some kv.2) ((λ k, (k, obj_lookup k o)) <$> ks).
Proof. induction 1; constructor; [by apply obj_get_lookup|done]. Qed.

(** Read the properties of a model. *)
Ltac read_model Hi Hl :=
  repeat (progress (rewrite ?get_spread, ?Hi, ?Hl; simpl obj_get;
                    cbn [mbind res_bind get_path default]));
  rewrite ?get_obj; cbn [mbind res_bind].

(** Sending a policy, a group or an agent back without edits sends exactly
    what the server had sent: the details, the aggregated systems and the
    other additions of the model are left out, and no property is lost or
    reordered. *)
Theorem unedited_model_roundtrip v o i details data :
  item v o i →
  (∀ model, Forall (λ k, k ∈ obj_keys i) ["name"; "tags"; "system"] →
     policyWithDetails v details = Ok model → policyToDto model = Ok v) ∧
  (∀ model, Forall (λ k, k ∈ obj_keys i) ["name"; "tags"] →
     get data "group" = Ok v → privateGroupToModel data = Ok model →
     groupToDto model = Ok v) ∧
  (∀ model, "tags" ∈ obj_keys i → "description" ∈ obj_keys o →
     agentToModel v details = Ok model → agentToDto model = Ok v).
Proof.
  intros Hv. pose proof (item_get_info v o i Hv) as Hi. pose proof Hv as [-> _ Hio _].
  assert (obj_lookup "info" o = VObj i) as Hl by (unfold obj_lookup; by rewrite Hio).
  split_and!; intros model Hk.
  - unfold policyWithDetails. rewrite Hi. cbn [mbind res_bind]. intros H. inv_res.
    unfold policyToDto. read_model Hi Hl.
    f_equal. apply (item_rewrite _ o i _ []); [done|apply NoDup_singleton|constructor| |].
    + apply (bool_decide_unpack _). reflexivity.
    + exact (written_back i ["name"; "tags"; "system"] Hk).
  - intros Hd. unfold privateGroupToModel. rewrite Hd. cbn [mbind res_bind]. intros H. inv_res.
    unfold groupToDto. read_model Hi Hl.
    f_equal. apply (item_rewrite _ o i _ []); [done|apply NoDup_singleton|constructor| |].
    + apply (bool_decide_unpack _). reflexivity.
    + exact (written_back i ["name"; "tags"] Hk).
  - intros Hd. unfold agentToModel. rewrite Hi. cbn [mbind res_bind]. intros H. inv_res.
    unfold agentToDto. read_model Hi Hl.
    f_equal. apply (item_rewrite _ o i _ [("description", obj_lookup "description" o)]);
      [done| | | |].
    + apply (bool_decide_unpack _). reflexivity.
    + constructor; [by apply obj_get_lookup|constructor].
    + apply NoDup_singleton.
    + constructor; [by apply obj_get_lookup|constructor].
Qed.

Definition samplePolicy : val :=
  obj_lit [("id", vint 7);
           ("info", obj_lit [("name", VStr "base"); ("tags", VArr []); ("system", VBool false)])].

Lemma unedited_model_roundtrip_witness :
  ∃ model, policyWithDetails samplePolicy (obj_lit [("modules", VArr [linuxModule "386"])])
      = Ok model ∧ policyToDto model = Ok samplePolicy.
Proof.
  eexists. split; [vm_compute; reflexivity|].
  refine (proj1 (unedited_model_roundtrip samplePolicy _ _
                   (obj_lit [("modules", VArr [linuxModule "386"])]) VUndef _) _ _ _).
  - split.
    + reflexivity.
    + apply (bool_decide_unpack _). vm_compute. exact I.
    + reflexivity.
    + apply (bool_decide_unpack _). vm_compute. exact I.
  - apply (bool_decide_unpack _). vm_compute. exact I.
  - vm_compute. reflexivity.
Defined.
