(* ===== verification/ModuleEditEffects.v ===== *)
(** * Module editor: effects

    [module-edit.effects.ts]: which request an action sends, and which actions
    the answer dispatches.  The toasts are left out; the services are the
    environment, so a request is a value and its answer an argument.  The text
    of a file arrives encoded in base64 and is decoded by the package
    base64-js and by [TextDecoder]: [decode] stands for the two. *)

From S2P Require Import Prelude JsValue ModuleEditState ModuleEditReducer Models.

(** ** Requests *)

(** One constructor per effect that calls a service. *)
Inductive EffectName :=
| EFetchModule | EFetchVersions | EFetchUpdates | ESaveModule | EReleaseModule
| ECreateDraft | EDeleteModule | EDeleteVersion | EUpdateInPolicies | EFetchFiles
| ELoadFiles | ESaveFiles | EFetchAllModules | EFetchAgentVersions | EFetchVersionsByName.

#[export] Instance EffectName_eq_dec : EqDecision EffectName.
Proof. solve_decision. Defined.

Inductive Request :=
| RFetchModule (name version : string)
| RFetchVersions (name : string)
| RFetchUpdates (name version : string)
| RSaveModule (name version : string) (module : val)
| RReleaseModule (name version : string) (module : val)
| RCreateDraft (name version : string) (changelog : val)
| RDeleteModule (name : string)
| RDeleteVersion (name version : string)
| RUpdateInPolicies (name version : string)
| RFetchFiles (name version : string)
| RLoadFiles (moduleName version : string) (paths : list string)
| RSaveFiles (moduleName version : string) (files : list FileItem)
| RFetchAllModules
| RFetchAgentVersions
| RFetchVersionsByName (name : string).

Definition effect_of (r : Request) : EffectName :=
  match r with
  | RFetchModule _ _ => EFetchModule
  | RFetchVersions _ => EFetchVersions
  | RFetchUpdates _ _ => EFetchUpdates
  | RSaveModule _ _ _ => ESaveModule
  | RReleaseModule _ _ _ => EReleaseModule
  | RCreateDraft _ _ _ => ECreateDraft
  | RDeleteModule _ => EDeleteModule
  | RDeleteVersion _ _ => EDeleteVersion
  | RUpdateInPolicies _ _ => EUpdateInPolicies
  | RFetchFiles _ _ => EFetchFiles
  | RLoadFiles _ _ _ => ELoadFiles
  | RSaveFiles _ _ _ => ESaveFiles
  | RFetchAllModules => EFetchAllModules
  | RFetchAgentVersions => EFetchAgentVersions
  | RFetchVersionsByName _ => EFetchVersionsByName
  end.

(** [mergeMap] lets the requests of an effect run side by side; [switchMap],
    which the other effects use, drops the one in flight. *)
Definition merges (e : EffectName) : bool :=
  match e with ELoadFiles | EFetchVersionsByName => true | _ => false end.

(** [ModuleVersionPipe.transform]. *)
Definition moduleVersion (version : val) : res string :=
  if truthy version then
    major ← get version "major";
    minor ← get version "minor";
    patch ← get version "patch";
    Ok (to_string major +:+ "." +:+ to_string minor +:+ "." +:+ to_string patch)
  else Ok "".

(** The name of a module, which is a string. *)
Definition name_string (v : val) : res string :=
  match v with VStr s => Ok s | _ => Throw Unsupported end.

Definition savedModule (m : val) : res Request :=
  info ← get m "info";
  name ← (n ← get info "name"; name_string n);
  version ← (v ← get info "version"; moduleVersion v);
  Ok (RSaveModule name version m).

(** The effect an action runs and the request it sends.  [forkJoin] of no
    requests completes without a value: the effect runs and sends nothing. *)
Definition trigger (state : State) (a : Action) : res (option (EffectName * option Request)) :=
  let sends r := Ok (Some (effect_of r, Some r)) in
  match a with
  | fetchModule name version => sends (RFetchModule name version)
  | fetchModuleVersions name => sends (RFetchVersions name)
  | fetchModuleUpdates name version => sends (RFetchUpdates name version)
  | saveModule => r ← savedModule (module state); sends r
  | releaseModule name version m =>
      sends (RReleaseModule name version (spread m [("state", VStr "release")]))
  | createModuleDraft name version log => sends (RCreateDraft name version log)
  | deleteModule name => sends (RDeleteModule name)
  | deleteModuleVersion name version => sends (RDeleteVersion name version)
  | updateModuleInPolicies name version => sends (RUpdateInPolicies name version)
  | fetchFiles name version => sends (RFetchFiles name version)
  | loadFiles name version paths =>
      match paths with
      | [] => Ok (Some (ELoadFiles, None))
      | _ => sends (RLoadFiles name version paths)
      end
  | saveFiles name version files =>
      match files with
      | [] => Ok (Some (ESaveFiles, None))
      | _ => sends (RSaveFiles name version files)
      end
  | fetchAllModules => sends RFetchAllModules
  | fetchAgentVersions => sends RFetchAgentVersions
  | fetchModuleVersionByName name => sends (RFetchVersionsByName name)
  | _ => Ok None
  end.

(** ** Answers *)

(** The bodies of the responses, one per call of the request, or the error of
    the first call that failed.  The calls of [loadFiles] and [saveFiles] are
    caught one by one: their answer lists a body or an error per file. *)
Inductive Response :=
| Answered (bodies : list val)
| Failed (error : val).

(** [catchError] after [map]: an exception of the callback ends there too,
    with no [error] property. *)
Definition rescue (failure : val → Action) (r : res (list Action)) : res (list Action) :=
  match r with
  | Throw (Error _) => Ok [failure VUndef]
  | _ => r
  end.

Definition body (bodies : list val) : val := default VUndef (head bodies).

(** [data?.modules?.map((module) => transform(module.info.version))]. *)
Definition versionsOfModules (response : val) : res val :=
  modules ← (d ← get response "data"; getq d "modules");
  map_arrayq (λ m,
    version ← get_path m ["info"; "version"];
    text ← moduleVersion version; Ok (VStr text)) modules.

Definition versionsOfBinaries (response : val) : res val :=
  data ← get response "data";
  if is_nullish data then Ok VUndef
  else
    binaries ← get data "binaries";
    map_array (λ b,
      version ← get b "version";
      text ← removeHashFromVersion version; Ok (VStr text)) binaries.

Section files.
Context (decode : val → res string).

(** [responses.filter((response) => response.status === status)]. *)
Fixpoint withStatus (status : string) (responses : list val) : res (list val) :=
  match responses with
  | [] => Ok []
  | response :: responses =>
      s ← get response "status";
      rest ← withStatus status responses;
      Ok (if is_str s status then response :: rest else rest)
  end.

(** [{path: paths[index], error}] for the errors in their own order. *)
Definition fileErrors (paths : list string) (errors : list val) : list FileError :=
  zip_with mkFileError paths errors.

Definition fileItem (path : string) (response : val) : res FileItem :=
  data ← get response "data";
  text ← getq data "data";
  content ← decode text;
  Ok (mkFileItem path content).

Definition loadedFiles (paths : list string) (responses : list val) : res (list FileItem) :=
  mapM (λ pr, fileItem pr.1 pr.2) (zip paths responses).

Definition loadAnswers (paths : list string) (responses : list val) : res (list Action) :=
  failed ← withStatus "error" responses;
  succeeded ← withStatus "success" responses;
  files ← loadedFiles paths succeeded;
  let errors := fileErrors paths failed in
  Ok (loadFilesSuccess files
      :: if bool_decide (0 < length errors) then [loadFilesFailure errors] else []).

Definition saveAnswers (moduleName version : string) (files : list FileItem)
    (responses : list val) : res (list Action) :=
  failed ← withStatus "error" responses;
  let errors := fileErrors (map path files) failed in
  Ok (saveFilesSuccess files
      :: (if bool_decide (0 < length errors) then [saveFilesFailure errors] else [])
         ++ [fetchModuleUpdates moduleName version]).

(** The actions an answer dispatches. *)
Definition answers (r : Request) (resp : Response) : res (list Action) :=
  match r, resp with
  | RFetchModule _ _, Answered bodies =>
      rescue (λ _, fetchModuleFailure) (
        m ← get (body bodies) "data";
        versions ← (d ← get (body (drop 1 bodies)) "data"; getq d "modules");
        updates ← get (body (drop 2 bodies)) "data";
        files ← get (body (drop 3 bodies)) "data";
        Ok [fetchModuleSuccess m versions updates files])
  | RFetchModule _ _, Failed _ => Ok [fetchModuleFailure]
  | RFetchVersions _, Answered bodies =>
      rescue (λ _, fetchModuleVersionsFailure)
        (data ← get (body bodies) "data"; Ok [fetchModuleVersionsSuccess data])
  | RFetchVersions _, Failed _ => Ok [fetchModuleVersionsFailure]
  | RFetchUpdates _ _, Answered bodies =>
      rescue (λ _, fetchModuleUpdatesFailure)
        (data ← get (body bodies) "data"; Ok [fetchModuleUpdatesSuccess data])
  | RFetchUpdates _ _, Failed _ => Ok [fetchModuleUpdatesFailure]
  | RSaveModule name version _, Answered _ =>
      Ok [saveModuleSuccess; fetchModuleUpdates name version]
  | RSaveModule _ _ _, Failed error => Ok [saveModuleFailure error]
  | RReleaseModule name version _, Answered _ =>
      Ok [releaseModuleSuccess; fetchModule name version; fetchModuleVersions name]
  | RReleaseModule _ _ _, Failed error => Ok [releaseModuleFailure error]
  | RCreateDraft name version _, Answered _ =>
      Ok [createModuleDraftSuccess; fetchModule name version; fetchModuleVersions name]
  | RCreateDraft _ _ _, Failed error => Ok [createModuleDraftFailure error]
  | RDeleteModule _, Answered _ => Ok [deleteModuleSuccess]
  | RDeleteModule _, Failed error => Ok [deleteModuleFailure error]
  | RDeleteVersion _ _, Answered _ => Ok [deleteModuleVersionSuccess]
  | RDeleteVersion _ _, Failed error => Ok [deleteModuleVersionFailure error]
  | RUpdateInPolicies name version, Answered _ =>
      Ok [updateModuleInPoliciesSuccess; fetchModuleUpdates name version]
  | RUpdateInPolicies _ _, Failed error => Ok [updateModuleInPoliciesFailure error]
  | RFetchFiles _ _, Answered bodies =>
      rescue fetchFilesFailure (data ← get (body bodies) "data"; Ok [fetchFilesSuccess data])
  | RFetchFiles _ _, Failed error => Ok [fetchFilesFailure error]
  | RLoadFiles _ _ paths, Answered responses => loadAnswers paths responses
  | RSaveFiles name version files, Answered responses => saveAnswers name version files responses
  | RLoadFiles _ _ _, Failed _ | RSaveFiles _ _ _, Failed _ => Throw Unsupported
  | RFetchAllModules, Answered bodies =>
      rescue fetchAllModulesFailure
        (modules ← (d ← get (body bodies) "data"; getq d "modules");
         Ok [fetchAllModulesSuccess modules])
  | RFetchAllModules, Failed error => Ok [fetchAllModulesFailure error]
  | RFetchAgentVersions, Answered bodies =>
      rescue fetchAgentVersionsFailure
        (versions ← versionsOfBinaries (body bodies); Ok [fetchAgentVersionsSuccess versions])
  | RFetchAgentVersions, Failed error => Ok [fetchAgentVersionsFailure error]
  | RFetchVersionsByName name, Answered bodies =>
      rescue fetchModuleVersionByNameFailure
        (versions ← versionsOfModules (body bodies);
         Ok [fetchModuleVersionByNameSuccess name versions])
  | RFetchVersionsByName _, Failed error => Ok [fetchModuleVersionByNameFailure error]
  end.
End files.
