(* ===== verification/ModuleEditSession.v ===== *)
(** * Module editor: sessions

    The store of the module editor together with its effects: the commands the
    page dispatches, the requests in flight and the answers of the server, in
    any interleaving.  The reducer runs before the effects see the action, and
    the actions of an answer are dispatched one after the other. *)

From S2P Require Import Prelude JsValue JsJson SharedUtils ModuleEditState ModuleEditConfig.
From S2P Require Import ModuleEditItems ModuleEditFields ModuleEditReducer NameMaps.
From S2P Require Import ModuleEditOperations Models ModuleEditEffects ModuleEditInvariant.

(** ** Steps *)

(** An effect whose callback throws is reported and subscribed to again, up to
    ten times (the default error handler of NgRx): the session goes on, without
    the requests the effect had in flight.  [failures] has an entry for each
    such failure; [thrown] lists the effects that failed and were not started
    since.  What happens at the eleventh failure of an effect is not modelled. *)
Record Session := mkSession {
  store : State;
  pending : list Request;
  failures : list EffectName;
  thrown : list EffectName
}.

Definition retries : nat := 10.

Definition initial : Session := mkSession initialState [] [] [].

(** The action that starts an effect. *)
Definition starts (a : Action) : option EffectName :=
  match a with
  | fetchModule _ _ => Some EFetchModule
  | fetchModuleVersions _ => Some EFetchVersions
  | fetchModuleUpdates _ _ => Some EFetchUpdates
  | saveModule => Some ESaveModule
  | releaseModule _ _ _ => Some EReleaseModule
  | createModuleDraft _ _ _ => Some ECreateDraft
  | deleteModule _ => Some EDeleteModule
  | deleteModuleVersion _ _ => Some EDeleteVersion
  | updateModuleInPolicies _ _ => Some EUpdateInPolicies
  | fetchFiles _ _ => Some EFetchFiles
  | loadFiles _ _ _ => Some ELoadFiles
  | saveFiles _ _ _ => Some ESaveFiles
  | fetchAllModules => Some EFetchAllModules
  | fetchAgentVersions => Some EFetchAgentVersions
  | fetchModuleVersionByName _ => Some EFetchVersionsByName
  | _ => None
  end.

(** The requests in flight after the effect [e] ran and sent [o]. *)
Definition enqueue (e : EffectName) (o : option Request) (l : list Request) : list Request :=
  let kept := if merges e then l else filter (λ r, effect_of r ≠ e) l in
  match o with Some r => kept ++ [r] | None => kept end.

(** The effect [e] throws: its stream, with what it waits for, is replaced by
    a new one. *)
Definition resubscribe (e : EffectName) (s : Session) : res Session :=
  if bool_decide (length (filter (λ e', e' = e) (failures s)) < retries) then
    Ok { s with pending := filter (λ r, effect_of r ≠ e) (pending s);
                failures := e :: failures s; thrown := e :: thrown s }
  else Throw Unsupported.

(** An action: the reducer runs, then the effect the action starts.  A reducer
    that throws ends the store. *)
Definition dispatch (s : Session) (a : Action) : res Session :=
  st ← reducer (store s) a;
  let s := { s with store := st } in
  match trigger st a with
  | Ok None => Ok s
  | Ok (Some (e, o)) =>
      Ok { s with pending := enqueue e o (pending s);
                  thrown := filter (λ e', e' ≠ e) (thrown s) }
  | Throw (Error _) =>
      match starts a with Some e => resubscribe e s | None => Throw Unsupported end
  | Throw Unsupported => Throw Unsupported
  end.

Section sessions.
Context (decode : val → res string).

(** The answer of the [i]-th request in flight. *)
Definition respond (s : Session) (i : nat) (resp : Response) : res Session :=
  match pending s !! i with
  | None => Ok s
  | Some r =>
      match answers decode r resp with
      | Ok acts => foldM dispatch { s with pending := delete i (pending s) } acts
      | Throw (Error _) => resubscribe (effect_of r) s
      | Throw Unsupported => Throw Unsupported
      end
  end.

(** Commands that name the files they are about. *)
Definition names_files (a : Action) : bool :=
  match a with
  | loadFiles _ _ [] | saveFiles _ _ [] => false
  | _ => true
  end.

Inductive reached : Session → Prop :=
| reached_init : reached initial
| reached_command s a s' :
    reached s → names_files a = true → dispatch s a = Ok s' → reached s'
| reached_answer s i resp s' :
    reached s → respond s i resp = Ok s' → reached s'.

(** ** Progress flags *)

Definition busy (e : EffectName) (s : State) : bool :=
  match e with
  | EFetchModule => isLoadingModule s
  | EFetchVersions => isLoadingVersions s
  | EFetchUpdates => false           (* no flag *)
  | ESaveModule => isSavingModule s
  | EReleaseModule => isReleasingModule s
  | ECreateDraft => isCreatingDraft s
  | EDeleteModule => isDeleteNodule s
  | EDeleteVersion => isDeleteNoduleVersion s
  | EUpdateInPolicies => isUpdatingModuleInPolicies s
  | EFetchFiles => isFetchFiles s
  | ELoadFiles => isLoadingFile s
  | ESaveFiles => isSavingFiles s
  | EFetchAllModules => isFetchAllModules s
  | EFetchAgentVersions => isFetchAgentVersions s
  | EFetchVersionsByName => isFetchModuleVersionByName s
  end.

Definition flying (e : EffectName) (l : list Request) : Prop := ∃ r, r ∈ l ∧ effect_of r = e.

(** The action that ends the effect [e]. *)
Definition ends (a : Action) : option EffectName :=
  match a with
  | fetchModuleSuccess _ _ _ _ | fetchModuleFailure => Some EFetchModule
  | fetchModuleVersionsSuccess _ | fetchModuleVersionsFailure => Some EFetchVersions
  | fetchModuleUpdatesSuccess _ | fetchModuleUpdatesFailure => Some EFetchUpdates
  | saveModuleSuccess | saveModuleFailure _ => Some ESaveModule
  | releaseModuleSuccess | releaseModuleFailure _ => Some EReleaseModule
  | createModuleDraftSuccess | createModuleDraftFailure _ => Some ECreateDraft
  | deleteModuleSuccess | deleteModuleFailure _ => Some EDeleteModule
  | deleteModuleVersionSuccess | deleteModuleVersionFailure _ => Some EDeleteVersion
  | updateModuleInPoliciesSuccess | updateModuleInPoliciesFailure _ => Some EUpdateInPolicies
  | fetchFilesSuccess _ | fetchFilesFailure _ => Some EFetchFiles
  | loadFilesSuccess _ => Some ELoadFiles
  | saveFilesSuccess _ => Some ESaveFiles
  | fetchAllModulesSuccess _ | fetchAllModulesFailure _ => Some EFetchAllModules
  | fetchAgentVersionsSuccess _ | fetchAgentVersionsFailure _ => Some EFetchAgentVersions
  | fetchModuleVersionByNameSuccess _ _ | fetchModuleVersionByNameFailure _ =>
      Some EFetchVersionsByName
  | _ => None
  end.

(** ** What actions do to the flags *)

Lemma busy_patchModule e s kvs : busy e (patchModule s kvs) = busy e s.
Proof. by destruct e. Qed.
Lemma busy_patchSection e s section kvs : busy e (patchSection s section kvs) = busy e s.
Proof. by destruct e. Qed.
Lemma busy_dependenciesValid e s : busy e (dependenciesValid s) = busy e s.
Proof. by destruct e. Qed.
Lemma busy_withDependencies e s l : busy e (withDependencies s l) = busy e s.
Proof. by destruct e. Qed.

Lemma on_sections_busy e s a s' : on_sections s a = Ok s' → busy e s' = busy e s.
Proof.
  destruct a; cbn [on_sections]; try (by intros [= <-]);
    unfold_handlers; cbv zeta; handler_result;
    rewrite ?busy_dependenciesValid, ?busy_withDependencies, ?busy_patchSection,
      ?busy_patchModule; done.
Qed.

(** Raised by the action that starts the effect, lowered by those that end
    it, and otherwise never raised. *)
Definition flag_moves (e : EffectName) (a : Action) (s s' : State) : Prop :=
  busy e s' = true → starts a = Some e ∨ (busy e s = true ∧ ends a ≠ Some e).

Ltac flag_cases e Hin Hout :=
  destruct e; first
    [ left; reflexivity | discriminate Hout
    | let H := fresh in pose proof (eq_trans (eq_sym Hin) Hout) as H;
      first [discriminate H | right; split; [exact H | discriminate]] ].

Lemma reducer_busy e s a s' : reducer s a = Ok s' → flag_moves e a s s'.
Proof.
  unfold reducer, flag_moves. intros H Hb.
  destruct (on_loading s a) as [s1|] eqn:E1; cbn [mbind res_bind] in H; [|done].
  destruct (on_sections (on_operations s1 a) a) as [s2|] eqn:E2; cbn [mbind res_bind] in H; [|done].
  destruct (on_files s2 a) as [s3|] eqn:E3; cbn [mbind res_bind] in H; [|done].
  injection H as <-. apply (on_sections_busy e) in E2.
  destruct a; cbn [on_loading on_operations on_files on_dependencyData on_state] in *;
    unfold on_loadFilesSuccess, on_saveFilesSuccess, on_closeFiles in E3;
    inv_res; simplify_eq; flag_cases e E2 Hb.
Qed.

(** ** Triggers and answers *)

Lemma trigger_starts s a t : trigger s a = Ok t → fst <$> t = starts a.
Proof.
  unfold trigger, savedModule. destruct a; simpl; intros H; inv_res; simplify_eq; try done;
    by destruct_or?; case_match; simplify_eq.
Qed.

(** Named files send a request of the effect. *)
Lemma trigger_sends s a e o :
  trigger s a = Ok (Some (e, o)) → names_files a = true → ∃ r, o = Some r ∧ effect_of r = e.
Proof.
  unfold trigger, savedModule. destruct a; simpl; intros H Hn; inv_res; simplify_eq;
    try case_match; simplify_eq; by eexists.
Qed.

Lemma elem_of_enqueue e o l r :
  r ∈ enqueue e o l ↔ (r ∈ l ∧ (merges e = true ∨ effect_of r ≠ e)) ∨ o = Some r.
Proof.
  unfold enqueue. destruct (merges e), o as [r'|];
    rewrite ?elem_of_app, ?list_elem_of_filter, ?list_elem_of_singleton; naive_solver.
Qed.

(** Another effect's requests stay in flight. *)
Lemma flying_enqueue e e' o l :
  flying e' l → e' ≠ e ∨ (∃ r, o = Some r ∧ effect_of r = e) → flying e' (enqueue e o l).
Proof.
  intros (r & Hr & He) Ho. destruct (decide (e' = e)) as [->|Hne].
  - destruct Ho as [|(r' & -> & He')]; [done|]. exists r'. rewrite elem_of_enqueue. by auto.
  - exists r. rewrite elem_of_enqueue. naive_solver.
Qed.

(** The first action of an answer ends the effect of its request. *)
Lemma answers_head r resp acts :
  answers decode r resp = Ok acts →
  ∃ a rest, acts = a :: rest ∧ ends a = Some (effect_of r) ∧
    Forall (λ b, names_files b = true ∧ starts b ≠ Some (effect_of r)) acts.
Proof.
  destruct r, resp; simpl; unfold rescue, loadAnswers, saveAnswers; intros H; inv_res;
    repeat (case_match; simplify_eq); inv_res; simplify_eq;
    eexists _, _; (split; [reflexivity|]); (split; [reflexivity|]);
    repeat (apply Forall_cons; split; [by split|]); try apply Forall_nil; try done.
Qed.

(** *** Exceptions *)

(** The effects whose callbacks can throw: [saveModule$] reads the name and
    version of the module before it sends, [loadFile$] and [saveFiles$] read
    the answers outside any [catchError]. *)
Definition throws (e : EffectName) : bool :=
  match e with ESaveModule | ELoadFiles | ESaveFiles => true | _ => false end.

Lemma trigger_throws s a x e : trigger s a = Throw x → starts a = Some e → throws e = true.
Proof. destruct a; simpl; try discriminate; intros H [= <-]; try done; by case_match. Qed.

Lemma answers_throws r resp x :
  answers decode r resp = Throw (Error x) → throws (effect_of r) = true.
Proof.
  destruct r, resp; simpl; try done; unfold rescue; intros H;
    repeat (case_match; simplify_eq); done.
Qed.

Lemma resubscribe_inv e s s' :
  resubscribe e s = Ok s' →
  store s' = store s ∧ pending s' = filter (λ r, effect_of r ≠ e) (pending s) ∧
  thrown s' = e :: thrown s.
Proof. unfold resubscribe. case_bool_decide; [|done]. by intros [= <-]. Qed.

(** The three ways of an action. *)
Lemma dispatch_inv s a s' :
  dispatch s a = Ok s' →
  ∃ st, reducer (store s) a = Ok st ∧
    ((trigger st a = Ok None ∧ s' = { s with store := st }) ∨
     (∃ e o, trigger st a = Ok (Some (e, o)) ∧
        s' = { s with store := st; pending := enqueue e o (pending s);
                      thrown := filter (λ e', e' ≠ e) (thrown s) }) ∨
     (∃ e x, trigger st a = Throw x ∧ starts a = Some e ∧
        resubscribe e { s with store := st } = Ok s')).
Proof.
  unfold dispatch. intros H. destruct (reducer (store s) a) as [st|]; cbn [mbind res_bind] in H;
    [|done]. exists st. split; [done|]. cbv zeta in H.
  destruct (trigger st a) as [[[e o]|]|[x|]] eqn:Et; simplify_eq.
  - right; left. by eexists _, _.
  - by left.
  - destruct (starts a) as [e|]; [|done]. right; right. by eexists _, _.
Qed.

Lemma dispatch_store s a s' : dispatch s a = Ok s' → reducer (store s) a = Ok (store s').
Proof.
  intros (st & -> & [[_ ->]|[(e & o & _ & ->)|(e & x & _ & _ & H)]])%dispatch_inv; [done..|].
  apply resubscribe_inv in H as [-> _]. done.
Qed.

(** ** The invariant of a session *)

(** A raised flag has a request in flight or an effect that threw, except for
    the effects in [ex]. *)
Definition accounted (ex : EffectName → Prop) (s : Session) : Prop :=
  ∀ e, busy e (store s) = true → ¬ ex e → flying e (pending s) ∨ e ∈ thrown s.

(** Only [loadFiles] and [fetchModuleVersionByName] have several requests in
    flight at once. *)
Definition exclusive (s : Session) : Prop :=
  ∀ e, merges e = false → length (filter (λ r, effect_of r = e) (pending s)) ≤ 1.

Definition thrown_ok (s : Session) : Prop := Forall (λ e, throws e = true) (thrown s).

Lemma resubscribe_accounted (ex ex' : EffectName → Prop) e s s' :
  accounted ex s → (∀ e', ex e' → e' = e ∨ ex' e') → resubscribe e s = Ok s' → accounted ex' s'.
Proof.
  intros Hs Hex (Hst & Hp & Ht)%resubscribe_inv e' Hb Hne. rewrite Hst in Hb. rewrite Hp, Ht.
  destruct (decide (e' = e)) as [->|He]; [right; by apply elem_of_cons; left|].
  destruct (Hs e' Hb) as [(r & Hr & Hre)|Hth]; [naive_solver|left|right].
  - exists r. rewrite list_elem_of_filter. naive_solver.
  - by apply elem_of_cons; right.
Qed.

Lemma resubscribe_thrown_ok e s s' :
  thrown_ok s → throws e = true → resubscribe e s = Ok s' → thrown_ok s'.
Proof. intros Hs He (_ & _ & Ht)%resubscribe_inv. unfold thrown_ok. rewrite Ht. by constructor. Qed.

Lemma dispatch_accounted ex s a s' :
  accounted ex s → names_files a = true → dispatch s a = Ok s' →
  accounted (λ e, ex e ∧ ends a ≠ Some e) s'.
Proof.
  intros Hs Hn Hd. pose proof (dispatch_store _ _ _ Hd) as Hred.
  apply dispatch_inv in Hd as (st & Hst & Hd). rewrite Hst in Hred. simplify_eq.
  intros e Hb Hex. destruct (reducer_busy e _ _ _ Hst Hb) as [He|[Hb' He]].
  - destruct Hd as [[Ht _]|[(e' & o & Ht & ->)|(e' & x & Ht & He' & Hr)]].
    + apply trigger_starts in Ht. by rewrite He in Ht.
    + pose proof (trigger_starts _ _ _ Ht) as Hst'. rewrite He in Hst'. injection Hst' as ->. left.
      destruct (trigger_sends _ _ _ _ Ht Hn) as (r & -> & Hre).
      exists r. split; [apply elem_of_enqueue; by right|done].
    + rewrite He in He'. simplify_eq. apply resubscribe_inv in Hr as (_ & _ & ->). right.
      by apply elem_of_cons; left.
  - assert (flying e (pending s) ∨ e ∈ thrown s) as Hf by (apply Hs; [done|tauto]).
    destruct Hd as [[_ ->]|[(e' & o & Ht & ->)|(e' & x & Ht & He' & Hr)]]; [done|..].
    + cbn [pending thrown]. destruct (trigger_sends _ _ _ _ Ht Hn) as (r & -> & Hre).
      destruct (decide (e = e')) as [->|Hne].
      { left. exists r. split; [apply elem_of_enqueue; by right|done]. }
      destruct Hf as [Hf|Hf]; [left; by apply flying_enqueue; auto|right].
      by apply list_elem_of_filter.
    + eapply (resubscribe_accounted (λ e', e' ≠ e) (λ e', e' ≠ e)); [|auto|exact Hr|done|tauto].
      intros e'' _ Hn'. destruct (decide (e'' = e)) as [->|]; [done|by destruct Hn'].
Qed.

Lemma dispatch_thrown_ok s a s' : thrown_ok s → dispatch s a = Ok s' → thrown_ok s'.
Proof.
  intros Hs (st & _ & [[_ ->]|[(e & o & _ & ->)|(e & x & Ht & He & Hr)]])%dispatch_inv; [done|..].
  - apply Forall_forall. intros e' [_ He]%list_elem_of_filter.
    exact (proj1 (Forall_forall _ _) Hs e' He).
  - eapply resubscribe_thrown_ok; [|by eapply trigger_throws|exact Hr]. done.
Qed.

Lemma filter_effect_other e e' l :
  filter (λ r, effect_of r = e') (filter (λ r, effect_of r ≠ e) l) =
    if decide (e' = e) then [] else filter (λ r, effect_of r = e') l.
Proof.
  induction l as [|r l IH]; [by case_decide|]. rewrite !filter_cons.
  repeat case_decide; rewrite ?filter_cons, ?IH; repeat case_decide; naive_solver.
Qed.

Lemma exclusive_enqueue e e' o l :
  merges e' = false → length (filter (λ r, effect_of r = e') l) ≤ 1 →
  (∀ r, o = Some r → effect_of r = e) →
  length (filter (λ r, effect_of r = e') (enqueue e o l)) ≤ 1.
Proof.
  intros Hm Hl Ho. unfold enqueue. destruct (decide (e' = e)) as [->|Hne].
  - rewrite Hm. destruct o as [r|]; rewrite ?filter_app, filter_effect_other, decide_True by done;
      [rewrite filter_cons, filter_nil; case_decide|]; simpl; lia.
  - assert (filter (λ r, effect_of r = e') (if merges e then l
              else filter (λ r, effect_of r ≠ e) l) = filter (λ r, effect_of r = e') l) as Hk.
    { destruct (merges e); [done|]. by rewrite filter_effect_other, decide_False. }
    destruct o as [r|]; rewrite ?filter_app, Hk; [|done].
    rewrite filter_cons, filter_nil, decide_False; [by rewrite app_nil_r|].
    rewrite (Ho r eq_refl). congruence.
Qed.

Lemma trigger_effect_of s a e o r :
  trigger s a = Ok (Some (e, o)) → o = Some r → effect_of r = e.
Proof.
  unfold trigger, savedModule. destruct a; simpl; intros H ->; inv_res; simplify_eq;
    try case_match; by simplify_eq.
Qed.

Lemma resubscribe_exclusive e s s' : exclusive s → resubscribe e s = Ok s' → exclusive s'.
Proof.
  intros Hs (_ & Hp & _)%resubscribe_inv e' Hm. rewrite Hp, filter_effect_other.
  case_decide; [simpl; lia|by apply Hs].
Qed.

Lemma dispatch_exclusive s a s' : exclusive s → dispatch s a = Ok s' → exclusive s'.
Proof.
  intros Hs (st & _ & [[_ ->]|[(e & o & Ht & ->)|(e & x & _ & _ & Hr)]])%dispatch_inv; [done|..].
  - intros e' Hm. apply exclusive_enqueue; [done|by apply Hs|].
    intros r. by apply (trigger_effect_of st a).
  - by eapply resubscribe_exclusive in Hr.
Qed.

(** What every step of a session keeps. *)
Definition session_ok (s : Session) : Prop :=
  accounted (λ _, False) s ∧ exclusive s ∧ thrown_ok s.

(** The rest of an answer after its first action. *)
Lemma dispatches_accounted acts s s' :
  accounted (λ _, False) s → Forall (λ b, names_files b = true) acts →
  foldM dispatch s acts = Ok s' → accounted (λ _, False) s'.
Proof.
  revert s. induction acts as [|b acts IH]; intros s Hs Hn H; simpl in H; [by simplify_eq|].
  inv_res. apply Forall_cons in Hn as [Hb Hn]. eapply IH; [|done..].
  eapply dispatch_accounted in Hs; [|done..]. intros e He _. apply Hs; [done|tauto].
Qed.

Lemma accounted_delete s i r :
  accounted (λ _, False) s → pending s !! i = Some r →
  accounted (λ e, e = effect_of r) { s with pending := delete i (pending s) }.
Proof.
  intros Hs Hi e Hb Hne. destruct (Hs e Hb (λ f, f)) as [(r' & Hr' & He)|Ht]; [left|by right].
  exists r'. split; [|done]. change (r' ∈ delete i (pending s)). apply list_elem_of_lookup in Hr' as [j Hj].
  destruct (decide (i = j)) as [->|Hij]; [congruence|].
  destruct (decide (j < i)) as [Hlt|Hge].
  - apply list_elem_of_lookup. exists j. by rewrite list_lookup_delete_lt.
  - apply list_elem_of_lookup. exists (pred j). rewrite list_lookup_delete_ge by lia.
    by replace (S (pred j)) with j by lia.
Qed.

Lemma exclusive_delete s i :
  exclusive s → exclusive { s with pending := delete i (pending s) }.
Proof.
  intros Hs e Hm. specialize (Hs e Hm). simpl. etrans; [|exact Hs].
  apply filter_length_sublist, sublist_delete.
Qed.

(** The two ways of an answer. *)
Lemma session_respond_inv s i resp s' r :
  pending s !! i = Some r → respond s i resp = Ok s' →
  (∃ acts, answers decode r resp = Ok acts ∧
     foldM dispatch { s with pending := delete i (pending s) } acts = Ok s') ∨
  (∃ x, answers decode r resp = Throw (Error x) ∧ resubscribe (effect_of r) s = Ok s').
Proof.
  unfold respond. intros -> H. destruct (answers decode r resp) as [acts|[x|]]; [|..|done].
  - left. by eexists.
  - right. by eexists.
Qed.

Lemma respond_accounted s i resp s' r :
  pending s !! i = Some r →
  accounted (λ _, False) s → respond s i resp = Ok s' → accounted (λ _, False) s'.
Proof.
  intros Hi Hs [(acts & Ea & H)|(x & _ & H)]%(session_respond_inv s i resp s' r); [| |done].
  - apply answers_head in Ea as (a & rest & -> & He & Hf).
    assert (Forall (λ b, names_files b = true) (a :: rest)) as Hn
      by (eapply Forall_impl; [exact Hf|naive_solver]).
    apply Forall_cons in Hn as [Ha Hn]. cbn [foldM] in H.
    destruct (dispatch _ a) as [s1|] eqn:Ed; cbn [mbind res_bind] in H; [|done].
    eapply dispatches_accounted; [|done..].
    eapply dispatch_accounted in Ed; [|by eapply accounted_delete|done].
    intros e Hb _. apply Ed; [done|]. intros [-> Hne]. done.
  - by eapply resubscribe_accounted in H; [|exact Hs|].
Qed.

Lemma respond_session s i resp s' : session_ok s → respond s i resp = Ok s' → session_ok s'.
Proof.
  intros (Ha & He & Ht) H. destruct (pending s !! i) as [r|] eqn:Hi;
    [|unfold respond in H; rewrite Hi in H; by simplify_eq].
  split; [by eapply respond_accounted|].
  destruct (session_respond_inv _ _ _ _ _ Hi H) as [(acts & Ea & Hf)|(x & Ea & Hr)].
  - eapply (foldM_inv (λ s, exclusive s ∧ thrown_ok s)); [| |exact Hf].
    + intros y b y' _ [Hy Hy'] Hd. split; [by eapply dispatch_exclusive|by eapply dispatch_thrown_ok].
    + split; [by apply exclusive_delete|done].
  - split; [by eapply resubscribe_exclusive|].
    eapply resubscribe_thrown_ok; [done|by eapply answers_throws|done].
Qed.

Lemma reached_session s : reached s → session_ok s.
Proof.
  induction 1 as [|s a s' _ (IHa & IHe & IHt) Hn Hd|s i resp s' _ IH Hr].
  - split; [intros []; discriminate|]. split; [intros e _; simpl; lia|constructor].
  - split; [|split; [by eapply dispatch_exclusive|by eapply dispatch_thrown_ok]].
    eapply dispatch_accounted in Hd; [|done..]. intros e Hb _. apply Hd; [done|tauto].
  - by eapply respond_session.
Qed.

(** ** An answer lowers its flag *)

Lemma dispatches_quiet acts e s s' :
  busy e (store s) = false → Forall (λ b, starts b ≠ Some e) acts →
  foldM dispatch s acts = Ok s' → busy e (store s') = false.
Proof.
  intros Hs Hf H. eapply (foldM_inv (λ s, busy e (store s) = false)); [|exact Hs|exact H].
  intros x b x' Hb Hx Hd%dispatch_store. apply not_true_iff_false. intros Ht.
  rewrite Forall_forall in Hf.
  destruct (reducer_busy e _ _ _ Hd Ht) as [He|[He _]]; [by eapply Hf|congruence].
Qed.

Lemma respond_quiet s i resp s' r acts :
  pending s !! i = Some r → answers decode r resp = Ok acts → respond s i resp = Ok s' →
  busy (effect_of r) (store s') = false.
Proof.
  intros Hi Ea H. unfold respond in H. rewrite Hi, Ea in H.
  apply answers_head in Ea as (a & rest & -> & He & Hf).
  apply Forall_cons in Hf as [[_ Ha] Hf]. cbn [foldM] in H.
  destruct (dispatch _ a) as [s1|] eqn:Ed; cbn [mbind res_bind] in H; [|done].
  eapply dispatches_quiet; [|eapply Forall_impl; [exact Hf|naive_solver]|exact H].
  apply dispatch_store in Ed. apply not_true_iff_false. intros Ht.
  by destruct (reducer_busy (effect_of r) _ _ _ Ed Ht) as [|[_ ?]].
Qed.
End sessions.

(** ** Module editor: the answers about files

    What [loadFile$] and [saveFiles$] dispatch for a list of responses, each a
    body or the error of its request. *)

Section files.
Context (decode : val → res string).

(** The responses with a status. *)
Definition having (status : string) (responses : list val) : list val :=
  List.filter (λ r, is_str (prop r "status") status) responses.

Lemma withStatus_objs status responses :
  Forall is_obj responses → withStatus status responses = Ok (having status responses).
Proof.
  unfold having. induction 1 as [|r l Hr _ IH]; [done|]. cbn [withStatus].
  rewrite get_is_obj by done. cbn [mbind res_bind]. rewrite IH. done.
Qed.

Lemma having_all status responses :
  Forall (λ r, prop r "status" = VStr status) responses → having status responses = responses.
Proof.
  unfold having. induction 1 as [|r l Hr _ IH]; [done|]. simpl. rewrite Hr. simpl.
  by rewrite String.eqb_refl, IH.
Qed.

Lemma having_none status status' responses :
  status ≠ status' → Forall (λ r, prop r "status" = VStr status') responses →
  having status responses = [].
Proof.
  intros Hne. unfold having. induction 1 as [|r l Hr _ IH]; [done|]. simpl. rewrite Hr. simpl.
  by rewrite (proj2 (String.eqb_neq _ _)).
Qed.

Lemma length_having status responses : length (having status responses) ≤ length responses.
Proof.
  unfold having. induction responses as [|r l IH]; [done|]. simpl.
  destruct (is_str _ _); simpl; lia.
Qed.

Lemma mapM_Forall2 {A B} (f : A → res B) l k :
  mapM f l = Ok k ↔ Forall2 (λ x y, f x = Ok y) l k.
Proof.
  split.
  - revert k. induction l as [|x l IH]; intros k H; [by injection H as <-|].
    cbn [mapM] in H. inv_res.
    match goal with H : mret _ = Ok _ |- _ => injection H as <- end. by constructor; auto.
  - induction 1 as [|x y l k Hx _ IH]; [done|]. cbn. rewrite Hx. cbn. by rewrite IH.
Qed.

(** The text a response carries. *)
Definition carries (response : val) (text : string) : Prop :=
  (data ← get response "data"; code ← getq data "data"; decode code) = Ok text.

Lemma fileItem_carries p response x :
  fileItem decode p response = Ok x ↔ path x = p ∧ carries response (content x).
Proof.
  unfold fileItem, carries. split.
  - intros H. destruct (get response "data") as [d|]; cbn [mbind res_bind] in *; [|done].
    destruct (getq d "data") as [c|]; cbn [mbind res_bind] in *; [|done].
    destruct (decode c); cbn [mbind res_bind] in *; simplify_eq. done.
  - intros [<- H]. destruct (get response "data") as [d|]; cbn [mbind res_bind] in *; [|done].
    destruct (getq d "data") as [c|]; cbn [mbind res_bind] in *; [|done].
    rewrite H. by destruct x.
Qed.

(** The loaded files: the paths of the request from the first on, with the
    texts of the responses in order. *)
Lemma loadedFiles_spec paths responses files :
  length responses ≤ length paths → loadedFiles decode paths responses = Ok files ↔
  path <$> files = take (length responses) paths ∧ Forall2 carries responses (content <$> files).
Proof.
  unfold loadedFiles. rewrite mapM_Forall2. revert paths files.
  induction responses as [|r responses IH]; intros [|p paths] files Hl; simpl in *; try lia.
  - split; [intros ->%Forall2_nil_inv_l; by split|]. intros [Hp _].
    destruct files; [constructor|done].
  - split; [intros ->%Forall2_nil_inv_l; by split|]. intros [Hp _].
    destruct files; [constructor|done].
  - split.
    + intros (x & files' & Hx & Hf & ->)%Forall2_cons_inv_l.
      apply IH in Hf as [Hp Hc]; [|lia]. apply fileItem_carries in Hx as [Hpx Hcx].
      simpl in *. split; [by f_equal|by constructor].
    + intros [Hp Hc]. destruct files as [|x files]; [done|]. simpl in *. simplify_eq.
      apply Forall2_cons in Hc as [Hcx Hc]. constructor; [by apply fileItem_carries|].
      apply IH; [lia|done].
Qed.

Lemma zip_with_fileErrors paths errors :
  length errors ≤ length paths →
  errorPath <$> fileErrors paths errors = take (length errors) paths ∧
  fileError <$> fileErrors paths errors = errors.
Proof.
  unfold fileErrors. revert paths.
  induction errors as [|e errors IH]; intros [|p paths] Hl; simpl in *; try lia; try done.
  destruct (IH paths) as [Hp He]; [lia|]. split; by f_equal.
Qed.

Lemma fileErrors_nil paths : fileErrors paths [] = [].
Proof. by destruct paths. Qed.

(** What a load dispatches when every response is an object. *)
Lemma loadAnswers_spec paths responses acts :
  Forall is_obj responses → length responses = length paths →
  loadAnswers decode paths responses = Ok acts →
  let failed := having "error" responses in
  let succeeded := having "success" responses in
  ∃ files,
    acts = loadFilesSuccess files
      :: (if bool_decide (0 < length failed) then [loadFilesFailure (fileErrors paths failed)]
          else []) ∧
    path <$> files = take (length succeeded) paths ∧
    Forall2 carries succeeded (content <$> files).
Proof.
  intros Ho Hl. unfold loadAnswers. rewrite !withStatus_objs by done. cbn [mbind res_bind].
  destruct (loadedFiles decode paths _) as [files|] eqn:Hf; cbn [mbind res_bind]; intros H;
    [|done]. injection H as <-. exists files.
  pose proof (length_having "error" responses). pose proof (length_having "success" responses).
  apply loadedFiles_spec in Hf; [|lia]. split; [|done].
  destruct (zip_with_fileErrors paths (having "error" responses)) as [_ He]; [lia|].
  assert (length (fileErrors paths (having "error" responses)) =
          length (having "error" responses)) as -> by (by rewrite <-He at 2; rewrite length_fmap).
  done.
Qed.

(** What a save dispatches. *)
Lemma saveAnswers_spec name version files responses :
  Forall is_obj responses → length responses = length files →
  let failed := having "error" responses in
  saveAnswers name version files responses = Ok
    (saveFilesSuccess files
     :: (if bool_decide (0 < length failed)
         then [saveFilesFailure (fileErrors (map path files) failed)] else [])
     ++ [fetchModuleUpdates name version]).
Proof.
  intros Ho Hl. unfold saveAnswers. rewrite withStatus_objs by done. cbn [mbind res_bind].
  pose proof (length_having "error" responses).
  destruct (zip_with_fileErrors (map path files) (having "error" responses)) as [_ He];
    [rewrite length_map; lia|].
  assert (length (fileErrors (map path files) (having "error" responses)) =
          length (having "error" responses)) as -> by (by rewrite <-He at 2; rewrite length_fmap).
  done.
Qed.
End files.
