(* ===== verification/ModuleEditSessionTheorems.v ===== *)
(** * Module editor: properties of sessions

    What the page can rely on while requests are in flight: progress flags,
    saving, files. *)

From S2P Require Import Prelude JsValue JsJson SharedUtils ModuleEditState ModuleEditFields.
From S2P Require Import ModuleEditReducer.
From S2P Require Import ModuleEditSelectors NameMaps ModuleEditInvariant ModuleEditDefaults.
From S2P Require Import ModuleEditOperations ModuleEditSamples.
From S2P Require Import Models ModuleEditEffects ModuleEditSession.

(** A decoder for the samples: texts sent as they are. *)
Definition plain (v : val) : res string := as_string v.

Definition opened (s : State) : Session := { initial with store := s }.

Definition send (s : Session) (a : Action) : Session :=
  match dispatch s a with Ok s' => s' | Throw _ => s end.

(** ** Progress flags *)

Section progress.
Context (decode : val → res string).

(** C5: Whatever the order of commands and answers, as long as no command names
    an empty list of files: a progress flag of the editor is raised only while
    a request of its effect is in flight, or when the callback of the effect
    threw and the effect was not started again since.  Only [saveModule$],
    [loadFile$] and [saveFiles$] can throw: they read the module or the
    answers outside any [catchError].  (An effect may throw ten times; NgRx
    gives it up at the eleventh, which ends the runs considered here.) *)
Theorem raised_flag_has_request s e :
  reached decode s → busy e (store s) = true →
  (∃ r, r ∈ pending s ∧ effect_of r = e) ∨
  (e ∈ thrown s ∧ e ∈ [ESaveModule; ELoadFiles; ESaveFiles]).
Proof.
  intros (Ha & _ & Ht)%reached_session Hb. destruct (Ha e Hb) as [Hf|Hf]; [tauto|by left|right].
  split; [done|]. pose proof (proj1 (Forall_forall _ _) Ht e Hf) as He.
  apply list_elem_of_In. destruct e; try discriminate He; simpl; tauto.
Qed.

(** The exception of an answer leaves the flag of the effect raised, with
    none of its requests in flight: until the next command, the page shows
    the progress of nothing. *)
Theorem exception_leaves_flag s i r resp s' x :
  pending s !! i = Some r → answers decode r resp = Throw (Error x) →
  respond decode s i resp = Ok s' →
  store s' = store s ∧ (¬ ∃ r', r' ∈ pending s' ∧ effect_of r' = effect_of r) ∧
  effect_of r ∈ thrown s'.
Proof.
  intros Hi Ha H. unfold respond in H. rewrite Hi, Ha in H.
  apply resubscribe_inv in H as (Hst & Hp & Ht). rewrite Hp, Ht. split; [done|].
  split; [|by apply elem_of_cons; left]. by intros (r' & [Hne _]%list_elem_of_filter & He).
Qed.

(** Every effect but [loadFile$] and [fetchModuleVersionsByName$] has at
    most one request in flight: a new command drops the previous one. *)
Theorem one_request_in_flight s e :
  reached decode s → merges e = false →
  length (filter (λ r, effect_of r = e) (pending s)) ≤ 1.
Proof. intros Hs. apply reached_session in Hs as (_ & He & _). apply He. Qed.

(** Any answer to a request, a success or a failure, lowers the flag of
    its effect, unless the effect's callback throws. *)
Theorem answer_lowers_flag s i r resp acts s' :
  pending s !! i = Some r → answers decode r resp = Ok acts → respond decode s i resp = Ok s' →
  busy (effect_of r) (store s') = false.
Proof. apply respond_quiet. Qed.

(** Loading an empty list of files raises [isLoadingFile] without sending
    a request; saving one raises [isSavingFiles] and drops the save in
    flight.  No answer will lower the flag. *)
Theorem empty_file_list_spins s s' name version :
  (dispatch s (loadFiles name version []) = Ok s' →
     busy ELoadFiles (store s') = true ∧ pending s' = pending s) ∧
  (dispatch s (saveFiles name version []) = Ok s' →
     busy ESaveFiles (store s') = true ∧ ¬ flying ESaveFiles (pending s')).
Proof.
  split; unfold dispatch, reducer; cbn [on_loading on_sections on_operations on_files
    mbind res_bind trigger]; intros [= <-]; (split; [done|]); [done|].
  intros (r & Hr & He). apply (elem_of_enqueue ESaveFiles None) in Hr as [[_ [|]]|]; done.
Qed.

(** ** Saving *)

(** The answer to a save makes the module as it is now the saved one,
    whatever was sent: edits made while the save was in flight are reported
    as saved. *)
Theorem saved_answer_cleans_current s i name version sent bodies :
  pending s !! i = Some (RSaveModule name version sent) →
  ∃ s' v, respond decode s i (Answered bodies) = Ok s' ∧
    module (store s') = module (store s) ∧ original (store s') = module (store s) ∧
    selectIsDirty (store s') = Ok v ∧ truthy v = false.
Proof.
  intros Hi.
  set (st := { store s with isSavingModule := false; original := module (store s) }).
  destruct (not_dirty st) as (v & Hv & Ht); [done|].
  exists { s with store := st;
        pending := enqueue EFetchUpdates (Some (RFetchUpdates name version))
                     (delete i (pending s));
        thrown := filter (λ e, e ≠ EFetchUpdates) (thrown s) }, v.
  split; [|done]. unfold respond. rewrite Hi. reflexivity.
Qed.

(** ** Files *)

(** [loadFilesSuccess] reaches only the handler of the files. *)
Lemma dispatch_loaded s files st :
  on_loadFilesSuccess (store s) files = Ok st →
  dispatch s (loadFilesSuccess files) = Ok { s with store := st }.
Proof.
  intros H. unfold dispatch, reducer.
  cbn [on_loading on_sections on_operations on_files mbind res_bind trigger].
  by rewrite H.
Qed.

(** When every file of a load is answered with its text, each file is
    opened with its own text and the load's errors are forgotten; the other
    open files keep theirs. *)
Theorem loaded_files_opened s i name version paths responses texts :
  pending s !! i = Some (RLoadFiles name version paths) →
  files_maps (store s) → is_json (loadFileErrors (store s)) = true →
  NoDup paths → length responses = length paths →
  Forall is_obj responses → Forall (λ r, prop r "status" = VStr "success") responses →
  Forall2 (carries decode) responses texts →
  ∃ s', respond decode s i (Answered responses) = Ok s' ∧
    busy ELoadFiles (store s') = false ∧
    (∀ k p t, paths !! k = Some p → texts !! k = Some t →
       prop (filesContent (store s')) p = fileContent true t ∧
       prop (loadFileErrors (store s')) p = VUndef) ∧
    (∀ p, p ∉ paths → prop (filesContent (store s')) p = prop (filesContent (store s)) p).
Proof.
  intros Hi Hm Hj Hnd Hl Ho Hs Hc.
  set (items := zip_with mkFileItem paths texts).
  pose proof (Forall2_length _ _ _ Hc) as Hlt.
  assert (path <$> items = paths) as Hp by (apply fmap_zip_with_l; [done|lia]).
  assert (content <$> items = texts) as Ht by (apply fmap_zip_with_r; [done|lia]).
  assert (loadAnswers decode paths responses = Ok [loadFilesSuccess items]) as Ha.
  { unfold loadAnswers. rewrite !withStatus_objs by done. cbn [mbind res_bind].
    rewrite (having_none "error" "success"), (having_all "success") by done.
    rewrite (proj2 (loadedFiles_spec decode paths responses items ltac:(lia))).
    - cbn [mbind res_bind]. by rewrite fileErrors_nil.
    - rewrite Hp, Ht, Hl, firstn_all. done. }
  destruct (on_loadFilesSuccess_effect (store s) items) as (st & Hst & Hb & Hoe & Hfc & Hfe);
    [done..|by rewrite Hp|].
  exists { s with store := st; pending := delete i (pending s) }. unfold respond. rewrite Hi. cbn [answers].
  rewrite Ha. cbn [mbind res_bind foldM].
  rewrite (dispatch_loaded _ _ st) by exact Hst. split; [done|]. split; [done|].
  assert (NoDup (path <$> items)) as Hnd' by (by rewrite Hp). cbn [store].
  split.
  - intros k p t Hk Htk.
    assert (mkFileItem p t ∈ items) as Hin.
    { apply list_elem_of_lookup. exists k. unfold items. rewrite lookup_zip_with, Hk. simpl.
      by rewrite Htk. }
    rewrite Hfc, Hfe. split.
    + pose proof (find_NoDup path items (mkFileItem p t) Hnd' Hin) as Hf. simpl in Hf.
      by rewrite Hf.
    + rewrite (proj2 (includes_spec _ _)); [done|]. rewrite Hp. by eapply list_elem_of_lookup_2.
  - intros p Hp'. rewrite Hfc, find_None_key; [done|]. by rewrite Hp.
Qed.

(** When the first file of a load fails and the second is answered, the
    text of the second is opened under the path of the first, whose error is
    reported as well; the second stays as it was. *)
Theorem partial_load_misplaces_text s i name version p1 p2 r1 r2 text :
  pending s !! i = Some (RLoadFiles name version [p1; p2]) →
  files_maps (store s) → is_json (loadFileErrors (store s)) = true → p1 ≠ p2 →
  is_obj r1 → prop r1 "status" = VStr "error" →
  is_obj r2 → prop r2 "status" = VStr "success" → carries decode r2 text →
  ∃ s', respond decode s i (Answered [r1; r2]) = Ok s' ∧
    prop (filesContent (store s')) p1 = fileContent true text ∧
    prop (loadFileErrors (store s')) p1 = r1 ∧
    prop (filesContent (store s')) p2 = prop (filesContent (store s)) p2.
Proof.
  intros Hi Hm Hj Hne Ho1 Hs1 Ho2 Hs2 Hc.
  assert (loadAnswers decode [p1; p2] [r1; r2] =
    Ok [loadFilesSuccess [mkFileItem p1 text]; loadFilesFailure [mkFileError p1 r1]]) as Ha.
  { unfold loadAnswers. rewrite !withStatus_objs by by repeat constructor.
    unfold having. simpl. rewrite Hs1, Hs2. simpl.
    assert (fileItem decode p1 r2 = Ok (mkFileItem p1 text)) as Hf by by apply fileItem_carries.
    unfold loadedFiles. simpl. rewrite Hf. done. }
  destruct (on_loadFilesSuccess_effect (store s) [mkFileItem p1 text]) as
    (st & Hst & Hb & Hoe & Hfc & Hfe); [done..|apply NoDup_singleton|].
  eexists. unfold respond. rewrite Hi. cbn [answers]. rewrite Ha. cbn [mbind res_bind foldM].
  rewrite (dispatch_loaded _ _ st) by exact Hst. cbn [mbind res_bind].
  split; [reflexivity|]. split_and!.
  - cbn. rewrite Hfc. simpl. by rewrite String.eqb_refl.
  - cbn -[prop keyed spread2]. unfold constant. rewrite prop_spread_keyed; [|done|apply NoDup_singleton|].
    + simpl. by rewrite String.eqb_refl.
    + repeat constructor. by destruct Ho1 as [? ->].
  - cbn. rewrite Hfc. simpl. by rewrite (proj2 (String.eqb_neq _ _)) by done.
Qed.

(** The answer to a save reports every file as saved and opens it with the
    text that was sent, although some of the files failed; the errors of the
    failed ones are filed under the first paths of the request. *)
Theorem save_answer_reports_success name version files responses :
  Forall is_obj responses → length responses = length files →
  let failed := having "error" responses in
  ∃ errors,
    answers decode (RSaveFiles name version files) (Answered responses) =
      Ok (saveFilesSuccess files
          :: (if bool_decide (0 < length failed) then [saveFilesFailure errors] else [])
          ++ [fetchModuleUpdates name version]) ∧
    errorPath <$> errors = take (length failed) (path <$> files) ∧
    fileError <$> errors = failed.
Proof.
  intros Ho Hl failed. exists (fileErrors (map path files) failed).
  split; [by apply saveAnswers_spec|]. apply zip_with_fileErrors.
  rewrite length_map, <-Hl. apply length_having.
Qed.
End progress.

(** ** Samples *)

Definition start : Session := initial.
Definition fetching : Session := send start (fetchFiles "scanner" "1.0.0").

Lemma fetching_reached : reached plain fetching.
Proof.
  apply (reached_command _ start (fetchFiles "scanner" "1.0.0")); [constructor|done|].
  vm_compute. reflexivity.
Qed.

Lemma raised_flag_has_request_witness :
  busy EFetchFiles (store fetching) = true ∧
  ∃ r, r ∈ pending fetching ∧ effect_of r = EFetchFiles.
Proof.
  split; [vm_compute; reflexivity|].
  destruct (raised_flag_has_request plain fetching EFetchFiles fetching_reached)
    as [H|[H _]]; [vm_compute; reflexivity|exact H|].
  vm_compute in H. inversion H.
Defined.

Lemma one_request_in_flight_witness :
  length (filter (λ r, effect_of r = EFetchFiles) (pending fetching)) ≤ 1.
Proof. apply (one_request_in_flight plain _ _ fetching_reached). reflexivity. Defined.

Lemma answer_lowers_flag_witness :
  ∃ s', respond plain fetching 0 (Failed VNull) = Ok s' ∧ busy EFetchFiles (store s') = false.
Proof.
  eexists. split; [vm_compute; reflexivity|].
  apply (answer_lowers_flag plain fetching 0 (RFetchFiles "scanner" "1.0.0") (Failed VNull)
           [fetchFilesFailure VNull]).
  - vm_compute. reflexivity.
  - reflexivity.
  - vm_compute. reflexivity.
Defined.

Lemma empty_file_list_spins_witness :
  busy ELoadFiles (store (send start (loadFiles "scanner" "1.0.0" []))) = true ∧
  pending (send start (loadFiles "scanner" "1.0.0" [])) = [].
Proof.
  refine (proj1 (empty_file_list_spins start (send start (loadFiles "scanner" "1.0.0" []))
                   "scanner" "1.0.0") _).
  vm_compute. reflexivity.
Defined.

(** A parameter is added while the module is being saved. *)
Definition saving : Session := send (opened sampleFetched) saveModule.
Definition edited : Session := send saving addConfigParam.

Lemma saved_answer_cleans_current_witness :
  ∃ name version sent s' v,
    pending edited = [RSaveModule name version sent] ∧ sent ≠ module (store edited) ∧
    respond plain edited 0 (Answered []) = Ok s' ∧
    original (store s') = module (store edited) ∧
    selectIsDirty (store s') = Ok v ∧ truthy v = false.
Proof.
  destruct (saved_answer_cleans_current plain edited 0 "sample" "" (module sampleFetched) [])
    as (s' & v & H1 & _ & H2 & H3 & H4); [vm_compute; reflexivity|].
  exists "sample", "", (module sampleFetched), s', v.
  split; [vm_compute; reflexivity|]. split; [vm_compute; discriminate|].
  split; [exact H1|]. split; [exact H2|]. split; [exact H3|exact H4].
Defined.

(** Two files are being loaded. *)
Definition loading : Session :=
  send (opened sampleFetched) (loadFiles "scanner" "1.0.0" ["a.lua"; "b.lua"]).
Definition answerWith (text : string) : val :=
  obj_lit [("status", VStr "success"); ("data", obj_lit [("data", VStr text)])].
Definition notFound : val := obj_lit [("status", VStr "error"); ("code", VStr "NotFound")].

Lemma loading_maps : files_maps (store loading).
Proof. split_and!; by eexists. Qed.

Lemma loaded_files_opened_witness :
  ∃ s', respond plain loading 0 (Answered [answerWith "A"; answerWith "B"]) = Ok s' ∧
    prop (filesContent (store s')) "b.lua" = fileContent true "B".
Proof.
  destruct (loaded_files_opened plain loading 0 "scanner" "1.0.0" ["a.lua"; "b.lua"]
              [answerWith "A"; answerWith "B"] ["A"; "B"]) as (s' & H & _ & Hf & _).
  - vm_compute. reflexivity.
  - exact loading_maps.
  - vm_compute. reflexivity.
  - apply (bool_decide_unpack _). vm_compute. exact I.
  - reflexivity.
  - repeat constructor; by eexists.
  - repeat constructor.
  - repeat constructor.
  - exists s'. split; [exact H|]. apply (Hf 1 "b.lua" "B"); reflexivity.
Defined.

(** The second file is answered by an error without a body. *)
Lemma exception_leaves_flag_witness :
  ∃ s', respond plain loading 0 (Answered [answerWith "A"; VNull]) = Ok s' ∧
    busy ELoadFiles (store s') = true ∧ ¬ (∃ r, r ∈ pending s' ∧ effect_of r = ELoadFiles).
Proof.
  eexists. split; [vm_compute; reflexivity|]. split; [vm_compute; reflexivity|].
  refine (proj1 (proj2 (exception_leaves_flag plain loading 0
    (RLoadFiles "scanner" "1.0.0" ["a.lua"; "b.lua"]) (Answered [answerWith "A"; VNull]) _
    Type_error _ _ _))); vm_compute; reflexivity.
Defined.

Lemma partial_load_misplaces_text_witness :
  ∃ s', respond plain loading 0 (Answered [notFound; answerWith "B"]) = Ok s' ∧
    prop (filesContent (store s')) "a.lua" = fileContent true "B" ∧
    prop (loadFileErrors (store s')) "a.lua" = notFound ∧
    prop (filesContent (store s')) "b.lua" = fileContent false "".
Proof.
  destruct (partial_load_misplaces_text plain loading 0 "scanner" "1.0.0" "a.lua" "b.lua"
              notFound (answerWith "B") "B") as (s' & H & H1 & H2 & H3).
  - vm_compute. reflexivity.
  - exact loading_maps.
  - vm_compute. reflexivity.
  - discriminate.
  - by eexists.
  - reflexivity.
  - by eexists.
  - reflexivity.
  - reflexivity.
  - exists s'. split; [exact H|]. split; [exact H1|]. split; [exact H2|].
    rewrite H3. vm_compute. reflexivity.
Defined.

Lemma save_answer_reports_success_witness :
  ∃ errors,
    answers plain (RSaveFiles "scanner" "1.0.0" [mkFileItem "a.lua" "A"; mkFileItem "b.lua" "B"])
      (Answered [answerWith ""; notFound]) =
      Ok [saveFilesSuccess [mkFileItem "a.lua" "A"; mkFileItem "b.lua" "B"];
          saveFilesFailure errors; fetchModuleUpdates "scanner" "1.0.0"] ∧
    errorPath <$> errors = ["a.lua"].
Proof.
  destruct (save_answer_reports_success plain "scanner" "1.0.0"
              [mkFileItem "a.lua" "A"; mkFileItem "b.lua" "B"]
              [answerWith ""; notFound]) as (errors & H & He & _).
  - repeat constructor; by eexists.
  - reflexivity.
  - exists errors. split; [exact H|exact He].
Defined.
