(* ===== verification/ModuleEditFacade.v ===== *)
(** * Facade of the module editor

    [libs/store/modules/src/lib/edit/module-edit.facade.ts]: a method is what
    it dispatches; those that name the module read it in the state ([take(1)]). *)

From S2P Require Import Prelude JsValue ModuleEditState ModuleEditReducer ModuleEditEffects.

(** ** Streams *)

(** [isValidFiles$] selects the flag of the fields. *)
Definition isValidFiles (state : State) : bool := fields (validationState state).

(** ** Methods that read the module *)

(** [module.info.name] and the text of [module.info.version]. *)
Definition moduleRef (s : State) : res (string * string) :=
  info ← get (module s) "info";
  name ← (n ← get info "name"; name_string n);
  version ← (v ← get info "version"; moduleVersion v);
  Ok (name, version).

(** [{ ...module, changelog: { ...module.changelog, [version]: record } }] *)
Definition releaseModule (record : val) (s : State) : res (list Action) :=
  r ← moduleRef s;
  changelog ← get (module s) "changelog";
  let released := spread (module s) [("changelog", spread changelog [(r.2, record)])] in
  Ok [ModuleEditState.releaseModule r.1 r.2 released].

Definition createDraft (version : string) (record : val) (s : State) : res (list Action) :=
  info ← get (module s) "info";
  name ← (n ← get info "name"; name_string n);
  Ok [ModuleEditState.createModuleDraft name version record].

Definition loadFiles (paths : list string) (s : State) : res (list Action) :=
  r ← moduleRef s; Ok [ModuleEditState.loadFiles r.1 r.2 paths].

Definition saveFiles (files : list FileItem) (s : State) : res (list Action) :=
  r ← moduleRef s; Ok [ModuleEditState.saveFiles r.1 r.2 files].

(** ** The other methods *)

Definition fetchModule (name : string) (version : option string) : list Action :=
  [ModuleEditState.fetchModule name (default "latest" version)].
Definition fetchModuleVersions (name : string) : list Action :=
  [ModuleEditState.fetchModuleVersions name].
Definition fetchUpdates (name : string) (version : option string) : list Action :=
  [ModuleEditState.fetchModuleUpdates name (default "latest" version)].
Definition saveModule : list Action := [ModuleEditState.saveModule].
Definition deleteModule (name : string) : list Action := [ModuleEditState.deleteModule name].
Definition deleteModuleVersion (name version : string) : list Action :=
  [ModuleEditState.deleteModuleVersion name version].
Definition updateModuleInPolicies (name version : string) : list Action :=
  [ModuleEditState.updateModuleInPolicies name version].
Definition updateGeneralSection (info : val) : list Action :=
  [ModuleEditState.updateGeneralSection info].
Definition addConfigParam : list Action := [ModuleEditState.addConfigParam].
Definition removeConfigParam (name : string) : list Action :=
  [ModuleEditState.removeConfigParam name].
Definition removeAllConfigParams : list Action := [ModuleEditState.removeAllConfigParams].
Definition updateConfigSchema (schema : val) : list Action :=
  [ModuleEditState.updateConfigSchema schema].
Definition updateDefaultConfig (defaultConfig : val) : list Action :=
  [ModuleEditState.updateDefaultConfig defaultConfig].
Definition addSecureConfigParam : list Action := [ModuleEditState.addSecureConfigParam].
Definition removeSecureConfigParam (name : string) : list Action :=
  [ModuleEditState.removeSecureConfigParam name].
Definition removeAllSecureConfigParams : list Action :=
  [ModuleEditState.removeAllSecureConfigParams].
Definition updateSecureConfigSchema (schema : val) : list Action :=
  [ModuleEditState.updateSecureConfigSchema schema].
Definition updateSecureDefaultConfig (defaultConfig : val) : list Action :=
  [ModuleEditState.updateSecureDefaultConfig defaultConfig].
Definition addEvent : list Action := [ModuleEditState.addEvent].
Definition removeEvent (name : string) : list Action := [ModuleEditState.removeEvent name].
Definition removeAllEvents : list Action := [ModuleEditState.removeAllEvents].
Definition updateEventsSchema (schema : val) : list Action :=
  [ModuleEditState.updateEventsSchema schema].
Definition updateEventsDefaultConfig (defaultConfig : val) : list Action :=
  [ModuleEditState.updateEventsDefaultConfig defaultConfig].
Definition addEventKey (eventName : string) : list Action :=
  [ModuleEditState.addEventKey eventName].
Definition removeEventKey (eventName keyName : string) : list Action :=
  [ModuleEditState.removeEventKey eventName keyName].
Definition addAction : list Action := [ModuleEditState.addAction].
Definition removeAction (name : string) : list Action := [ModuleEditState.removeAction name].
Definition removeAllActions : list Action := [ModuleEditState.removeAllActions].
Definition updateActionsSchema (schema : val) : list Action :=
  [ModuleEditState.updateActionsSchema schema].
Definition updateActionsDefaultConfig (defaultConfig : val) : list Action :=
  [ModuleEditState.updateActionsDefaultConfig defaultConfig].
Definition addActionKey (actionName : string) : list Action :=
  [ModuleEditState.addActionKey actionName].
Definition removeActionKey (actionName keyName : string) : list Action :=
  [ModuleEditState.removeActionKey actionName keyName].
Definition addField : list Action := [ModuleEditState.addField].
Definition removeField (name : string) : list Action := [ModuleEditState.removeField name].
Definition removeAllFields : list Action := [ModuleEditState.removeAllFields].
Definition updateFieldsSchema (schema : val) : list Action :=
  [ModuleEditState.updateFieldsSchema schema].
Definition updateLocalizationModel (model : val) : list Action :=
  [ModuleEditState.updateLocalizationModel model].
Definition fetchFiles (name : string) (version : option string) : list Action :=
  [ModuleEditState.fetchFiles name (default "latest" version)].
Definition closeFiles (filePaths : list string) : list Action :=
  [ModuleEditState.closeFiles filePaths].
Definition changeAgentVersionDependency (version : string) : list Action :=
  [ModuleEditState.changeAgentVersion version].
Definition changeReceiveDataDependencies (dependencies : val) : list Action :=
  [ModuleEditState.changeReceiveDataDependencies dependencies].
Definition changeSendDataDependencies (dependencies : val) : list Action :=
  [ModuleEditState.changeSendDataDependencies dependencies].
Definition fetchAllModules : list Action := [ModuleEditState.fetchAllModules].
Definition fetchAgentVersions : list Action := [ModuleEditState.fetchAgentVersions].
Definition fetchModuleVersionsByName (moduleName : string) : list Action :=
  [ModuleEditState.fetchModuleVersionByName moduleName].
Definition deleteChangelogRecord (version : string) : list Action :=
  [ModuleEditState.deleteChangelogRecord version].
Definition updateChangelog (changelog : val) : list Action :=
  [ModuleEditState.updateChangelogSection changelog].
Definition setValidationState (section : ValidationSection) (status : bool) : list Action :=
  [ModuleEditState.setValidationState section status].
Definition resetOperationsError : list Action := [ModuleEditState.resetOperationErrors].
Definition resetFile : list Action := [ModuleEditState.resetFile].
Definition reset : list Action := [ModuleEditState.reset].

(** [restoreState]: nothing of the address is used. *)
Definition restoreState (params : obj string) : list Action := [ModuleEditState.restoreState].
