(* ===== verification/ModulePage.v ===== *)
(** * The page of a module in the editor

    [EditModulePageComponent] ([features/modules/src/lib/routes/edit-module-page]):
    what it shows of the store, how it asks the sections to validate their
    forms, and what it does before it saves.  A page holds the state of the
    store, which it dispatches to; the dialogs, the router and the forms of the
    sections are outside and answer in any order. *)

From stdpp Require Import list.
From S2P Require Import Prelude JsString JsValue JsJson SharedUtils Localization ModuleEditState.
From S2P Require Import ModuleEditConfig ModuleEditFields ModuleEditReducer ModuleEditSelectors.
From S2P Require Import ModuleEditInvariant ModuleEditSamples ModuleEditEffects.
From S2P Require ModuleEditFacade.

(** ** What the page shows *)

(** [versions.map((item) => new ModuleVersionPipe().transform(item.info.version))] *)
Definition availableVersions (versions : val) : res (list string) :=
  l ← as_array versions;
  mapM (λ item, v ← get_path item ["info"; "version"]; moduleVersion v) l.

Definition hasState (st : string) (module : val) : res bool :=
  s ← getq module "state"; Ok (is_str s st).

Definition canRelease (s : State) : res bool := hasState "draft" (module s).
Definition readOnly (s : State) : res bool := hasState "release" (module s).

(** Every version is released, the module among them. *)
Definition canCreateDraft (s : State) : res bool :=
  released ← hasState "release" (module s);
  if negb released then Ok false
  else
    l ← as_array (versions s);
    some ← someM (λ item, st ← get item "state"; Ok (negb (is_str st "release"))) l;
    Ok (negb some).

(** [filter(Boolean), map(...)]: nothing is shown before there is a module. *)
Definition ofModule (f : val → res bool) (s : State) : res (option bool) :=
  if truthy (module s) then b ← f (module s); Ok (Some b) else Ok None.

(** [Object.keys(v || {}).length === 0] *)
Definition noKeys (v : val) : res bool :=
  names ← Object_keys (js_or v (VObj [])); Ok (bool_decide (names = [])).

Definition noProperties (key : string) (m : val) : res bool :=
  schema ← get m key; p ← get schema "properties"; noKeys p.

Definition andM (a b : res bool) : res bool := x ← a; if (x : bool) then b else Ok false.

Definition isEmptyConfiguration : State → res (option bool) := ofModule (noProperties "config_schema").
Definition isEmptySecureConfiguration : State → res (option bool) :=
  ofModule (λ m, c ← get m "secure_default_config"; noKeys c).
Definition isEmptyEvents : State → res (option bool) :=
  ofModule (λ m, andM (noProperties "event_config_schema" m)
                      (c ← get m "default_event_config"; noKeys c)).
Definition isEmptyActions : State → res (option bool) :=
  ofModule (λ m, andM (noProperties "action_config_schema" m)
                      (c ← get m "default_action_config"; noKeys c)).
Definition isEmptyFields : State → res (option bool) := ofModule (noProperties "fields_schema").
Definition isEmptyDependencies : State → res (option bool) :=
  ofModule (λ m, d ← get m "static_dependencies";
                 n ← get (js_or d (VArr [])) "length";
                 Ok (strict_eq n (vint 0))).

(** ** The forms of the sections *)

Inductive FormStatus := VALID | INVALID | PENDING | DISABLED.

#[export] Instance FormStatus_eq_dec : EqDecision FormStatus.
Proof. solve_decision. Defined.

#[export] Instance ValidationSection_eq_dec : EqDecision ValidationSection.
Proof. solve_decision. Defined.

(** How a section validates: whether it waits while its form is pending,
    whether it also validates the form of the default values, and how many
    values make its result. *)
Record SectionForm := mkSectionForm {
  key : ValidationSection;
  skipsPending : bool;
  validatesDefault : bool;
  takes : nat
}.

Definition generalSection := mkSectionForm SGeneral false false 1.
Definition configSection := mkSectionForm SConfiguration false true 2.
Definition secureConfigSection := mkSectionForm SSecureConfiguration false true 2.
Definition eventsSection := mkSectionForm SEvents true true 2.
Definition actionsSection := mkSectionForm SActions true true 2.
Definition fieldsSection := mkSectionForm SFields false false 1.
Definition dependenciesSection := mkSectionForm SDependencies false false 1.
Definition localizationSection := mkSectionForm SLocalization false false 1.
Definition changelogSection := mkSectionForm SChangelog false false 1.

(** The sections [validateSections] asks, in its order. *)
Definition validated : list SectionForm :=
  [generalSection; configSection; secureConfigSection; eventsSection; actionsSection;
   fieldsSection; dependenciesSection; localizationSection; changelogSection].

(** ** The result of a validation *)

(** For every section, how many values are awaited and the conjunction of
    those that have come ([take(n), reduce((acc, value) => acc && value, true)]). *)
Record Awaited := mkAwaited { section : ValidationSection; missing : nat; sofar : bool }.
#[export] Instance Awaited_eta : Eta Awaited := ltac:(eta_of Awaited).

Definition awaited_of (f : SectionForm) : Awaited := mkAwaited (key f) (takes f) true.
Definition newRun : list Awaited := awaited_of <$> validated.

(** A value of a section; one that is not awaited is lost. *)
Definition takeValue (s : ValidationSection) (b : bool) (a : Awaited) : Awaited :=
  if decide (section a = s ∧ 0 < missing a)
  then { a with missing := pred (missing a); sofar := sofar a && b } else a.

Definition takeAll (s : ValidationSection) (b : bool) (run : list Awaited) : list Awaited :=
  takeValue s b <$> run.

(** [forkJoin] has all results. *)
Definition complete (run : list Awaited) : bool := forallb (λ a, Nat.eqb (missing a) 0) run.
Definition isOk (run : list Awaited) : bool := forallb sofar run.

(** The result of a section, when this value completes it. *)
Definition resultOf (s : ValidationSection) (before after : list Awaited) : option bool :=
  match List.find (λ a, bool_decide (section a = s)) before,
        List.find (λ a, bool_decide (section a = s)) after with
  | Some a, Some a' =>
      if Nat.eqb (missing a) 1 && Nat.eqb (missing a') 0 then Some (sofar a') else None
  | _, _ => None
  end.

(** ** The page *)

Inductive Modal :=
| RemoveUnusedFields (fields : list string)
| UnusedRequiredFields (fields : list string).

Record Page := mkPage {
  moduleName : string;
  queryVersion : option string;       (* [version] of the address *)
  queryTab : option string;           (* [tab] of the address *)
  store : State;
  tabIndex : nat;
  modal : option Modal;
  hasApi : ValidationSection → bool;  (* a form of default values is registered *)
  statusSubs : list SectionForm;      (* subscriptions to [statusChanges] *)
  defaultSubs : list ValidationSection; (* forms of default values being validated *)
  runs : list (list Awaited);
  sent : list Action;
  atList : bool                       (* the page was left for the list *)
}.
#[export] Instance Page_eta : Eta Page := ltac:(eta_of Page).

Definition dispatch (a : Action) (p : Page) : res Page :=
  s ← reducer (store p) a;
  Ok { p with store := s; sent ::= (λ l, l ++ [a]) }.

Definition dispatchAll (l : list Action) (p : Page) : res Page := foldM (λ p a, dispatch a p) p l.

Definition version (p : Page) : string :=
  match queryVersion p with Some v => if String.eqb v "" then "latest" else v | None => "latest" end.

Definition tabsMap : list string :=
  ["general"; "configuration"; "secure_configuration"; "events"; "actions"; "fields";
   "dependencies"; "localization"; "files"; "changelog"].

Definition FieldsTab : nat := 5. (* TabsIndexes.Fields *)

Definition restoreTabsState (p : Page) : Page :=
  { p with tabIndex := default 0 (t ← queryTab p; fst <$> list_find (λ x, x = t) tabsMap) }.

Definition loadModule (v : string) (p : Page) : res Page :=
  dispatchAll (ModuleEditFacade.fetchModule (moduleName p) (Some v)) p.

Definition ngOnInit (p : Page) : res Page := loadModule (version p) (restoreTabsState p).

(** [canLeavePage], after [isDirty$] emitted. *)
Definition canLeavePage (p : Page) : res bool := v ← selectIsDirty (store p); Ok (negb (truthy v)).

Definition onSelectTab (tabId : option string) (p : Page) : Page := { p with queryTab := tabId }.

Definition selectVersion (v : val) (p : Page) : res Page :=
  value ← moduleVersion v;
  loadModule value { p with queryVersion := Some value }.

Definition updateInPolicies (p : Page) : res Page :=
  dispatchAll (ModuleEditFacade.updateModuleInPolicies (moduleName p) (version p)) p.

Definition goToList (p : Page) : Page := { p with atList := true }.

Definition goLatestVersion (p : Page) : res Page :=
  l ← availableVersions (versions (store p));
  let otherVersions := List.filter (λ v, negb (String.eqb v (version p))) l in
  if bool_decide (otherVersions = []) then Ok (goToList p) else loadModule "latest" p.

(** ** Keys of translations in the schemas *)

Definition schemaSections : list (string * string) :=
  [("actions_additional_args", "action_config_schema"); ("config_additional_args", "config_schema");
   ("events_additional_args", "event_config_schema"); ("fields_additional_args", "fields_schema");
   ("secure_config_additional_args", "secure_config_schema")].

(** The text of [undefined] is [undefined], in which there is no key. *)
Definition schemaKeys (m : val) (schemaKey : string) : res (list string) :=
  schema ← get m schemaKey;
  Ok (match stringify schema with
      | Some text => localizationKeys SCHEMA_MARK text
      | None => []
      end).

(** The names are only read when there is a key to look up. *)
Definition sectionKeys (m : val) (section schemaKey : string) : res val :=
  keys ← schemaKeys m schemaKey;
  old ← get_path m ["locale"; section];
  names ← (if bool_decide (keys = []) then Ok [] else Object_keys old);
  Ok (sortedKeys (newKeys keys names) old).

Definition saveSchemaKeys (p : Page) (sk : string * string) : res Page :=
  keys ← sectionKeys (module (store p)) sk.1 sk.2;
  dispatchAll (ModuleEditFacade.updateLocalizationModel (obj_lit [(sk.1, keys)])) p.

Definition parseSchema (p : Page) : res Page := foldM saveSchemaKeys p schemaSections.

(** [parseSchema] inside the callback of [subscribe]: RxJS reports an exception
    of the callback and the page goes on, with what was dispatched before.
    [false]: an exception ended the callback. *)
Fixpoint parsing (l : list (string * string)) (p : Page) : res (Page * bool) :=
  match l with
  | [] => Ok (p, true)
  | sk :: l =>
      match sectionKeys (module (store p)) sk.1 sk.2 with
      | Ok keys =>
          p ← dispatchAll (ModuleEditFacade.updateLocalizationModel (obj_lit [(sk.1, keys)])) p;
          parsing l p
      | Throw (Error _) => Ok (p, false)
      | Throw Unsupported => Throw Unsupported
      end
  end.

(** ** Saving *)

(** [validateForms] of every section: the submit event subscribes to the
    status of the form and starts validating the form of default values. *)
Definition doSave (p : Page) : Page :=
  { p with
    statusSubs ::= (λ l, l ++ validated);
    defaultSubs ::= (λ l, l ++
      (key <$> List.filter (λ f, validatesDefault f && hasApi p (key f)) validated));
    runs ::= (λ l, l ++ [newRun]) }.

Definition save (p : Page) : res Page :=
  unusedFields ← selectUnusedFields (store p);
  unusedRequiredFields ← selectUnusedRequiredFields (store p);
  if negb (bool_decide (unusedFields = [])) then
    Ok { p with modal := Some (RemoveUnusedFields unusedFields) }
  else if negb (bool_decide (unusedRequiredFields = [])) then
    Ok { p with tabIndex := FieldsTab; modal := Some (UnusedRequiredFields unusedRequiredFields) }
  else Ok (doSave p).

(** The dialog about unused fields closes. *)
Definition afterClose (result : bool) (p : Page) : res Page :=
  match modal p with
  | Some (RemoveUnusedFields fields) =>
      let p := { p with modal := None } in
      if result then
        p ← dispatchAll (mjoin (ModuleEditFacade.removeField <$> fields)) p;
        Ok (doSave p)
      else Ok p
  | _ => Ok { p with modal := None }
  end.

(** A run that has all results is done; when they are good the module is
    saved. *)
Definition finish (run : list Awaited) (p : Page) : res Page :=
  if complete run then
    if isOk run then
      r ← parsing schemaSections p;
      if (r.2 : bool) then dispatchAll ModuleEditFacade.saveModule r.1 else Ok r.1
    else Ok p
  else Ok { p with runs ::= (λ l, l ++ [run]) }.

(** A value of a section reaches one run: the section's own subscription
    first, then [forkJoin]. *)
Definition deliverTo (s : ValidationSection) (b : bool) (p : Page) (run : list Awaited) : res Page :=
  let run' := takeAll s b run in
  p ← (match resultOf s run run' with
       | Some r => dispatchAll (ModuleEditFacade.setValidationState s r) p
       | None => Ok p
       end);
  finish run' p.

(** [validationState$.next(b)] of a section: every run gets the value, in the
    order of their subscriptions. *)
Definition deliver (s : ValidationSection) (b : bool) (p : Page) : res Page :=
  foldM (deliverTo s b) { p with runs := [] } (runs p).

(** The status of the form of a section changes: the subscriptions take it,
    those that skip [PENDING] wait for another one. *)
Definition fires (s : ValidationSection) (st : FormStatus) (f : SectionForm) : bool :=
  bool_decide (key f = s) && negb (skipsPending f && bool_decide (st = PENDING)).

Definition formStatus (s : ValidationSection) (st : FormStatus) (p : Page) : res Page :=
  let fired := List.filter (fires s st) (statusSubs p) in
  foldM (λ p _, deliver s (bool_decide (st = VALID)) p)
    { p with statusSubs ::= List.filter (λ f, negb (fires s st f)) } fired.

(** The validation of a form of default values is done. *)
Definition defaultValidated (s : ValidationSection) (result : bool) (p : Page) : res Page :=
  match list_find (λ x, x = s) (defaultSubs p) with
  | None => Ok p
  | Some (i, _) => deliver s result { p with defaultSubs ::= base.delete i }
  end.

(** ** Sessions *)

Inductive Event :=
| Save
| AfterClose (result : bool)
| Status (s : ValidationSection) (st : FormStatus)
| DefaultValidated (s : ValidationSection) (result : bool)
| Elsewhere (a : Action). (* another component or an effect dispatches *)

Definition step (p : Page) (e : Event) : res Page :=
  match e with
  | Save => save p
  | AfterClose result => afterClose result p
  | Status s st => formStatus s st p
  | DefaultValidated s result => defaultValidated s result p
  | Elsewhere a => s ← reducer (store p) a; Ok { p with store := s }
  end.

Definition play (p : Page) (l : list Event) : res Page := foldM step p l.

(** ** Facts *)

Lemma dispatchAll_frame l p p' :
  dispatchAll l p = Ok p' →
  sent p' = sent p ++ l ∧ runs p' = runs p ∧ run (store p) l = Ok (store p').
Proof.
  unfold dispatchAll, run. revert p. induction l as [|a l IH]; intros p H; cbn [foldM] in *.
  - injection H as <-. by rewrite app_nil_r.
  - apply bind_Ok_inv in H as (p1 & Hp & H). unfold dispatch in Hp.
    apply bind_Ok_inv in Hp as (s & Hs & [= <-]). apply IH in H as (H1 & H2 & H3).
    rewrite Hs. cbn [mbind res_bind]. destruct p; cbn in *. rewrite H1, <-app_assoc. done.
Qed.

Lemma parsing_frame l p r :
  parsing l p = Ok r → ∃ k, sent r.1 = sent p ++ k ∧ saveModule ∉ k ∧ runs r.1 = runs p.
Proof.
  revert p. induction l as [|sk l IH]; intros p H; cbn [parsing] in H.
  - injection H as <-. exists []. rewrite app_nil_r. split; [done|]. split; [apply not_elem_of_nil|done].
  - destruct (sectionKeys _ _ _) as [keys|[]]; [| |done].
    + apply bind_Ok_inv in H as (q & Hq & H). apply dispatchAll_frame in Hq as (Hs & Hr & _).
      apply IH in H as (k & Hk & Hn & Hr'). exists ([updateLocalizationModel (obj_lit [(sk.1, keys)])] ++ k).
      rewrite Hk, Hs, <-app_assoc, Hr', Hr. split; [done|]. split; [|done].
      by intros [[=]%list_elem_of_singleton|?]%elem_of_app.
    + injection H as <-. exists []. rewrite app_nil_r. split; [done|]. split; [apply not_elem_of_nil|done].
Qed.

(** The callback runs to its end exactly when [parseSchema] does not throw. *)
Lemma parsing_foldM l p p' : parsing l p = Ok (p', true) ↔ foldM saveSchemaKeys p l = Ok p'.
Proof.
  revert p. induction l as [|sk l IH]; intros p; cbn [parsing foldM].
  - split; by intros [= ->].
  - assert (saveSchemaKeys p sk = (keys ← sectionKeys (module (store p)) sk.1 sk.2;
      dispatchAll (ModuleEditFacade.updateLocalizationModel (obj_lit [(sk.1, keys)])) p)) as -> by done.
    destruct (sectionKeys _ _ _) as [keys|[]]; cbn [mbind res_bind]; [|by split..].
    destruct (dispatchAll _ p); cbn [mbind res_bind]; [apply IH|by split].
Qed.

(** ** The values of a validation *)

(** The values a section has sent. *)
Definition valuesOf (s : ValidationSection) (vs : list (ValidationSection * bool)) : list bool :=
  (List.filter (λ v, bool_decide (v.1 = s)) vs).*2.

Definition runAfter (run : list Awaited) (vs : list (ValidationSection * bool)) : list Awaited :=
  foldl (λ r v, takeAll v.1 v.2 r) run vs.

Lemma takeValue_values a vs :
  foldl (λ a v, takeValue v.1 v.2 a) a vs =
    let l := valuesOf (section a) vs in
    mkAwaited (section a) (missing a - length l) (sofar a && forallb id (firstn (missing a) l)).
Proof.
  revert a. induction vs as [|[s b] vs IH]; intros a; cbn [foldl].
  { destruct a as [s n b]. cbn. by rewrite Nat.sub_0_r, firstn_nil, andb_true_r. }
  rewrite IH. unfold takeValue. cbn [fst snd]. unfold valuesOf. cbn [List.filter fst].
  destruct a as [s' n c]; cbn [section missing sofar].
  destruct (decide (s' = s)) as [->|Hne].
  - rewrite (bool_decide_true (s = s)) by done. cbn [fmap list_fmap length snd].
    destruct n as [|n]; [by rewrite decide_False by (intros [_ ?]; lia)|].
    rewrite decide_True by (split; [done|lia]). cbn. by rewrite andb_assoc.
  - rewrite bool_decide_false by (by intros ->). by rewrite decide_False by (by intros [? _]).
Qed.

Lemma runAfter_values run vs :
  runAfter run vs = (λ a, foldl (λ a v, takeValue v.1 v.2 a) a vs) <$> run.
Proof.
  unfold runAfter, takeAll. revert run. induction vs as [|v vs IH]; intros run; cbn [foldl].
  - by rewrite list_fmap_id.
  - rewrite IH, <-list_fmap_compose. done.
Qed.

Definition enough (vs : list (ValidationSection * bool)) : Prop :=
  ∀ f, f ∈ validated → takes f ≤ length (valuesOf (key f) vs).
Definition valid (vs : list (ValidationSection * bool)) : Prop :=
  ∀ f b, f ∈ validated → b ∈ firstn (takes f) (valuesOf (key f) vs) → b = true.

Lemma newRun_complete vs : complete (runAfter newRun vs) = true ↔ enough vs.
Proof.
  unfold complete, enough, newRun. rewrite runAfter_values, <-list_fmap_compose, forallb_forall.
  setoid_rewrite <-list_elem_of_In. setoid_rewrite list_elem_of_fmap. split.
  - intros H f Hf. specialize (H _ (ex_intro _ f (conj eq_refl Hf))). cbn [compose] in H.
    rewrite takeValue_values in H. apply Nat.eqb_eq in H. cbn in H. lia.
  - intros H a (f & -> & Hf). specialize (H f Hf). cbn [compose]. rewrite takeValue_values.
    apply Nat.eqb_eq. cbn. lia.
Qed.

Lemma newRun_ok vs : isOk (runAfter newRun vs) = true ↔ valid vs.
Proof.
  unfold isOk, valid, newRun. rewrite runAfter_values, <-list_fmap_compose, forallb_forall.
  setoid_rewrite <-list_elem_of_In. setoid_rewrite list_elem_of_fmap. split.
  - intros H f b Hf Hb. specialize (H _ (ex_intro _ f (conj eq_refl Hf))). cbn [compose] in H.
    rewrite takeValue_values in H. cbn in H. rewrite forallb_forall in H. by apply (H b), list_elem_of_In.
  - intros H a (f & -> & Hf). cbn [compose]. rewrite takeValue_values. cbn. apply forallb_forall.
    intros b Hb%list_elem_of_In. by apply (H f).
Qed.

Lemma runAfter_done run s b : complete run = true → takeAll s b run = run.
Proof.
  unfold complete, takeAll. rewrite forallb_forall. intros H.
  rewrite <-(list_fmap_id run) at 2. apply list_fmap_ext. intros i a Ha. unfold takeValue.
  rewrite decide_False; [done|]. intros [_ Hm].
  assert (In a run) as Hin by (apply list_elem_of_In; by eapply list_elem_of_lookup_2).
  apply H, Nat.eqb_eq in Hin. lia.
Qed.

(** ** The keys of the schemas are registered *)

Definition marksOf (schema : val) : list string :=
  match stringify schema with Some text => keys_in SCHEMA_MARK text | None => [] end.

Definition translations (m : val) (section : string) (ui : obj val) : Prop :=
  m @@ ["locale"; section] = VObj ui ∧ obj_wf ui.

Lemma sectionKeys_eq m section schemaKey ui :
  is_obj m → is_obj (prop m "locale") → translations m section ui →
  ∃ ui', sectionKeys m section schemaKey = Ok (VObj ui') ∧ registers (marksOf (prop m schemaKey)) ui ui'.
Proof.
  intros Hm Hl [Hui Hwf]. unfold sectionKeys, schemaKeys. rewrite get_is_obj by done. cbn [mbind res_bind].
  cbn [get_path]. rewrite (get_is_obj m) by done. cbn [mbind res_bind].
  rewrite get_is_obj by done. cbn [mbind res_bind]. change (prop (prop m "locale") section) with (m @@ ["locale"; section]).
  rewrite Hui. set (keys := match stringify (prop m schemaKey) with Some text => _ | None => _ end).
  assert (∀ k, k ∈ keys ↔ k ∈ marksOf (prop m schemaKey)) as Hk.
  { intros k. unfold keys, marksOf. destruct (stringify _); [apply localizationKeys_elem|done]. }
  assert ((if bool_decide (keys = []) then Ok [] else Object_keys (VObj ui))
          = Ok (if bool_decide (keys = []) then [] else obj_keys ui)) as -> by (by case_bool_decide).
  cbn [mbind res_bind].
  assert (newKeys keys (if bool_decide (keys = []) then [] else obj_keys ui) = newKeys keys (obj_keys ui))
    as -> by (case_bool_decide as He; [by rewrite He|done]).
  destruct (sortedKeys_registers keys ui Hwf) as (ui' & -> & H1 & H2 & H3).
  exists ui'. split; [done|]. split; [done|]. split.
  - intros k Hin%Hk. by apply H2.
  - intros k. by rewrite H3, Hk.
Qed.

Lemma registerKeys_eq p section keys :
  is_obj (module (store p)) → is_obj (prop (module (store p)) "locale") →
  ∃ p', dispatchAll (ModuleEditFacade.updateLocalizationModel (obj_lit [(section, keys)])) p = Ok p' ∧
    module (store p') = put (module (store p)) "locale"
                          (put (prop (module (store p)) "locale") section keys).
Proof.
  intros Hm Hl. unfold ModuleEditFacade.updateLocalizationModel, dispatchAll. cbn [foldM].
  unfold dispatch, reducer.
  cbn [on_loading on_operations on_sections on_files mbind res_bind on_dependencyData on_state].
  unfold on_updateLocalizationModel. rewrite get_is_obj by done. cbn [mbind res_bind].
  eexists _. split; [done|]. destruct p as [? ? ? s]. cbn [store] in *.
  transitivity (module (patchSection s SLocalization
    [("locale", spread2 (prop (module s) "locale") (obj_lit [(section, keys)]))])); [done|].
  rewrite module_patchSection. destruct Hm as [o Ho]. rewrite Ho in Hl |- *. destruct Hl as [l Hl].
  unfold spread, put. cbn [own_props obj_assign foldl]. rewrite Hl. done.
Qed.

(** One section: its translations get the keys, nothing else changes. *)
Lemma saveSchemaKeys_eq p section schemaKey ui :
  is_obj (module (store p)) → is_obj (prop (module (store p)) "locale") →
  translations (module (store p)) section ui →
  ∃ p' ui', saveSchemaKeys p (section, schemaKey) = Ok p' ∧
    registers (marksOf (prop (module (store p)) schemaKey)) ui ui' ∧
    module (store p') = put (module (store p)) "locale"
                          (put (prop (module (store p)) "locale") section (VObj ui')).
Proof.
  intros Hm Hl Hui. destruct (sectionKeys_eq _ _ schemaKey ui Hm Hl Hui) as (ui' & Hk & Hreg).
  destruct (registerKeys_eq p section (VObj ui') Hm Hl) as (p' & Hp' & Hm').
  exists p', ui'. split; [|done]. unfold saveSchemaKeys. cbn [fst snd]. rewrite Hk. exact Hp'.
Qed.

Lemma registered_frame m section v :
  is_obj m → is_obj (prop m "locale") →
  let m' := put m "locale" (put (prop m "locale") section v) in
  is_obj m' ∧ is_obj (prop m' "locale") ∧ m' @@ ["locale"; section] = v ∧
  (∀ k, k ≠ "locale" → prop m' k = prop m k) ∧
  ∀ k, k ≠ section → m' @@ ["locale"; k] = m @@ ["locale"; k].
Proof.
  intros Hm Hl m'. assert (prop m' "locale" = put (prop m "locale") section v) as Hl'
    by (unfold m'; rewrite prop_put by done; by rewrite decide_True).
  split; [by apply put_is_obj|]. rewrite Hl'. split; [by apply put_is_obj|].
  cbn [at_path]. rewrite Hl'. split; [rewrite prop_put by done; by rewrite decide_True|]. split.
  - intros k Hk. unfold m'. rewrite prop_put by done. by rewrite decide_False.
  - intros k Hk. rewrite prop_put by done. by rewrite decide_False.
Qed.

Lemma schema_loop l p :
  NoDup l.*1 → "locale" ∉ l.*2 → is_obj (module (store p)) → is_obj (prop (module (store p)) "locale") →
  (∀ section, section ∈ l.*1 → ∃ ui, translations (module (store p)) section ui) →
  ∃ p', foldM saveSchemaKeys p l = Ok p' ∧
    (∀ k, k ≠ "locale" → prop (module (store p')) k = prop (module (store p)) k) ∧
    (∀ k, k ∉ l.*1 → module (store p') @@ ["locale"; k] = module (store p) @@ ["locale"; k]) ∧
    ∀ section schemaKey ui, (section, schemaKey) ∈ l → translations (module (store p)) section ui →
      ∃ ui', module (store p') @@ ["locale"; section] = VObj ui' ∧
        registers (marksOf (prop (module (store p)) schemaKey)) ui ui'.
Proof.
  revert p. induction l as [|[section schemaKey] l IH]; intros p Hnd Hloc Hm Hl Ht.
  { exists p. split; [done|]. split; [done|]. split; [done|]. by intros ??? ?%elem_of_nil. }
  apply NoDup_cons in Hnd as [Hns Hnd]. cbn [fmap list_fmap fst snd] in Hloc, Ht, Hns, Hnd.
  apply not_elem_of_cons in Hloc as [Hsk Hloc].
  destruct (Ht section) as (ui & Hui); [apply list_elem_of_here|].
  destruct (saveSchemaKeys_eq p section schemaKey ui Hm Hl Hui) as (p1 & ui' & Hp1 & Hreg & Hm1).
  destruct (registered_frame _ section (VObj ui') Hm Hl) as (Hm' & Hl' & Hsec & Hkeep & Hother).
  rewrite <-Hm1 in Hm', Hl', Hsec, Hkeep, Hother.
  destruct (IH p1) as (p' & Hp' & Hk' & Ho' & Hr'); [done|done|done|done| |].
  { intros s Hs. destruct (Ht s) as (u & Hu & Hw); [by apply list_elem_of_further|].
    exists u. split; [|done]. by rewrite Hother by (by intros ->). }
  exists p'. cbn [foldM]. rewrite Hp1. cbn [mbind res_bind]. split; [done|]. split; [|split].
  - intros k Hk. by rewrite Hk', Hkeep.
  - intros k [Hk1 Hk2]%not_elem_of_cons. by rewrite Ho', Hother.
  - intros s k u [[= -> ->]|Hin]%elem_of_cons [Hu Hw].
    + exists ui'. rewrite Ho' by done. split; [done|]. destruct Hui as [Hui _].
      rewrite Hui in Hu. by injection Hu as <-.
    + assert (s ∈ l.*1) as Hs1 by (apply list_elem_of_fmap; by exists (s, k)).
      assert (k ≠ "locale") as Hkl.
      { intros ->. apply Hloc, list_elem_of_fmap. by exists (s, "locale"). }
      destruct (Hr' s k u Hin) as (u' & Hu' & Hreg').
      { split; [|done]. by rewrite Hother by (by intros ->). }
      exists u'. split; [done|]. by rewrite <-Hkeep.
Qed.

(** C14: before the module is saved, every key of translations in one of its
    five schemas is registered with the translations of that section: a key
    without a translation gets empty texts, the translations that exist stay
    (up to the order of their members), no other key appears, and nothing else
    in the module changes. *)
Theorem schema_keys_registered p :
  is_obj (module (store p)) → is_obj (prop (module (store p)) "locale") →
  (∀ section, section ∈ schemaSections.*1 → ∃ ui, translations (module (store p)) section ui) →
  ∃ p', parseSchema p = Ok p' ∧
    (∀ k, k ≠ "locale" → prop (module (store p')) k = prop (module (store p)) k) ∧
    (∀ k, k ∉ schemaSections.*1 →
      module (store p') @@ ["locale"; k] = module (store p) @@ ["locale"; k]) ∧
    ∀ section schemaKey ui, (section, schemaKey) ∈ schemaSections →
      translations (module (store p)) section ui →
      ∃ ui', module (store p') @@ ["locale"; section] = VObj ui' ∧
        registers (marksOf (prop (module (store p)) schemaKey)) ui ui'.
Proof.
  intros Hm Hl Ht. apply schema_loop; [|..|done|done|done];
    apply (bool_decide_unpack _); by vm_compute.
Qed.

(** ** Saving asks every section *)

(** The keys of every schema can be registered: [sectionKeys] does not throw. *)
Definition registrable (m : val) : Prop :=
  ∀ sk, sk ∈ schemaSections → is_ok (sectionKeys m sk.1 sk.2) = true.

Lemma sectionKeys_same m m' section schemaKey :
  is_obj m → is_obj m' → is_obj (prop m "locale") → is_obj (prop m' "locale") →
  prop m' schemaKey = prop m schemaKey →
  m' @@ ["locale"; section] = m @@ ["locale"; section] →
  sectionKeys m' section schemaKey = sectionKeys m section schemaKey.
Proof.
  intros Hm Hm' Hl Hl' Hs Hui. unfold sectionKeys, schemaKeys. rewrite !get_is_obj by done.
  cbn [mbind res_bind get_path]. rewrite !get_is_obj by done. cbn [mbind res_bind].
  rewrite !get_is_obj by done. cbn [mbind res_bind]. rewrite Hs. cbn [at_path] in Hui. by rewrite Hui.
Qed.

(** The keys of the sections are read from the module as it is at first. *)
Lemma parsing_ok l p p' b :
  NoDup l.*1 → "locale" ∉ l.*2 → is_obj (module (store p)) → is_obj (prop (module (store p)) "locale") →
  parsing l p = Ok (p', b) →
  b = true ↔ ∀ sk, sk ∈ l → is_ok (sectionKeys (module (store p)) sk.1 sk.2) = true.
Proof.
  revert p. induction l as [|[section schemaKey] l IH]; intros p Hnd Hloc Hm Hl H; cbn [parsing] in H.
  { injection H as _ <-. split; [|done]. by intros _ ? ?%elem_of_nil. }
  apply NoDup_cons in Hnd as [Hns Hnd]. apply not_elem_of_cons in Hloc as [Hsk Hloc]. cbn [fst snd] in *.
  destruct (sectionKeys _ _ _) as [keys|[]] eqn:Hkeys; [| |done].
  - apply bind_Ok_inv in H as (p1 & Hp1 & H).
    destruct (registerKeys_eq p section keys Hm Hl) as (q & Hq & Hm1).
    rewrite Hq in Hp1. injection Hp1 as <-.
    destruct (registered_frame _ section keys Hm Hl) as (Hm' & Hl' & _ & Hkeep & Hother).
    rewrite <-Hm1 in Hm', Hl', Hkeep, Hother.
    rewrite (IH q Hnd Hloc Hm' Hl' H).
    assert (∀ sk, sk ∈ l → sectionKeys (module (store q)) sk.1 sk.2 = sectionKeys (module (store p)) sk.1 sk.2)
      as Hsame.
    { intros sk Hin. apply sectionKeys_same; [done..| |].
      - apply Hkeep. intros He. apply Hloc. rewrite <-He. by apply (list_elem_of_fmap_2 snd).
      - apply Hother. intros He. apply Hns. rewrite <-He. by apply (list_elem_of_fmap_2 fst). }
    split.
    + intros Hall sk [->|Hin]%elem_of_cons; [cbn [fst snd]; by rewrite Hkeys|].
      rewrite <-Hsame by done. by apply Hall.
    + intros Hall sk Hin. rewrite Hsame by done. apply Hall. by apply elem_of_cons; right.
  - injection H as _ <-. split; [done|]. intros Hall.
    specialize (Hall (section, schemaKey) ltac:(apply list_elem_of_here)). cbn [fst snd] in Hall.
    by rewrite Hkeys in Hall.
Qed.

(** The page with one validation of the module [m] under way, or after it. *)
Definition validating (m : val) (run : list Awaited) (n : list Action) (p : Page) : Prop :=
  if complete run then
    runs p = [] ∧ (saveModule ∈ sent p ↔ saveModule ∈ n ∨ (isOk run = true ∧ registrable m))
  else runs p = [run] ∧ module (store p) = m ∧ (saveModule ∈ sent p ↔ saveModule ∈ n).

(** What a section shows of its result does not touch the module. *)
Lemma setValidationState_module s r p p' :
  dispatchAll (ModuleEditFacade.setValidationState s r) p = Ok p' →
  module (store p') = module (store p).
Proof. intros (_ & _ & H)%dispatchAll_frame. cbn in H. by injection H as <-. Qed.

Lemma deliver_validating m run n s b p p' :
  is_obj m → is_obj (prop m "locale") →
  validating m run n p → deliver s b p = Ok p' → validating m (takeAll s b run) n p'.
Proof.
  unfold validating, deliver. intros Hm Hl. destruct (complete run) eqn:Hc.
  - rewrite runAfter_done, Hc by done. intros [-> Hs] H. cbn [foldM] in H. injection H as <-.
    destruct p; cbn in *. done.
  - intros (-> & Hmod & Hs) H. cbn [foldM] in H. apply bind_Ok_inv in H as (q & H & [= <-]).
    unfold deliverTo in H. apply bind_Ok_inv in H as (p1 & H1 & H).
    assert (runs p1 = [] ∧ module (store p1) = m ∧ (saveModule ∈ sent p1 ↔ saveModule ∈ n))
      as (Hr1 & Hm1 & Hs1).
    { destruct (resultOf s run (takeAll s b run)).
      - pose proof (setValidationState_module _ _ _ _ H1) as Hm1.
        apply dispatchAll_frame in H1 as (Hs1 & Hr1 & _). rewrite Hr1, Hs1, Hm1. destruct p; cbn in *.
        split; [done|]. split; [done|]. rewrite elem_of_app, Hs.
        unfold ModuleEditFacade.setValidationState.
        rewrite list_elem_of_singleton. split; [|tauto]. by intros [|[=]].
      - injection H1 as <-. destruct p; cbn in *. done. }
    unfold finish in H. destruct (complete (takeAll s b run)).
    + destruct (isOk (takeAll s b run)).
      * apply bind_Ok_inv in H as ([p2 ok] & Hp & H). cbn [fst snd] in H.
        pose proof (parsing_frame _ _ _ Hp) as (l & Hsl & Hnl & Hr2). cbn [fst] in Hsl, Hr2.
        apply parsing_ok in Hp; [|try (apply (bool_decide_unpack _); by vm_compute); by rewrite Hm1..].
        rewrite Hm1 in Hp. fold (registrable m) in Hp. destruct ok.
        -- apply dispatchAll_frame in H as (-> & -> & _). rewrite Hr2. split; [done|].
           rewrite elem_of_app. split; [intros _; right; tauto|]. intros _. right. apply list_elem_of_here.
        -- injection H as <-. rewrite Hr2, Hsl, elem_of_app, Hs1. split; [done|]. naive_solver.
      * injection H as <-. split; [done|]. rewrite Hs1. split; [by left|]. by intros [|[]].
    + injection H as <-. destruct p1; cbn in *. by rewrite Hr1.
Qed.

(** C11: once the user has asked for it, a module with an object for its
    translations is saved exactly when every section has sent the values its
    result is made of — the status of its form and, for configuration, secure
    configuration, events and actions, the result for the default values —,
    all of them are good, and the keys of all five schemas can be registered
    with the translations (a section whose schema has a key but that has no
    translations throws: the exception ends the callback, nothing is saved).
    Values beyond those play no part. *)
Theorem saved_iff_sections_valid p vs p' :
  is_obj (module (store p)) → is_obj (prop (module (store p)) "locale") →
  runs p = [] → saveModule ∉ sent p →
  foldM (λ p v, deliver v.1 v.2 p) (doSave p) vs = Ok p' →
  saveModule ∈ sent p' ↔ enough vs ∧ valid vs ∧ registrable (module (store p)).
Proof.
  intros Hm Hl Hr Hn H. rewrite <-newRun_complete, <-newRun_ok.
  assert (validating (module (store p)) (runAfter newRun vs) (sent p) p') as Hv.
  { assert (validating (module (store p)) newRun (sent p) (doSave p)) as H0
      by (unfold validating, doSave; destruct p; cbn in *; by rewrite Hr).
    revert H H0. generalize (doSave p) newRun. clear Hr. induction vs as [|v vs IH]; intros q r H Hq.
    - cbn in H. injection H as <-. done.
    - cbn [foldM] in H. apply bind_Ok_inv in H as (q' & Hq' & H).
      change (runAfter r (v :: vs)) with (runAfter (takeAll v.1 v.2 r) vs).
      apply (IH q'); [done|]. by eapply deliver_validating. }
  unfold validating in Hv. destruct (complete _); [destruct Hv as [_ Hv]|destruct Hv as (_ & _ & Hv)];
    rewrite Hv; naive_solver.
Qed.

(** ** Unused fields *)

Lemma filter_out_strings name l ks :
  to_strings (VArr l) = Ok ks →
  to_strings (VArr (List.filter (λ x, negb (is_str x name)) l)) =
    Ok (List.filter (λ k, negb (String.eqb k name)) ks).
Proof.
  unfold to_strings. cbn [iter mbind res_bind]. revert ks. induction l as [|x l IH]; intros ks H.
  - by injection H as <-.
  - cbn [mapM] in H. destruct x as [| | | |s| |]; try done. cbn [mbind res_bind] in H.
    apply bind_Ok_inv in H as (ks' & Hks & [= <-]). specialize (IH _ Hks).
    cbn [List.filter is_str].
    destruct (String.eqb s name) eqn:He; cbn [negb].
    + by rewrite IH.
    + cbn [mapM mbind res_bind]. by rewrite IH.
Qed.

Lemma removeField_reducer s name s' :
  is_obj (module s) → is_obj (prop (module s) "info") →
  reducer s (ModuleEditState.removeField name) = Ok s' →
  is_obj (module s') ∧ is_obj (prop (module s') "info") ∧
  (∀ k, k ∉ ["info"; "fields_schema"; "locale"] → prop (module s') k = prop (module s) k) ∧
  ∃ l, module s @@ ["info"; "fields"] = VArr l ∧
    module s' @@ ["info"; "fields"] = VArr (List.filter (λ x, negb (is_str x name)) l).
Proof.
  intros Hm Hi H. unfold reducer in H.
  cbn [on_loading on_operations on_sections on_files mbind res_bind on_dependencyData on_state] in H.
  apply bind_Ok_inv in H as (s1 & H & [= <-]). unfold on_removeField in H.
  rewrite !(get_is_obj (module s)) in H by done. cbn [mbind res_bind] in H.
  apply bind_Ok_inv in H as (ps & _ & H). apply bind_Ok_inv in H as (ps' & _ & H).
  apply bind_Ok_inv in H as (fl & _ & H). apply bind_Ok_inv in H as (fields & Hf & H).
  injection H as <-. rewrite get_is_obj in Hf by done. cbn [mbind res_bind] in Hf.
  unfold filter_out in Hf. apply bind_Ok_inv in Hf as (l & Hl & [= <-]).
  rewrite module_patchModule.
  split; [by eexists|]. cbn [at_path]. rewrite !prop_spread_obj by done.
  split; [by eexists|]. split.
  - intros k Hk. rewrite !not_elem_of_cons in Hk. destruct Hk as (H1 & H2 & H3 & _).
    rewrite prop_spread_obj by done. cbn.
    apply String.eqb_neq in H1, H2, H3. by rewrite H1, H2, H3.
  - exists l. split; [by destruct (prop (prop (module s) "info") "fields"); simplify_eq/=|].
    cbn -[spread prop]. by rewrite prop_spread_obj.
Qed.

Lemma usedFields_module s s' k :
  (∀ k, k ∉ ["info"; "fields_schema"; "locale"] → prop (module s') k = prop (module s) k) →
  is_obj (module s) → is_obj (module s') → k ∉ ["info"; "fields_schema"; "locale"] →
  getq (module s') k = getq (module s) k.
Proof.
  intros Hk [o Ho] [o' Ho'] Hin. specialize (Hk k Hin). rewrite Ho, Ho' in Hk |- *.
  unfold getq. cbn [is_nullish get prop] in *. by rewrite Hk.
Qed.

(** What removing fields one after the other leaves. *)
Lemma removeFields_run s0 names s1 fields :
  is_obj (module s0) → is_obj (prop (module s0) "info") →
  to_strings (module s0 @@ ["info"; "fields"]) = Ok fields →
  run s0 (ModuleEditState.removeField <$> names) = Ok s1 →
  is_obj (module s1) ∧ is_obj (prop (module s1) "info") ∧
  (∀ k, k ∉ ["info"; "fields_schema"; "locale"] → prop (module s1) k = prop (module s0) k) ∧
  to_strings (module s1 @@ ["info"; "fields"]) =
    Ok (List.filter (λ f, negb (includes f names)) fields).
Proof.
  revert s0 fields. induction names as [|n names IH]; intros s0 fields Hm Hi Hf H.
  - injection H as <-. split; [done|]. split; [done|]. split; [done|]. rewrite Hf. f_equal.
    clear. induction fields as [|f fields IH]; [done|]. cbn. by rewrite <-IH.
  - unfold run in H. cbn [fmap list_fmap foldM] in H. apply bind_Ok_inv in H as (s2 & Hs2 & H).
    destruct (removeField_reducer s0 n s2 Hm Hi Hs2) as (Hm2 & Hi2 & Hk2 & l & Hl & Hl2).
    rewrite Hl in Hf. apply (filter_out_strings n) in Hf. rewrite <-Hl2 in Hf.
    destruct (IH s2 _ Hm2 Hi2 Hf H) as (Hm1 & Hi1 & Hk1 & Hf1).
    split; [done|]. split; [done|]. split; [intros k Hk; by rewrite Hk1, Hk2|].
    rewrite Hf1. f_equal. clear. induction fields as [|f fields IH]; [done|]. cbn.
    unfold includes in *. rewrite (bool_decide_ext (f ∈ n :: names) (f = n ∨ f ∈ names)) by apply elem_of_cons.
    destruct (String.eqb_spec f n) as [->|Hne]; cbn.
    + by rewrite (bool_decide_true (n = n ∨ _)) by (by left).
    + rewrite (bool_decide_ext (f = n ∨ f ∈ names) (f ∈ names)) by naive_solver.
      case_bool_decide; cbn; [done|]. by f_equal.
Qed.

Lemma filter_unused (p : string → bool) fields :
  List.filter p (List.filter (λ f, negb (includes f (List.filter p fields))) fields) = [].
Proof.
  set (q := λ f, negb (includes f (List.filter p fields))).
  assert (∀ l, (∀ f, f ∈ l → f ∈ fields) → List.filter p (List.filter q l) = []) as Hq; [|by apply Hq].
  induction l as [|f l IH]; intros Hl; [done|]. cbn [List.filter].
  assert (q f = true → p f = false) as Hqp.
  { unfold q. rewrite negb_true_iff, includes_false, elem_of_List_filter. intros Hno.
    destruct (p f) eqn:Hp; [|done]. destruct Hno. split; [apply Hl, list_elem_of_here|done]. }
  destruct (q f); [|apply IH; intros ??; by apply Hl, list_elem_of_further].
  cbn [List.filter]. rewrite Hqp by done. apply IH. intros ??. by apply Hl, list_elem_of_further.
Qed.

(** when the user confirms that the unused fields are removed, exactly
    they are removed: the list of fields keeps the used ones in their order, and
    no unused field is left. *)
Theorem confirmed_removal_leaves_used s s' unused :
  is_obj (module s) → is_obj (prop (module s) "info") → selectUnusedFields s = Ok unused →
  run s (ModuleEditState.removeField <$> unused) = Ok s' →
  selectUnusedFields s' = Ok [] ∧
  ∀ fields, to_strings (module s @@ ["info"; "fields"]) = Ok fields →
    to_strings (module s' @@ ["info"; "fields"]) =
      Ok (List.filter (λ f, negb (includes f unused)) fields).
Proof.
  intros Hm Hi Hu H.
  unfold selectUnusedFields in Hu |- *.
  apply bind_Ok_inv in Hu as (af & Haf & Hu). apply bind_Ok_inv in Hu as (ef & Hef & Hu).
  assert (is_nullish (module s) = false) as Hn by (by destruct Hm as [o ->]).
  rewrite Hn in Hu. apply bind_Ok_inv in Hu as (fields & Hf & [= <-]).
  assert (to_strings (module s @@ ["info"; "fields"]) = Ok fields) as Hfs.
  { cbn [get_path] in Hf. rewrite get_is_obj in Hf by done. cbn [mbind res_bind] in Hf.
    by rewrite get_is_obj in Hf by done. }
  destruct (removeFields_run _ _ _ _ Hm Hi Hfs H) as (Hm' & Hi' & Hk & Hf').
  split; [|intros fields' Hf2; rewrite Hfs in Hf2; by injection Hf2 as <-].
  rewrite !(usedFields_module s s') by (done || (intros Hin; repeat apply elem_of_cons in Hin as [[=]|Hin]; by apply elem_of_nil in Hin)).
  rewrite Haf, Hef. cbn [mbind res_bind]. assert (is_nullish (module s') = false) as -> by (by destruct Hm' as [o' ->]).
  cbn [get_path]. rewrite get_is_obj by done. cbn [mbind res_bind]. rewrite get_is_obj by done.
  cbn [mbind res_bind]. cbn [at_path] in Hf'. rewrite Hf'. cbn [mbind res_bind]. f_equal.
  apply filter_unused.
Qed.

(** ** The theorems at concrete inputs *)

Definition samplePage (api : ValidationSection → bool) (s : State) : Page :=
  mkPage "sample" None None s 0 None api [] [] [] [] false.

Definition okValues : list (ValidationSection * bool) :=
  mjoin ((λ f, replicate (takes f) (key f, true)) <$> validated).

Definition played (p : Page) (l : list Event) : Page :=
  match play p l with Ok p' => p' | Throw _ => p end.

Lemma saved_iff_sections_valid_witness :
  ∃ p', foldM (λ p v, deliver v.1 v.2 p) (doSave (samplePage (λ _, true) sampleFetched)) okValues = Ok p' ∧
    saveModule ∈ sent p'.
Proof.
  assert (is_ok (foldM (λ p v, deliver v.1 v.2 p) (doSave (samplePage (λ _, true) sampleFetched)) okValues)
          = true) as Hok by (by vm_compute).
  apply is_ok_spec in Hok as [p' Hp].
  exists p'. split; [done|].
  apply (saved_iff_sections_valid (samplePage (λ _, true) sampleFetched) okValues p').
  - by eexists.
  - by eexists.
  - reflexivity.
  - apply not_elem_of_nil.
  - exact Hp.
  - split; [|split].
    + unfold enough. apply Forall_forall, (bool_decide_unpack _). by vm_compute.
    + intros f b Hf Hb. assert (Forall (λ f, Forall (λ b, b = true)
        (firstn (takes f) (valuesOf (key f) okValues))) validated) as HF
        by (apply (bool_decide_unpack _); by vm_compute).
      rewrite Forall_forall in HF. specialize (HF f Hf). rewrite Forall_forall in HF. by apply HF.
    + intros sk. revert sk. apply Forall_forall, (bool_decide_unpack _). by vm_compute.
Defined.

(** The statuses of all forms and the results for the default values. *)
Definition allAnswers : list Event :=
  ((λ f, Status (key f) VALID) <$> validated) ++
  ((λ f, DefaultValidated (key f) true) <$> List.filter validatesDefault validated).

Definition saves (p : Page) : nat :=
  length (List.filter (λ a, match a with saveModule => true | _ => false end) (sent p)).

(** Clicking twice before the answers come saves twice. *)
Example double_click_saves_twice :
  saves (played (samplePage (λ _, true) sampleFetched) (Save :: Save :: allAnswers)) = 2.
Proof. by vm_compute. Qed.

(** A section whose form of default values has not registered sends one value
    where two are awaited: the module is not saved, and no error is shown. *)
Example unregistered_form_blocks_saving :
  let p := played (samplePage (λ s, negb (bool_decide (s = SEvents))) sampleFetched)
             (Save :: allAnswers) in
  saves p = 0 ∧ length (runs p) = 1.
Proof. by vm_compute. Qed.

Definition markedModule : val :=
  spread sampleModule
    [("config_schema", obj_lit [("properties",
        obj_lit [("a", obj_lit [("title", VStr "t('A.b.c.d')")])])]);
     ("locale", obj_lit ((λ sk, (sk.1, VObj [])) <$> schemaSections))].
Definition markedPage : Page :=
  samplePage (λ _, true) { sampleFetched with module := markedModule }.

Lemma schema_keys_registered_witness :
  ∃ p', parseSchema markedPage = Ok p' ∧
    module (store p') @@ ["locale"; "config_additional_args"; "A.b.c.d"] =
      obj_lit [("en", VStr ""); ("ru", VStr "")].
Proof.
  destruct (schema_keys_registered markedPage) as (p' & Hp & _ & _ & Hs).
  - by eexists.
  - by eexists.
  - intros s Hs. exists []. vm_compute in Hs.
    repeat (apply elem_of_cons in Hs as [->|Hs]; [split; [by vm_compute|apply obj_wf_nil]|]).
    by apply elem_of_nil in Hs.
  - exists p'. split; [done|].
    destruct (Hs "config_additional_args" "config_schema" []) as (ui' & Hui & _ & Hnew & _).
    + apply (bool_decide_unpack _). by vm_compute.
    + split; [by vm_compute|apply obj_wf_nil].
    + change (prop (module (store p') @@ ["locale"; "config_additional_args"]) "A.b.c.d" =
        obj_lit [("en", VStr ""); ("ru", VStr "")]).
      rewrite Hui. cbn [prop]. unfold obj_lookup. rewrite (Hnew "A.b.c.d"); [by vm_compute| |].
      * vm_compute. apply list_elem_of_here.
      * apply not_elem_of_nil.
Defined.

(** A module without translations for a section whose schema uses a key
    cannot be saved: [parseSchema] throws at that section, after all sections
    have found their forms valid.  The page stays as it is, without a word. *)
Definition untranslatedPage : Page :=
  samplePage (λ _, true) { sampleFetched with module :=
    spread markedModule [("secure_config_schema", obj_lit [("title", VStr "t('A.b.c.d')")]);
      ("locale", obj_lit ((λ sk, (sk.1, VObj [])) <$> take 4 schemaSections))] }.

Example missing_translations_throw :
  parseSchema untranslatedPage = Throw TypeError ∧
  is_ok (play untranslatedPage (Save :: allAnswers)) = true ∧
  let p := played untranslatedPage (Save :: allAnswers) in saves p = 0 ∧ runs p = [].
Proof. by vm_compute. Qed.

Definition fieldsState : State := exec (exec sampleFetched addField) addField.

Lemma confirmed_removal_leaves_used_witness :
  ∃ u s', selectUnusedFields fieldsState = Ok u ∧ u ≠ [] ∧
    run fieldsState (ModuleEditState.removeField <$> u) = Ok s' ∧ selectUnusedFields s' = Ok [].
Proof.
  destruct (selectUnusedFields fieldsState) as [u|e] eqn:Hu; [|by vm_compute in Hu].
  destruct (run fieldsState (ModuleEditState.removeField <$> u)) as [s'|e] eqn:Hs.
  - exists u, s'. split; [done|]. split; [by intros ->; vm_compute in Hu|]. split; [done|].
    apply (confirmed_removal_leaves_used fieldsState s' u); [by eexists|by eexists|done|done].
  - vm_compute in Hu. injection Hu as <-. by vm_compute in Hs.
Defined.
