(* ===== verification/EventForms.v ===== *)
(** * The forms of events and actions

    [EditEventsSectionComponent] and [EditActionsSectionComponent]
    ([features/modules/src/lib/components]): how the schema of the events
    (actions) becomes the items of a form and back, the subscriptions that tie
    the form to the store, and the validators of the controls
    ([features/modules/src/lib/validators]).  The two components are written in
    parallel; what they share is written once over an [ItemForm]. *)

From Stdlib Require Import Ascii.
From stdpp Require Import list.
From S2P Require Import Prelude JsString JsValue JsJson JsonText SharedUtils Localization.
From S2P Require Import ModuleEditState ModuleEditConfig ModuleEditItems ModuleEditSelectors.
From S2P Require Import ModuleEditReducer ParamForms.
From S2P Require ModuleEditFacade.
Import PropertyType.

(** ** Items ([types/module-development.ts]) *)

Record EventConfigurationItem := mkEvent {
  event_config_fields : string;
  event_fields : val;
  event_keys : list ConfigurationItem;
  event_name : string;
  event_type : val
}.
#[export] Instance EventConfigurationItem_eta : Eta EventConfigurationItem :=
  ltac:(eta_of EventConfigurationItem).

Record ActionConfigurationItem := mkAction {
  action_config_fields : string;
  action_fields : val;
  action_keys : list ConfigurationItem;
  action_name : string;
  action_type : val;
  action_priority : val
}.
#[export] Instance ActionConfigurationItem_eta : Eta ActionConfigurationItem :=
  ltac:(eta_of ActionConfigurationItem).

Definition ATOMIC_REF : string := "#/definitions/events.atomic".
Definition ACTION_REF : string := "#/definitions/base.action".
Definition refTo (ref : string) : val := obj_lit [("$ref", VStr ref)].

(** [EventConfigurationItemType]: the texts of the references. *)
Definition Atomic : string := json_text (refTo ATOMIC_REF).
Definition Aggregation : string := json_text (refTo "#/definitions/events.aggregation").
Definition Correlation : string := json_text (refTo "#/definitions/events.correlation").

(** ** What tells the components apart *)

Record ItemForm (T : Type) := mkItemForm {
  reserved : list string;                 (* properties that are not keys *)
  itemName : T → string;
  itemKeys : T → list ConfigurationItem;
  itemConfig : T → string;                (* [config_fields] *)
  withKeys : list ConfigurationItem → T → T;
  withFields : T → T → T;                 (* the fields of the first item *)
  make : string → val → string → list ConfigurationItem → val → res T;
  baseOf : T → res val;                   (* [allOf\[0\]] *)
  finishItem : T → val → res val
}.
Arguments mkItemForm {T} _ _ _ _ _ _ _ _ _.
Arguments reserved {T} _.
Arguments itemName {T} _ _.
Arguments itemKeys {T} _ _.
Arguments itemConfig {T} _ _.
Arguments withKeys {T} _ _ _.
Arguments withFields {T} _ _ _.
Arguments make {T} _ _ _ _ _ _.
Arguments baseOf {T} _ _.
Arguments finishItem {T} _ _ _.

(** ** From a schema to items *)

(** [Object.keys(own).filter((k) => !\['type', 'properties', 'required'\].includes(k))] *)
Definition isConfig (k : string) : bool := negb (includes k ["type"; "properties"; "required"]).

Definition configText (own : val) : res string :=
  rest ← pick isConfig own own; Ok (json_text_2 rest).

(** The schema of the keys: [own] without the reserved properties. *)
Definition keysSchema (reserved : list string) (own : val) : res val :=
  props ← get own "properties";
  filtered ← pick (λ k, negb (includes k reserved)) (js_or props (VObj [])) props;
  Ok (spread own [("properties", filtered)]).

(** [JSON.stringify(v)], which may be [undefined]. *)
Definition textOf (v : val) : val := match stringify v with Some s => VStr s | None => VUndef end.

Section items.
Context {T : Type} (form : ItemForm T).

Definition itemFromSchema (name : string) (p : val) : res T :=
  allOf ← get p "allOf";
  base ← get allOf "0";
  own ← get allOf "1";
  config ← configText own;
  ks ← keysSchema (reserved form) own;
  keys ← getModelFromSchema ks true;
  props ← get own "properties";
  make form name (textOf base) config keys props.

(** [getEventsModelFromSchema], [getActionsModelFromSchema]. *)
Definition itemsFromSchema (schema : val) : res (list T) :=
  if negb (is_plain_object schema) then Ok []
  else
    props ← get schema "properties";
    if negb (is_plain_object props) then Ok []
    else
      names ← Object_keys props;
      mapM (λ name, p ← get props name; itemFromSchema name p) names.

(** ** From items to a schema *)

(** [JSON.parse(text || '{}')] *)
Definition parse_or_empty (text : string) : res val :=
  json_parse (if String.eqb text "" then "{}" else text).

(** [JSON.parse(item.type || '{}')]; the control holds a text or nothing. *)
Definition parseType (type : val) : res val :=
  match js_or type (VStr "{}") with VStr s => json_parse s | _ => Throw Unsupported end.

(** One round of [params.forEach]. *)
Definition addItemTo (schema : val) (item : T) : res val :=
  let name := itemName form item in
  schema ← push_to schema "required" (VStr name);
  base ← baseOf form item;
  own ← getSchemaFromModel (itemKeys form item) None false;
  extra ← parse_or_empty (itemConfig form item);
  props ← get schema "properties";
  props ← set props name (obj_lit [("allOf", VArr [base; spread2 own extra])]);
  schema ← set schema "properties" props;
  update_path schema ["properties"; name] (finishItem form item).

(** [getEventsSchemaFromModel], [getActionsSchemaFromModel]. *)
Definition itemsToSchema (params : list T) : res val :=
  foldM addItemTo (getEmptySchema (Some false)) params.
End items.

(** [fields && fields.length > 0] *)
Definition hasFields (fields : val) : res bool :=
  if negb (truthy fields) then Ok false
  else
    n ← get fields "length";
    Ok (match n with VNum (NInt n) => bool_decide (0 < n)%Z | _ => false end).

(** The schema of the property [fields] of an item. *)
Definition fieldsSchema (fields : val) : res val :=
  some ← hasFields fields;
  n ← (if (some : bool) then get fields "length" else Ok VUndef);
  Ok (obj_lit
    ([("type", VStr ARRAY); ("default", fields)]
     ++ (if (some : bool) then [("minItems", n); ("maxItems", n)] else [])
     ++ [("items", obj_lit ([("type", VStr STRING)]
           ++ (if (some : bool) then [("enum", fields)] else [])))])).

(** [own.properties.k = { ...(own.properties.k || {}), ...v }] *)
Definition mergeProperty (k : string) (v p : val) : res val :=
  update_path p ["allOf"; "1"; "properties"] (λ props,
    old ← get props k; set props k (spread2 (js_or old (VObj [])) v)).

(** [own.required.push(k)] *)
Definition requireKey (k : string) (p : val) : res val :=
  update_path p ["allOf"; "1"] (λ own, push_to own "required" (VStr k)).

(** ** Events *)

Definition eventForm : ItemForm EventConfigurationItem := {|
  reserved := ["type"; "actions"; "fields"];
  itemName := event_name;
  itemKeys := event_keys;
  itemConfig := event_config_fields;
  withKeys ks e := { e with event_keys := ks };
  withFields src e := { e with event_fields := event_fields src };
  make name type config keys props :=
    f ← getq props "fields";
    d ← (if truthy f then getq f "default" else Ok f);
    Ok (mkEvent config (js_or d (VArr [])) keys name type);
  baseOf e := parseType (event_type e);
  finishItem e p :=
    ref ← get_path p ["allOf"; "0"; "$ref"];
    if is_str ref ATOMIC_REF then
      fs ← fieldsSchema (event_fields e);
      p ← mergeProperty "fields" fs p;
      requireKey "fields" p
    else Ok p
|}.

Definition getEventsModelFromSchema : val → res (list EventConfigurationItem) :=
  itemsFromSchema eventForm.
Definition getEventsSchemaFromModel : list EventConfigurationItem → res val :=
  itemsToSchema eventForm.

(** ** Actions *)

Definition prioritySchema (priority : val) : val :=
  obj_lit [("default", priority); ("maximum", priority); ("minimum", priority);
           ("type", VStr INTEGER)].

Definition actionForm : ItemForm ActionConfigurationItem := {|
  reserved := ["type"; "fields"; "priority"];
  itemName := action_name;
  itemKeys := action_keys;
  itemConfig := action_config_fields;
  withKeys ks a := { a with action_keys := ks };
  withFields src a := { a with action_fields := action_fields src };
  make name type config keys props :=
    f ← getq props "fields";
    fields ← getq f "default";
    p ← getq props "priority";
    priority ← getq p "default";
    Ok (mkAction config (js_or fields (VArr [])) keys name type (js_or priority (vint 1)));
  baseOf _ := Ok (refTo ACTION_REF);
  finishItem a p :=
    fs ← fieldsSchema (action_fields a);
    p ← mergeProperty "fields" fs p;
    p ← mergeProperty "priority" (prioritySchema (js_or (action_priority a) (vint 1))) p;
    p ← requireKey "fields" p;
    requireKey "priority" p
|}.

Definition getActionsModelFromSchema : val → res (list ActionConfigurationItem) :=
  itemsFromSchema actionForm.
Definition getActionsSchemaFromModel : list ActionConfigurationItem → res val :=
  itemsToSchema actionForm.

(** ** The form of default values *)

(** [unwrap-form-items.ts]: changed items are shown open. *)
Definition openItem : val :=
  obj_lit [("ui", obj_lit [("widgetConfig", obj_lit [("collapsed", VStr "dx: false")])])].

Definition unwrapItem (unwrappedNames : list string) (value : val) (name : string) : res val :=
  if includes name unwrappedNames then
    update_path value ["properties"; name] (λ item,
      allOf ← get item "allOf";
      item ← (if truthy allOf then Ok item else set item "allOf" (VArr []));
      push_to item "allOf" openItem)
  else Ok value.

Definition unwrapFormItems (schema : val) (unwrappedNames : list string) : res val :=
  let value := clone schema in
  names ← (p ← get value "properties"; Object_keys p);
  foldM (unwrapItem unwrappedNames) value names.

(** ** The components *)

Record ItemsSection (T : Type) := mkItemsSection {
  itemForm : ItemForm T;
  storeKeys : ItemSection;
  additionalArgs : string;        (* the translations of the schema *)
  localizesFirst : bool;
  changedItems : State → res (list string);
  storeSchema : State → val → res State
}.
Arguments mkItemsSection {T} _ _ _ _ _ _.
Arguments itemForm {T} _.
Arguments storeKeys {T} _.
Arguments additionalArgs {T} _.
Arguments localizesFirst {T} _.
Arguments changedItems {T} _ _.
Arguments storeSchema {T} _ _ _.

Definition EditEventsSection : ItemsSection EventConfigurationItem :=
  mkItemsSection eventForm eventSection "events_additional_args" false selectChangedEvents
    on_updateEventsSchema.
Definition EditActionsSection : ItemsSection ActionConfigurationItem :=
  mkItemsSection actionForm actionSection "actions_additional_args" true selectChangedActions
    on_updateActionsSchema.

(** A component: its form array, whose rows hold the value of their controls,
    the schema emitted last ([undefined] before the first), and what the form
    of default values shows. *)
Record ItemsEditor (T : Type) := mkItemsEditor {
  stored : State;
  rows : list (Group T);
  lastSchema : val;
  defaultSchema : val;
  defaultModel : val;
  fieldNames : list string;
  activeKeyTabIndex : nat
}.
Arguments mkItemsEditor {T} _ _ _ _ _ _ _.
Arguments stored {T} _.
Arguments rows {T} _.
Arguments lastSchema {T} _.
Arguments defaultSchema {T} _.
Arguments defaultModel {T} _.
Arguments fieldNames {T} _.
Arguments activeKeyTabIndex {T} _.

Section editor.
Context {T : Type} (sec : ItemsSection T) (readOnly : bool).
(** The language, the service of definitions, and the module that the page
    hands down ([@Input() module]). *)
Context (lang : string) (getDefinitions : list string → val) (inputModule : val).

Let form : ItemForm T := itemForm sec.

(** [getEventsFormGroup], [getActionsFormGroup]: every control is disabled when
    the section is read only. *)
Definition getItemFormGroup (param : T) : Group T := mkGroup param readOnly.

Definition withDefinitions (names : list string) (schema : val) : val :=
  spread (clone schema) [("definitions", getDefinitions names)].

(** What the form of default values is made from. *)
Definition defaultSchemaOf (schema : val) (names changes : list string) : res val :=
  args ← (l ← get inputModule "locale"; getq l (additionalArgs sec));
  if localizesFirst sec then
    localized ← localizeSchemaAdditionalKeys lang schema args;
    unwrapFormItems (withDefinitions names localized) changes
  else
    unwrapped ← unwrapFormItems (withDefinitions names schema) changes;
    localizeSchemaAdditionalKeys lang unwrapped args.

Definition findItem (name : string) (model : list T) : option T :=
  snd <$> list_find (λ item, itemName form item = name) model.

(** One round over the items of the new schema, when none was added or removed:
    the row of an item that has kept its name follows its fields and keys. *)
Definition followItem (oldModel : list T) (st : list (Group T) * nat) (entry : nat * T) :
    res (list (Group T) * nat) :=
  let '(i, item) := entry in
  match findItem (itemName form item) oldModel with
  | None => Ok st
  | Some old =>
      let keysNames := names_of (itemKeys form item) in
      let '(added, removed, _) := getChangesArrays (names_of (itemKeys form old)) keysNames in
      match st.1 !! i with
      | None => Throw TypeError
      | Some g =>
          let v := withFields form item (value g) in
          keys ← applyDiff name id (itemKeys form v) added removed None
                   (itemKeys form old) (itemKeys form item);
          Ok (<[i := mkGroup (withKeys form keys.1 v) (disabled g)]> st.1,
              if bool_decide (added = []) then st.2 else length keysNames - 1)
      end
  end.

(** The first subscription of [ngOnInit]; it emits nothing. *)
Definition onItemsSchema (ed : ItemsEditor T) (s : State) : res (ItemsEditor T) :=
  schema ← getq (module s) (schemaKey (storeKeys sec));
  let prevSchema := js_or (lastSchema ed) (getEmptySchema None) in
  oldModel ← itemsFromSchema form prevSchema;
  model ← itemsFromSchema form schema;
  namesOld ← propertyNames prevSchema;
  names ← propertyNames schema;
  changes ← changedItems sec s;
  let '(added, removed, _) := getChangesArrays namesOld names in
  shown ← defaultSchemaOf schema names changes;
  diffed ← applyDiff (itemName form) getItemFormGroup (rows ed) added removed None oldModel model;
  '(rows', tab) ←
    (if bool_decide (added = []) && bool_decide (removed = []) then
       foldM (followItem oldModel) (diffed.1, activeKeyTabIndex ed) (imap pair model)
     else Ok (diffed.1, activeKeyTabIndex ed));
  Ok (mkItemsEditor s rows' schema shown (defaultModel ed) (fieldNames ed) tab).

(** The subscription to the module. *)
Definition onModule (ed : ItemsEditor T) : res (ItemsEditor T) :=
  let m := module (stored ed) in
  d ← get m (defaultKey (storeKeys sec));
  schema ← get m "fields_schema";
  p ← getq schema "properties";
  names ← Object_keys (js_or p (VObj []));
  Ok (mkItemsEditor (stored ed) (rows ed) (lastSchema ed) (defaultSchema ed) d names
        (activeKeyTabIndex ed)).

(** The schema changed in the store. *)
Definition followStore (ed : ItemsEditor T) (s : State) : res (ItemsEditor T) :=
  ed ← onItemsSchema ed s; onModule ed.

Definition overlap (names : list string) : bool :=
  bool_decide (length (remove_dups names) < length names).

(** The second subscription: the schema to store, unless names overlap. *)
Definition onItems (params : list T) : option (res val) :=
  if overlap (itemName form <$> params)
     || existsb (λ item, overlap (names_of (itemKeys form item))) params
  then None else Some (itemsToSchema form params).

Definition rowValues (ed : ItemsEditor T) : list T := value <$> rows ed.

Definition withRows (ed : ItemsEditor T) (rows' : list (Group T)) : ItemsEditor T :=
  mkItemsEditor (stored ed) rows' (lastSchema ed) (defaultSchema ed) (defaultModel ed)
    (fieldNames ed) (activeKeyTabIndex ed).

(** The user edits the controls.  An exception of the subscriber is reported
    and nothing is stored. *)
Definition editItems (ed : ItemsEditor T) (rows' : list (Group T)) : res (ItemsEditor T) :=
  let ed := withRows ed rows' in
  match onItems (rowValues ed) with
  | None => Ok ed
  | Some (Ok schema) => s ← storeSchema sec (stored ed) schema; followStore ed s
  | Some (Throw Unsupported) => Throw Unsupported
  | Some (Throw _) => Ok ed
  end.

(** A button that changes the schema in the store. *)
Definition press (actions : list Action) (ed : ItemsEditor T) : res (ItemsEditor T) :=
  s ← run (stored ed) actions; followStore ed s.

(** Buttons that ask first. *)
Definition confirmed (answer : bool) (actions : list Action) (ed : ItemsEditor T) :
    res (ItemsEditor T) :=
  if answer then press actions ed else Ok ed.
End editor.

(** The subscriptions of [ngOnInit] of the two components. *)
Definition onEventsSchema := onItemsSchema EditEventsSection.
Definition onEvents := onItems EditEventsSection.
Definition onActionsSchema := onItemsSchema EditActionsSection.
Definition onActions := onItems EditActionsSection.
Definition onActionsModule := onModule EditActionsSection.
Definition getActionsFormGroup : bool → ActionConfigurationItem → Group ActionConfigurationItem :=
  getItemFormGroup.

(** The buttons of the two components. *)
Section buttons.
Context (lang : string) (getDefinitions : list string → val) (inputModule : val) (readOnly : bool).

Let pressEvents := press EditEventsSection readOnly lang getDefinitions inputModule.
Let pressActions := press EditActionsSection readOnly lang getDefinitions inputModule.
Let confirmedEvents := confirmed EditEventsSection readOnly lang getDefinitions inputModule.
Let confirmedActions := confirmed EditActionsSection readOnly lang getDefinitions inputModule.

Definition addEvent := pressEvents ModuleEditFacade.addEvent.
Definition removeEvent (answer : bool) (name : string) :=
  confirmedEvents answer (ModuleEditFacade.removeEvent name).
Definition removeAllEvents (answer : bool) := confirmedEvents answer ModuleEditFacade.removeAllEvents.
Definition addEventKey (eventName : string) := pressEvents (ModuleEditFacade.addEventKey eventName).
Definition deleteEventKey (eventName keyName : string) :=
  pressEvents (ModuleEditFacade.removeEventKey eventName keyName).

Definition addAction := pressActions ModuleEditFacade.addAction.
Definition removeAction (answer : bool) (name : string) :=
  confirmedActions answer (ModuleEditFacade.removeAction name).
Definition removeAllActions (answer : bool) :=
  confirmedActions answer ModuleEditFacade.removeAllActions.
Definition addActionKey (actionName : string) := pressActions (ModuleEditFacade.addActionKey actionName).
Definition deleteActionKey (actionName keyName : string) :=
  pressActions (ModuleEditFacade.removeActionKey actionName keyName).
End buttons.

(** ** Validators: [true] is an error *)

(** [form-item-name.ts] *)
Definition formItemName (allowDot : bool) (value : string) : bool :=
  negb (all_chars (λ c, is_alnum c || Ascii.eqb c "_" || (allowDot && Ascii.eqb c ".")) value).

(** [overlapping-names.ts] *)
Definition overlappingNames (names : list string) (value : string) : bool :=
  bool_decide (1 < length (List.filter (String.eqb value) names)).

(** [form-item-fields.ts]: the text of an object.  [typeof null] is [object]. *)
Definition formItemFields (text : string) : res bool :=
  match json_parse text with
  | Ok v => Ok (negb (is_plain_object v))
  | Throw Unsupported => Throw Unsupported
  | Throw _ => Ok true
  end.

(** [Number.isInteger(v)]; numbers that are kept as texts are not decided. *)
Definition isInteger (v : val) : res bool :=
  match v with
  | VNum (NInt _) => Ok true
  | VNum (NText _) => Throw Unsupported
  | _ => Ok false
  end.

Definition fitsType (type : val) (d : val) : res bool :=
  match type with
  | VStr t =>
      if includes t [BOOLEAN; STRING; NUMBER] then Ok (String.eqb (typeof d) t)
      else if String.eqb t INTEGER then isInteger d
      else if String.eqb t OBJECT then Ok (is_plain_object d)
      else if String.eqb t ARRAY then Ok (is_array d)
      else Ok false
  | _ => Ok false
  end.

(** [correct-default-value.ts]: an exception is no error. *)
Definition correctDefaultValue (fields : string) (type : val) : res bool :=
  match (v ← json_parse fields; get v "default") with
  | Throw Unsupported => Throw Unsupported
  | Throw _ => Ok false
  | Ok d => if is_undef d then Ok false else fits ← fitsType type d; Ok (negb fits)
  end.

(** [eventNameExistsValidator], [actionNameExistsValidator]: another module
    has an item of that name. *)
Definition nameExists (options : list val) (module : val) (value : string) : res bool :=
  found ← filterM (λ option,
    other ← get option "module_name";
    own ← get_path module ["info"; "name"];
    if strict_eq other own then Ok false
    else n ← get option "name"; Ok (is_str n value)) options;
  Ok (bool_decide (found ≠ [])).

(** The validators of a group of an event. *)
Definition eventConfigTypeEmptyObject (e : EventConfigurationItem) : bool :=
  negb (is_str (event_type e) Atomic) && negb (String.eqb (event_config_fields e) "{}").
Definition eventConfigTypeEmptyList (e : EventConfigurationItem) : bool :=
  negb (is_str (event_type e) Atomic) && bool_decide (0 < length (event_keys e)).
