(* ===== verification/EventFormTheorems.v ===== *)
(** * What the forms of events and actions do to a schema

    A schema that is shown in the form and read back, edits that leave the
    controls alone, and names that are not sent or get lost. *)

From Stdlib Require Import Ascii.
From stdpp Require Import list.
From S2P Require Import Prelude JsString JsValue JsJson JsonText SharedUtils Localization.
From S2P Require Import ModuleEditState ModuleEditConfig ModuleEditItems ModuleEditReducer.
From S2P Require Import ModuleEditDefaults ModuleEditSamples ParamForms FormFacts ParamFormFacts.
From S2P Require Import FormTheorems EventForms.
Import PropertyType.

(** ** Keys without dots

    The keys are read inline but written by path: the same for names without
    dots. *)
Definition undotted (names : list string) : Prop := Forall (λ k, has_char "." k = false) names.

Lemma item_path_undotted k : has_char "." k = false → item_path false k = item_path true k.
Proof. intros Hk. unfold item_path. by apply split_single. Qed.

Lemma schema_undotted items ap :
  undotted (names_of items) → getSchemaFromModel items ap false = getSchemaFromModel items ap true.
Proof.
  unfold undotted, names_of. rewrite Forall_fmap, Forall_forall. intros Hd. unfold getSchemaFromModel.
  apply foldM_ext. intros schema data Hin. unfold add_to_schema.
  by rewrite item_path_undotted by by apply Hd.
Qed.

(** ** The schema of one item *)

Section item_schema.
Context {T : Type} (form : ItemForm T).

(** What [addItemTo] puts under the name of an item. *)
Definition itemSchema (item : T) : res val :=
  base ← baseOf form item;
  own ← getSchemaFromModel (itemKeys form item) None false;
  extra ← parse_or_empty (itemConfig form item);
  finishItem form item (obj_lit [("allOf", VArr [base; spread2 own extra])]).

Lemma set_schema_properties props q reqs ap :
  set (schema_form props reqs ap) "properties" (VObj q) = Ok (schema_form q reqs ap).
Proof. done. Qed.

Lemma update_schema_property props reqs ap n x e f :
  obj_get n props = Some x → f x = Ok e →
  update_path (schema_form props reqs ap) ["properties"; n] f =
    Ok (schema_form (obj_set n e props) reqs ap).
Proof.
  intros Hx Hf. cbn [update_path]. change (get (schema_form ?p ?r ap) "properties") with (Ok (VObj p)).
  cbn [mbind res_bind get]. unfold obj_lookup. rewrite Hx. cbn [default id from_option].
  rewrite Hf. done.
Qed.

Lemma addItemTo_fresh props reqs ap item e :
  itemSchema item = Ok e →
  addItemTo form (schema_form props reqs ap) item =
    Ok (schema_form (obj_set (itemName form item) e props) (reqs ++ [itemName form item]) ap).
Proof.
  intros H. unfold addItemTo.
  assert (push_to (schema_form props reqs ap) "required" (VStr (itemName form item))
          = Ok (schema_form props (reqs ++ [itemName form item]) ap)) as ->.
  { unfold push_to, schema_form, vstrs. simpl. by rewrite fmap_app. }
  cbn [mbind res_bind]. unfold itemSchema in H.
  destruct (baseOf form item) as [base|]; [|done]. cbn [mbind res_bind] in *.
  destruct (getSchemaFromModel _ _ _) as [own|]; [|done]. cbn [mbind res_bind] in *.
  destruct (parse_or_empty _) as [extra|]; [|done]. cbn [mbind res_bind] in *.
  change (get (schema_form ?p ?r ap) "properties") with (Ok (VObj p)). cbn [mbind res_bind].
  change (set (VObj props) ?n ?x) with (Ok (VObj (obj_set n x props))). cbn [mbind res_bind].
  rewrite set_schema_properties. cbn [mbind res_bind].
  erewrite update_schema_property; [|apply obj_get_set_eq|exact H]. by rewrite obj_set_twice.
Qed.

Lemma itemsToSchema_eq items es :
  mapM itemSchema items = Ok es →
  itemsToSchema form items =
    Ok (schema_form (obj_assign [] (zip (itemName form <$> items) es)) (itemName form <$> items) (Some false)).
Proof.
  unfold itemsToSchema. change (getEmptySchema (Some false)) with (schema_form [] [] (Some false)).
  assert (∀ props reqs, mapM itemSchema items = Ok es →
    foldM (addItemTo form) (schema_form props reqs (Some false)) items =
      Ok (schema_form (obj_assign props (zip (itemName form <$> items) es))
            (reqs ++ (itemName form <$> items)) (Some false))) as H; [|by apply H].
  revert es. induction items as [|item items IH]; intros es props reqs H; cbn [mapM foldM] in *.
  - injection H as <-. cbn. by rewrite app_nil_r.
  - apply bind_Ok_inv in H as (e & He & H). apply bind_Ok_inv in H as (es' & Hes & [= <-]).
    rewrite (addItemTo_fresh _ _ _ _ e He). cbn [mbind res_bind]. rewrite (IH es') by done.
    cbn [fmap list_fmap]. by rewrite <-app_assoc.
Qed.

(** Properties under distinct names in property order stay as they are. *)
Lemma zip_assign (names : list string) (es : list val) (props : obj val) :
  obj_wf props → names = obj_keys props → length es = length names →
  obj_assign [] (zip names es) = zip names es.
Proof.
  intros [Hnd Hord] -> Hl. apply obj_assign_nil.
  assert (obj_keys (zip (obj_keys props) es) = obj_keys props) as Hk by by apply zip_keys.
  split; by rewrite Hk.
Qed.
End item_schema.

(** ** What is shown of an item *)

(** The schema of an item: a base and its own part, with properties that are
    keys and properties that are not. *)
Record item_schema (reserved : list string) (e base : val) (own props : obj val) : Prop := {
  item_allOf : ∃ o tl, e = VObj o ∧ obj_get "allOf" o = Some (VArr (base :: VObj own :: tl));
  item_base : json_value base;
  item_own : json_value (VObj own);
  item_props : obj_get "properties" own = Some (VObj props);
  item_keys : Forall (λ kv, negb (includes kv.1 reserved) = true → has_type kv.2) props;
  item_undotted : undotted (List.filter (λ k, negb (includes k reserved)) (obj_keys props))
}.

Section shown.
Context (reserved : list string).

(** The properties that are keys, the rest of the own part, and the names of
    the required properties. *)
Definition keyProps (props : obj val) : obj val := List.filter (λ kv, negb (includes kv.1 reserved)) props.
Definition configProps (own : obj val) : obj val := List.filter (λ kv, isConfig kv.1) own.
Definition ownReqs (own : obj val) : list val := array_or_empty (obj_lookup "required" own).

Lemma json_value_wf o : json_value (VObj o) → obj_wf o.
Proof. by intros [? _]%json_value_obj. Qed.

Lemma json_value_filter (keep : string → bool) (o : obj val) :
  json_value (VObj o) → json_value (VObj (List.filter (λ kv, keep kv.1) o)).
Proof.
  rewrite !json_value_obj. intros [Hwf HF]. split; [by apply obj_filter_wf|by apply Forall_List_filter].
Qed.

Lemma configText_eq own : obj_wf own → configText (VObj own) = Ok (json_text_2 (VObj (configProps own))).
Proof. intros Hwf. unfold configText. by rewrite pick_obj. Qed.

Lemma parse_config own :
  json_value (VObj own) →
  parse_or_empty (json_text_2 (VObj (configProps own))) = Ok (VObj (configProps own)).
Proof.
  intros Hj. assert (json_value (VObj (configProps own))) as [Hc Hp] by by apply json_value_filter.
  assert (json_parse (json_text_2 (VObj (configProps own))) = Ok (VObj (configProps own))) as H.
  { rewrite json_parse_text_2 by done. by rewrite clone_json. }
  unfold parse_or_empty. destruct (String.eqb_spec (json_text_2 (VObj (configProps own))) "") as [He|]; [|done].
  by rewrite He in H.
Qed.

Lemma keyProps_keys props :
  obj_keys (keyProps props) = List.filter (λ k, negb (includes k reserved)) (obj_keys props).
Proof.
  unfold keyProps, obj_keys. induction props as [|[k v] props IH]; [done|]. cbn.
  destruct (negb (includes k reserved)); cbn; by rewrite <-IH.
Qed.

Lemma keysSchema_model e base own props :
  item_schema reserved e base own props →
  (ks ← keysSchema reserved (VObj own); getModelFromSchema ks true)
  = Ok (view_of (ownReqs own) <$> keyProps props).
Proof.
  intros [_ _ Hj Hp Hk _]. pose proof (json_value_wf _ Hj) as Hwf.
  pose proof (json_value_get _ _ _ Hj Hp) as Hjp. pose proof (json_value_wf _ Hjp) as Hwfp.
  unfold keysSchema. cbn [get]. unfold obj_lookup. rewrite Hp. cbn [default id from_option mbind res_bind js_or truthy].
  rewrite pick_obj by done. cbn [mbind res_bind].
  change (List.filter (λ kv, negb (includes kv.1 reserved)) props) with (keyProps props).
  apply model_of_section. split.
  - by eexists.
  - unfold spread. cbn [own_props obj_assign foldl fst snd prop]. unfold obj_lookup. by rewrite obj_get_set_eq.
  - unfold spread. cbn [own_props obj_assign foldl fst snd prop]. unfold ownReqs, obj_lookup.
    by rewrite obj_get_set_ne.
  - by apply (obj_filter_wf (λ k, negb (includes k reserved))).
  - apply Forall_forall. intros [k v] [Hin Hb]%elem_of_List_filter. rewrite Forall_forall in Hk.
    destruct (Hk _ Hin Hb) as (o & Hv & _). exists o. split; [done|]. simpl in Hv. subst v.
    apply json_value_obj in Hjp as [_ HF]. rewrite Forall_forall in HF. by apply json_value_wf, (HF (k, VObj o)).
Qed.
End shown.

(** ** What becomes of it *)

Definition itemWith (base own : val) : val := obj_lit [("allOf", VArr [base; own])].

(** The own part [own'] that [own] becomes: it keeps everything but type,
    properties and required names; its properties are the keys of [own], as
    the form shows them, and those [added]; the names of [extra] become required. *)
Record kept_own (reserved : list string) (own props added : obj val) (extra : list string)
    (own' : obj val) : Prop := {
  kept_type : obj_get "type" own' = Some (VStr OBJECT);
  kept_config : ∀ k, isConfig k = true → obj_get k own' = obj_get k own;
  kept_required : obj_get "required" own' =
    Some (vstrs (List.filter (is_required (ownReqs own)) (obj_keys (keyProps reserved props)) ++ extra));
  kept_props : ∃ props', obj_get "properties" own' = Some (VObj props') ∧
    (∀ k v, obj_get k added = Some v → obj_get k props' = Some v) ∧
    (∀ k, k ∈ obj_keys props' ↔ k ∈ obj_keys (keyProps reserved props) ∨ k ∈ obj_keys added) ∧
    ∀ k o, obj_get k (keyProps reserved props) = Some (VObj o) → k ∉ obj_keys added →
      ∃ o', obj_get k props' = Some (VObj o') ∧ o' ≡ₒ form_view o
}.

Lemma update_itemWith base own own' p f :
  update_path (VObj own) p f = Ok (VObj own') →
  update_path (itemWith base (VObj own)) ("allOf" :: "1" :: p) f = Ok (itemWith base (VObj own')).
Proof.
  intros H. cbn [update_path]. change (get (itemWith base (VObj own)) "allOf") with (Ok (VArr [base; VObj own])).
  cbn [mbind res_bind]. change (get (VArr [base; VObj own]) "1") with (Ok (VObj own)).
  cbn [mbind res_bind]. by rewrite H.
Qed.

Lemma obj_lit_wf kvs : ∃ o, obj_lit kvs = VObj o ∧ obj_wf o.
Proof. eexists. split; [done|]. apply obj_assign_wf, obj_wf_nil. Qed.

Lemma mergeProperty_eq base own props k v :
  obj_get "properties" own = Some (VObj props) → k ∉ obj_keys props → (∃ o, v = VObj o ∧ obj_wf o) →
  mergeProperty k v (itemWith base (VObj own)) =
    Ok (itemWith base (VObj (obj_set "properties" (VObj (obj_set k v props)) own))).
Proof.
  intros Hp Hk (o & -> & Hwf). unfold mergeProperty. apply update_itemWith. cbn [update_path get].
  unfold obj_lookup at 1. rewrite Hp. cbn [default id from_option mbind res_bind get].
  unfold obj_lookup. rewrite obj_keys_nil by done. cbn [default id from_option js_or truthy].
  change (spread2 (VObj []) (VObj o)) with (VObj (obj_assign [] o)). by rewrite obj_assign_nil.
Qed.

Lemma requireKey_eq base own l k :
  obj_get "required" own = Some (vstrs l) →
  requireKey k (itemWith base (VObj own)) =
    Ok (itemWith base (VObj (obj_set "required" (vstrs (l ++ [k])) own))).
Proof.
  intros Hr. unfold requireKey. apply (update_itemWith base own _ []). cbn [update_path].
  unfold push_to. cbn [get]. unfold obj_lookup. rewrite Hr. cbn. unfold vstrs. by rewrite fmap_app.
Qed.

(** A property that is added, a name that becomes required. *)
Lemma kept_merge reserved own props added extra own' k v base :
  k ∈ reserved → k ∉ obj_keys added → obj_wf added → (∃ o, v = VObj o ∧ obj_wf o) →
  kept_own reserved own props added extra own' →
  ∃ own1, mergeProperty k v (itemWith base (VObj own')) = Ok (itemWith base (VObj own1)) ∧
    kept_own reserved own props (added ++ [(k, v)]) extra own1.
Proof.
  intros Hk Hka Hwf Hv [Ht Hc Hr (props' & Hp & Hadd & Hkeys & Hshown)].
  assert (k ∉ obj_keys (keyProps reserved props)) as Hkp.
  { rewrite keyProps_keys, elem_of_List_filter, negb_true_iff, includes_false. tauto. }
  assert (k ∉ obj_keys props') as Hkp' by (rewrite Hkeys; tauto).
  rewrite (mergeProperty_eq _ _ props') by done. eexists. split; [done|].
  assert (obj_keys (added ++ [(k, v)]) = obj_keys added ++ [k]) as Hak by (unfold obj_keys; by rewrite fmap_app).
  split.
  - by rewrite obj_get_set_ne.
  - intros x Hx. rewrite obj_get_set_ne; [by apply Hc|by intros ->; vm_compute in Hx].
  - by rewrite obj_get_set_ne.
  - exists (obj_set k v props'). split; [by rewrite obj_get_set_eq|]. split; [|split].
    + intros x w Hx. rewrite obj_get_set. destruct (String.eqb_spec x k) as [->|Hne].
      * apply obj_get_Some_elem, elem_of_app in Hx as [Hx|Hx].
        -- destruct Hka. apply list_elem_of_fmap. by exists (k, w).
        -- apply list_elem_of_singleton in Hx. by injection Hx as ->.
      * apply Hadd. apply obj_get_Some_elem, elem_of_app in Hx as [Hx|Hx]; [by apply obj_get_elem|].
        apply list_elem_of_singleton in Hx. by injection Hx as -> _.
    + intros x. rewrite obj_keys_set, Hkeys, Hak, elem_of_app, list_elem_of_singleton. tauto.
    + intros x o Hx Hn. rewrite Hak, not_elem_of_app in Hn. destruct Hn as [Hn1 Hn2].
      rewrite obj_get_set_ne by (intros ->; apply Hn2, list_elem_of_here). by apply Hshown.
Qed.

Lemma kept_require reserved own props added extra own' k base :
  kept_own reserved own props added extra own' →
  ∃ own1, requireKey k (itemWith base (VObj own')) = Ok (itemWith base (VObj own1)) ∧
    kept_own reserved own props added (extra ++ [k]) own1.
Proof.
  intros [Ht Hc Hr (props' & Hp & Hrest)]. eexists. split; [by apply requireKey_eq|]. split.
  - by rewrite obj_get_set_ne.
  - intros x Hx. rewrite obj_get_set_ne; [by apply Hc|by intros ->; vm_compute in Hx].
  - by rewrite obj_get_set_eq, <-app_assoc.
  - exists props'. split; [|done]. by rewrite obj_get_set_ne.
Qed.

(** The own part read back from what the form shows, before fields and
    priority are added. *)
Lemma shown_own reserved e base own props :
  item_schema reserved e base own props →
  ∃ sch own', getSchemaFromModel (view_of (ownReqs own) <$> keyProps reserved props) None false = Ok sch ∧
    spread2 sch (VObj (configProps own)) = VObj own' ∧ kept_own reserved own props [] [] own'.
Proof.
  intros [_ _ Hj Hp Hk Hd]. pose proof (json_value_wf _ Hj) as Hwf.
  pose proof (json_value_get _ _ _ Hj Hp) as Hjp. pose proof (json_value_wf _ Hjp) as Hwfp.
  assert (json_value (VObj (keyProps reserved props))) as Hjk
    by (by apply (json_value_filter (λ k, negb (includes k reserved)))).
  pose proof (json_value_wf _ Hjk) as Hwk.
  assert (Forall (λ kv, has_type kv.2) (keyProps reserved props)) as Ht.
  { apply Forall_forall. intros kv [Hin Hb]%elem_of_List_filter. rewrite Forall_forall in Hk. by apply Hk. }
  destruct (schema_of_views (ownReqs own) (keyProps reserved props) None Hwk Hjk Ht)
    as (props' & Hs & Hkeys & Hshown).
  set (reqs := List.filter (is_required (ownReqs own)) (obj_keys (keyProps reserved props))) in *.
  exists (schema_form props' reqs None).
  exists (obj_assign (own_props (schema_form props' reqs None)) (configProps own)).
  split; [rewrite schema_undotted; [done|]; by rewrite view_names, keyProps_keys|]. split; [done|].
  assert (∀ k, obj_get k (obj_assign (own_props (schema_form props' reqs None)) (configProps own)) =
    if isConfig k then match obj_get k own with Some v => Some v
      | None => obj_get k (own_props (schema_form props' reqs None)) end
    else obj_get k (own_props (schema_form props' reqs None))) as Hget.
  { intros k. rewrite obj_get_assign_NoDup.
    - unfold configProps. rewrite obj_get_filter. by destruct (isConfig k).
    - apply (obj_filter_wf isConfig), Hwf. }
  split.
  - by rewrite Hget.
  - intros k Hc. rewrite Hget, Hc. destruct (obj_get k own); [done|].
    cbn. destruct (String.eqb_spec k "type") as [->|]; [by vm_compute in Hc|].
    destruct (String.eqb_spec k "properties") as [->|]; [by vm_compute in Hc|].
    destruct (String.eqb_spec k "required") as [->|]; [by vm_compute in Hc|done].
  - rewrite Hget. cbn. by rewrite app_nil_r.
  - exists props'. split; [by rewrite Hget|]. split; [done|]. split.
    + intros k. rewrite Hkeys. split; [by left|]. by intros [|?%elem_of_nil].
    + intros k o Ho _. by apply Hshown.
Qed.

(** ** All items of a schema *)

Section all_items.
Context {T : Type} (form : ItemForm T) (R : string → val → val → Prop).

Lemma form_keeps_items schema props :
  is_obj schema → prop schema "properties" = VObj props → obj_wf props →
  (∀ name e, (name, e) ∈ props → ∃ item e', itemFromSchema form name e = Ok item ∧
    itemName form item = name ∧ itemSchema form item = Ok e' ∧ R name e e') →
  ∃ items props', itemsFromSchema form schema = Ok items ∧
    itemsToSchema form items = Ok (schema_form props' (obj_keys props) (Some false)) ∧
    obj_keys props' = obj_keys props ∧
    ∀ name e, obj_get name props = Some e → ∃ e', obj_get name props' = Some e' ∧ R name e e'.
Proof.
  intros [o ->] Hp Hwf Hi.
  destruct (mapM_build (λ kv, itemFromSchema form kv.1 kv.2)
    (λ kv item, ∃ e', itemName form item = kv.1 ∧ itemSchema form item = Ok e' ∧ R kv.1 kv.2 e') props)
    as (items & Hitems & HF).
  { intros [name e] Hin. destruct (Hi name e Hin) as (item & e' & ? & ? & ? & ?).
    exists item. split; [done|]. by exists e'. }
  destruct (mapM_build (itemSchema form) (λ item e', itemSchema form item = Ok e') items)
    as (es & Hes & HF2).
  { intros item Hin. destruct (Forall2_elem_r _ _ _ _ HF Hin) as (kv & _ & e' & _ & He & _). by exists e'. }
  assert (itemName form <$> items = obj_keys props) as Hnames.
  { unfold obj_keys. clear -HF. induction HF as [|kv item props items (e' & Hn & _) HF IH]; [done|].
    cbn [fmap list_fmap]. rewrite Hn. f_equal. exact IH. }
  pose proof (Forall2_length _ _ _ HF2) as Hlen.
  assert (length es = length (obj_keys props)) as Hl by (by rewrite <-Hnames, length_fmap).
  exists items, (zip (obj_keys props) es). split; [|split; [|split]].
  - unfold itemsFromSchema. change (negb (is_plain_object (VObj o))) with false. cbn iota.
    change (get (VObj o) "properties") with (Ok (prop (VObj o) "properties")). rewrite Hp.
    cbn [mbind res_bind is_plain_object typeof is_array negb andb String.eqb Object_keys Ascii.eqb Bool.eqb].
    rewrite <-Hitems. unfold obj_keys. rewrite mapM_fmap.
    assert (∀ l, (∀ kv, kv ∈ l → kv ∈ props) →
      mapM (λ kv, p ← get (VObj props) kv.1; itemFromSchema form kv.1 p) l
      = mapM (λ kv, itemFromSchema form kv.1 kv.2) l) as H; [|by apply H].
    clear -Hwf. induction l as [|kv l IH]; intros Hl; [done|]. cbn [mapM].
    rewrite IH by (intros ??; by apply Hl, list_elem_of_further).
    cbn [get mbind res_bind]. unfold obj_lookup.
    rewrite (obj_get_elem kv.1 kv.2 props); [done|done|].
    destruct kv. apply Hl, list_elem_of_here.
  - rewrite (itemsToSchema_eq form items es Hes), Hnames, (zip_assign _ _ props) by done. done.
  - by apply zip_keys.
  - intros name e Hg. apply obj_get_Some_elem, list_elem_of_lookup in Hg as [i Hi'].
    destruct (Forall2_lookup_l _ _ _ _ _ HF Hi') as (item & Hit & e' & _ & He & Hr).
    destruct (Forall2_lookup_l _ _ _ _ _ HF2 Hit) as (e1 & He1 & He1').
    rewrite He in He1'. injection He1' as <-. exists e'. split; [|done].
    apply (obj_get_zip _ _ i); [apply Hwf| |done]. unfold obj_keys. by rewrite list_lookup_fmap, Hi'.
Qed.
End all_items.

(** ** Events and actions *)

(** [x?.k?.default] of the properties of an item. *)
Definition shownDefault (props : obj val) (k : string) : val :=
  field (field (VObj props) k) "default".

Lemma hasFields_ok fields : ∃ b, hasFields fields = Ok b ∧ (b = true → truthy fields = true).
Proof.
  unfold hasFields. destruct (truthy fields) eqn:Ht; [|by exists false]. cbn [negb].
  destruct fields; try done; cbn; eexists; (split; [done|]); done.
Qed.

Lemma fieldsSchema_ok fields : ∃ fs, fieldsSchema fields = Ok fs ∧ ∃ o, fs = VObj o ∧ obj_wf o.
Proof.
  unfold fieldsSchema. destruct (hasFields_ok fields) as (b & -> & Hb). cbn [mbind res_bind].
  assert (∃ n, (if b then get fields "length" else Ok VUndef) = Ok n) as (n & ->).
  { destruct b; [|by eexists]. specialize (Hb eq_refl). destruct fields; try done; by eexists. }
  cbn [mbind res_bind]. eexists. split; [done|]. apply obj_lit_wf.
Qed.

Lemma itemFromSchema_eq {T} (form : ItemForm T) name e base own props :
  item_schema (reserved form) e base own props →
  itemFromSchema form name e =
    make form name (textOf base) (json_text_2 (VObj (configProps own)))
      (view_of (ownReqs own) <$> keyProps (reserved form) props) (VObj props).
Proof.
  intros He. pose proof (keysSchema_model _ _ _ _ _ He) as Hk.
  destruct He as [(o & tl & -> & Ha) _ Hj Hp _ _]. unfold itemFromSchema. cbn [get]. unfold obj_lookup at 1.
  rewrite Ha. cbn [default id from_option mbind res_bind].
  change (get (VArr (base :: VObj own :: tl)) "0") with (Ok base). cbn [mbind res_bind].
  change (get (VArr (base :: VObj own :: tl)) "1") with (Ok (VObj own)). cbn [mbind res_bind].
  rewrite configText_eq by by apply json_value_wf. cbn [mbind res_bind].
  destruct (keysSchema (reserved form) (VObj own)) as [ks|]; [|done]. cbn [mbind res_bind] in *.
  rewrite Hk. cbn [mbind res_bind get]. unfold obj_lookup. by rewrite Hp.
Qed.

Lemma parseType_textOf base : json_value base → parseType (textOf base) = Ok base.
Proof.
  intros [Hj Hp]. assert (is_undef base = false) as Hu by by destruct base.
  assert (json_parse (json_text base) = Ok base) as H by (rewrite json_parse_text by done; by rewrite clone_json).
  unfold parseType, textOf, stringify. rewrite Hu. unfold js_or, truthy.
  destruct (json_text base) eqn:Ht; [by vm_compute in H|done].
Qed.

(** What an event becomes: the base stays, and an atomic event gets its fields. *)
Definition event_kept (e e' : val) : Prop :=
  ∀ base own props, item_schema ["type"; "actions"; "fields"] e base own props →
  ∃ own' fs, e' = itemWith base (VObj own') ∧
    fieldsSchema (js_or (shownDefault props "fields") (VArr [])) = Ok fs ∧
    kept_own ["type"; "actions"; "fields"] own props
      (if is_str (prop base "$ref") ATOMIC_REF then [("fields", fs)] else [])
      (if is_str (prop base "$ref") ATOMIC_REF then ["fields"] else []) own'.

(** What an action becomes: its base is the reference to an action, and it gets
    its fields and its priority. *)
Definition action_kept (e e' : val) : Prop :=
  ∀ base own props, item_schema ["type"; "fields"; "priority"] e base own props →
  ∃ own' fs, e' = itemWith (refTo ACTION_REF) (VObj own') ∧
    fieldsSchema (js_or (shownDefault props "fields") (VArr [])) = Ok fs ∧
    kept_own ["type"; "fields"; "priority"] own props
      [("fields", fs); ("priority", prioritySchema (js_or (shownDefault props "priority") (vint 1)))]
      ["fields"; "priority"] own'.

Lemma item_schema_unique reserved e b1 o1 p1 b2 o2 p2 :
  item_schema reserved e b1 o1 p1 → item_schema reserved e b2 o2 p2 → b1 = b2 ∧ o1 = o2 ∧ p1 = p2.
Proof.
  intros [(x & tl & -> & Ha) _ _ Hp _ _] [(y & tl' & [= <-] & Ha') _ _ Hp' _ _].
  rewrite Ha in Ha'. injection Ha' as <- <- _. rewrite Hp in Hp'. by injection Hp' as <-.
Qed.

Lemma falsy_default f : truthy f = false → js_or (field f "default") (VArr []) = VArr [].
Proof. by destruct f as [| |[]|[]|[]| |]. Qed.

Lemma shown_event name e base own props :
  item_schema ["type"; "actions"; "fields"] e base own props → is_obj base →
  ∃ item e', itemFromSchema eventForm name e = Ok item ∧ event_name item = name ∧
    itemSchema eventForm item = Ok e' ∧ event_kept e e'.
Proof.
  intros He Hb. pose proof (itemFromSchema_eq eventForm name e base own props He) as Hi.
  set (d := js_or (shownDefault props "fields") (VArr [])).
  set (item := mkEvent (json_text_2 (VObj (configProps own))) d
    (view_of (ownReqs own) <$> keyProps ["type"; "actions"; "fields"] props) name (textOf base)).
  assert (itemFromSchema eventForm name e = Ok item) as Hitem.
  { rewrite Hi. cbn [make eventForm reserved]. rewrite getq_field. cbn [mbind res_bind].
    unfold item, d, shownDefault. destruct (truthy (field (VObj props) "fields")) eqn:Ht.
    - by rewrite getq_field.
    - cbn [mbind res_bind]. rewrite falsy_default by done. unfold js_or. by rewrite Ht. }
  destruct (shown_own _ _ _ _ _ He) as (sch & own0 & Hs & Hsp & Hk0).
  assert (∃ own' fs, itemSchema eventForm item = Ok (itemWith base (VObj own')) ∧ fieldsSchema d = Ok fs ∧
    kept_own ["type"; "actions"; "fields"] own props
      (if is_str (prop base "$ref") ATOMIC_REF then [("fields", fs)] else [])
      (if is_str (prop base "$ref") ATOMIC_REF then ["fields"] else []) own')
    as (own' & fs & Hit & Hfs & Hk).
  { unfold itemSchema. cbn [baseOf eventForm event_type item itemKeys itemConfig event_keys event_config_fields].
    rewrite parseType_textOf by apply He. cbn [mbind res_bind]. rewrite Hs. cbn [mbind res_bind].
    rewrite parse_config by apply He. cbn [mbind res_bind]. rewrite Hsp. fold (itemWith base (VObj own0)).
    cbn [finishItem eventForm event_fields item get_path].
    change (get (itemWith base (VObj own0)) "allOf") with (Ok (VArr [base; VObj own0])). cbn [mbind res_bind].
    change (get (VArr [base; VObj own0]) "0") with (Ok base). cbn [mbind res_bind].
    rewrite get_is_obj by done. cbn [mbind res_bind].
    destruct (fieldsSchema_ok d) as (fs & Hfs & Hwf). rewrite Hfs.
    destruct (is_str (prop base "$ref") ATOMIC_REF); [|by exists own0, fs].
    destruct (kept_merge ["type"; "actions"; "fields"] own props [] [] own0 "fields" fs base) as (own1 & H1 & Hk1);
      [|apply not_elem_of_nil|apply obj_wf_nil|done|exact Hk0|];
      [apply (bool_decide_unpack _); by vm_compute|].
    destruct (kept_require _ _ _ _ _ _ "fields" base Hk1) as (own2 & H2 & Hk2).
    cbn [mbind res_bind]. rewrite H1. cbn [mbind res_bind]. rewrite H2. by exists own2, fs. }
  exists item, (itemWith base (VObj own')). split; [done|]. split; [done|]. split; [done|].
  intros b2 o2 p2 He2. destruct (item_schema_unique _ _ _ _ _ _ _ _ He He2) as (<- & <- & <-).
  by exists own', fs.
Qed.

Lemma shown_action name e base own props :
  item_schema ["type"; "fields"; "priority"] e base own props →
  ∃ item e', itemFromSchema actionForm name e = Ok item ∧ action_name item = name ∧
    itemSchema actionForm item = Ok e' ∧ action_kept e e'.
Proof.
  intros He. pose proof (itemFromSchema_eq actionForm name e base own props He) as Hi.
  set (d := js_or (shownDefault props "fields") (VArr [])).
  set (n := js_or (shownDefault props "priority") (vint 1)).
  set (item := mkAction (json_text_2 (VObj (configProps own))) d
    (view_of (ownReqs own) <$> keyProps ["type"; "fields"; "priority"] props) name (textOf base) n).
  assert (itemFromSchema actionForm name e = Ok item) as Hitem.
  { rewrite Hi. cbn [make actionForm reserved]. rewrite getq_field. cbn [mbind res_bind].
    rewrite getq_field. cbn [mbind res_bind]. rewrite getq_field. cbn [mbind res_bind]. by rewrite getq_field. }
  destruct (shown_own _ _ _ _ _ He) as (sch & own0 & Hs & Hsp & Hk0).
  destruct (fieldsSchema_ok d) as (fs & Hfs & Hwf).
  set (base' := refTo ACTION_REF).
  destruct (kept_merge ["type"; "fields"; "priority"] own props [] [] own0 "fields" fs base') as (own1 & H1 & Hk1);
    [|apply not_elem_of_nil|apply obj_wf_nil|done|exact Hk0|];
    [apply (bool_decide_unpack _); by vm_compute|].
  destruct (kept_merge ["type"; "fields"; "priority"] own props [("fields", fs)] [] own1 "priority" (prioritySchema n) base')
    as (own2 & H2 & Hk2); [| | |apply obj_lit_wf|exact Hk1|].
  { apply (bool_decide_unpack _); by vm_compute. }
  { by intros ?%list_elem_of_singleton. }
  { apply (obj_set_wf "fields" fs []), obj_wf_nil. }
  destruct (kept_require _ _ _ _ _ _ "fields" base' Hk2) as (own3 & H3 & Hk3).
  destruct (kept_require _ _ _ _ _ _ "priority" base' Hk3) as (own4 & H4 & Hk4).
  exists item, (itemWith base' (VObj own4)). split; [done|]. split; [done|]. split.
  - unfold itemSchema. cbn [baseOf actionForm item itemKeys itemConfig action_keys action_config_fields].
    cbn [mbind res_bind]. rewrite Hs. cbn [mbind res_bind]. rewrite parse_config by apply He.
    cbn [mbind res_bind]. rewrite Hsp. fold (itemWith base' (VObj own0)).
    cbn [finishItem actionForm action_fields action_priority item]. rewrite Hfs. cbn [mbind res_bind].
    change (obj_lit [("allOf", VArr [refTo ACTION_REF; VObj own0])]) with (itemWith base' (VObj own0)).
    rewrite H1. cbn [mbind res_bind].
    assert (js_or n (vint 1) = n) as -> by (unfold n, js_or; by destruct (truthy (shownDefault props "priority")) eqn:E; rewrite ?E).
    rewrite H2. cbn [mbind res_bind]. rewrite H3. cbn [mbind res_bind]. exact H4.
  - intros b2 o2 p2 He2. destruct (item_schema_unique _ _ _ _ _ _ _ _ He He2) as (<- & <- & <-).
    by exists own4, fs.
Qed.

(** C12: let every event of a schema consist of a base, which is an object, and
    of its own part, both plain JSON, and let the properties of its own part
    other than type, actions and fields — its keys — be objects with a type
    whose names contain no dot ([item_schema]).  Then showing the events in
    the form and reading the form back keeps every event under its name and in
    its place: its base, what its own part says besides type, properties and
    required names, its keys as the form shows them and which of them are
    required; an atomic event gets the schema of its fields, required.  No
    event is added.  (A key with a dot in its name is not kept: see
    [dotted_key_not_kept].) *)
Theorem form_keeps_events schema props :
  is_obj schema → prop schema "properties" = VObj props → obj_wf props →
  (∀ name e, (name, e) ∈ props →
    ∃ base own ps, item_schema ["type"; "actions"; "fields"] e base own ps ∧ is_obj base) →
  ∃ events props', getEventsModelFromSchema schema = Ok events ∧
    getEventsSchemaFromModel events = Ok (schema_form props' (obj_keys props) (Some false)) ∧
    obj_keys props' = obj_keys props ∧
    ∀ name e, obj_get name props = Some e → ∃ e', obj_get name props' = Some e' ∧ event_kept e e'.
Proof.
  intros Ho Hp Hwf Hi. apply (form_keeps_items eventForm (λ _, event_kept)); [done..|].
  intros name e Hin. destruct (Hi name e Hin) as (base & own & ps & He & Hb). by eapply shown_event.
Qed.

(** C13: let every action of a schema consist of a base and of its own part,
    both plain JSON, and let the properties of its own part other than type,
    fields and priority — its keys — be objects with a type whose names
    contain no dot ([item_schema]).  Then showing the actions in the form and
    reading the form back keeps every action under its name and in its place:
    it becomes a reference to an action with its keys as the form shows them,
    its fields and a priority that is its own minimum and maximum (1 when it
    had none), both required.  No action is added.  (A key with a dot in its
    name is not kept: see [dotted_key_not_kept].) *)
Theorem form_keeps_actions schema props :
  is_obj schema → prop schema "properties" = VObj props → obj_wf props →
  (∀ name e, (name, e) ∈ props →
    ∃ base own ps, item_schema ["type"; "fields"; "priority"] e base own ps) →
  ∃ actions props', getActionsModelFromSchema schema = Ok actions ∧
    getActionsSchemaFromModel actions = Ok (schema_form props' (obj_keys props) (Some false)) ∧
    obj_keys props' = obj_keys props ∧
    ∀ name e, obj_get name props = Some e → ∃ e', obj_get name props' = Some e' ∧ action_kept e e'.
Proof.
  intros Ho Hp Hwf Hi. apply (form_keeps_items actionForm (λ _, action_kept)); [done..|].
  intros name e Hin. destruct (Hi name e Hin) as (base & own & ps & He). by eapply shown_action.
Qed.

(** ** The theorems at concrete inputs *)

Definition samplePort : val := obj_lit [("type", VStr INTEGER); ("title", VStr "port")].

(** An item with the base [ref], one key, which is required, and a property
    that the form does not show as a key. *)
Definition sampleOwn (hidden : string) : obj val :=
  [("type", VStr OBJECT);
   ("properties", VObj [("port", samplePort); (hidden, obj_lit [("default", vstrs ["ip"])])]);
   ("required", vstrs ["port"]); ("ui", obj_lit [("legend", VStr "x")])].
Definition sampleItemSchema (ref : string) : val :=
  VObj [("allOf", VArr [refTo ref; VObj (sampleOwn "fields")])].

Lemma sampleItem_ok ref reserved :
  json_value (refTo ref) → includes "fields" reserved = true → includes "port" reserved = false →
  item_schema reserved (sampleItemSchema ref) (refTo ref) (sampleOwn "fields")
    [("port", samplePort); ("fields", obj_lit [("default", vstrs ["ip"])])].
Proof.
  intros Hr Hf Hp. split.
  - by exists [("allOf", VArr [refTo ref; VObj (sampleOwn "fields")])], [].
  - done.
  - split; vm_compute; reflexivity.
  - done.
  - repeat apply List.Forall_cons; [|simpl; by rewrite Hf|done].
    intros _. eexists. split; [reflexivity|]. by eexists.
  - cbn. rewrite Hf, Hp. cbn. unfold undotted. by repeat constructor.
Qed.

Definition twoEvents : obj val :=
  [("disk_full", sampleItemSchema ATOMIC_REF);
   ("many_disks_full", sampleItemSchema "#/definitions/events.aggregation")].
Definition twoActions : obj val := [("block", sampleItemSchema ACTION_REF)].

Lemma form_keeps_events_witness :
  ∃ events props', getEventsModelFromSchema (schema_form twoEvents [] (Some false)) = Ok events ∧
    getEventsSchemaFromModel events = Ok (schema_form props' ["disk_full"; "many_disks_full"] (Some false)) ∧
    ∃ e', obj_get "disk_full" props' = Some e' ∧ event_kept (sampleItemSchema ATOMIC_REF) e'.
Proof.
  destruct (form_keeps_events (schema_form twoEvents [] (Some false)) twoEvents)
    as (events & props' & H1 & H2 & _ & H3).
  - by eexists.
  - reflexivity.
  - apply (bool_decide_unpack _); vm_compute; reflexivity.
  - intros name e [[= -> ->]|[[= -> ->]|Hn%elem_of_nil]%elem_of_cons]%elem_of_cons; [| |done];
      (do 3 eexists; split; [apply sampleItem_ok; [split; vm_compute; reflexivity|reflexivity..]|by eexists]).
  - exists events, props'. split; [exact H1|]. split; [exact H2|]. by apply (H3 "disk_full").
Defined.

Lemma form_keeps_actions_witness :
  ∃ actions props', getActionsModelFromSchema (schema_form twoActions [] (Some false)) = Ok actions ∧
    getActionsSchemaFromModel actions = Ok (schema_form props' ["block"] (Some false)) ∧
    ∃ e', obj_get "block" props' = Some e' ∧ action_kept (sampleItemSchema ACTION_REF) e'.
Proof.
  destruct (form_keeps_actions (schema_form twoActions [] (Some false)) twoActions)
    as (actions & props' & H1 & H2 & _ & H3).
  - by eexists.
  - reflexivity.
  - apply (bool_decide_unpack _); vm_compute; reflexivity.
  - intros name e [[= -> ->]|Hn%elem_of_nil]%elem_of_cons; [|done].
    do 3 eexists. apply sampleItem_ok; [split; vm_compute; reflexivity|reflexivity..].
  - exists actions, props'. split; [exact H1|]. split; [exact H2|]. by apply (H3 "block").
Defined.

(** ** Names that are not sent or get lost *)

Definition sampleAction (key : string) : ActionConfigurationItem :=
  mkAction "{}" (VArr []) [mkItem key true (VStr STRING) "{}"] "block" (VStr "") (vint 2).

Definition keysReadBack (key : string) : res (list (list string)) :=
  schema ← getActionsSchemaFromModel [sampleAction key];
  items ← getActionsModelFromSchema schema;
  Ok ((λ a, names_of (action_keys a)) <$> (items : list ActionConfigurationItem)).

(** A key called [priority] is lost: the form takes it for its own property. *)
Example reserved_key_vanishes :
  keysReadBack "priority" = Ok [[]] ∧ keysReadBack "actions" = Ok [["actions"]].
Proof. split; vm_compute; reflexivity. Qed.

(** The lost key stays among the required names. *)
Definition requiredNames (key : string) : res val :=
  schema ← getActionsSchemaFromModel [sampleAction key];
  get_path schema ["properties"; "block"; "allOf"; "1"; "required"].

Example reserved_key_stays_required :
  requiredNames "priority" = Ok (vstrs ["priority"; "fields"; "priority"]).
Proof. vm_compute. reflexivity. Qed.

(** The names of the keys of an action with the keys [port] and [key], as they
    are shown and as they are shown again after the form was read. *)
Definition dottedAction (key : string) : val :=
  schema_form
    [("block", itemWith (refTo ACTION_REF) (VObj
       [("type", VStr OBJECT); ("properties", VObj [("port", samplePort); (key, samplePort)]);
        ("required", VArr [])]))] [] (Some false).
Definition keysShownTwice (key : string) : res (list (list string) * list (list string)) :=
  items ← getActionsModelFromSchema (dottedAction key);
  schema ← getActionsSchemaFromModel items;
  again ← getActionsModelFromSchema schema;
  Ok ((λ a, names_of (action_keys a)) <$> (items : list ActionConfigurationItem),
      (λ a, names_of (action_keys a)) <$> (again : list ActionConfigurationItem)).

(** Keys are shown by name and written by path: one with a dot in its name
    becomes a property of another key. *)
Example dotted_key_not_kept :
  keysShownTwice "low" = Ok ([["port"; "low"]], [["port"; "low"]]) ∧
  keysShownTwice "port.low" = Ok ([["port"; "port.low"]], [["port"]]).
Proof. split; vm_compute; reflexivity. Qed.

(** A default value never fits the type [none]. *)
Example type_none_never_fits :
  correctDefaultValue (json_text (obj_lit [("default", vint 1)])) (VStr "none") = Ok true.
Proof. vm_compute. reflexivity. Qed.

(** [null] passes for an object. *)
Example null_is_an_object : formItemFields "null" = Ok false ∧ formItemFields "[]" = Ok true.
Proof. split; vm_compute; reflexivity. Qed.
