(* ===== verification/FileTabs.v ===== *)
(** * The editor of a module's files

    [EditFileModalComponent] ([features/modules/src/lib/components/edit-file-modal]):
    tabs of opened files, whose texts come from [filesContent] of the module
    editor's store, their editors, and the requests to load and save.  The
    component follows the store: [follow] runs its subscriptions after an
    action.  The editor itself (Monaco) is a library; a tab records whether it
    has one. *)

From S2P Require Import Prelude JsString JsValue SharedUtils Localization FilesTree.
From S2P Require Import ModuleEditState ModuleEditReducer ModuleEditEffects.
From S2P Require ModuleEditFacade.
From Stdlib Require Import Ascii.

(** ** Tabs *)

Record Tab := mkTab {
  tabContent : val;
  extension : string;
  filename : string;
  filepath : string;
  tabPrefix : string;
  hasEditor : bool
}.

#[export] Instance Tab_eta : Eta Tab := ltac:(eta_of Tab).

(** [shown] is the value of [openedFiles$] that [pairwise] holds; the first one
    arrives with the subscription. *)
Record EditFileModal := mkModal {
  activeTabIndex : nat;
  openedTabs : list Tab;
  openedFiles : val;
  shown : val;
  store : State
}.

#[export] Instance EditFileModal_eta : Eta EditFileModal := ltac:(eta_of EditFileModal).

Definition getPrefixTab (filepath : string) : string :=
  match split slash filepath !! 2 with
  | Some "cmodule" => "A"
  | Some "smodule" => "S"
  | Some "bmodule" => "B"
  | _ => ""
  end.

Definition initTab (path : string) : Tab :=
  mkTab VUndef (List.last (split "."%char path) "") (List.last (split slash path) "") path
    (getPrefixTab path) false.

Definition activeTab (m : EditFileModal) : option Tab := openedTabs m !! activeTabIndex m.

(** [tab.content !== openedFiles[tab.filepath].content && openedFiles[tab.filepath].loaded]. *)
Definition is_changed (files : val) (tab : Tab) : res bool :=
  file ← get files (filepath tab);
  content ← get file "content";
  if strict_eq (tabContent tab) content then Ok false
  else loaded ← get file "loaded"; Ok (truthy loaded).

Definition changedTabs (m : EditFileModal) : res (list Tab) :=
  filterM (is_changed (openedFiles m)) (openedTabs m).

(** Whether [canSave] is truthy. *)
Definition canSave (m : EditFileModal) : res bool :=
  match activeTab m with
  | None => Ok false
  | Some tab =>
      file ← get (openedFiles m) (filepath tab);
      loaded ← getq file "loaded";
      content ← getq file "content";
      Ok (truthy loaded && negb (strict_eq (tabContent tab) content))
  end.

Definition removeTabByPath (path : string) (tabs : list Tab) : list Tab :=
  List.filter (λ item, negb (String.eqb path (filepath item))) tabs.

(** ** Subscriptions *)

(** Update the first tab of a file; without an editor this throws. *)
Fixpoint set_content (path : string) (text : val) (tabs : list Tab) : res (list Tab) :=
  match tabs with
  | [] => Ok []
  | tab :: tabs =>
      if String.eqb path (filepath tab) then
        if hasEditor tab then Ok ({ tab with tabContent := text } :: tabs) else Throw TypeError
      else tabs ← set_content path text tabs; Ok (tab :: tabs)
  end.

(** The subscription to pairs of [openedFiles$]: files that were not loaded
    before and are now go to their tabs. *)
Definition onFile (oldData data : val) (tabs : list Tab) (path : string) : res (list Tab) :=
  if existsb (λ tab, String.eqb path (filepath tab)) tabs then
    old ← get oldData path;
    wasLoaded ← getq old "loaded";
    new ← get data path;
    loaded ← (if truthy wasLoaded then Ok VUndef else get new "loaded");
    if truthy loaded then content ← get new "content"; set_content path content tabs
    else Ok tabs
  else Ok tabs.

Definition onOpenedFiles (oldData data : val) (tabs : list Tab) : res (list Tab) :=
  paths ← Object_keys data; foldM (onFile oldData data) tabs paths.

(** The subscription to [loadFileErrors$]. *)
Definition onLoadErrors (errors : val) (tabs : list Tab) : res (list Tab) :=
  paths ← Object_keys errors;
  Ok (foldl (λ tabs path, removeTabByPath path tabs) tabs paths).

(** The actions after which [loadFileErrors] is a new object. *)
Definition touches_errors (a : Action) : bool :=
  match a with loadFilesSuccess _ | loadFilesFailure _ | resetFile => true | _ => false end.

Definition follow (a : Action) (m : EditFileModal) (s : State) : res EditFileModal :=
  let data := filesContent s in
  tabs ← onOpenedFiles (shown m) data (openedTabs m);
  tabs ← (if touches_errors a then onLoadErrors (loadFileErrors s) tabs else Ok tabs);
  Ok (mkModal (activeTabIndex m) tabs data data s).

(** Dispatch an action, or receive one that an effect dispatched. *)
Definition dispatch (a : Action) (m : EditFileModal) : res EditFileModal :=
  s ← reducer (store m) a; follow a m s.

(** ** Operations *)

(** The requests name the module as the facade reads it. *)
Definition loadTabs (paths : list string) (m : EditFileModal) : res EditFileModal :=
  r ← ModuleEditFacade.moduleRef (store m); dispatch (loadFiles r.1 r.2 paths) m.

Definition saveItems (items : list FileItem) (m : EditFileModal) : res EditFileModal :=
  r ← ModuleEditFacade.moduleRef (store m); dispatch (saveFiles r.1 r.2 items) m.

(** [openFile]: select the tab of the file, or load it into a new one. *)
Definition openFile (path : string) (m : EditFileModal) : res EditFileModal :=
  match list_find (λ tab, filepath tab = path) (openedTabs m) with
  | Some (tabIndex, _) => Ok { m with activeTabIndex := tabIndex }
  | None =>
      m ← loadTabs [path] m;
      let tabs := openedTabs m ++ [initTab path] in
      Ok { m with openedTabs := tabs; activeTabIndex := length tabs - 1 }
  end.

(** The timer of [openFile]: the tab that is active then gets the editor. *)
Definition initEditor (m : EditFileModal) : res EditFileModal :=
  match activeTab m with
  | None => Throw TypeError
  | Some tab =>
      Ok { m with openedTabs := <[activeTabIndex m := { tab with hasEditor := true }]> (openedTabs m) }
  end.

(** The user edits the text in the editor of a tab. *)
Definition editTab (i : nat) (text : string) (m : EditFileModal) : EditFileModal :=
  match openedTabs m !! i with
  | Some tab => { m with openedTabs := <[i := { tab with tabContent := VStr text }]> (openedTabs m) }
  | None => m
  end.

Definition tab_text (tab : Tab) : res string :=
  match tabContent tab with VStr s => Ok s | _ => Throw Unsupported end.

(** The translations to store when the text uses keys that are not among them. *)
Definition newTranslations (module : val) (text : string) : res (option val) :=
  match localizationKeys CODE_MARK text with
  | [] => Ok None
  | keys =>
      ui ← get_path module ["locale"; "ui"];
      names ← Object_keys ui;
      let newLocalizationKeys := newKeys keys names in
      Ok (if bool_decide (newLocalizationKeys = []) then None
          else Some (sortedKeys newLocalizationKeys ui))
  end.

Definition saveFileInTab (tab : Tab) (m : EditFileModal) : res EditFileModal :=
  text ← tab_text tab;
  ui ← newTranslations (module (store m)) text;
  m ← match ui with
      | Some ui => dispatch (updateLocalizationModel (obj_lit [("ui", ui)])) m
      | None => Ok m
      end;
  saveItems [mkFileItem (filepath tab) text] m.

(** [closeTab]: with [confirm] the user is asked, and [answer] is what is
    clicked ([Some true] to save, [Some false] not to, [None] to cancel). *)
Definition closeTab (tab : Tab) (confirm : bool) (answer : option bool) (m : EditFileModal) :
    res EditFileModal :=
  let close m :=
    m ← dispatch (closeFiles [filepath tab]) m;
    Ok { m with openedTabs := removeTabByPath (filepath tab) (openedTabs m) } in
  if confirm then
    match answer with
    | Some true => saveFileInTab tab m
    | Some false => close m
    | None => Ok m
    end
  else close m.

(** [synchronize]: load all opened files again. *)
Definition synchronize (m : EditFileModal) : res EditFileModal :=
  loadTabs (filepath <$> openedTabs m) m.

(** After the dialog is closed. *)
Definition afterClose (m : EditFileModal) : res EditFileModal :=
  dispatch resetFile { m with openedTabs := [] }.

(** The button that closes the dialog.  With unsaved files the user is asked
    ([answer] as in [closeTab]); saving them closes the dialog when the answer
    has arrived without errors. *)
Definition onCancel (answer : option bool) (m : EditFileModal) : res EditFileModal :=
  changed ← changedTabs m;
  match changed, answer with
  | [], _ | _, Some false => afterClose m
  | _, None => Ok m
  | _, Some true =>
      items ← mapM (λ tab, text ← tab_text tab; Ok (mkFileItem (filepath tab) text)) changed;
      saveItems items m
  end.

(** The listener of key presses: Ctrl+S saves the active tab, and throws when
    there is none. *)
Definition onSaveKey (m : EditFileModal) : res EditFileModal :=
  match activeTab m with
  | Some tab => saveFileInTab tab m
  | None => Throw TypeError
  end.

(** ** Sessions of the dialog *)

(** What happens: the user's clicks and edits, by the place of a tab, the timer
    of [openFile], and actions that the effects dispatch. *)
Inductive Event :=
| Open (path : string)
| Timer
| Edit (i : nat) (text : string)
| Select (i : nat)
| CloseTab (i : nat) (confirm : bool) (answer : option bool)
| SaveTab (i : nat)
| Synchronize
| Cancel (answer : option bool)
| Closed
| Receive (a : Action).

(** The actions of the effects for files. *)
Definition file_answer (a : Action) : bool :=
  match a with
  | loadFilesSuccess _ | loadFilesFailure _ | saveFilesSuccess _ | saveFilesFailure _ => true
  | _ => false
  end.

Definition on_tab (i : nat) (f : Tab → EditFileModal → res EditFileModal) (m : EditFileModal) :
    res EditFileModal :=
  match openedTabs m !! i with Some tab => f tab m | None => Ok m end.

Definition step (m : EditFileModal) (e : Event) : res EditFileModal :=
  match e with
  | Open path => openFile path m
  | Timer => initEditor m
  | Edit i text => Ok (editTab i text m)
  | Select i => Ok { m with activeTabIndex := i }
  | CloseTab i confirm answer => on_tab i (λ tab, closeTab tab confirm answer) m
  | SaveTab i => on_tab i saveFileInTab m
  | Synchronize => synchronize m
  | Cancel answer => onCancel answer m
  | Closed => afterClose m
  | Receive a => if file_answer a then dispatch a m else Ok m
  end.

(** The dialog when the component starts: no tabs, and [openedFiles] is not set
    before the store changes. *)
Definition start (s : State) : EditFileModal := mkModal 0 [] VUndef (filesContent s) s.
