(* ===== verification/FileTabTheorems.v ===== *)
(** * Facts about the editor of files

    What the subscriptions do to the tabs, and which states of the dialog are
    consistent with the store. *)

From stdpp Require Import list sorting.
From Stdlib Require Import Ascii.
From S2P Require Import Prelude JsString JsValue JsJson SharedUtils Localization NameMaps.
From S2P Require Import ModuleEditState.
From S2P Require Import ModuleEditFields ModuleEditReducer FilesTree FileTabs.
From S2P Require Import ModuleEditDefaults.
From S2P Require Import ModuleEditOperations ModuleEditSamples.

(** ** The contents of files *)

(** A map from paths to objects. *)
Definition contents_ok (v : val) : Prop :=
  ∃ o, v = VObj o ∧ obj_wf o ∧ Forall (λ kv, is_obj kv.2 ∧ is_json kv.2 = true) o.

Lemma contents_nil : contents_ok (VObj []).
Proof. exists []. split; [done|]. split; [apply obj_wf_nil|done]. Qed.

Lemma contents_get v k : contents_ok v → k ∈ keys_of v → is_obj (prop v k).
Proof.
  intros (o & -> & _ & HF) Hk. apply elem_of_obj_keys in Hk as [x Hx].
  unfold prop, obj_lookup. rewrite Hx. apply obj_get_Some_elem in Hx.
  rewrite Forall_forall in HF. by apply (HF (k, x)).
Qed.

Lemma contents_spread v kvs :
  contents_ok v → Forall (λ kv, is_obj kv.2 ∧ is_json kv.2 = true) kvs →
  contents_ok (spread2 v (obj_lit kvs)).
Proof.
  intros (o & -> & Hwf & HF) Hk. exists (obj_assign o (obj_assign [] kvs)). split; [done|].
  split; [by apply obj_assign_wf|]. apply Forall_obj_assign; [done|]. by apply Forall_obj_assign.
Qed.

Lemma contents_json v : contents_ok v → is_json v = true.
Proof.
  intros (o & -> & Hwf & HF). apply is_json_obj. split; [done|]. eapply Forall_impl; [done|]. by intros kv [].
Qed.

Lemma contents_del v ks w :
  contents_ok v → foldM del v ks = Ok w → contents_ok w ∧ ∀ k, k ∈ keys_of w ↔ k ∉ ks ∧ k ∈ keys_of v.
Proof.
  revert v. induction ks as [|k1 ks IH]; intros v Hv H.
  { injection H as <-. split; [done|]. intros k. rewrite (elem_of_nil k). tauto. }
  destruct Hv as (o & -> & Hwf & HF). cbn [foldM del mbind res_bind] in H.
  apply IH in H as [Hw Hk].
  - split; [done|]. intros k. rewrite Hk, elem_of_cons. cbn [keys_of]. rewrite obj_keys_del. tauto.
  - exists (obj_del k1 o). split; [done|]. split; [by apply obj_del_wf|by apply Forall_obj_del].
Qed.

(** ** Subscriptions *)

(** The file of a tab was not loaded before and is now. *)
Definition newly_loaded (old new : val) (path : string) : bool :=
  negb (truthy (prop (prop old path) "loaded")) && truthy (prop (prop new path) "loaded").

Definition synced (old new : val) (tab : Tab) : Tab :=
  if newly_loaded old new (filepath tab)
  then { tab with tabContent := prop (prop new (filepath tab)) "content" } else tab.

Lemma filepath_synced old new tab : filepath (synced old new tab) = filepath tab.
Proof. unfold synced. by destruct (newly_loaded _ _ _). Qed.

Lemma set_content_paths path text tabs tabs' :
  set_content path text tabs = Ok tabs' → filepath <$> tabs' = filepath <$> tabs.
Proof.
  revert tabs'. induction tabs as [|tab tabs IH]; intros tabs' H; [by injection H as <-|].
  cbn [set_content] in H. destruct (String.eqb path (filepath tab)).
  - destruct (hasEditor tab); [|done]. by injection H as <-.
  - apply bind_Ok_inv in H as (t & Ht & [= <-]). by rewrite !fmap_cons, (IH t).
Qed.

Lemma onFile_paths old new tabs path tabs' :
  onFile old new tabs path = Ok tabs' → filepath <$> tabs' = filepath <$> tabs.
Proof.
  unfold onFile. intros H. destruct (existsb _ _); [|by injection H as <-].
  apply bind_Ok_inv in H as (o & _ & H). apply bind_Ok_inv in H as (w & _ & H).
  apply bind_Ok_inv in H as (n & _ & H). apply bind_Ok_inv in H as (l & _ & H).
  destruct (truthy l); [|by injection H as <-]. apply bind_Ok_inv in H as (x & _ & H).
  by apply set_content_paths in H.
Qed.

Lemma onOpenedFiles_paths old new tabs tabs' :
  onOpenedFiles old new tabs = Ok tabs' → filepath <$> tabs' = filepath <$> tabs.
Proof.
  intros (paths & _ & H)%bind_Ok_inv. revert H.
  apply (foldM_inv (λ t, filepath <$> t = filepath <$> tabs)); [|done].
  intros t path t' _ Ht H. apply onFile_paths in H. congruence.
Qed.

Lemma set_content_map path text tabs :
  NoDup (filepath <$> tabs) →
  (∀ tab, tab ∈ tabs → filepath tab = path → hasEditor tab = true) →
  set_content path text tabs
  = Ok ((λ tab, if String.eqb path (filepath tab) then { tab with tabContent := text } else tab) <$> tabs).
Proof.
  induction tabs as [|tab tabs IH]; intros Hnd He; [done|]. rewrite fmap_cons in Hnd. rewrite fmap_cons.
  apply NoDup_cons in Hnd as [Hn Hnd]. cbn [set_content].
  destruct (String.eqb_spec path (filepath tab)) as [->|Hne].
  - rewrite (He tab) by (done || apply list_elem_of_here). do 2 f_equal.
    rewrite <-(list_fmap_id tabs) at 1. apply list_fmap_ext. intros j t Hj.
    destruct (String.eqb_spec (filepath tab) (filepath t)) as [Heq|]; [|done].
    destruct Hn. rewrite Heq. apply list_elem_of_fmap_2. by eapply list_elem_of_lookup_2.
  - rewrite IH; [done|done|]. intros t Ht. apply He. by apply list_elem_of_further.
Qed.

Lemma existsb_path path tabs :
  existsb (λ tab, String.eqb path (filepath tab)) tabs = includes path (filepath <$> tabs).
Proof.
  unfold includes. apply eq_bool_prop_intro. rewrite bool_decide_spec.
  induction tabs as [|tab tabs IH]; simpl; [by split; [|intros ?%elem_of_nil]|].
  rewrite elem_of_cons, <-IH. destruct (String.eqb_spec path (filepath tab)); simpl; naive_solver.
Qed.

Lemma fmap_same {A} (f : A → A) (l : list A) : (∀ x, x ∈ l → f x = x) → f <$> l = l.
Proof.
  intros Hf. rewrite <-(list_fmap_id l) at 2. apply list_fmap_ext. intros j x Hj.
  apply Hf. by eapply list_elem_of_lookup_2.
Qed.

(** The values the subscription reads. *)
Lemma getq_loaded old p :
  contents_ok old → getq (prop old p) "loaded" = Ok (prop (prop old p) "loaded").
Proof.
  intros Hold. destruct (decide (p ∈ keys_of old)) as [Hk|Hk].
  - destruct (contents_get old p Hold Hk) as [x ->]. done.
  - destruct Hold as (o & -> & _). cbn [keys_of] in Hk. rewrite elem_of_obj_keys in Hk.
    unfold prop, obj_lookup. destruct (obj_get p o); [destruct Hk; by eexists|done].
Qed.

Lemma newly_loaded_key old new p : newly_loaded old new p = true → p ∈ keys_of new.
Proof.
  unfold newly_loaded. intros [_ Ht]%andb_true_iff. destruct new as [| | | | | |n]; try done.
  apply elem_of_obj_keys. unfold prop, obj_lookup in Ht. destruct (obj_get p n); [by eexists|done].
Qed.

(** One file, when its tab has an editor. *)
Definition synced_at (p : string) (old new : val) (tab : Tab) : Tab :=
  if String.eqb p (filepath tab) then synced old new tab else tab.

Lemma onFile_synced old new tabs p :
  contents_ok old → contents_ok new → p ∈ keys_of new → NoDup (filepath <$> tabs) →
  (∀ tab, tab ∈ tabs → newly_loaded old new (filepath tab) = true → hasEditor tab = true) →
  onFile old new tabs p = Ok (synced_at p old new <$> tabs).
Proof.
  intros Hold Hnew Hp Hnd He. unfold onFile. rewrite existsb_path. unfold includes.
  case_bool_decide as Hpt.
  - pose proof (contents_get new p Hnew Hp) as Hpo.
    rewrite !get_is_obj by (destruct Hold as (? & -> & _), Hnew as (? & -> & _); by eexists).
    cbn [mbind res_bind]. rewrite getq_loaded by done. cbn [mbind res_bind].
    assert (synced_at p old new <$> tabs
      = if newly_loaded old new p
        then (λ tab, if String.eqb p (filepath tab)
                     then { tab with tabContent := prop (prop new p) "content" } else tab) <$> tabs
        else tabs) as ->.
    { destruct (newly_loaded old new p) eqn:Hl.
      - apply list_fmap_ext. intros j t _. unfold synced_at, synced.
        destruct (String.eqb_spec p (filepath t)) as [->|]; [by rewrite Hl|done].
      - apply fmap_same. intros t _. unfold synced_at, synced.
        destruct (String.eqb_spec p (filepath t)) as [<-|]; [by rewrite Hl|done]. }
    unfold newly_loaded. rewrite !get_is_obj by done.
    destruct (truthy (prop (prop old p) "loaded")) eqn:Ho; [done|]. cbn [negb andb mbind res_bind].
    destruct (truthy (prop (prop new p) "loaded")) eqn:Hn; [|done].
    rewrite set_content_map; [done|done|]. intros tab Ht Hf. apply He; [done|].
    unfold newly_loaded. by rewrite Hf, Ho, Hn.
  - f_equal. symmetry. apply fmap_same. intros t Ht. unfold synced_at.
    destruct (String.eqb_spec p (filepath t)) as [->|]; [|done].
    destruct Hpt. by apply list_elem_of_fmap_2.
Qed.

Lemma filepaths_synced_at p old new (tabs : list Tab) :
  filepath <$> (synced_at p old new <$> tabs) = filepath <$> tabs.
Proof.
  rewrite <-list_fmap_compose. apply list_fmap_ext. intros j t _. cbn. unfold synced_at.
  destruct (String.eqb p (filepath t)); [apply filepath_synced|done].
Qed.

Lemma filepaths_synced old new (tabs : list Tab) :
  filepath <$> (synced old new <$> tabs) = filepath <$> tabs.
Proof.
  rewrite <-list_fmap_compose. apply list_fmap_ext. intros j t _. apply filepath_synced.
Qed.

Lemma synced_twice old new tab : synced old new (synced old new tab) = synced old new tab.
Proof.
  unfold synced at 1. rewrite filepath_synced. unfold synced.
  by destruct (newly_loaded old new (filepath tab)).
Qed.

Lemma hasEditor_synced old new tab : hasEditor (synced old new tab) = hasEditor tab.
Proof. unfold synced. by destruct (newly_loaded _ _ _). Qed.

Lemma onFiles_synced old new paths tabs :
  contents_ok old → contents_ok new → Forall (λ p, p ∈ keys_of new) paths → NoDup (filepath <$> tabs) →
  (∀ tab, tab ∈ tabs → newly_loaded old new (filepath tab) = true → hasEditor tab = true) →
  foldM (onFile old new) tabs paths
  = Ok ((λ tab, if includes (filepath tab) paths then synced old new tab else tab) <$> tabs).
Proof.
  intros Hold Hnew HF. revert tabs. induction HF as [|p paths Hp _ IH]; intros tabs Hnd He.
  - cbn [foldM]. f_equal. symmetry. by apply fmap_same.
  - cbn [foldM]. rewrite onFile_synced by done. cbn [mbind res_bind]. rewrite IH.
    + f_equal. rewrite <-list_fmap_compose. apply list_fmap_ext. intros j t _. cbn.
      unfold includes. rewrite (bool_decide_ext (filepath t ∈ p :: paths) (filepath t = p ∨ filepath t ∈ paths))
        by apply elem_of_cons. unfold synced_at.
      destruct (String.eqb_spec p (filepath t)) as [->|Hne].
      * rewrite filepath_synced, synced_twice. rewrite (bool_decide_true (_ ∨ _)) by by left.
        by destruct (bool_decide _).
      * rewrite (bool_decide_ext (filepath t = p ∨ filepath t ∈ paths) (filepath t ∈ paths)); [done|].
        naive_solver.
    + by rewrite filepaths_synced_at.
    + intros tab (t & -> & Ht)%list_elem_of_fmap. unfold synced_at.
      destruct (String.eqb p (filepath t)); [|by apply He].
      rewrite filepath_synced, hasEditor_synced. by apply He.
Qed.

(** With editors in place, every tab whose file is loaded gets its text. *)
Lemma onOpenedFiles_synced old new tabs :
  contents_ok old → contents_ok new → NoDup (filepath <$> tabs) →
  (∀ tab, tab ∈ tabs → newly_loaded old new (filepath tab) = true → hasEditor tab = true) →
  onOpenedFiles old new tabs = Ok (synced old new <$> tabs).
Proof.
  intros Hold Hnew Hnd He. pose proof Hnew as (n & -> & _).
  unfold onOpenedFiles. cbn [Object_keys mbind res_bind].
  rewrite onFiles_synced; [|done|done|by apply Forall_forall|done|done].
  f_equal. apply list_fmap_ext. intros j t _. unfold includes. case_bool_decide as Hk; [done|].
  unfold synced. destruct (newly_loaded old (VObj n) (filepath t)) eqn:Hl; [|done].
  apply newly_loaded_key in Hl. done.
Qed.

(** ** Consistent states *)

Record consistent (m : EditFileModal) : Prop := {
  c_contents : contents_ok (filesContent (store m));
  c_shown : shown m = filesContent (store m);
  c_paths : NoDup (filepath <$> openedTabs m);
  c_files : Forall (λ p, p ∈ keys_of (filesContent (store m))) (filepath <$> openedTabs m);
  c_opened : openedTabs m = [] ∨ openedFiles m = filesContent (store m)
}.

Lemma removeTab_paths p tabs :
  filepath <$> removeTabByPath p tabs = filter (λ q, q ≠ p) (filepath <$> tabs).
Proof.
  unfold removeTabByPath. induction tabs as [|tab tabs IH]; [done|]. cbn [List.filter].
  rewrite fmap_cons, filter_cons. destruct (String.eqb_spec p (filepath tab)) as [->|Hne]; cbn [negb].
  - by rewrite decide_False by (intros Hn; by apply Hn).
  - rewrite decide_True by congruence. by rewrite fmap_cons, IH.
Qed.

Lemma onLoadErrors_paths errors tabs tabs' :
  onLoadErrors errors tabs = Ok tabs' → sublist (filepath <$> tabs') (filepath <$> tabs).
Proof.
  intros (paths & _ & [= <-])%bind_Ok_inv. revert tabs.
  induction paths as [|p paths IH]; intros tabs; [done|]. cbn [foldl].
  etransitivity; [apply IH|]. rewrite removeTab_paths. apply sublist_filter.
Qed.

Lemma follow_spec a m s m' :
  follow a m s = Ok m' →
  sublist (filepath <$> openedTabs m') (filepath <$> openedTabs m) ∧
  openedFiles m' = filesContent s ∧ shown m' = filesContent s ∧ store m' = s.
Proof.
  intros (tabs & H1 & (tabs' & H2 & [= <-])%bind_Ok_inv)%bind_Ok_inv.
  split; [|done]. apply onOpenedFiles_paths in H1. cbn [openedTabs]. rewrite <-H1.
  destruct (touches_errors a); [by eapply onLoadErrors_paths|by injection H2 as <-].
Qed.

(** Actions that forget no contents. *)
Definition growing (a : Action) : bool :=
  match a with
  | loadFiles _ _ _ | loadFilesSuccess _ | loadFilesFailure _ | saveFiles _ _ _
  | saveFilesSuccess _ | saveFilesFailure _ | updateLocalizationModel _ => true
  | _ => false
  end.

Lemma keyed_contents {A} (key : A → string) (value : A → val) v items :
  contents_ok v → (∀ x, is_obj (value x) ∧ is_json (value x) = true) →
  contents_ok (spread2 v (keyed key value items))
  ∧ (∀ k, k ∈ keys_of v → k ∈ keys_of (spread2 v (keyed key value items)))
  ∧ (∀ x, x ∈ items → key x ∈ keys_of (spread2 v (keyed key value items))).
Proof.
  intros Hv Hval. unfold keyed. split; [|split].
  - apply contents_spread; [done|]. apply Forall_forall. intros kv (x & -> & _)%list_elem_of_fmap. apply Hval.
  - intros k Hk. unfold spread2. apply keys_of_spread. left.
    by destruct Hv as (o & -> & _).
  - intros x Hx. unfold spread2. apply keys_of_spread. right. cbn [obj_lit own_props].
    apply obj_keys_assign. right. unfold obj_keys. rewrite <-list_fmap_compose.
    by apply (list_elem_of_fmap_2 key).
Qed.

Lemma reducer_growing a s s' :
  growing a = true → contents_ok (filesContent s) → reducer s a = Ok s' →
  contents_ok (filesContent s') ∧ ∀ k, k ∈ keys_of (filesContent s) → k ∈ keys_of (filesContent s').
Proof.
  intros Hg Hc H. unfold reducer in H. destruct a; try done;
    cbn [on_loading on_operations on_sections on_files mbind res_bind on_dependencyData on_state] in H.
  - unfold on_updateLocalizationModel in H. inv_res. done.
  - injection H as <-. cbn [on_loadFiles]. 
    destruct (keyed_contents (λ p, p) (λ _, fileContent false "") (filesContent s) paths Hc) as (H1 & H2 & _); [|done].
    intros _. split; [by eexists|done].
  - unfold on_loadFilesSuccess in H. inv_res.
    destruct (keyed_contents path (λ item, fileContent true (content item)) (filesContent s) files Hc) as (H1 & H2 & _); [|done].
    intros x. split; [by eexists|done].
  - injection H as <-. done.
  - injection H as <-. done.
  - unfold on_saveFilesSuccess in H. inv_res.
    destruct (keyed_contents path (λ item, obj_lit [("content", VStr (content item)); ("loaded", VBool true)])
      (filesContent s) files Hc) as (H1 & H2 & _); [|done].
    intros x. split; [by eexists|done].
  - injection H as <-. done.
Qed.

Lemma Forall_sublist_of {A} (P : A → Prop) l1 l2 : sublist l1 l2 → Forall P l2 → Forall P l1.
Proof. rewrite !Forall_forall. intros Hs HF x Hx. apply HF. by eapply elem_of_sublist. Qed.

Lemma follow_consistent a m s m' :
  consistent m → contents_ok (filesContent s) →
  Forall (λ p, p ∈ keys_of (filesContent s)) (filepath <$> openedTabs m) →
  follow a m s = Ok m' → consistent m'.
Proof.
  intros Hm Hc Hk H. apply follow_spec in H as (Hs & Ho & Hsh & Hst). subst s. split; try done.
  - eapply sublist_NoDup; [apply (c_paths _ Hm)|exact Hs].
  - by eapply Forall_sublist_of.
  - by right.
Qed.

Lemma dispatch_growing a m m' :
  growing a = true → consistent m → dispatch a m = Ok m' →
  consistent m' ∧ sublist (filepath <$> openedTabs m') (filepath <$> openedTabs m)
  ∧ ∃ s, reducer (store m) a = Ok s ∧ store m' = s ∧ openedFiles m' = filesContent s.
Proof.
  intros Hg Hm (s & Hs & Hf)%bind_Ok_inv.
  destruct (reducer_growing a (store m) s Hg (c_contents _ Hm) Hs) as [Hc Hk].
  split; [|apply follow_spec in Hf as (Hsub & Ho & _ & Hst); split; [done|]; by exists s].
  eapply follow_consistent; [exact Hm|done| |exact Hf].
  eapply Forall_impl; [apply (c_files _ Hm)|]. intros p. apply Hk.
Qed.

Lemma consistent_start s : contents_ok (filesContent s) → consistent (start s).
Proof. intros Hc. split; [done|done|constructor|constructor|by left]. Qed.

(** Changes of the dialog that keep the files of the tabs. *)
Lemma consistent_tabs m i tabs :
  consistent m → filepath <$> tabs = filepath <$> openedTabs m →
  consistent (mkModal i tabs (openedFiles m) (shown m) (store m)).
Proof.
  intros [H1 H2 H3 H4 H5] Hp. split; cbn [openedTabs store shown openedFiles]; try done; rewrite ?Hp; try done.
  destruct H5 as [H5|H5]; [left|by right]. rewrite H5 in Hp. by destruct tabs.
Qed.

Lemma consistent_sub m i tabs :
  consistent m → sublist (filepath <$> tabs) (filepath <$> openedTabs m) →
  consistent (mkModal i tabs (openedFiles m) (shown m) (store m)).
Proof.
  intros [H1 H2 H3 H4 H5] Hp. split; cbn [openedTabs store shown openedFiles]; try done.
  - by eapply sublist_NoDup.
  - by eapply Forall_sublist_of.
  - destruct H5 as [H5|H5]; [left|by right]. rewrite H5 in Hp. apply sublist_nil_r in Hp. by destruct tabs.
Qed.

Lemma insert_paths i tab tab' (tabs : list Tab) :
  tabs !! i = Some tab → filepath tab' = filepath tab →
  filepath <$> <[i := tab']> tabs = filepath <$> tabs.
Proof.
  intros Hi Hp. rewrite list_fmap_insert, Hp. apply list_insert_id. by rewrite list_lookup_fmap, Hi.
Qed.

Lemma loadTabs_consistent paths m m' :
  consistent m → loadTabs paths m = Ok m' →
  consistent m' ∧ sublist (filepath <$> openedTabs m') (filepath <$> openedTabs m)
  ∧ Forall (λ p, p ∈ keys_of (filesContent (store m'))) paths
  ∧ openedFiles m' = filesContent (store m').
Proof.
  intros Hm (r & _ & H)%bind_Ok_inv.
  apply dispatch_growing in H as (Hc & Hs & s & Hr & Hst & Ho); [|done|done].
  split; [done|]. split; [done|]. rewrite Hst. split; [|done].
  unfold reducer in Hr. cbn [on_loading on_operations on_sections on_files mbind res_bind
    on_dependencyData on_state] in Hr. injection Hr as <-.
  apply Forall_forall. intros p Hp.
  apply (keyed_contents (λ p, p) (λ _, fileContent false "") (filesContent (store m)) paths (c_contents _ Hm));
    [intros _; split; [by eexists|done]|done].
Qed.

Lemma openFile_consistent path m m' : consistent m → openFile path m = Ok m' → consistent m'.
Proof.
  intros Hm. unfold openFile. destruct (list_find _ _) as [[i tab]|] eqn:Hf.
  - intros [= <-]. by apply (consistent_tabs m i (openedTabs m)).
  - intros (m1 & H1 & [= <-])%bind_Ok_inv.
    apply loadTabs_consistent in H1 as ([G1 G2 G3 G4 _] & Hs & Hk & Ho); [|done].
    assert (path ∉ filepath <$> openedTabs m1) as Hn.
    { intros Hin. eapply elem_of_sublist in Hin; [|exact Hs].
      apply list_elem_of_fmap in Hin as (t & -> & Ht). apply list_find_None in Hf.
      rewrite Forall_forall in Hf. by apply (Hf t Ht). }
    assert (filepath <$> (openedTabs m1 ++ [initTab path]) = (filepath <$> openedTabs m1) ++ [path]) as Hp
      by (rewrite fmap_app; done).
    split; cbn [openedTabs store shown openedFiles]; unfold constant; rewrite ?Hp; try done.
    + apply NoDup_app. split; [done|]. split; [|apply NoDup_singleton].
      by intros p Hin ->%list_elem_of_singleton.
    + apply Forall_app. split; [done|]. apply List.Forall_cons; [by apply (Forall_inv Hk)|done].
    + by right.
Qed.

Lemma saveItems_consistent items m m' : consistent m → saveItems items m = Ok m' → consistent m'.
Proof. intros Hm (r & _ & H)%bind_Ok_inv. by apply dispatch_growing in H as [? _]. Qed.

Lemma saveFileInTab_consistent tab m m' : consistent m → saveFileInTab tab m = Ok m' → consistent m'.
Proof.
  intros Hm (text & _ & (ui & _ & (m1 & H1 & H)%bind_Ok_inv)%bind_Ok_inv)%bind_Ok_inv.
  assert (consistent m1) as Hm1.
  { destruct ui; [|by injection H1 as <-]. by apply dispatch_growing in H1 as [? _]. }
  by eapply saveItems_consistent.
Qed.

Lemma afterClose_consistent m m' : consistent m → afterClose m = Ok m' → consistent m'.
Proof.
  intros Hm (s & Hs & H)%bind_Ok_inv.
  unfold reducer in Hs. cbn [on_loading on_operations on_sections on_files mbind res_bind
    on_dependencyData on_state] in Hs. injection Hs as <-.
  refine (follow_consistent _ _ _ _ _ _ _ H); [|apply contents_nil|constructor].
  apply (consistent_sub m (activeTabIndex m) []); [done|]. apply sublist_nil_l.
Qed.

Lemma closeFile_consistent path m m1 :
  consistent m → dispatch (closeFiles [path]) m = Ok m1 →
  consistent { m1 with openedTabs := removeTabByPath path (openedTabs m1) }.
Proof.
  intros Hm (s & Hs & H)%bind_Ok_inv.
  unfold reducer in Hs. cbn [on_loading on_operations on_sections on_files mbind res_bind
    on_dependencyData on_state] in Hs.
  apply bind_Ok_inv in Hs as (s1 & Hs1 & Hs). injection Hs as Hs. subst s.
  apply bind_Ok_inv in Hs1 as (content & Hcont & Hs1). injection Hs1 as Hs1.
  assert (filesContent s1 = content) as Hfc by by rewrite <-Hs1. clear Hs1. subst content.
  rewrite clone_json in Hcont by apply contents_json, Hm.
  apply contents_del in Hcont as [Hc Hk]; [|apply Hm].
  apply follow_spec in H as (Hsub & Ho & Hsh & Hst).
  change (consistent (mkModal (activeTabIndex m1) (removeTabByPath path (openedTabs m1))
    (openedFiles m1) (shown m1) (store m1))).
  split; cbn [openedTabs store shown openedFiles]; rewrite ?Hst, ?removeTab_paths; try done.
  - apply NoDup_filter. eapply sublist_NoDup; [apply (c_paths _ Hm)|exact Hsub].
  - apply Forall_forall. intros p [Hne Hp]%list_elem_of_filter. apply Hk.
    split; [by intros ->%list_elem_of_singleton|].
    pose proof (c_files _ Hm) as HF. rewrite Forall_forall in HF. apply HF. by eapply elem_of_sublist.
  - by right.
Qed.

(** Every step keeps the dialog consistent with the store. *)
Lemma step_consistent m e m' : consistent m → step m e = Ok m' → consistent m'.
Proof.
  intros Hm. destruct e as [path| |i text|i|i confirm answer|i| |answer| |a]; cbn [step].
  - by apply openFile_consistent.
  - unfold initEditor. destruct (activeTab m) as [tab|] eqn:Ht; [|done]. intros [= <-].
    apply consistent_tabs; [done|]. by eapply insert_paths.
  - intros [= <-]. unfold editTab. destruct (openedTabs m !! i) as [tab|] eqn:Ht; [|done].
    apply consistent_tabs; [done|]. by eapply insert_paths.
  - intros [= <-]. by apply consistent_tabs.
  - unfold on_tab. destruct (openedTabs m !! i) as [tab|]; [|by intros [= <-]].
    assert (∀ m', (m ← dispatch (closeFiles [filepath tab]) m;
      Ok { m with openedTabs := removeTabByPath (filepath tab) (openedTabs m) }) = Ok m' → consistent m') as Hclose.
    { intros m2 (m1 & H1 & [= <-])%bind_Ok_inv. by eapply closeFile_consistent. }
    unfold closeTab. destruct confirm, answer as [[]|]; try apply Hclose.
    + by apply saveFileInTab_consistent.
    + by intros [= <-].
  - unfold on_tab. destruct (openedTabs m !! i) as [tab|]; [|by intros [= <-]].
    by apply saveFileInTab_consistent.
  - unfold synchronize. intros H. by destruct (loadTabs_consistent _ _ _ Hm H) as [? _].
  - intros (changed & _ & H)%bind_Ok_inv.
    destruct changed as [|tab changed]; [by eapply afterClose_consistent|].
    destruct answer as [[]|]; [|by eapply afterClose_consistent|by injection H as <-].
    apply bind_Ok_inv in H as (items & _ & H). by eapply saveItems_consistent.
  - by apply afterClose_consistent.
  - destruct (file_answer a) eqn:Ha; [|by intros [= <-]]. intros H.
    apply dispatch_growing in H as [? _]; [done| |done]. by destruct a.
Qed.

(** ** Unsaved tabs *)

Definition unsaved (files : val) (tab : Tab) : bool :=
  negb (strict_eq (tabContent tab) (prop (prop files (filepath tab)) "content"))
  && truthy (prop (prop files (filepath tab)) "loaded").

Lemma changedTabs_consistent m :
  consistent m → changedTabs m = Ok (List.filter (unsaved (filesContent (store m))) (openedTabs m)).
Proof.
  intros [Hc _ _ Hf Ho]. unfold changedTabs.
  destruct Ho as [->|Ho]; [done|]. rewrite Ho. clear Ho. rewrite Forall_fmap in Hf.
  induction Hf as [|tab tabs Ht _ IH]; [done|]. cbn [filterM List.filter].
  assert (is_changed (filesContent (store m)) tab = Ok (unsaved (filesContent (store m)) tab)) as ->.
  { unfold is_changed, unsaved. pose proof (contents_get _ _ Hc Ht) as Hp.
    rewrite get_is_obj by (destruct Hc as (o & -> & _); by eexists). cbn [mbind res_bind].
    rewrite !get_is_obj by done. cbn [mbind res_bind]. by destruct (strict_eq _ _). }
  cbn [mbind res_bind]. rewrite IH. cbn [mbind res_bind]. by destruct (unsaved _ tab).
Qed.

(** ** Theorems about the editor of files

    The tabs stay consistent with the store, what saving and loading do to
    them, and which translations saving a file registers. *)

#[local] Arguments String.append : simpl nomatch.

(** ** Sessions *)

(** C26: Whatever is opened, edited, saved, loaded and closed, in any order with
    the answers, each file has at most one tab, the tabs' files are among the
    contents in the store, and asking for the changed tabs does not throw: they
    are the tabs of loaded files whose text differs from the store's. *)
Theorem tabs_follow_store s events m :
  contents_ok (filesContent s) → foldM step (start s) events = Ok m →
  NoDup (filepath <$> openedTabs m) ∧
  Forall (λ p, p ∈ keys_of (filesContent (store m))) (filepath <$> openedTabs m) ∧
  changedTabs m = Ok (List.filter (unsaved (filesContent (store m))) (openedTabs m)).
Proof.
  intros Hs H. assert (consistent m) as Hm.
  { revert H. apply (foldM_inv consistent); [|by apply consistent_start].
    intros m1 e m2 _. apply step_consistent. }
  split; [apply Hm|]. split; [apply Hm|by apply changedTabs_consistent].
Qed.

(** ** Loading and saving *)

Definition all_editors (m : EditFileModal) : Prop := Forall (λ tab, hasEditor tab = true) (openedTabs m).

(** An answer that touches no errors: the tabs take the texts of the files
    that were not loaded before. *)
Lemma follow_synced a m s :
  consistent m → contents_ok (filesContent s) → all_editors m → touches_errors a = false →
  follow a m s = Ok (mkModal (activeTabIndex m) (synced (filesContent (store m)) (filesContent s) <$> openedTabs m)
    (filesContent s) (filesContent s) s).
Proof.
  intros Hm Hc He Ha. unfold follow. rewrite (c_shown _ Hm), onOpenedFiles_synced.
  - cbn [mbind res_bind]. by rewrite Ha.
  - apply Hm.
  - done.
  - apply Hm.
  - intros tab Ht _. unfold all_editors in He. rewrite Forall_forall in He. by apply He.
Qed.

Lemma saved_contents s items s' :
  contents_ok (filesContent s) → NoDup (path <$> items) → reducer s (saveFilesSuccess items) = Ok s' →
  contents_ok (filesContent s') ∧
  ∀ p, prop (filesContent s') p =
    match List.find (λ x, String.eqb (path x) p) items with
    | Some x => obj_lit [("content", VStr (content x)); ("loaded", VBool true)]
    | None => prop (filesContent s) p
    end.
Proof.
  intros Hc Hnd H. split; [by apply (reducer_growing (saveFilesSuccess items) s s')|].
  unfold reducer in H. cbn [on_loading on_operations on_sections on_files mbind res_bind
    on_dependencyData on_state] in H.
  apply bind_Ok_inv in H as (s1 & H1 & H). injection H as H. subst s'.
  apply bind_Ok_inv in H1 as (errors & _ & H1). injection H1 as H1.
  intros p. rewrite <-H1. change (prop (spread2 (filesContent s) (keyed path (λ item,
    obj_lit [("content", VStr (content item)); ("loaded", VBool true)]) items)) p = match List.find (λ x, String.eqb (path x) p) items with
    | Some x => obj_lit [("content", VStr (content x)); ("loaded", VBool true)]
    | None => prop (filesContent s) p
    end).
  apply prop_spread_keyed; [by destruct Hc as (o & -> & _); eexists|done|by apply Forall_true].
Qed.

(** When the answer to a save arrives, a tab of a saved file counts as
    changed exactly if it was edited since: if its text is not the one that
    was sent. *)
Theorem saved_tab_changed_iff_edited m items m' tab item :
  consistent m → all_editors m → NoDup (path <$> items) →
  dispatch (saveFilesSuccess items) m = Ok m' →
  tab ∈ openedTabs m → item ∈ items → path item = filepath tab →
  truthy (prop (prop (filesContent (store m)) (filepath tab)) "loaded") = true →
  tab ∈ openedTabs m' ∧
  ∃ changed, changedTabs m' = Ok changed ∧
    (tab ∈ changed ↔ strict_eq (tabContent tab) (VStr (content item)) = false).
Proof.
  intros Hm He Hnd H Ht Hi Hp Hl. pose proof H as Hd. apply dispatch_growing in Hd as [Hm' _]; [|done|done].
  apply bind_Ok_inv in H as (s & Hs & H).
  destruct (saved_contents _ _ _ (c_contents _ Hm) Hnd Hs) as [Hc Hcont].
  rewrite follow_synced in H by done. injection H as H. subst m'. cbn [openedTabs] in *.
  assert (tab ∈ synced (filesContent (store m)) (filesContent s) <$> openedTabs m) as Hin.
  { apply list_elem_of_fmap. exists tab. split; [|done]. unfold synced, newly_loaded. by rewrite Hl. }
  split; [done|]. eexists. split; [by apply changedTabs_consistent|]. cbn [store openedTabs].
  rewrite list_elem_of_In, filter_In, <-list_elem_of_In. unfold unsaved.
  rewrite (Hcont (filepath tab)), <-Hp, (find_NoDup path items item Hnd Hi).
  cbn [prop obj_lit]. unfold obj_lookup.
  change (obj_get "content" _) with (Some (VStr (content item))).
  change (obj_get "loaded" _) with (Some (VBool true)). cbn [default truthy].
  rewrite andb_true_r, negb_true_iff. tauto.
Qed.

Lemma loading_contents s name version paths s' :
  contents_ok (filesContent s) → NoDup paths → reducer s (loadFiles name version paths) = Ok s' →
  contents_ok (filesContent s') ∧
  ∀ p, prop (filesContent s') p =
    if includes p paths then fileContent false "" else prop (filesContent s) p.
Proof.
  intros Hc Hnd H. split; [by apply (reducer_growing (loadFiles name version paths) s s')|].
  unfold reducer in H. cbn [on_loading on_operations on_sections on_files mbind res_bind
    on_dependencyData on_state] in H. injection H as H. intros p.
  assert (filesContent s' = spread2 (filesContent s) (keyed (λ p, p) (λ _, fileContent false "") paths))
    as -> by by rewrite <-H.
  assert (NoDup ((λ p : string, p) <$> paths)) as Hnd' by by rewrite list_fmap_id.
  rewrite prop_spread_keyed; [|by destruct Hc as (o & -> & _); eexists|done|by apply Forall_true].
  unfold includes. case_bool_decide as Hp.
  - by rewrite (find_NoDup (λ p, p) paths p Hnd' Hp).
  - by rewrite (find_None_key (λ p, p)) by by rewrite list_fmap_id.
Qed.

Lemma loaded_contents s items s' :
  contents_ok (filesContent s) → NoDup (path <$> items) → reducer s (loadFilesSuccess items) = Ok s' →
  contents_ok (filesContent s') ∧
  (∀ p, prop (filesContent s') p =
    match List.find (λ x, String.eqb (path x) p) items with
    | Some x => fileContent true (content x)
    | None => prop (filesContent s) p
    end).
Proof.
  intros Hc Hnd H. split; [by apply (reducer_growing (loadFilesSuccess items) s s')|].
  unfold reducer in H. cbn [on_loading on_operations on_sections on_files mbind res_bind
    on_dependencyData on_state] in H.
  apply bind_Ok_inv in H as (s1 & H1 & H). injection H as H. subst s'.
  apply bind_Ok_inv in H1 as (errors & _ & H1). injection H1 as H1. intros p.
  assert (filesContent s1 = spread2 (filesContent s) (keyed path (λ item, fileContent true (content item)) items))
    as -> by by rewrite <-H1.
  apply prop_spread_keyed; [by destruct Hc as (o & -> & _); eexists|done|by apply Forall_true].
Qed.

(** Errors of other files close no tab. *)
Lemma onLoadErrors_other errors tabs :
  is_obj errors → Forall (λ p, p ∉ keys_of errors) (filepath <$> tabs) →
  onLoadErrors errors tabs = Ok tabs.
Proof.
  intros [o ->] HF. unfold onLoadErrors. cbn [Object_keys mbind res_bind keys_of] in *. f_equal.
  assert (∀ ks, (∀ k, k ∈ ks → k ∈ obj_keys o) → foldl (λ t p, removeTabByPath p t) tabs ks = tabs)
    as Hl; [|by apply Hl].
  induction ks as [|k ks IH]; intros Hk; [done|]. cbn [foldl].
  assert (removeTabByPath k tabs = tabs) as ->.
  { specialize (Hk k (list_elem_of_here _ _)). clear IH. unfold removeTabByPath.
    induction tabs as [|tab tabs IH]; [done|]. rewrite fmap_cons in HF.
    apply Forall_cons_1 in HF as [Hn HF]. cbn [List.filter].
    destruct (String.eqb_spec k (filepath tab)) as [->|]; [done|]. cbn [negb]. by rewrite IH. }
  apply IH. intros q Hq. by apply Hk, list_elem_of_further.
Qed.

Lemma foldM_del_keys ks o w :
  foldM del (VObj o) ks = Ok w → is_obj w ∧ ∀ k, k ∈ keys_of w ↔ k ∉ ks ∧ k ∈ obj_keys o.
Proof.
  revert o. induction ks as [|k1 ks IH]; intros o H.
  - injection H as <-. split; [by eexists|]. intros k. rewrite (elem_of_nil k). cbn. tauto.
  - cbn [foldM del mbind res_bind] in H. apply IH in H as [Hw Hk]. split; [done|]. intros k.
    rewrite Hk, elem_of_cons, obj_keys_del. tauto.
Qed.

Lemma loaded_errors s items s' :
  is_obj (loadFileErrors s) → reducer s (loadFilesSuccess items) = Ok s' →
  is_obj (loadFileErrors s') ∧
  (∀ p, p ∈ path <$> items → p ∉ keys_of (loadFileErrors s')) ∧
  (∀ p, p ∉ path <$> items → p ∈ keys_of (clone (loadFileErrors s)) → p ∈ keys_of (loadFileErrors s')).
Proof.
  intros He H. unfold reducer in H. cbn [on_loading on_operations on_sections on_files mbind res_bind
    on_dependencyData on_state] in H.
  apply bind_Ok_inv in H as (s1 & H1 & H). injection H as H. subst s'.
  apply bind_Ok_inv in H1 as (errors & Hd & H1). injection H1 as H1.
  assert (loadFileErrors s1 = errors) as -> by by rewrite <-H1. clear H1.
  destruct (clone_is_obj _ He) as [o Ho]. rewrite Ho in *. apply foldM_del_keys in Hd as [Hw Hk].
  change (map path items) with (path <$> items) in Hk. split; [done|]. split; intros p Hp; rewrite Hk; tauto.
Qed.

(** Edits change nothing but the texts of tabs. *)
Definition edited (edits : list (nat * string)) (m : EditFileModal) : EditFileModal :=
  foldl (λ m e, editTab e.1 e.2 m) m edits.

Lemma edited_frame edits m :
  consistent m → all_editors m →
  consistent (edited edits m) ∧ all_editors (edited edits m) ∧ store (edited edits m) = store m
  ∧ filepath <$> openedTabs (edited edits m) = filepath <$> openedTabs m.
Proof.
  revert m. induction edits as [|[i text] edits IH]; intros m Hm He; [done|]. cbn [edited foldl].
  fold (edited edits (editTab i text m)). cbn [fst snd].
  assert (consistent (editTab i text m)) as Hm1 by by apply (step_consistent m (Edit i text)).
  destruct (openedTabs m !! i) as [tab|] eqn:Hi; unfold editTab in *; rewrite Hi in *; [|by apply IH].
  destruct (IH { m with openedTabs := <[i:={ tab with tabContent := VStr text }]> (openedTabs m) })
    as (H1 & H2 & H3 & H4); [done| |].
  - unfold all_editors in *. cbn [openedTabs]. apply Forall_insert; [done|].
    rewrite Forall_lookup in He. exact (He i tab Hi).
  - split; [exact H1|]. split; [exact H2|]. split; [exact H3|].
    etransitivity; [exact H4|]. cbn [openedTabs]. by apply (insert_paths i tab).
Qed.

(** Synchronizing loads all opened files again: when the answer arrives,
    every tab has the text of the server, whatever was edited and not saved,
    before or while the files were being loaded. *)
Theorem synchronize_discards_edits m m1 edits items m3 :
  consistent m → all_editors m → is_obj (loadFileErrors (store m)) →
  synchronize m = Ok m1 → path <$> items = filepath <$> openedTabs m →
  dispatch (loadFilesSuccess items) (edited edits m1) = Ok m3 →
  filepath <$> openedTabs m3 = filepath <$> openedTabs m ∧
  tabContent <$> openedTabs m3 = (λ item, VStr (content item)) <$> items.
Proof.
  intros Hm He Herr Hsync Hp H.
  pose proof (step_consistent m Synchronize m1 Hm Hsync) as Hm1.
  apply bind_Ok_inv in Hsync as (r & _ & (s1 & Hs1 & H1)%bind_Ok_inv).
  destruct (loading_contents _ _ _ _ _ (c_contents _ Hm) (c_paths _ Hm) Hs1) as [Hc1 Hcont1].
  assert (is_obj (loadFileErrors s1)) as Herr1.
  { unfold reducer in Hs1. cbn [on_loading on_operations on_sections on_files mbind res_bind
      on_dependencyData on_state] in Hs1. by injection Hs1 as <-. }
  rewrite follow_synced in H1 by done. injection H1 as H1.
  assert (synced (filesContent (store m)) (filesContent s1) <$> openedTabs m = openedTabs m) as Hsame.
  { apply fmap_same. intros tab Ht. unfold synced, newly_loaded. rewrite Hcont1. unfold includes.
    rewrite bool_decide_true by by apply list_elem_of_fmap_2. by rewrite andb_false_r. }
  rewrite Hsame in H1.
  assert (openedTabs m1 = openedTabs m ∧ store m1 = s1) as [Ht1 Hst1] by by rewrite <-H1. clear H1 Hsame.
  destruct (edited_frame edits m1 Hm1) as (Hm2 & He2 & Hst2 & Hp2);
    [by unfold all_editors; rewrite Ht1|]. rewrite Ht1 in Hp2.
  set (m2 := edited edits m1) in *. rewrite Hst1 in Hst2.
  apply bind_Ok_inv in H as (s3 & Hs3 & H).
  assert (NoDup (path <$> items)) as Hnd by (rewrite Hp; apply Hm).
  rewrite Hst2 in Hs3. destruct (loaded_contents _ _ _ Hc1 Hnd Hs3) as [Hc3 Hcont3].
  destruct (loaded_errors _ _ _ Herr1 Hs3) as (Ho3 & Hno & _).
  unfold follow in H. rewrite (c_shown _ Hm2), Hst2, onOpenedFiles_synced in H;
    [|done|done|apply Hm2|intros tab Ht _; unfold all_editors in He2; rewrite Forall_forall in He2; by apply He2].
  cbn [mbind res_bind touches_errors] in H.
  rewrite onLoadErrors_other in H; [|done|].
  2:{ rewrite filepaths_synced, Hp2, <-Hp. by apply Forall_forall. }
  cbn [mbind res_bind] in H. injection H as <-. cbn [openedTabs].
  split; [by rewrite filepaths_synced|].
  assert (Forall (λ tab, tabContent (synced (filesContent s1) (filesContent s3) tab)
    = match List.find (λ x, String.eqb (path x) (filepath tab)) items with
      | Some x => VStr (content x) | None => VUndef end) (openedTabs m2)) as HF.
  { apply Forall_forall. intros tab Ht.
    assert (filepath tab ∈ filepath <$> openedTabs m) as Hin by (rewrite <-Hp2; by apply list_elem_of_fmap_2).
    pose proof Hin as Hin2. rewrite <-Hp in Hin2. apply list_elem_of_fmap in Hin2 as (x & Hx & Hxi).
    unfold synced, newly_loaded. rewrite Hcont1, Hcont3, Hx, (find_NoDup path items x Hnd Hxi).
    unfold includes. rewrite bool_decide_true by by rewrite <-Hx. done. }
  apply list_eq. intros j. rewrite !list_lookup_fmap.
  assert (filepath <$> openedTabs m2 !! j = path <$> items !! j) as Hj.
  { by rewrite <-!list_lookup_fmap, Hp2, Hp. }
  destruct (openedTabs m2 !! j) as [tab|] eqn:Htab, (items !! j) as [x|] eqn:Hx; simplify_eq/=; [|done].
  rewrite Forall_lookup in HF. rewrite (HF j tab Htab), Hj, (find_NoDup path items x Hnd); [done|].
  by eapply list_elem_of_lookup_2.
Qed.

(** A recorded error of an earlier attempt closes the tab of a file that is
    being loaded again as soon as the answer for another file arrives: that
    answer makes a new object of the errors, and every file in it loses its
    tab. *)
Theorem stale_error_closes_tab m items m' p :
  is_obj (loadFileErrors (store m)) → p ∈ keys_of (clone (loadFileErrors (store m))) →
  p ∉ path <$> items → dispatch (loadFilesSuccess items) m = Ok m' →
  p ∉ filepath <$> openedTabs m'.
Proof.
  intros He Hp Hn (s & Hs & (tabs & _ & (tabs' & Ht & [= <-])%bind_Ok_inv)%bind_Ok_inv)%bind_Ok_inv.
  destruct (loaded_errors _ _ _ He Hs) as ([o Ho] & _ & Hk). specialize (Hk p Hn Hp).
  cbn [touches_errors openedTabs] in *. rewrite Ho in Ht, Hk. unfold onLoadErrors in Ht.
  cbn [Object_keys mbind res_bind keys_of] in *. injection Ht as <-.
  assert (∀ ks tabs, p ∈ ks ∨ p ∉ filepath <$> tabs →
    p ∉ filepath <$> foldl (λ t q, removeTabByPath q t) tabs ks) as Hl; [|by apply Hl; left].
  clear. induction ks as [|k ks IH]; intros tabs [Hin|Hin]; cbn [foldl].
  - by apply elem_of_nil in Hin.
  - done.
  - apply IH. destruct (decide (p = k)) as [->|Hne].
    + right. rewrite removeTab_paths. by intros [? _]%list_elem_of_filter.
    + left. by apply elem_of_cons in Hin as [?|].
  - apply IH. right. rewrite removeTab_paths. by intros [_ ?]%list_elem_of_filter.
Qed.

(** ** Translations *)

Lemma newTranslations_registers m text ui r :
  get_path m ["locale"; "ui"] = Ok (VObj ui) → obj_wf ui → newTranslations m text = Ok r →
  ∃ ui', default (VObj ui) r = VObj ui' ∧ registers (keys_in CODE_MARK text) ui ui'.
Proof.
  intros Hui Hwf H. unfold newTranslations in H.
  assert (∀ k, k ∈ localizationKeys CODE_MARK text ↔ k ∈ keys_in CODE_MARK text) as Hks
    by (intros k; apply localizationKeys_elem).
  destruct (localizationKeys CODE_MARK text) as [|k0 ks].
  { injection H as <-. exists ui. split; [done|]. apply registers_refl.
    intros k Hk%Hks. by apply elem_of_nil in Hk. }
  rewrite Hui in H. cbn [mbind res_bind Object_keys] in H. revert Hks H.
  generalize (k0 :: ks). clear k0 ks. intros ks Hks [= <-]. case_bool_decide as Hn.
  - exists ui. split; [done|]. apply registers_refl. intros k Hk%Hks.
    destruct (decide (k ∈ obj_keys ui)) as [|Hki]; [done|].
    assert (k ∈ newKeys ks (obj_keys ui)) as Hkn by by apply elem_of_newKeys.
    rewrite Hn in Hkn. by apply elem_of_nil in Hkn.
  - destruct (sortedKeys_registers ks ui Hwf) as (ui' & -> & H1 & H2 & H3).
    exists ui'. split; [done|]. split; [done|]. split.
    + intros k Hk%Hks. by apply H2.
    + intros k. by rewrite H3, Hks.
Qed.

Lemma saveItems_module items m m' : saveItems items m = Ok m' → module (store m') = module (store m).
Proof.
  intros (r & _ & (s & Hs & H)%bind_Ok_inv)%bind_Ok_inv.
  apply follow_spec in H as (_ & _ & _ & ->).
  unfold reducer in Hs. cbn [on_loading on_operations on_sections on_files mbind res_bind
    on_dependencyData on_state] in Hs. by injection Hs as <-.
Qed.

(** C36: Saving a file whose text asks for translations ([$t('a.b.c.d')])
    registers the keys with the module: keys without a translation get empty
    ones, and the translations that exist stay (up to the order of their
    members). *)
Theorem saving_registers_keys tab m m' text locale ui :
  get (module (store m)) "locale" = Ok locale → get locale "ui" = Ok (VObj ui) → obj_wf ui →
  tabContent tab = VStr text → saveFileInTab tab m = Ok m' →
  ∃ ui', get_path (module (store m')) ["locale"; "ui"] = Ok (VObj ui') ∧
    (∀ k x, obj_get k ui = Some x → obj_get k ui' = Some x ∨ obj_get k ui' = Some (sortKeys x)) ∧
    ∀ k a b, is_key k = true → text = a +:+ "$t('" +:+ k +:+ "')" +:+ b →
      k ∈ obj_keys ui' ∧
      (k ∉ obj_keys ui → obj_get k ui' = Some (obj_lit [("en", VStr ""); ("ru", VStr "")])).
Proof.
  intros Hl Hui Hwf Ht H.
  assert (get_path (module (store m)) ["locale"; "ui"] = Ok (VObj ui)) as Hpath.
  { cbn [get_path]. rewrite Hl. cbn [mbind res_bind]. by rewrite Hui. }
  apply bind_Ok_inv in H as (text' & Htext & (r & Hr & (m1 & H1 & H)%bind_Ok_inv)%bind_Ok_inv).
  unfold tab_text in Htext. rewrite Ht in Htext. injection Htext as <-.
  pose proof (newTranslations_registers _ _ _ _ Hpath Hwf Hr) as Hreg.
  apply saveItems_module in H.
  destruct Hreg as (ui' & Hv & Hreg).
  assert (get_path (module (store m1)) ["locale"; "ui"] = Ok (VObj ui')) as Hui'.
  { destruct r as [v|]; cbn [default from_option id] in Hv; [subst v|injection H1 as <-; by injection Hv as <-].
    apply bind_Ok_inv in H1 as (s & Hs & H1). apply follow_spec in H1 as (_ & _ & _ & ->).
    unfold reducer in Hs. cbn [on_loading on_operations on_sections on_files mbind res_bind
      on_dependencyData on_state] in Hs. unfold on_updateLocalizationModel in Hs. rewrite Hl in Hs.
    cbn [mbind res_bind] in Hs. injection Hs as <-.
    cbn [get_path]. rewrite module_patchSection. cbn [spread get]. unfold obj_lookup.
    rewrite obj_get_assign. cbn [mbind res_bind]. cbn. unfold obj_lookup. rewrite obj_get_set_eq. done. }
  destruct Hreg as (Hold & Hnew & Hkeys).
  exists ui'. rewrite H. split; [done|]. split; [done|]. intros k a b Hk ->.
  assert (k ∈ keys_in CODE_MARK (a +:+ "$t('" +:+ k +:+ "')" +:+ b)) as Hin
    by (apply keys_in_spec; split; [done|by exists a, b]).
  split; [apply Hkeys; by right|by apply Hnew].
Qed.

(** ** The theorems at concrete inputs *)

Definition tabsState : State :=
  { sampleFetched with module := spread (module sampleFetched)
      [("locale", obj_lit [("ui", obj_lit [("a.b.c.d", obj_lit [("ru", VStr "x"); ("en", VStr "y")])])])] }.

Definition mainFile : string := "sample/1.0.0/cmodule/main.lua".
Definition mainText : string := "print($t('a.b.c.d'), $t('a.b.c.e'))".
Definition mainEvents : list Event :=
  [Open mainFile; Timer; Receive (loadFilesSuccess [mkFileItem mainFile "old"]); Edit 0 mainText].

Definition after (events : list Event) : EditFileModal :=
  match foldM step (start tabsState) events with Ok m => m | Throw _ => start tabsState end.
Definition editing : EditFileModal := after mainEvents.
Definition mainTab : Tab := mkTab (VStr mainText) "lua" "main.lua" mainFile "A" true.

Lemma tabsState_contents : contents_ok (filesContent tabsState).
Proof. apply contents_nil. Qed.

Lemma editing_consistent : consistent editing.
Proof.
  assert (foldM step (start tabsState) mainEvents = Ok editing) as H by (vm_compute; reflexivity).
  revert H. apply (foldM_inv consistent); [|by apply consistent_start, tabsState_contents].
  intros m1 e m2 _. apply step_consistent.
Qed.

Lemma tabs_follow_store_witness : changedTabs editing = Ok [mainTab].
Proof.
  destruct (tabs_follow_store tabsState mainEvents editing) as (_ & _ & H);
    [exact tabsState_contents|vm_compute; reflexivity|].
  rewrite H. vm_compute. reflexivity.
Defined.

(** The text that is sent is edited before the answer arrives. *)
Definition sentThenEdited : EditFileModal := after (mainEvents ++ [SaveTab 0; Edit 0 "new"]).
Definition answered : EditFileModal :=
  match dispatch (saveFilesSuccess [mkFileItem mainFile mainText]) sentThenEdited with
  | Ok m => m | Throw _ => sentThenEdited
  end.

Lemma sentThenEdited_consistent : consistent sentThenEdited.
Proof.
  assert (foldM step (start tabsState) (mainEvents ++ [SaveTab 0; Edit 0 "new"]) = Ok sentThenEdited) as H
    by (vm_compute; reflexivity).
  revert H. apply (foldM_inv consistent); [|by apply consistent_start, tabsState_contents].
  intros m1 e m2 _. apply step_consistent.
Qed.

Lemma saved_tab_changed_iff_edited_witness :
  ∃ changed, changedTabs answered = Ok changed ∧ { mainTab with tabContent := VStr "new" } ∈ changed.
Proof.
  destruct (saved_tab_changed_iff_edited sentThenEdited [mkFileItem mainFile mainText] answered
              { mainTab with tabContent := VStr "new" } (mkFileItem mainFile mainText))
    as (_ & changed & H1 & H2).
  - exact sentThenEdited_consistent.
  - apply List.Forall_cons; [vm_compute; reflexivity|apply List.Forall_nil].
  - apply NoDup_singleton.
  - vm_compute. reflexivity.
  - vm_compute. apply list_elem_of_here.
  - apply list_elem_of_here.
  - reflexivity.
  - vm_compute. reflexivity.
  - exists changed. split; [exact H1|]. apply H2. reflexivity.
Defined.

Definition resynced : EditFileModal :=
  match synchronize editing with Ok m => m | Throw _ => editing end.
Definition reloaded : EditFileModal :=
  match dispatch (loadFilesSuccess [mkFileItem mainFile "server"]) (edited [(0, "late")] resynced) with
  | Ok m => m | Throw _ => editing
  end.

Lemma synchronize_discards_edits_witness : tabContent <$> openedTabs reloaded = [VStr "server"].
Proof.
  refine (proj2 (synchronize_discards_edits editing resynced [(0, "late")]
                   [mkFileItem mainFile "server"] reloaded _ _ _ _ _ _)).
  - exact editing_consistent.
  - apply List.Forall_cons; [vm_compute; reflexivity|apply List.Forall_nil].
  - by eexists.
  - vm_compute. reflexivity.
  - vm_compute. reflexivity.
  - vm_compute. reflexivity.
Defined.

(** A file failed to load and is opened again. *)
Definition retried : EditFileModal :=
  after [Open mainFile; Timer; Receive (loadFilesFailure [mkFileError mainFile (VStr "failed")]);
         Open "b.lua"; Timer; Open mainFile; Timer].
Definition otherLoaded : EditFileModal :=
  match dispatch (loadFilesSuccess [mkFileItem "b.lua" "b"]) retried with Ok m => m | Throw _ => retried end.

Lemma stale_error_closes_tab_witness :
  filepath <$> openedTabs retried = ["b.lua"; mainFile] ∧ mainFile ∉ filepath <$> openedTabs otherLoaded.
Proof.
  split; [vm_compute; reflexivity|].
  apply (stale_error_closes_tab retried [mkFileItem "b.lua" "b"] otherLoaded mainFile).
  - by eexists.
  - vm_compute. apply list_elem_of_here.
  - apply (bool_decide_unpack _). vm_compute. done.
  - vm_compute. reflexivity.
Defined.

Definition savedEditing : EditFileModal :=
  match saveFileInTab mainTab editing with Ok m => m | Throw _ => editing end.

Lemma saving_registers_keys_witness :
  ∃ ui', get_path (module (store savedEditing)) ["locale"; "ui"] = Ok (VObj ui') ∧
    obj_get "a.b.c.e" ui' = Some (obj_lit [("en", VStr ""); ("ru", VStr "")]).
Proof.
  destruct (saving_registers_keys mainTab editing savedEditing mainText
      (obj_lit [("ui", obj_lit [("a.b.c.d", obj_lit [("ru", VStr "x"); ("en", VStr "y")])])])
      [("a.b.c.d", obj_lit [("ru", VStr "x"); ("en", VStr "y")])])
    as (ui' & H1 & _ & H2).
  - vm_compute. reflexivity.
  - vm_compute. reflexivity.
  - apply (bool_decide_unpack _). vm_compute. done.
  - reflexivity.
  - vm_compute. reflexivity.
  - exists ui'. split; [exact H1|].
    refine (proj2 (H2 "a.b.c.e" "print($t('a.b.c.d'), " ")" _ _) _); [vm_compute; reflexivity|reflexivity|].
    apply (bool_decide_unpack _). vm_compute. done.
Defined.
