(* ===== verification/Filtration.v ===== *)
(** * Grid filtration (libs/shared/src/lib/utils)

    The filters a grid applies: a list of field/value pairs kept by every list
    store, updated one field at a time and read as a dictionary by the grid. *)

From S2P Require Import Prelude JsValue Models.

Record Filtration := mkFiltration { field : string; value : val }.

(** ** get-grid-filtration.ts *)

(** [Array.isArray(value) ? !value.length : !!value] *)
Definition needRemoveFiltration (filtration : Filtration) : bool :=
  match value filtration with
  | VArr l => bool_decide (length l = 0)
  | v => truthy v
  end.

Definition other_fields (f : string) (l : list Filtration) : list Filtration :=
  List.filter (λ item, negb (String.eqb (field item) f)) l.

Definition getGridFiltration (filtration : Filtration) (gridFiltration : list Filtration) :
    list Filtration :=
  other_fields (field filtration) gridFiltration
    ++ (if needRemoveFiltration filtration then [] else [filtration]).

(** ** get-grid-filtration-by-tag.ts *)

Definition getGridFiltrationByTag (gridFiltration : list Filtration) (tag : string) :
    list Filtration :=
  other_fields "tags" gridFiltration ++ [mkFiltration "tags" (VArr [VStr tag])].

(** ** filtration-to-dictionary.ts *)

(** [Array.isArray(value) ? !!value[0] : !!value] *)
Definition isActive (item : Filtration) : bool :=
  match value item with
  | VArr l => truthy (default VUndef (head l))
  | v => truthy v
  end.

Definition filtrationToDictionary (gridFiltration : list Filtration) : obj Filtration :=
  foldl (λ acc item, obj_set (field item) item acc) [] (List.filter isActive gridFiltration).

(** ** List queries *)

(** The object a list query sends for a filter. *)
Definition filter_val (f : Filtration) : val :=
  obj_lit [("field", VStr (field f)); ("value", value f)].

(** The partial state that [restoreState] of the list facades dispatches. *)
Record RestoredState := mkRestored {
  restoredFiltration : list Filtration;
  restoredSearch : string;
  restoredSorting : val
}.

(** [items.map(({ id }) => id)]. *)
Definition mapIds (items : val) : res val := map_array (λ item, get item "id") items.

(** ** Facts *)

Lemma elem_of_other_fields f l x : x ∈ other_fields f l ↔ field x ≠ f ∧ x ∈ l.
Proof.
  unfold other_fields. rewrite !list_elem_of_In, List.filter_In, negb_true_iff, String.eqb_neq.
  tauto.
Qed.

Lemma fields_other_fields f l : field <$> other_fields f l = List.filter (λ k, negb (String.eqb k f)) (field <$> l).
Proof.
  induction l as [|x l IH]; simpl; [done|]. destruct (String.eqb (field x) f); simpl; [done|].
  by f_equal.
Qed.

Lemma NoDup_other_fields f l : NoDup (field <$> l) → NoDup (field <$> other_fields f l).
Proof.
  intros Hl. rewrite fields_other_fields.
  apply NoDup_ListNoDup, List.NoDup_filter. by apply NoDup_ListNoDup.
Qed.

(** One filter per field: replacing the filter of a field keeps it so. *)
Lemma NoDup_replace f l x :
  field x = f → NoDup (field <$> l) → NoDup (field <$> (other_fields f l ++ [x])).
Proof.
  intros Hx Hl. rewrite fmap_app. apply NoDup_app. split_and!.
  - by apply NoDup_other_fields.
  - intros k Hk Hk'. simpl in Hk'. apply list_elem_of_singleton in Hk' as ->.
    apply list_elem_of_fmap in Hk as (y & Hy & Hin). apply elem_of_other_fields in Hin. naive_solver.
  - apply NoDup_singleton.
Qed.

Lemma getGridFiltration_NoDup filtration l :
  NoDup (field <$> l) → NoDup (field <$> getGridFiltration filtration l).
Proof.
  intros Hl. unfold getGridFiltration. destruct (needRemoveFiltration filtration).
  - rewrite app_nil_r. by apply NoDup_other_fields.
  - by apply NoDup_replace.
Qed.

Lemma elem_of_getGridFiltration filtration l x :
  x ∈ getGridFiltration filtration l ↔
  (field x ≠ field filtration ∧ x ∈ l) ∨
  (needRemoveFiltration filtration = false ∧ x = filtration).
Proof.
  unfold getGridFiltration. rewrite elem_of_app, elem_of_other_fields.
  destruct (needRemoveFiltration filtration).
  - rewrite (elem_of_nil x). naive_solver.
  - rewrite list_elem_of_singleton. naive_solver.
Qed.

(** The dictionary of a list with one filter per field. *)
Lemma filtrationToDictionary_get l k :
  NoDup (field <$> l) →
  obj_get k (filtrationToDictionary l) =
    match List.find (λ x, String.eqb (field x) k && isActive x) l with
    | Some x => Some x
    | None => None
    end.
Proof.
  intros Hnd. unfold filtrationToDictionary.
  assert (∀ acc, obj_get k (foldl (λ acc item, obj_set (field item) item acc) acc
                              (List.filter isActive l)) =
    match List.find (λ x, String.eqb (field x) k && isActive x) l with
    | Some x => Some x | None => obj_get k acc end) as Hgen; [|rewrite Hgen; by case_match].
  induction l as [|x l IH]; intros acc; [done|]. simpl in Hnd.
  apply NoDup_cons in Hnd as [Hx Hnd]. specialize (IH Hnd). simpl.
  destruct (isActive x) eqn:Ha; simpl.
  - rewrite IH, obj_get_set, andb_true_r, (String.eqb_sym k).
    destruct (String.eqb_spec (field x) k) as [Hk|Hk]; [|done].
    destruct (List.find _ l) as [y|] eqn:Hf; [|done].
    apply List.find_some in Hf as [Hy Hfy]. apply andb_true_iff in Hfy as [Hfy _].
    apply String.eqb_eq in Hfy. destruct Hx. apply list_elem_of_fmap. exists y.
    split; [congruence|]. by apply list_elem_of_In.
  - rewrite andb_false_r. apply IH.
Qed.
