(* ===== verification/Paging.v ===== *)
(** * Paged lists

    Every list store keeps the rows it has loaded so far, the number of the
    last page and the total of the server, and updates the three when a page
    arrives.  [fetchPage] is that update, as the success handlers of the
    stores write it; [Paged] says that a store's reducer follows it, and the
    theorems about infinite scrolling are proved once against [Paged]. *)

From S2P Require Import Prelude JsValue Models.

Record Page := mkPage {
  pageRows : val;
  pageNo : val;
  pageTotal : val
}.

(** [v?.length > 0]. *)
Definition has_items (v : val) : res bool :=
  len ← getq v "length";
  Ok (match len with VNum (NInt n) => bool_decide (0 < n)%Z | _ => false end).

Arguments has_items : simpl never.

(** The update of a page success handler:
[[
  total: data.total,
  rows: page === 1 ? convert(data) : [...state.rows, ...convert(data)],
  page: data.<items>?.length > 0 ? page : state.page
]] *)
Definition fetchPage (convert : val → res val) (items : string) (data : val) (page : Z)
    (p : Page) : res Page :=
  total ← get data "total";
  new ← convert data;
  rows ← (if bool_decide (page = 1%Z) then Ok new
          else old ← iter (pageRows p); l ← iter new; Ok (VArr (old ++ l)));
  received ← (l ← get data items; has_items l);
  Ok (mkPage rows (if (received : bool) then vint page else pageNo p) total).

Arguments fetchPage : simpl never.

(** ** The interface of a paged store *)

Class Paged (S A : Type) := {
  reduce : S → A → res S;
  page_of : S → Page;                      (* the rows, page and total of the list *)
  loaded : val → Z → A;                    (* the action a page arrives with *)
  convert : val → res val;
  items_key : string;
  reduce_loaded s data page s' :
    reduce s (loaded data page) = Ok s' →
    fetchPage convert items_key data page (page_of s) = Ok (page_of s');
  reduce_loaded_ok s data page p :
    fetchPage convert items_key data page (page_of s) = Ok p →
    ∃ s', reduce s (loaded data page) = Ok s'
}.

(** ** Infinite scrolling *)

(** The server's answer to a page: it converts to an array of rows, and it has
    items exactly when there are rows. *)
Definition answer (conv : val → res val) (items : string) (data : val) (rows : list val) : Prop :=
  conv data = Ok (VArr rows) ∧
  ∃ l, get data items = Ok (VArr l) ∧ length l = length rows.

Lemma has_items_arr l : has_items (VArr l) = Ok (bool_decide (0 < length l)).
Proof.
  unfold has_items, getq. simpl. do 2 f_equal. destruct l as [|x l]; [done|].
  rewrite !bool_decide_eq_true_2; [done| |]; simpl; lia.
Qed.

Lemma fetchPage_answer conv items data rows page p p' old :
  answer conv items data rows → pageRows p = VArr old →
  fetchPage conv items data page p = Ok p' →
  pageRows p' = VArr (if bool_decide (page = 1%Z) then rows else old ++ rows) ∧
  pageNo p' = (if bool_decide (rows = []) then pageNo p else vint page) ∧
  Ok (pageTotal p') = get data "total".
Proof.
  intros (Hc & l & Hl & Hlen) Hold H. unfold fetchPage in H.
  destruct (get data "total") as [total|]; simpl in H; [|done].
  rewrite Hc, Hold in H. simpl in H.
  assert ((l' ← get data items; has_items l') = Ok (bool_decide (0 < length l))) as He
    by (rewrite Hl; apply has_items_arr).
  assert (bool_decide (0 < length l) = negb (bool_decide (rows = []))) as Hb.
  { destruct rows, l; simpl in *; done. }
  rewrite Hb in He.
  destruct (bool_decide (page = 1%Z)); cbn [mbind res_bind] in H; rewrite He in H; cbn [mbind res_bind] in H;
    injection H as <-; simpl; split; try done; split; try done;
    by destruct (bool_decide (rows = [])).
Qed.

Lemma fetchPage_ok conv items data rows page p old :
  answer conv items data rows → pageRows p = VArr old →
  ∃ p', fetchPage conv items data page p = Ok p'.
Proof.
  intros (Hc & l & Hl & _) Hold. unfold fetchPage.
  assert (∃ total, get data "total" = Ok total) as [total ->].
  { destruct data; try discriminate Hl; by eexists. }
  rewrite Hc, Hold, Hl. cbn [mbind res_bind iter]. rewrite has_items_arr.
  destruct (bool_decide (page = 1%Z)); by eexists.
Qed.

(** The pages [1 .. k] of a list, as they arrive when the user scrolls. *)
Fixpoint arrivals {S A} `{Paged S A} (page : Z) (answers : list val) : list A :=
  match answers with
  | [] => []
  | data :: answers => loaded data page :: arrivals (page + 1) answers
  end.

Section scrolling.
Context {S A : Type} `{HP : Paged S A}.

Lemma scroll_from (page : Z) answers (pages : list (list val)) (s s' : S) old :
  (1 < page)%Z → Forall2 (answer convert items_key) answers pages →
  pageRows (page_of s) = VArr old →
  foldM reduce s (arrivals page answers) = Ok s' →
  pageRows (page_of s') = VArr (old ++ mjoin pages).
Proof.
  intros Hp Hf. revert page s old Hp.
  induction Hf as [|data rows answers pages Ha _ IH]; intros page s old Hp Hold H; simpl in H.
  - injection H as <-. by rewrite app_nil_r.
  - destruct (reduce s (loaded data page)) as [s1|] eqn:E; simpl in H; [|done].
    apply reduce_loaded in E.
    destruct (fetchPage_answer _ _ _ _ _ _ _ _ Ha Hold E) as (Hr & _).
    rewrite bool_decide_eq_false_2 in Hr by lia.
    rewrite (IH (page + 1)%Z s1 (old ++ rows)); [by rewrite <-app_assoc|lia|done|done].
Qed.

(** Scrolling through the pages of a list from the first one shows exactly
    the rows of the server, in order, whatever was shown before. *)
Lemma scroll_pages data rows answers pages (s s' : S) :
  answer convert items_key data rows → Forall2 (answer convert items_key) answers pages →
  (∃ old, pageRows (page_of s) = VArr old) →
  foldM reduce s (arrivals 1 (data :: answers)) = Ok s' →
  pageRows (page_of s') = VArr (rows ++ mjoin pages).
Proof.
  intros Ha Hf [old Hold] H. cbn [arrivals foldM] in H.
  destruct (reduce s (loaded data 1)) as [s1|] eqn:E; simpl in H; [|done].
  apply reduce_loaded in E.
  destruct (fetchPage_answer _ _ _ _ _ _ _ _ Ha Hold E) as (Hr & _).
  by apply (scroll_from 2 answers pages s1 s' rows).
Qed.
End scrolling.
