(* ===== verification/PoliciesStore.v ===== *)
(** * Policies store

    [libs/store/policies/src/lib/policies.reducer.ts] and
    [policies.actions.ts]: the list of policies with its filters, and the
    agents, groups, events and modules of the selected policy. *)

From S2P Require Import Prelude JsValue JsJson Models Filtration Paging.

(** ** State *)

Record State := mkState {
  agentFilterItemGroupIds : val;
  agentFilterItemModuleNames : val;
  agentFilterItemOs : val;
  agentFilterItemTags : val;
  agentsGridFiltration : list Filtration;
  agentsGridSearch : string;
  agentsPage : val;
  agentsSorting : val;
  agentsTotal : val;
  copyError : val;
  createError : val;
  createdPolicy : val;
  deleteError : val;
  eventFilterItemAgentNames : val;
  eventFilterItemGroupIds : val;
  eventFilterItemModuleIds : val;
  eventsGridFiltration : list Filtration;
  eventsGridSearch : string;
  eventsPage : val;
  eventsSorting : val;
  eventsTotal : val;
  filterItemsGroupIds : val;
  filterItemsModuleNames : val;
  filterItemsTags : val;
  filters : val;
  filtersCounters : val;
  gridFiltration : list Filtration;
  gridSearch : string;
  groupFilterItemModuleNames : val;
  groupFilterItemPolicyIds : val;
  groupFilterItemTags : val;
  groupsGridFiltration : list Filtration;
  groupsGridSearch : string;
  groupsPage : val;
  groupsSorting : val;
  groupsTotal : val;
  initialized : bool;
  isCancelUpgradingAgent : bool;
  isCopyingPolicy : bool;
  isCreatingPolicy : bool;
  isDeletingPolicy : bool;
  isLinkingPolicy : bool;
  isLoadingAgentFilterItems : bool;
  isLoadingAgents : bool;
  isLoadingEventFilterItems : bool;
  isLoadingEvents : bool;
  isLoadingFilterItems : bool;
  isLoadingGroupFilterItems : bool;
  isLoadingGroups : bool;
  isLoadingModules : bool;
  isLoadingPolicies : bool;
  isLoadingPolicy : bool;
  isUnlinkingPolicy : bool;
  isUpdatingAgentData : bool;
  isUpdatingPolicy : bool;
  isUpgradingAgents : bool;
  linkPolicyFromGroupError : val;
  modulesOfPolicy : val;
  page : val;
  policies : val;
  policy : val;
  policyAgents : val;
  policyEvents : val;
  policyGroups : val;
  restored : bool;
  selectedAgentId : val;
  selectedFilterId : val;
  selectedGroupId : val;
  selectedIds : val;
  selectedPolicyGroupId : val;
  selectedPolicyId : val;
  sorting : val;
  total : val;
  unlinkPolicyFromGroupError : val;
  updateError : val;
  isLoadingGroupsFilterItems : bool  (* not in the interface *)
}.

#[export] Instance State_eta : Eta State := ltac:(eta_of State).

Definition initialState : State := {|
  agentFilterItemGroupIds := VArr [];
  agentFilterItemModuleNames := VArr [];
  agentFilterItemOs := VArr [];
  agentFilterItemTags := VArr [];
  agentsGridFiltration := [];
  agentsGridSearch := "";
  agentsPage := vint 0;
  agentsSorting := VUndef;
  agentsTotal := vint 0;
  copyError := VUndef;
  createError := VUndef;
  createdPolicy := VUndef;
  deleteError := VUndef;
  eventFilterItemAgentNames := VArr [];
  eventFilterItemGroupIds := VArr [];
  eventFilterItemModuleIds := VArr [];
  eventsGridFiltration := [];
  eventsGridSearch := "";
  eventsPage := vint 0;
  eventsSorting := VObj [];
  eventsTotal := vint 0;
  filterItemsGroupIds := VArr [];
  filterItemsModuleNames := VArr [];
  filterItemsTags := VArr [];
  filters := VArr [];
  filtersCounters := obj_lit [("all", vint 0); ("without_groups", vint 0)];
  gridFiltration := [];
  gridSearch := "";
  groupFilterItemModuleNames := VArr [];
  groupFilterItemPolicyIds := VArr [];
  groupFilterItemTags := VArr [];
  groupsGridFiltration := [];
  groupsGridSearch := "";
  groupsPage := vint 0;
  groupsSorting := VUndef;
  groupsTotal := vint 0;
  initialized := false;
  isCancelUpgradingAgent := false;
  isCopyingPolicy := false;
  isCreatingPolicy := false;
  isDeletingPolicy := false;
  isLinkingPolicy := false;
  isLoadingAgentFilterItems := false;
  isLoadingAgents := false;
  isLoadingEventFilterItems := false;
  isLoadingEvents := false;
  isLoadingFilterItems := false;
  isLoadingGroupFilterItems := false;
  isLoadingGroups := false;
  isLoadingModules := false;
  isLoadingPolicies := false;
  isLoadingPolicy := false;
  isUnlinkingPolicy := false;
  isUpdatingAgentData := false;
  isUpdatingPolicy := false;
  isUpgradingAgents := false;
  linkPolicyFromGroupError := VUndef;
  modulesOfPolicy := VArr [];
  page := vint 0;
  policies := VArr [];
  policy := VUndef;
  policyAgents := VArr [];
  policyEvents := VArr [];
  policyGroups := VArr [];
  restored := false;
  selectedAgentId := VUndef;
  selectedFilterId := VUndef;
  selectedGroupId := VUndef;
  selectedIds := VArr [];
  selectedPolicyGroupId := VUndef;
  selectedPolicyId := VUndef;
  sorting := VObj [];
  total := vint 0;
  unlinkPolicyFromGroupError := VUndef;
  updateError := VUndef;
  isLoadingGroupsFilterItems := false
|}.

(** ** Actions *)

Inductive Action :=
| updateFilters (filters : val)
| selectFilter (id : val)
| selectGroup (id : val)
| fetchCountersByFilters
| fetchCountersByFiltersSuccess (counters : val)
| fetchCountersByFiltersFailure
| fetchAllPolicies (silent : bool)
| fetchAllPoliciesSuccess (data : val)
| fetchAllPoliciesFailure
| fetchPoliciesPage (page : val)
| fetchPoliciesPageSuccess (data : val) (page : Z)
| fetchPoliciesPageFailure
| fetchFilterItems
| fetchFilterItemsSuccess (moduleNames : val) (groupIds : val) (tags : val)
| fetchFilterItemsFailure (error : val)
| fetchAgentFilterItems
| fetchAgentFilterItemsSuccess (moduleNames : val) (groupIds : val) (os : val) (tags : val)
| fetchAgentFilterItemsFailure (error : val)
| fetchEventFilterItems
| fetchEventFilterItemsSuccess (moduleIds : val) (agentNames : val) (groupIds : val)
| fetchEventFilterItemsFailure (error : val)
| fetchGroupFilterItems
| fetchGroupFilterItemsSuccess (policyIds : val) (moduleNames : val) (tags : val)
| fetchGroupFilterItemsFailure (error : val)
| fetchPolicy (hash : string)
| fetchPolicySuccess (data : val)
| fetchPolicyFailure
| fetchPolicyModules (hash : string)
| fetchPolicyModulesSuccess (data : val)
| fetchPolicyModulesFailure
| fetchPolicyEvents (id : val) (page : val)
| fetchPolicyEventsSuccess (data : val) (page : Z)
| fetchPolicyEventsFailure
| setEventsGridFiltration (filtration : Filtration)
| setEventsGridSearch (value : string)
| resetEventsFiltration
| setEventsGridSorting (sorting : val)
| fetchPolicyAgents (id : val) (page : val)
| fetchPolicyAgentsSuccess (data : val) (page : Z)
| fetchPolicyAgentsFailure
| setAgentsGridFiltration (filtration : Filtration)
| setAgentsGridSearch (value : string)
| resetAgentsFiltration
| setAgentsGridSorting (sorting : val)
| selectAgent (id : val)
| updateAgentData (agent : val)
| updateAgentDataSuccess (data : val)
| updateAgentDataFailure
| fetchPolicyGroups (id : val) (page : val)
| fetchPolicyGroupsSuccess (data : val) (page : Z)
| fetchPolicyGroupsFailure
| setGroupsGridFiltration (filtration : Filtration)
| setGroupsGridSearch (value : string)
| resetGroupsFiltration
| setGroupsGridSorting (sorting : val)
| selectPolicyGroup (id : val)
| selectPolicy (id : string)
| selectPolicies (policies : val)
| selectPoliciesByIds (ids : val)
| createPolicy (policy : val)
| createPolicySuccess (policy : val)
| createPolicyFailure (error : val)
| updatePolicy (policy : val)
| updatePolicySuccess
| updatePolicyFailure (error : val)
| copyPolicy (policy : val) (redirect : val)
| copyPolicySuccess (policy : val)
| copyPolicyFailure (error : val)
| deletePolicy (hash : string)
| deletePolicySuccess
| deletePolicyFailure (error : val)
| linkPolicyToGroup (hash : string) (group : val)
| linkPolicyToGroupSuccess
| linkPolicyToGroupFailure (error : val)
| unlinkPolicyFromGroup (hash : string) (group : val)
| unlinkPolicyFromGroupSuccess
| unlinkPolicyFromGroupFailure (error : val)
| setGridFiltration (filtration : Filtration)
| setGridFiltrationByTag (tag : string)
| setAgentsGridFiltrationByTag (tag : string)
| setGroupsGridFiltrationByTag (tag : string)
| setGridSearch (value : string)
| resetFiltration
| setGridSorting (sorting : val)
| upgradeAgents (agents : val) (version : string)
| upgradeAgentsSuccess
| upgradeAgentsFailure (error : val)
| cancelUpgradeAgent (hash : string) (task : val)
| cancelUpgradeAgentSuccess
| cancelUpgradeAgentFailure
| updatePolicyModuleConfig (module : val)
| restoreState (restoredState : RestoredState)
| resetCreatedPolicy
| resetPolicyErrors
| reset.

(** The [type] of an action, by which handlers and effects are selected. *)
Definition action_type (a : Action) : string :=
  match a with
  | updateFilters _ => "[policies] Update filters"
  | selectFilter _ => "[policies] Select filter"
  | selectGroup _ => "[policies] Select group"
  | fetchCountersByFilters => "[policies] Fetch counter by filters"
  | fetchCountersByFiltersSuccess _ => "[policies] Fetch counter by filters - Success"
  | fetchCountersByFiltersFailure => "[policies] Fetch counter by filters - Failure"
  | fetchAllPolicies _ => "[policies] Fetch all policies"
  | fetchAllPoliciesSuccess _ => "[policies] Fetch all policies - Success"
  | fetchAllPoliciesFailure => "[policies] Fetch all policies - Failure"
  | fetchPoliciesPage _ => "[policies] Fetch policies page"
  | fetchPoliciesPageSuccess _ _ => "[policies] Fetch policies page - Success"
  | fetchPoliciesPageFailure => "[policies] Fetch policies page - Failure"
  | fetchFilterItems => "[policies] Fetch filter items"
  | fetchFilterItemsSuccess _ _ _ => "[policies] Fetch filter items success"
  | fetchFilterItemsFailure _ => "[policies] Fetch filter items failure"
  | fetchAgentFilterItems => "[policies] Fetch agent filter items"
  | fetchAgentFilterItemsSuccess _ _ _ _ => "[policies] Fetch agent filter items success"
  | fetchAgentFilterItemsFailure _ => "[policies] Fetch agent filter items failure"
  | fetchEventFilterItems => "[policies] Fetch event filter items"
  | fetchEventFilterItemsSuccess _ _ _ => "[policies] Fetch event filter items success"
  | fetchEventFilterItemsFailure _ => "[policies] Fetch event filter items failure"
  | fetchGroupFilterItems => "[policies] Fetch group filter items"
  | fetchGroupFilterItemsSuccess _ _ _ => "[policies] Fetch group filter items success"
  | fetchGroupFilterItemsFailure _ => "[policies] Fetch group filter items failure"
  | fetchPolicy _ => "[policies] Fetch policy"
  | fetchPolicySuccess _ => "[policies] Fetch policy - Success"
  | fetchPolicyFailure => "[policies] Fetch policy - Failure"
  | fetchPolicyModules _ => "[policies] Fetch policy modules"
  | fetchPolicyModulesSuccess _ => "[policies] Fetch policy modules success"
  | fetchPolicyModulesFailure => "[policies] Fetch policy modules failure"
  | fetchPolicyEvents _ _ => "[policies] Fetch policy events"
  | fetchPolicyEventsSuccess _ _ => "[policies] Fetch policy events success"
  | fetchPolicyEventsFailure => "[policies] Fetch policy events failure"
  | setEventsGridFiltration _ => "[policies] Set events grid filtration"
  | setEventsGridSearch _ => "[policies] Set events grid search"
  | resetEventsFiltration => "[policies] Reset events filtration"
  | setEventsGridSorting _ => "[policies] Set events grid sorting"
  | fetchPolicyAgents _ _ => "[policies] Fetch policy agents"
  | fetchPolicyAgentsSuccess _ _ => "[policies] Fetch policy agents success"
  | fetchPolicyAgentsFailure => "[policies] Fetch policy agents failure"
  | setAgentsGridFiltration _ => "[policies] Set agents grid filtration"
  | setAgentsGridSearch _ => "[policies] Set agents grid search"
  | resetAgentsFiltration => "[policies] Reset agents filtration"
  | setAgentsGridSorting _ => "[policies] Set agents grid sorting"
  | selectAgent _ => "[policies] Select agent"
  | updateAgentData _ => "[policies] Update agent data"
  | updateAgentDataSuccess _ => "[policies] Update agent data success"
  | updateAgentDataFailure => "[policies] Update agent data failure"
  | fetchPolicyGroups _ _ => "[policies] Fetch policy groups"
  | fetchPolicyGroupsSuccess _ _ => "[policies] Fetch policy groups success"
  | fetchPolicyGroupsFailure => "[policies] Fetch policy groups failure"
  | setGroupsGridFiltration _ => "[policies] Set groups grid filtration"
  | setGroupsGridSearch _ => "[policies] Set groups grid search"
  | resetGroupsFiltration => "[policies] Reset groups filtration"
  | setGroupsGridSorting _ => "[policies] Set groups grid sorting"
  | selectPolicyGroup _ => "[policies] Select group"
  | selectPolicy _ => "[policies] Select policy"
  | selectPolicies _ => "[policies] Select policies"
  | selectPoliciesByIds _ => "[policies] Select policies by ids"
  | createPolicy _ => "[policies] Create policy"
  | createPolicySuccess _ => "[policies] Create policy - Success"
  | createPolicyFailure _ => "[policies] Create policy - Failure"
  | updatePolicy _ => "[policies] Update policy"
  | updatePolicySuccess => "[policies] Update policy - Success"
  | updatePolicyFailure _ => "[policies] Update policy - Failure"
  | copyPolicy _ _ => "[policies] Copy policy"
  | copyPolicySuccess _ => "[policies] Copy policy - Success"
  | copyPolicyFailure _ => "[policies] Copy policy - Failure"
  | deletePolicy _ => "[policies] Delete policy"
  | deletePolicySuccess => "[policies] Delete policy - Success"
  | deletePolicyFailure _ => "[policies] Delete policy - Failure"
  | linkPolicyToGroup _ _ => "[policies] Link policy to group"
  | linkPolicyToGroupSuccess => "[policies] Link policy to group - Success"
  | linkPolicyToGroupFailure _ => "[policies] Link policy to group - Failure"
  | unlinkPolicyFromGroup _ _ => "[policies] Unlink policy from group"
  | unlinkPolicyFromGroupSuccess => "[policies] Unlink policy from group - Success"
  | unlinkPolicyFromGroupFailure _ => "[policies] Unlink policy from group - Failure"
  | setGridFiltration _ => "[policies] Set filtration grid"
  | setGridFiltrationByTag _ => "[policies] Set filtration grid by tag"
  | setAgentsGridFiltrationByTag _ => "[policies] Set agents filtration grid by tag"
  | setGroupsGridFiltrationByTag _ => "[policies] Set groups filtration grid by tag"
  | setGridSearch _ => "[policies] Set search grid"
  | resetFiltration => "[policies] Reset filtration"
  | setGridSorting _ => "[policies] Set sorting grid"
  | upgradeAgents _ _ => "[policies] Upgrade selected agents"
  | upgradeAgentsSuccess => "[policies] Upgrade selected agents success"
  | upgradeAgentsFailure _ => "[policies] Upgrade selected agents failure"
  | cancelUpgradeAgent _ _ => "[policies] Cancel upgrade agent"
  | cancelUpgradeAgentSuccess => "[policies] Cancel upgrade agent success"
  | cancelUpgradeAgentFailure => "[policies] Cancel upgrade agent failure"
  | updatePolicyModuleConfig _ => "[policies] Update module config in policy"
  | restoreState _ => "[policies] Restore state"
  | resetCreatedPolicy => "[policies] Reset created policy"
  | resetPolicyErrors => "[policies] Reset policy errors"
  | reset => "[policies] reset"
  end.

(** ** Reducer *)

(** The list of policies and one policy. *)
Definition on_list (state : State) (a : Action) : res State :=
  match a with
  | updateFilters filters' => Ok { state with filters := filters'; initialized := true }
  | fetchCountersByFiltersSuccess counters => Ok { state with filtersCounters := counters }
  | fetchPoliciesPage _ => Ok { state with isLoadingPolicies := true }
  | fetchPoliciesPageSuccess data page' =>
      p ← fetchPage privatePoliciesToModels "policies" data page'
        (mkPage (policies state) (page state) (total state));
      Ok { state with isLoadingPolicies := false; policies := pageRows p; page := pageNo p;
                   total := pageTotal p }
  | fetchPoliciesPageFailure => Ok { state with isLoadingPolicies := false }
  | fetchPolicy _ => Ok { state with isLoadingPolicy := true }
  | fetchPolicySuccess data =>
      x_policy ← privatePolicyToModel data;
      Ok { state with isLoadingPolicy := false; policy := x_policy }
  | fetchPolicyFailure => Ok { state with isLoadingPolicy := false }
  | _ => Ok state
  end.

(** The values offered by the column filters. *)
Definition on_filterItems (state : State) (a : Action) : res State :=
  match a with
  | fetchFilterItems => Ok { state with isLoadingFilterItems := true }
  | fetchFilterItemsSuccess moduleNames groupIds tags =>
      Ok { state with isLoadingFilterItems := false; filterItemsModuleNames := moduleNames;
                   filterItemsGroupIds := groupIds; filterItemsTags := tags }
  | fetchFilterItemsFailure _ => Ok { state with isLoadingFilterItems := false }
  | fetchAgentFilterItems => Ok { state with isLoadingAgentFilterItems := true }
  | fetchAgentFilterItemsSuccess moduleNames groupIds os tags =>
      Ok { state with isLoadingAgentFilterItems := false; agentFilterItemGroupIds := groupIds;
                   agentFilterItemModuleNames := moduleNames; agentFilterItemOs := os;
                   agentFilterItemTags := tags }
  | fetchAgentFilterItemsFailure _ => Ok { state with isLoadingAgentFilterItems := false }
  | fetchEventFilterItems => Ok { state with isLoadingEventFilterItems := true }
  | fetchEventFilterItemsSuccess moduleIds agentNames groupIds =>
      Ok { state with isLoadingEventFilterItems := false;
                   eventFilterItemModuleIds := moduleIds;
                   eventFilterItemAgentNames := agentNames; eventFilterItemGroupIds := groupIds }
  | fetchEventFilterItemsFailure _ => Ok { state with isLoadingEventFilterItems := false }
  | fetchGroupFilterItems => Ok { state with isLoadingGroupFilterItems := true }
  | fetchGroupFilterItemsSuccess policyIds moduleNames tags =>
      Ok { state with isLoadingGroupsFilterItems := false;
                   groupFilterItemModuleNames := moduleNames;
                   groupFilterItemPolicyIds := policyIds; groupFilterItemTags := tags }
  | fetchGroupFilterItemsFailure _ => Ok { state with isLoadingGroupsFilterItems := false }
  | _ => Ok state
  end.

(** The modules and the events of the policy. *)
Definition on_modulesAndEvents (state : State) (a : Action) : res State :=
  match a with
  | fetchPolicyModules _ => Ok { state with isLoadingModules := true }
  | fetchPolicyModulesSuccess data =>
      x_modulesOfPolicy ← privatePoliciesModulesToModels data;
      Ok { state with isLoadingModules := false; modulesOfPolicy := x_modulesOfPolicy }
  | fetchPolicyModulesFailure => Ok { state with isLoadingModules := false }
  | fetchPolicyEvents _ _ => Ok { state with isLoadingEvents := true }
  | fetchPolicyEventsSuccess data page' =>
      p ← fetchPage privateEventsToModels "events" data page'
        (mkPage (policyEvents state) (eventsPage state) (eventsTotal state));
      Ok { state with isLoadingEvents := false; policyEvents := pageRows p;
                   eventsPage := pageNo p; eventsTotal := pageTotal p }
  | fetchPolicyEventsFailure => Ok { state with isLoadingEvents := false }
  | setEventsGridFiltration filtration =>
      Ok { state with eventsGridFiltration := getGridFiltration filtration (eventsGridFiltration state) }
  | setEventsGridSearch value => Ok { state with eventsGridSearch := value }
  | resetEventsFiltration => Ok { state with eventsGridFiltration := [] }
  | setEventsGridSorting sorting' => Ok { state with eventsSorting := sorting' }
  | _ => Ok state
  end.

(** The agents of the policy. *)
Definition on_agents (state : State) (a : Action) : res State :=
  match a with
  | fetchPolicyAgents _ _ => Ok { state with isLoadingAgents := true }
  | fetchPolicyAgentsSuccess data page' =>
      p ← fetchPage manyAgentsToModels "agents" data page'
        (mkPage (policyAgents state) (agentsPage state) (agentsTotal state));
      Ok { state with isLoadingAgents := false; policyAgents := pageRows p;
                   agentsPage := pageNo p; agentsTotal := pageTotal p }
  | fetchPolicyAgentsFailure => Ok { state with isLoadingAgents := false }
  | setAgentsGridFiltration filtration =>
      Ok { state with agentsGridFiltration := getGridFiltration filtration (agentsGridFiltration state) }
  | setAgentsGridSearch value => Ok { state with agentsGridSearch := value }
  | resetAgentsFiltration => Ok { state with agentsGridFiltration := [] }
  | setAgentsGridSorting sorting' => Ok { state with agentsSorting := sorting' }
  | selectAgent id => Ok { state with selectedAgentId := id }
  | updateAgentData _ => Ok { state with isUpdatingAgentData := true }
  | updateAgentDataSuccess data =>
      updated ← (agents ← manyAgentsToModels data; get agents "0");
      l ← replaceById updated (policyAgents state);
      Ok { state with policyAgents := l; isUpdatingAgentData := false }
  | updateAgentDataFailure => Ok { state with isUpdatingAgentData := false }
  | _ => Ok state
  end.

(** The groups of the policy. *)
Definition on_groups (state : State) (a : Action) : res State :=
  match a with
  | fetchPolicyGroups _ _ => Ok { state with isLoadingGroups := true }
  | fetchPolicyGroupsSuccess data page' =>
      p ← fetchPage privateGroupsToModels "groups" data page'
        (mkPage (policyGroups state) (groupsPage state) (groupsTotal state));
      Ok { state with isLoadingGroups := false; policyGroups := pageRows p;
                   groupsPage := pageNo p; groupsTotal := pageTotal p }
  | fetchPolicyGroupsFailure => Ok { state with isLoadingGroups := false }
  | setGroupsGridFiltration filtration =>
      Ok { state with groupsGridFiltration := getGridFiltration filtration (groupsGridFiltration state) }
  | setGroupsGridSearch value => Ok { state with groupsGridSearch := value }
  | resetGroupsFiltration => Ok { state with groupsGridFiltration := [] }
  | setGroupsGridSorting sorting' => Ok { state with groupsSorting := sorting' }
  | selectPolicyGroup id | selectGroup id => Ok { state with selectedPolicyGroupId := id }
  | _ => Ok state
  end.

(** Create, update, copy, delete, link, unlink. *)
Definition on_operations (state : State) (a : Action) : res State :=
  match a with
  | createPolicy _ => Ok { state with isCreatingPolicy := true; createError := VUndef }
  | createPolicySuccess policy' =>
      Ok { state with isCreatingPolicy := false; createdPolicy := policy' }
  | createPolicyFailure error =>
      Ok { state with isCreatingPolicy := false; createdPolicy := VUndef; createError := error }
  | updatePolicy _ => Ok { state with isUpdatingPolicy := true; updateError := VUndef }
  | updatePolicySuccess => Ok { state with isUpdatingPolicy := false }
  | updatePolicyFailure error =>
      Ok { state with isUpdatingPolicy := false; updateError := error }
  | copyPolicy _ _ => Ok { state with isCopyingPolicy := true; copyError := VUndef }
  | copyPolicySuccess policy' =>
      Ok { state with isCopyingPolicy := false; createdPolicy := policy' }
  | copyPolicyFailure error =>
      Ok { state with isCopyingPolicy := false; createdPolicy := VUndef; copyError := error }
  | deletePolicy _ => Ok { state with isDeletingPolicy := true; deleteError := VUndef }
  | deletePolicySuccess => Ok { state with isDeletingPolicy := false }
  | deletePolicyFailure error =>
      Ok { state with isDeletingPolicy := false; deleteError := error }
  | linkPolicyToGroup _ _ =>
      Ok { state with isLinkingPolicy := true; linkPolicyFromGroupError := VUndef }
  | linkPolicyToGroupSuccess => Ok { state with isLinkingPolicy := false }
  | linkPolicyToGroupFailure error =>
      Ok { state with isLinkingPolicy := false; linkPolicyFromGroupError := error }
  | unlinkPolicyFromGroup _ _ =>
      Ok { state with isUnlinkingPolicy := true; unlinkPolicyFromGroupError := VUndef }
  | unlinkPolicyFromGroupSuccess => Ok { state with isUnlinkingPolicy := false }
  | unlinkPolicyFromGroupFailure error =>
      Ok { state with isUnlinkingPolicy := false; unlinkPolicyFromGroupError := error }
  | _ => Ok state
  end.

(** Filters, search, sorting of the list. *)
Definition on_filtration (state : State) (a : Action) : res State :=
  match a with
  | selectFilter id =>
      Ok { state with selectedFilterId := id; selectedGroupId := VUndef; gridFiltration := [];
                   gridSearch := "" }
  | selectGroup id | selectPolicyGroup id =>
      Ok { state with selectedGroupId := id; selectedFilterId := VUndef; gridFiltration := [];
                   gridSearch := "" }
  | setGridFiltration filtration =>
      Ok { state with gridFiltration := getGridFiltration filtration (gridFiltration state) }
  | setGridFiltrationByTag tag =>
      Ok { state with gridFiltration := getGridFiltrationByTag (gridFiltration state) tag }
  | setAgentsGridFiltrationByTag tag =>
      Ok { state with agentsGridFiltration := getGridFiltrationByTag (agentsGridFiltration state) tag }
  | setGroupsGridFiltrationByTag tag =>
      Ok { state with groupsGridFiltration := getGridFiltrationByTag (groupsGridFiltration state) tag }
  | setGridSearch value => Ok { state with gridSearch := value; page := vint 1 }
  | resetFiltration => Ok { state with gridFiltration := []; page := vint 1 }
  | setGridSorting sorting' => Ok { state with sorting := sorting'; page := vint 1 }
  | _ => Ok state
  end.

(** Agent upgrades. *)
Definition on_upgrade (state : State) (a : Action) : res State :=
  match a with
  | upgradeAgents _ _ => Ok { state with isUpgradingAgents := true }
  | upgradeAgentsSuccess => Ok { state with isUpgradingAgents := false }
  | upgradeAgentsFailure _ => Ok { state with isUpgradingAgents := false }
  | cancelUpgradeAgent _ _ => Ok { state with isCancelUpgradingAgent := true }
  | cancelUpgradeAgentSuccess => Ok { state with isCancelUpgradingAgent := false }
  | cancelUpgradeAgentFailure => Ok { state with isCancelUpgradingAgent := false }
  | _ => Ok state
  end.

(** Selection, configuration of a module, resets. *)
Definition on_state (state : State) (a : Action) : res State :=
  match a with
  | selectPolicy id => Ok { state with selectedPolicyId := VStr id }
  | selectPolicies policies' =>
      x_selectedIds ← mapIds policies';
      Ok { state with selectedIds := x_selectedIds }
  | selectPoliciesByIds ids => Ok { state with selectedIds := ids }
  | updatePolicyModuleConfig module =>
      modules ← map_array (λ item,
        id ← get module "id";
        item_id ← get item "id";
        Ok (if strict_eq id item_id then spread module [] else item))
        (clone (modulesOfPolicy state));
      Ok { state with modulesOfPolicy := modules }
  | restoreState r =>
      Ok { state with restored := true; gridFiltration := restoredFiltration r;
                   gridSearch := restoredSearch r; sorting := restoredSorting r }
  | resetCreatedPolicy => Ok { state with createdPolicy := VUndef }
  | resetPolicyErrors =>
      Ok { state with copyError := VUndef; createError := VUndef; deleteError := VUndef;
                   linkPolicyFromGroupError := VUndef; unlinkPolicyFromGroupError := VUndef;
                   updateError := VUndef }
  | reset => Ok initialState
  | _ => Ok state
  end.

(** Every handler is the identity on the actions it is not registered for. *)
Definition handlers : list (State → Action → res State) :=
  [on_list; on_filterItems; on_modulesAndEvents; on_agents; on_groups; on_operations; on_filtration; on_upgrade; on_state].

Definition reducer (state : State) (a : Action) : res State :=
  foldM (λ s handler, handler s a) state handlers.
