(* ===== verification/GroupsStore.v ===== *)
(** * Groups store

    [libs/store/groups/src/lib/groups.reducer.ts] and [groups.actions.ts]: the
    list of groups with its filters, and the agents, policies, events and
    modules of the selected group. *)

From S2P Require Import Prelude JsValue JsJson Models Filtration Paging.

(** ** State *)

Record State := mkState {
  agentFilterItemGroupIds : val;
  agentFilterItemModuleNames : val;
  agentFilterItemOs : val;
  agentFilterItemTags : val;
  agentsGridFiltration : list Filtration;
  agentsGridSearch : string;
  agentsGridSorting : val;
  agentsPage : val;
  agentsTotal : val;
  copyError : val;
  createError : val;
  createdGroup : val;
  deleteError : val;
  eventFilterItemAgentNames : val;
  eventFilterItemModuleIds : val;
  eventFilterItemPolicyIds : val;
  eventsGridFiltration : list Filtration;
  eventsGridSearch : string;
  eventsPage : val;
  eventsSorting : val;
  eventsTotal : val;
  filterItemsModuleNames : val;
  filterItemsPolicyIds : val;
  filterItemsTags : val;
  gridFiltration : list Filtration;
  gridSearch : string;
  group : val;
  groupAgents : val;
  groupEvents : val;
  groupPolicies : val;
  groups : val;
  isCancelUpgradingAgent : bool;
  isCopyingGroup : bool;
  isCreatingGroup : bool;
  isDeletingGroup : bool;
  isLinkingGroup : bool;
  isLoadingAgentFilterItems : bool;
  isLoadingAgents : bool;
  isLoadingEventFilterItems : bool;
  isLoadingEvents : bool;
  isLoadingFilterItems : bool;
  isLoadingGroup : bool;
  isLoadingGroups : bool;
  isLoadingPolicies : bool;
  isLoadingPolicyFilterItems : bool;
  isUnlinkingGroup : bool;
  isUpdatingAgentData : bool;
  isUpdatingGroup : bool;
  isUpgradingAgents : bool;
  linkGroupToPolicyError : val;
  modulesOfGroup : val;
  page : val;
  policiesGridFiltration : list Filtration;
  policiesGridSearch : string;
  policiesGridSorting : val;
  policiesPage : val;
  policiesTotal : val;
  policyFilterItemModuleNames : val;
  policyFilterItemTags : val;
  restored : bool;
  selectedAgentId : val;
  selectedGroupId : val;
  selectedIds : val;
  selectedPolicyId : val;
  sorting : val;
  total : val;
  unlinkGroupFromPolicyError : val;
  updateError : val
}.

#[export] Instance State_eta : Eta State := ltac:(eta_of State).

Definition initialState : State := {|
  agentFilterItemGroupIds := VArr [];
  agentFilterItemModuleNames := VArr [];
  agentFilterItemOs := VArr [];
  agentFilterItemTags := VArr [];
  agentsGridFiltration := [];
  agentsGridSearch := "";
  agentsGridSorting := VObj [];
  agentsPage := vint 0;
  agentsTotal := vint 0;
  copyError := VUndef;
  createError := VUndef;
  createdGroup := VUndef;
  deleteError := VUndef;
  eventFilterItemAgentNames := VArr [];
  eventFilterItemModuleIds := VArr [];
  eventFilterItemPolicyIds := VArr [];
  eventsGridFiltration := [];
  eventsGridSearch := "";
  eventsPage := vint 0;
  eventsSorting := VObj [];
  eventsTotal := vint 0;
  filterItemsModuleNames := VArr [];
  filterItemsPolicyIds := VArr [];
  filterItemsTags := VArr [];
  gridFiltration := [];
  gridSearch := "";
  group := VUndef;
  groupAgents := VArr [];
  groupEvents := VArr [];
  groupPolicies := VArr [];
  groups := VArr [];
  isCancelUpgradingAgent := false;
  isCopyingGroup := false;
  isCreatingGroup := false;
  isDeletingGroup := false;
  isLinkingGroup := false;
  isLoadingAgentFilterItems := false;
  isLoadingAgents := false;
  isLoadingEventFilterItems := false;
  isLoadingEvents := false;
  isLoadingFilterItems := false;
  isLoadingGroup := false;
  isLoadingGroups := false;
  isLoadingPolicies := false;
  isLoadingPolicyFilterItems := false;
  isUnlinkingGroup := false;
  isUpdatingAgentData := false;
  isUpdatingGroup := false;
  isUpgradingAgents := false;
  linkGroupToPolicyError := VUndef;
  modulesOfGroup := VArr [];
  page := vint 0;
  policiesGridFiltration := [];
  policiesGridSearch := "";
  policiesGridSorting := VObj [];
  policiesPage := vint 0;
  policiesTotal := vint 0;
  policyFilterItemModuleNames := VArr [];
  policyFilterItemTags := VArr [];
  restored := false;
  selectedAgentId := VUndef;
  selectedGroupId := VUndef;
  selectedIds := VArr [];
  selectedPolicyId := VUndef;
  sorting := VObj [];
  total := vint 0;
  unlinkGroupFromPolicyError := VUndef;
  updateError := VUndef
|}.

(** ** Actions *)

Inductive Action :=
| fetchGroupsPage (page : val)
| fetchGroupsPageSuccess (data : val) (page : Z)
| fetchGroupsPageFailure
| fetchGroup (hash : string)
| fetchGroupSuccess (data : val) (modules : val)
| fetchGroupFailure
| selectGroup (id : string)
| selectGroups (groups : val)
| createGroup (group : val)
| createGroupSuccess (group : val)
| createGroupFailure (error : val)
| updateGroup (group : val)
| updateGroupSuccess
| updateGroupFailure (error : val)
| copyGroup (group : val) (redirect : val)
| copyGroupSuccess (group : val)
| copyGroupFailure (error : val)
| deleteGroup (hash : string)
| deleteGroupSuccess
| deleteGroupFailure (error : val)
| linkGroupToPolicy (hash : string) (policy : val)
| linkGroupToPolicySuccess
| linkGroupToPolicyFailure (error : val)
| unlinkGroupFromPolicy (hash : string) (policy : val)
| unlinkGroupFromPolicySuccess
| unlinkGroupFromPolicyFailure (error : val)
| fetchGroupAgents (id : val) (page : val)
| fetchGroupAgentsSuccess (data : val) (page : Z)
| fetchGroupAgentsFailure
| setAgentsGridSearch (value : string)
| setAgentsGridFiltration (filtration : Filtration)
| resetAgentsFiltration
| setAgentsGridSorting (sorting : val)
| selectAgent (id : val)
| updateAgentData (agent : val)
| updateAgentDataSuccess (data : val)
| updateAgentDataFailure
| fetchGroupEvents (id : val) (page : val)
| fetchGroupEventsSuccess (data : val) (page : Z)
| fetchGroupEventsFailure
| fetchFilterItems
| fetchFilterItemsSuccess (policyIds : val) (moduleNames : val) (tags : val)
| fetchFilterItemsFailure (error : val)
| setEventsGridFiltration (filtration : Filtration)
| setEventsGridSearch (value : string)
| resetEventsFiltration
| setEventsGridSorting (sorting : val)
| fetchGroupPolicies (id : val) (page : val)
| fetchGroupPoliciesSuccess (data : val) (page : Z)
| fetchGroupPoliciesFailure
| setPoliciesGridFiltration (filtration : Filtration)
| setPoliciesGridSearch (value : string)
| resetPoliciesFiltration
| setPoliciesGridSorting (sorting : val)
| selectPolicy (id : val)
| setGridFiltration (filtration : Filtration)
| setGridFiltrationByTag (tag : string)
| setAgentsGridFiltrationByTag (tag : string)
| setPoliciesGridFiltrationByTag (tag : string)
| setGridSearch (value : string)
| resetFiltration
| setGridSorting (sorting : val)
| fetchAgentFilterItems
| fetchAgentFilterItemsSuccess (moduleNames : val) (groupIds : val) (os : val) (tags : val)
| fetchAgentFilterItemsFailure (error : val)
| fetchPolicyFilterItems
| fetchPolicyFilterItemsSuccess (moduleNames : val) (tags : val)
| fetchPolicyFilterItemsFailure (error : val)
| fetchEventFilterItems
| fetchEventFilterItemsSuccess (moduleIds : val) (agentNames : val) (policyIds : val)
| fetchEventFilterItemsFailure (error : val)
| upgradeAgents (agents : val) (version : string)
| upgradeAgentsSuccess
| upgradeAgentsFailure (error : val)
| cancelUpgradeAgent (hash : string) (task : val)
| cancelUpgradeAgentSuccess
| cancelUpgradeAgentFailure
| restoreState (restoredState : RestoredState)
| resetCreatedGroup
| resetGroupErrors
| reset.

(** The [type] of an action, by which handlers and effects are selected. *)
Definition action_type (a : Action) : string :=
  match a with
  | fetchGroupsPage _ => "[groups] Fetch groups page"
  | fetchGroupsPageSuccess _ _ => "[groups] Fetch groups page - Success"
  | fetchGroupsPageFailure => "[groups] Fetch groups page - Failure"
  | fetchGroup _ => "[groups] Fetch group"
  | fetchGroupSuccess _ _ => "[groups] Fetch group - Success"
  | fetchGroupFailure => "[groups] Fetch group - Failure"
  | selectGroup _ => "[group] Select group"
  | selectGroups _ => "[group] Select groups"
  | createGroup _ => "[group] Create group"
  | createGroupSuccess _ => "[group] Create group - Success"
  | createGroupFailure _ => "[group] Create group - Failure"
  | updateGroup _ => "[groups] Update group"
  | updateGroupSuccess => "[groups] Update group - Success"
  | updateGroupFailure _ => "[groups] Update group - Failure"
  | copyGroup _ _ => "[groups] Copy group"
  | copyGroupSuccess _ => "[groups] Copy group - Success"
  | copyGroupFailure _ => "[groups] Copy group - Failure"
  | deleteGroup _ => "[groups] Delete group"
  | deleteGroupSuccess => "[groups] Delete group - Success"
  | deleteGroupFailure _ => "[groups] Delete group - Failure"
  | linkGroupToPolicy _ _ => "[groups] Link group to policy"
  | linkGroupToPolicySuccess => "[groups] Link group to policy - Success"
  | linkGroupToPolicyFailure _ => "[groups] Link group to policy - Failure"
  | unlinkGroupFromPolicy _ _ => "[groups] Unlink group from policy"
  | unlinkGroupFromPolicySuccess => "[groups] Unlink group from policy - Success"
  | unlinkGroupFromPolicyFailure _ => "[groups] Unlink group from policy - Failure"
  | fetchGroupAgents _ _ => "[groups] Fetch group agents"
  | fetchGroupAgentsSuccess _ _ => "[groups] Fetch group agents success"
  | fetchGroupAgentsFailure => "[groups] Fetch group agents failure"
  | setAgentsGridSearch _ => "[groups] Set agents grid search"
  | setAgentsGridFiltration _ => "[groups] Set agents grid filtration"
  | resetAgentsFiltration => "[groups] Reset agents filtration"
  | setAgentsGridSorting _ => "[groups] Set agents grid sorting"
  | selectAgent _ => "[groups] Select agent"
  | updateAgentData _ => "[groups] Update agent data"
  | updateAgentDataSuccess _ => "[groups] Update agent data success"
  | updateAgentDataFailure => "[groups] Update agent data failure"
  | fetchGroupEvents _ _ => "[groups] Fetch group events"
  | fetchGroupEventsSuccess _ _ => "[groups] Fetch group events success"
  | fetchGroupEventsFailure => "[groups] Fetch group events failure"
  | fetchFilterItems => "[groups] Fetch filter items"
  | fetchFilterItemsSuccess _ _ _ => "[groups] Fetch filter items success"
  | fetchFilterItemsFailure _ => "[groups] Fetch filter items failure"
  | setEventsGridFiltration _ => "[groups] Set events grid filtration"
  | setEventsGridSearch _ => "[groups] Set events grid search"
  | resetEventsFiltration => "[groups] Reset events filtration"
  | setEventsGridSorting _ => "[groups] Set events grid sorting"
  | fetchGroupPolicies _ _ => "[groups] Fetch group policies"
  | fetchGroupPoliciesSuccess _ _ => "[groups] Fetch group policies success"
  | fetchGroupPoliciesFailure => "[groups] Fetch group policies failure"
  | setPoliciesGridFiltration _ => "[groups] Set policies grid search"
  | setPoliciesGridSearch _ => "[groups] Set policies grid filtration"
  | resetPoliciesFiltration => "[groups] Reset policies filtration"
  | setPoliciesGridSorting _ => "[groups] Set policies grid sorting"
  | selectPolicy _ => "[groups] Select policy"
  | setGridFiltration _ => "[groups] Set filtration grid"
  | setGridFiltrationByTag _ => "[groups] Set filtration grid by tag"
  | setAgentsGridFiltrationByTag _ => "[groups] Set agents filtration grid by tag"
  | setPoliciesGridFiltrationByTag _ => "[groups] Set policies filtration grid by tag"
  | setGridSearch _ => "[groups] Set search grid"
  | resetFiltration => "[groups] Reset filtration"
  | setGridSorting _ => "[groups] Set sorting grid"
  | fetchAgentFilterItems => "[groups] Fetch agent filter items"
  | fetchAgentFilterItemsSuccess _ _ _ _ => "[groups] Fetch agent filter items success"
  | fetchAgentFilterItemsFailure _ => "[groups] Fetch agent filter items failure"
  | fetchPolicyFilterItems => "[groups] Fetch policy filter items"
  | fetchPolicyFilterItemsSuccess _ _ => "[groups] Fetch policy filter items success"
  | fetchPolicyFilterItemsFailure _ => "[groups] Fetch policy filter items failure"
  | fetchEventFilterItems => "[groups] Fetch event filter items"
  | fetchEventFilterItemsSuccess _ _ _ => "[groups] Fetch event filter items success"
  | fetchEventFilterItemsFailure _ => "[groups] Fetch event filter items failure"
  | upgradeAgents _ _ => "[groups] Upgrade selected agents"
  | upgradeAgentsSuccess => "[groups] Upgrade selected agents success"
  | upgradeAgentsFailure _ => "[groups] Upgrade selected agents failure"
  | cancelUpgradeAgent _ _ => "[groups]  Cancel upgrade agent"
  | cancelUpgradeAgentSuccess => "[groups]  Cancel upgrade agent success"
  | cancelUpgradeAgentFailure => "[groups]  Cancel upgrade agent failure"
  | restoreState _ => "[groups] Restore state"
  | resetCreatedGroup => "[groups] reset created group"
  | resetGroupErrors => "[groups] reset group errors"
  | reset => "[groups] reset"
  end.

(** ** Reducer *)

(** The list of groups. *)
Definition on_list (state : State) (a : Action) : res State :=
  match a with
  | fetchGroupsPage _ => Ok { state with isLoadingGroups := true }
  | fetchGroupsPageSuccess data page' =>
      p ← fetchPage privateGroupsToModels "groups" data page'
        (mkPage (groups state) (page state) (total state));
      Ok { state with isLoadingGroups := false; groups := pageRows p; page := pageNo p;
                   total := pageTotal p }
  | fetchGroupsPageFailure => Ok { state with isLoadingGroups := false }
  | _ => Ok state
  end.

(** The agents of the group. *)
Definition on_agents (state : State) (a : Action) : res State :=
  match a with
  | fetchGroupAgents _ _ => Ok { state with isLoadingAgents := true }
  | fetchGroupAgentsSuccess data page' =>
      p ← fetchPage manyAgentsToModels "agents" data page'
        (mkPage (groupAgents state) (agentsPage state) (agentsTotal state));
      Ok { state with isLoadingAgents := false; groupAgents := pageRows p;
                   agentsPage := pageNo p; agentsTotal := pageTotal p }
  | fetchGroupAgentsFailure => Ok { state with isLoadingAgents := false }
  | setAgentsGridSearch value => Ok { state with agentsGridSearch := value }
  | setAgentsGridFiltration filtration =>
      Ok { state with agentsGridFiltration := getGridFiltration filtration (agentsGridFiltration state) }
  | setAgentsGridSorting sorting' => Ok { state with agentsGridSorting := sorting' }
  | selectAgent id => Ok { state with selectedAgentId := id }
  | resetAgentsFiltration => Ok { state with agentsGridFiltration := [] }
  | updateAgentData _ => Ok { state with isUpdatingAgentData := true }
  | updateAgentDataSuccess data =>
      updated ← (agents ← manyAgentsToModels data; get agents "0");
      l ← replaceById updated (groupAgents state);
      Ok { state with groupAgents := l; isUpdatingAgentData := false }
  | updateAgentDataFailure => Ok { state with isUpdatingAgentData := false }
  | _ => Ok state
  end.

(** One group, its events, the column filters. *)
Definition on_group (state : State) (a : Action) : res State :=
  match a with
  | fetchGroup _ => Ok { state with isLoadingGroup := true }
  | fetchGroupSuccess data modules =>
      x_group ← privateGroupToModel data;
      x_modulesOfGroup ← privateGroupModulesToModels modules;
      Ok { state with isLoadingGroup := false; group := x_group;
                   modulesOfGroup := x_modulesOfGroup }
  | fetchGroupFailure => Ok { state with isLoadingGroup := false }
  | fetchGroupEvents _ _ => Ok { state with isLoadingEvents := true }
  | fetchGroupEventsSuccess data page' =>
      p ← fetchPage privateEventsToModels "events" data page'
        (mkPage (groupEvents state) (eventsPage state) (eventsTotal state));
      Ok { state with isLoadingEvents := false; groupEvents := pageRows p;
                   eventsPage := pageNo p; eventsTotal := pageTotal p }
  | fetchGroupEventsFailure => Ok { state with isLoadingEvents := false }
  | fetchFilterItems => Ok { state with isLoadingFilterItems := true }
  | fetchFilterItemsSuccess policyIds moduleNames tags =>
      Ok { state with isLoadingFilterItems := false; filterItemsPolicyIds := policyIds;
                   filterItemsModuleNames := moduleNames; filterItemsTags := tags }
  | fetchFilterItemsFailure _ => Ok { state with isLoadingFilterItems := false }
  | setEventsGridFiltration filtration =>
      Ok { state with eventsGridFiltration := getGridFiltration filtration (eventsGridFiltration state) }
  | setEventsGridSearch value => Ok { state with eventsGridSearch := value }
  | resetEventsFiltration => Ok { state with eventsGridFiltration := [] }
  | setEventsGridSorting sorting' => Ok { state with eventsSorting := sorting' }
  | _ => Ok state
  end.

(** The policies of the group and their filters. *)
Definition on_policies (state : State) (a : Action) : res State :=
  match a with
  | fetchGroupPolicies _ _ => Ok { state with isLoadingPolicies := true }
  | fetchGroupPoliciesSuccess data page' =>
      p ← fetchPage privatePoliciesToModels "policies" data page'
        (mkPage (groupPolicies state) (policiesPage state) (policiesTotal state));
      Ok { state with isLoadingPolicies := false; groupPolicies := pageRows p;
                   policiesPage := pageNo p; policiesTotal := pageTotal p }
  | fetchGroupPoliciesFailure => Ok { state with isLoadingPolicies := false }
  | fetchAgentFilterItems => Ok { state with isLoadingAgentFilterItems := true }
  | fetchAgentFilterItemsSuccess moduleNames groupIds os tags =>
      Ok { state with isLoadingAgentFilterItems := false; agentFilterItemGroupIds := groupIds;
                   agentFilterItemModuleNames := moduleNames; agentFilterItemOs := os;
                   agentFilterItemTags := tags }
  | fetchAgentFilterItemsFailure _ => Ok { state with isLoadingAgentFilterItems := false }
  | fetchPolicyFilterItems => Ok { state with isLoadingPolicyFilterItems := true }
  | fetchPolicyFilterItemsSuccess moduleNames tags =>
      Ok { state with isLoadingPolicyFilterItems := false;
                   policyFilterItemModuleNames := moduleNames; policyFilterItemTags := tags }
  | fetchPolicyFilterItemsFailure _ => Ok { state with isLoadingPolicyFilterItems := false }
  | fetchEventFilterItems => Ok { state with isLoadingEventFilterItems := true }
  | fetchEventFilterItemsSuccess moduleIds agentNames policyIds =>
      Ok { state with isLoadingEventFilterItems := false;
                   eventFilterItemModuleIds := moduleIds;
                   eventFilterItemAgentNames := agentNames;
                   eventFilterItemPolicyIds := policyIds }
  | fetchEventFilterItemsFailure _ => Ok { state with isLoadingEventFilterItems := false }
  | setPoliciesGridFiltration filtration =>
      Ok { state with policiesGridFiltration := getGridFiltration filtration (policiesGridFiltration state) }
  | setPoliciesGridSorting sorting' => Ok { state with policiesGridSorting := sorting' }
  | setPoliciesGridSearch value => Ok { state with policiesGridSearch := value }
  | resetPoliciesFiltration => Ok { state with policiesGridFiltration := [] }
  | selectPolicy id => Ok { state with selectedPolicyId := id }
  | _ => Ok state
  end.

(** Create, update, copy, delete, link, unlink. *)
Definition on_operations (state : State) (a : Action) : res State :=
  match a with
  | createGroup _ => Ok { state with isCreatingGroup := true; createError := VUndef }
  | createGroupSuccess group' =>
      Ok { state with createdGroup := group'; isCreatingGroup := false }
  | createGroupFailure error =>
      Ok { state with isCreatingGroup := false; createdGroup := VUndef; createError := error }
  | updateGroup _ => Ok { state with isUpdatingGroup := true; updateError := VUndef }
  | updateGroupSuccess => Ok { state with isUpdatingGroup := false }
  | updateGroupFailure error => Ok { state with isUpdatingGroup := false; updateError := error }
  | copyGroup _ _ => Ok { state with isCopyingGroup := true; copyError := VUndef }
  | copyGroupSuccess group' => Ok { state with isCopyingGroup := false; createdGroup := group' }
  | copyGroupFailure error =>
      Ok { state with isCopyingGroup := false; createdGroup := VUndef; copyError := error }
  | deleteGroup _ => Ok { state with isDeletingGroup := true; deleteError := VUndef }
  | deleteGroupSuccess => Ok { state with isDeletingGroup := false }
  | deleteGroupFailure error => Ok { state with isDeletingGroup := false; deleteError := error }
  | linkGroupToPolicy _ _ =>
      Ok { state with isLinkingGroup := true; linkGroupToPolicyError := VUndef }
  | linkGroupToPolicySuccess => Ok { state with isLinkingGroup := false }
  | linkGroupToPolicyFailure error =>
      Ok { state with isLinkingGroup := false; linkGroupToPolicyError := error }
  | unlinkGroupFromPolicy _ _ =>
      Ok { state with isUnlinkingGroup := true; unlinkGroupFromPolicyError := VUndef }
  | unlinkGroupFromPolicySuccess => Ok { state with isUnlinkingGroup := false }
  | unlinkGroupFromPolicyFailure error =>
      Ok { state with isUnlinkingGroup := false; unlinkGroupFromPolicyError := error }
  | _ => Ok state
  end.

(** Filters, search, sorting and selection of the list. *)
Definition on_filtration (state : State) (a : Action) : res State :=
  match a with
  | setGridFiltration filtration =>
      Ok { state with gridFiltration := getGridFiltration filtration (gridFiltration state) }
  | setGridFiltrationByTag tag =>
      Ok { state with gridFiltration := getGridFiltrationByTag (gridFiltration state) tag }
  | setAgentsGridFiltrationByTag tag =>
      Ok { state with agentsGridFiltration := getGridFiltrationByTag (agentsGridFiltration state) tag }
  | setPoliciesGridFiltrationByTag tag =>
      Ok { state with policiesGridFiltration := getGridFiltrationByTag (policiesGridFiltration state) tag }
  | setGridSearch value => Ok { state with gridSearch := value; page := vint 1 }
  | resetFiltration => Ok { state with gridFiltration := []; page := vint 1 }
  | setGridSorting sorting' => Ok { state with sorting := sorting'; page := vint 1 }
  | selectGroup id => Ok { state with selectedGroupId := VStr id }
  | selectGroups groups' =>
      x_selectedIds ← mapIds groups';
      Ok { state with selectedIds := x_selectedIds }
  | _ => Ok state
  end.

(** Agent upgrades, resets. *)
Definition on_upgrade (state : State) (a : Action) : res State :=
  match a with
  | upgradeAgents _ _ => Ok { state with isUpgradingAgents := true }
  | upgradeAgentsSuccess => Ok { state with isUpgradingAgents := false }
  | upgradeAgentsFailure _ => Ok { state with isUpgradingAgents := false }
  | cancelUpgradeAgent _ _ => Ok { state with isCancelUpgradingAgent := true }
  | cancelUpgradeAgentSuccess => Ok { state with isCancelUpgradingAgent := false }
  | cancelUpgradeAgentFailure => Ok { state with isCancelUpgradingAgent := false }
  | restoreState r =>
      Ok { state with restored := true; gridFiltration := restoredFiltration r;
                   gridSearch := restoredSearch r; sorting := restoredSorting r }
  | resetCreatedGroup => Ok { state with createdGroup := VUndef }
  | resetGroupErrors =>
      Ok { state with copyError := VUndef; createError := VUndef; deleteError := VUndef;
                   linkGroupToPolicyError := VUndef; unlinkGroupFromPolicyError := VUndef;
                   updateError := VUndef }
  | reset => Ok initialState
  | _ => Ok state
  end.

(** Every handler is the identity on the actions it is not registered for. *)
Definition handlers : list (State → Action → res State) :=
  [on_list; on_agents; on_group; on_policies; on_operations; on_filtration; on_upgrade].

Definition reducer (state : State) (a : Action) : res State :=
  foldM (λ s handler, handler s a) state handlers.
