(* ===== verification/AgentListStore.v ===== *)
(** * Agent list store

    [libs/store/agents/src/lib/list/agent-list.reducer.ts] and
    [agent-list.actions.ts]. *)

From S2P Require Import Prelude JsValue JsJson Models Filtration Paging.

(** ** State *)

Record State := mkState {
  agent : val;
  agents : val;
  deleteError : val;
  filterItemsGroupIds : val;
  filterItemsModuleNames : val;
  filterItemsOs : val;
  filterItemsTags : val;
  filterItemsVersions : val;
  filters : val;
  filtersCounters : val;
  gridFiltration : list Filtration;
  gridSearch : string;
  initialized : bool;
  isBlockingAgents : bool;
  isCancelUpgradingAgent : bool;
  isDeletingAgents : bool;
  isDeletingFromGroup : bool;
  isInitializedAgent : bool;
  isLoadingAgent : bool;
  isLoadingAgentFilterItems : bool;
  isLoadingAgents : bool;
  isMovingAgents : bool;
  isUpdatingAgentData : bool;
  isUpdatingAgents : bool;
  isUpgradingAgents : bool;
  moveToGroupError : val;
  page : val;
  restored : bool;
  selectedAgentModules : val;
  selectedFilterId : val;
  selectedGroupId : val;
  selectedIds : val;
  sorting : val;
  total : val;
  updateError : val;
  versions : val
}.

#[export] Instance State_eta : Eta State := ltac:(eta_of State).

Definition initialState : State := {|
  agent := VUndef;
  agents := VArr [];
  deleteError := VUndef;
  filterItemsGroupIds := VArr [];
  filterItemsModuleNames := VArr [];
  filterItemsOs := VArr [];
  filterItemsTags := VArr [];
  filterItemsVersions := VArr [];
  filters := VArr [];
  filtersCounters := obj_lit [("all", vint 0); ("authorized", vint 0); ("blocked", vint 0); ("unauthorized", vint 0); ("without_groups", vint 0)];
  gridFiltration := [];
  gridSearch := "";
  initialized := false;
  isBlockingAgents := false;
  isCancelUpgradingAgent := false;
  isDeletingAgents := false;
  isDeletingFromGroup := false;
  isInitializedAgent := false;
  isLoadingAgent := false;
  isLoadingAgentFilterItems := false;
  isLoadingAgents := false;
  isMovingAgents := false;
  isUpdatingAgentData := false;
  isUpdatingAgents := false;
  isUpgradingAgents := false;
  moveToGroupError := VUndef;
  page := vint 0;
  restored := false;
  selectedAgentModules := VArr [];
  selectedFilterId := VUndef;
  selectedGroupId := VUndef;
  selectedIds := VArr [];
  sorting := VObj [];
  total := vint 0;
  updateError := VUndef;
  versions := VArr []
|}.

(** ** Actions *)

Inductive Action :=
| updateFilters (filters : val)
| selectFilter (id : val)
| selectGroup (id : val)
| fetchCountersByFilters
| fetchCountersByFiltersSuccess (counters : val)
| fetchCountersByFiltersFailure
| fetchAgentsPage (page : val)
| fetchAgentsPageSuccess (data : val) (page : Z)
| fetchAgentsFailure
| fetchFilterItems
| fetchFilterItemsSuccess (versions : val) (moduleNames : val) (groupIds : val) (os : val) (tags : val)
| fetchFilterItemsFailure (error : val)
| updateAgentData (agents : val)
| updateAgentDataSuccess (data : val)
| updateAgentDataFailure (error : val)
| fetchAgentsVersions
| fetchAgentsVersionsSuccess (versions : val)
| selectAgents (agents : val)
| selectAgentsByIds (ids : val)
| fetchAgent (hash : string)
| fetchAgentSuccess (data : val) (modules : val)
| fetchAgentFailure
| upgradeAgents (agents : val) (version : string)
| upgradeAgentsSuccess
| upgradeAgentsFailure (error : val)
| cancelUpgradeAgent (hash : string) (task : val)
| cancelUpgradeAgentSuccess
| cancelUpgradeAgentFailure
| moveAgentsToGroup (ids : val) (groupId : val)
| moveAgentsToGroupSuccess
| moveAgentsToGroupFailure (error : val)
| moveAgentsToNewGroup (ids : val) (groupName : string)
| moveAgentsToNewGroupSuccess
| moveAgentsToNewGroupFailure (error : val)
| updateAgent (agent : val)
| updateAgentSuccess
| updateAgentFailure (error : val)
| blockAgents (ids : val)
| blockAgentsSuccess
| blockAgentsFailure (error : val)
| deleteAgents (ids : val)
| deleteAgentsSuccess
| deleteAgentsFailure (error : val)
| setGridFiltration (filtration : Filtration)
| setGridFiltrationByTag (tag : string)
| setGridSearch (value : string)
| resetFiltration
| setGridSorting (sorting : val)
| restoreState (restoredState : RestoredState)
| resetAgentErrors
| reset.

(** The [type] of an action, by which handlers and effects are selected. *)
Definition action_type (a : Action) : string :=
  match a with
  | updateFilters _ => "[agent-list] Update filters"
  | selectFilter _ => "[agent-list] Select filter"
  | selectGroup _ => "[agent-list] Select group"
  | fetchCountersByFilters => "[agent-list] Fetch counter by filters"
  | fetchCountersByFiltersSuccess _ => "[agent-list] Fetch counter by filters success"
  | fetchCountersByFiltersFailure => "[agent-list] Fetch counter by filters failure"
  | fetchAgentsPage _ => "[agent-list] Fetch agents page"
  | fetchAgentsPageSuccess _ _ => "[agent-list] Fetch agents page success"
  | fetchAgentsFailure => "[agent-list] Fetch agents page failure"
  | fetchFilterItems => "[agent-list] Fetch filter items"
  | fetchFilterItemsSuccess _ _ _ _ _ => "[agent-list] Fetch filter items success"
  | fetchFilterItemsFailure _ => "[agent-list] Fetch filter items failure"
  | updateAgentData _ => "[agent-list] Update agent data"
  | updateAgentDataSuccess _ => "[agent-list] Update agent data success"
  | updateAgentDataFailure _ => "[agent-list] Update agent data failure"
  | fetchAgentsVersions => "[agent-list] Fetch agents versions"
  | fetchAgentsVersionsSuccess _ => "[agent-list] Fetch agents versions success"
  | selectAgents _ => "[agent-list] Select agents"
  | selectAgentsByIds _ => "[agent-list] Select agents by ids"
  | fetchAgent _ => "[agent-list] Fetch agent"
  | fetchAgentSuccess _ _ => "[agent-list] Fetch agent success"
  | fetchAgentFailure => "[agent-list] Fetch agent failure"
  | upgradeAgents _ _ => "[agent-list] Upgrade selected agents"
  | upgradeAgentsSuccess => "[agent-list] Upgrade selected agents success"
  | upgradeAgentsFailure _ => "[agent-list] Upgrade selected agents failure"
  | cancelUpgradeAgent _ _ => "[agent-list] Cancel upgrade agent"
  | cancelUpgradeAgentSuccess => "[agent-list] Cancel upgrade agent success"
  | cancelUpgradeAgentFailure => "[agent-list] Cancel upgrade agent failure"
  | moveAgentsToGroup _ _ => "[agent-list] Move agents to group"
  | moveAgentsToGroupSuccess => "[agent-list] Move agents to group success"
  | moveAgentsToGroupFailure _ => "[agent-list] Move agents to group failure"
  | moveAgentsToNewGroup _ _ => "[agent-list] Move agents to new group"
  | moveAgentsToNewGroupSuccess => "[agent-list] Move agents to new group success"
  | moveAgentsToNewGroupFailure _ => "[agent-list] Move agents to new group failure"
  | updateAgent _ => "[agent-list] Update agent"
  | updateAgentSuccess => "[agent-list] Update agent success"
  | updateAgentFailure _ => "[agent-list] Update agent failure"
  | blockAgents _ => "[agent-list] Block agents"
  | blockAgentsSuccess => "[agent-list] Block agents success"
  | blockAgentsFailure _ => "[agent-list] Block agents failure"
  | deleteAgents _ => "[agent-list] Delete agents"
  | deleteAgentsSuccess => "[agent-list] Delete agents success"
  | deleteAgentsFailure _ => "[agent-list] Delete agents failure"
  | setGridFiltration _ => "[agent-list] Set filtration grid"
  | setGridFiltrationByTag _ => "[agent-list] Set filtration grid by tag"
  | setGridSearch _ => "[agent-list] Set search grid"
  | resetFiltration => "[agent-list] Reset filtration"
  | setGridSorting _ => "[agent-list] Set sorting grid"
  | restoreState _ => "[agent-list] Restore state"
  | resetAgentErrors => "[agent-list] reset agent errors"
  | reset => "[agent-list] reset"
  end.

(** [agents.reduce((acc, current) => ({ ...acc, [current.id]: current }), {})] *)
Definition indexById (agents : val) : res val :=
  l ← as_array agents;
  foldM (λ acc current, id ← get current "id"; Ok (spread acc [(to_string id, current)]))
    (VObj []) l.

(** [v.toString()]. *)
Definition method_toString (v : val) : res string :=
  if is_nullish v then Throw TypeError else Ok (to_string v).

(** ** Reducer *)

(** The list of agents and the column filters. *)
Definition on_list (state : State) (a : Action) : res State :=
  match a with
  | updateFilters filters' => Ok { state with filters := filters'; initialized := true }
  | fetchCountersByFiltersSuccess counters => Ok { state with filtersCounters := counters }
  | fetchAgentsPage _ => Ok { state with isLoadingAgents := true }
  | fetchAgentsPageSuccess data page' =>
      p ← fetchPage manyAgentsToModels "agents" data page'
        (mkPage (agents state) (page state) (total state));
      Ok { state with isLoadingAgents := false; isInitializedAgent := true;
                   agents := pageRows p; page := pageNo p; total := pageTotal p }
  | fetchAgentsFailure => Ok { state with isLoadingAgents := false }
  | fetchFilterItems => Ok { state with isLoadingAgentFilterItems := true }
  | fetchFilterItemsSuccess versions' moduleNames groupIds os tags =>
      Ok { state with isLoadingAgentFilterItems := false; filterItemsGroupIds := groupIds;
                   filterItemsModuleNames := moduleNames; filterItemsVersions := versions';
                   filterItemsOs := os; filterItemsTags := tags }
  | fetchFilterItemsFailure _ => Ok { state with isLoadingAgentFilterItems := false }
  | _ => Ok state
  end.

(** One agent, selection. *)
Definition on_agent (state : State) (a : Action) : res State :=
  match a with
  | updateAgentData _ => Ok { state with isUpdatingAgentData := true }
  | updateAgentDataSuccess data =>
      updatedAgents ← manyAgentsToModels data;
      updatedAgentsById ← indexById updatedAgents;
      updatedAgentsIds ← Object_keys updatedAgentsById;
      l ← map_array (λ item,
        id ← get item "id";
        text ← method_toString id;
        if includes text updatedAgentsIds then get updatedAgentsById (to_string id)
        else Ok item) (agents state);
      Ok { state with agents := l; isUpdatingAgentData := false }
  | updateAgentDataFailure _ => Ok { state with isUpdatingAgentData := false }
  | fetchAgentsVersionsSuccess versions' => Ok { state with versions := versions' }
  | selectAgents agents' =>
      x_selectedIds ← mapIds agents';
      Ok { state with selectedIds := x_selectedIds }
  | selectAgentsByIds ids => Ok { state with selectedIds := ids }
  | fetchAgent _ => Ok { state with isLoadingAgent := true }
  | fetchAgentSuccess data modules =>
      x_agent ← oneAgentToModel data;
      x_selectedAgentModules ← privateAgentModulesToModels modules;
      Ok { state with agent := x_agent; selectedAgentModules := x_selectedAgentModules;
                   isLoadingAgent := false }
  | fetchAgentFailure => Ok { state with isLoadingAgent := false }
  | _ => Ok state
  end.

(** Agent upgrades. *)
Definition on_upgrade (state : State) (a : Action) : res State :=
  match a with
  | upgradeAgents _ _ => Ok { state with isUpgradingAgents := true }
  | upgradeAgentsSuccess => Ok { state with isUpgradingAgents := false }
  | upgradeAgentsFailure _ => Ok { state with isUpgradingAgents := false }
  | cancelUpgradeAgent _ _ => Ok { state with isCancelUpgradingAgent := true }
  | cancelUpgradeAgentSuccess => Ok { state with isCancelUpgradingAgent := false }
  | cancelUpgradeAgentFailure => Ok { state with isCancelUpgradingAgent := false }
  | _ => Ok state
  end.

(** Filters, search, sorting of the list. *)
Definition on_filtration (state : State) (a : Action) : res State :=
  match a with
  | selectFilter id =>
      Ok { state with selectedFilterId := id; selectedGroupId := VUndef; gridFiltration := [];
                   gridSearch := "" }
  | selectGroup id =>
      Ok { state with selectedGroupId := id; selectedFilterId := VUndef; gridFiltration := [];
                   gridSearch := "" }
  | setGridFiltration filtration =>
      Ok { state with gridFiltration := getGridFiltration filtration (gridFiltration state) }
  | setGridFiltrationByTag tag =>
      Ok { state with gridFiltration := getGridFiltrationByTag (gridFiltration state) tag }
  | setGridSearch value => Ok { state with gridSearch := value }
  | resetFiltration => Ok { state with gridFiltration := [] }
  | setGridSorting sorting' => Ok { state with sorting := sorting' }
  | _ => Ok state
  end.

(** Move, update, block, delete. *)
Definition on_operations (state : State) (a : Action) : res State :=
  match a with
  | moveAgentsToGroup _ groupId =>
      Ok { state with isMovingAgents := true; moveToGroupError := VUndef;
                   isDeletingFromGroup := negb (truthy groupId) }
  | moveAgentsToGroupSuccess => Ok { state with isMovingAgents := false }
  | moveAgentsToGroupFailure error =>
      Ok { state with isMovingAgents := false; moveToGroupError := error }
  | moveAgentsToNewGroup _ _ =>
      Ok { state with isMovingAgents := true; moveToGroupError := VUndef }
  | moveAgentsToNewGroupSuccess => Ok { state with isMovingAgents := false }
  | moveAgentsToNewGroupFailure error =>
      Ok { state with isMovingAgents := false; moveToGroupError := error }
  | updateAgent _ => Ok { state with isUpdatingAgents := true; updateError := VUndef }
  | updateAgentSuccess => Ok { state with isUpdatingAgents := false }
  | updateAgentFailure error => Ok { state with isUpdatingAgents := false; updateError := error }
  | blockAgents _ => Ok { state with isBlockingAgents := true }
  | blockAgentsSuccess => Ok { state with isBlockingAgents := false }
  | blockAgentsFailure _ => Ok { state with isBlockingAgents := false }
  | deleteAgents _ => Ok { state with isDeletingAgents := true; deleteError := VUndef }
  | deleteAgentsSuccess => Ok { state with isDeletingAgents := false }
  | deleteAgentsFailure error =>
      Ok { state with isDeletingAgents := false; deleteError := error }
  | _ => Ok state
  end.

(** Resets. *)
Definition on_state (state : State) (a : Action) : res State :=
  match a with
  | restoreState r =>
      Ok { state with restored := true; gridFiltration := restoredFiltration r;
                   gridSearch := restoredSearch r; sorting := restoredSorting r }
  | resetAgentErrors =>
      Ok { state with deleteError := VUndef; moveToGroupError := VUndef; updateError := VUndef }
  | reset => Ok initialState
  | _ => Ok state
  end.

(** Every handler is the identity on the actions it is not registered for. *)
Definition handlers : list (State → Action → res State) :=
  [on_list; on_agent; on_upgrade; on_filtration; on_operations; on_state].

Definition reducer (state : State) (a : Action) : res State :=
  foldM (λ s handler, handler s a) state handlers.
