(* ===== verification/AgentCardStore.v ===== *)
(** * Agent card store

    [libs/store/agents/src/lib/card/agent-card.reducer.ts] and
    [agent-card.actions.ts]: one agent with its modules and events. *)

From S2P Require Import Prelude JsValue JsJson Models Filtration Paging.

(** ** State *)

Record State := mkState {
  agent : val;
  deleteError : val;
  eventFilterItemModuleIds : val;
  eventsGridFiltration : list Filtration;
  eventsGridSearch : string;
  eventsOfAgentCard : val;
  eventsPage : val;
  eventsSorting : val;
  isBlockingAgent : bool;
  isCancelUpgradingAgent : bool;
  isDeletingAgent : bool;
  isDeletingFromGroup : bool;
  isLoadingAgent : bool;
  isLoadingEventFilterItems : bool;
  isLoadingEvents : bool;
  isMovingAgent : bool;
  isUpdatingAgent : bool;
  isUpgradingAgent : bool;
  modulesOfAgentCard : val;
  moveToGroupError : val;
  totalEvents : val;
  updateError : val
}.

#[export] Instance State_eta : Eta State := ltac:(eta_of State).

Definition initialState : State := {|
  agent := VUndef;
  deleteError := VUndef;
  eventFilterItemModuleIds := VArr [];
  eventsGridFiltration := [];
  eventsGridSearch := "";
  eventsOfAgentCard := VArr [];
  eventsPage := vint 0;
  eventsSorting := VObj [];
  isBlockingAgent := false;
  isCancelUpgradingAgent := false;
  isDeletingAgent := false;
  isDeletingFromGroup := false;
  isLoadingAgent := false;
  isLoadingEventFilterItems := false;
  isLoadingEvents := false;
  isMovingAgent := false;
  isUpdatingAgent := false;
  isUpgradingAgent := false;
  modulesOfAgentCard := VArr [];
  moveToGroupError := VUndef;
  totalEvents := vint 0;
  updateError := VUndef
|}.

(** ** Actions *)

Inductive Action :=
| fetchAgent (hash : string)
| fetchAgentSuccess (data : val) (modules : val)
| fetchAgentFailure
| fetchAgentEvents (id : val) (page : val)
| fetchAgentEventsSuccess (data : val) (page : Z)
| fetchAgentEventsFailure
| fetchEventFilterItems
| fetchEventFilterItemsSuccess (moduleIds : val)
| fetchEventFilterItemsFailure (error : val)
| setEventsGridFiltration (filtration : Filtration)
| setEventsGridSearch (value : string)
| resetEventsFiltration
| setEventsGridSorting (sorting : val)
| upgradeAgent (agent : val) (version : string)
| upgradeAgentSuccess
| upgradeAgentFailure (error : val)
| cancelUpgradeAgent (hash : string) (task : val)
| cancelUpgradeAgentSuccess
| cancelUpgradeAgentFailure
| moveAgentToGroup (id : val) (groupId : val)
| moveAgentToGroupSuccess
| moveAgentToGroupFailure (error : val)
| moveAgentToNewGroup (id : val) (groupName : string)
| moveAgentToNewGroupSuccess
| moveAgentToNewGroupFailure (error : val)
| updateAgent (agent : val)
| updateAgentSuccess
| updateAgentFailure (error : val)
| blockAgent (id : val)
| blockAgentSuccess
| blockAgentFailure (error : val)
| deleteAgent (id : val)
| deleteAgentSuccess
| deleteAgentFailure (error : val)
| restoreState (restoredState : RestoredState)
| resetAgentErrors
| reset.

(** The [type] of an action, by which handlers and effects are selected. *)
Definition action_type (a : Action) : string :=
  match a with
  | fetchAgent _ => "[agent-card] Fetch agent"
  | fetchAgentSuccess _ _ => "[agent-card] Fetch agent success"
  | fetchAgentFailure => "[agent-card] Fetch agent failure"
  | fetchAgentEvents _ _ => "[agent-card] Fetch agent events"
  | fetchAgentEventsSuccess _ _ => "[agent-card] Fetch agent events - Success"
  | fetchAgentEventsFailure => "[agent-card] Fetch agent events - Failure"
  | fetchEventFilterItems => "[agent-card] Fetch filter items of events"
  | fetchEventFilterItemsSuccess _ => "[agent-card] Fetch filter items of events - Success"
  | fetchEventFilterItemsFailure _ => "[agent-card] Fetch filter items of events - Failure"
  | setEventsGridFiltration _ => "[agent-card] Set events grid filtration"
  | setEventsGridSearch _ => "[agent-card] Set events grid search"
  | resetEventsFiltration => "[agent-card] Reset events filtration"
  | setEventsGridSorting _ => "[agent-card] Set events grid sorting"
  | upgradeAgent _ _ => "[agent-card] Upgrade selected agent"
  | upgradeAgentSuccess => "[agent-card] Upgrade selected agent success"
  | upgradeAgentFailure _ => "[agent-card] Upgrade selected agent failure"
  | cancelUpgradeAgent _ _ => "[agent-card] Cancel upgrade agent"
  | cancelUpgradeAgentSuccess => "[agent-card] Cancel upgrade agent success"
  | cancelUpgradeAgentFailure => "[agent-card] Cancel upgrade agent failure"
  | moveAgentToGroup _ _ => "[agent-card] Move agent to group"
  | moveAgentToGroupSuccess => "[agent-card] Move agent to group success"
  | moveAgentToGroupFailure _ => "[agent-card] Move agent to group failure"
  | moveAgentToNewGroup _ _ => "[agent-card] Move agent to new group"
  | moveAgentToNewGroupSuccess => "[agent-card] Move agent to new group success"
  | moveAgentToNewGroupFailure _ => "[agent-card] Move agent to new group failure"
  | updateAgent _ => "[agent-card] Update agent"
  | updateAgentSuccess => "[agent-card] Update agent success"
  | updateAgentFailure _ => "[agent-card] Update agent failure"
  | blockAgent _ => "[agent-card] Block agent"
  | blockAgentSuccess => "[agent-card] Block agent success"
  | blockAgentFailure _ => "[agent-card] Block agent failure"
  | deleteAgent _ => "[agent-card] Delete agent"
  | deleteAgentSuccess => "[agent-card] Delete agent success"
  | deleteAgentFailure _ => "[agent-card] Delete agent failure"
  | restoreState _ => "[agent-card] Restore state"
  | resetAgentErrors => "[agent-card] reset agent errors"
  | reset => "[agent-card] reset"
  end.

(** ** Reducer *)

(** The agent and its events. *)
Definition on_agent (state : State) (a : Action) : res State :=
  match a with
  | fetchAgent _ => Ok { state with isLoadingAgent := true }
  | fetchAgentSuccess data modules =>
      x_agent ← oneAgentToModel data;
      x_modulesOfAgentCard ← privateAgentModulesToModels modules;
      Ok { state with agent := x_agent; modulesOfAgentCard := x_modulesOfAgentCard;
                   isLoadingAgent := false }
  | fetchAgentFailure => Ok { state with isLoadingAgent := false }
  | fetchAgentEvents _ _ => Ok { state with isLoadingEvents := true }
  | fetchAgentEventsSuccess data page =>
      p ← fetchPage privateEventsToModels "events" data page
        (mkPage (eventsOfAgentCard state) (eventsPage state) (totalEvents state));
      Ok { state with isLoadingEvents := false; eventsOfAgentCard := pageRows p;
                   eventsPage := pageNo p; totalEvents := pageTotal p }
  | fetchAgentEventsFailure => Ok { state with isLoadingEvents := false }
  | fetchEventFilterItems => Ok { state with isLoadingEventFilterItems := true }
  | fetchEventFilterItemsSuccess moduleIds =>
      Ok { state with isLoadingEventFilterItems := false; eventFilterItemModuleIds := moduleIds }
  | fetchEventFilterItemsFailure _ => Ok { state with isLoadingEventFilterItems := false }
  | setEventsGridFiltration filtration =>
      Ok { state with eventsGridFiltration := getGridFiltration filtration (eventsGridFiltration state) }
  | setEventsGridSearch value => Ok { state with eventsGridSearch := value }
  | resetEventsFiltration => Ok { state with eventsGridFiltration := [] }
  | setEventsGridSorting sorting => Ok { state with eventsSorting := sorting }
  | _ => Ok state
  end.

(** Upgrade, move, update, block, delete. *)
Definition on_operations (state : State) (a : Action) : res State :=
  match a with
  | upgradeAgent _ _ => Ok { state with isUpgradingAgent := true }
  | upgradeAgentSuccess => Ok { state with isUpgradingAgent := false }
  | upgradeAgentFailure _ => Ok { state with isUpgradingAgent := false }
  | cancelUpgradeAgent _ _ => Ok { state with isCancelUpgradingAgent := true }
  | cancelUpgradeAgentSuccess => Ok { state with isCancelUpgradingAgent := false }
  | cancelUpgradeAgentFailure => Ok { state with isCancelUpgradingAgent := false }
  | moveAgentToGroup _ groupId =>
      Ok { state with isMovingAgent := true; moveToGroupError := VUndef;
                   isDeletingFromGroup := negb (truthy groupId) }
  | moveAgentToGroupSuccess => Ok { state with isMovingAgent := false }
  | moveAgentToGroupFailure error =>
      Ok { state with isMovingAgent := false; moveToGroupError := error }
  | moveAgentToNewGroup _ _ =>
      Ok { state with isMovingAgent := true; moveToGroupError := VUndef }
  | moveAgentToNewGroupSuccess => Ok { state with isMovingAgent := false }
  | moveAgentToNewGroupFailure error =>
      Ok { state with isMovingAgent := false; moveToGroupError := error }
  | updateAgent _ => Ok { state with isUpdatingAgent := true; updateError := VUndef }
  | updateAgentSuccess => Ok { state with isUpdatingAgent := false }
  | updateAgentFailure error => Ok { state with isUpdatingAgent := false; updateError := error }
  | blockAgent _ => Ok { state with isBlockingAgent := true }
  | blockAgentSuccess => Ok { state with isBlockingAgent := false }
  | blockAgentFailure _ => Ok { state with isBlockingAgent := false }
  | deleteAgent _ => Ok { state with isDeletingAgent := true; deleteError := VUndef }
  | deleteAgentSuccess => Ok { state with isDeletingAgent := false }
  | deleteAgentFailure error => Ok { state with isDeletingAgent := false; deleteError := error }
  | resetAgentErrors =>
      Ok { state with deleteError := VUndef; moveToGroupError := VUndef; updateError := VUndef }
  | reset => Ok initialState
  | _ => Ok state
  end.

(** Every handler is the identity on the actions it is not registered for. *)
Definition handlers : list (State → Action → res State) :=
  [on_agent; on_operations].

Definition reducer (state : State) (a : Action) : res State :=
  foldM (λ s handler, handler s a) state handlers.
