(* ===== verification/ModuleListStore.v ===== *)
(** * Module list store

    [libs/store/modules/src/lib/list/module-list.reducer.ts] and
    [module-list.actions.ts]. *)

From S2P Require Import Prelude JsValue JsJson Models Filtration Paging.

(** ** State *)

Record State := mkState {
  createError : val;
  createdModule : val;
  deleteError : val;
  deleteVersionError : val;
  gridFiltration : list Filtration;
  gridSearch : val;
  importError : val;
  isCreatingModule : bool;
  isDeleteNodule : bool;
  isDeleteNoduleVersion : bool;
  isImportingModule : bool;
  isLoadingModule : bool;
  isLoadingModules : bool;
  isLoadingModulesTags : bool;
  isLoadingVersions : bool;
  module : val;
  modules : val;
  modulesTags : val;
  page : val;
  restored : bool;
  selectedIds : val;
  sorting : val;
  total : val;
  versions : val;
  isInitializedModule : bool;  (* not in the interface *)
  exportError : val  (* not in the interface *)
}.

#[export] Instance State_eta : Eta State := ltac:(eta_of State).

Definition initialState : State := {|
  createError := VUndef;
  createdModule := VUndef;
  deleteError := VUndef;
  deleteVersionError := VUndef;
  gridFiltration := [];
  gridSearch := VUndef;
  importError := VUndef;
  isCreatingModule := false;
  isDeleteNodule := false;
  isDeleteNoduleVersion := false;
  isImportingModule := false;
  isLoadingModule := false;
  isLoadingModules := false;
  isLoadingModulesTags := false;
  isLoadingVersions := false;
  module := VUndef;
  modules := VArr [];
  modulesTags := VArr [];
  page := VUndef;
  restored := false;
  selectedIds := VArr [];
  sorting := VObj [];
  total := vint 0;
  versions := VArr [];
  isInitializedModule := false;
  exportError := VUndef
|}.

(** ** Actions *)

Inductive Action :=
| fetchModules
| fetchModulesSuccess (data : val)
| fetchModulesFailure
| fetchModulesPage (page : val)
| fetchModulesPageSuccess (data : val) (page : Z)
| fetchModulesPageFailure
| fetchModulesTags
| fetchModulesTagsSuccess (tags : val)
| fetchModulesTagsFailure (error : val)
| selectModules (modules : val)
| selectModulesByIds (ids : val)
| setGridFiltration (filtration : Filtration)
| setGridFiltrationByTag (tag : string)
| setGridSearch (value : string)
| resetFiltration
| setGridSorting (sorting : val)
| createModule (module : val)
| createModuleSuccess (module : val)
| createModuleFailure (error : val)
| importModule (name : string) (version : string) (data : val)
| importModuleSuccess
| importModuleFailure (error : val)
| deleteModule (name : string)
| deleteModuleSuccess
| deleteModuleFailure (error : val)
| deleteModuleVersion (name : string) (version : string)
| deleteModuleVersionSuccess
| deleteModuleVersionFailure (error : val)
| fetchModuleVersions (name : string)
| fetchModuleVersionsSuccess (data : val)
| fetchModuleVersionsFailure
| restoreState (restoredState : RestoredState)
| resetImportState
| resetModuleErrors
| reset.

(** The [type] of an action, by which handlers and effects are selected. *)
Definition action_type (a : Action) : string :=
  match a with
  | fetchModules => "[module-list] Fetch modules"
  | fetchModulesSuccess _ => "[module-list] Fetch modules success"
  | fetchModulesFailure => "[module-list] Fetch modules failure"
  | fetchModulesPage _ => "[module-list] Fetch modules page"
  | fetchModulesPageSuccess _ _ => "[module-list] Fetch modules page success"
  | fetchModulesPageFailure => "[module-list] Fetch modules page failure"
  | fetchModulesTags => "[module-list] Fetch modules tags"
  | fetchModulesTagsSuccess _ => "[module-list] Fetch modules tags success"
  | fetchModulesTagsFailure _ => "[module-list] Fetch modules tags failure"
  | selectModules _ => "[module-list]  Select modules"
  | selectModulesByIds _ => "[module-list] Select modules by ids"
  | setGridFiltration _ => "[module-list] Set filtration grid"
  | setGridFiltrationByTag _ => "[module-list] Set filtration grid by tag"
  | setGridSearch _ => "[module-list] Set search grid"
  | resetFiltration => "[module-list] Reset filtration"
  | setGridSorting _ => "[module-list] Set sorting grid"
  | createModule _ => "[module-list] Create module"
  | createModuleSuccess _ => "[module-list] Create module success"
  | createModuleFailure _ => "[module-list] Create module failure"
  | importModule _ _ _ => "[module-list] Import Module"
  | importModuleSuccess => "[module-list] Import Module success"
  | importModuleFailure _ => "[module-list] Import Module failure"
  | deleteModule _ => "[module-list] Delete module"
  | deleteModuleSuccess => "[module-list] Delete module success"
  | deleteModuleFailure _ => "[module-list] Delete module failure"
  | deleteModuleVersion _ _ => "[module-list] Delete module version"
  | deleteModuleVersionSuccess => "[module-list] Delete module version failure"
  | deleteModuleVersionFailure _ => "[module-list] Delete module version failure"
  | fetchModuleVersions _ => "[module-list] Fetch module versions"
  | fetchModuleVersionsSuccess _ => "[module-list] Fetch module versions success"
  | fetchModuleVersionsFailure => "[module-list] Fetch module versions failure"
  | restoreState _ => "[module-list] Restore state"
  | resetImportState => "[module-list] Reset import state"
  | resetModuleErrors => "[module-list] Reset module errors"
  | reset => "[module-list] reset"
  end.

(** [deleteModuleVersionSuccess] and [deleteModuleVersionFailure] have the same
    type: both handlers run, and a success carries no error. *)
Definition on_deleteModuleVersion (state : State) (error : val) : State :=
  let state1 := { state with isDeleteNoduleVersion := false } in
  { state1 with isDeleteNoduleVersion := false; deleteVersionError := error }.

(** ** Reducer *)

(** The list of modules. *)
Definition on_list (state : State) (a : Action) : res State :=
  match a with
  | fetchModulesPage _ =>
      (* registered three times: true, false, true *)
      let state1 := { state with isLoadingModules := true } in
      let state2 := { state1 with isLoadingModules := false } in
      Ok { state2 with isLoadingModules := true }
  | fetchModulesSuccess data =>
      x_modules ← manyModulesToModels data;
      total_ ← get data "total";
      Ok { state with isLoadingModules := false; modules := x_modules; total := total_ }
  | fetchModulesPageSuccess data page' =>
      p ← fetchPage manyModulesToModels "modules" data page'
        (mkPage (modules state) (page state) (total state));
      Ok { state with isLoadingModules := false; isInitializedModule := true;
                   modules := pageRows p; page := pageNo p; total := pageTotal p }
  | fetchModulesPageFailure => Ok { state with isLoadingModules := false }
  | fetchModulesTags => Ok { state with isLoadingModulesTags := true }
  | fetchModulesTagsSuccess tags =>
      Ok { state with isLoadingModulesTags := false; modulesTags := tags }
  | fetchModulesTagsFailure _ => Ok { state with isLoadingModulesTags := false }
  | _ => Ok state
  end.

(** Create, import, selection. *)
Definition on_operations (state : State) (a : Action) : res State :=
  match a with
  | createModule _ => Ok { state with isCreatingModule := true; createError := VUndef }
  | createModuleSuccess module' =>
      Ok { state with isCreatingModule := false; createdModule := module' }
  | createModuleFailure error =>
      Ok { state with isCreatingModule := false; createError := error; createdModule := VUndef }
  | importModule _ _ _ => Ok { state with isImportingModule := true; importError := VUndef }
  | importModuleSuccess => Ok { state with isImportingModule := false }
  | importModuleFailure error =>
      Ok { state with isImportingModule := false; importError := error }
  | selectModules modules' =>
      x_selectedIds ← mapIds modules';
      Ok { state with selectedIds := x_selectedIds }
  | selectModulesByIds ids => Ok { state with selectedIds := ids }
  | _ => Ok state
  end.

(** Filters, search, sorting of the list. *)
Definition on_filtration (state : State) (a : Action) : res State :=
  match a with
  | setGridFiltration filtration =>
      Ok { state with gridFiltration := getGridFiltration filtration (gridFiltration state) }
  | setGridFiltrationByTag tag =>
      Ok { state with gridFiltration := getGridFiltrationByTag (gridFiltration state) tag }
  | setGridSearch value => Ok { state with gridSearch := VStr value }
  | resetFiltration => Ok { state with gridFiltration := [] }
  | setGridSorting sorting' => Ok { state with sorting := sorting' }
  | _ => Ok state
  end.

(** Delete a module or a version; versions. *)
Definition on_delete (state : State) (a : Action) : res State :=
  match a with
  | deleteModule _ => Ok { state with isDeleteNodule := true; deleteError := VUndef }
  | deleteModuleSuccess => Ok { state with isDeleteNodule := false }
  | deleteModuleFailure error => Ok { state with isDeleteNodule := false; deleteError := error }
  | deleteModuleVersion _ _ =>
      Ok { state with isDeleteNoduleVersion := true; deleteVersionError := VUndef }
  | deleteModuleVersionSuccess => Ok (on_deleteModuleVersion state VUndef)
  | deleteModuleVersionFailure error => Ok (on_deleteModuleVersion state error)
  | fetchModuleVersions _ => Ok { state with isLoadingVersions := true }
  | fetchModuleVersionsSuccess data =>
      x_versions ← get data "modules";
      Ok { state with isLoadingVersions := false; versions := x_versions }
  | fetchModuleVersionsFailure => Ok { state with isLoadingVersions := false }
  | _ => Ok state
  end.

(** Resets. *)
Definition on_state (state : State) (a : Action) : res State :=
  match a with
  | restoreState r =>
      Ok { state with restored := true; gridFiltration := restoredFiltration r;
                   gridSearch := VStr (restoredSearch r); sorting := restoredSorting r }
  | resetImportState => Ok { state with importError := VUndef }
  | resetModuleErrors =>
      Ok { state with createError := VUndef; deleteError := VUndef; exportError := VUndef;
                   importError := VUndef; deleteVersionError := VUndef }
  | reset => Ok initialState
  | _ => Ok state
  end.

(** Every handler is the identity on the actions it is not registered for. *)
Definition handlers : list (State → Action → res State) :=
  [on_list; on_operations; on_filtration; on_delete; on_state].

Definition reducer (state : State) (a : Action) : res State :=
  foldM (λ s handler, handler s a) state handlers.
