(* ===== verification/ModulesInstancesStore.v ===== *)
(** * Module instances store

    [libs/store/modules-instances/src/lib/modules-instances.reducer.ts] and
    [modules-instances.actions.ts]: the events and the operations of a module
    of a policy, group or agent. *)

From S2P Require Import Prelude JsValue JsJson Models Filtration Paging.

(** ** State *)

Record State := mkState {
  changeVersionError : val;
  deleteModuleError : val;
  disableModuleError : val;
  enableModuleError : val;
  entityId : val;
  events : val;
  eventsGridFiltration : list Filtration;
  eventsGridSearch : string;
  eventsPage : val;
  eventsSorting : val;
  isChangingVersion : bool;
  isDeletingModule : bool;
  isDisablingModule : bool;
  isEnablingModule : bool;
  isLoadingEvents : bool;
  isLoadingModuleEventsFilterItems : bool;
  isLoadingModuleVersions : bool;
  isSavingModuleConfig : bool;
  isUpdatingModule : bool;
  eventFilterItemAgentNames : val;
  eventFilterItemGroupIds : val;
  moduleName : val;
  moduleVersions : val;
  savingModuleError : val;
  totalEvents : val;
  updateModuleError : val;
  viewMode : val
}.

#[export] Instance State_eta : Eta State := ltac:(eta_of State).

Definition initialState : State := {|
  changeVersionError := VUndef;
  deleteModuleError := VUndef;
  disableModuleError := VUndef;
  enableModuleError := VUndef;
  entityId := VUndef;
  events := VArr [];
  eventsGridFiltration := [];
  eventsGridSearch := "";
  eventsPage := vint 0;
  eventsSorting := VObj [];
  isChangingVersion := false;
  isDeletingModule := false;
  isDisablingModule := false;
  isEnablingModule := false;
  isLoadingEvents := false;
  isLoadingModuleEventsFilterItems := false;
  isLoadingModuleVersions := false;
  isSavingModuleConfig := false;
  isUpdatingModule := false;
  eventFilterItemAgentNames := VArr [];
  eventFilterItemGroupIds := VArr [];
  moduleName := VUndef;
  moduleVersions := VArr [];
  savingModuleError := VUndef;
  totalEvents := vint 0;
  updateModuleError := VUndef;
  viewMode := VUndef
|}.

(** ** Actions *)

Inductive Action :=
| init (viewMode : val) (entityId : val) (moduleName : string)
| fetchEvents (page : val)
| fetchEventsSuccess (data : val) (page : Z)
| fetchEventsFailure
| fetchModuleEventsFilterItems
| fetchModuleEventsFilterItemsSuccess (agentNames : val) (groupIds : val)
| fetchModuleEventsFilterItemsFailure (error : val)
| setEventsGridFiltration (filtration : Filtration)
| setEventsGridSearch (value : string)
| resetEventsFiltration
| setEventsGridSorting (sorting : val)
| fetchModuleVersions (moduleName : string)
| fetchModuleVersionSuccess (data : val)
| fetchModuleVersionsFailed
| enableModule (policyHash : string) (moduleName : string)
| enableModuleSuccess
| enableModuleFailure (error : val)
| disableModule (policyHash : string) (moduleName : string)
| disableModuleSuccess
| disableModuleFailure (error : val)
| deleteModule (policyHash : string) (moduleName : string)
| deleteModuleSuccess
| deleteModuleFailure (error : val)
| changeModuleVersion (policyHash : string) (moduleName : string) (version : string)
| changeModuleVersionSuccess
| changeModuleVersionFailure (error : val)
| updateModule (policyHash : string) (moduleName : string) (version : string)
| updateModuleSuccess
| updateModuleFailure (error : val)
| saveModuleConfig (policyHash : string) (module : val)
| saveModuleConfigSuccess
| saveModuleConfigFailure (error : val)
| resetModuleErrors
| reset.

(** The [type] of an action, by which handlers and effects are selected. *)
Definition action_type (a : Action) : string :=
  match a with
  | init _ _ _ => "[modules-instances] Init"
  | fetchEvents _ => "[modules-instances] Fetch events"
  | fetchEventsSuccess _ _ => "[modules-instances] Fetch events success"
  | fetchEventsFailure => "[modules-instances] Fetch events failure"
  | fetchModuleEventsFilterItems => "[modules-instances] Fetch module event filter items"
  | fetchModuleEventsFilterItemsSuccess _ _ => "[modules-instances] Fetch module events filter items success"
  | fetchModuleEventsFilterItemsFailure _ => "[modules-instances] Fetch module events filter items failure"
  | setEventsGridFiltration _ => "[modules-instances] Set events grid filtration"
  | setEventsGridSearch _ => "[modules-instances] Set events grid search"
  | resetEventsFiltration => "[modules-instances] Reset events filtration"
  | setEventsGridSorting _ => "[modules-instances] Set events grid sorting"
  | fetchModuleVersions _ => "[modules-instances] Fetch module versions"
  | fetchModuleVersionSuccess _ => "[modules-instances] Fetch module versions success"
  | fetchModuleVersionsFailed => "[modules-instances] Fetch module versions failed"
  | enableModule _ _ => "[modules-instances] Enable module"
  | enableModuleSuccess => "[modules-instances] Enable module success"
  | enableModuleFailure _ => "[modules-instances] Enable module failure"
  | disableModule _ _ => "[modules-instances] Disable module"
  | disableModuleSuccess => "[modules-instances] Disable module success"
  | disableModuleFailure _ => "[modules-instances] Disable module failure"
  | deleteModule _ _ => "[modules-instances] Delete module"
  | deleteModuleSuccess => "[modules-instances] Delete module success"
  | deleteModuleFailure _ => "[modules-instances] Delete module failure"
  | changeModuleVersion _ _ _ => "[modules-instances] Change module version "
  | changeModuleVersionSuccess => "[modules-instances] Change module version success"
  | changeModuleVersionFailure _ => "[modules-instances] Change module version failure"
  | updateModule _ _ _ => "[modules-instances] Update module"
  | updateModuleSuccess => "[modules-instances] Update module success"
  | updateModuleFailure _ => "[modules-instances] Update module failure"
  | saveModuleConfig _ _ => "[modules-instances] Save module"
  | saveModuleConfigSuccess => "[modules-instances] Save module success"
  | saveModuleConfigFailure _ => "[modules-instances] Save module failure"
  | resetModuleErrors => "[modules-instances] Reset module errors"
  | reset => "[modules-instances] Reset"
  end.

(** ** Reducer *)

(** The entity shown and its events. *)
Definition on_events (state : State) (a : Action) : res State :=
  match a with
  | init viewMode' entityId' moduleName' =>
      Ok { state with viewMode := viewMode'; entityId := entityId';
                   moduleName := VStr moduleName' }
  | fetchEvents _ => Ok { state with isLoadingEvents := true }
  | fetchEventsSuccess data page =>
      p ← fetchPage privateEventsToModels "events" data page
        (mkPage (events state) (eventsPage state) (totalEvents state));
      Ok { state with isLoadingEvents := false; events := pageRows p; eventsPage := pageNo p;
                   totalEvents := pageTotal p }
  | fetchEventsFailure => Ok { state with isLoadingEvents := false }
  | fetchModuleEventsFilterItems => Ok { state with isLoadingModuleEventsFilterItems := true }
  | fetchModuleEventsFilterItemsSuccess agentNames groupIds =>
      Ok { state with isLoadingModuleEventsFilterItems := false;
                   eventFilterItemAgentNames := agentNames; eventFilterItemGroupIds := groupIds }
  | fetchModuleEventsFilterItemsFailure _ =>
      Ok { state with isLoadingModuleEventsFilterItems := false }
  | setEventsGridFiltration filtration =>
      Ok { state with eventsGridFiltration := getGridFiltration filtration (eventsGridFiltration state) }
  | setEventsGridSearch value => Ok { state with eventsGridSearch := value }
  | resetEventsFiltration => Ok { state with eventsGridFiltration := [] }
  | setEventsGridSorting sorting => Ok { state with eventsSorting := sorting }
  | _ => Ok state
  end.

(** Versions, enable, disable, delete, change version, update, save. *)
Definition on_operations (state : State) (a : Action) : res State :=
  match a with
  | fetchModuleVersions _ => Ok { state with isLoadingModuleVersions := true }
  | fetchModuleVersionSuccess data =>
      x_moduleVersions ← get data "modules";
      Ok { state with isLoadingModuleVersions := false; moduleVersions := x_moduleVersions }
  | fetchModuleVersionsFailed => Ok { state with isLoadingModuleVersions := false }
  | enableModule _ _ => Ok { state with isEnablingModule := true; enableModuleError := VUndef }
  | enableModuleSuccess => Ok { state with isEnablingModule := false }
  | enableModuleFailure error =>
      Ok { state with isEnablingModule := false; enableModuleError := error }
  | disableModule _ _ =>
      Ok { state with isDisablingModule := true; disableModuleError := VUndef }
  | disableModuleSuccess => Ok { state with isDisablingModule := false }
  | disableModuleFailure error =>
      Ok { state with isDisablingModule := false; disableModuleError := error }
  | deleteModule _ _ => Ok { state with isDeletingModule := true; deleteModuleError := VUndef }
  | deleteModuleSuccess => Ok { state with isDeletingModule := false }
  | deleteModuleFailure error =>
      Ok { state with isDeletingModule := false; deleteModuleError := error }
  | changeModuleVersion _ _ _ =>
      Ok { state with isChangingVersion := true; changeVersionError := VUndef }
  | changeModuleVersionSuccess => Ok { state with isChangingVersion := false }
  | changeModuleVersionFailure error =>
      Ok { state with isChangingVersion := false; changeVersionError := error }
  | updateModule _ _ _ => Ok { state with isUpdatingModule := true; updateModuleError := VUndef }
  | updateModuleSuccess => Ok { state with isUpdatingModule := false }
  | updateModuleFailure error =>
      Ok { state with isUpdatingModule := false; updateModuleError := error }
  | saveModuleConfig _ _ =>
      Ok { state with isSavingModuleConfig := true; savingModuleError := VUndef }
  | saveModuleConfigSuccess => Ok { state with isSavingModuleConfig := false }
  | saveModuleConfigFailure error =>
      Ok { state with isSavingModuleConfig := false; savingModuleError := error }
  | resetModuleErrors =>
      Ok { state with changeVersionError := VUndef; deleteModuleError := VUndef;
                   disableModuleError := VUndef; enableModuleError := VUndef;
                   updateModuleError := VUndef }
  | reset => Ok initialState
  | _ => Ok state
  end.

(** Every handler is the identity on the actions it is not registered for. *)
Definition handlers : list (State → Action → res State) :=
  [on_events; on_operations].

Definition reducer (state : State) (a : Action) : res State :=
  foldM (λ s handler, handler s a) state handlers.
