(* ===== verification/SharedStore.v ===== *)
(** * Shared store

    [libs/store/shared/src/lib/shared.reducer.ts] and [shared.actions.ts]: the
    complete lists other features pick from, agent binaries, server
    information, the options of the module editor. *)

From S2P Require Import Prelude JsValue JsJson Models Filtration Paging.

(** ** State *)

Record State := mkState {
  actions : val;
  agentBinaries : val;
  allAgents : val;
  allGroups : val;
  allModules : val;
  allPolicies : val;
  allServices : val;
  allTotalAgents : val;
  allTotalGroups : val;
  allTotalModules : val;
  allTotalPolicies : val;
  allTotalServices : val;
  events : val;
  exportError : val;
  fields : val;
  info : val;
  initializedGroups : bool;
  isChangingPassword : bool;
  isExportingBinaryFile : bool;
  isInfoLoaded : bool;
  isInfoLoading : bool;
  isLoadingAgentBinaries : bool;
  isLoadingAllAgents : bool;
  isLoadingAllGroups : bool;
  isLoadingAllModules : bool;
  isLoadingAllPolicies : bool;
  isLoadingAllServices : bool;
  isLoadingLatestAgentBinary : bool;
  isLoadingOptionsActions : bool;
  isLoadingOptionsEvents : bool;
  isLoadingOptionsFields : bool;
  isLoadingOptionsTags : bool;
  latestAgentBinary : val;
  passwordChangeError : val;
  searchValue : string;
  selectedTags : val;
  tags : val;
  allTotal : val  (* not in the interface *)
}.

#[export] Instance State_eta : Eta State := ltac:(eta_of State).

Definition initialState : State := {|
  actions := VArr [];
  agentBinaries := VUndef;
  allAgents := VArr [];
  allGroups := VArr [];
  allModules := VArr [];
  allPolicies := VArr [];
  allServices := VArr [];
  allTotalAgents := vint 0;
  allTotalGroups := vint 0;
  allTotalModules := vint 0;
  allTotalPolicies := vint 0;
  allTotalServices := vint 0;
  events := VArr [];
  exportError := VUndef;
  fields := VArr [];
  info := VUndef;
  initializedGroups := false;
  isChangingPassword := false;
  isExportingBinaryFile := false;
  isInfoLoaded := false;
  isInfoLoading := false;
  isLoadingAgentBinaries := false;
  isLoadingAllAgents := false;
  isLoadingAllGroups := false;
  isLoadingAllModules := false;
  isLoadingAllPolicies := false;
  isLoadingAllServices := false;
  isLoadingLatestAgentBinary := false;
  isLoadingOptionsActions := false;
  isLoadingOptionsEvents := false;
  isLoadingOptionsFields := false;
  isLoadingOptionsTags := false;
  latestAgentBinary := VUndef;
  passwordChangeError := VUndef;
  searchValue := "";
  selectedTags := VArr [];
  tags := VArr [];
  allTotal := VUndef
|}.

(** ** Actions *)

Inductive Action :=
| changePassword (data : val)
| changePasswordSuccess
| changePasswordFailure (error : val)
| fetchAllAgents
| fetchAllAgentsSuccess (data : val)
| fetchAllAgentsFailure
| fetchAllGroups (silent : bool)
| fetchAllGroupsSuccess (data : val)
| fetchAllGroupsFailure
| fetchAllModules
| fetchAllModulesSuccess (data : val)
| fetchAllModulesFailure
| fetchAllPolicies (silent : bool)
| fetchAllPoliciesSuccess (data : val)
| fetchAllPoliciesFailure
| fetchAllServices
| fetchAllServicesSuccess (data : val)
| fetchAllServicesFailure (error : val)
| exportBinaryFile (os : val) (arch : val) (pack : val) (version : string)
| exportBinaryFileSuccess
| exportBinaryFileFailure (error : val)
| fetchInfo (refreshCookie : bool)
| fetchInfoSuccess (info : val)
| fetchInfoFailure (error : val)
| fetchLatestAgentBinary
| fetchLatestAgentBinarySuccess (binaries : val)
| fetchLatestAgentBinaryFailure
| fetchAgentBinaries
| fetchAgentBinariesSuccess (binaries : val)
| fetchAgentBinariesFailure
| logout
| logoutSuccess
| logoutFailure
| fetchOptionsActions
| fetchOptionsActionsSuccess (data : val)
| fetchOptionsActionsFailure (error : val)
| fetchOptionsEvents
| fetchOptionsEventsSuccess (data : val)
| fetchOptionsEventsFailure (error : val)
| fetchOptionsFields
| fetchOptionsFieldsSuccess (data : val)
| fetchOptionsFieldsFailure (error : val)
| fetchOptionsTags
| fetchOptionsTagsSuccess (data : val)
| fetchOptionsTagsFailure (error : val)
| setFilterByTags (tags : val)
| resetFilterByTags
| setFilterBySearchValue (searchValue : string).

(** The [type] of an action, by which handlers and effects are selected. *)
Definition action_type (a : Action) : string :=
  match a with
  | changePassword _ => "[shared] Change password"
  | changePasswordSuccess => "[shared] Change password - Success"
  | changePasswordFailure _ => "[shared] Change password - Failure"
  | fetchAllAgents => "[shared] Fetch all agents"
  | fetchAllAgentsSuccess _ => "[shared] Fetch all agents - Success"
  | fetchAllAgentsFailure => "[shared] Fetch all agents - Failure"
  | fetchAllGroups _ => "[shared] Fetch all groups"
  | fetchAllGroupsSuccess _ => "[shared] Fetch all groups - Success"
  | fetchAllGroupsFailure => "[shared] Fetch all groups - Failure"
  | fetchAllModules => "[shared] Fetch all modules"
  | fetchAllModulesSuccess _ => "[shared] Fetch all modules - Success"
  | fetchAllModulesFailure => "[shared] Fetch all modules - Failure"
  | fetchAllPolicies _ => "[shared] Fetch all policies"
  | fetchAllPoliciesSuccess _ => "[shared] Fetch all policies - Success"
  | fetchAllPoliciesFailure => "[shared] Fetch all policies - Failure"
  | fetchAllServices => "[shared] Fetch all services"
  | fetchAllServicesSuccess _ => "[shared] Fetch all services - Success"
  | fetchAllServicesFailure _ => "[shared] Fetch all services - Failure"
  | exportBinaryFile _ _ _ _ => "[shared] Export binary file"
  | exportBinaryFileSuccess => "[shared] Export binary file - Success"
  | exportBinaryFileFailure _ => "[shared] Export binary file - Failure"
  | fetchInfo _ => "[shared] Fetch info"
  | fetchInfoSuccess _ => "[shared] Fetch info - Success"
  | fetchInfoFailure _ => "[shared] Fetch info - Failure"
  | fetchLatestAgentBinary => "[shared] Fetch latest agent binary"
  | fetchLatestAgentBinarySuccess _ => "[shared] Fetch latest agent binary - Success"
  | fetchLatestAgentBinaryFailure => "[shared] Fetch latest agent binary - Failure"
  | fetchAgentBinaries => "[shared] Fetch agent binary"
  | fetchAgentBinariesSuccess _ => "[shared] Fetch agent binary - Success"
  | fetchAgentBinariesFailure => "[shared] Fetch agent binary - Failure"
  | logout => "[shared] Logout"
  | logoutSuccess => "[shared] Logout - Success"
  | logoutFailure => "[shared] Logout - Failure"
  | fetchOptionsActions => "[shared] Fetch options actions"
  | fetchOptionsActionsSuccess _ => "[shared] Fetch options actions - Success"
  | fetchOptionsActionsFailure _ => "[shared] Fetch options actions - Failure"
  | fetchOptionsEvents => "[shared] Fetch options events"
  | fetchOptionsEventsSuccess _ => "[shared] Fetch options events - Success"
  | fetchOptionsEventsFailure _ => "[shared] Fetch options events - Failure"
  | fetchOptionsFields => "[shared] Fetch options fields"
  | fetchOptionsFieldsSuccess _ => "[shared] Fetch options fields - Success"
  | fetchOptionsFieldsFailure _ => "[shared] Fetch options fields - Failure"
  | fetchOptionsTags => "[shared] Fetch options tags"
  | fetchOptionsTagsSuccess _ => "[shared] Fetch options tags - Success"
  | fetchOptionsTagsFailure _ => "[shared] Fetch options tags - Failure"
  | setFilterByTags _ => "[shared] Set filter by tags"
  | resetFilterByTags => "[shared] Reset filter by tags"
  | setFilterBySearchValue _ => "[shared] Set filter by search value"
  end.

(** ** Reducer *)

(** Password, complete lists. *)
Definition on_lists (state : State) (a : Action) : res State :=
  match a with
  | changePassword _ =>
      Ok { state with isChangingPassword := true; passwordChangeError := VUndef }
  | changePasswordSuccess => Ok { state with isChangingPassword := false }
  | changePasswordFailure error =>
      Ok { state with isChangingPassword := false; passwordChangeError := error }
  | fetchAllAgents => Ok { state with isLoadingAllAgents := true }
  | fetchAllAgentsSuccess data =>
      x_allAgents ← manyAgentsToModels data;
      total_ ← get data "total";
      Ok { state with isLoadingAllAgents := false; allAgents := x_allAgents;
                   allTotalAgents := total_ }
  | fetchAllAgentsFailure => Ok { state with isLoadingAllAgents := false }
  | fetchAllGroups silent => Ok { state with isLoadingAllGroups := negb silent }
  | fetchAllGroupsSuccess data =>
      x_allGroups ← privateGroupsToModels data;
      total_ ← get data "total";
      Ok { state with isLoadingAllGroups := false; initializedGroups := true;
                   allGroups := x_allGroups; allTotalGroups := total_ }
  | fetchAllGroupsFailure => Ok { state with isLoadingAllGroups := false }
  | fetchAllPolicies silent => Ok { state with isLoadingAllPolicies := negb silent }
  | fetchAllPoliciesSuccess data =>
      x_allPolicies ← privatePoliciesToModels data;
      total_ ← get data "total";
      Ok { state with isLoadingAllPolicies := false; allPolicies := x_allPolicies;
                   allTotal := total_ }
  | fetchAllPoliciesFailure => Ok { state with isLoadingAllPolicies := false }
  | fetchAllServices => Ok { state with isLoadingAllServices := true }
  | fetchAllServicesSuccess data =>
      x_allServices ← get data "services";
      total_ ← get data "total";
      Ok { state with allServices := x_allServices; isLoadingAllServices := false;
                   allTotalServices := total_ }
  | fetchAllServicesFailure _ => Ok { state with isLoadingAllServices := false }
  | fetchAllModules => Ok { state with isLoadingAllModules := true }
  | fetchAllModulesSuccess data =>
      x_allModules ← manyModulesToModels data;
      total_ ← get data "total";
      Ok { state with isLoadingAllModules := false; allModules := x_allModules;
                   allTotalModules := total_ }
  | fetchAllModulesFailure => Ok { state with isLoadingAllModules := false }
  | _ => Ok state
  end.

(** Export, server information, agent binaries. *)
Definition on_binaries (state : State) (a : Action) : res State :=
  match a with
  | exportBinaryFile _ _ _ _ =>
      Ok { state with isExportingBinaryFile := true; exportError := VUndef }
  | exportBinaryFileSuccess => Ok { state with isExportingBinaryFile := false }
  | exportBinaryFileFailure error =>
      Ok { state with isExportingBinaryFile := false; exportError := error }
  | fetchInfo _ => Ok { state with isInfoLoading := true; isInfoLoaded := false }
  | fetchInfoSuccess info' =>
      Ok { state with info := info'; isInfoLoading := false; isInfoLoaded := true }
  | fetchInfoFailure _ => Ok { state with isInfoLoading := false; isInfoLoaded := false }
  | fetchLatestAgentBinary => Ok { state with isLoadingLatestAgentBinary := true }
  | fetchLatestAgentBinarySuccess binaries =>
      latest ← (l ← get binaries "binaries"; get l "0");
      Ok { state with latestAgentBinary := latest; isLoadingLatestAgentBinary := false }
  | fetchLatestAgentBinaryFailure => Ok { state with isLoadingLatestAgentBinary := false }
  | fetchAgentBinaries => Ok { state with isLoadingAgentBinaries := true }
  | fetchAgentBinariesSuccess binaries =>
      list ← get binaries "binaries";
      all ← iter list;
      latest ← get list "0";
      Ok { state with agentBinaries := VArr all; latestAgentBinary := latest;
                   isLoadingAgentBinaries := false }
  | fetchAgentBinariesFailure => Ok { state with isLoadingAgentBinaries := false }
  | logout => Ok { state with info := VUndef }
  | _ => Ok state
  end.

(** The options of the module editor, filters by tag. *)
Definition on_options (state : State) (a : Action) : res State :=
  match a with
  | fetchOptionsActions => Ok { state with isLoadingOptionsActions := true }
  | fetchOptionsActionsSuccess data =>
      x_actions ← get data "actions";
      Ok { state with isLoadingOptionsActions := false; actions := x_actions }
  | fetchOptionsActionsFailure _ => Ok { state with isLoadingOptionsActions := false }
  | fetchOptionsEvents => Ok { state with isLoadingOptionsEvents := true }
  | fetchOptionsEventsSuccess data =>
      x_events ← get data "events";
      Ok { state with isLoadingOptionsEvents := false; events := x_events }
  | fetchOptionsEventsFailure _ => Ok { state with isLoadingOptionsEvents := false }
  | fetchOptionsFields => Ok { state with isLoadingOptionsFields := true }
  | fetchOptionsFieldsSuccess data =>
      x_fields ← get data "fields";
      Ok { state with isLoadingOptionsFields := false; fields := x_fields }
  | fetchOptionsFieldsFailure _ => Ok { state with isLoadingOptionsFields := false }
  | fetchOptionsTags => Ok { state with isLoadingOptionsTags := true }
  | fetchOptionsTagsSuccess data =>
      x_tags ← get data "tags";
      Ok { state with isLoadingOptionsTags := false; tags := x_tags }
  | fetchOptionsTagsFailure _ => Ok { state with isLoadingOptionsTags := false }
  | setFilterByTags tags' => Ok { state with selectedTags := tags' }
  | resetFilterByTags => Ok { state with selectedTags := VArr [] }
  | setFilterBySearchValue searchValue' => Ok { state with searchValue := searchValue' }
  | _ => Ok state
  end.

(** Every handler is the identity on the actions it is not registered for. *)
Definition handlers : list (State → Action → res State) :=
  [on_lists; on_binaries; on_options].

Definition reducer (state : State) (a : Action) : res State :=
  foldM (λ s handler, handler s a) state handlers.
