(* ===== verification/PagedStores.v ===== *)
(** * The paged and filtered lists of the client

    The instances of [Paged] for the lists of the six list stores, and the
    interface of the filters of their grids with its instances. *)

From S2P Require Import Prelude JsValue Models Filtration Paging PoliciesStore GroupsStore.
From S2P Require Import AgentListStore AgentCardStore ModuleListStore ModulesInstancesStore.

(** ** Paged lists *)

(** The reducer on the action of a page, computed; the page of the list before
    and after it are read off. *)
Ltac paged_store reduce :=
  intros; unfold reduce in *; cbn -[fetchPage] in *; inv_res; simplify_eq; cbn in *;
  match goal with H : fetchPage _ _ _ _ _ = Ok ?p |- _ => destruct p; cbn in *; exact H end.

Ltac paged_store_ok reduce :=
  intros; unfold reduce in *; cbn -[fetchPage] in *;
  match goal with H : fetchPage _ _ _ _ _ = Ok _ |- _ => rewrite H end;
  eexists; reflexivity.

Module PolicyList.
Import PoliciesStore.
#[refine] Instance paged : Paged State Action := {
  reduce := reducer;
  page_of s := mkPage (policies s) (page s) (total s);
  loaded := fetchPoliciesPageSuccess;
  convert := privatePoliciesToModels;
  items_key := "policies"
}.
Proof. all: [> paged_store reducer | paged_store_ok reducer]. Defined.
End PolicyList.

Module PolicyAgentList.
Import PoliciesStore.
#[refine] Instance paged : Paged State Action := {
  reduce := reducer;
  page_of s := mkPage (policyAgents s) (agentsPage s) (agentsTotal s);
  loaded := fetchPolicyAgentsSuccess;
  convert := manyAgentsToModels;
  items_key := "agents"
}.
Proof. all: [> paged_store reducer | paged_store_ok reducer]. Defined.
End PolicyAgentList.

Module PolicyGroupList.
Import PoliciesStore.
#[refine] Instance paged : Paged State Action := {
  reduce := reducer;
  page_of s := mkPage (policyGroups s) (groupsPage s) (groupsTotal s);
  loaded := fetchPolicyGroupsSuccess;
  convert := privateGroupsToModels;
  items_key := "groups"
}.
Proof. all: [> paged_store reducer | paged_store_ok reducer]. Defined.
End PolicyGroupList.

Module PolicyEventList.
Import PoliciesStore.
#[refine] Instance paged : Paged State Action := {
  reduce := reducer;
  page_of s := mkPage (policyEvents s) (eventsPage s) (eventsTotal s);
  loaded := fetchPolicyEventsSuccess;
  convert := privateEventsToModels;
  items_key := "events"
}.
Proof. all: [> paged_store reducer | paged_store_ok reducer]. Defined.
End PolicyEventList.

Module GroupList.
Import GroupsStore.
#[refine] Instance paged : Paged State Action := {
  reduce := reducer;
  page_of s := mkPage (groups s) (page s) (total s);
  loaded := fetchGroupsPageSuccess;
  convert := privateGroupsToModels;
  items_key := "groups"
}.
Proof. all: [> paged_store reducer | paged_store_ok reducer]. Defined.
End GroupList.

Module GroupAgentList.
Import GroupsStore.
#[refine] Instance paged : Paged State Action := {
  reduce := reducer;
  page_of s := mkPage (groupAgents s) (agentsPage s) (agentsTotal s);
  loaded := fetchGroupAgentsSuccess;
  convert := manyAgentsToModels;
  items_key := "agents"
}.
Proof. all: [> paged_store reducer | paged_store_ok reducer]. Defined.
End GroupAgentList.

Module GroupEventList.
Import GroupsStore.
#[refine] Instance paged : Paged State Action := {
  reduce := reducer;
  page_of s := mkPage (groupEvents s) (eventsPage s) (eventsTotal s);
  loaded := fetchGroupEventsSuccess;
  convert := privateEventsToModels;
  items_key := "events"
}.
Proof. all: [> paged_store reducer | paged_store_ok reducer]. Defined.
End GroupEventList.

Module GroupPolicyList.
Import GroupsStore.
#[refine] Instance paged : Paged State Action := {
  reduce := reducer;
  page_of s := mkPage (groupPolicies s) (policiesPage s) (policiesTotal s);
  loaded := fetchGroupPoliciesSuccess;
  convert := privatePoliciesToModels;
  items_key := "policies"
}.
Proof. all: [> paged_store reducer | paged_store_ok reducer]. Defined.
End GroupPolicyList.

Module AgentList.
Import AgentListStore.
#[refine] Instance paged : Paged State Action := {
  reduce := reducer;
  page_of s := mkPage (agents s) (page s) (total s);
  loaded := fetchAgentsPageSuccess;
  convert := manyAgentsToModels;
  items_key := "agents"
}.
Proof. all: [> paged_store reducer | paged_store_ok reducer]. Defined.
End AgentList.

Module AgentEventList.
Import AgentCardStore.
#[refine] Instance paged : Paged State Action := {
  reduce := reducer;
  page_of s := mkPage (eventsOfAgentCard s) (eventsPage s) (totalEvents s);
  loaded := fetchAgentEventsSuccess;
  convert := privateEventsToModels;
  items_key := "events"
}.
Proof. all: [> paged_store reducer | paged_store_ok reducer]. Defined.
End AgentEventList.

Module ModuleList.
Import ModuleListStore.
#[refine] Instance paged : Paged State Action := {
  reduce := reducer;
  page_of s := mkPage (modules s) (page s) (total s);
  loaded := fetchModulesPageSuccess;
  convert := manyModulesToModels;
  items_key := "modules"
}.
Proof. all: [> paged_store reducer | paged_store_ok reducer]. Defined.
End ModuleList.

Module InstanceEventList.
Import ModulesInstancesStore.
#[refine] Instance paged : Paged State Action := {
  reduce := reducer;
  page_of s := mkPage (events s) (eventsPage s) (totalEvents s);
  loaded := fetchEventsSuccess;
  convert := privateEventsToModels;
  items_key := "events"
}.
Proof. all: [> paged_store reducer | paged_store_ok reducer]. Defined.
End InstanceEventList.

(** Every paged list of the client. *)
Record PagedList := mkPagedList {
  listState : Type;
  listAction : Type;
  listPaged : Paged listState listAction
}.

Definition pagedLists : list PagedList := [
  mkPagedList _ _ PolicyList.paged; mkPagedList _ _ PolicyAgentList.paged;
  mkPagedList _ _ PolicyGroupList.paged; mkPagedList _ _ PolicyEventList.paged;
  mkPagedList _ _ GroupList.paged; mkPagedList _ _ GroupAgentList.paged;
  mkPagedList _ _ GroupEventList.paged; mkPagedList _ _ GroupPolicyList.paged;
  mkPagedList _ _ AgentList.paged; mkPagedList _ _ AgentEventList.paged;
  mkPagedList _ _ ModuleList.paged; mkPagedList _ _ InstanceEventList.paged].

(** ** Filters of the grids *)

(** A grid has at most one filter for a field. *)
Definition one_per_field (l : list Filtration) : Prop := NoDup (field <$> l).

Lemma one_per_field_nil : one_per_field [].
Proof. apply NoDup_nil_2. Qed.

Lemma one_per_field_get f l : one_per_field l → one_per_field (getGridFiltration f l).
Proof. apply getGridFiltration_NoDup. Qed.

Lemma one_per_field_tag tag l : one_per_field l → one_per_field (getGridFiltrationByTag l tag).
Proof. by apply NoDup_replace. Qed.

#[export] Hint Resolve one_per_field_nil one_per_field_get one_per_field_tag : soldr.

(** A store with filtered grids: its filters are one per field initially, and
    stay so after every action; [restores] is the list a restored state
    brings in. *)
Class Filtered (S A : Type) := {
  filtered_reduce : S → A → res S;
  filtered_init : S;
  filters_of : S → list (list Filtration);
  restores : A → list Filtration;
  filtered_init_ok : Forall one_per_field (filters_of filtered_init);
  filtered_reduce_ok s a s' :
    Forall one_per_field (filters_of s) → one_per_field (restores a) →
    filtered_reduce s a = Ok s' → Forall one_per_field (filters_of s')
}.

(** The filters of the state an action leads to. *)
Ltac filtered_store reduce :=
  intros s a s' Hs Hr H; unfold reduce in H; rewrite ?Forall_cons in Hs; destruct_and?;
  destruct a; cbn -[fetchPage] in H, Hr; inv_res; simplify_eq; cbn;
  rewrite ?Forall_cons; split_and?; unfold constant; auto with soldr.

Module PolicyFilters.
Import PoliciesStore.
#[refine] Instance filtered : Filtered State Action := {
  filtered_reduce := reducer;
  filtered_init := initialState;
  filters_of s := [gridFiltration s; agentsGridFiltration s; groupsGridFiltration s;
                   eventsGridFiltration s];
  restores a := match a with restoreState r => restoredFiltration r | _ => [] end
}.
Proof. all: [> repeat constructor | filtered_store reducer]. Defined.
End PolicyFilters.

Module GroupFilters.
Import GroupsStore.
#[refine] Instance filtered : Filtered State Action := {
  filtered_reduce := reducer;
  filtered_init := initialState;
  filters_of s := [gridFiltration s; agentsGridFiltration s; eventsGridFiltration s; policiesGridFiltration s];
  restores a := match a with restoreState r => restoredFiltration r | _ => [] end
}.
Proof. all: [> repeat constructor | filtered_store reducer]. Defined.
End GroupFilters.

Module AgentFilters.
Import AgentListStore.
#[refine] Instance filtered : Filtered State Action := {
  filtered_reduce := reducer;
  filtered_init := initialState;
  filters_of s := [gridFiltration s];
  restores a := match a with restoreState r => restoredFiltration r | _ => [] end
}.
Proof. all: [> repeat constructor | filtered_store reducer]. Defined.
End AgentFilters.

Module AgentEventFilters.
Import AgentCardStore.
#[refine] Instance filtered : Filtered State Action := {
  filtered_reduce := reducer;
  filtered_init := initialState;
  filters_of s := [eventsGridFiltration s];
  restores _ := []
}.
Proof. all: [> repeat constructor | filtered_store reducer]. Defined.
End AgentEventFilters.

Module ModuleFilters.
Import ModuleListStore.
#[refine] Instance filtered : Filtered State Action := {
  filtered_reduce := reducer;
  filtered_init := initialState;
  filters_of s := [gridFiltration s];
  restores a := match a with restoreState r => restoredFiltration r | _ => [] end
}.
Proof. all: [> repeat constructor | filtered_store reducer]. Defined.
End ModuleFilters.

Module InstanceEventFilters.
Import ModulesInstancesStore.
#[refine] Instance filtered : Filtered State Action := {
  filtered_reduce := reducer;
  filtered_init := initialState;
  filters_of s := [eventsGridFiltration s];
  restores _ := []
}.
Proof. all: [> repeat constructor | filtered_store reducer]. Defined.
End InstanceEventFilters.
