(* ===== verification/StoreTheorems.v ===== *)
(** * Lists and filters: properties

    Infinite scrolling and grid filters, proved for every list store through
    the interfaces [Paged] and [Filtered], and what single stores do. *)

From S2P Require Import Prelude JsValue Models Filtration Paging PoliciesStore SharedStore PagedStores.

(** ** Scrolling *)

Section paged.
Context {S A : Type} `{HP : Paged S A}.

Lemma page_arrives data rows page s old :
  answer convert items_key data rows → pageRows (page_of s) = VArr old →
  ∃ s', reduce s (loaded data page) = Ok s' ∧
    pageRows (page_of s') = VArr (if bool_decide (page = 1%Z) then rows else old ++ rows) ∧
    pageNo (page_of s') = (if bool_decide (rows = []) then pageNo (page_of s) else vint page) ∧
    Ok (pageTotal (page_of s')) = get data "total".
Proof.
  intros Ha Hold.
  destruct (fetchPage_ok convert items_key data rows page (page_of s) old Ha Hold) as [p Hp].
  destruct (reduce_loaded_ok s data page p Hp) as [s' Hs]. exists s'. split; [done|].
  apply reduce_loaded in Hs. by apply (fetchPage_answer _ _ _ _ _ _ _ _ Ha Hold Hs).
Qed.

Lemma arrivals_ok page answers pages s old :
  Forall2 (answer convert items_key) answers pages → pageRows (page_of s) = VArr old →
  ∃ s', foldM reduce s (arrivals page answers) = Ok s'.
Proof.
  intros Hf. revert page s old.
  induction Hf as [|data rows answers pages Ha _ IH]; intros page s old Hold; [by eexists|].
  destruct (page_arrives data rows page s old Ha Hold) as (s1 & Hs & Hr & _).
  cbn [arrivals foldM]. rewrite Hs. cbn [mbind res_bind]. by eapply IH.
Qed.
End paged.

Section list_theorems.
Context (L : PagedList).
#[local] Existing Instance listPaged.
#[local] Instance paged_of_list : Paged (listState L) (listAction L) := listPaged L.

(** In every list of the client the first page replaces the rows, a later
    one is appended to them, the total is the server's, and an empty page does
    not advance the page number; a page the server sent is never refused. *)
Theorem page_effect data rows page (s : listState L) old :
  L ∈ pagedLists → answer convert items_key data rows → pageRows (page_of s) = VArr old →
  ∃ s', reduce s (loaded data page) = Ok s' ∧
    pageRows (page_of s') = VArr (if bool_decide (page = 1%Z) then rows else old ++ rows) ∧
    pageNo (page_of s') = (if bool_decide (rows = []) then pageNo (page_of s) else vint page) ∧
    Ok (pageTotal (page_of s')) = get data "total".
Proof. intros _. apply page_arrives. Qed.

(** C38: In every list of the client, scrolling through the pages from the
    first one shows exactly the rows of the server, in order, whatever the
    list showed before. *)
Theorem scrolling_shows_all data rows answers pages (s : listState L) old :
  L ∈ pagedLists → answer convert items_key data rows →
  Forall2 (answer convert items_key) answers pages → pageRows (page_of s) = VArr old →
  ∃ s', foldM reduce s (arrivals 1 (data :: answers)) = Ok s' ∧
    pageRows (page_of s') = VArr (rows ++ mjoin pages).
Proof.
  intros _ Ha Hf Hold.
  destruct (arrivals_ok 1 (data :: answers) (rows :: pages) s old) as [s' Hs];
    [by constructor|done|].
  exists s'. split; [done|]. by eapply scroll_pages; [..|by eexists|].
Qed.
End list_theorems.

Definition agentData (id : Z) : val := obj_lit [("id", vint id)].
Definition modulePage (ids : list Z) : val :=
  obj_lit [("modules", VArr (agentData <$> ids)); ("total", vint 3)].
Definition moduleRow (id : Z) : val := spread (agentData id) [("_origin", agentData id)].

Lemma modulePage_answer ids :
  ids ∈ [[1%Z; 2%Z]; [3%Z]] →
  answer manyModulesToModels "modules" (modulePage ids) (moduleRow <$> ids).
Proof.
  rewrite !elem_of_cons. intros [->|[->|[]%elem_of_nil]];
    (split; [vm_compute; reflexivity|eexists; split; [vm_compute; reflexivity|reflexivity]]).
Qed.

Definition moduleList : PagedList := mkPagedList _ _ ModuleList.paged.

Lemma moduleList_in : moduleList ∈ pagedLists.
Proof. unfold pagedLists. do 10 apply list_elem_of_further. apply list_elem_of_here. Qed.

Lemma page_effect_witness :
  ∃ s', @reduce _ _ ModuleList.paged ModuleListStore.initialState
          (ModuleListStore.fetchModulesPageSuccess (modulePage [1%Z; 2%Z]) 1) = Ok s' ∧
    ModuleListStore.modules s' = VArr [moduleRow 1; moduleRow 2].
Proof.
  destruct (page_effect moduleList (modulePage [1%Z; 2%Z]) [moduleRow 1; moduleRow 2] 1
              ModuleListStore.initialState []) as (s' & H & Hr & _).
  - exact moduleList_in.
  - apply (modulePage_answer [1%Z; 2%Z]), list_elem_of_here.
  - reflexivity.
  - exists s'. split; [exact H|exact Hr].
Defined.

Lemma scrolling_shows_all_witness :
  ∃ s', foldM ModuleListStore.reducer ModuleListStore.initialState
      [ModuleListStore.fetchModulesPageSuccess (modulePage [1%Z; 2%Z]) 1;
       ModuleListStore.fetchModulesPageSuccess (modulePage [3%Z]) 2] = Ok s' ∧
    ModuleListStore.modules s' = VArr [moduleRow 1; moduleRow 2; moduleRow 3].
Proof.
  destruct (scrolling_shows_all moduleList (modulePage [1%Z; 2%Z]) [moduleRow 1; moduleRow 2]
              [modulePage [3%Z]] [[moduleRow 3]] ModuleListStore.initialState [])
    as (s' & H & Hr).
  - exact moduleList_in.
  - apply (modulePage_answer [1%Z; 2%Z]), list_elem_of_here.
  - constructor; [|constructor].
    apply (modulePage_answer [3%Z]), list_elem_of_further, list_elem_of_here.
  - reflexivity.
  - exists s'. split; [exact H|exact Hr].
Defined.

(** ** Filters *)

Record FilteredStore := mkFilteredStore {
  gridState : Type;
  gridAction : Type;
  gridFiltered : Filtered gridState gridAction
}.

Definition filteredStores : list FilteredStore := [
  mkFilteredStore _ _ PolicyFilters.filtered; mkFilteredStore _ _ GroupFilters.filtered;
  mkFilteredStore _ _ AgentFilters.filtered; mkFilteredStore _ _ AgentEventFilters.filtered;
  mkFilteredStore _ _ ModuleFilters.filtered; mkFilteredStore _ _ InstanceEventFilters.filtered].

(** In every list store, after any sequence of actions each grid has at
    most one filter for a field, provided the saved states that were restored
    had. *)
Theorem one_filter_per_field (F : FilteredStore) l s :
  F ∈ filteredStores →
  Forall (λ a, one_per_field (@restores _ _ (gridFiltered F) a)) l →
  foldM (@filtered_reduce _ _ (gridFiltered F)) (@filtered_init _ _ (gridFiltered F)) l = Ok s →
  Forall one_per_field (@filters_of _ _ (gridFiltered F) s).
Proof.
  intros _ Hl H.
  eapply (foldM_inv (λ s, Forall one_per_field (@filters_of _ _ (gridFiltered F) s)));
    [|apply filtered_init_ok|exact H].
  intros x a x' Ha Hx Hr. eapply filtered_reduce_ok; [exact Hx| |exact Hr].
  by eapply Forall_forall in Hl.
Qed.

Definition tagged (tags : list string) : Filtration := mkFiltration "tags" (vstrs tags).

Lemma one_filter_per_field_witness :
  ∃ s, foldM PoliciesStore.reducer PoliciesStore.initialState
      [PoliciesStore.setGridFiltration (tagged ["a"]); PoliciesStore.setGridFiltrationByTag "b"]
      = Ok s ∧
    PoliciesStore.gridFiltration s = [tagged ["b"]] ∧
    one_per_field (PoliciesStore.gridFiltration s).
Proof.
  eexists. split; [vm_compute; reflexivity|]. split; [reflexivity|].
  assert (∀ s, foldM PoliciesStore.reducer PoliciesStore.initialState
      [PoliciesStore.setGridFiltration (tagged ["a"]); PoliciesStore.setGridFiltrationByTag "b"]
      = Ok s → one_per_field (PoliciesStore.gridFiltration s)) as Hs; [|apply Hs; vm_compute; reflexivity].
  intros s H.
  pose proof (one_filter_per_field (mkFilteredStore _ _ PolicyFilters.filtered)
    [PoliciesStore.setGridFiltration (tagged ["a"]); PoliciesStore.setGridFiltrationByTag "b"] s
    ltac:(apply list_elem_of_here) ltac:(repeat constructor) H) as Hf.
  by inversion Hf.
Defined.

(** Setting the filter of a field leaves the other fields' filters as they
    were. *)
Lemma dictionary_other f l k :
  one_per_field l → k ≠ field f →
  obj_get k (filtrationToDictionary (getGridFiltration f l)) = obj_get k (filtrationToDictionary l).
Proof.
  intros Hl Hk. rewrite (filtrationToDictionary_get l) by done.
  rewrite filtrationToDictionary_get by (by apply getGridFiltration_NoDup).
  unfold getGridFiltration.
  assert (List.find (λ x, String.eqb (field x) k && isActive x)
            (other_fields (field f) l ++ (if needRemoveFiltration f then [] else [f])) =
          List.find (λ x, String.eqb (field x) k && isActive x) l) as ->; [|done].
  induction l as [|x l IH]; simpl.
  - destruct (needRemoveFiltration f); simpl; [done|].
    by rewrite (proj2 (String.eqb_neq _ _)) by congruence.
  - apply NoDup_cons in Hl as [_ Hl]. destruct (String.eqb_spec (field x) (field f)) as [He|He]; simpl.
    + rewrite (proj2 (String.eqb_neq (field x) k)) by congruence. by apply IH.
    + destruct (String.eqb (field x) k && isActive x); [done|]. by apply IH.
Qed.

(** The filter that applies to the field just set. *)
Lemma dictionary_same f l :
  one_per_field l →
  obj_get (field f) (filtrationToDictionary (getGridFiltration f l)) =
    if negb (needRemoveFiltration f) && isActive f then Some f else None.
Proof.
  intros Hl. rewrite filtrationToDictionary_get by by apply getGridFiltration_NoDup.
  unfold getGridFiltration.
  assert (∀ l', (∀ x, x ∈ l' → field x ≠ field f) → ∀ m,
    List.find (λ x, String.eqb (field x) (field f) && isActive x) (l' ++ m) =
    List.find (λ x, String.eqb (field x) (field f) && isActive x) m) as Happ.
  { induction l' as [|x l' IH]; intros Hx m; [done|]. simpl.
    rewrite (proj2 (String.eqb_neq _ _)) by (apply Hx, list_elem_of_here).
    apply IH. intros y Hy. by apply Hx, list_elem_of_further. }
  rewrite Happ by (intros x Hx; by apply elem_of_other_fields in Hx as [Hx _]).
  destruct (needRemoveFiltration f); [done|]. simpl. rewrite String.eqb_refl. simpl.
  by destruct (isActive f).
Qed.

(** Setting the filter of a field to a list of values applies it when the
    list starts with a usable value and clears it when the list is empty; the
    filters of the other fields are not affected. *)
Theorem list_filter_applies f l values k :
  one_per_field l → value f = VArr values →
  obj_get k (filtrationToDictionary (getGridFiltration f l)) =
    if String.eqb k (field f)
    then if truthy (default VUndef (head values)) then Some f else None
    else obj_get k (filtrationToDictionary l).
Proof.
  intros Hl Hv. destruct (String.eqb_spec k (field f)) as [->|Hk]; [|by apply dictionary_other].
  rewrite dictionary_same by done. unfold needRemoveFiltration, isActive. rewrite Hv.
  by destruct values.
Qed.

Lemma list_filter_applies_witness :
  obj_get "tags" (filtrationToDictionary (getGridFiltration (tagged ["a"]) [tagged ["b"]]))
    = Some (tagged ["a"]).
Proof.
  rewrite (list_filter_applies _ _ [VStr "a"]); [reflexivity| |reflexivity].
  apply (bool_decide_unpack _). vm_compute. exact I.
Defined.

(** A filter with a single value, not a list, never applies: a usable value
    removes the field's filter and an unusable one is kept but ignored. *)
Theorem scalar_filter_never_applies f l :
  one_per_field l → (∀ values, value f ≠ VArr values) →
  obj_get (field f) (filtrationToDictionary (getGridFiltration f l)) = None ∧
  (truthy (value f) = true → field f ∉ field <$> getGridFiltration f l).
Proof.
  intros Hl Hv. split.
  - rewrite dictionary_same by done. unfold needRemoveFiltration, isActive.
    destruct (value f) as [| | | | |values|] eqn:He; try by destruct (truthy _).
    by destruct (Hv values).
  - intros Ht Hin. apply list_elem_of_fmap in Hin as (x & Hx & Hin).
    apply elem_of_getGridFiltration in Hin as [[Hne _]|[Hr _]]; [by destruct Hne|].
    unfold needRemoveFiltration in Hr.
    destruct (value f) as [| | | | |values|] eqn:He; try congruence.
Qed.

Lemma scalar_filter_never_applies_witness :
  obj_get "status"
    (filtrationToDictionary (getGridFiltration (mkFiltration "status" (VStr "online")) [])) = None.
Proof.
  refine (proj1 (scalar_filter_never_applies (mkFiltration "status" (VStr "online")) [] _ _)).
  - apply one_per_field_nil.
  - intros values. discriminate.
Defined.

(** ** Single stores *)

(** Selecting a group of a policy is taken for selecting a group in the
    list of policies: the two actions have one type, so either runs both
    handlers, and the filters and the search of the list are lost. *)
Theorem group_selections_confused (s : PoliciesStore.State) id :
  PoliciesStore.action_type (PoliciesStore.selectPolicyGroup id)
    = PoliciesStore.action_type (PoliciesStore.selectGroup id) ∧
  ∃ s', PoliciesStore.reducer s (PoliciesStore.selectPolicyGroup id) = Ok s' ∧
    PoliciesStore.reducer s (PoliciesStore.selectGroup id) = Ok s' ∧
    PoliciesStore.selectedGroupId s' = id ∧ PoliciesStore.selectedPolicyGroupId s' = id ∧
    PoliciesStore.selectedFilterId s' = VUndef ∧
    PoliciesStore.gridFiltration s' = [] ∧ PoliciesStore.gridSearch s' = "".
Proof. split; [done|]. eexists. split_and!; reflexivity. Qed.

(** Once the values of the group filters of a policy are being fetched, the
    flag that says so stays raised until the store is reset, whatever the
    server answers: the answers lower another flag. *)
Theorem group_filter_items_never_loaded (s : PoliciesStore.State) a s' :
  PoliciesStore.isLoadingGroupFilterItems s = true →
  PoliciesStore.reducer s a = Ok s' → a ≠ PoliciesStore.reset →
  PoliciesStore.isLoadingGroupFilterItems s' = true.
Proof.
  intros Hs H Ha. unfold PoliciesStore.reducer in H.
  destruct a; cbn -[fetchPage] in H; inv_res; simplify_eq; try done; exact Hs.
Qed.

Definition fetchingItems : PoliciesStore.State :=
  { PoliciesStore.initialState with PoliciesStore.isLoadingGroupFilterItems := true }.

Lemma group_filter_items_never_loaded_witness :
  ∃ s', PoliciesStore.reducer fetchingItems
      (PoliciesStore.fetchGroupFilterItemsSuccess (VArr []) (VArr []) (VArr [])) = Ok s' ∧
    PoliciesStore.isLoadingGroupFilterItems s' = true.
Proof.
  eexists. split; [vm_compute; reflexivity|].
  apply (group_filter_items_never_loaded fetchingItems
           (PoliciesStore.fetchGroupFilterItemsSuccess (VArr []) (VArr []) (VArr []))).
  - reflexivity.
  - vm_compute. reflexivity.
  - discriminate.
Defined.

(** The total number of policies in the shared store is 0 in every state:
    the answer writes it under another name. *)
Theorem total_policies_stays_zero l s :
  foldM SharedStore.reducer SharedStore.initialState l = Ok s →
  SharedStore.allTotalPolicies s = vint 0.
Proof.
  intros H. refine (foldM_inv (λ s, SharedStore.allTotalPolicies s = vint 0)
    SharedStore.reducer l SharedStore.initialState s _ eq_refl H).
  intros x a x' _ Hx Hr. unfold SharedStore.reducer in Hr.
  destruct a; cbn in Hr; inv_res; simplify_eq; try done; exact Hx.
Qed.

Definition policiesAnswer : val :=
  obj_lit [("policies", VArr []); ("details", VArr []); ("total", vint 5)].

Lemma total_policies_stays_zero_witness :
  ∃ s, foldM SharedStore.reducer SharedStore.initialState
      [SharedStore.fetchAllPolicies false; SharedStore.fetchAllPoliciesSuccess policiesAnswer] = Ok s ∧
    SharedStore.allTotalPolicies s = vint 0 ∧ SharedStore.allTotal s = vint 5.
Proof.
  eexists. split; [vm_compute; reflexivity|]. split; [|reflexivity].
  apply (total_policies_stays_zero
    [SharedStore.fetchAllPolicies false; SharedStore.fetchAllPoliciesSuccess policiesAnswer]).
  vm_compute. reflexivity.
Defined.
