(* ===== verification/Types.v ===== *)
(** * Types of values

    The types TypeScript declares for the data of the server and the fields of
    the stores are not checked when the program runs.  They are predicates
    here: [libs/api/src/lib/dto] as far as the conversions to view models
    ([libs/models]) and the reducers rely on them, and the conversions are
    shown to be total on them. *)

From S2P Require Import Prelude JsValue JsJson Models ModelsTheorems Paging.

Definition ty := val → bool.

Definition ty_any : ty := λ _, true.
Definition ty_num : ty := λ v, match v with VNum _ => true | _ => false end.
Definition ty_str : ty := λ v, match v with VStr _ => true | _ => false end.
Definition ty_obj : ty := λ v, match v with VObj _ => true | _ => false end.
Definition ty_arr (t : ty) : ty := λ v, match v with VArr l => forallb t l | _ => false end.
Definition ty_or_null (t : ty) : ty := λ v, is_nullish v || t v.
Definition ty_defined : ty := λ v, negb (is_nullish v).

(** An object with properties of some types, among others. *)
Definition ty_rec (fields : list (string * ty)) : ty :=
  λ v, ty_obj v && forallb (λ kt, kt.2 (prop v kt.1)) fields.

(** An object whose properties all have a type. *)
Definition ty_dict (t : ty) : ty :=
  λ v, match v with VObj o => forallb (λ kv, t kv.2) o | _ => false end.

(** ** Reading typed values *)

Lemma ty_obj_spec v : ty_obj v = true ↔ is_obj v.
Proof. split; [destruct v as [| | | | | |o]; try done; by exists o|by intros [o ->]]. Qed.

Lemma ty_arr_spec t v : ty_arr t v = true ↔ ∃ l, v = VArr l ∧ Forall (λ x, t x = true) l.
Proof.
  split.
  - destruct v as [| | | | |l|]; try done. simpl. rewrite forallb_Forall. by exists l.
  - intros (l & -> & Hl). simpl. by rewrite forallb_Forall.
Qed.

Lemma ty_rec_obj fields v : ty_rec fields v = true → is_obj v.
Proof. intros [? _]%andb_true_iff. by apply ty_obj_spec. Qed.

Lemma ty_rec_get fields v k t :
  ty_rec fields v = true → (k, t) ∈ fields → get v k = Ok (prop v k) ∧ t (prop v k) = true.
Proof.
  intros [Ho Hf]%andb_true_iff Hk. split; [by apply get_is_obj, ty_obj_spec|].
  apply forallb_Forall in Hf. exact (proj1 (Forall_forall _ _) Hf _ Hk).
Qed.

Lemma ty_arr_objs t l : (∀ x, t x = true → is_obj x) → Forall (λ x, t x = true) l → Forall is_obj l.
Proof. intros Ht Hl. eapply Forall_impl; [exact Hl|done]. Qed.

Lemma get_obj_ok v k : is_obj v → ∃ x, get v k = Ok x.
Proof. intros [o ->]. by eexists. Qed.

(** [arr.map(f)] for a callback that is total on the elements. *)
Lemma mapM_typed (f : val → res val) (P Q : val → Prop) l :
  Forall P l → (∀ x, P x → ∃ y, f x = Ok y ∧ Q y) →
  ∃ l', mapM f l = Ok l' ∧ Forall Q l' ∧ length l' = length l.
Proof.
  intros Hl Hf. induction Hl as [|x l Hx _ (l' & Hl' & HQ & Hlen)].
  - exists []. split; [done|]. by split; [constructor|].
  - destruct (Hf x Hx) as (y & Hy & HyQ). exists (y :: l'). simpl. rewrite Hy. cbn [mbind res_bind].
    rewrite Hl'. cbn [mbind res_bind]. split; [done|]. split; [by constructor|]. simpl. by f_equal.
Qed.

Lemma map_array_typed f (P Q : val → Prop) l :
  Forall P l → (∀ x, P x → ∃ y, f x = Ok y ∧ Q y) →
  ∃ l', map_array f (VArr l) = Ok (VArr l') ∧ Forall Q l' ∧ length l' = length l.
Proof.
  intros Hl Hf. destruct (mapM_typed f P Q l Hl Hf) as (l' & H & HQ). exists l'.
  unfold map_array. cbn [as_array mbind res_bind]. by rewrite H.
Qed.

Lemma find_by_typed key x l :
  Forall is_obj l → ∃ y, find_by key x (VArr l) = Ok y ∧ (y = VUndef ∨ y ∈ l).
Proof.
  intros Hl. unfold find_by. cbn [as_array mbind res_bind].
  induction Hl as [|z l Hz _ (y & Hy & Hin)]; simpl.
  { exists VUndef. by split; [|left]. }
  unfold key_is. destruct (get_obj_ok z key Hz) as [k ->]. cbn [mbind res_bind].
  destruct (strict_eq k x).
  - exists z. split; [done|]. right. apply list_elem_of_here.
  - exists y. split; [exact Hy|]. destruct Hin; [by left|right]. by apply list_elem_of_further.
Qed.

(** ** The data of the server *)

Definition agent_dto : ty :=
  ty_rec [("info", ty_rec [("os", ty_obj)]); ("version", ty_str); ("id", ty_defined)].
Definition agents_dto : ty :=
  ty_rec [("agents", ty_arr agent_dto); ("details", ty_arr ty_obj); ("total", ty_num)].
Definition one_agent_dto : ty := ty_rec [("agent", agent_dto)].

Definition groups_dto : ty :=
  ty_rec [("groups", ty_arr ty_obj); ("details", ty_arr ty_obj); ("total", ty_num)].

Definition modules_dto : ty := ty_rec [("modules", ty_arr ty_obj); ("total", ty_num)].

(** The modules of an entity, with their details. *)
Definition entity_modules_dto : ty :=
  ty_rec [("modules", ty_arr (ty_rec [("info", ty_obj)])); ("details", ty_arr ty_obj)].

Definition events_dto : ty :=
  ty_rec [("events", ty_arr ty_obj); ("agents", ty_arr ty_obj); ("modules", ty_arr ty_obj);
    ("policies", ty_arr ty_obj); ("groups", ty_arr ty_obj); ("total", ty_num)].

(** The details of a policy list its modules, each with the systems it runs on. *)
Definition policy_module_dto : ty := ty_rec [("info", ty_rec [("os", ty_dict (ty_arr ty_str))])].
Definition policy_details_dto : ty := ty_rec [("modules", ty_or_null (ty_arr policy_module_dto))].

(** Every policy comes with its details. *)
Definition policies_dto : ty := λ v,
  ty_rec [("policies", ty_arr ty_obj); ("details", ty_arr policy_details_dto); ("total", ty_num)] v &&
  match prop v "policies", prop v "details" with
  | VArr policies, VArr details =>
      forallb (λ p, existsb (λ d, strict_eq (prop d "hash") (prop p "hash")) details) policies
  | _, _ => false
  end.
Definition one_policy_dto : ty :=
  ty_rec [("policy", ty_obj); ("details", policy_details_dto)].

(** ** The conversions are total on it *)

(** Every element of a list of rows is an object. *)
Definition rows : ty := ty_arr ty_obj.

(** The rows of agents have ids. *)
Definition agent_rows : ty := ty_arr (ty_rec [("id", ty_defined)]).

Lemma rows_spec v : rows v = true ↔ ∃ l, v = VArr l ∧ Forall is_obj l.
Proof.
  unfold rows. rewrite ty_arr_spec.
  split; intros (l & -> & Hl); exists l; (split; [done|]); (eapply Forall_impl; [exact Hl|]);
    intros x; apply ty_obj_spec.
Qed.

Lemma ty_rec_read fields v k t :
  ty_rec fields v = true → List.find (λ kt, String.eqb kt.1 k) fields = Some (k, t) →
  get v k = Ok (prop v k) ∧ t (prop v k) = true.
Proof.
  intros Hv Hf. apply (ty_rec_get fields); [done|]. apply list_elem_of_In.
  by apply List.find_some in Hf as [? _].
Qed.

(** Read a property of a typed value. *)
Ltac read Hv k Ht :=
  let Hg := fresh "Hg" in
  destruct (ty_rec_read _ _ k _ Hv eq_refl) as [Hg Ht]; rewrite ?Hg; cbn [mbind res_bind].

Lemma ty_rec_spread fields v kvs k t :
  ty_rec fields v = true → List.find (λ kt, String.eqb kt.1 k) fields = Some (k, t) →
  obj_get k (reverse kvs) = None → ty_rec [(k, t)] (spread v kvs) = true.
Proof.
  intros Hv Hf Hk. destruct (ty_rec_read _ _ _ _ Hv Hf) as [_ Ht].
  unfold ty_rec. cbn [forallb fst snd]. rewrite prop_spread, Hk, andb_true_r.
  apply ty_rec_obj in Hv as [o ->]. exact Ht.
Qed.

Lemma agentToModel_typed agent details :
  agent_dto agent = true →
  ∃ m, agentToModel agent details = Ok m ∧ ty_rec [("id", ty_defined)] m = true.
Proof.
  intros Ha. unfold agent_dto in Ha. unfold agentToModel.
  read Ha "info" Hi. read Hi "os" Ho. read Ha "version" Hv.
  apply ty_obj_spec in Ho as [o Ho]. unfold toOsList. rewrite Ho, !get_obj. cbn [mbind res_bind].
  destruct (prop agent "version") as [| | | |version| |]; try discriminate Hv.
  cbn [as_string mbind res_bind]. eexists. split; [reflexivity|].
  by eapply ty_rec_spread.
Qed.

Lemma manyAgentsToModels_typed data :
  agents_dto data = true →
  ∃ l n, manyAgentsToModels data = Ok (VArr l) ∧ agent_rows (VArr l) = true ∧
    prop data "agents" = VArr n ∧ length l = length n.
Proof.
  intros Hd. unfold agents_dto in Hd. unfold manyAgentsToModels.
  read Hd "agents" Ha. read Hd "details" Hdt.
  apply ty_arr_spec in Ha as (agents & Ha & Hagents). apply rows_spec in Hdt as (details & Hdt & Hobjs).
  rewrite Ha. destruct (map_array_typed (λ agent,
    hash ← get agent "hash";
    details ← (d ← Ok (prop data "details"); find_by "hash" hash d);
    agentToModel agent details) (λ x, agent_dto x = true)
    (λ x, ty_rec [("id", ty_defined)] x = true) agents Hagents) as (l & Hl & Hrows & Hlen).
  - intros x Hx. destruct (get_obj_ok x "hash" (ty_rec_obj _ _ Hx)) as [h ->]. cbn [mbind res_bind].
    rewrite Hdt. destruct (find_by_typed "hash" h details Hobjs) as (d & -> & _). cbn [mbind res_bind].
    by apply agentToModel_typed.
  - exists l, agents. split; [exact Hl|]. split; [by apply forallb_Forall|]. done.
Qed.

Lemma oneAgentToModel_typed data :
  one_agent_dto data = true → ∃ m, oneAgentToModel data = Ok m ∧ is_obj m.
Proof.
  intros Hd. unfold oneAgentToModel. pose proof Hd as Ho%ty_rec_obj. read Hd "agent" Ha.
  destruct (get_obj_ok data "details" Ho) as [d ->]. cbn [mbind res_bind].
  destruct (agentToModel_typed (prop data "agent") d Ha) as (m & -> & Hm%ty_rec_obj). by exists m.
Qed.

(** [data.key?.map(f)] over objects. *)
Lemma map_objs_typed f l :
  Forall is_obj l → (∀ x, is_obj x → ∃ y, f x = Ok y ∧ is_obj y) →
  ∃ l', map_array f (VArr l) = Ok (VArr l') ∧ rows (VArr l') = true ∧ length l' = length l.
Proof.
  intros Hl Hf. destruct (map_array_typed f is_obj is_obj l Hl Hf) as (l' & H & Hr & Hlen).
  exists l'. split; [done|]. split; [|done]. apply rows_spec. by exists l'.
Qed.

Lemma is_obj_spread v kvs : is_obj (spread v kvs).
Proof. by eexists. Qed.

Lemma privateGroupsToModels_typed data :
  groups_dto data = true →
  ∃ l n, privateGroupsToModels data = Ok (VArr l) ∧ rows (VArr l) = true ∧
    prop data "groups" = VArr n ∧ length l = length n.
Proof.
  intros Hd. unfold groups_dto in Hd. unfold privateGroupsToModels.
  read Hd "groups" Ha. read Hd "details" Hdt.
  apply rows_spec in Ha as (groups & Ha & Hg'). apply rows_spec in Hdt as (details & Hdt & Hobjs).
  rewrite Ha, Hdt. unfold map_arrayq. cbn [is_nullish].
  match goal with |- context [map_array ?f _] =>
    destruct (map_objs_typed f groups Hg') as (l & Hl & Hr & Hlen) end.
  - intros x Hx. destruct (get_obj_ok x "hash" Hx) as [h ->]. cbn [mbind res_bind].
    destruct (find_by_typed "hash" h details Hobjs) as (d & -> & _). cbn [mbind res_bind].
    eexists. split; [reflexivity|apply is_obj_spread].
  - by exists l, groups.
Qed.

Lemma manyModulesToModels_typed data :
  modules_dto data = true →
  ∃ l n, manyModulesToModels data = Ok (VArr l) ∧ rows (VArr l) = true ∧
    prop data "modules" = VArr n ∧ length l = length n.
Proof.
  intros Hd. unfold modules_dto in Hd. unfold manyModulesToModels. read Hd "modules" Ha.
  apply rows_spec in Ha as (modules & Ha & Hm). rewrite Ha. unfold map_arrayq. cbn [is_nullish].
  match goal with |- context [map_array ?f _] =>
    destruct (map_objs_typed f modules Hm) as (l & Hl & Hr & Hlen) end.
  - intros x Hx. eexists. split; [reflexivity|apply is_obj_spread].
  - by exists l, modules.
Qed.

Lemma modulesWithDetails_typed data :
  entity_modules_dto data = true → ∃ l, modulesWithDetails data = Ok l ∧ rows l = true.
Proof.
  intros Hd. unfold entity_modules_dto in Hd. unfold modulesWithDetails.
  read Hd "modules" Ha. read Hd "details" Hdt.
  apply ty_arr_spec in Ha as (modules & Ha & Hm). apply rows_spec in Hdt as (details & Hdt & Hobjs).
  rewrite Ha, Hdt. unfold map_arrayq. cbn [is_nullish].
  match goal with |- context [map_array ?f _] =>
    destruct (map_array_typed f _ is_obj modules Hm) as (l & Hl & Hr & Hlen) end.
  - intros x Hx. simpl in Hx. cbn [get_path]. read Hx "info" Hi. apply ty_obj_spec in Hi.
    destruct (get_obj_ok _ "name" Hi) as [n ->]. cbn [mbind res_bind].
    destruct (find_by_typed "name" n details Hobjs) as (d & -> & _). cbn [mbind res_bind].
    eexists. split; [reflexivity|apply is_obj_spread].
  - exists (VArr l). split; [exact Hl|]. apply rows_spec. by exists l.
Qed.

Lemma find_byq_typed key x l :
  Forall is_obj l → ∃ y, find_byq key x (VArr l) = Ok y ∧ (y = VUndef ∨ is_obj y).
Proof.
  intros Hl. unfold find_byq. cbn [is_nullish].
  destruct (find_by_typed key x l Hl) as (y & -> & [->|Hy]); [exists VUndef; by split; [|left]|].
  exists y. split; [done|]. right. exact (proj1 (Forall_forall _ _) Hl y Hy).
Qed.

Lemma getq_typed v k : v = VUndef ∨ is_obj v → ∃ x, getq v k = Ok x.
Proof. intros [->|[o ->]]; by eexists. Qed.

Lemma privateEventsToModels_typed data :
  events_dto data = true →
  ∃ l n, privateEventsToModels data = Ok (VArr l) ∧ rows (VArr l) = true ∧
    prop data "events" = VArr n ∧ length l = length n.
Proof.
  intros Hd. unfold events_dto in Hd. unfold privateEventsToModels.
  read Hd "events" He. read Hd "agents" Ha. read Hd "modules" Hm. read Hd "policies" Hp.
  read Hd "groups" Hgr.
  apply rows_spec in He as (events & He & Hevents). apply rows_spec in Ha as (agents & Ha & Hagents).
  apply rows_spec in Hm as (modules & Hm & Hmodules). apply rows_spec in Hp as (policies & Hp & Hpols).
  apply rows_spec in Hgr as (groups & Hgr & Hgroups). rewrite He.
  destruct (map_objs_typed (eventToModel data) events Hevents) as (l & Hl & Hr & Hlen).
  - intros x Hx. unfold eventToModel.
    destruct (get_obj_ok x "agent_id" Hx) as [ai ->], (get_obj_ok x "module_id" Hx) as [mi ->].
    cbn [mbind res_bind]. rewrite Hg0, Hg1, Hg2, Hg3, Ha, Hm, Hp, Hgr. cbn [mbind res_bind].
    destruct (find_byq_typed "id" ai agents Hagents) as (agent & -> & Hagent). cbn [mbind res_bind].
    destruct (find_byq_typed "id" mi modules Hmodules) as (module & -> & Hmodule). cbn [mbind res_bind].
    destruct (getq_typed _ "policy_id" Hmodule) as [pid ->]. cbn [mbind res_bind].
    destruct (find_byq_typed "id" pid policies Hpols) as (policy & -> & _). cbn [mbind res_bind].
    destruct (getq_typed _ "group_id" Hagent) as [gid ->]. cbn [mbind res_bind].
    destruct (find_byq_typed "id" gid groups Hgroups) as (group & -> & _). cbn [mbind res_bind].
    eexists. split; [reflexivity|apply is_obj_spread].
  - by exists l, events.
Qed.

(** *** Policies *)

Lemma ty_strs_spec v : ty_arr ty_str v = true → ∃ l : list string, v = vstrs l.
Proof.
  intros (l & -> & Hl)%ty_arr_spec. induction Hl as [|x l Hx _ [ss Hss]].
  { by exists []. }
  destruct x as [| | | |s| |]; try discriminate Hx. injection Hss as ->. by exists (s :: ss).
Qed.

Lemma policy_module_os m :
  policy_module_dto m = true → ∃ om, has_os m om.
Proof.
  intros Hm. unfold policy_module_dto in Hm. unfold has_os. cbn [get_path].
  read Hm "info" Hi. read Hi "os" Ho.
  destruct (prop (prop m "info") "os") as [| | | | | |om]; try discriminate Ho.
  exists om. split; [done|]. intros os v Hv%obj_get_Some_elem. simpl in Ho.
  apply forallb_Forall in Ho. apply ty_strs_spec. exact (proj1 (Forall_forall _ _) Ho _ Hv).
Qed.

Lemma aggregateModulesOs_typed l :
  Forall (λ m, policy_module_dto m = true) l →
  ∃ o, aggregateModulesOs (VArr l) = Ok (VObj o).
Proof.
  intros Hl. unfold aggregateModulesOs. cbn [as_array mbind res_bind].
  assert (∀ acc, os_map acc → ∃ o, foldM (λ acc module,
      osList ← get_path module ["info"; "os"]; names ← Object_keys osList;
      foldM (aggregateModuleOs module) acc names) (VObj acc) l = Ok (VObj o)) as Hgen.
  { induction Hl as [|m l Hm _ IH]; intros acc Hacc; [by exists acc|].
    apply policy_module_os in Hm as [om Hm].
    destruct (aggregateModule_step m om acc Hm Hacc) as (o1 & H1 & Ho1 & _).
    destruct Hm as [Hm _]. cbn [foldM]. rewrite Hm. cbn [mbind res_bind Object_keys]. rewrite H1.
    cbn [mbind res_bind]. by apply IH. }
  by apply Hgen.
Qed.

Lemma policyWithDetails_typed policy details :
  is_obj policy → policy_details_dto details = true →
  ∃ m, policyWithDetails policy details = Ok m ∧ is_obj m.
Proof.
  intros Hp Hd. unfold policy_details_dto in Hd. unfold policyWithDetails.
  destruct (get_obj_ok policy "info" Hp) as [info ->]. cbn [mbind res_bind]. read Hd "modules" Hm.
  assert (∃ l, js_or (prop details "modules") (VArr []) = VArr l ∧
            Forall (λ m, policy_module_dto m = true) l) as (l & -> & Hl).
  { apply orb_true_iff in Hm as [Hn|(l & -> & Hl)%ty_arr_spec]; [|by exists l].
    exists []. by destruct (prop details "modules"). }
  destruct (aggregateModulesOs_typed l Hl) as [o ->]. cbn [mbind res_bind].
  eexists. split; [reflexivity|apply is_obj_spread].
Qed.

Lemma find_by_found key x l :
  Forall is_obj l → existsb (λ y, strict_eq (prop y key) x) l = true →
  ∃ y, find_by key x (VArr l) = Ok y ∧ y ∈ l.
Proof.
  intros Hl He. unfold find_by. cbn [as_array mbind res_bind].
  induction Hl as [|z l Hz _ IH]; [done|]. simpl in *. unfold key_is. rewrite get_is_obj by done.
  cbn [mbind res_bind]. destruct (strict_eq (prop z key) x).
  - exists z. split; [done|apply list_elem_of_here].
  - destruct (IH He) as (y & Hy & Hin). exists y. split; [exact Hy|by apply list_elem_of_further].
Qed.

Lemma privatePoliciesToModels_typed data :
  policies_dto data = true →
  ∃ l n, privatePoliciesToModels data = Ok (VArr l) ∧ rows (VArr l) = true ∧
    prop data "policies" = VArr n ∧ length l = length n.
Proof.
  intros [Hd Hfound]%andb_true_iff. unfold privatePoliciesToModels.
  read Hd "policies" Ha. read Hd "details" Hdt.
  apply rows_spec in Ha as (policies & Ha & Hp). apply ty_arr_spec in Hdt as (details & Hdt & Hobjs).
  rewrite Ha, Hdt in *. unfold map_arrayq. cbn [is_nullish]. apply forallb_Forall in Hfound.
  match goal with |- context [map_array ?f _] =>
    destruct (map_array_typed f (λ p, is_obj p ∧
      existsb (λ d, strict_eq (prop d "hash") (prop p "hash")) details = true) is_obj policies)
      as (l & Hl & Hr & Hlen) end.
  - apply Forall_forall. intros p Hin.
    split; [exact (proj1 (Forall_forall _ _) Hp p Hin)|exact (proj1 (Forall_forall _ _) Hfound p Hin)].
  - intros x [Hx Hex]. rewrite get_is_obj by done. cbn [mbind res_bind].
    destruct (find_by_found "hash" (prop x "hash") details) as (d & -> & Hin); [|done|].
    { eapply Forall_impl; [exact Hobjs|]. intros y Hy. exact (ty_rec_obj _ _ Hy). }
    cbn [mbind res_bind]. apply policyWithDetails_typed; [done|].
    exact (proj1 (Forall_forall _ _) Hobjs d Hin).
  - exists l, policies. split; [exact Hl|]. split; [apply rows_spec; by exists l|done].
Qed.

Lemma privatePolicyToModel_typed data :
  one_policy_dto data = true → ∃ m, privatePolicyToModel data = Ok m ∧ is_obj m.
Proof.
  intros Hd. unfold one_policy_dto in Hd. unfold privatePolicyToModel.
  read Hd "policy" Hp. read Hd "details" Hdt. apply policyWithDetails_typed; [by apply ty_obj_spec|done].
Qed.

Lemma privateGroupToModel_typed data :
  ty_rec [("group", ty_obj)] data = true → ∃ m, privateGroupToModel data = Ok m ∧ is_obj m.
Proof.
  intros Hd. unfold privateGroupToModel. pose proof Hd as Ho%ty_rec_obj. read Hd "group" Hg.
  destruct Ho as [o ->]. cbn [getq is_nullish]. rewrite get_obj. cbn [mbind res_bind].
  eexists. split; [reflexivity|apply is_obj_spread].
Qed.

(** *** Pages *)

(** The page of a list with rows of a type; the list of modules has no page
    number at first. *)
Definition ty_page (t : ty) (p : Page) : bool :=
  ty_arr t (pageRows p) && ty_or_null ty_num (pageNo p) && ty_num (pageTotal p).

Lemma fetchPage_typed conv items data n (t : ty) p l :
  conv data = Ok (VArr l) → ty_arr t (VArr l) = true → is_obj data →
  ty_num (prop data "total") = true → prop data items = VArr n → length l = length n →
  ty_page t p = true →
  ∀ page, ∃ p', fetchPage conv items data page p = Ok p' ∧ ty_page t p' = true.
Proof.
  intros Hc Hl Ho Ht Hi Hlen [[Hr Hn]%andb_true_iff _]%andb_true_iff page.
  pose proof Hr as (old & Hold & Hr')%ty_arr_spec.
  assert (answer conv items data l) as Ha.
  { split; [done|]. exists n. split; [|done]. rewrite get_is_obj by done. by rewrite Hi. }
  destruct (fetchPage_ok _ _ _ _ page p old Ha Hold) as [p' Hp]. exists p'. split; [done|].
  destruct (fetchPage_answer _ _ _ _ _ _ _ _ Ha Hold Hp) as (H1 & H2 & H3).
  rewrite get_is_obj in H3 by done. injection H3 as H3. unfold ty_page. rewrite H1, H2, H3, Ht.
  rewrite andb_true_r. apply andb_true_iff. split.
  - destruct (bool_decide (page = 1%Z)); [exact Hl|]. rewrite Hold in Hr. simpl in *.
    by rewrite forallb_app, Hr, Hl.
  - by destruct (bool_decide (l = [])).
Qed.
