(* ===== verification/StoreTypes.v ===== *)
(** * The reducers are total on typed data

    For every list store: the types its state keeps and the types the answers
    of the server and the selections of the page must have; every action of
    these types leads to a state of these types.  No conversion, spread or
    callback in the reducers throws on them. *)

From S2P Require Import Prelude JsValue JsJson Models Filtration Paging Types.
From S2P Require PoliciesStore GroupsStore AgentListStore AgentCardStore.
From S2P Require ModuleListStore ModulesInstancesStore SharedStore.

(** A store whose reducer is total on typed actions. *)
Record TypedStore := mkTyped {
  typedState : Type;
  typedAction : Type;
  typedReducer : typedState → typedAction → res typedState;
  typedInitial : typedState;
  state_typed : typedState → bool;
  action_typed : typedAction → bool;
  initial_ok : state_typed typedInitial = true;
  reducer_ok st a : state_typed st = true → action_typed a = true →
    ∃ st', typedReducer st a = Ok st' ∧ state_typed st' = true
}.

(** The rows of agents have ids. *)
Definition agent_row : ty := ty_rec [("id", ty_defined)].

(** An answer with at least one item. *)
Definition some_items (items : string) (data : val) : bool :=
  match prop data items with VArr (_ :: _) => true | _ => false end.

(** ** Operations shared by the reducers *)

Lemma mapIds_typed l : rows l = true → ∃ ids, mapIds l = Ok (VArr ids).
Proof.
  intros (items & -> & Hi)%rows_spec. unfold mapIds.
  destruct (map_array_typed (λ item, get item "id") is_obj (λ _, True) items Hi) as (ids & H & _).
  - intros x Hx. destruct (get_obj_ok x "id" Hx) as [y Hy]. by exists y.
  - by exists ids.
Qed.

(** The answer to an update of one agent, put into the rows. *)
Lemma updated_agent_typed data agents :
  agents_dto data = true → some_items "agents" data = true → ty_arr agent_row agents = true →
  ∃ updated l, (agents ← manyAgentsToModels data; get agents "0") = Ok updated ∧
    replaceById updated agents = Ok l ∧ ty_arr agent_row l = true.
Proof.
  intros Hd Hne (items & -> & Hi)%ty_arr_spec.
  destruct (manyAgentsToModels_typed data Hd) as (l & n & -> & Hl & Hn & Hlen).
  unfold some_items in Hne. rewrite Hn in Hne. destruct n as [|x n]; [done|].
  destruct l as [|updated l]; [done|]. cbn [mbind res_bind].
  apply andb_true_iff in Hl as [Hu _].
  destruct (map_array_typed (λ item,
    item_id ← get item "id"; id ← get updated "id";
    Ok (if strict_eq item_id id then updated else item)) _ (λ x, agent_row x = true) items Hi)
    as (l' & Hl' & Hr & _).
  - intros y Hy. simpl in Hy. destruct (ty_rec_read _ _ "id" _ Hy eq_refl) as [-> _].
    destruct (ty_rec_read _ _ "id" _ Hu eq_refl) as [-> _]. cbn [mbind res_bind].
    eexists. split; [reflexivity|]. by destruct (strict_eq _ _).
  - exists updated, (VArr l'). split; [done|]. split; [exact Hl'|]. apply ty_arr_spec. by exists l'.
Qed.

Lemma clone_rows v : rows v = true → rows (clone v) = true.
Proof.
  intros (l & -> & Hl)%rows_spec. unfold clone. cbn [json_norm default from_option].
  apply rows_spec. eexists. split; [reflexivity|]. induction Hl as [|x l [o ->] _ IH]; [constructor|].
  simpl. constructor; [|done]. change (is_obj (default VNull (json_norm (VObj o)))).
  rewrite json_norm_obj. by eexists.
Qed.

(** The configuration of one module, put into the modules of the entity. *)
Lemma module_config_typed module modules :
  ty_obj module = true → rows modules = true →
  ∃ l, map_array (λ item,
      id ← get module "id"; item_id ← get item "id";
      Ok (if strict_eq id item_id then spread module [] else item)) (clone modules) = Ok l ∧
    rows l = true.
Proof.
  intros [o ->]%ty_obj_spec (l & -> & Hl)%clone_rows%rows_spec.
  match goal with |- context [map_array ?f _] =>
    destruct (map_objs_typed f l Hl) as (l' & Hl' & Hr & _) end.
  - intros x Hx. rewrite get_obj. cbn [mbind res_bind].
    destruct (get_obj_ok x "id" Hx) as [y ->]. cbn [mbind res_bind]. eexists. split; [reflexivity|].
    destruct (strict_eq _ _); [apply is_obj_spread|done].
  - by exists (VArr l').
Qed.

Lemma get_first l : ∃ x, get (VArr l) "0" = Ok x.
Proof. destruct l; by eexists. Qed.

(** *** Automation *)

Create HintDb typed.

Ltac split_true :=
  repeat match goal with
  | H : _ && _ = true |- _ => apply andb_true_iff in H as [? H]
  | |- _ && _ = true => apply andb_true_iff; split
  end.

(** An answer of a type brings a page with rows of a type. *)
Definition page_answer (conv : val → res val) (items : string) (dto t : ty) : Prop :=
  ∀ data, dto data = true → ∀ p page, ty_page t p = true →
    ∃ p', fetchPage conv items data page p = Ok p' ∧ ty_page t p' = true.

Lemma page_answer_typed conv items fields dto (t : ty) :
  (∀ data, dto data = true → ty_rec fields data = true) →
  List.find (λ kt, String.eqb kt.1 "total") fields = Some ("total", ty_num) →
  (∀ data, dto data = true → ∃ l n, conv data = Ok (VArr l) ∧ ty_arr t (VArr l) = true ∧
    prop data items = VArr n ∧ length l = length n) →
  page_answer conv items dto t.
Proof.
  intros Hf Ht Hc data Hd p page Hp. destruct (Hc data Hd) as (l & n & Hl & Hr & Hn & Hlen).
  eapply fetchPage_typed; try eassumption.
  - eapply ty_rec_obj. by apply Hf.
  - apply (ty_rec_read fields data "total" ty_num); [by apply Hf|exact Ht].
Qed.

Ltac solve_page lemma :=
  eapply page_answer_typed;
  [ let data := fresh in let Hd := fresh in
    intros data Hd; first [exact Hd|exact (proj1 (proj1 (andb_true_iff _ _) Hd))]
  | reflexivity
  | exact lemma ].

Lemma agents_page : page_answer manyAgentsToModels "agents" agents_dto agent_row.
Proof. solve_page manyAgentsToModels_typed. Qed.

Lemma groups_page : page_answer privateGroupsToModels "groups" groups_dto ty_obj.
Proof. solve_page privateGroupsToModels_typed. Qed.

Lemma policies_page : page_answer privatePoliciesToModels "policies" policies_dto ty_obj.
Proof. solve_page privatePoliciesToModels_typed. Qed.

Lemma modules_page : page_answer manyModulesToModels "modules" modules_dto ty_obj.
Proof. solve_page manyModulesToModels_typed. Qed.

Lemma events_page : page_answer privateEventsToModels "events" events_dto ty_obj.
Proof. solve_page privateEventsToModels_typed. Qed.

(** The successor state of an action, computed; its types are those of the
    state before or have been found. *)
Ltac done_typed :=
  eexists; split; [reflexivity|]; unfold constant; cbn; split_true; first [assumption|reflexivity|eauto with typed].

(** A page has arrived. *)
Ltac by_page lemma Ha :=
  cbn;
  match goal with |- context [fetchPage ?conv ?items ?data ?page ?p] =>
    let Hp := fresh in
    destruct (lemma data Ha p page ltac:(assumption)) as ([? ? ?] & Hp & ?); rewrite Hp
  end; cbn; done_typed.

Lemma policy_modules_typed data :
  entity_modules_dto data = true → ∃ l, privatePoliciesModulesToModels data = Ok l ∧ rows l = true.
Proof. exact (modulesWithDetails_typed data). Qed.

Lemma group_modules_typed data :
  entity_modules_dto data = true → ∃ l, privateGroupModulesToModels data = Ok l ∧ rows l = true.
Proof. exact (modulesWithDetails_typed data). Qed.

Lemma agent_modules_typed data :
  entity_modules_dto data = true → ∃ l, privateAgentModulesToModels data = Ok l ∧ rows l = true.
Proof. exact (modulesWithDetails_typed data). Qed.

(** One conversion. *)
Ltac by_model lemma Ha :=
  let m := fresh in let Hm := fresh in
  destruct (lemma _ Ha) as (m & Hm & ?); cbn; rewrite Hm; cbn; done_typed.

(** The answer to an update of one agent. *)
Ltac by_update Ha :=
  let Hn := fresh in apply andb_true_iff in Ha as [Ha Hn];
  match goal with Hp : ty_page agent_row (mkPage ?agents _ _) = true |- _ =>
    let Hr := fresh in let Hu := fresh in let Hl := fresh in
    pose proof Hp as [[Hr _]%andb_true_iff _]%andb_true_iff;
    destruct (updated_agent_typed _ agents Ha Hn Hr) as (? & ? & Hu & Hl & ?);
    cbn; rewrite Hu; cbn; rewrite Hl; cbn
  end.

Lemma ty_page_rows t rows rows' no total :
  ty_page t (mkPage rows no total) = true → ty_arr t rows' = true →
  ty_page t (mkPage rows' no total) = true.
Proof. unfold ty_page. simpl. rewrite !andb_true_iff. tauto. Qed.

Lemma ty_page_first t rows no total :
  ty_page t (mkPage rows no total) = true → ty_page t (mkPage rows (vint 1) total) = true.
Proof. unfold ty_page. simpl. rewrite !andb_true_iff. tauto. Qed.

#[export] Hint Resolve ty_page_rows ty_page_first : typed.

(** ** The policies store *)

Module Policies.
Import PoliciesStore.

Definition state_typed (st : State) : bool :=
  ty_page ty_obj (mkPage (policies st) (page st) (total st)) &&
  ty_page agent_row (mkPage (policyAgents st) (agentsPage st) (agentsTotal st)) &&
  ty_page ty_obj (mkPage (policyGroups st) (groupsPage st) (groupsTotal st)) &&
  ty_page ty_obj (mkPage (policyEvents st) (eventsPage st) (eventsTotal st)) &&
  rows (modulesOfPolicy st).

Definition action_typed (a : Action) : bool :=
  match a with
  | fetchPoliciesPageSuccess data _ => policies_dto data
  | fetchPolicySuccess data => one_policy_dto data
  | fetchPolicyModulesSuccess data => entity_modules_dto data
  | fetchPolicyEventsSuccess data _ => events_dto data
  | fetchPolicyAgentsSuccess data _ => agents_dto data
  | fetchPolicyGroupsSuccess data _ => groups_dto data
  | updateAgentDataSuccess data => agents_dto data && some_items "agents" data
  | selectPolicies policies => rows policies
  | updatePolicyModuleConfig module => ty_obj module
  | _ => true
  end.

Lemma policies_reducer_typed st a :
  state_typed st = true → action_typed a = true →
  ∃ st', reducer st a = Ok st' ∧ state_typed st' = true.
Proof.
  intros Hst Ha. destruct a; try (eexists; split; [reflexivity|exact Hst]);
    unfold state_typed in *; split_true; cbn in Ha.
  - by_page policies_page Ha.
  - by_model privatePolicyToModel_typed Ha.
  - by_model policy_modules_typed Ha.
  - by_page events_page Ha.
  - by_page agents_page Ha.
  - by_update Ha. done_typed.
  - by_page groups_page Ha.
  - destruct (mapIds_typed _ Ha) as [ids Hids]. cbn. rewrite Hids. done_typed.
  - done_typed.
  - done_typed.
  - done_typed.
  - match goal with H : rows ?modules = true |- _ =>
      destruct (module_config_typed module modules Ha H) as (l & Hl & ?) end.
    cbn -[map_array clone get]. rewrite Hl. cbn. done_typed.
  - by eexists.
Qed.

Definition typed : TypedStore :=
  mkTyped _ _ reducer initialState state_typed action_typed eq_refl policies_reducer_typed.
End Policies.

(** ** The groups store *)

Module Groups.
Import GroupsStore.

Definition state_typed (st : State) : bool :=
  ty_page ty_obj (mkPage (groups st) (page st) (total st)) &&
  ty_page agent_row (mkPage (groupAgents st) (agentsPage st) (agentsTotal st)) &&
  ty_page ty_obj (mkPage (groupPolicies st) (policiesPage st) (policiesTotal st)) &&
  ty_page ty_obj (mkPage (groupEvents st) (eventsPage st) (eventsTotal st)) &&
  rows (modulesOfGroup st).

Definition action_typed (a : Action) : bool :=
  match a with
  | fetchGroupsPageSuccess data _ => groups_dto data
  | fetchGroupSuccess data modules => ty_rec [("group", ty_obj)] data && entity_modules_dto modules
  | fetchGroupAgentsSuccess data _ => agents_dto data
  | fetchGroupEventsSuccess data _ => events_dto data
  | fetchGroupPoliciesSuccess data _ => policies_dto data
  | updateAgentDataSuccess data => agents_dto data && some_items "agents" data
  | selectGroups groups => rows groups
  | _ => true
  end.

Lemma groups_reducer_typed st a :
  state_typed st = true → action_typed a = true →
  ∃ st', reducer st a = Ok st' ∧ state_typed st' = true.
Proof.
  intros Hst Ha. destruct a; try (eexists; split; [reflexivity|exact Hst]);
    unfold state_typed in *; split_true; cbn in Ha.
  - by_page groups_page Ha.
  - apply andb_true_iff in Ha as [Hg Hm].
    destruct (privateGroupToModel_typed _ Hg) as (g & Hgm & _), (group_modules_typed _ Hm) as (l & Hl & ?).
    cbn. rewrite Hgm. cbn. rewrite Hl. cbn. done_typed.
  - destruct (mapIds_typed _ Ha) as [ids Hids]. cbn. rewrite Hids. done_typed.
  - by_page agents_page Ha.
  - by_update Ha. done_typed.
  - by_page events_page Ha.
  - by_page policies_page Ha.
  - done_typed.
  - done_typed.
  - done_typed.
  - by eexists.
Qed.

Definition typed : TypedStore :=
  mkTyped _ _ reducer initialState state_typed action_typed eq_refl groups_reducer_typed.
End Groups.

(** ** The agent list store *)

Module AgentList.
Import AgentListStore.

Definition state_typed (st : State) : bool :=
  ty_page agent_row (mkPage (agents st) (page st) (total st)).

Definition action_typed (a : Action) : bool :=
  match a with
  | fetchAgentsPageSuccess data _ | updateAgentDataSuccess data => agents_dto data
  | fetchAgentSuccess data modules => one_agent_dto data && entity_modules_dto modules
  | selectAgents agents => rows agents
  | _ => true
  end.

(** An index of agents holds agents. *)
Definition agent_index (o : obj val) : Prop := ∀ k v, obj_get k o = Some v → agent_row v = true.

Lemma indexById_typed l :
  Forall (λ x, agent_row x = true) l → ∃ o, indexById (VArr l) = Ok (VObj o) ∧ agent_index o.
Proof.
  intros Hl. unfold indexById. cbn [as_array mbind res_bind].
  assert (∀ acc, agent_index acc → ∃ o,
    foldM (λ acc current, id ← get current "id"; Ok (spread acc [(to_string id, current)]))
      (VObj acc) l = Ok (VObj o) ∧ agent_index o) as Hgen; [|by apply Hgen].
  induction Hl as [|x l Hx _ IH]; intros acc Hacc; [by exists acc|].
  cbn [foldM]. destruct (ty_rec_read _ _ "id" _ Hx eq_refl) as [-> _]. cbn [mbind res_bind].
  apply IH. intros k v. change (obj_assign _ _) with (obj_set (to_string (prop x "id")) x acc).
  rewrite obj_get_set. destruct (String.eqb _ _); [by intros [= <-]|apply Hacc].
Qed.

(** The updated agents, put into the rows by id. *)
Lemma updated_agents_typed data agents :
  agents_dto data = true → ty_arr agent_row agents = true →
  ∃ updated index ids l, manyAgentsToModels data = Ok updated ∧ indexById updated = Ok index ∧
    Object_keys index = Ok ids ∧
    map_array (λ item, id ← get item "id"; text ← method_toString id;
      if includes text ids then get index (to_string id) else Ok item) agents = Ok l ∧
    ty_arr agent_row l = true.
Proof.
  intros Hd (items & -> & Hi)%ty_arr_spec.
  destruct (manyAgentsToModels_typed data Hd) as (l & _ & Hl & (? & [= <-] & Hrows)%ty_arr_spec & _).
  destruct (indexById_typed l Hrows) as (o & Ho & Hobj).
  destruct (map_array_typed (λ item, id ← get item "id"; text ← method_toString id;
      if includes text (obj_keys o) then get (VObj o) (to_string id) else Ok item) _
    (λ x, agent_row x = true) items Hi) as (l' & Hl' & Hr & _).
  - intros x Hx. destruct (ty_rec_read _ _ "id" _ Hx eq_refl) as [-> Hid]. cbn [mbind res_bind].
    unfold ty_defined in Hid. apply negb_true_iff in Hid. unfold method_toString. rewrite Hid.
    cbn [mbind res_bind]. destruct (includes _ _) eqn:Hin; [|by exists x].
    apply includes_spec, elem_of_obj_keys in Hin as [v Hv]. exists v. rewrite get_obj.
    unfold obj_lookup. rewrite Hv. split; [done|]. by eapply Hobj.
  - exists (VArr l), (VObj o), (obj_keys o), (VArr l').
    split; [done|]. split; [done|]. split; [done|]. split; [exact Hl'|].
    apply ty_arr_spec. by exists l'.
Qed.

Lemma agents_reducer_typed st a :
  state_typed st = true → action_typed a = true →
  ∃ st', reducer st a = Ok st' ∧ state_typed st' = true.
Proof.
  intros Hst Ha. destruct a; try (eexists; split; [reflexivity|exact Hst]);
    unfold state_typed in *; split_true; cbn in Ha.
  - by_page agents_page Ha.
  - pose proof Hst as [[Hr _]%andb_true_iff _]%andb_true_iff. cbn [pageRows] in Hr.
    destruct (updated_agents_typed data _ Ha Hr) as (u & ix & ids & l & H1 & H2 & H3 & H4 & ?).
    cbn -[map_array get]. rewrite H1. cbn -[map_array get]. rewrite H2. cbn -[map_array get].
    rewrite H3. cbn -[map_array get]. rewrite H4. cbn. done_typed.
  - destruct (mapIds_typed _ Ha) as [ids Hids]. cbn. rewrite Hids. done_typed.
  - apply andb_true_iff in Ha as [Hg Hm].
    destruct (oneAgentToModel_typed _ Hg) as (g & Hgm & _), (agent_modules_typed _ Hm) as (l & Hl & ?).
    cbn. rewrite Hgm. cbn. rewrite Hl. cbn. done_typed.
  - by eexists.
Qed.

Definition typed : TypedStore :=
  mkTyped _ _ reducer initialState state_typed action_typed eq_refl agents_reducer_typed.
End AgentList.

(** ** The agent card store *)

Module AgentCard.
Import AgentCardStore.

Definition state_typed (st : State) : bool :=
  ty_page ty_obj (mkPage (eventsOfAgentCard st) (eventsPage st) (totalEvents st)).

Definition action_typed (a : Action) : bool :=
  match a with
  | fetchAgentSuccess data modules => one_agent_dto data && entity_modules_dto modules
  | fetchAgentEventsSuccess data _ => events_dto data
  | _ => true
  end.

Lemma card_reducer_typed st a :
  state_typed st = true → action_typed a = true →
  ∃ st', reducer st a = Ok st' ∧ state_typed st' = true.
Proof.
  intros Hst Ha. destruct a; try (eexists; split; [reflexivity|exact Hst]);
    unfold state_typed in *; split_true; cbn in Ha.
  - apply andb_true_iff in Ha as [Hg Hm].
    destruct (oneAgentToModel_typed _ Hg) as (g & Hgm & _), (agent_modules_typed _ Hm) as (l & Hl & ?).
    cbn. rewrite Hgm. cbn. rewrite Hl. cbn. done_typed.
  - by_page events_page Ha.
  - by eexists.
Qed.

Definition typed : TypedStore :=
  mkTyped _ _ reducer initialState state_typed action_typed eq_refl card_reducer_typed.
End AgentCard.

(** ** The module list store *)

Module ModuleList.
Import ModuleListStore.

Definition state_typed (st : State) : bool :=
  ty_page ty_obj (mkPage (modules st) (page st) (total st)).

Definition action_typed (a : Action) : bool :=
  match a with
  | fetchModulesSuccess data | fetchModulesPageSuccess data _ => modules_dto data
  | selectModules modules => rows modules
  | fetchModuleVersionsSuccess data => ty_obj data
  | _ => true
  end.

Lemma modules_reducer_typed st a :
  state_typed st = true → action_typed a = true →
  ∃ st', reducer st a = Ok st' ∧ state_typed st' = true.
Proof.
  intros Hst Ha. destruct a; try (eexists; split; [reflexivity|exact Hst]);
    unfold state_typed in *; split_true; cbn in Ha.
  - destruct (manyModulesToModels_typed _ Ha) as (l & n & Hl & Hr & _).
    destruct (ty_rec_read _ _ "total" _ Ha eq_refl) as [Ht Hnum].
    cbn -[get]. rewrite Hl. cbn -[get]. rewrite Ht. cbn.
    pose proof Hst as [[_ Hp]%andb_true_iff _]%andb_true_iff.
    eexists. split; [reflexivity|]. unfold constant. unfold ty_page. cbn -[ty_arr]. split_true; assumption.
  - by_page modules_page Ha.
  - destruct (mapIds_typed _ Ha) as [ids Hids]. cbn. rewrite Hids. done_typed.
  - apply ty_obj_spec in Ha as [o ->]. cbn. done_typed.
  - by eexists.
Qed.

Definition typed : TypedStore :=
  mkTyped _ _ reducer initialState state_typed action_typed eq_refl modules_reducer_typed.
End ModuleList.

(** ** The module instances store *)

Module ModulesInstances.
Import ModulesInstancesStore.

Definition state_typed (st : State) : bool :=
  ty_page ty_obj (mkPage (events st) (eventsPage st) (totalEvents st)).

Definition action_typed (a : Action) : bool :=
  match a with
  | fetchEventsSuccess data _ => events_dto data
  | fetchModuleVersionSuccess data => ty_obj data
  | _ => true
  end.

Lemma instances_reducer_typed st a :
  state_typed st = true → action_typed a = true →
  ∃ st', reducer st a = Ok st' ∧ state_typed st' = true.
Proof.
  intros Hst Ha. destruct a; try (eexists; split; [reflexivity|exact Hst]);
    unfold state_typed in *; split_true; cbn in Ha.
  - by_page events_page Ha.
  - apply ty_obj_spec in Ha as [o ->]. cbn. done_typed.
  - by eexists.
Qed.

Definition typed : TypedStore :=
  mkTyped _ _ reducer initialState state_typed action_typed eq_refl instances_reducer_typed.
End ModulesInstances.

(** ** The shared store *)

Module Shared.
Import SharedStore.

Definition binaries_dto : ty := ty_rec [("binaries", ty_arr ty_obj)].

Definition state_typed (st : State) : bool :=
  ty_arr agent_row (allAgents st) && rows (allGroups st) && rows (allPolicies st) &&
  rows (allModules st) && rows (allServices st).

Definition action_typed (a : Action) : bool :=
  match a with
  | fetchAllAgentsSuccess data => agents_dto data
  | fetchAllGroupsSuccess data => groups_dto data
  | fetchAllPoliciesSuccess data => policies_dto data
  | fetchAllModulesSuccess data => modules_dto data
  | fetchAllServicesSuccess data => ty_rec [("services", rows)] data
  | fetchLatestAgentBinarySuccess data | fetchAgentBinariesSuccess data => binaries_dto data
  | fetchOptionsActionsSuccess data | fetchOptionsEventsSuccess data
  | fetchOptionsFieldsSuccess data | fetchOptionsTagsSuccess data => ty_obj data
  | _ => true
  end.

(** A complete list, with a total. *)
Ltac by_list lemma Ha data :=
  let Hl := fresh "Hl" in let Ho := fresh "Ho" in
  destruct (lemma _ Ha) as (? & ? & Hl & ? & _);
  assert (is_obj data) as [? Ho]
    by (first [exact (ty_rec_obj _ _ Ha)
              |exact (ty_rec_obj _ _ (proj1 (proj1 (andb_true_iff _ _) Ha)))]);
  cbn -[get]; rewrite Hl; subst data; cbn; done_typed.

Lemma shared_reducer_typed st a :
  state_typed st = true → action_typed a = true →
  ∃ st', reducer st a = Ok st' ∧ state_typed st' = true.
Proof.
  intros Hst Ha. destruct a; try (eexists; split; [reflexivity|exact Hst]);
    unfold state_typed in *; split_true; cbn in Ha.
  - by_list manyAgentsToModels_typed Ha data.
  - by_list privateGroupsToModels_typed Ha data.
  - by_list manyModulesToModels_typed Ha data.
  - by_list privatePoliciesToModels_typed Ha data.
  - destruct (ty_rec_read _ _ "services" _ Ha eq_refl) as [Hg Hr].
    destruct (ty_rec_obj _ _ Ha) as [o ->]. cbn in *. done_typed.
  - destruct (ty_rec_read _ _ "binaries" _ Ha eq_refl) as [Hg (l & Hl & _)%ty_arr_spec].
    destruct (get_first l) as [x Hx]. cbn -[get]. rewrite Hg. cbn -[get]. rewrite Hl, Hx. cbn.
    done_typed.
  - destruct (ty_rec_read _ _ "binaries" _ Ha eq_refl) as [Hg (l & Hl & _)%ty_arr_spec].
    destruct (get_first l) as [x Hx]. cbn -[get]. rewrite Hg. cbn -[get]. rewrite Hl. cbn -[get].
    rewrite Hx. cbn. done_typed.
  - apply ty_obj_spec in Ha as [o ->]. cbn. done_typed.
  - apply ty_obj_spec in Ha as [o ->]. cbn. done_typed.
  - apply ty_obj_spec in Ha as [o ->]. cbn. done_typed.
  - apply ty_obj_spec in Ha as [o ->]. cbn. done_typed.
Qed.

Definition typed : TypedStore :=
  mkTyped _ _ reducer initialState state_typed action_typed eq_refl shared_reducer_typed.
End Shared.

(** ** The list stores *)

Definition typed_stores : list TypedStore :=
  [Policies.typed; Groups.typed; AgentList.typed; AgentCard.typed; ModuleList.typed;
   ModulesInstances.typed; Shared.typed].

(** C37: In every list store, any sequence of actions whose data have the types
    the server promises — pages with their details, answers to the update of an
    agent that hold the agent — runs without an exception in the reducer from the
    initial state, and ends in a state of the declared types: rows are arrays of
    objects, agents have ids, totals are numbers. *)
Theorem typed_actions_run L l :
  L ∈ typed_stores → Forall (λ a, action_typed L a = true) l →
  ∃ st, foldM (typedReducer L) (typedInitial L) l = Ok st ∧ state_typed L st = true.
Proof.
  intros _ Hl. assert (∀ st, state_typed L st = true →
    ∃ st', foldM (typedReducer L) st l = Ok st' ∧ state_typed L st' = true) as Hgen;
    [|by apply Hgen, initial_ok].
  induction Hl as [|a l Ha _ IH]; intros st Hst; [by exists st|].
  destruct (reducer_ok L st a Hst Ha) as (st1 & H1 & Hst1). cbn [foldM]. rewrite H1.
  cbn [mbind res_bind]. by apply IH.
Qed.

(** A page of one policy with one module, then the selection of nothing. *)
Definition some_policies : val :=
  obj_lit
    [("policies", VArr [obj_lit [("hash", VStr "1f")]]);
     ("details", VArr [obj_lit [("hash", VStr "1f"); ("modules", VArr
        [obj_lit [("info", obj_lit [("os", obj_lit [("linux", vstrs ["amd64"])])])]])]]);
     ("total", vint 1)].

Lemma typed_actions_run_witness :
  ∃ st, foldM PoliciesStore.reducer PoliciesStore.initialState
      [PoliciesStore.fetchPoliciesPageSuccess some_policies 1; PoliciesStore.selectPolicies (VArr [])]
    = Ok st ∧ Policies.state_typed st = true.
Proof.
  refine (typed_actions_run Policies.typed
    [PoliciesStore.fetchPoliciesPageSuccess some_policies 1; PoliciesStore.selectPolicies (VArr [])] _ _).
  - apply list_elem_of_here.
  - apply List.Forall_cons; [by vm_compute|]. apply List.Forall_cons; [by vm_compute|].
    apply List.Forall_nil.
Defined.

(** The answer to the update of an agent that is gone has the declared type, but
    the reducer reads the first of no agents and throws. *)
Theorem missing_agent_throws (st : PoliciesStore.State) data x l :
  agents_dto data = true → prop data "agents" = VArr [] →
  PoliciesStore.policyAgents st = VArr (x :: l) → is_obj x →
  PoliciesStore.reducer st (PoliciesStore.updateAgentDataSuccess data) = Throw TypeError.
Proof.
  intros Hd Hn Hr Hx. destruct (manyAgentsToModels_typed data Hd) as (l' & n & Hm & _ & Hn' & Hlen).
  rewrite Hn in Hn'. injection Hn' as <-. destruct l'; [|done].
  assert (PoliciesStore.on_agents st (PoliciesStore.updateAgentDataSuccess data) = Throw TypeError) as Ht.
  { unfold PoliciesStore.on_agents. rewrite Hm, Hr. cbn [mbind res_bind]. unfold replaceById, map_array.
    cbn [as_array mbind res_bind mapM]. change (get (VArr []) "0") with (Ok VUndef).
    cbn [mbind res_bind]. simpl. destruct (get_obj_ok x "id" Hx) as [y ->]. done. }
  unfold PoliciesStore.reducer. cbn -[PoliciesStore.on_agents]. by rewrite Ht.
Qed.

Lemma missing_agent_throws_witness :
  ∃ st, PoliciesStore.reducer st (PoliciesStore.updateAgentDataSuccess
      (obj_lit [("agents", VArr []); ("details", VArr []); ("total", vint 0)])) = Throw TypeError.
Proof.
  exists { PoliciesStore.initialState with PoliciesStore.policyAgents := VArr [VObj []] }.
  by apply (missing_agent_throws _ _ (VObj []) []); [by vm_compute|by vm_compute|by vm_compute|exists []].
Defined.
