(* ===== verification/Effects.v ===== *)
(** * Effects

    What NgRx and RxJS do with the effects of a store.  An effect listens to
    actions; [debounceTime] makes it wait for a pause; its [switchMap] or
    [mergeMap] then sends a request or emits actions, and an answer emits more
    actions.  The server is the environment: requests in flight are answered
    in any order, or never, and timers go off in any order.

    An effect whose stream fails is reported and subscribed to again, up to
    ten times (the default error handler of NgRx); what happens at the
    eleventh failure is not modelled.  An effect whose stream completes is
    over.  A store with its effects is an instance of [Feature]; its runs are
    the steps of [Session]. *)

From S2P Require Import Prelude JsValue.

(** ** Requests and responses *)

(** A call of a method of a service. *)
Record Call := mkCall { method : string; arguments : list val }.

(** The calls an effect waits for together ([forkJoin] makes several), with
    the variables its answer uses.  An effect with two [switchMap]s holds
    requests in two [stage]s. *)
Record Request := mkRequest { stage : nat; captured : list val; calls : list Call }.

(** The body of the response of each call, or the error of the first call
    that failed. *)
Inductive Response :=
| Answered (bodies : list val)
| Failed (error : val).

(** What becomes of the stream of an effect: it goes on; it completes (an
    error caught outside its [switchMap] replaces the whole stream, which then
    ends); it is subscribed to again (such a handler may go on with the source). *)
Inductive Next := Stays | Ends | Restarts.

(** What an effect does when it runs or gets an answer: it emits actions, may
    send a request, and calls services whose answer it does not wait for. *)
Record Reaction (A : Type) := mkReaction {
  emitted : list A;
  sent : option Request;
  told : list Call;
  next : Next
}.
Arguments mkReaction {A}.
Arguments emitted {A}.
Arguments sent {A}.
Arguments told {A}.
Arguments next {A}.

(** ** Effects *)

Record Effect (S A : Type) := mkEffect {
  name : string;
  triggers : list string;                      (* [ofType]: the types of the actions *)
  debounced : bool;
  merged : bool;                               (* [mergeMap], not [switchMap] *)
  run : S → A → res (option (Reaction A));     (* [None]: [filter] stops the action *)
  receive : Request → Response → res (Reaction A)
}.
Arguments mkEffect {S A}.
Arguments name {S A}.
Arguments triggers {S A}.
Arguments debounced {S A}.
Arguments merged {S A}.
Arguments run {S A}.
Arguments receive {S A}.

Class Feature (S A : Type) := {
  reducing : S → A → res S;
  type_of : A → string;
  effects : list (Effect S A)                  (* in the order of registration *)
}.

(** *** Writing effects *)

(** The operators of an effect that sends one request, with what the answer
    of its calls leads to.  [thrown] is the error object of an exception: the
    code reads at most its property [error], which it has not. *)
Definition thrown : val := VObj [].

Definition rescue {A} (m : res A) (h : val → res A) : res A :=
  match m with Throw (Error _) => h thrown | _ => m end.

(** [.pipe(map(ok), catchError(failed))] *)
Definition caught {A} (ok : list val → res (Reaction A)) (failed : val → res (Reaction A))
    (resp : Response) : res (Reaction A) :=
  match resp with
  | Answered bodies => rescue (ok bodies) failed
  | Failed error => failed error
  end.

(** [.pipe(map(ok))]: an error is an error of the effect. *)
Definition uncaught {A} (ok : list val → res (Reaction A)) (resp : Response) : res (Reaction A) :=
  match resp with
  | Answered bodies => ok bodies
  | Failed _ => Throw TypeError
  end.

Definition emits {A} (l : list A) : Reaction A := mkReaction l None [] Stays.
Definition asks {A} (captured : list val) (calls : list Call) : Reaction A :=
  mkReaction [] (Some (mkRequest 0 captured calls)) [] Stays.
Definition body (bodies : list val) (i : nat) : val := default VUndef (bodies !! i).

(** [response.data] *)
Definition data_of (bodies : list val) (i : nat) : res val := get (body bodies i) "data".

(** [response.data?.key] *)
Definition data_atq (bodies : list val) (i : nat) (key : string) : res val :=
  data ← data_of bodies i; getq data key.

(** [response.data.key] *)
Definition data_at (bodies : list val) (i : nat) (key : string) : res val :=
  data ← data_of bodies i; get data key.

(** An effect without a request never gets an answer. *)
Definition no_receive {A} (_ : Request) (_ : Response) : res (Reaction A) := Ok (emits []).

(** [withLatestFrom(store.select(selector))]: a selector that throws does so
    as soon as the state changes, which is not followed. *)
Definition latest {A} (selected : res A) : res A :=
  match selected with Throw _ => Throw Unsupported | _ => selected end.

(** ** Sessions *)

Record Session (S A : Type) := mkSession {
  store : S;
  timers : list (string * A);          (* the action a debounced effect holds *)
  flying : list (string * Request);    (* requests in flight *)
  subscribed : list string;            (* live effects, in the order of subscription *)
  failures : list string;              (* an entry for each failure of an effect *)
  outbox : list Call                   (* the calls nobody waits for *)
}.
Arguments mkSession {S A}.
Arguments store {S A}.
Arguments timers {S A}.
Arguments flying {S A}.
Arguments subscribed {S A}.
Arguments failures {S A}.
Arguments outbox {S A}.

#[export] Instance Session_eta {S A} : Eta (Session S A) := ltac:(eta_of (Session S A)).

Section sessions.
Context {S A : Type} `{HF : !Feature S A}.
Implicit Types (s : Session S A) (e : Effect S A) (n : string) (a : A).

Definition effect_of n : option (Effect S A) := List.find (λ e, String.eqb (name e) n) effects.

(** [ofType(...)] *)
Definition of_type (types : list string) a : bool := existsb (String.eqb (type_of a)) types.

Definition listens e a : bool := of_type (triggers e) a.

(** A page that has just loaded the store. *)
Definition opened (st : S) : Session S A :=
  mkSession st [] [] (name <$> effects) [] [].

(** The operator that holds a request. *)
Definition operator (nq : string * Request) : string * nat := (nq.1, stage nq.2).

(** [switchMap] unsubscribes from the request it holds. *)
Definition unsubscribe e (k : nat) (l : list (string * Request)) : list (string * Request) :=
  if merged e then l else filter (λ nq, operator nq ≠ (name e, k)) l.

Definition release e s : Session S A :=
  { s with flying := unsubscribe e 0 (flying s) }.

(** A request is sent through its operator. *)
Definition launch e (o : option Request) s : Session S A :=
  match o with
  | None => s
  | Some q => { s with flying := unsubscribe e (stage q) (flying s) ++ [(name e, q)] }
  end.

(** The stream of an effect lets go of all it holds. *)
Definition tear_down e s : Session S A :=
  { s with timers := filter (λ na, na.1 ≠ name e) (timers s);
           flying := filter (λ nq, nq.1 ≠ name e) (flying s);
           subscribed := filter (λ n, n ≠ name e) (subscribed s) }.

(** It is subscribed to again, after the others. *)
Definition resubscribe e s : Session S A :=
  let s := tear_down e s in { s with subscribed := subscribed s ++ [name e] }.

Definition finish e (x : Next) s : Session S A :=
  match x with Stays => s | Ends => tear_down e s | Restarts => resubscribe e s end.

Definition retries : nat := 10.

(** The default error handler of NgRx. *)
Definition restart e s : res (Session S A) :=
  if bool_decide (length (filter (λ n, n = name e) (failures s)) < retries) then
    Ok { resubscribe e s with failures := name e :: failures s }
  else Throw Unsupported.

(** What an effect's reaction does to the session, and the actions it emits. *)
Definition react e (m : res (Reaction A)) s : res (Session S A * list A) :=
  match m with
  | Ok r =>
      let s := finish e (next r) (launch e (sent r) s) in
      Ok ({ s with outbox := outbox s ++ told r }, emitted r)
  | Throw (Error _) => s' ← restart e s; Ok (s', [])
  | Throw Unsupported => Throw Unsupported
  end.

(** The operators of an effect after [debounceTime]. *)
Definition fire e s a : res (Session S A * list A) :=
  match run e (store s) a with
  | Ok None => Ok (s, [])
  | Ok (Some r) => react e (Ok r) (release e s)
  | Throw x => react e (Throw x) s
  end.

(** An effect sees an action. *)
Definition notify s a n : res (Session S A * list A) :=
  match effect_of n with
  | None => Ok (s, [])
  | Some e =>
      if listens e a then
        if debounced e
        then Ok ({ s with timers := filter (λ na, na.1 ≠ n) (timers s) ++ [(n, a)] }, [])
        else fire e s a
      else Ok (s, [])
  end.

Fixpoint notify_all s a (l : list string) : res (Session S A * list A) :=
  match l with
  | [] => Ok (s, [])
  | n :: l =>
      '(s1, l1) ← notify s a n;
      '(s2, l2) ← notify_all s1 a l;
      Ok (s2, l1 ++ l2)
  end.

(** An action reaches the reducer, then every effect. *)
Definition handle s a : res (Session S A * list A) :=
  st ← reducing (store s) a;
  notify_all { s with store := st } a (subscribed s).

(** Actions emitted while an action is handled wait for their turn: the
    scheduler of NgRx is a queue. *)
Fixpoint drain (fuel : nat) s (queue : list A) : res (Session S A) :=
  match queue with
  | [] => Ok s
  | a :: queue =>
      match fuel with
      | O => Throw Unsupported
      | Datatypes.S fuel => '(s1, l) ← handle s a; drain fuel s1 (queue ++ l)
      end
  end.

(** ** Cascades *)

(** The actions an action leads to, at most, before the server or a timer is
    waited for: an action weighs more than all that the effects it triggers
    emit at once. *)
Class Cascade := {
  weight : A → nat;
  share : Effect S A → nat;
  names_NoDup : NoDup (name <$> effects);
  share_ok e st a r :
    e ∈ effects → debounced e = false → run e st a = Ok (Some r) → listens e a = true →
    list_sum (weight <$> emitted r) ≤ share e;
  weight_ok a :
    list_sum (share <$> List.filter (λ e, listens e a && negb (debounced e)) effects) < weight a
}.

Context `{HC : !Cascade}.

(** ** Steps *)

(** An action from the page: it and all it leads to are handled at once. *)
Definition dispatch s a : res (Session S A) := drain (weight a) s [a].

(** The actions a timer or an answer makes an effect emit, one by one. *)
Definition dispatch_all (m : res (Session S A * list A)) : res (Session S A) :=
  '(s, l) ← m; foldM dispatch s l.

(** The pause a debounced effect waits for is over. *)
Definition elapse s (i : nat) : res (Session S A) :=
  match timers s !! i with
  | None => Ok s
  | Some (n, a) =>
      match effect_of n with
      | None => Ok s
      | Some e => dispatch_all (fire e { s with timers := delete i (timers s) } a)
      end
  end.

(** The server answers a request. *)
Definition respond s (i : nat) (resp : Response) : res (Session S A) :=
  match flying s !! i with
  | None => Ok s
  | Some (n, q) =>
      match effect_of n with
      | None => Ok s
      | Some e => dispatch_all (react e (receive e q resp) { s with flying := delete i (flying s) })
      end
  end.

(** A session of the page: commands, pauses that end, answers that arrive. *)
Inductive step : Session S A → Session S A → Prop :=
| step_dispatch s a s' : dispatch s a = Ok s' → step s s'
| step_elapse s i s' : elapse s i = Ok s' → step s s'
| step_respond s i resp s' : respond s i resp = Ok s' → step s s'.

Inductive runs : Session S A → Session S A → Prop :=
| runs_refl s : runs s s
| runs_step s s1 s' : runs s s1 → step s1 s' → runs s s'.

End sessions.
Arguments Cascade S A {HF}.
