(* ===== verification/EffectsFacts.v ===== *)
(** * Facts about effects

    For every feature: an operator holds one request, an effect holds one
    action, only live effects hold anything, and cascades of actions end. *)

From S2P Require Import Prelude JsValue Effects.

(** ** Lists *)

Lemma elem_of_sublist {B} (x : B) l1 l2 : l1 `sublist_of` l2 → x ∈ l1 → x ∈ l2.
Proof. intros Hs Hx. by eapply elem_of_submseteq; [|apply sublist_submseteq]. Qed.

(** Taking an entry out of a list keeps the others. *)
Lemma lookup_in_delete {B} (l : list B) i j y : l !! j = Some y → j ≠ i → y ∈ delete i l.
Proof.
  intros Hj Hne. apply list_elem_of_lookup. destruct (decide (j < i)).
  - exists j. by rewrite list_lookup_delete_lt.
  - exists (pred j). rewrite list_lookup_delete_ge by lia. by replace (S (pred j)) with j by lia.
Qed.

Lemma stays_in_delete {B} (l : list B) i x y :
  l !! i = Some x → y ∈ l → y ≠ x → y ∈ delete i l.
Proof.
  intros Hi [j Hj]%list_elem_of_lookup Hne. eapply lookup_in_delete; [exact Hj|]. congruence.
Qed.

Lemma Forall_incl_sublist {B} (P : B → Prop) l1 l2 :
  Forall P l2 → l1 `sublist_of` l2 → Forall P l1.
Proof. intros H Hs. induction Hs; inversion H; subst; eauto. Qed.

Lemma NoDup_keys_snoc {B} (l : list (string * B)) n b :
  NoDup l.*1 → NoDup (filter (λ na, na.1 ≠ n) l ++ [(n, b)]).*1.
Proof.
  intros Hl. rewrite fmap_app. apply NoDup_app. split_and!.
  - eapply sublist_NoDup; [exact Hl|]. apply fmap_sublist, sublist_filter.
  - intros x Hx Hx'. apply list_elem_of_singleton in Hx' as ->.
    apply list_elem_of_fmap in Hx as (nb & Hnb & Hin).
    apply list_elem_of_filter in Hin as [Hne _]. by destruct Hne.
  - apply NoDup_singleton.
Qed.

Section facts.
Context {S A : Type} `{HF : !Feature S A} `{HC : !Cascade S A}.
Implicit Types (s : Session S A) (e : Effect S A) (n : string) (a : A).

Lemma effect_of_Some n e : effect_of n = Some e → e ∈ effects ∧ name e = n.
Proof.
  intros [Hin He]%List.find_some. split; [by apply list_elem_of_In|]. by apply String.eqb_eq.
Qed.

Lemma effect_of_name e : e ∈ effects → effect_of (name e) = Some e.
Proof.
  unfold effect_of. pose proof names_NoDup as Hnd. revert Hnd.
  generalize (effects : list (Effect S A)) as l.
  induction l as [|e' l IH]; intros Hnd Hin; [by apply elem_of_nil in Hin|].
  apply NoDup_cons in Hnd as [Hn Hnd]. simpl. apply elem_of_cons in Hin as [->|Hin].
  - by rewrite String.eqb_refl.
  - destruct (String.eqb_spec (name e') (name e)) as [He|]; [|auto].
    destruct Hn. rewrite He. by apply list_elem_of_fmap_2.
Qed.

(** ** Tidy sessions *)

Definition tidy s : Prop :=
  NoDup (subscribed s) ∧ subscribed s ⊆ name <$> effects ∧
  NoDup (timers s).*1 ∧ (timers s).*1 ⊆ subscribed s ∧
  Forall (λ na, ∀ e, effect_of na.1 = Some e → listens e na.2 = true) (timers s) ∧
  (flying s).*1 ⊆ subscribed s ∧
  ∀ e k, e ∈ effects → merged e = false →
    length (filter (λ nq, operator nq = (name e, k)) (flying s)) ≤ 1.

Lemma tidy_opened st : tidy (opened st).
Proof.
  repeat split; simpl; [apply names_NoDup|done|constructor|apply list_subseteq_nil|
    constructor|apply list_subseteq_nil|]. intros. simpl. lia.
Qed.

Lemma tidy_sublist s s' :
  tidy s → timers s' `sublist_of` timers s → flying s' `sublist_of` flying s →
  subscribed s' = subscribed s → tidy s'.
Proof.
  intros (H1 & H2 & H3 & H4 & Hl & H5 & H6) Ht Hf Hs. unfold tidy. rewrite Hs. split_and!; try done.
  - eapply sublist_NoDup; [exact H3|]. by apply fmap_sublist.
  - intros x Hx. apply H4. eapply elem_of_sublist; [|exact Hx]. by apply fmap_sublist.
  - by eapply Forall_incl_sublist.
  - intros x Hx. apply H5. eapply elem_of_sublist; [|exact Hx]. by apply fmap_sublist.
  - intros e k He Hm. etrans; [by apply filter_length_sublist|by apply H6].
Qed.

Lemma tidy_ext s s' :
  tidy s → timers s' = timers s → flying s' = flying s → subscribed s' = subscribed s → tidy s'.
Proof. intros Hs Ht Hf. apply tidy_sublist; [done|by rewrite Ht|by rewrite Hf]. Qed.

Lemma unsubscribe_sublist e k l : unsubscribe e k l `sublist_of` l.
Proof. unfold unsubscribe. destruct (merged e); [done|apply sublist_filter]. Qed.

Lemma filter_unsubscribe e k l :
  merged e = false → filter (λ nq, operator nq = (name e, k)) (unsubscribe e k l) = [].
Proof.
  intros He. unfold unsubscribe. rewrite He. induction l as [|r l IH]; [done|].
  rewrite filter_cons. case_decide; [|done]. by rewrite filter_cons_False.
Qed.

Lemma tidy_release e s : tidy s → tidy (release e s).
Proof. intros Hs. eapply tidy_sublist; [exact Hs|done|apply unsubscribe_sublist|done]. Qed.

Lemma effects_name_inj e1 e2 : e1 ∈ effects → e2 ∈ effects → name e1 = name e2 → e1 = e2.
Proof.
  intros H1%effect_of_name H2%effect_of_name Hn. rewrite Hn in H1. congruence.
Qed.

Lemma tidy_launch e o s : e ∈ effects → name e ∈ subscribed s → tidy s → tidy (launch e o s).
Proof.
  intros He Hsub Hs. destruct o as [q|]; [|done].
  assert (tidy { s with flying := unsubscribe e (stage q) (flying s) }) as
    (H1 & H2 & H3 & H4 & Hl & H5 & H6)
    by (eapply tidy_sublist; [exact Hs|done|apply unsubscribe_sublist|done]).
  split_and!; try done; unfold launch; simpl in *; unfold constant in *.
  - rewrite fmap_app. intros x [Hx|Hx]%elem_of_app; [by apply H5|].
    by apply list_elem_of_singleton in Hx as ->.
  - intros e' k He' Hm. rewrite filter_app, length_app.
    destruct (decide ((name e, stage q) = (name e', k))) as [Heq|Hne].
    + injection Heq as Hn <-. assert (e = e') as <- by by apply effects_name_inj.
      rewrite filter_unsubscribe, filter_cons_True by done. simpl. lia.
    + rewrite (filter_cons_False _ (name e, q)) by done. simpl. rewrite Nat.add_0_r. by apply H6.
Qed.

Lemma subscribed_launch e o s : subscribed (launch e o s) = subscribed s.
Proof. by destruct o. Qed.

Lemma tidy_tear_down e s : tidy s → tidy (tear_down e s).
Proof.
  intros (H1 & H2 & H3 & H4 & Hl & H5 & H6). unfold tear_down; simpl; unfold constant.
  repeat split; simpl.
  - by apply NoDup_filter.
  - intros x [_ Hx]%list_elem_of_filter. by apply H2.
  - eapply sublist_NoDup; [exact H3|]. apply fmap_sublist, sublist_filter.
  - intros x Hx. apply list_elem_of_fmap in Hx as (y & -> & [Hy Hin]%list_elem_of_filter).
    apply list_elem_of_filter. split; [done|]. apply H4. by apply list_elem_of_fmap_2.
  - eapply Forall_incl_sublist; [exact Hl|apply sublist_filter].
  - intros x Hx. apply list_elem_of_fmap in Hx as (y & -> & [Hy Hin]%list_elem_of_filter).
    apply list_elem_of_filter. split; [done|]. apply H5. by apply list_elem_of_fmap_2.
  - intros e' k He' Hm. etrans; [apply filter_length_sublist, sublist_filter|by apply H6].
Qed.

Lemma resubscribe_tidy e s : e ∈ effects → tidy s → tidy (resubscribe e s).
Proof.
  intros He Hs. pose proof (tidy_tear_down e s Hs) as (H1 & H2 & H3 & H4 & Hl & H5 & H6).
  repeat split; simpl in *; unfold constant in *; try done.
  - apply NoDup_app. split_and!; [done| |apply NoDup_singleton].
    intros x [Hx _]%list_elem_of_filter Hx'. by apply list_elem_of_singleton in Hx'.
  - intros x [Hx|Hx]%elem_of_app; [by apply H2|].
    apply list_elem_of_singleton in Hx as ->. by apply list_elem_of_fmap_2.
  - intros x Hx. apply elem_of_app. left. by apply H4.
  - intros x Hx. apply elem_of_app. left. by apply H5.
Qed.

Lemma resubscribe_keeps e s n : n ∈ subscribed s → n ∈ subscribed (resubscribe e s).
Proof.
  intros Hn. simpl. unfold constant. apply elem_of_app.
  destruct (decide (n = name e)) as [->|]; [right; by apply list_elem_of_singleton|].
  left. by apply list_elem_of_filter.
Qed.

Lemma restart_Ok e s s' :
  restart e s = Ok s' → s' = { resubscribe e s with failures := name e :: failures s }.
Proof. unfold restart. by case_bool_decide; intros; simplify_eq. Qed.

(** Running an effect keeps the others live. *)
Definition keeps e s s' : Prop := ∀ n, n ≠ name e → n ∈ subscribed s → n ∈ subscribed s'.

Lemma react_tidy e m s s' l :
  e ∈ effects → name e ∈ subscribed s → tidy s → react e m s = Ok (s', l) →
  tidy s' ∧ keeps e s s'.
Proof.
  unfold react. intros He Hsub Hs H. destruct m as [r|[]]; [| |done].
  - injection H as <- <-. split.
    + eapply tidy_ext with (s := finish e (next r) (launch e (sent r) s)); [|done..].
      assert (tidy (launch e (sent r) s)) by by apply tidy_launch.
      destruct (next r); [done|by apply tidy_tear_down|by apply resubscribe_tidy].
    + intros n Hn Hin. change (n ∈ subscribed (finish e (next r) (launch e (sent r) s))).
      assert (n ∈ subscribed (launch e (sent r) s)) by by rewrite subscribed_launch.
      destruct (next r); [done|by apply list_elem_of_filter|by apply resubscribe_keeps].
  - destruct (restart e s) as [s1|] eqn:Hr; cbn [mbind res_bind] in H; [|done].
    injection H as <- <-. apply restart_Ok in Hr as ->. split.
    + eapply tidy_ext; [by apply resubscribe_tidy|done..].
    + intros n _. apply resubscribe_keeps.
Qed.

Lemma fire_tidy e s a s' l :
  e ∈ effects → name e ∈ subscribed s → tidy s → fire e s a = Ok (s', l) →
  tidy s' ∧ keeps e s s'.
Proof.
  unfold fire. intros He Hsub Hs H.
  destruct (run e (store s) a) as [[r|]|x].
  - eapply (react_tidy e _ (release e s)); [done|done|by apply tidy_release|exact H].
  - injection H as <- <-. split; [done|by intros ? ?].
  - by eapply react_tidy.
Qed.

Lemma notify_tidy s a n s' l :
  n ∈ subscribed s → tidy s → notify s a n = Ok (s', l) →
  tidy s' ∧ ∀ n', n' ≠ n → n' ∈ subscribed s → n' ∈ subscribed s'.
Proof.
  unfold notify. intros Hn Hs H.
  destruct (effect_of n) as [e|] eqn:He; [|injection H as <- <-; by split].
  pose proof He as Hof. apply effect_of_Some in He as [He <-].
  destruct (listens e a) eqn:Hla; [|injection H as <- <-; by split].
  destruct (debounced e); [|by eapply fire_tidy]. injection H as <- <-.
  destruct Hs as (H1 & H2 & H3 & H4 & Hl & H5 & H6). split; [|done].
  repeat split; simpl; unfold constant; try done; [by apply NoDup_keys_snoc| |]; last first.
  { apply Forall_app. split; [eapply Forall_incl_sublist; [exact Hl|apply sublist_filter]|].
    apply Forall_singleton. simpl. congruence. }
  rewrite fmap_app. intros x [Hx|Hx]%elem_of_app; [|by apply list_elem_of_singleton in Hx as ->].
  apply H4. eapply elem_of_sublist; [|exact Hx]. apply fmap_sublist, sublist_filter.
Qed.

(** An invariant of tidy sessions and the actions that wait, kept by the
    reducer and by each effect that sees an action. *)
Lemma notify_all_inv (P : Session S A → list A → list string → Prop) s a ns q s' l :
  (∀ s n ns q s1 l, n ∉ ns → n ∈ subscribed s → tidy s → P s q (n :: ns) →
    notify s a n = Ok (s1, l) → P s1 (q ++ l) ns) →
  NoDup ns → ns ⊆ subscribed s → tidy s → P s q ns → notify_all s a ns = Ok (s', l) →
  tidy s' ∧ P s' (q ++ l) [].
Proof.
  intros Hstep. revert s q l. induction ns as [|n ns IH]; intros s q l Hnd Hsub Hs Hp H; simpl in H.
  { simplify_eq. by rewrite app_nil_r. }
  apply NoDup_cons in Hnd as [Hn Hnd].
  destruct (notify s a n) as [[s1 l1]|] eqn:H1; cbn [mbind res_bind] in H; [|done].
  destruct (notify_all s1 a ns) as [[s2 l2]|] eqn:H2; cbn [mbind res_bind] in H; [|done].
  simplify_eq. assert (n ∈ subscribed s) as Hns by apply Hsub, list_elem_of_here.
  destruct (notify_tidy _ _ _ _ _ Hns Hs H1) as [Hs1 Hk].
  rewrite app_assoc. eapply IH; [done| |done| |exact H2].
  - intros x Hx. apply Hk; [by intros ->|]. apply Hsub. by apply list_elem_of_further.
  - by eapply Hstep.
Qed.

Lemma handle_tidy s a s' l : tidy s → handle s a = Ok (s', l) → tidy s'.
Proof.
  unfold handle. intros Hs H. destruct (reducing (store s) a) as [st|]; cbn [mbind res_bind] in H; [|done].
  assert (tidy { s with store := st }) as Hs1 by by eapply tidy_ext.
  eapply (notify_all_inv (λ _ _ _, True) _ a _ []); [done| |done|exact Hs1|done|exact H].
  apply Hs1.
Qed.

(** ** Cascades end *)

Definition total (l : list A) : nat := list_sum (weight <$> l).

Lemma total_app l1 l2 : total (l1 ++ l2) = total l1 + total l2.
Proof. unfold total. by rewrite fmap_app, list_sum_app. Qed.

Lemma react_total e m s s' l :
  react e m s = Ok (s', l) → total l = match m with Ok r => total (emitted r) | Throw _ => 0 end.
Proof.
  unfold react. intros H. destruct m as [r|[]]; [by simplify_eq| |done].
  destruct (restart e s); cbn [mbind res_bind] in H; by simplify_eq.
Qed.

Lemma fire_total e s a s' l :
  e ∈ effects → listens e a = true → debounced e = false → fire e s a = Ok (s', l) →
  total l ≤ share e.
Proof.
  unfold fire. intros He Hl Hd H. destruct (run e (store s) a) as [[r|]|x] eqn:Hr.
  - rewrite (react_total _ _ _ _ _ H). by eapply share_ok.
  - injection H as _ <-. unfold total. simpl. lia.
  - rewrite (react_total _ _ _ _ _ H). lia.
Qed.

(** The share of an effect in what an action leads to. *)
Definition share_of a n : nat :=
  match effect_of n with
  | Some e => if listens e a && negb (debounced e) then share e else 0
  | None => 0
  end.

Lemma notify_total s a n s' l : notify s a n = Ok (s', l) → total l ≤ share_of a n.
Proof.
  unfold notify, share_of. destruct (effect_of n) as [e|] eqn:He; [|by intros [= <- <-]].
  apply effect_of_Some in He as [He _].
  destruct (listens e a) eqn:Hl; simpl; [|by intros [= <- <-]].
  destruct (debounced e) eqn:Hd; simpl; [by intros [= <- <-]|by apply fire_total].
Qed.

Lemma notify_all_total s a ns s' l :
  notify_all s a ns = Ok (s', l) → total l ≤ list_sum (share_of a <$> ns).
Proof.
  revert s s' l. induction ns as [|n ns IH]; intros s s' l H; simpl in H; [by simplify_eq|].
  destruct (notify s a n) as [[s1 l1]|] eqn:H1; cbn [mbind res_bind] in H; [|done].
  destruct (notify_all s1 a ns) as [[s2 l2]|] eqn:H2; cbn [mbind res_bind] in H; [|done].
  simplify_eq. rewrite total_app, fmap_cons.
  change (list_sum (share_of a n :: ?l)) with (share_of a n + list_sum l).
  apply notify_total in H1. apply IH in H2. lia.
Qed.

Lemma list_sum_submseteq (l1 l2 : list nat) : l1 ⊆+ l2 → list_sum l1 ≤ list_sum l2.
Proof. induction 1; simpl; lia. Qed.

Lemma share_sum a :
  list_sum (share_of a <$> (name <$> effects)) =
  list_sum (share <$> List.filter (λ e, listens e a && negb (debounced e)) effects).
Proof.
  assert (∀ l : list (Effect S A), l ⊆ effects →
    list_sum (share_of a <$> (name <$> l)) =
    list_sum (share <$> List.filter (λ e, listens e a && negb (debounced e)) l)) as H; [|by apply H].
  induction l as [|e l IH]; intros Hl; [done|]. cbn [fmap list_fmap List.filter].
  change (list_sum (?x :: ?l)) with (x + list_sum l). rewrite IH by (intros x Hx; apply Hl; by apply list_elem_of_further).
  unfold share_of at 1. rewrite effect_of_name by apply Hl, list_elem_of_here.
  by destruct (listens e a && negb (debounced e)).
Qed.

Lemma handle_total s a s' l : tidy s → handle s a = Ok (s', l) → total l < weight a.
Proof.
  unfold handle. intros (Hnd & Hsub & _) H.
  destruct (reducing (store s) a); cbn [mbind res_bind] in H; [|done].
  apply notify_all_total in H. pose proof (weight_ok a) as Hw. rewrite <-share_sum in Hw.
  assert (subscribed s ⊆+ name <$> effects) as Hsm by by apply NoDup_submseteq.
  assert (share_of a <$> subscribed s ⊆+ share_of a <$> (name <$> effects)) as Hsm'
    by by apply fmap_submseteq.
  apply list_sum_submseteq in Hsm'. lia.
Qed.

(** What draining a queue means, without fuel. *)
Inductive drains : Session S A → list A → res (Session S A) → Prop :=
| drains_nil s : drains s [] (Ok s)
| drains_throw s a q x : handle s a = Throw x → drains s (a :: q) (Throw x)
| drains_cons s a q s1 l out :
    handle s a = Ok (s1, l) → drains s1 (q ++ l) out → drains s (a :: q) out.

Lemma drain_drains m s q : tidy s → total q ≤ m → drains s q (drain m s q).
Proof.
  revert s q. induction m as [|m IH]; intros s q Hs Hm; (destruct q as [|a q]; [constructor|]).
  - change (total (a :: q)) with (weight a + total q) in Hm. pose proof (weight_ok a). lia.
  - simpl. destruct (handle s a) as [[s1 l]|x] eqn:H; cbn [mbind res_bind].
    + eapply drains_cons; [done|]. apply IH; [by eapply handle_tidy|]. rewrite total_app.
      apply handle_total in H; [|done]. change (total (a :: q)) with (weight a + total q) in Hm. lia.
    + by constructor.
Qed.

Lemma drains_unique s q o1 o2 : drains s q o1 → drains s q o2 → o1 = o2.
Proof.
  intros H1. revert o2. induction H1 as [s|s a q x Hx|s a q s1 l out Hh _ IH];
    intros o2 H2; inversion H2; subst; try congruence.
  match goal with H' : handle s a = Ok _ |- _ => rewrite Hh in H'; injection H' as <- <- end.
  by apply IH.
Qed.

Lemma dispatch_drains s a : tidy s → drains s [a] (dispatch s a).
Proof. intros Hs. apply drain_drains; [done|]. unfold total. simpl. lia. Qed.

(** An invariant of the handling of one action, with the actions that wait, is
    an invariant of a cascade. *)
Lemma drains_inv (P : Session S A → list A → Prop) s q rest s' :
  (∀ s a q s1 l, tidy s → P s (a :: q) → handle s a = Ok (s1, l) → P s1 (q ++ l)) →
  (∀ s q q', q ≡ₚ q' → P s q → P s q') →
  tidy s → P s (q ++ rest) → drains s q (Ok s') → tidy s' ∧ P s' rest.
Proof.
  intros Hstep Hperm Ht Hp H. remember (Ok s') as out eqn:Ho. revert s' Ho.
  induction H as [s|s a q x|s a q s1 l out Hh _ IH]; intros s' Ho; simplify_eq; [done|].
  apply IH; [by eapply handle_tidy| |done].
  eapply Hperm; [|eapply Hstep; [exact Ht|exact Hp|exact Hh]].
  rewrite <-!app_assoc. f_equiv. apply Permutation_app_comm.
Qed.

Lemma dispatches_inv (P : Session S A → list A → Prop) s l s' :
  (∀ s a q s1 l, tidy s → P s (a :: q) → handle s a = Ok (s1, l) → P s1 (q ++ l)) →
  (∀ s q q', q ≡ₚ q' → P s q → P s q') →
  tidy s → P s l → foldM dispatch s l = Ok s' → tidy s' ∧ P s' [].
Proof.
  intros Hstep Hperm. revert s. induction l as [|a l IH]; intros s Ht Hp H; simpl in H.
  { by simplify_eq. }
  destruct (dispatch s a) as [s1|] eqn:Hd; cbn [mbind res_bind] in H; [|done].
  assert (drains s [a] (Ok s1)) as Hdr by (rewrite <-Hd; exact (dispatch_drains s a Ht)).
  destruct (drains_inv P s [a] l s1 Hstep Hperm Ht Hp Hdr) as [Ht1 Hp1]. by apply (IH s1).
Qed.

Lemma dispatches_tidy s l s' : tidy s → foldM dispatch s l = Ok s' → tidy s'.
Proof. intros Hs H. by apply (dispatches_inv (λ _ _, True)) in H as [? _]. Qed.

Lemma dispatch_tidy s a s' : tidy s → dispatch s a = Ok s' → tidy s'.
Proof. intros Hs H. eapply (dispatches_tidy s [a]); [done|]. simpl. by rewrite H. Qed.

(** ** Steps *)

Lemma elapse_inv s i s' :
  elapse s i = Ok s' →
  s' = s ∨ ∃ e a s1 l, timers s !! i = Some (name e, a) ∧ e ∈ effects ∧
    fire e { s with timers := delete i (timers s) } a = Ok (s1, l) ∧ foldM dispatch s1 l = Ok s'.
Proof.
  unfold elapse. destruct (timers s !! i) as [[n a]|]; [|intros; simplify_eq; by left].
  destruct (effect_of n) as [e|] eqn:He; [|intros; simplify_eq; by left].
  apply effect_of_Some in He as [He <-]. unfold dispatch_all.
  destruct (fire e _ a) as [[s1 l]|] eqn:Hf; cbn [mbind res_bind]; [|done].
  intros H. right. by exists e, a, s1, l.
Qed.

Lemma respond_inv s i resp s' :
  respond s i resp = Ok s' →
  s' = s ∨ ∃ e q s1 l, flying s !! i = Some (name e, q) ∧ e ∈ effects ∧
    react e (receive e q resp) { s with flying := delete i (flying s) } = Ok (s1, l) ∧
    foldM dispatch s1 l = Ok s'.
Proof.
  unfold respond. destruct (flying s !! i) as [[n q]|]; [|intros; simplify_eq; by left].
  destruct (effect_of n) as [e|] eqn:He; [|intros; simplify_eq; by left].
  apply effect_of_Some in He as [He <-]. unfold dispatch_all.
  destruct (react e _ _) as [[s1 l]|] eqn:Hf; cbn [mbind res_bind]; [|done].
  intros H. right. by exists e, q, s1, l.
Qed.

Lemma timer_subscribed s i n a : tidy s → timers s !! i = Some (n, a) → n ∈ subscribed s.
Proof.
  intros (_ & _ & _ & H & _ & _) Hi. apply H. apply list_elem_of_fmap. exists (n, a).
  split; [done|]. by eapply list_elem_of_lookup_2.
Qed.

Lemma flying_subscribed s i n q : tidy s → flying s !! i = Some (n, q) → n ∈ subscribed s.
Proof.
  intros (_ & _ & _ & _ & _ & H & _) Hi. apply H. apply list_elem_of_fmap. exists (n, q).
  split; [done|]. by eapply list_elem_of_lookup_2.
Qed.

Lemma tidy_delete_timer s i : tidy s → tidy { s with timers := delete i (timers s) }.
Proof. intros Hs. eapply tidy_sublist; [exact Hs|apply sublist_delete|done..]. Qed.

Lemma tidy_delete_flying s i : tidy s → tidy { s with flying := delete i (flying s) }.
Proof. intros Hs. eapply tidy_sublist; [exact Hs|done|apply sublist_delete|done]. Qed.

Lemma elapse_tidy s i s' : tidy s → elapse s i = Ok s' → tidy s'.
Proof.
  intros Hs [->|(e & a & s1 & l & Hi & He & Hf & Hd)]%elapse_inv; [done|].
  eapply dispatches_tidy; [|exact Hd]. eapply fire_tidy; [exact He| | |exact Hf].
  - exact (timer_subscribed s i _ a Hs Hi).
  - by apply tidy_delete_timer.
Qed.

Lemma respond_tidy s i resp s' : tidy s → respond s i resp = Ok s' → tidy s'.
Proof.
  intros Hs [->|(e & q & s1 & l & Hi & He & Hf & Hd)]%respond_inv; [done|].
  eapply dispatches_tidy; [|exact Hd]. eapply react_tidy; [exact He| | |exact Hf].
  - exact (flying_subscribed s i _ q Hs Hi).
  - by apply tidy_delete_flying.
Qed.

Lemma step_tidy s s' : tidy s → step s s' → tidy s'.
Proof. intros Hs H. destruct H; eauto using dispatch_tidy, elapse_tidy, respond_tidy. Qed.

Lemma runs_tidy s s' : tidy s → runs s s' → tidy s'.
Proof. intros Hs H. induction H; eauto using step_tidy. Qed.

(** ** What one action stirs up *)

(** The timers, requests and actions an action leads to come from effects
    among [ns] that listen to it. *)
Definition stirs a (ns : list string) s s' (l : list A) : Prop :=
  store s' = store s ∧
  (∀ n, n ∈ subscribed s' → n ∈ subscribed s ∨ n ∈ ns) ∧
  (∀ nb, nb ∈ timers s' → nb ∈ timers s ∨
     ∃ e, e ∈ effects ∧ name e ∈ ns ∧ listens e a = true ∧ debounced e = true ∧ nb = (name e, a)) ∧
  (∀ nq, nq ∈ flying s' → nq ∈ flying s ∨
     ∃ e r q, e ∈ effects ∧ name e ∈ ns ∧ listens e a = true ∧ debounced e = false ∧
       run e (store s) a = Ok (Some r) ∧ sent r = Some q ∧ nq = (name e, q)) ∧
  (∀ b, b ∈ l → ∃ e r, e ∈ effects ∧ name e ∈ ns ∧ listens e a = true ∧ debounced e = false ∧
     run e (store s) a = Ok (Some r) ∧ b ∈ emitted r).

Lemma stirs_nothing a ns s : stirs a ns s s [].
Proof.
  split; [done|]. split; [by left|]. split; [by left|]. split; [by left|]. by intros b []%elem_of_nil.
Qed.

Lemma stirs_trans a n ns s s1 s2 l1 l2 :
  stirs a [n] s s1 l1 → stirs a ns s1 s2 l2 → stirs a (n :: ns) s s2 (l1 ++ l2).
Proof.
  intros (H1 & H2 & H3 & H4 & H5) (K1 & K2 & K3 & K4 & K5). rewrite H1 in K4, K5.
  assert (∀ x, x ∈ [n] → x ∈ n :: ns) as Hl
    by (intros x ->%list_elem_of_singleton; apply list_elem_of_here).
  assert (∀ x, x ∈ ns → x ∈ n :: ns) as Hr by (intros; by apply list_elem_of_further).
  split; [congruence|]. split; [|split; [|split]].
  - intros x [?| ?%Hr]%K2; [|by right]. destruct (H2 x) as [?| ?%Hl]; [done|by left|by right].
  - intros x [Hx|(e & ? & ?%Hr & ?)]%K3; [|right; by exists e].
    apply H3 in Hx as [?|(e & ? & ?%Hl & ?)]; [by left|right; by exists e].
  - intros x [Hx|(e & r & q & ? & ?%Hr & ?)]%K4; [|right; by exists e, r, q].
    apply H4 in Hx as [?|(e & r & q & ? & ?%Hl & ?)]; [by left|right; by exists e, r, q].
  - intros b [(e & r & ? & ?%Hl & ?)%H5|(e & r & ? & ?%Hr & ?)%K5]%elem_of_app; by exists e, r.
Qed.

Lemma react_subscribed e m s s' l n :
  react e m s = Ok (s', l) → n ∈ subscribed s' → n ∈ subscribed s ∨ n = name e.
Proof.
  unfold react. intros H Hn. destruct m as [r|[]]; [| |done].
  - injection H as <- <-. revert Hn. unfold finish.
    destruct (sent r), (next r); simpl; unfold constant;
      rewrite ?elem_of_app, ?list_elem_of_filter, ?list_elem_of_singleton; tauto.
  - destruct (restart e s) eqn:Hr; cbn [mbind res_bind] in H; [|done]. injection H as <- <-.
    apply restart_Ok in Hr as ->. revert Hn. simpl. unfold constant.
    rewrite elem_of_app, list_elem_of_filter, list_elem_of_singleton. tauto.
Qed.

Lemma react_timers e m s s' l nb :
  react e m s = Ok (s', l) → nb ∈ timers s' → nb ∈ timers s.
Proof.
  unfold react. intros H Hn. destruct m as [r|[]]; [| |done].
  - injection H as <- <-. revert Hn. unfold finish.
    destruct (sent r), (next r); simpl; unfold constant; rewrite ?list_elem_of_filter; tauto.
  - destruct (restart e s) eqn:Hr; cbn [mbind res_bind] in H; [|done]. injection H as <- <-.
    apply restart_Ok in Hr as ->. revert Hn. simpl. unfold constant. rewrite list_elem_of_filter. tauto.
Qed.

Lemma elem_of_unsubscribe e k l nq : nq ∈ unsubscribe e k l → nq ∈ l.
Proof. apply elem_of_sublist, unsubscribe_sublist. Qed.

Lemma react_flying e m s s' l nq :
  react e m s = Ok (s', l) → nq ∈ flying s' →
  nq ∈ flying s ∨ ∃ r q, m = Ok r ∧ sent r = Some q ∧ nq = (name e, q).
Proof.
  unfold react. intros H Hn. destruct m as [r|[]]; [| |done].
  - injection H as <- <-. assert (nq ∈ flying (launch e (sent r) s)) as Hl.
    { revert Hn. unfold finish. destruct (next r); simpl; unfold constant;
        rewrite ?list_elem_of_filter; tauto. }
    destruct (sent r) as [q|] eqn:Hq; [|by left]. revert Hl. simpl. unfold constant.
    rewrite elem_of_app, list_elem_of_singleton. intros [Hl| ->].
    + left. exact (elem_of_unsubscribe _ _ _ _ Hl).
    + right. by exists r, q.
  - destruct (restart e s) eqn:Hr; cbn [mbind res_bind] in H; [|done]. injection H as <- <-.
    apply restart_Ok in Hr as ->. revert Hn. simpl. unfold constant. rewrite list_elem_of_filter. tauto.
Qed.

Lemma react_store e m s s' l : react e m s = Ok (s', l) → store s' = store s.
Proof.
  unfold react, finish. intros H. destruct m as [r|[]]; [| |done].
  - simplify_eq. by destruct (sent r), (next r).
  - destruct (restart e s) eqn:Hr; cbn [mbind res_bind] in H; [|done]. simplify_eq.
    by apply restart_Ok in Hr as ->.
Qed.

Lemma notify_stirs s a n s' l : notify s a n = Ok (s', l) → stirs a [n] s s' l.
Proof.
  unfold notify. intros H. destruct (effect_of n) as [e|] eqn:He; [|simplify_eq; apply stirs_nothing].
  apply effect_of_Some in He as [He <-].
  destruct (listens e a) eqn:Hl; [|simplify_eq; apply stirs_nothing].
  destruct (debounced e) eqn:Hd.
  { injection H as <- <-. split; [done|]. split; [by left|]. split; [|split]; simpl; unfold constant.
    - intros nb. rewrite elem_of_app, list_elem_of_filter, list_elem_of_singleton.
      intros [[_ ?]| ->]; [by left|right]. exists e. by rewrite list_elem_of_singleton.
    - by left.
    - by intros b []%elem_of_nil. }
  unfold fire in H. destruct (run e (store s) a) as [[r|]|x] eqn:Hr.
  - split; [by apply react_store in H|]. split; [|split; [|split]].
    + intros n Hn. rewrite list_elem_of_singleton. exact (react_subscribed _ _ _ _ _ _ H Hn).
    + intros nb Hn. left. exact (react_timers _ _ _ _ _ _ H Hn).
    + intros nq Hn. destruct (react_flying _ _ _ _ _ _ H Hn) as [Hf|(r' & q & [= <-] & Hq & ->)].
      * left. exact (elem_of_unsubscribe _ _ _ _ Hf).
      * right. exists e, r, q. by rewrite list_elem_of_singleton.
    + intros b Hb. exists e, r. rewrite list_elem_of_singleton. unfold react in H. by simplify_eq.
  - simplify_eq. apply stirs_nothing.
  - split; [by apply react_store in H|]. split; [|split; [|split]].
    + intros n Hn. rewrite list_elem_of_singleton. exact (react_subscribed _ _ _ _ _ _ H Hn).
    + intros nb Hn. left. exact (react_timers _ _ _ _ _ _ H Hn).
    + intros nq Hn. destruct (react_flying _ _ _ _ _ _ H Hn) as [?|(r' & q & [=] & _)]. by left.
    + unfold react in H. destruct x; [|done].
      destruct (restart e s); cbn [mbind res_bind] in H; [|done]. simplify_eq. by intros b []%elem_of_nil.
Qed.

Lemma notify_all_stirs s a ns s' l : notify_all s a ns = Ok (s', l) → stirs a ns s s' l.
Proof.
  revert s l. induction ns as [|n ns IH]; intros s l H; simpl in H.
  { simplify_eq. apply stirs_nothing. }
  destruct (notify s a n) as [[s1 l1]|] eqn:H1; cbn [mbind res_bind] in H; [|done].
  destruct (notify_all s1 a ns) as [[s2 l2]|] eqn:H2; cbn [mbind res_bind] in H; [|done].
  simplify_eq. eapply stirs_trans; [by apply notify_stirs|by apply IH].
Qed.

Lemma handle_stirs s a s' l :
  handle s a = Ok (s', l) →
  ∃ st, reducing (store s) a = Ok st ∧ stirs a (subscribed s) { s with store := st } s' l.
Proof.
  unfold handle. intros H. destruct (reducing (store s) a) as [st|]; cbn [mbind res_bind] in H; [|done].
  exists st. split; [done|]. by apply notify_all_stirs.
Qed.

(** ** An effect that is over *)

Lemma handle_over n s a s' l : n ∉ subscribed s → handle s a = Ok (s', l) → n ∉ subscribed s'.
Proof. intros Hn (st & _ & _ & Hs & _)%handle_stirs Hin. by destruct (Hs n Hin). Qed.

Lemma dispatches_over n s l s' :
  tidy s → n ∉ subscribed s → foldM dispatch s l = Ok s' → n ∉ subscribed s'.
Proof.
  intros Ht Hn H. apply (dispatches_inv (λ s _, n ∉ subscribed s)) in H as [_ H]; [done| |done..].
  intros. by eapply handle_over.
Qed.

Lemma step_over n s s' : tidy s → n ∉ subscribed s → step s s' → n ∉ subscribed s'.
Proof.
  intros Ht Hn H. destruct H as [s a s' H|s i s' H|s i resp s' H].
  - eapply (dispatches_over _ s [a]); [done..|]. simpl. by rewrite H.
  - destruct (elapse_inv _ _ _ H) as [->|(e & a & s1 & l & Hi & He & Hf & Hd)]; [done|].
    pose proof (timer_subscribed _ _ _ _ Ht Hi) as Hsub.
    eapply dispatches_over; [|..|exact Hd].
    { refine (proj1 (fire_tidy _ _ _ _ _ He _ _ Hf)); [exact Hsub|by apply tidy_delete_timer]. }
    intros Hin. unfold fire in Hf. destruct (run e _ a) as [[r|]|x].
    + destruct (react_subscribed _ _ _ _ _ _ Hf Hin) as [H'| ->]; [exact (Hn H')|exact (Hn Hsub)].
    + injection Hf as <- <-. exact (Hn Hin).
    + destruct (react_subscribed _ _ _ _ _ _ Hf Hin) as [H'| ->]; [exact (Hn H')|exact (Hn Hsub)].
  - destruct (respond_inv _ _ _ _ H) as [->|(e & q & s1 & l & Hi & He & Hf & Hd)]; [done|].
    pose proof (flying_subscribed _ _ _ _ Ht Hi) as Hsub.
    eapply dispatches_over; [|..|exact Hd].
    { refine (proj1 (react_tidy _ _ _ _ _ He _ _ Hf)); [exact Hsub|by apply tidy_delete_flying]. }
    intros Hin. destruct (react_subscribed _ _ _ _ _ _ Hf Hin) as [H'| ->]; [exact (Hn H')|exact (Hn Hsub)].
Qed.

(** Nothing brings it back. *)
Lemma runs_over n s s' : tidy s → n ∉ subscribed s → runs s s' → n ∉ subscribed s'.
Proof.
  intros Ht Hn H. induction H; [done|]. eapply step_over; [by eapply runs_tidy|by apply IHruns|done].
Qed.
End facts.
