(* ===== verification/Queries.v ===== *)
(** * Requests of the list stores

    The queries the effects of the stores send ([libs/api/src/lib/utils]) and
    the shapes their answers have. *)

From S2P Require Import Prelude JsValue Models Filtration Effects.

(** The language of the page, which [LanguageService] keeps. *)
Class Language := { lang : val }.

Definition PAGE_SIZE : Z := 50.

Section queries.
Context `{Language}.

(** [default-list-query.ts], [all-list-query.ts]; [initial] lists the
    properties of the argument. *)
Definition defaultListQuery (initial : obj val) : val :=
  spread (obj_lit [("lang", lang); ("type", VStr "init"); ("page", vint 1);
    ("pageSize", vint PAGE_SIZE); ("sort", VObj [])]) initial.

Definition allListQuery (initial : obj val) : val :=
  spread (obj_lit [("lang", lang); ("type", VStr "init"); ("page", vint 1);
    ("pageSize", vint (-1)); ("sort", VObj [])]) initial.

Definition allGroupedListQuery (initial : obj val) (group : string) : val :=
  spread (allListQuery initial) [("group", VStr group)].
End queries.

(** A filter of a query. *)
Definition query_filter (field : string) (value : val) : val :=
  obj_lit [("field", VStr field); ("value", value)].

Definition filters_val (l : list Filtration) : list val := filter_val <$> l.

(** [sorting || {}] *)
Definition sort_val (sorting : val) : val := js_or sorting (VObj []).

(** ** The query of a list *)

(** [selectFiltersWithCounter] of the stores with quick filters. *)
Definition withCounter (counters filters : val) : res val :=
  map_array (λ filter,
    id ← get filter "id";
    label ← get filter "label";
    value ← get filter "value";
    count ← get counters (to_string id);
    Ok (obj_lit [("id", id); ("label", label); ("value", value); ("count", js_or count (vint 0))]))
    filters.

(** [...(filter?.value || [])] *)
Definition filterValue (filter : val) : res (list val) :=
  value ← getq filter "value"; iter (js_or value (VArr [])).

(** The filters of a list: those of the quick filter, of the selected group,
    of the columns, of the search. *)
Definition listFilters (value : list val) (groupId : val) (filtration : list Filtration)
    (search : val) : list val :=
  value ++ (if truthy groupId then [query_filter "group_id" (VArr [groupId])] else [])
    ++ filters_val filtration
    ++ (if truthy search then [query_filter "data" search] else []).

Definition listQuery (filters : list val) (sorting : val) : val :=
  obj_lit [("filters", VArr filters); ("sort", sort_val sorting)].

Definition pageQuery `{Language} (initialQuery : val) (page : Z) : val :=
  defaultListQuery (own_props (spread initialQuery [("page", vint page)])).

(** The filters of the selected quick filter, whatever the counters. *)
Definition rawValue (filters id : val) : list val :=
  match filter ← find_by "id" id filters; filterValue filter with Ok l => l | Throw _ => [] end.

Lemma withCounter_value counters filters id l filter value :
  withCounter counters filters = Ok l → find_by "id" id l = Ok filter →
  filterValue filter = Ok value → rawValue filters id = value.
Proof.
  unfold withCounter, find_by, rawValue, map_array. intros Hl Hf Hv.
  destruct (as_array filters) as [fs|] eqn:Hfs; cbn [mbind res_bind] in Hl; [|done].
  unfold find_by. rewrite Hfs. cbn [mbind res_bind]. clear Hfs.
  match type of Hl with context [mapM ?g fs] => set (f := g) in Hl end.
  destruct (mapM f fs) as [fs'|] eqn:Hm; cbn [mbind res_bind] in Hl; [|done].
  injection Hl as <-. simpl in Hf.
  assert (∃ y, find_list (key_is "id" id) fs = Ok y ∧ filterValue y = filterValue filter) as (y & -> & Hy).
  2:{ simpl. by rewrite Hy, Hv. }
  clear Hv. revert fs' Hm Hf. induction fs as [|x fs IH]; intros fs' Hm Hf; simpl in Hm.
  { injection Hm as <-. injection Hf as <-. by exists VUndef. }
  destruct (f x) as [x'|] eqn:Hx; cbn [mbind res_bind] in Hm; [|done].
  destruct (mapM f fs) as [fs1|]; cbn [mbind res_bind] in Hm; [|done].
  injection Hm as <-. unfold f in Hx. simpl.
  destruct (get x "id") as [i|] eqn:Hi; cbn [mbind res_bind] in Hx; [|done].
  destruct (get x "label"); cbn [mbind res_bind] in Hx; [|done].
  destruct (get x "value") as [v|] eqn:Hv; cbn [mbind res_bind] in Hx; [|done].
  destruct (get counters _); cbn [mbind res_bind] in Hx; [|done].
  injection Hx as <-. unfold key_is in *. rewrite Hi. simpl in Hf. simpl.
  change (obj_lookup "id" _) with i in Hf.
  destruct (strict_eq i id); [|by eapply IH].
  injection Hf as <-. exists x. split; [done|]. unfold filterValue, getq. simpl.
  replace (is_nullish x) with false by (by destruct x). by rewrite Hv.
Qed.

(** [items.filter(({ id }) => ids.includes(id))] *)
Definition withIds (ids items : val) : res val :=
  l ← as_array items;
  l ← mapM (λ item, id ← get item "id"; ids ← as_array ids; Ok (item, existsb (strict_eq id) ids)) l;
  Ok (VArr (filter (λ p, p.2 = true) l).*1).

(** ** Values of actions *)

(** [action.page || 1]; pages are integers. *)
Definition page_or_first (page : val) : res Z :=
  match js_or page (vint 1) with VNum (NInt z) => Ok z | _ => Throw Unsupported end.

(** The page a request was sent for. *)
Definition captured_page (q : Request) : Z :=
  match captured q with VNum (NInt z) :: _ => z | _ => 0%Z end.

(** A hash in the data of the server; hashes are strings. *)
Definition hash_string (v : val) : res string :=
  match v with VStr s => Ok s | _ => Throw Unsupported end.

(** [items.length === 1] *)
Definition is_single (items : val) : res bool :=
  len ← get items "length"; Ok (strict_eq len (vint 1)).

(** [items[0].hash] *)
Definition first_hash (items : val) : res string :=
  item ← get items "0"; hash ← get item "hash"; hash_string hash.

(** ** Error handlers *)

Section handlers.
Context {A : Type}.

(** [catchError(() => of(action))] *)
Definition fails (a : A) (_ : val) : res (Reaction A) := Ok (emits [a]).

(** [catchError((error) => of(action({ error })))] *)
Definition fails_whole (f : val → A) (error : val) : res (Reaction A) := Ok (emits [f error]).

(** [catchError(({ error }) => of(action({ error })))] *)
Definition fails_with (f : val → A) (response : val) : res (Reaction A) :=
  error ← get response "error"; Ok (emits [f error]).

(** The same, after [modalInfoService.openErrorInfoModal(transloco.translate(key))]. *)
Definition fails_telling (key : string) (f : val → A) (response : val) : res (Reaction A) :=
  error ← get response "error";
  Ok (mkReaction [f error] None [mkCall "modalInfoService.openErrorInfoModal" [VStr key]] Stays).

(** [map(() => action)] *)
Definition succeeds (l : list A) (_ : list val) : res (Reaction A) := Ok (emits l).

(** [map((response) => action({ data: response.data }))] *)
Definition with_data (f : val → A) (bodies : list val) : res (Reaction A) :=
  data ← data_of bodies 0; Ok (emits [f data]).
End handlers.

(** [filters: [...filters, { field, value: [id] }]] *)
Definition filters_and (filters : list Filtration) (l : list val) : val :=
  VArr (filters_val filters ++ l).

(** The upgrade request of several agents. *)
Definition upgrade_query (agents : val) (version : string) : res val :=
  ids ← mapIds agents;
  Ok (obj_lit [("filters", VArr [query_filter "id" ids]); ("version", VStr version)]).

(** [{ ...task, status: 'failed', reason: 'Canceled.By.User' }] *)
Definition canceled (task : val) : val :=
  spread task [("status", VStr "failed"); ("reason", VStr "Canceled.By.User")].
