(* ===== verification/EffectsFlags.v ===== *)
(** * Progress flags

    A store tells the page that something is going on by flags.  For a store
    whose flags are raised by the actions their effects listen to and lowered
    by what the answers emit, a raised flag is accounted for by one of its
    effects: by a request in flight, a timer, or an error that kept the effect
    from going on. *)

From S2P Require Import Prelude JsValue Effects EffectsFacts Queries.

(** A flag of some effects, mostly one: raised in a state, lowered by actions of
    some types.  A flag without effects is one that no action raises. *)
Record Flag (S A : Type) := mkFlag {
  owners : list (Effect S A);
  raised : S → bool;
  lowered_by : list string
}.
Arguments mkFlag {S A}.
Arguments owners {S A}.
Arguments raised {S A}.
Arguments lowered_by {S A}.

Definition listening {S A} `{HF : !Feature S A} (f : Flag S A) (a : A) : bool :=
  existsb (λ e, listens e a) (owners f).

Class Flags (S A : Type) `{HF : !Feature S A} := {
  flags : list (Flag S A);
  owner_effect f e : f ∈ flags → e ∈ owners f → e ∈ effects;
  raised_reduce f st a st' :
    f ∈ flags → reducing st a = Ok st' → raised f st' = true →
    listening f a = true ∨ (raised f st = true ∧ of_type (lowered_by f) a = false);
  raised_run f e st a o :
    f ∈ flags → e ∈ owners f → listens e a = true → run e st a = Ok o → raised f st = true →
    ∃ r, o = Some r ∧ is_Some (sent r) ∧ next r ≠ Restarts;
  raised_receive f e q resp r :
    f ∈ flags → e ∈ owners f → receive e q resp = Ok r →
    next r = Ends ∨ (is_Some (sent r) ∧ next r ≠ Restarts) ∨ ∃ a, a ∈ emitted r ∧ of_type (lowered_by f) a = true
}.

Section flags.
Context {S A : Type} `{HF : !Feature S A} `{HC : !Cascade S A} `{HB : !Flags S A}.
Implicit Types (s : Session S A) (f : Flag S A) (e : Effect S A) (n : string) (a : A).

(** An effect has completed or failed, holds an action or has a request in
    flight. *)
Definition engaged s n : Prop :=
  n ∉ subscribed s ∨ n ∈ failures s ∨ n ∈ (timers s).*1 ∨ n ∈ (flying s).*1.

(** What accounts for a flag: one of its effects is engaged, or an action that
    lowers the flag waits for its turn. *)
Definition accounts s (q : list A) f : Prop :=
  (∃ e, e ∈ owners f ∧ engaged s (name e)) ∨ ∃ a, a ∈ q ∧ of_type (lowered_by f) a = true.

Definition accounted s (q : list A) : Prop :=
  ∀ f, f ∈ flags → raised f (store s) = true → accounts s q f.

(** While the effects see an action, those to come may account for a flag. *)
Definition awaits a s (q : list A) (ns : list string) : Prop :=
  ∀ f, f ∈ flags → raised f (store s) = true →
    accounts s q f ∨ ∃ e, e ∈ owners f ∧ name e ∈ ns ∧ listens e a = true.

Lemma owner_inj f e e' :
  f ∈ flags → e' ∈ owners f → e ∈ effects → name e' = name e → e' = e.
Proof. intros Hf He' He. apply effects_name_inj; [by eapply owner_effect|done]. Qed.

Lemma owned f e :
  f ∈ flags → e ∈ effects → e ∈ owners f ∨ ∀ e', e' ∈ owners f → name e' ≠ name e.
Proof.
  intros Hf He. destruct (decide (name e ∈ name <$> owners f)) as [Hin|Hin].
  - left. apply list_elem_of_fmap in Hin as (e' & Hn & He').
    by rewrite <-(owner_inj f e e' Hf He' He (eq_sym Hn)).
  - right. intros e' He' Hn. apply Hin. rewrite <-Hn. by apply list_elem_of_fmap_2.
Qed.

Lemma accounts_perm s q q' f : q ≡ₚ q' → accounts s q f → accounts s q' f.
Proof. intros Hq. unfold accounts. by setoid_rewrite Hq. Qed.

Lemma accounts_app s q l f : accounts s q f → accounts s (q ++ l) f.
Proof. unfold accounts. setoid_rewrite elem_of_app. naive_solver. Qed.

(** *** An effect leaves the flags of the others accounted for *)

Lemma filter_keys_other {B} (P : string * B → Prop) `{∀ x, Decision (P x)} n (l : list (string * B)) :
  (∀ b, P (n, b)) → n ∈ l.*1 → n ∈ (filter P l).*1.
Proof.
  intros Hp (nb & -> & Hin)%list_elem_of_fmap. apply list_elem_of_fmap_2, list_elem_of_filter.
  split; [|done]. destruct nb. apply Hp.
Qed.

Lemma unsubscribe_other e k l n : n ≠ name e → n ∈ l.*1 → n ∈ (unsubscribe e k l).*1.
Proof.
  intros Hn Hin. unfold unsubscribe. destruct (merged e); [done|].
  apply filter_keys_other; [|done]. by intros b [= ?].
Qed.

Lemma engaged_release e s n : n ≠ name e → engaged s n → engaged (release e s) n.
Proof. intros Hn. unfold engaged. simpl. unfold constant. pose proof unsubscribe_other. naive_solver. Qed.

Lemma engaged_launch e o s n : n ≠ name e → engaged s n → engaged (launch e o s) n.
Proof.
  intros Hn. destruct o as [q0|]; [|done]. unfold engaged. simpl. unfold constant.
  rewrite fmap_app, elem_of_app.
  pose proof (unsubscribe_other e (stage q0) (flying s) _ Hn). naive_solver.
Qed.

Lemma engaged_tear_down e s n : engaged s n → engaged (tear_down e s) n.
Proof.
  unfold engaged, tear_down. simpl. unfold constant. rewrite list_elem_of_filter.
  destruct (decide (n = name e)) as [Hn|Hn]; [rewrite Hn; tauto|].
  pose proof (filter_keys_other (λ na : string * A, na.1 ≠ name e) _ (timers s) (λ _, Hn)).
  pose proof (filter_keys_other (λ nq : string * Request, nq.1 ≠ name e) _ (flying s) (λ _, Hn)).
  tauto.
Qed.

Lemma engaged_resubscribe e s n : n ≠ name e → engaged s n → engaged (resubscribe e s) n.
Proof.
  intros Hn Ha. apply (engaged_tear_down e) in Ha. revert Ha. unfold engaged. simpl.
  unfold constant. rewrite elem_of_app, list_elem_of_singleton. tauto.
Qed.

Lemma engaged_outbox s l n : engaged s n → engaged { s with outbox := l } n.
Proof. done. Qed.

Lemma react_engaged_other e m s s' l n :
  n ≠ name e → react e m s = Ok (s', l) → engaged s n → engaged s' n.
Proof.
  unfold react. intros Hn H Ha. destruct m as [r|[]]; [| |done].
  - simplify_eq. apply engaged_outbox.
    assert (engaged (launch e (sent r) s) n) by by apply engaged_launch.
    destruct (next r); [done|by apply engaged_tear_down|by apply engaged_resubscribe].
  - destruct (restart e s) as [s1|] eqn:Hr; cbn [mbind res_bind] in H; [|done].
    simplify_eq. apply restart_Ok in Hr as ->.
    apply (engaged_resubscribe e) in Ha; [|done]. revert Ha. unfold engaged. simpl.
    unfold constant. rewrite elem_of_cons. tauto.
Qed.

(** A flag with no effect of that name keeps what accounts for it. *)
Lemma accounts_other e s s' q l f :
  (∀ e', e' ∈ owners f → name e' ≠ name e) →
  (∀ n, n ≠ name e → engaged s n → engaged s' n) → accounts s q f → accounts s' (q ++ l) f.
Proof.
  intros Hn Hs [(e' & He' & Hen)|Hq]; [left|right].
  - exists e'. split; [done|]. apply Hs; [by apply Hn|done].
  - destruct Hq as (a & Ha & Hl). exists a. split; [by apply elem_of_app; left|done].
Qed.

(** *** An effect accounts for its own flags *)

Lemma react_fails e x s s' l : react e (Throw (Error x)) s = Ok (s', l) → engaged s' (name e).
Proof.
  unfold react. intros H.
  destruct (restart e s) as [s1|] eqn:Hr; cbn [mbind res_bind] in H; [|done].
  simplify_eq. apply restart_Ok in Hr as ->. right. left. simpl. unfold constant.
  apply list_elem_of_here.
Qed.

Lemma react_sends e r s s' l :
  is_Some (sent r) → next r ≠ Restarts → react e (Ok r) s = Ok (s', l) → engaged s' (name e).
Proof.
  unfold react. intros [q0 Hq] Hnext H. simplify_eq. apply engaged_outbox. unfold finish. rewrite Hq.
  assert (engaged (launch e (Some q0) s) (name e));
    [|destruct (next r); [done|by apply engaged_tear_down|done]].
  right. right. right. simpl. unfold constant. rewrite fmap_app, elem_of_app.
  right. by apply list_elem_of_singleton.
Qed.

Lemma react_ends e r s s' l :
  next r = Ends → react e (Ok r) s = Ok (s', l) → engaged s' (name e).
Proof.
  unfold react. intros He H. simplify_eq. apply engaged_outbox. unfold finish. rewrite He.
  left. unfold tear_down. simpl. unfold constant. rewrite list_elem_of_filter. tauto.
Qed.

Lemma fire_store e s a s' l : fire e s a = Ok (s', l) → store s' = store s.
Proof.
  unfold fire. destruct (run e (store s) a) as [[r|]|x]; intros H.
  - by apply react_store in H.
  - by simplify_eq.
  - by apply react_store in H.
Qed.

Lemma fire_engaged e s a s' l f :
  f ∈ flags → e ∈ owners f → listens e a = true → raised f (store s) = true →
  fire e s a = Ok (s', l) → engaged s' (name e).
Proof.
  unfold fire. intros Hf He Hl Hr H. destruct (run e (store s) a) as [o|[]] eqn:Ho.
  - destruct (raised_run _ _ _ _ _ Hf He Hl Ho Hr) as (r & -> & Hs & Hnext).
    exact (react_sends _ _ _ _ _ Hs Hnext H).
  - by eapply react_fails.
  - done.
Qed.

Lemma fire_engaged_other e s a s' l n :
  fire e s a = Ok (s', l) → n ≠ name e → engaged s n → engaged s' n.
Proof.
  unfold fire. intros H Hn Ha. destruct (run e (store s) a) as [[r|]|x].
  - eapply react_engaged_other; [exact Hn|exact H|by apply engaged_release].
  - by simplify_eq.
  - by eapply react_engaged_other.
Qed.

(** ** Handling an action *)

(** An effect that gets an action it does not ignore accounts for its flags
    and leaves the others as they were. *)
Lemma awaits_handled a e s s1 q l ns :
  e ∈ effects → store s1 = store s →
  (∀ f, f ∈ flags → e ∈ owners f → raised f (store s) = true → engaged s1 (name e)) →
  (∀ n, n ≠ name e → engaged s n → engaged s1 n) →
  awaits a s q (name e :: ns) → awaits a s1 (q ++ l) ns.
Proof.
  intros He Hst Hown Hother Hw f Hf Hb. rewrite Hst in Hb.
  destruct (owned f e Hf He) as [Ho|Ho].
  - left. left. exists e. split; [done|]. by eapply Hown.
  - destruct (Hw f Hf Hb) as [Ha|(e' & He' & [Heq|Hin]%elem_of_cons & Hl)].
    + left. by eapply accounts_other.
    + by apply Ho in He'.
    + right. by exists e'.
Qed.

Lemma notify_awaits a s n ns q s1 l :
  n ∉ ns → n ∈ subscribed s → tidy s → awaits a s q (n :: ns) →
  notify s a n = Ok (s1, l) → awaits a s1 (q ++ l) ns.
Proof.
  unfold notify. intros Hn Hsub Hs Hw H.
  destruct (effect_of n) as [e|] eqn:He; last first.
  { simplify_eq. rewrite app_nil_r. intros f Hf Hb.
    destruct (Hw f Hf Hb) as [?|(e' & He' & [<-|Hin]%elem_of_cons & Hl)]; [by left| |by right; exists e'].
    rewrite effect_of_name in He; [done|]. by eapply owner_effect. }
  apply effect_of_Some in He as [He <-].
  destruct (listens e a) eqn:Hl; last first.
  { simplify_eq. rewrite app_nil_r. intros f Hf Hb.
    destruct (Hw f Hf Hb) as [?|(e' & He' & [Heq|Hin]%elem_of_cons & Hl')]; [by left| |by right; exists e'].
    rewrite (owner_inj f e e' Hf He' He Heq) in Hl'. congruence. }
  destruct (debounced e).
  - simplify_eq. eapply (awaits_handled a e s); [done|done|..|exact Hw].
    + intros f _ _ _. right. right. left. simpl. unfold constant. rewrite fmap_app, elem_of_app.
      right. by apply list_elem_of_singleton.
    + intros n Hne. unfold engaged. simpl. unfold constant. rewrite fmap_app, elem_of_app.
      pose proof (filter_keys_other (λ na : string * A, na.1 ≠ name e) _ (timers s) (λ _, Hne)). tauto.
  - eapply (awaits_handled a e s); [done|by eapply fire_store|..|exact Hw].
    + intros f Hf Ho Hb. by eapply fire_engaged.
    + intros n'. by apply (fire_engaged_other _ _ _ _ _ _ H).
Qed.

Lemma handle_accounted s a q s' l :
  tidy s → accounted s (a :: q) → handle s a = Ok (s', l) → accounted s' (q ++ l).
Proof.
  unfold handle. intros Ht Hs H.
  destruct (reducing (store s) a) as [st|] eqn:Hr; cbn [mbind res_bind] in H; [|done].
  assert (tidy { s with store := st }) as Ht1 by by eapply tidy_ext.
  eapply (notify_all_inv (awaits a)) in H as [_ H]; [|apply notify_awaits|apply Ht| |exact Ht1|].
  - intros f Hf Hb. destruct (H f Hf Hb) as [?|(e & _ & []%elem_of_nil & _)]. done.
  - done.
  - intros f Hf Hb. simpl in Hb. unfold constant in Hb.
    destruct (raised_reduce _ _ _ _ Hf Hr Hb) as [Hl|[Hb' Hl]].
    + apply existsb_exists in Hl as (e & He%list_elem_of_In & Hl).
      destruct (decide (name e ∈ subscribed s)); [right; by exists e|left; left].
      exists e. split; [done|]. by left.
    + left. destruct (Hs f Hf Hb') as [?|(b & Hin & Hlb)]; [by left|right].
      apply elem_of_cons in Hin as [->|Hin]; [congruence|]. by exists b.
Qed.

Lemma accounted_perm s q q' : q ≡ₚ q' → accounted s q → accounted s q'.
Proof. intros Hq Hs f Hf Hb. eapply accounts_perm; [exact Hq|]. by apply Hs. Qed.

Lemma accounted_dispatches s l s' :
  tidy s → accounted s l → foldM dispatch s l = Ok s' → accounted s' [].
Proof.
  intros Ht Hs H.
  apply (dispatches_inv accounted) in H as [_ H]; [done|apply handle_accounted|apply accounted_perm|done..].
Qed.

(** ** Steps *)

Lemma accounts_nil s q f : accounts s [] f → accounts s q f.
Proof. apply (accounts_app s []). Qed.

Lemma fst_delete_other {B} (l : list (string * B)) i n b n' :
  l !! i = Some (n, b) → n' ≠ n → n' ∈ l.*1 → n' ∈ (delete i l).*1.
Proof.
  intros Hi Hn (nb & -> & Hin)%list_elem_of_fmap. apply list_elem_of_fmap_2.
  eapply stays_in_delete; [exact Hi|done|]. by intros ->.
Qed.

(** An effect whose timer or request is gone: its own flags have to be
    accounted for, those of the others are. *)
Lemma accounted_turn e s s0 s1 l :
  e ∈ effects → store s1 = store s → accounted s [] →
  (∀ n, n ≠ name e → engaged s n → engaged s0 n) →
  (∀ n, n ≠ name e → engaged s0 n → engaged s1 n) →
  (∀ f, f ∈ flags → e ∈ owners f → raised f (store s) = true → accounts s1 l f) →
  accounted s1 l.
Proof.
  intros He Hst Hs H0 H1 Hown f Hf Hb. rewrite Hst in Hb.
  destruct (owned f e Hf He) as [Ho|Ho]; [by apply Hown|].
  apply (accounts_other e s s1 [] l f Ho); [|by apply Hs]. intros n Hn Hen. by auto.
Qed.

Lemma elapse_keeps_accounted s i s' :
  tidy s → accounted s [] → elapse s i = Ok s' → accounted s' [].
Proof.
  intros Ht Hs [->|(e & a & s1 & l & Hi & He & Hf & Hd)]%elapse_inv; [done|].
  assert (listens e a = true) as Hla.
  { destruct Ht as (_ & _ & _ & _ & Hl & _). apply (proj1 (Forall_lookup _ _) Hl _ _ Hi).
    by apply effect_of_name. }
  eapply accounted_dispatches; [|..|exact Hd].
  { eapply fire_tidy; [exact He| |by apply tidy_delete_timer|exact Hf].
    exact (timer_subscribed s i _ a Ht Hi). }
  eapply (accounted_turn e s); [done|by apply (fire_store _ _ _ _ _ Hf)|done| |..].
  - intros n Hn. instantiate (1 := { s with timers := delete i (timers s) }).
    unfold engaged. simpl. unfold constant. pose proof (fst_delete_other _ _ _ _ _ Hi Hn). tauto.
  - intros n. by apply (fire_engaged_other _ _ _ _ _ _ Hf).
  - intros f Hfl Ho Hb. left. exists e. split; [done|].
    by apply (fire_engaged e _ _ _ _ f) in Hf.
Qed.

Lemma respond_keeps_accounted s i resp s' :
  tidy s → accounted s [] → respond s i resp = Ok s' → accounted s' [].
Proof.
  intros Ht Hs [->|(e & q & s1 & l & Hi & He & Hf & Hd)]%respond_inv; [done|].
  eapply accounted_dispatches; [|..|exact Hd].
  { eapply react_tidy; [exact He| |by apply tidy_delete_flying|exact Hf].
    exact (flying_subscribed s i _ q Ht Hi). }
  eapply (accounted_turn e s); [done|by apply (react_store _ _ _ _ _ Hf)|done| |..].
  - intros n Hn. instantiate (1 := { s with flying := delete i (flying s) }).
    unfold engaged. simpl. unfold constant. pose proof (fst_delete_other _ _ _ _ _ Hi Hn). tauto.
  - intros n Hn. by apply (react_engaged_other _ _ _ _ _ _ Hn Hf).
  - intros f Hfl Ho Hb. destruct (receive e q resp) as [r|[]] eqn:Hr; [| |done].
    + destruct (raised_receive _ _ _ _ _ Hfl Ho Hr) as [?|[[??]|(a & Ha & Hla)]].
      * left. exists e. split; [done|]. by eapply react_ends.
      * left. exists e. split; [done|]. by eapply react_sends.
      * right. exists a. split; [|done]. unfold react in Hf. by simplify_eq.
    + left. exists e. split; [done|]. by eapply react_fails.
Qed.

Lemma step_accounted s s' : tidy s → accounted s [] → step s s' → accounted s' [].
Proof.
  intros Ht Hs H. destruct H; eauto using elapse_keeps_accounted, respond_keeps_accounted.
  eapply (accounted_dispatches s [a]); [done| |simpl; by match goal with H : _ = Ok _ |- _ => rewrite H end].
  intros f Hf Hb. by apply accounts_nil, Hs.
Qed.

(** Whatever the page, the server and the timers do: a raised flag has a
    reason. *)
Lemma runs_accounted s s' : tidy s → accounted s [] → runs s s' → accounted s' [].
Proof.
  intros Ht Hs H. induction H; [done|].
  eapply step_accounted; [by eapply runs_tidy|by apply IHruns|done].
Qed.
End flags.

(** ** Proving that a store is a feature with cascades and flags *)

(** One goal for each element of a list. *)
Ltac each_elem He :=
  repeat (apply elem_of_cons in He as [->|He]); [..|by apply elem_of_nil in He].

(** Follow a computation that returned a value, branch by branch. *)
Ltac branches :=
  repeat (inv_res; match goal with
  | H : (if ?b then _ else _) = Ok _ |- _ =>
      lazymatch type of b with bool => destruct b eqn:? end
  end); inv_res.

(** [share_ok]: no effect emits more than its share. *)
Ltac solve_share :=
  let e := fresh "e" in let a := fresh "a" in let He := fresh "He" in
  let Hd := fresh "Hd" in let Hr := fresh "Hr" in let Hl := fresh "Hl" in
  intros e ? a ? He Hd Hr Hl; each_elem He; try discriminate Hd;
  destruct a; try discriminate Hl; cbn in Hr; branches; vm_compute; lia.

Ltac solve_weight := let a := fresh "a" in intros a; destruct a; vm_compute; lia.

Ltac solve_cascade :=
  [> by apply (bool_decide_unpack _); vm_compute | solve_share | solve_weight ].

Lemma caught_inv {A} (ok failed : _ → res (Reaction A)) resp r :
  caught ok failed resp = Ok r → (∃ bodies, ok bodies = Ok r) ∨ (∃ error, failed error = Ok r).
Proof.
  unfold caught, rescue. destruct resp as [bodies|error]; [|by right; exists error].
  destruct (ok bodies) as [x|[]] eqn:Hx; intros H; [|by right; exists thrown|done].
  left. exists bodies. by rewrite Hx.
Qed.

Lemma uncaught_inv {A} (ok : _ → res (Reaction A)) resp r :
  uncaught ok resp = Ok r → ∃ bodies, ok bodies = Ok r.
Proof. destruct resp; [by eexists|done]. Qed.

Ltac solve_owner :=
  let Hf := fresh "Hf" in let He := fresh "He" in
  intros ? ? Hf He; each_elem Hf; cbn [owners] in He; each_elem He;
  apply list_elem_of_In; simpl; tauto.

(** To look at the flags of a state once, not once per flag. *)
Lemma by_values {B} (P : B → bool → Prop) (g : B → bool) l :
  Forall2 P l (map g l) → ∀ x, x ∈ l → P x (g x).
Proof.
  induction l as [|x l IH]; simpl; intros H y Hy; [by apply elem_of_nil in Hy|].
  inversion H; subst. apply elem_of_cons in Hy as [->|Hy]; [done|]. by apply IH.
Qed.

(** [raised_reduce]: an action raises a flag, lowers it or leaves it. *)
Ltac solve_raised :=
  let Hf := fresh "Hf" in let Hr := fresh "Hr" in let Hb := fresh "Hb" in
  intros f st a st' Hf Hr; revert f Hf; destruct a; cbn in Hr; branches;
  lazymatch goal with
  | |- ∀ f, _ → _ → _ ∨ (raised f ?st = true ∧ of_type _ ?a = _) =>
      refine (by_values (λ f b, b = true →
        listening f a = true ∨ (raised f st = true ∧ of_type (lowered_by f) a = false)) _ _ _)
  end;
  match goal with |- Forall2 _ _ ?l => let l' := eval lazy in l in change l with l' end;
  repeat (apply List.Forall2_cons;
    [intros Hb; first [left; reflexivity|right; split; [exact Hb|reflexivity]|discriminate Hb]|]);
  apply List.Forall2_nil.

(** [raised_run]: an effect that owns a flag does not ignore its actions. *)
Ltac solve_run :=
  let Hf := fresh "Hf" in let Hl := fresh "Hl" in let Ho := fresh "Ho" in
  let He := fresh "He" in
  intros ? ? ? a ? Hf He Hl Ho _; each_elem Hf; cbn [owners] in He; each_elem He;
  destruct a; try discriminate Hl;
  cbn in Ho; branches; eexists; (split; [reflexivity|split; [by eexists|done]]).

(** [raised_receive]: every answer lowers the flag. *)
Ltac solve_receive :=
  let Hf := fresh "Hf" in let Hr := fresh "Hr" in
  let He := fresh "He" in
  intros ? ? ? ? ? Hf He Hr; each_elem Hf; cbn [owners] in He; each_elem He;
  cbn [receive] in Hr;
  first [apply caught_inv in Hr as [[? Hr]|[? Hr]]|destruct (_ : Response); [|discriminate Hr]];
  unfold with_data, succeeds, fails, fails_whole, fails_with, fails_telling in Hr;
  cbn in Hr; try (destruct (stage _) in Hr); branches;
  first [ right; right; eexists; (split; [apply list_elem_of_here|reflexivity])
        | left; reflexivity
        | right; left; (split; [by eexists|done]) ].

Ltac solve_flags :=
  [> abstract solve_owner | abstract solve_raised | abstract solve_run | abstract solve_receive ].
