(* ===== verification/Grid.v ===== *)
(** * Grids: paged lists with their effects

    A grid shows the rows of the pages loaded so far for the current filters,
    search and sorting.  Two effects keep it up to date: the pager, which
    waits for a pause and sends the request for a page, and the refresher,
    which asks for the first page when what is shown must change.  [Grid]
    states what a store and its effects promise; the theorem, proved once
    against it, is that a grid that waits for nothing shows the rows the
    server has for the current query.  *)

From S2P Require Import Prelude JsValue Models Paging.
From S2P Require Import Effects EffectsFacts Queries EffectsFlags.

(** What an action is to the grid. *)
Inductive Role :=
| Calm                                 (* changes neither the rows nor the query *)
| Refilter                             (* may change the query *)
| Fetch (page : Z)
| Loaded (data : val) (page : Z)
| Missed                               (* a request for a page failed *)
| Wild.                                (* changes the query behind the grid's back *)

#[export] Instance refilter_dec (r : Role) : Decision (r = Refilter).
Proof. destruct r; first [by left|by right]. Defined.

#[export] Instance fetch_dec (r : Role) p : Decision (r = Fetch p).
Proof.
  destruct r as [| |p'| | |]; try by right.
  refine (cast_if (decide (p' = p))); congruence.
Defined.

(** What effects other than the pager may emit. *)
Definition quiet (r : Role) : Prop := r = Calm ∨ r = Fetch 1.

Definition page_request (method : string) (query : val) (page : Z) : Request :=
  mkRequest 0 [vint page] [mkCall method [query]].

Class Grid (S A : Type) `{HF : !Feature S A} := {
  pager : Effect S A;
  refresher : Effect S A;
  role : A → Role;
  page_of : S → Page;
  conv : val → res val;
  items : string;
  service : string;
  full : S → Z → val;                  (* the query of a page *)
  pager_effect : pager ∈ effects;
  refresher_effect : refresher ∈ effects;
  pager_not_refresher : name pager ≠ name refresher;
  pager_debounced : debounced pager = true;
  pager_switches : merged pager = false;
  pager_listens a p : role a = Fetch p → listens pager a = true;
  pager_hears a : listens pager a = true → role a = Wild ∨ ∃ p, role a = Fetch p;
  refresher_listens a : role a = Refilter → listens refresher a = true;
  refresher_hears a : listens refresher a = true → role a = Refilter;
  pager_run st a p : role a = Fetch p →
    match run pager st a with
    | Ok o => o = Some (asks [vint p] [mkCall service [full st p]])
    | Throw x => x = Unsupported
    end;
  pager_answered q b data p : get b "data" = Ok data → captured q = [vint p] →
    ∃ a, receive pager q (Answered [b]) = Ok (emits [a]) ∧ role a = Loaded data p;
  pager_failed q error : ∃ a, receive pager q (Failed error) = Ok (emits [a]) ∧ role a = Missed;
  refresher_run st a : ∃ l,
    run refresher st a = Ok (Some (emits l)) ∧ Forall (λ a, quiet (role a)) l ∧
    ∃ a, a ∈ l ∧ role a = Fetch 1;
  refresher_receive q resp : receive refresher q resp = Ok (emits []);
  others_run e st a r : e ∈ effects → name e ≠ name pager →
    run e st a = Ok (Some r) → Forall (λ a, quiet (role a)) (emitted r);
  others_receive e q resp r : e ∈ effects → name e ≠ name pager →
    receive e q resp = Ok r → Forall (λ a, quiet (role a)) (emitted r);
  reduce_page st a st' : reducing st a = Ok st' →
    match role a with
    | Loaded data p => fetchPage conv items data p (page_of st) = Ok (page_of st')
    | Wild => True
    | Refilter => pageRows (page_of st') = pageRows (page_of st) ∧
        (pageNo (page_of st') = pageNo (page_of st) ∨ pageNo (page_of st') = vint 1)
    | _ => pageRows (page_of st') = pageRows (page_of st) ∧
        pageNo (page_of st') = pageNo (page_of st)
    end;
  reduce_full st a st' i : reducing st a = Ok st' → role a ≠ Refilter → role a ≠ Wild →
    full st' i = full st i
}.

Section grid.
Context {S A : Type} `{HF : !Feature S A} `{HC : !Cascade S A} `{HG : !Grid S A}.
Implicit Types (s : Session S A) (e : Effect S A) (n : string) (a : A) (st : S).

(** ** The server *)

(** The rows the server has for a query; after an empty page come only empty
    pages. *)
Context (server : val → list val).
Context (server_ends : ∀ st i, (1 ≤ i)%Z → server (full st i) = [] → server (full st (i + 1)) = []).

(** The server answers a page request with the rows it has. *)
Definition honest (q : Request) (resp : Response) : Prop :=
  ∃ c x b data, calls q = [mkCall c [x]] ∧ resp = Answered [b] ∧ get b "data" = Ok data ∧
    answer conv items data (server x).

Definition pages st (k : nat) : list val :=
  mjoin ((λ i, server (full st (Z.of_nat i))) <$> seq 1 k).

(** ** Browsing *)

(** The grid waits for nothing. *)
Definition settled s : Prop :=
  name pager ∉ (timers s).*1 ∧ name refresher ∉ (timers s).*1 ∧ name pager ∉ (flying s).*1.

(** A user who scrolls only when the grid waits for nothing, and a server that
    answers page requests truthfully; whatever else happens, in any order. *)
Inductive browse : Session S A → Session S A → Prop :=
| browse_command s a s' :
    role a = Calm ∨ role a = Refilter ∨ role a = Fetch 1 → dispatch s a = Ok s' → browse s s'
| browse_scroll s a k s' :
    settled s → pageNo (page_of (store s)) = vint k → role a = Fetch (k + 1) →
    dispatch s a = Ok s' → browse s s'
| browse_elapse s i s' : elapse s i = Ok s' → browse s s'
| browse_page s i q resp s' :
    flying s !! i = Some (name pager, q) → honest q resp → respond s i resp = Ok s' → browse s s'
| browse_missed s i q error p s' :
    flying s !! i = Some (name pager, q) → captured q = [vint p] → p ≠ 1%Z →
    respond s i (Failed error) = Ok s' → browse s s'
| browse_other s i n q resp s' :
    flying s !! i = Some (n, q) → n ≠ name pager → respond s i resp = Ok s' → browse s s'.

Inductive browses : Session S A → Session S A → Prop :=
| browses_refl s : browses s s
| browses_step s s1 s' : browses s s1 → browse s1 s' → browses s s'.

(** The rows shown are those of the pages up to the current one. *)
Definition shown st : Prop :=
  ∃ k : nat, pageNo (page_of st) = vint (Z.of_nat k) ∧ pageRows (page_of st) = VArr (pages st k).

(** ** Pages *)

Lemma pages_S st k : pages st (Datatypes.S k) = pages st k ++ server (full st (Z.of_nat k + 1)).
Proof.
  unfold pages. rewrite seq_S, fmap_app, join_app. simpl. rewrite app_nil_r. do 3 f_equal. lia.
Qed.

Lemma pages_full st st' k : (∀ i, full st' i = full st i) → pages st' k = pages st k.
Proof. intros H. unfold pages. f_equal. apply list_fmap_ext. intros ? x _. by rewrite H. Qed.

Lemma pages_nil st k : server (full st 1) = [] → pages st k = [].
Proof.
  intros H1. assert (∀ j : nat, server (full st (Z.of_nat j + 1)) = []) as Hall.
  { induction j as [|j IH]; [done|]. replace (Z.of_nat (Datatypes.S j) + 1)%Z with ((Z.of_nat j + 1) + 1)%Z by lia.
    apply server_ends; [lia|done]. }
  induction k as [|k IH]; [done|]. by rewrite pages_S, IH, Hall.
Qed.

(** ** The invariant *)

(** The first page will be asked for again. *)
Definition due s (q : list A) : Prop :=
  name refresher ∈ (timers s).*1 ∨ (∃ a, (name pager, a) ∈ timers s ∧ role a = Fetch 1) ∨
  ∃ a, a ∈ q ∧ (role a = Refilter ∨ role a = Fetch 1).

Definition request st (p : Z) : Request := page_request service (full st p) p.

(** What the grid waits for, when the first page is not due: nothing, the
    pause before the next page is asked for, or one page of the current query. *)
Definition waits s : Prop :=
  name refresher ∉ (timers s).*1 ∧
  ∃ k : nat, pageNo (page_of (store s)) = vint (Z.of_nat k) ∧
    let now := pageRows (page_of (store s)) = VArr (pages (store s) k) in
    let next := (Z.of_nat k + 1)%Z in
    (now ∧ name pager ∉ (flying s).*1 ∧
       ∀ a, (name pager, a) ∈ timers s → role a = Fetch next) ∨
    (name pager ∉ (timers s).*1 ∧ ∃ p, (p = 1%Z ∨ now ∧ p = next) ∧
       (name pager, request (store s) p) ∈ flying s).

(** What holds in any case. *)
Definition sound s : Prop :=
  tidy s ∧ name pager ∈ subscribed s ∧ name refresher ∈ subscribed s ∧
  (∃ old, pageRows (page_of (store s)) = VArr old) ∧
  (∃ k : nat, pageNo (page_of (store s)) = vint (Z.of_nat k)) ∧
  (∀ a, (name pager, a) ∈ timers s → ∃ p, (1 ≤ p)%Z ∧ role a = Fetch p) ∧
  (∀ q, (name pager, q) ∈ flying s → ∃ p x, (1 ≤ p)%Z ∧ q = page_request service x p).

Definition asked s (q : list A) : Prop :=
  sound s ∧ Forall (λ a, quiet (role a) ∨ role a = Refilter) q ∧ (due s q ∨ waits s).

(** The next page may be asked for. *)
Definition ready s (p : Z) : Prop :=
  settled s ∧ ∃ k : nat, pageNo (page_of (store s)) = vint (Z.of_nat k) ∧
    pageRows (page_of (store s)) = VArr (pages (store s) k) ∧ p = (Z.of_nat k + 1)%Z.

(** While the effects see an action. *)
Definition asking a s (q : list A) (ns : list string) : Prop :=
  sound s ∧ Forall (λ a, quiet (role a) ∨ role a = Refilter) q ∧
  (∀ p, role a = Fetch p → name pager ∈ ns → p = 1%Z ∨ ready s p) ∧
  (due s q ∨ waits s ∨ (role a = Fetch 1 ∧ name pager ∈ ns) ∨
   (role a = Refilter ∧ name refresher ∈ ns)).

(** ** What does not concern the grid *)

(** Nothing changes for an effect. *)
Definition same n s s' : Prop :=
  (∀ a, (n, a) ∈ timers s' ↔ (n, a) ∈ timers s) ∧ (∀ q, (n, q) ∈ flying s' ↔ (n, q) ∈ flying s) ∧
  (n ∈ subscribed s → n ∈ subscribed s').

(** Nothing changes for an effect that holds no requests. *)
Definition held n s s' : Prop :=
  (∀ a, (n, a) ∈ timers s' ↔ (n, a) ∈ timers s) ∧ (n ∈ subscribed s → n ∈ subscribed s').

Lemma same_held n s s' : same n s s' → held n s s'.
Proof. unfold same, held. tauto. Qed.

Lemma same_keys {B} n (l l' : list (string * B)) :
  (∀ b, (n, b) ∈ l' ↔ (n, b) ∈ l) → n ∈ l'.*1 ↔ n ∈ l.*1.
Proof.
  intros H. rewrite !list_elem_of_fmap. split; intros ([n' b] & -> & Hin).
  - exists (n', b). by rewrite <-H.
  - exists (n', b). by rewrite H.
Qed.

Lemma same_trans n s1 s2 s3 : same n s1 s2 → same n s2 s3 → same n s1 s3.
Proof. unfold same. naive_solver. Qed.

Lemma same_release e s n : n ≠ name e → same n s (release e s).
Proof.
  intros Hn. split; [done|]. split; [|done]. intros q. simpl. unfold constant, unsubscribe.
  destruct (merged e); [done|]. rewrite list_elem_of_filter. unfold operator. simpl. naive_solver.
Qed.

Lemma same_launch e o s n : n ≠ name e → same n s (launch e o s).
Proof.
  intros Hn. destruct o as [q0|]; [|by split]. split; [done|]. split; [|done]. intros q. simpl.
  unfold constant, unsubscribe. rewrite elem_of_app, list_elem_of_singleton.
  destruct (merged e); [naive_solver|]. rewrite list_elem_of_filter. unfold operator. simpl.
  naive_solver.
Qed.

Lemma same_tear_down e s n : n ≠ name e → same n s (tear_down e s).
Proof.
  intros Hn. unfold same, tear_down. simpl. unfold constant.
  setoid_rewrite list_elem_of_filter. simpl. naive_solver.
Qed.

Lemma same_resubscribe e s n : n ≠ name e → same n s (resubscribe e s).
Proof.
  intros Hn. destruct (same_tear_down e s n Hn) as (Ht & Hf & Hs). split; [done|]. split; [done|].
  intros Hin. by apply resubscribe_keeps.
Qed.

Lemma react_same e m s s' l n : n ≠ name e → react e m s = Ok (s', l) → same n s s'.
Proof.
  unfold react. intros Hn H. destruct m as [r|[]]; [| |done].
  - injection H as <- _. apply same_trans with (launch e (sent r) s); [by apply same_launch|].
    destruct (next r); [done|by apply (same_tear_down e (launch e (sent r) s))|].
    by apply (same_resubscribe e (launch e (sent r) s)).
  - destruct (restart e s) as [s1|] eqn:Hr; cbn [mbind res_bind] in H; [|done].
    injection H as <- _. apply restart_Ok in Hr as ->. by apply (same_resubscribe e s).
Qed.

Lemma fire_same e s a s' l n : n ≠ name e → fire e s a = Ok (s', l) → same n s s'.
Proof.
  unfold fire. intros Hn H. destruct (run e (store s) a) as [[r|]|x].
  - eapply same_trans; [by apply same_release|by eapply react_same].
  - by injection H as <- _.
  - by eapply react_same.
Qed.

Lemma sound_same s s' :
  tidy s' → store s' = store s → same (name pager) s s' →
  (name refresher ∈ subscribed s → name refresher ∈ subscribed s') → sound s → sound s'.
Proof.
  intros Ht Hst Hp Hr (_ & H1 & H2 & H3 & H4 & H5 & H6). unfold sound. rewrite Hst. split_and!; try done.
  - by apply Hp.
  - by apply Hr.
  - intros a Ha. by apply H5, Hp.
  - intros q Hq. by apply H6, Hp.
Qed.

Section same.
Context s s' (Hst : store s' = store s).
Context (Hp : same (name pager) s s') (Hr : held (name refresher) s s').

Lemma due_same q l : due s q → due s' (q ++ l).
Proof using Hp Hr.
  unfold due. rewrite (same_keys _ (timers s) (timers s')) by apply Hr.
  destruct Hp as [Ht _]. setoid_rewrite Ht. setoid_rewrite elem_of_app. naive_solver.
Qed.

Lemma waits_same : waits s → waits s'.
Proof using Hst Hp Hr.
  unfold waits. rewrite Hst, (same_keys _ (timers s) (timers s')) by apply Hr.
  destruct Hp as (Ht & Hf & _). setoid_rewrite (same_keys _ (timers s) (timers s') Ht).
  setoid_rewrite (same_keys _ (flying s) (flying s') Hf). setoid_rewrite Ht. by setoid_rewrite Hf.
Qed.

Lemma settled_same : settled s → settled s'.
Proof using Hp Hr.
  unfold settled. rewrite (same_keys _ (timers s) (timers s')) by apply Hp.
  rewrite (same_keys _ (flying s) (flying s')) by apply Hp.
  by rewrite (same_keys _ (timers s) (timers s')) by apply Hr.
Qed.

Lemma ready_same p : ready s p → ready s' p.
Proof using Hst Hp Hr. intros [Hs H]. split; [by apply settled_same|by rewrite Hst]. Qed.
End same.

Lemma emitted_react e m s s' l :
  react e m s = Ok (s', l) → l = match m with Ok r => emitted r | Throw _ => [] end.
Proof.
  unfold react. intros H. destruct m as [r|[]]; [by simplify_eq| |done].
  destruct (restart e s); cbn [mbind res_bind] in H; by simplify_eq.
Qed.

Lemma fire_quiet e s a s' l :
  e ∈ effects → name e ≠ name pager → fire e s a = Ok (s', l) → Forall (λ a, quiet (role a)) l.
Proof.
  unfold fire. intros He Hn H. destruct (run e (store s) a) as [[r|]|x] eqn:Hr.
  - rewrite (emitted_react _ _ _ _ _ H). by eapply others_run.
  - injection H as _ <-. constructor.
  - rewrite (emitted_react _ _ _ _ _ H). constructor.
Qed.

(** ** The effects see an action *)

Lemma asking_same a s s' q l ns n :
  n ∉ ns → tidy s' → store s' = store s → same (name pager) s s' → held (name refresher) s s' →
  n ≠ name pager → (n = name refresher → role a ≠ Refilter) →
  Forall (λ a, quiet (role a)) l → asking a s q (n :: ns) → asking a s' (q ++ l) ns.
Proof.
  intros Hn Ht Hst Hp Hr Hnp Hnr Hl (Hs & Hq & Hf & Hd). split; [eapply sound_same; [done..|apply Hr|done]|].
  split; [apply Forall_app; split; [done|eapply Forall_impl; [exact Hl|naive_solver]]|].
  split; [intros p Hpr Hin; destruct (Hf p Hpr) as [?|?]; [by apply list_elem_of_further|by left|
    right; by eapply ready_same]|].
  destruct Hd as [Hd|[Hw|[[Ha Hin]|[Ha Hin]]]].
  - left. by eapply due_same.
  - right. left. by eapply waits_same.
  - right. right. left. split; [done|]. apply elem_of_cons in Hin as [<-|Hin]; [by destruct Hnp|done].
  - right. right. right. split; [done|]. apply elem_of_cons in Hin as [<-|Hin]; [by destruct Hnr|done].
Qed.

Lemma same_timer_snoc n n' s a :
  n ≠ n' → same n s { s with timers := filter (λ na, na.1 ≠ n') (timers s) ++ [(n', a)] }.
Proof.
  intros Hn. unfold same. simpl. unfold constant. setoid_rewrite elem_of_app.
  setoid_rewrite list_elem_of_filter. setoid_rewrite list_elem_of_singleton. naive_solver.
Qed.

(** The pager starts its pause. *)
Lemma asking_pager a s q ns p :
  name pager ∉ ns → tidy { s with timers := filter (λ na, na.1 ≠ name pager) (timers s) ++ [(name pager, a)] } →
  role a = Fetch p → asking a s q (name pager :: ns) →
  asking a { s with timers := filter (λ na, na.1 ≠ name pager) (timers s) ++ [(name pager, a)] } q ns.
Proof.
  intros Hn Ht Ha (Hs & Hq & Hf & Hd).
  destruct (Hf p Ha (list_elem_of_here _ _)) as [->|[Hset (k & Hk & Hrows & Hkp)]].
  - split; [|split; [done|split; [|left; right; left]]].
    + destruct Hs as (_ & H1 & H2 & H3 & H4 & H5 & H6). refine (conj Ht (conj H1 (conj H2 (conj H3 (conj H4 (conj _ H6)))))).
      simpl. unfold constant. intros a' [[Hne _]%list_elem_of_filter|Hin]%elem_of_app; [by destruct Hne|].
      apply list_elem_of_singleton in Hin as [= ->]. by exists 1%Z.
    + intros p Hp Hin. done.
    + exists a. split; [|done]. simpl. unfold constant. apply elem_of_app. right.
      by apply list_elem_of_singleton.
  - assert (∀ a', (name pager, a') ∈ filter (λ na, na.1 ≠ name pager) (timers s) ++ [(name pager, a)] →
      role a' = Fetch p) as Hall.
    { intros a' [[Hne _]%list_elem_of_filter|Hin]%elem_of_app; [by destruct Hne|].
      by apply list_elem_of_singleton in Hin as [= ->]. }
    split; [|split; [done|split; [done|right; left]]].
    + destruct Hs as (_ & H1 & H2 & H3 & H4 & H5 & H6). refine (conj Ht (conj H1 (conj H2 (conj H3 (conj H4 (conj _ H6)))))).
      simpl. unfold constant. intros a' Hin. exists p. split; [lia|by apply Hall].
    + destruct Hset as (_ & Hr & Hfl). split.
      * simpl. unfold constant. rewrite fmap_app, elem_of_app.
        intros [Hin|Heq%list_elem_of_singleton]; [|by destruct pager_not_refresher]. destruct Hr.
        eapply elem_of_sublist; [|exact Hin]. apply fmap_sublist, sublist_filter.
      * exists k. split; [done|]. left. split; [done|]. split; [done|]. simpl. unfold constant.
        rewrite <-Hkp. exact Hall.
Qed.

(** The refresher asks for the first page, at once or after its pause. *)
Lemma fire_refresher s a s' l :
  fire refresher s a = Ok (s', l) → Forall (λ a, quiet (role a)) l ∧ ∃ a, a ∈ l ∧ role a = Fetch 1.
Proof.
  unfold fire. destruct (refresher_run (store s) a) as (l' & -> & Hl & Ha). intros H.
  rewrite (emitted_react _ _ _ _ _ H). by split.
Qed.

Lemma fire_refresher_subscribed s a s' l :
  fire refresher s a = Ok (s', l) → subscribed s' = subscribed s.
Proof.
  unfold fire. destruct (refresher_run (store s) a) as (l' & -> & _). unfold react, finish. simpl.
  by intros [= <- _].
Qed.

Lemma notify_asking a s n ns q s1 l :
  role a ≠ Wild → n ∉ ns → n ∈ subscribed s → tidy s → asking a s q (n :: ns) →
  notify s a n = Ok (s1, l) → asking a s1 (q ++ l) ns.
Proof.
  intros Hw Hn Hsub Ht Ha H. pose proof (notify_tidy _ _ _ _ _ Hsub Ht H) as [Ht1 Hk].
  unfold notify in H. destruct (effect_of n) as [e|] eqn:He; last first.
  { injection H as <- <-. assert (∀ e', e' ∈ effects → n ≠ name e') as Hne.
    { intros e' He' ->. by rewrite effect_of_name in He. }
    eapply (asking_same a s); [exact Hn|done..|apply Hne, pager_effect| |constructor|done].
    intros ->. by destruct (Hne refresher refresher_effect). }
  apply effect_of_Some in He as [He <-].
  destruct (decide (name e = name pager)) as [Hep|Hnp].
  { assert (e = pager) as -> by (apply effects_name_inj; [done|apply pager_effect|done]).
    destruct (listens pager a) eqn:Hl; last first.
    - injection H as <- <-. rewrite app_nil_r. destruct Ha as (Hs & Hq & Hf & Hd).
      split; [done|]. split; [done|]. split; [intros p Hp _; apply pager_listens in Hp; congruence|].
      destruct Hd as [?|[?|[[Hr _]|[Hr Hin]]]]; [auto..| |].
      + apply pager_listens in Hr. congruence.
      + right. right. right. split; [done|]. apply elem_of_cons in Hin as [Heq|]; [|done].
        by destruct pager_not_refresher.
    - destruct (pager_hears a Hl) as [|[p Hp]]; [done|]. rewrite pager_debounced in H.
      injection H as <- <-. rewrite app_nil_r. by eapply asking_pager. }
  destruct (decide (name e = name refresher)) as [Her|Hnr].
  { assert (e = refresher) as -> by (apply effects_name_inj; [done|apply refresher_effect|done]).
    destruct (listens refresher a) eqn:Hl; last first.
    - injection H as <- <-. eapply (asking_same a s); [exact Hn|done..| |constructor|done].
      intros _ Hr. apply refresher_listens in Hr. congruence.
    - destruct Ha as (Hs & Hq & Hf & _). destruct (debounced refresher).
      + injection H as <- <-. rewrite app_nil_r. split; [|split; [done|split]].
        * eapply (sound_same s); [done|done|by apply same_timer_snoc|done|done].
        * intros p Hp. apply refresher_hears in Hl. congruence.
        * left. left. simpl. unfold constant. rewrite fmap_app, elem_of_app. right.
          by apply list_elem_of_singleton.
      + destruct (fire_refresher _ _ _ _ H) as (Hql & b & Hb & Hrb). split; [|split; [|split]].
        * eapply (sound_same s); [done|by eapply fire_store|by eapply fire_same| |done].
          by rewrite (fire_refresher_subscribed _ _ _ _ H).
        * apply Forall_app. split; [done|]. eapply Forall_impl; [exact Hql|naive_solver].
        * intros p Hp. apply refresher_hears in Hl. congruence.
        * left. right. right. exists b. split; [apply elem_of_app; by right|by right]. }
  destruct (listens e a); [|injection H as <- <-; eapply (asking_same a s); [exact Hn|done..|constructor|done]].
  destruct (debounced e).
  - injection H as <- <-. eapply (asking_same a s); [exact Hn|done|done|by apply same_timer_snoc|by apply same_held, same_timer_snoc|done|done|constructor|done].
  - eapply (asking_same a s); [exact Hn|done|by eapply fire_store|by eapply fire_same|by eapply same_held, fire_same|done|done|by eapply fire_quiet|done].
Qed.

(** ** Actions *)

Lemma asked_of_asking a s q : asking a s q [] → asked s q.
Proof.
  intros (Hs & Hq & _ & Hd). split; [done|]. split; [done|].
  destruct Hd as [?|[?|[[_ []%elem_of_nil]|[_ []%elem_of_nil]]]]; auto.
Qed.

Lemma waits_reduce s st :
  pageRows (page_of st) = pageRows (page_of (store s)) →
  pageNo (page_of st) = pageNo (page_of (store s)) → (∀ i, full st i = full (store s) i) →
  waits s → waits { s with store := st }.
Proof.
  intros Hr Hn Hf [Hrt (k & Hk & H)]. split; [done|]. exists k. simpl. unfold constant.
  rewrite Hr, Hn, (pages_full (store s)) by done. split; [done|].
  unfold request in *. by setoid_rewrite Hf.
Qed.

Lemma ready_reduce s st p :
  pageRows (page_of st) = pageRows (page_of (store s)) →
  pageNo (page_of st) = pageNo (page_of (store s)) → (∀ i, full st i = full (store s) i) →
  ready s p → ready { s with store := st } p.
Proof.
  intros Hr Hn Hf [Hset (k & Hk & H)]. split; [done|]. exists k. simpl. unfold constant.
  by rewrite Hr, Hn, (pages_full (store s)) by done.
Qed.

Lemma sound_reduce s st :
  (∃ old, pageRows (page_of st) = VArr old) → (∃ k : nat, pageNo (page_of st) = vint (Z.of_nat k)) →
  sound s → sound { s with store := st }.
Proof.
  intros Hr Hn (Ht & H1 & H2 & _ & _ & H5 & H6).
  refine (conj _ (conj H1 (conj H2 (conj Hr (conj Hn (conj H5 H6)))))). by eapply tidy_ext.
Qed.

(** The commands of the page and what the effects emit. *)
Definition ordinary (r : Role) : Prop := r = Calm ∨ r = Refilter ∨ r = Missed ∨ ∃ p, r = Fetch p.

Lemma due_cons s st a q :
  role a ≠ Refilter → role a ≠ Fetch 1 → due s (a :: q) → due { s with store := st } q.
Proof.
  intros Hr Hf. unfold due. setoid_rewrite elem_of_cons. simpl. naive_solver.
Qed.

Lemma handle_asked s a q s' l :
  ordinary (role a) → sound s → Forall (λ a, quiet (role a) ∨ role a = Refilter) q →
  due s (a :: q) ∨ waits s → (∀ p, role a = Fetch p → p = 1%Z ∨ ready s p) →
  handle s a = Ok (s', l) → asked s' (q ++ l).
Proof.
  unfold handle. intros Ha Hs Hq Hd Hf H.
  destruct (reducing (store s) a) as [st|] eqn:Hr; cbn [mbind res_bind] in H; [|done].
  pose proof (reduce_page _ _ _ Hr) as Hpage.
  assert (role a ≠ Wild) as Hw by (by destruct Ha as [->|[->|[->|[? ->]]]]).
  assert (sound { s with store := st }) as Hs1.
  { pose proof Hs as (_ & _ & _ & Hrows & [k Hk] & _). apply sound_reduce; [| |done].
    - destruct Ha as [Ha|[Ha|[Ha|[p Ha]]]]; rewrite Ha in Hpage; destruct Hpage as [-> _]; done.
    - destruct Ha as [Ha|[Ha|[Ha|[p Ha]]]]; rewrite Ha in Hpage;
        [exists k; by destruct Hpage as [_ ->]| |exists k; by destruct Hpage as [_ ->]..].
      destruct Hpage as [_ [->| ->]]; [by exists k|by exists 1]. }
  assert (asking a { s with store := st } q (subscribed s)) as Hask.
  { split; [done|]. split; [done|]. destruct (decide (role a = Refilter)) as [Ha'|Ha'].
    { split; [intros p Hp; congruence|]. right. right. right. split; [done|]. apply Hs. }
    assert (pageRows (page_of st) = pageRows (page_of (store s)) ∧
      pageNo (page_of st) = pageNo (page_of (store s))) as [Hrows Hno].
    { by destruct Ha as [Ha|[Ha|[Ha|[p Ha]]]]; rewrite Ha in Hpage. }
    assert (∀ i, full st i = full (store s) i) as Hfull by (intros i; by eapply reduce_full).
    split; [intros p Hp _; destruct (Hf p Hp); [by left|right; by apply ready_reduce]|].
    destruct (decide (role a = Fetch 1)) as [Ha1|Ha1].
    { right. right. left. split; [done|]. apply Hs. }
    destruct Hd as [Hd|Hd]; [left; by eapply due_cons|right; left; by apply waits_reduce]. }
  eapply (notify_all_inv (asking a)) in H as [_ H]; [by eapply asked_of_asking| |apply Hs|done|apply Hs1|done].
  intros s0 n ns q0 s1 l1. by apply notify_asking.
Qed.

Lemma asked_cons_handle s a q s' l :
  asked s (a :: q) → handle s a = Ok (s', l) → asked s' (q ++ l).
Proof.
  intros (Hs & [Ha Hq]%Forall_cons & Hd). apply handle_asked; [|done..|].
  - unfold ordinary. destruct Ha as [[Ha|Ha]|Ha]; eauto.
  - intros p Hp. left. destruct Ha as [[Ha|Ha]|Ha]; congruence.
Qed.

Lemma asked_perm s q q' : q ≡ₚ q' → asked s q → asked s q'.
Proof.
  intros Hq (Hs & Hf & Hd). split; [done|]. split; [by rewrite <-Hq|].
  destruct Hd as [Hd|Hw]; [left|by right]. revert Hd. unfold due. by setoid_rewrite Hq.
Qed.

Lemma asked_dispatches s l s' : asked s l → foldM dispatch s l = Ok s' → asked s' [].
Proof.
  intros Hs H. apply (dispatches_inv asked) in H as [_ H]; [done| |apply asked_perm|apply Hs|done].
  intros s0 a q s1 l0 _. apply asked_cons_handle.
Qed.

(** A first action that is not one of those the effects emit. *)
Lemma dispatch_handle s a s' :
  tidy s → dispatch s a = Ok s' → ∃ s1 l, handle s a = Ok (s1, l) ∧ drains s1 l (Ok s').
Proof.
  intros Ht H. pose proof (dispatch_drains s a Ht) as Hd. rewrite H in Hd.
  inversion Hd as [| |? ? ? s1 l ? Hh Hl]; subst. by exists s1, l.
Qed.

Lemma asked_drains s l s' : asked s l → drains s l (Ok s') → asked s' [].
Proof.
  intros Hs H. refine (proj2 (drains_inv asked s l [] s' _ asked_perm _ _ H)).
  - intros s0 a q s1 l0 _. apply asked_cons_handle.
  - apply Hs.
  - by rewrite app_nil_r.
Qed.

(** ** A page arrives *)

(** When the awaited page arrives, what is shown is right; a page nobody waits
    for arrives while the first page is due. *)
Lemma handle_loaded s a data p rows s' l :
  sound s → role a = Loaded data p → (1 ≤ p)%Z → answer conv items data rows →
  due s [] ∨ (name refresher ∉ (timers s).*1 ∧ name pager ∉ (timers s).*1 ∧
     name pager ∉ (flying s).*1 ∧ rows = server (full (store s) p) ∧
     ∃ k : nat, pageNo (page_of (store s)) = vint (Z.of_nat k) ∧
       (p = 1%Z ∨ pageRows (page_of (store s)) = VArr (pages (store s) k) ∧ p = (Z.of_nat k + 1)%Z)) →
  handle s a = Ok (s', l) → asked s' l.
Proof.
  unfold handle. intros Hs Ha Hp Hans Hd H.
  destruct (reducing (store s) a) as [st|] eqn:Hr; cbn [mbind res_bind] in H; [|done].
  pose proof (reduce_page _ _ _ Hr) as Hpage. rewrite Ha in Hpage.
  assert (∀ i, full st i = full (store s) i) as Hfull.
  { intros i. eapply reduce_full; [exact Hr|congruence|congruence]. }
  pose proof Hs as (_ & _ & _ & [old Hold] & [k0 Hk0] & _).
  destruct (fetchPage_answer _ _ _ _ _ _ _ _ Hans Hold Hpage) as (Hrows & Hno & _).
  assert (∃ k : nat, pageNo (page_of st) = vint (Z.of_nat k)) as Hno'.
  { rewrite Hno. case_bool_decide; [by exists k0|]. exists (Z.to_nat p). f_equal. lia. }
  assert (sound { s with store := st }) as Hs1 by (apply sound_reduce; [by eexists|done|done]).
  assert (asking a { s with store := st } [] (subscribed s)) as Hask.
  { split; [done|]. split; [constructor|]. split; [congruence|].
    destruct Hd as [Hd|(H1 & H2 & H3 & -> & k & Hk & Hcase)]; [by left|right; left].
    split; [done|]. simpl. unfold constant. rewrite Hk in Hno.
    assert (∀ j, pages st j = pages (store s) j) as Hpages by (intros j; by apply pages_full).
    assert (∃ j : nat, pageNo (page_of st) = vint (Z.of_nat j) ∧
              pageRows (page_of st) = VArr (pages (store s) j)) as (j & Hj & Hjr).
    { destruct Hcase as [->|[Hnow ->]].
      - rewrite bool_decide_eq_true_2 in Hrows by done. case_bool_decide as Hnil.
        + exists k. rewrite Hno, Hrows, Hnil, pages_nil by done. done.
        + exists 1. rewrite Hno, Hrows. split; [done|]. by rewrite (pages_S _ 0).
      - rewrite Hold in Hnow. injection Hnow as ->. destruct (decide (k = 0)) as [->|Hk1].
        + rewrite bool_decide_eq_true_2 in Hrows by done. case_bool_decide as Hnil.
          * exists 0. by rewrite Hno, Hrows, Hnil.
          * exists 1. rewrite Hno, Hrows. split; [done|]. by rewrite (pages_S _ 0).
        + rewrite bool_decide_eq_false_2, <-pages_S in Hrows by lia. case_bool_decide as Hnil.
          * exists k. rewrite pages_S, Hnil, app_nil_r in Hrows. done.
          * exists (Datatypes.S k). rewrite Hno, Hrows. split; [f_equal; lia|done]. }
    exists j. rewrite Hpages. split; [done|]. left. split; [done|]. split; [done|].
    intros b Hb. destruct H2. apply (list_elem_of_fmap_2 fst _ (name pager, b)), Hb. }
  eapply (notify_all_inv (asking a) _ a _ []) in H as [_ H];
    [by apply asked_of_asking in H| |apply Hs|done|apply Hs1|done].
  intros s0 n ns q0 s1 l1. apply notify_asking. congruence.
Qed.

(** ** Steps *)

Lemma same_refl n s s' :
  timers s' = timers s → flying s' = flying s → subscribed s' = subscribed s → same n s s'.
Proof. intros Ht Hf Hs. unfold same. rewrite Ht, Hf, Hs. tauto. Qed.

Lemma same_delete_timer n n' s i a :
  timers s !! i = Some (n', a) → n ≠ n' → same n s { s with timers := delete i (timers s) }.
Proof.
  intros Hi Hn. split; [|by split]. intros b. simpl. unfold constant. split.
  - apply elem_of_sublist, sublist_delete.
  - intros Hb. eapply stays_in_delete; [exact Hi|done|congruence].
Qed.

Lemma same_delete_flying n n' s i q :
  flying s !! i = Some (n', q) → n ≠ n' → same n s { s with flying := delete i (flying s) }.
Proof.
  intros Hi Hn. split; [done|]. split; [|done]. intros b. simpl. unfold constant. split.
  - apply elem_of_sublist, sublist_delete.
  - intros Hb. eapply stays_in_delete; [exact Hi|done|congruence].
Qed.

Lemma asked_same s s' l :
  tidy s' → store s' = store s → same (name pager) s s' → held (name refresher) s s' →
  Forall (λ a, quiet (role a)) l → asked s [] → asked s' l.
Proof.
  intros Ht Hst Hp Hr Hl (Hs & _ & Hd). split; [|split].
  - by eapply sound_same; [| | |apply Hr|].
  - eapply Forall_impl; [exact Hl|naive_solver].
  - destruct Hd as [Hd|Hw]; [left; by apply (due_same s s' Hp Hr [] l)|right; by eapply waits_same].
Qed.

(** The only entry of a key goes with it. *)
Lemma key_deleted {B} (l : list (string * B)) i n b :
  NoDup l.*1 → l !! i = Some (n, b) → n ∉ (delete i l).*1.
Proof.
  intros Hnd Hi Hin. assert (l.*1 ≡ₚ n :: (delete i l).*1) as Hp.
  { rewrite <-(fmap_cons fst (n, b)). f_equiv. by apply delete_Permutation. }
  rewrite Hp in Hnd. by apply NoDup_cons in Hnd as [? _].
Qed.

Lemma key_unique {B} (l : list (string * B)) n b c :
  NoDup l.*1 → (n, b) ∈ l → (n, c) ∈ l → b = c.
Proof. intros Hnd Hb%(obj_get_NoDup _ _ _ Hnd) Hc%(obj_get_NoDup _ _ _ Hnd). congruence. Qed.

(** The pager sends its request. *)
Lemma fire_pager s a p s' l :
  role a = Fetch p → fire pager s a = Ok (s', l) →
  l = [] ∧ timers s' = timers s ∧ subscribed s' = subscribed s ∧
  (name pager, request (store s) p) ∈ flying s' ∧
  ∀ q, (name pager, q) ∈ flying s' → (name pager, q) ∈ flying s ∨ q = request (store s) p.
Proof.
  unfold fire. intros Ha H. pose proof (pager_run (store s) a p Ha) as Hr.
  destruct (run pager (store s) a) as [o|x] eqn:Hrun; [|by subst x].
  subst o. simpl in H. injection H as <- <-. split_and!; try done; simpl; unfold constant.
  - apply elem_of_app. right. by apply list_elem_of_singleton.
  - unfold unsubscribe. rewrite pager_switches.
    intros q [[_ [_ Hq]%list_elem_of_filter]%list_elem_of_filter|Hq]%elem_of_app; [by left|right].
    by apply list_elem_of_singleton in Hq as [= ->].
Qed.

Lemma elapse_asked s i s' : asked s [] → elapse s i = Ok s' → asked s' [].
Proof.
  intros Hs [->|(e & a & s1 & l & Hi & He & Hf & Hd)]%elapse_inv; [done|].
  eapply asked_dispatches; [|exact Hd]. clear Hd.
  pose proof Hs as ((Ht & Hsp & Hsr & Hrows & Hno & Htim & Hfly) & _ & Hdue).
  assert (name e ∈ subscribed s) as Hsub by by eapply timer_subscribed.
  assert (tidy s1) as Ht1.
  { refine (proj1 (fire_tidy e _ a s1 l He _ (tidy_delete_timer s i Ht) Hf)). exact Hsub. }
  pose proof (fire_store _ _ _ _ _ Hf) as Hst.
  destruct (decide (name e = name pager)) as [Hep|Hnp].
  { assert (e = pager) as -> by (apply effects_name_inj; [done|apply pager_effect|done]).
    destruct (Htim a (list_elem_of_lookup_2 _ _ _ Hi)) as (p & Hp1 & Hp).
    destruct (fire_pager _ _ _ _ _ Hp Hf) as (-> & Htm & Hsb & Hin & Hall).
    simpl in Htm, Hsb, Hin, Hall. unfold constant in *.
    assert (name pager ∉ (timers s1).*1) as Hgone by (rewrite Htm; eapply key_deleted; [apply Ht|exact Hi]).
    split; [|split; [constructor|]].
    - unfold sound. rewrite Hst, Hsb, Htm. simpl. unfold constant. split_and!; try done.
      + intros b Hb. apply Htim. eapply elem_of_sublist; [apply sublist_delete|exact Hb].
      + intros q [Hq|Hq]%Hall; [by apply Hfly|]. exists p, (full (store s) p). by split.
    - destruct (decide (name refresher ∈ (timers s1).*1)) as [Hr|Hr]; [left; by left|right].
      split; [done|]. rewrite Hst. simpl. unfold constant.
      assert (∀ b, (name pager, b) ∈ timers s → b = a) as Hone.
      { intros b Hb. eapply key_unique; [apply Ht|exact Hb|by eapply list_elem_of_lookup_2]. }
      destruct Hdue as [[Hd|[(b & Hb & Hrb)|(b & []%elem_of_nil & _)]]|[_ (k & Hk & Hcase)]].
      + destruct Hr. rewrite Htm. eapply fst_delete_other; [exact Hi| |exact Hd].
        intros Heq. by destruct pager_not_refresher.
      + rewrite (Hone b Hb), Hp in Hrb. injection Hrb as ->. destruct Hno as [k Hk].
        exists k. split; [done|]. right. split; [done|]. exists 1%Z. split; [by left|done].
      + exists k. split; [done|]. right. split; [done|]. exists p. split; [|done].
        destruct Hcase as [(Hnow & _ & Hnext)|[Hno' _]].
        * right. split; [done|]. specialize (Hnext a (list_elem_of_lookup_2 _ _ _ Hi)). congruence.
        * destruct Hno'. apply (list_elem_of_fmap_2 fst _ (name pager, a)).
          by eapply list_elem_of_lookup_2. }
  assert (same (name pager) s s1) as Hp.
  { eapply same_trans; [by eapply same_delete_timer|by eapply fire_same]. }
  destruct (decide (name e = name refresher)) as [Her|Hnr].
  { assert (e = refresher) as -> by (apply effects_name_inj; [done|apply refresher_effect|done]).
    destruct (fire_refresher _ _ _ _ Hf) as (Hql & b & Hb & Hrb). split; [|split].
    - eapply (sound_same s); [done|done|done| |by apply Hs].
      by rewrite (fire_refresher_subscribed _ _ _ _ Hf).
    - eapply Forall_impl; [exact Hql|naive_solver].
    - left. right. right. exists b. by split; [|right]. }
  eapply (asked_same s s1); [done|exact Hst|done| |by eapply fire_quiet|done].
  eapply same_held, same_trans; [by eapply same_delete_timer|by eapply fire_same].
Qed.

Lemma respond_other_asked s i n q resp s' :
  flying s !! i = Some (n, q) → n ≠ name pager → asked s [] → respond s i resp = Ok s' → asked s' [].
Proof.
  intros Hi0 Hn Hs [->|(e & q' & s1 & l & Hi & He & Hf & Hd)]%respond_inv; [done|].
  rewrite Hi0 in Hi. injection Hi as -> ->. eapply asked_dispatches; [|exact Hd]. clear Hd.
  pose proof Hs as ((Ht & _) & _).
  assert (name e ∈ subscribed s) as Hsub by by eapply flying_subscribed.
  assert (tidy s1) as Ht1.
  { refine (proj1 (react_tidy e _ _ s1 l He _ (tidy_delete_flying s i Ht) Hf)). exact Hsub. }
  assert (store s1 = store s) as Hst by (apply react_store in Hf; done).
  assert (Forall (λ a, quiet (role a)) l) as Hq.
  { rewrite (emitted_react _ _ _ _ _ Hf). destruct (receive e q' resp) eqn:Hr; [|constructor].
    by eapply others_receive. }
  assert (same (name pager) s s1) as Hp.
  { eapply same_trans; [by eapply same_delete_flying|by eapply react_same]. }
  destruct (decide (name e = name refresher)) as [Her|Hnr].
  { assert (e = refresher) as -> by (apply effects_name_inj; [done|apply refresher_effect|done]).
    rewrite refresher_receive in Hf. injection Hf as <- <-.
    by eapply (asked_same s). }
  eapply (asked_same s s1); [done|exact Hst|done| |done|done].
  eapply same_held, same_trans; [by eapply same_delete_flying|by eapply react_same].
Qed.

(** The request of the pager goes away when it is answered. *)
Lemma pager_flight_deleted s i q :
  sound s → flying s !! i = Some (name pager, q) → name pager ∉ (delete i (flying s)).*1.
Proof.
  intros (Ht & _ & _ & _ & _ & _ & Hfly) Hi Hin.
  destruct Ht as (_ & _ & _ & _ & _ & _ & Hone).
  specialize (Hone pager 0 pager_effect pager_switches).
  rewrite (delete_Permutation (flying s) i (name pager, q) Hi), filter_cons_True in Hone.
  2:{ destruct (Hfly q) as (p & x & _ & ->); [by eapply list_elem_of_lookup_2|done]. }
  apply list_elem_of_fmap in Hin as ([n q'] & Heq & Hin). simpl in Heq. subst n.
  assert ((name pager, q') ∈ filter (λ nq, operator nq = (name pager, 0)) (delete i (flying s))) as Hf.
  { apply list_elem_of_filter. split; [|done].
    destruct (Hfly q') as (p & x & _ & ->); [|done].
    eapply elem_of_sublist; [apply sublist_delete|exact Hin]. }
  simpl in Hone. destruct (filter _ (delete i (flying s))); [by apply elem_of_nil in Hf|].
  simpl in Hone. lia.
Qed.

Lemma sound_delete_flying s i : sound s → sound { s with flying := delete i (flying s) }.
Proof.
  intros (Ht & H1 & H2 & H3 & H4 & H5 & H6).
  refine (conj (tidy_delete_flying s i Ht) (conj H1 (conj H2 (conj H3 (conj H4 (conj H5 _)))))).
  intros q Hq. apply H6. eapply elem_of_sublist; [apply sublist_delete|exact Hq].
Qed.

Lemma request_inv st p x p' : request st p = page_request service x p' → p' = p ∧ x = full st p.
Proof. unfold request, page_request. intros [= Hx Hp]. done. Qed.

(** The awaited page is the only request of the pager. *)
Lemma waits_flight s i q :
  sound s → waits s → flying s !! i = Some (name pager, q) →
  name refresher ∉ (timers s).*1 ∧ name pager ∉ (timers s).*1 ∧
  ∃ (k : nat) p, pageNo (page_of (store s)) = vint (Z.of_nat k) ∧ q = request (store s) p ∧
    (p = 1%Z ∨ pageRows (page_of (store s)) = VArr (pages (store s) k) ∧ p = (Z.of_nat k + 1)%Z).
Proof.
  intros Hs [Hr (k & Hk & [(_ & Hno & _)|(Ht & p & Hp & Hin)])] Hi.
  { destruct Hno. apply (list_elem_of_fmap_2 fst _ (name pager, q)). by eapply list_elem_of_lookup_2. }
  split; [done|]. split; [done|]. exists k, p. split; [done|]. split; [|done].
  apply list_elem_of_lookup in Hin as [j Hj].
  destruct (decide (j = i)) as [->|Hne]; [congruence|].
  destruct (pager_flight_deleted s i q Hs Hi).
  apply (list_elem_of_fmap_2 fst _ (name pager, request (store s) p)).
  by eapply lookup_in_delete.
Qed.

Lemma respond_page_asked s i q resp s' :
  flying s !! i = Some (name pager, q) → honest q resp →
  asked s [] → respond s i resp = Ok s' → asked s' [].
Proof.
  intros Hi0 (c & x & b & data & Hc & -> & Hb & Hans) Hs
    [->|(e & q' & s1 & l & Hi & He & Hf & Hd)]%respond_inv; [done|].
  rewrite Hi0 in Hi. injection Hi as Hn <-. pose proof Hs as (Hso & _ & Hdue).
  assert (e = pager) as -> by (apply effects_name_inj; [done|apply pager_effect|done]).
  pose proof Hso as (_ & _ & _ & _ & _ & _ & Hfly).
  destruct (Hfly q) as (p & y & Hp & Hq); [by eapply list_elem_of_lookup_2|].
  assert (captured q = [vint p]) as Hcap by by subst q.
  assert (y = x) as -> by (subst q; by injection Hc).
  destruct (pager_answered q b data p Hb Hcap) as (a & Hrec & Ha). rewrite Hrec in Hf.
  injection Hf as <- <-. cbn [foldM finish next emits launch sent told emitted] in Hd.
  pose proof (sound_delete_flying s i Hso) as Hso1.
  set (s1 := { s with flying := delete i (flying s) }) in *. simpl in Hd.
  destruct (dispatch _ a) as [s2|] eqn:Hd1 in Hd; cbn [mbind res_bind] in Hd; [|done].
  injection Hd as ->.
  apply dispatch_handle in Hd1 as (s2 & l & Hh & Hdr); [|by eapply tidy_ext; [apply Hso1|..]].
  eapply asked_drains; [|exact Hdr].
  eapply (handle_loaded _ a data p); [|exact Ha|exact Hp|exact Hans| |exact Hh].
  { exact Hso1. }
  destruct Hdue as [Hdue|Hw]; [left; exact Hdue|right].
  destruct (waits_flight s i q Hso Hw Hi0) as (Hr & Ht & k & p' & Hk & Hq' & Hcase).
  rewrite Hq in Hq'. symmetry in Hq'. apply request_inv in Hq' as [<- ->].
  split; [exact Hr|]. split; [exact Ht|]. split; [|split; [done|by exists k]].
  exact (pager_flight_deleted s i q Hso Hi0).
Qed.

Lemma respond_missed_asked s i q error p s' :
  flying s !! i = Some (name pager, q) → captured q = [vint p] → p ≠ 1%Z →
  asked s [] → respond s i (Failed error) = Ok s' → asked s' [].
Proof.
  intros Hi0 Hcap Hp1 Hs [->|(e & q' & s1 & l & Hi & He & Hf & Hd)]%respond_inv; [done|].
  rewrite Hi0 in Hi. injection Hi as Hn <-. pose proof Hs as (Hso & _ & Hdue).
  assert (e = pager) as -> by (apply effects_name_inj; [done|apply pager_effect|done]).
  destruct (pager_failed q error) as (a & Hrec & Ha). rewrite Hrec in Hf.
  injection Hf as <- <-. cbn [foldM finish next emits launch sent told emitted] in Hd.
  pose proof (sound_delete_flying s i Hso) as Hso1.
  set (s1 := { s with flying := delete i (flying s) }) in *. simpl in Hd.
  destruct (dispatch _ a) as [s2|] eqn:Hd1 in Hd; cbn [mbind res_bind] in Hd; [|done].
  injection Hd as ->.
  apply dispatch_handle in Hd1 as (s2 & l & Hh & Hdr); [|by eapply tidy_ext; [apply Hso1|..]].
  eapply asked_drains; [|exact Hdr].
  refine (handle_asked _ a [] s2 l _ _ (List.Forall_nil _) _ _ Hh);
    [by right; right; left|exact Hso1| |congruence].
  destruct Hdue as [[?|[?|(b & []%elem_of_nil & _)]]|Hw]; [left; by left|left; right; by left|right].
  destruct (waits_flight s i q Hso Hw Hi0) as (Hr & Ht & k & p' & Hk & Hq' & Hcase).
  assert (p' = p) as -> by (subst q; by injection Hcap).
  destruct Hcase as [->|[Hnow _]]; [done|]. split; [exact Hr|]. exists k. split; [exact Hk|].
  left. split; [exact Hnow|]. split; [exact (pager_flight_deleted s i q Hso Hi0)|].
  intros b Hb. destruct Ht. by apply (list_elem_of_fmap_2 fst _ (name pager, b)).
Qed.

Lemma command_asked s a s' :
  role a = Calm ∨ role a = Refilter ∨ role a = Fetch 1 →
  asked s [] → dispatch s a = Ok s' → asked s' [].
Proof.
  intros Ha (Hs & _ & Hd) H. eapply (asked_dispatches s [a]); [|simpl; by rewrite H].
  split; [done|]. split; [apply Forall_singleton; unfold quiet; tauto|].
  destruct Hd as [[?|[?|(b & []%elem_of_nil & _)]]|Hw]; [left; by left|left; right; by left|by right].
Qed.

(** A grid that waits for nothing shows the pages of the current query. *)
Lemma settled_shown s : asked s [] → settled s → shown (store s).
Proof.
  intros (_ & _ & [[Hd|[(b & Hb & _)|(b & []%elem_of_nil & _)]]|[_ (k & Hk & Hcase)]]) (H1 & H2 & H3).
  - done.
  - destruct H1. by apply (list_elem_of_fmap_2 fst _ (name pager, b)).
  - exists k. split; [done|]. destruct Hcase as [(Hnow & _)|(_ & p & _ & Hin)]; [done|].
    destruct H3. by apply (list_elem_of_fmap_2 fst _ (name pager, request (store s) p)).
Qed.

Lemma scroll_asked s a k s' :
  settled s → pageNo (page_of (store s)) = vint k → role a = Fetch (k + 1) →
  asked s [] → dispatch s a = Ok s' → asked s' [].
Proof.
  intros Hset Hk Ha Hs H. pose proof (settled_shown s Hs Hset) as (j & Hj & Hrows).
  rewrite Hk in Hj. injection Hj as ->. pose proof Hs as (Hso & _ & Hd).
  apply dispatch_handle in H as (s1 & l & Hh & Hdr); [|apply Hso].
  eapply asked_drains; [|exact Hdr].
  eapply (handle_asked s a []); [by do 3 right; eexists|exact Hso|apply List.Forall_nil| | |exact Hh].
  - destruct Hd as [[?|[?|(b & []%elem_of_nil & _)]]|Hw];
      [left; by left|left; right; by left|by right].
  - intros p Hp. right. split; [done|]. exists j. split; [done|]. split; [done|]. congruence.
Qed.

Lemma browse_asked s s' : asked s [] → browse s s' → asked s' [].
Proof.
  intros Hs H. destruct H.
  - by eapply command_asked.
  - by eapply scroll_asked.
  - by eapply elapse_asked.
  - by eapply respond_page_asked.
  - by eapply respond_missed_asked.
  - by eapply respond_other_asked.
Qed.

Lemma asked_opened st :
  pageRows (page_of st) = VArr [] → pageNo (page_of st) = vint 0 → asked (opened st) [].
Proof.
  intros Hr Hn. split; [|split; [constructor|right]].
  - refine (conj (tidy_opened st) (conj _ (conj _ (conj _ (conj _ (conj _ _)))))); simpl.
    + apply list_elem_of_fmap_2, pager_effect.
    + apply list_elem_of_fmap_2, refresher_effect.
    + by exists [].
    + by exists 0.
    + by intros a []%elem_of_nil.
    + by intros q []%elem_of_nil.
  - split; [by intros []%elem_of_nil|]. exists 0. split; [done|]. left. split; [simpl; by rewrite Hr|].
    split; [by intros []%elem_of_nil|]. by intros a []%elem_of_nil.
Qed.

(** From an empty grid, by any browsing: when the grid waits for nothing, it
    shows the rows the server has for the pages of the current query. *)
Lemma browses_shown st s :
  pageRows (page_of st) = VArr [] → pageNo (page_of st) = vint 0 →
  browses (opened st) s → settled s → shown (store s).
Proof.
  intros Hr Hn H. apply settled_shown.
  remember (opened st) as s0 eqn:Hs0. induction H as [s|s s1 s' _ IH Hb]; subst.
  - by apply asked_opened.
  - eapply browse_asked; [by apply IH|done].
Qed.
End grid.

(** ** Proving that a store is a grid *)

Ltac solve_quiet :=
  cbn [emitted emits asks];
  repeat (apply List.Forall_cons; [first [by left|by right]|]); apply List.Forall_nil.

(** [pager_hears], [pager_answered], [refresher_run]. *)
Ltac solve_pager_hears :=
  let Ha := fresh "Ha" in
  intros a Ha; destruct a; try discriminate Ha; simpl;
  destruct (page_or_first _); [right; by eexists|by left].

Ltac solve_pager_answered success :=
  let Hd := fresh "Hd" in let Hc := fresh "Hc" in
  intros q b data p Hd Hc; exists (success data p); (split; [|done]);
  cbn; unfold with_data, data_of, body; simpl; rewrite Hd; unfold captured_page; by rewrite Hc.

Ltac solve_refresher_run :=
  intros; eexists; split; [done|split; [solve_quiet|]];
  eexists; split; [apply list_elem_of_here|done].

Ltac solve_others_run :=
  let He := fresh "He" in let Hn := fresh "Hn" in let Hr := fresh "Hr" in
  intros ? ? a ? He Hn Hr; each_elem He; try (by destruct Hn);
  first [ solve [cbn in Hr; branches; solve_quiet]
        | destruct a; first [discriminate Hr|cbn in Hr; branches; solve_quiet] ].

Ltac solve_others_receive :=
  let He := fresh "He" in let Hn := fresh "Hn" in let Hr := fresh "Hr" in
  intros ? ? resp ? He Hn Hr; each_elem He; try (by destruct Hn); cbn [receive] in Hr;
  first
  [ injection Hr as <-; solve_quiet
  | first [apply caught_inv in Hr as [[? Hr]|[? Hr]]|apply uncaught_inv in Hr as [? Hr]|idtac];
    cbv [with_data succeeds fails fails_whole fails_with fails_telling] in Hr;
    cbn in Hr; branches; solve_quiet ].

(** Only the action that asks for a page has a role that depends on it. *)
Ltac by_role H :=
  first [discriminate H|reflexivity|simpl in H; destruct (page_or_first _); discriminate H].

(** [reduce_page], with the success handler of the page left to [fetchPage]. *)
Ltac solve_reduce_page :=
  let Hr := fresh "Hr" in
  intros ? a ? Hr; destruct a; cbn in Hr; branches;
  first
  [ done
  | split; first [reflexivity|by left|by right]
  | match goal with H : fetchPage _ _ _ _ _ = Ok ?p |- _ =>
      refine (eq_trans H _); by destruct p end
  | cbn; destruct (page_or_first _); [split; reflexivity|exact I] ].

Ltac solve_reduce_full :=
  let Hr := fresh "Hr" in let Hn := fresh "Hn" in let Hw := fresh "Hw" in
  intros ? a ? ? Hr Hn Hw; destruct a;
  first [by destruct Hn|by destruct Hw|cbn in Hr; branches; reflexivity].
