(* ===== verification/PoliciesEffects.v ===== *)
(** * Effects of the policies store

    [libs/store/policies/src/lib/policies.effects.ts] and the derived
    selectors of [policies.selectors.ts].  One definition per effect, named
    as the effect with a prime for its dollar sign. *)

From S2P Require Import Prelude JsValue Models Filtration Effects Queries PoliciesStore.
From S2P Require Import EffectsFacts EffectsFlags.

(** ** Selectors *)

Definition selectFiltersWithCounter (state : State) : res val :=
  withCounter (filtersCounters state) (filters state).

Definition selectSelectedFilter (state : State) : res val :=
  l ← selectFiltersWithCounter state; find_by "id" (selectedFilterId state) l.

Definition selectSelectedPolicies (state : State) : res val :=
  withIds (selectedIds state) (policies state).

Definition selectGridFiltrationByField (state : State) : obj Filtration :=
  filtrationToDictionary (gridFiltration state).

Definition selectSelectedAgent (state : State) : res val :=
  find_by "id" (selectedAgentId state) (policyAgents state).

Definition selectSelectedPolicyGroup (state : State) : res val :=
  find_by "id" (selectedPolicyGroupId state) (policyGroups state).

(** The filters of [selectInitialListQuery]. *)
Definition initialFilters (state : State) : res (list val) :=
  filter ← selectSelectedFilter state;
  value ← filterValue filter;
  Ok (listFilters value (selectedGroupId state) (gridFiltration state) (VStr (gridSearch state))).

Definition selectInitialListQuery (state : State) : res val :=
  filters ← initialFilters state; Ok (listQuery filters (sorting state)).

Section effects.
Context `{Language}.

(** ** The list *)

Definition fetchFiltersCounters' : Effect State Action := {|
  name := "fetchFiltersCounters$"; triggers := ["[policies] Fetch counter by filters"];
  debounced := true; merged := false;
  run _ _ := Ok (Some (asks [] [mkCall "policiesService.fetchStatistics" []]));
  receive _ := uncaught (with_data fetchCountersByFiltersSuccess)
|}.

Definition fetchPoliciesPage' : Effect State Action := {|
  name := "fetchPoliciesPage$"; triggers := ["[policies] Fetch policies page"];
  debounced := true; merged := false;
  run state a :=
    match a with
    | fetchPoliciesPage page =>
        initialQuery ← latest (selectInitialListQuery state);
        currentPage ← page_or_first page;
        let query := pageQuery initialQuery currentPage in
        Ok (Some (asks [vint currentPage] [mkCall "policiesService.fetchList" [query]]))
    | _ => Ok None
    end;
  receive q := caught
    (with_data (λ data, fetchPoliciesPageSuccess data (captured_page q)))
    (fails fetchPoliciesPageFailure)
|}.

Definition fetchFilterItems' : Effect State Action := {|
  name := "fetchFilterItems$"; triggers := ["[policies] Fetch filter items"];
  debounced := true; merged := false;
  run state _ :=
    filters ← latest (initialFilters state);
    Ok (Some (asks []
      [mkCall "policiesService.fetchList"
         [allGroupedListQuery [("filters", VArr filters)] "module_name"];
       mkCall "policiesService.fetchList"
         [allGroupedListQuery [("filters", VArr filters)] "group_id"];
       mkCall "tagsService.fetchList"
         [allListQuery [("filters", VArr (filters ++ [query_filter "type" (VStr "policies")]))]]]));
  receive _ := caught (λ bodies,
    moduleNames ← data_at bodies 0 "grouped";
    groupIds ← data_at bodies 1 "grouped";
    tags ← data_at bodies 2 "tags";
    Ok (emits [fetchFilterItemsSuccess moduleNames groupIds tags]))
    (fails_whole fetchFilterItemsFailure)
|}.

Definition setGridFiltration' : Effect State Action := {|
  name := "setGridFiltration$";
  triggers := ["[policies] Select filter"; "[policies] Select group";
    "[policies] Set filtration grid"; "[policies] Set filtration grid by tag";
    "[policies] Set agents filtration grid by tag"; "[policies] Set groups filtration grid by tag";
    "[policies] Set search grid"; "[policies] Set sorting grid"; "[policies] Reset filtration"];
  debounced := false; merged := false;
  run _ _ := Ok (Some (emits [fetchPoliciesPage (vint 1); fetchFilterItems]));
  receive := no_receive
|}.

(** ** One policy *)

Definition fetchPolicy' : Effect State Action := {|
  name := "fetchPolicy$"; triggers := ["[policies] Fetch policy"];
  debounced := false; merged := false;
  run _ a :=
    match a with
    | fetchPolicy hash => Ok (Some (asks [] [mkCall "policiesService.fetchOne" [VStr hash]]))
    | _ => Ok None
    end;
  receive _ := caught (with_data fetchPolicySuccess) (fails fetchPolicyFailure)
|}.

Definition fetchPolicyModules' : Effect State Action := {|
  name := "fetchPolicyModules$"; triggers := ["[policies] Fetch policy modules"];
  debounced := true; merged := false;
  run _ a :=
    match a with
    | fetchPolicyModules hash =>
        Ok (Some (asks [] [mkCall "policiesService.fetchModules" [VStr hash; allListQuery []]]))
    | _ => Ok None
    end;
  receive _ := caught (with_data fetchPolicyModulesSuccess) (fails fetchPolicyModulesFailure)
|}.

Definition updatePolicyModules' : Effect State Action := {|
  name := "updatePolicyModules$"; triggers := ["[policies] Fetch policy"];
  debounced := false; merged := false;
  run _ a :=
    match a with
    | fetchPolicy hash => Ok (Some (emits [fetchPolicyModules hash]))
    | _ => Ok None
    end;
  receive := no_receive
|}.

Definition selectPolicy' : Effect State Action := {|
  name := "selectPolicy$"; triggers := ["[policies] Select policies"];
  debounced := false; merged := false;
  run _ a :=
    match a with
    | selectPolicies policies =>
        single ← is_single policies;
        if (single : bool) then hash ← first_hash policies; Ok (Some (emits [fetchPolicy hash]))
        else Ok None
    | _ => Ok None
    end;
  receive := no_receive
|}.

(** ** Operations on policies *)

Definition createPolicy' : Effect State Action := {|
  name := "createPolicy$"; triggers := ["[policies] Create policy"];
  debounced := false; merged := false;
  run _ a :=
    match a with
    | createPolicy policy => Ok (Some (asks [] [mkCall "policiesService.create" [policy]]))
    | _ => Ok None
    end;
  receive _ := caught (λ bodies,
    policy ← data_of bodies 0;
    id ← data_atq bodies 0 "id";
    Ok (emits [createPolicySuccess policy; selectPoliciesByIds (VArr [id]); fetchCountersByFilters]))
    (fails_with createPolicyFailure)
|}.

Definition updatePolicy' : Effect State Action := {|
  name := "updatePolicy$"; triggers := ["[policies] Update policy"];
  debounced := false; merged := false;
  run _ a :=
    match a with
    | updatePolicy policy =>
        hash ← get policy "hash";
        dto ← policyToDto policy;
        Ok (Some (asks [] [mkCall "policiesService.update" [hash; dto]]))
    | _ => Ok None
    end;
  receive _ := caught (succeeds [updatePolicySuccess]) (fails_with updatePolicyFailure)
|}.

Definition copyPolicy' : Effect State Action := {|
  name := "copyPolicy$"; triggers := ["[policies] Copy policy"];
  debounced := false; merged := false;
  run _ a :=
    match a with
    | copyPolicy policy redirect =>
        name ← get_path policy ["info"; "name"; "ru"];
        tags ← get_path policy ["info"; "tags"];
        from ← get policy "id";
        Ok (Some (asks [redirect] [mkCall "policiesService.create"
          [obj_lit [("name", name); ("tags", tags); ("from", from)]]]))
    | _ => Ok None
    end;
  receive q := caught (λ bodies,
    told ← (if truthy (default VUndef (head (captured q))) then
              hash ← data_atq bodies 0 "hash";
              Ok [mkCall "router.navigate" [VArr [VStr "/policies"; hash]]]
            else Ok []);
    policy ← data_of bodies 0;
    Ok (mkReaction [copyPolicySuccess policy; fetchCountersByFilters] None told Stays))
    (fails_with copyPolicyFailure)
|}.

Definition deletePolicy' : Effect State Action := {|
  name := "deletePolicy$"; triggers := ["[policies] Delete policy"];
  debounced := false; merged := false;
  run _ a :=
    match a with
    | deletePolicy hash => Ok (Some (asks [] [mkCall "policiesService.delete" [VStr hash]]))
    | _ => Ok None
    end;
  receive _ := caught (succeeds [deletePolicySuccess; fetchCountersByFilters])
    (fails_with deletePolicyFailure)
|}.

Definition linkPolicy' : Effect State Action := {|
  name := "linkPolicy$"; triggers := ["[policies] Link policy to group"];
  debounced := false; merged := false;
  run _ a :=
    match a with
    | linkPolicyToGroup hash group =>
        Ok (Some (asks [] [mkCall "policiesService.updateGroup"
          [VStr hash; obj_lit [("action", VStr "activate"); ("group", group)]]]))
    | _ => Ok None
    end;
  receive _ := caught (succeeds [linkPolicyToGroupSuccess]) (fails_with linkPolicyToGroupFailure)
|}.

Definition unlinkPolicy' : Effect State Action := {|
  name := "unlinkPolicy$"; triggers := ["[policies] Unlink policy from group"];
  debounced := false; merged := false;
  run _ a :=
    match a with
    | unlinkPolicyFromGroup hash group =>
        Ok (Some (asks [] [mkCall "policiesService.updateGroup"
          [VStr hash; obj_lit [("action", VStr "deactivate"); ("group", group)]]]))
    | _ => Ok None
    end;
  receive _ := caught (succeeds [unlinkPolicyFromGroupSuccess])
    (fails_with unlinkPolicyFromGroupFailure)
|}.

(** The shared store is told to load all policies again. *)
Definition updateLinks' : Effect State Action := {|
  name := "updateLinks$";
  triggers := ["[policies] Unlink policy from group - Success";
    "[policies] Link policy to group - Success"];
  debounced := false; merged := false;
  run _ _ := Ok (Some (mkReaction [] None [mkCall "sharedFacade.fetchAllPolicies" [VBool true]] Stays));
  receive := no_receive
|}.

(** ** The events of the policy *)

Definition fetchPolicyEvents' : Effect State Action := {|
  name := "fetchPolicyEvents$"; triggers := ["[policies] Fetch policy events"];
  debounced := false; merged := false;
  run state a :=
    match a with
    | fetchPolicyEvents id page =>
        page ← page_or_first page;
        let query := defaultListQuery [("page", vint page);
          ("filters", VArr ([query_filter "policy_id" (VArr [id]);
                             query_filter "data" (VStr (eventsGridSearch state))]
                            ++ filters_val (eventsGridFiltration state)));
          ("sort", sort_val (eventsSorting state))] in
        Ok (Some (asks [vint page] [mkCall "eventsService.fetchEvents" [query]]))
    | _ => Ok None
    end;
  receive q := caught (with_data (λ data, fetchPolicyEventsSuccess data (captured_page q)))
    (fails fetchPolicyEventsFailure)
|}.

Definition setEventsGridFiltration' : Effect State Action := {|
  name := "setEventsGridFiltration$";
  triggers := ["[policies] Set events grid filtration"; "[policies] Set events grid search";
    "[policies] Set events grid sorting"; "[policies] Reset events filtration"];
  debounced := false; merged := false;
  run state _ := id ← get (policy state) "id"; Ok (Some (emits [fetchPolicyEvents id (vint 1)]));
  receive := no_receive
|}.

Definition setEventsGridFilterItems' : Effect State Action := {|
  name := "setEventsGridFilterItems$";
  triggers := ["[policies] Set events grid filtration"; "[policies] Reset events filtration"];
  debounced := false; merged := false;
  run _ _ := Ok (Some (emits [fetchEventFilterItems]));
  receive := no_receive
|}.

(** The filters of the requests for the items of a column filter. *)
Definition policyFilters (filters : list Filtration) (id : val) : obj val :=
  [("filters", filters_and filters [query_filter "policy_id" (VArr [id])])].

Definition fetchEventFilterItems' : Effect State Action := {|
  name := "fetchEventFilterItems$"; triggers := ["[policies] Fetch event filter items"];
  debounced := false; merged := false;
  run state _ :=
    id ← get (policy state) "id";
    let query := allGroupedListQuery (policyFilters (eventsGridFiltration state) id) in
    Ok (Some (asks []
      [mkCall "eventsService.fetchEvents" [query "module_id"];
       mkCall "eventsService.fetchEvents" [query "agent_name"];
       mkCall "eventsService.fetchEvents" [query "group_id"]]));
  receive _ := caught (λ bodies,
    moduleIds ← data_at bodies 0 "grouped";
    agentNames ← data_at bodies 1 "grouped";
    groupIds ← data_at bodies 2 "grouped";
    Ok (emits [fetchEventFilterItemsSuccess moduleIds agentNames groupIds]))
    (fails_whole fetchEventFilterItemsFailure)
|}.

(** ** The agents of the policy *)

Definition fetchPolicyAgents' : Effect State Action := {|
  name := "fetchPolicyAgents$"; triggers := ["[policies] Fetch policy agents"];
  debounced := false; merged := false;
  run state a :=
    match a with
    | fetchPolicyAgents id page =>
        page ← page_or_first page;
        let query := defaultListQuery [("page", vint page);
          ("filters", VArr ([query_filter "data" (VStr (agentsGridSearch state));
                             query_filter "policy_id" (VArr [id])]
                            ++ filters_val (agentsGridFiltration state)));
          ("sort", sort_val (agentsSorting state))] in
        Ok (Some (asks [vint page] [mkCall "agentsService.fetchList" [query]]))
    | _ => Ok None
    end;
  receive q := caught (with_data (λ data, fetchPolicyAgentsSuccess data (captured_page q)))
    (fails fetchPolicyAgentsFailure)
|}.

Definition setAgentsGridFiltration' : Effect State Action := {|
  name := "setAgentsGridFiltration$";
  triggers := ["[policies] Set agents grid filtration"; "[policies] Set agents grid search";
    "[policies] Set agents grid sorting"; "[policies] Reset agents filtration"];
  debounced := false; merged := false;
  run state _ := id ← get (policy state) "id"; Ok (Some (emits [fetchPolicyAgents id (vint 1)]));
  receive := no_receive
|}.

Definition setAgentsGridFilterItems' : Effect State Action := {|
  name := "setAgentsGridFilterItems$";
  triggers := ["[policies] Set agents grid filtration"; "[policies] Reset agents filtration"];
  debounced := false; merged := false;
  run _ _ := Ok (Some (emits [fetchAgentFilterItems]));
  receive := no_receive
|}.

Definition fetchAgentFilterItems' : Effect State Action := {|
  name := "fetchAgentFilterItems$"; triggers := ["[policies] Fetch agent filter items"];
  debounced := false; merged := false;
  run state _ :=
    id ← get (policy state) "id";
    let query := allGroupedListQuery (policyFilters (agentsGridFiltration state) id) in
    Ok (Some (asks []
      [mkCall "agentsService.fetchList" [query "module_name"];
       mkCall "agentsService.fetchList" [query "group_id"];
       mkCall "agentsService.fetchList" [query "os"];
       mkCall "tagsService.fetchList"
         [allListQuery [("filters", filters_and (agentsGridFiltration state)
            [query_filter "policy_id" (VArr [id]); query_filter "type" (VStr "agents")])]]]));
  receive _ := caught (λ bodies,
    groupIds ← data_at bodies 1 "grouped";
    moduleNames ← data_at bodies 0 "grouped";
    os ← data_at bodies 2 "grouped";
    tags ← data_at bodies 3 "tags";
    Ok (emits [fetchAgentFilterItemsSuccess moduleNames groupIds os tags]))
    (fails_whole fetchAgentFilterItemsFailure)
|}.

Definition updateAgentsData' : Effect State Action := {|
  name := "updateAgentsData$"; triggers := ["[policies] Update agent data"];
  debounced := false; merged := false;
  run _ a :=
    match a with
    | updateAgentData agent =>
        id ← get agent "id";
        Ok (Some (asks [] [mkCall "agentsService.fetchList"
          [defaultListQuery [("filters", VArr [query_filter "id" (VArr [id])]);
             ("pageSize", vint 1); ("sort", VObj [])]]]))
    | _ => Ok None
    end;
  receive _ := caught (with_data updateAgentDataSuccess) (fails updateAgentDataFailure)
|}.

Definition upgradeAgents' : Effect State Action := {|
  name := "upgradeAgents$"; triggers := ["[policies] Upgrade selected agents"];
  debounced := false; merged := false;
  run _ a :=
    match a with
    | upgradeAgents agents version =>
        query ← upgrade_query agents version;
        Ok (Some (asks [] [mkCall "upgradesService.upgradeAgent" [query]]))
    | _ => Ok None
    end;
  receive _ := caught (succeeds [upgradeAgentsSuccess])
    (fails_telling "agents.Agents.EditAgent.ErrorText.UpgradeAgent" upgradeAgentsFailure)
|}.

Definition cancelUpgradeAgent' : Effect State Action := {|
  name := "cancelUpgradeAgent$"; triggers := ["[policies] Cancel upgrade agent"];
  debounced := false; merged := false;
  run _ a :=
    match a with
    | cancelUpgradeAgent hash task =>
        Ok (Some (asks [] [mkCall "upgradesService.updateLastAgentDetails" [VStr hash; canceled task]]))
    | _ => Ok None
    end;
  receive _ := caught (succeeds [cancelUpgradeAgentSuccess]) (fails cancelUpgradeAgentFailure)
|}.

(** ** The groups of the policy *)

Definition fetchPolicyGroups' : Effect State Action := {|
  name := "fetchPolicyGroups$"; triggers := ["[policies] Fetch policy groups"];
  debounced := false; merged := false;
  run state a :=
    match a with
    | fetchPolicyGroups id page =>
        page ← page_or_first page;
        let query := defaultListQuery [("page", vint page);
          ("filters", VArr ([query_filter "data" (VStr (groupsGridSearch state));
                             query_filter "policy_id" (VArr [id])]
                            ++ filters_val (groupsGridFiltration state)));
          ("sort", sort_val (groupsSorting state))] in
        Ok (Some (asks [vint page] [mkCall "groupsService.fetchList" [query]]))
    | _ => Ok None
    end;
  receive q := caught (with_data (λ data, fetchPolicyGroupsSuccess data (captured_page q)))
    (fails fetchPolicyGroupsFailure)
|}.

Definition setGroupsGridFiltration' : Effect State Action := {|
  name := "setGroupsGridFiltration$";
  triggers := ["[policies] Set groups grid filtration"; "[policies] Set groups grid search";
    "[policies] Set groups grid sorting"; "[policies] Reset groups filtration"];
  debounced := false; merged := false;
  run state _ := id ← get (policy state) "id"; Ok (Some (emits [fetchPolicyGroups id (vint 1)]));
  receive := no_receive
|}.

Definition setGroupsGridFilterItems' : Effect State Action := {|
  name := "setGroupsGridFilterItems$";
  triggers := ["[policies] Set groups grid filtration"; "[policies] Reset groups filtration"];
  debounced := false; merged := false;
  run _ _ := Ok (Some (emits [fetchGroupFilterItems]));
  receive := no_receive
|}.

Definition fetchGroupFilterItems' : Effect State Action := {|
  name := "fetchGroupFilterItems$"; triggers := ["[policies] Fetch group filter items"];
  debounced := false; merged := false;
  run state _ :=
    id ← get (policy state) "id";
    let query := allGroupedListQuery (policyFilters (groupsGridFiltration state) id) in
    Ok (Some (asks []
      [mkCall "groupsService.fetchList" [query "module_name"];
       mkCall "groupsService.fetchList" [query "policy_id"];
       mkCall "tagsService.fetchList"
         [allListQuery [("filters", filters_and (groupsGridFiltration state)
            [query_filter "policy_id" (VArr [id]); query_filter "type" (VStr "groups")])]]]));
  receive _ := caught (λ bodies,
    moduleNames ← data_at bodies 0 "grouped";
    policyIds ← data_at bodies 1 "grouped";
    tags ← data_at bodies 2 "tags";
    Ok (emits [fetchGroupFilterItemsSuccess policyIds moduleNames tags]))
    (fails_whole fetchGroupFilterItemsFailure)
|}.

(** ** The feature *)

Definition PoliciesEffects : list (Effect State Action) :=
  [fetchFiltersCounters'; fetchPoliciesPage'; fetchFilterItems'; fetchPolicy'; fetchPolicyModules';
   setGridFiltration'; createPolicy'; updatePolicy'; copyPolicy'; deletePolicy'; linkPolicy';
   unlinkPolicy'; updateLinks'; selectPolicy'; fetchPolicyEvents'; setEventsGridFiltration';
   setEventsGridFilterItems'; fetchPolicyAgents'; setAgentsGridFiltration';
   setAgentsGridFilterItems'; fetchPolicyGroups'; setGroupsGridFiltration';
   setGroupsGridFilterItems'; updateAgentsData'; updatePolicyModules'; upgradeAgents';
   cancelUpgradeAgent'; fetchAgentFilterItems'; fetchEventFilterItems'; fetchGroupFilterItems'].

#[export] Instance policies_feature : Feature State Action := {
  reducing := reducer;
  type_of := action_type;
  effects := PoliciesEffects
}.

(** Actions that lead to others, with all they lead to. *)
Definition policies_weight (a : Action) : nat :=
  match a with
  | selectPolicies _ => 3
  | fetchPolicy _ => 2
  | selectFilter _ | selectGroup _ | selectPolicyGroup _ | setGridFiltration _
  | setGridFiltrationByTag _ | setAgentsGridFiltrationByTag _ | setGroupsGridFiltrationByTag _
  | setGridSearch _ | setGridSorting _ | resetFiltration
  | setEventsGridFiltration _ | setEventsGridSearch _ | setEventsGridSorting _ | resetEventsFiltration
  | setAgentsGridFiltration _ | setAgentsGridSearch _ | setAgentsGridSorting _ | resetAgentsFiltration
  | setGroupsGridFiltration _ | setGroupsGridSearch _ | setGroupsGridSorting _ | resetGroupsFiltration
    => 3
  | _ => 1
  end.

Definition policies_share (e : Effect State Action) : nat :=
  if includes (name e) ["setGridFiltration$"; "selectPolicy$"] then 2
  else if includes (name e)
    ["updatePolicyModules$"; "setEventsGridFiltration$"; "setEventsGridFilterItems$";
     "setAgentsGridFiltration$"; "setAgentsGridFilterItems$"; "setGroupsGridFiltration$";
     "setGroupsGridFilterItems$"] then 1
  else 0.

End effects.

(** ** Runs of the policies store

    The actions an action leads to come to an end ([Cascade]), and every
    progress flag belongs to one effect ([Flags]).
    Left out: [isLoadingGroupFilterItems], which no action lowers. *)

Section runs.
Context `{Language}.

#[export] Instance policies_cascade : Cascade State Action.
Proof. refine {| weight := policies_weight; share := policies_share |}; solve_cascade. Defined.

(** The flags the page shows, with the effect each one belongs to. *)
Definition policies_flags : list (Flag State Action) :=
  [mkFlag [fetchPoliciesPage'] isLoadingPolicies
     ["[policies] Fetch policies page - Success"; "[policies] Fetch policies page - Failure"];
   mkFlag [fetchFilterItems'] isLoadingFilterItems
     ["[policies] Fetch filter items success"; "[policies] Fetch filter items failure"];
   mkFlag [fetchPolicy'] isLoadingPolicy
     ["[policies] Fetch policy - Success"; "[policies] Fetch policy - Failure"];
   mkFlag [fetchPolicyModules'] isLoadingModules
     ["[policies] Fetch policy modules success"; "[policies] Fetch policy modules failure"];
   mkFlag [createPolicy'] isCreatingPolicy
     ["[policies] Create policy - Success"; "[policies] Create policy - Failure"];
   mkFlag [updatePolicy'] isUpdatingPolicy
     ["[policies] Update policy - Success"; "[policies] Update policy - Failure"];
   mkFlag [copyPolicy'] isCopyingPolicy
     ["[policies] Copy policy - Success"; "[policies] Copy policy - Failure"];
   mkFlag [deletePolicy'] isDeletingPolicy
     ["[policies] Delete policy - Success"; "[policies] Delete policy - Failure"];
   mkFlag [linkPolicy'] isLinkingPolicy
     ["[policies] Link policy to group - Success"; "[policies] Link policy to group - Failure"];
   mkFlag [unlinkPolicy'] isUnlinkingPolicy
     ["[policies] Unlink policy from group - Success";
      "[policies] Unlink policy from group - Failure"];
   mkFlag [fetchPolicyEvents'] isLoadingEvents
     ["[policies] Fetch policy events success"; "[policies] Fetch policy events failure"];
   mkFlag [fetchPolicyAgents'] isLoadingAgents
     ["[policies] Fetch policy agents success"; "[policies] Fetch policy agents failure"];
   mkFlag [fetchPolicyGroups'] isLoadingGroups
     ["[policies] Fetch policy groups success"; "[policies] Fetch policy groups failure"];
   mkFlag [fetchAgentFilterItems'] isLoadingAgentFilterItems
     ["[policies] Fetch agent filter items success"; "[policies] Fetch agent filter items failure"];
   mkFlag [fetchEventFilterItems'] isLoadingEventFilterItems
     ["[policies] Fetch event filter items success"; "[policies] Fetch event filter items failure"];
   mkFlag [updateAgentsData'] isUpdatingAgentData
     ["[policies] Update agent data success"; "[policies] Update agent data failure"];
   mkFlag [upgradeAgents'] isUpgradingAgents
     ["[policies] Upgrade selected agents success"; "[policies] Upgrade selected agents failure"];
   mkFlag [cancelUpgradeAgent'] isCancelUpgradingAgent
     ["[policies] Cancel upgrade agent success"; "[policies] Cancel upgrade agent failure"]].

#[export] Instance policies_flagged : Flags State Action.
Proof. refine {| flags := policies_flags |}; solve_flags. Defined.
End runs.
