(* ===== verification/GroupsEffects.v ===== *)
(** * Effects of the groups store

    [libs/store/groups/src/lib/groups.effects.ts] and the derived selectors of
    [groups.selectors.ts].  One definition per effect, named as the effect
    with a prime for its dollar sign. *)

From S2P Require Import Prelude JsValue Models Filtration Effects Queries GroupsStore.
From S2P Require Import EffectsFacts EffectsFlags.

(** ** Selectors *)

(** [groups.find((group) => group.id.toString() === groupId)] *)
Definition selectSelectedGroup (state : State) : res val :=
  l ← as_array (groups state);
  find_list (λ group,
    id ← get group "id";
    if is_nullish id then Throw TypeError
    else Ok (strict_eq (VStr (to_string id)) (selectedGroupId state))) l.

Definition selectSelectedGroups (state : State) : res val :=
  withIds (selectedIds state) (groups state).

Definition selectGridFiltrationByField (state : State) : obj Filtration :=
  filtrationToDictionary (gridFiltration state).

Definition selectAgentsGridFiltrationByField (state : State) : obj Filtration :=
  filtrationToDictionary (agentsGridFiltration state).

Definition selectEventsGridFiltrationByField (state : State) : obj Filtration :=
  filtrationToDictionary (eventsGridFiltration state).

Definition selectPoliciesGridFiltrationByField (state : State) : obj Filtration :=
  filtrationToDictionary (policiesGridFiltration state).

Definition selectSelectedAgent (state : State) : res val :=
  find_by "id" (selectedAgentId state) (groupAgents state).

Definition selectSelectedPolicy (state : State) : res val :=
  find_by "id" (selectedPolicyId state) (groupPolicies state).

Definition selectInitialListQuery (state : State) : val :=
  listQuery (listFilters [] VUndef (gridFiltration state) (VStr (gridSearch state))) (sorting state).

Section effects.
Context `{Language}.

(** ** The list *)

Definition fetchGroupsPage' : Effect State Action := {|
  name := "fetchGroupsPage$"; triggers := ["[groups] Fetch groups page"];
  debounced := true; merged := false;
  run state a :=
    match a with
    | fetchGroupsPage page =>
        currentPage ← page_or_first page;
        let query := pageQuery (selectInitialListQuery state) currentPage in
        Ok (Some (asks [vint currentPage] [mkCall "groupsService.fetchList" [query]]))
    | _ => Ok None
    end;
  receive q := caught (with_data (λ data, fetchGroupsPageSuccess data (captured_page q)))
    (fails fetchGroupsPageFailure)
|}.

Definition fetchFilterItems' : Effect State Action := {|
  name := "fetchFilterItems$"; triggers := ["[groups] Fetch filter items"];
  debounced := false; merged := false;
  run state _ :=
    let filters := filters_val (gridFiltration state) in
    Ok (Some (asks []
      [mkCall "groupsService.fetchList" [allGroupedListQuery [("filters", VArr filters)] "policy_id"];
       mkCall "groupsService.fetchList" [allGroupedListQuery [("filters", VArr filters)] "module_name"];
       mkCall "tagsService.fetchList"
         [allListQuery [("filters", VArr (filters ++ [query_filter "type" (VStr "groups")]))]]]));
  receive _ := caught (λ bodies,
    policyIds ← data_at bodies 0 "grouped";
    moduleNames ← data_at bodies 1 "grouped";
    tags ← data_at bodies 2 "tags";
    Ok (emits [fetchFilterItemsSuccess (js_or policyIds (VArr [])) (js_or moduleNames (VArr []))
      (js_or tags (VArr []))]))
    (fails_whole fetchFilterItemsFailure)
|}.

Definition setGridFiltration' : Effect State Action := {|
  name := "setGridFiltration$";
  triggers := ["[groups] Set filtration grid"; "[groups] Set filtration grid by tag";
    "[groups] Set agents filtration grid by tag"; "[groups] Set policies filtration grid by tag";
    "[groups] Set search grid"; "[groups] Set sorting grid"; "[groups] Reset filtration"];
  debounced := true; merged := false;
  run _ _ := Ok (Some (emits [fetchGroupsPage (vint 1); fetchFilterItems]));
  receive := no_receive
|}.

(** ** One group *)

Definition fetchGroup' : Effect State Action := {|
  name := "fetchGroup$"; triggers := ["[groups] Fetch group"];
  debounced := false; merged := false;
  run _ a :=
    match a with
    | fetchGroup hash =>
        Ok (Some (asks []
          [mkCall "groupsService.fetchOne" [VStr hash];
           mkCall "groupsService.fetchModules" [VStr hash; allListQuery []]]))
    | _ => Ok None
    end;
  receive _ := caught (λ bodies,
    data ← data_of bodies 0;
    modules ← data_of bodies 1;
    Ok (emits [fetchGroupSuccess data modules]))
    (fails fetchGroupFailure)
|}.

Definition selectGroup' : Effect State Action := {|
  name := "selectGroup$"; triggers := ["[group] Select groups"];
  debounced := false; merged := false;
  run _ a :=
    match a with
    | selectGroups groups =>
        single ← is_single groups;
        if (single : bool) then hash ← first_hash groups; Ok (Some (emits [fetchGroup hash]))
        else Ok None
    | _ => Ok None
    end;
  receive := no_receive
|}.

(** ** Operations on groups *)

Definition createGroup' : Effect State Action := {|
  name := "createGroup$"; triggers := ["[group] Create group"];
  debounced := false; merged := false;
  run _ a :=
    match a with
    | createGroup group => Ok (Some (asks [] [mkCall "groupsService.create" [group]]))
    | _ => Ok None
    end;
  receive _ := caught (with_data createGroupSuccess) (fails_with createGroupFailure)
|}.

Definition updateGroup' : Effect State Action := {|
  name := "updateGroup$"; triggers := ["[groups] Update group"];
  debounced := false; merged := false;
  run _ a :=
    match a with
    | updateGroup group =>
        hash ← get group "hash";
        dto ← groupToDto group;
        Ok (Some (asks [] [mkCall "groupsService.update" [hash; dto]]))
    | _ => Ok None
    end;
  receive _ := caught (succeeds [updateGroupSuccess]) (fails_with updateGroupFailure)
|}.

Definition copyGroup' : Effect State Action := {|
  name := "copyGroup$"; triggers := ["[groups] Copy group"];
  debounced := false; merged := false;
  run _ a :=
    match a with
    | copyGroup group redirect =>
        name ← get_path group ["info"; "name"; "ru"];
        tags ← get_path group ["info"; "tags"];
        from ← get group "id";
        Ok (Some (asks [redirect] [mkCall "groupsService.create"
          [obj_lit [("name", name); ("tags", tags); ("from", from)]]]))
    | _ => Ok None
    end;
  receive q := caught (λ bodies,
    told ← (if truthy (default VUndef (head (captured q))) then
              hash ← data_atq bodies 0 "hash";
              Ok [mkCall "router.navigate" [VArr [VStr "/groups"; hash]]]
            else Ok []);
    group ← data_of bodies 0;
    Ok (mkReaction [copyGroupSuccess group] None told Stays))
    (fails_with copyGroupFailure)
|}.

Definition deleteGroup' : Effect State Action := {|
  name := "deleteGroup$"; triggers := ["[groups] Delete group"];
  debounced := false; merged := false;
  run _ a :=
    match a with
    | deleteGroup hash => Ok (Some (asks [] [mkCall "groupsService.delete" [VStr hash]]))
    | _ => Ok None
    end;
  receive _ := caught (succeeds [deleteGroupSuccess; fetchGroupsPage (vint 1)])
    (fails_with deleteGroupFailure)
|}.

Definition linkGroup' : Effect State Action := {|
  name := "linkGroup$"; triggers := ["[groups] Link group to policy"];
  debounced := false; merged := false;
  run _ a :=
    match a with
    | linkGroupToPolicy hash policy =>
        Ok (Some (asks [] [mkCall "groupsService.updatePolicy"
          [VStr hash; obj_lit [("action", VStr "activate"); ("policy", policy)]]]))
    | _ => Ok None
    end;
  receive _ := caught (succeeds [linkGroupToPolicySuccess]) (fails_with linkGroupToPolicyFailure)
|}.

Definition unlinkGroup' : Effect State Action := {|
  name := "unlinkGroup$"; triggers := ["[groups] Unlink group from policy"];
  debounced := false; merged := false;
  run _ a :=
    match a with
    | unlinkGroupFromPolicy hash policy =>
        Ok (Some (asks [] [mkCall "groupsService.updatePolicy"
          [VStr hash; obj_lit [("action", VStr "deactivate"); ("policy", policy)]]]))
    | _ => Ok None
    end;
  receive _ := caught (succeeds [unlinkGroupFromPolicySuccess])
    (fails_with unlinkGroupFromPolicyFailure)
|}.

(** ** The agents of the group *)

Definition fetchGroupAgents' : Effect State Action := {|
  name := "fetchGroupAgents$"; triggers := ["[groups] Fetch group agents"];
  debounced := false; merged := false;
  run state a :=
    match a with
    | fetchGroupAgents id page =>
        page ← page_or_first page;
        let query := defaultListQuery [("page", vint page);
          ("filters", VArr ([query_filter "data" (VStr (agentsGridSearch state));
                             query_filter "group_id" (VArr [id])]
                            ++ filters_val (agentsGridFiltration state)));
          ("sort", sort_val (agentsGridSorting state))] in
        Ok (Some (asks [vint page] [mkCall "agentsService.fetchList" [query]]))
    | _ => Ok None
    end;
  receive q := caught (with_data (λ data, fetchGroupAgentsSuccess data (captured_page q)))
    (fails fetchGroupAgentsFailure)
|}.

Definition setAgentsGridFiltration' : Effect State Action := {|
  name := "setAgentsGridFiltration$";
  triggers := ["[groups] Set agents grid filtration"; "[groups] Set agents grid search";
    "[groups] Set agents grid sorting"; "[groups] Reset agents filtration"];
  debounced := false; merged := false;
  run state _ := id ← get (group state) "id"; Ok (Some (emits [fetchGroupAgents id (vint 1)]));
  receive := no_receive
|}.

Definition setAgentsGridFilterItems' : Effect State Action := {|
  name := "setAgentsGridFilterItems$";
  triggers := ["[groups] Set agents grid filtration"; "[groups] Reset agents filtration"];
  debounced := false; merged := false;
  run _ _ := Ok (Some (emits [fetchAgentFilterItems]));
  receive := no_receive
|}.

(** The filters of the requests for the items of a column filter. *)
Definition groupFilters (filters : list Filtration) (id : val) : obj val :=
  [("filters", filters_and filters [query_filter "group_id" (VArr [id])])].

Definition fetchAgentFilterItems' : Effect State Action := {|
  name := "fetchAgentFilterItems$"; triggers := ["[groups] Fetch agent filter items"];
  debounced := false; merged := false;
  run state _ :=
    id ← get (group state) "id";
    let query := allGroupedListQuery (groupFilters (agentsGridFiltration state) id) in
    Ok (Some (asks []
      [mkCall "agentsService.fetchList" [query "module_name"];
       mkCall "agentsService.fetchList" [query "group_id"];
       mkCall "agentsService.fetchList" [query "os"];
       mkCall "tagsService.fetchList"
         [allListQuery [("filters", filters_and (agentsGridFiltration state)
            [query_filter "group_id" (VArr [id]); query_filter "type" (VStr "agents")])]]]));
  receive _ := caught (λ bodies,
    groupIds ← data_at bodies 1 "grouped";
    moduleNames ← data_at bodies 0 "grouped";
    os ← data_at bodies 2 "grouped";
    tags ← data_at bodies 3 "tags";
    Ok (emits [fetchAgentFilterItemsSuccess moduleNames groupIds os tags]))
    (fails_whole fetchAgentFilterItemsFailure)
|}.

Definition updateAgentsData' : Effect State Action := {|
  name := "updateAgentsData$"; triggers := ["[groups] Update agent data"];
  debounced := false; merged := false;
  run _ a :=
    match a with
    | updateAgentData agent =>
        id ← get agent "id";
        Ok (Some (asks [] [mkCall "agentsService.fetchList"
          [defaultListQuery [("filters", VArr [query_filter "id" (VArr [id])]);
             ("pageSize", vint 1); ("sort", VObj [])]]]))
    | _ => Ok None
    end;
  receive _ := caught (with_data updateAgentDataSuccess) (fails updateAgentDataFailure)
|}.

Definition upgradeAgents' : Effect State Action := {|
  name := "upgradeAgents$"; triggers := ["[groups] Upgrade selected agents"];
  debounced := false; merged := false;
  run _ a :=
    match a with
    | upgradeAgents agents version =>
        query ← upgrade_query agents version;
        Ok (Some (asks [] [mkCall "upgradesService.upgradeAgent" [query]]))
    | _ => Ok None
    end;
  receive _ := caught (succeeds [upgradeAgentsSuccess])
    (fails_telling "agents.Agents.EditAgent.ErrorText.UpgradeAgent" upgradeAgentsFailure)
|}.

Definition cancelUpgradeAgent' : Effect State Action := {|
  name := "cancelUpgradeAgent$"; triggers := ["[groups]  Cancel upgrade agent"];
  debounced := false; merged := false;
  run _ a :=
    match a with
    | cancelUpgradeAgent hash task =>
        Ok (Some (asks [] [mkCall "upgradesService.updateLastAgentDetails" [VStr hash; canceled task]]))
    | _ => Ok None
    end;
  receive _ := caught (succeeds [cancelUpgradeAgentSuccess]) (fails cancelUpgradeAgentFailure)
|}.

(** ** The events of the group *)

Definition fetchGroupEvents' : Effect State Action := {|
  name := "fetchGroupEvents$"; triggers := ["[groups] Fetch group events"];
  debounced := false; merged := false;
  run state a :=
    match a with
    | fetchGroupEvents id page =>
        page ← page_or_first page;
        let query := defaultListQuery [("page", vint page);
          ("filters", VArr ([query_filter "data" (VStr (eventsGridSearch state));
                             query_filter "group_id" (VArr [id])]
                            ++ filters_val (eventsGridFiltration state)));
          ("sort", sort_val (eventsSorting state))] in
        Ok (Some (asks [vint page] [mkCall "eventsService.fetchEvents" [query]]))
    | _ => Ok None
    end;
  receive q := caught (with_data (λ data, fetchGroupEventsSuccess data (captured_page q)))
    (fails fetchGroupEventsFailure)
|}.

Definition setEventsGridFiltration' : Effect State Action := {|
  name := "setEventsGridFiltration$";
  triggers := ["[groups] Set events grid filtration"; "[groups] Set events grid search";
    "[groups] Set events grid sorting"; "[groups] Reset events filtration"];
  debounced := false; merged := false;
  run state _ := id ← get (group state) "id"; Ok (Some (emits [fetchGroupEvents id (vint 1)]));
  receive := no_receive
|}.

Definition setEventsGridFilterItems' : Effect State Action := {|
  name := "setEventsGridFilterItems$";
  triggers := ["[groups] Set events grid filtration"; "[groups] Reset events filtration"];
  debounced := false; merged := false;
  run _ _ := Ok (Some (emits [fetchEventFilterItems]));
  receive := no_receive
|}.

Definition fetchEventFilterItems' : Effect State Action := {|
  name := "fetchEventFilterItems$"; triggers := ["[groups] Fetch event filter items"];
  debounced := false; merged := false;
  run state _ :=
    id ← get (group state) "id";
    let query := allGroupedListQuery (groupFilters (eventsGridFiltration state) id) in
    Ok (Some (asks []
      [mkCall "eventsService.fetchEvents" [query "module_id"];
       mkCall "eventsService.fetchEvents" [query "agent_name"];
       mkCall "eventsService.fetchEvents" [query "policy_id"]]));
  receive _ := caught (λ bodies,
    moduleIds ← data_at bodies 0 "grouped";
    agentNames ← data_at bodies 1 "grouped";
    policyIds ← data_at bodies 2 "grouped";
    Ok (emits [fetchEventFilterItemsSuccess moduleIds agentNames policyIds]))
    (fails_whole fetchEventFilterItemsFailure)
|}.

(** ** The policies of the group *)

Definition fetchGroupPolicies' : Effect State Action := {|
  name := "fetchGroupPolicies$"; triggers := ["[groups] Fetch group policies"];
  debounced := false; merged := false;
  run state a :=
    match a with
    | fetchGroupPolicies id page =>
        page ← page_or_first page;
        let query := defaultListQuery [("page", vint page);
          ("filters", VArr ([query_filter "data" (VStr (policiesGridSearch state));
                             query_filter "group_id" (VArr [id])]
                            ++ filters_val (policiesGridFiltration state)));
          ("sort", sort_val (policiesGridSorting state))] in
        Ok (Some (asks [vint page] [mkCall "policiesService.fetchList" [query]]))
    | _ => Ok None
    end;
  receive q := caught (with_data (λ data, fetchGroupPoliciesSuccess data (captured_page q)))
    (fails fetchGroupPoliciesFailure)
|}.

(** The types of the first two actions are exchanged in [groups.actions.ts]. *)
Definition setPoliciesGridFiltration' : Effect State Action := {|
  name := "setPoliciesGridFiltration$";
  triggers := ["[groups] Set policies grid search"; "[groups] Set policies grid filtration";
    "[groups] Set policies grid sorting"; "[groups] Reset policies filtration"];
  debounced := false; merged := false;
  run state _ := id ← get (group state) "id"; Ok (Some (emits [fetchGroupPolicies id (vint 1)]));
  receive := no_receive
|}.

Definition setPoliciesGridFilterItems' : Effect State Action := {|
  name := "setPoliciesGridFilterItems$";
  triggers := ["[groups] Set policies grid search"; "[groups] Reset policies filtration"];
  debounced := false; merged := false;
  run _ _ := Ok (Some (emits [fetchPolicyFilterItems]));
  receive := no_receive
|}.

Definition fetchPolicyFilterItems' : Effect State Action := {|
  name := "fetchPolicyFilterItems$"; triggers := ["[groups] Fetch policy filter items"];
  debounced := false; merged := false;
  run state _ :=
    id ← get (group state) "id";
    Ok (Some (asks []
      [mkCall "policiesService.fetchList"
         [allGroupedListQuery (groupFilters (policiesGridFiltration state) id) "module_name"];
       mkCall "tagsService.fetchList"
         [allListQuery [("filters", filters_and (policiesGridFiltration state)
            [query_filter "group_id" (VArr [id]); query_filter "type" (VStr "policies")])]]]));
  receive _ := caught (λ bodies,
    moduleNames ← data_at bodies 0 "grouped";
    tags ← data_at bodies 1 "tags";
    Ok (emits [fetchPolicyFilterItemsSuccess moduleNames tags]))
    (fails_whole fetchPolicyFilterItemsFailure)
|}.

(** ** The feature *)

Definition GroupsEffects : list (Effect State Action) :=
  [fetchGroupsPage'; fetchGroup'; fetchGroupAgents'; fetchGroupEvents'; setAgentsGridFiltration';
   setAgentsGridFilterItems'; setEventsGridFiltration'; setEventsGridFilterItems';
   setPoliciesGridFiltration'; setPoliciesGridFilterItems'; fetchGroupPolicies';
   setGridFiltration'; createGroup'; updateGroup'; copyGroup'; deleteGroup'; linkGroup';
   unlinkGroup'; selectGroup'; updateAgentsData'; upgradeAgents'; cancelUpgradeAgent';
   fetchFilterItems'; fetchAgentFilterItems'; fetchPolicyFilterItems'; fetchEventFilterItems'].

#[export] Instance groups_feature : Feature State Action := {
  reducing := reducer;
  type_of := action_type;
  effects := GroupsEffects
}.

(** Actions that lead to others at once, with all they lead to. *)
Definition groups_weight (a : Action) : nat :=
  match a with
  | selectGroups _ => 2
  | setAgentsGridFiltration _ | setAgentsGridSearch _ | setAgentsGridSorting _ | resetAgentsFiltration
  | setEventsGridFiltration _ | setEventsGridSearch _ | setEventsGridSorting _ | resetEventsFiltration
  | setPoliciesGridFiltration _ | setPoliciesGridSearch _ | setPoliciesGridSorting _
  | resetPoliciesFiltration => 3
  | _ => 1
  end.

Definition groups_share (e : Effect State Action) : nat :=
  if includes (name e)
    ["selectGroup$"; "setAgentsGridFiltration$"; "setAgentsGridFilterItems$";
     "setEventsGridFiltration$"; "setEventsGridFilterItems$"; "setPoliciesGridFiltration$";
     "setPoliciesGridFilterItems$"] then 1
  else 0.

End effects.

(** ** Runs of the groups store

    The actions an action leads to come to an end ([Cascade]), and every
    progress flag belongs to one effect ([Flags]). *)

Section runs.
Context `{Language}.

#[export] Instance groups_cascade : Cascade State Action.
Proof. refine {| weight := groups_weight; share := groups_share |}; solve_cascade. Defined.

(** The flags the page shows, with the effect each one belongs to. *)
Definition groups_flags : list (Flag State Action) :=
  [mkFlag [fetchGroupsPage'] isLoadingGroups
     ["[groups] Fetch groups page - Success"; "[groups] Fetch groups page - Failure"];
   mkFlag [fetchGroup'] isLoadingGroup
     ["[groups] Fetch group - Success"; "[groups] Fetch group - Failure"];
   mkFlag [fetchGroupAgents'] isLoadingAgents
     ["[groups] Fetch group agents success"; "[groups] Fetch group agents failure"];
   mkFlag [fetchGroupEvents'] isLoadingEvents
     ["[groups] Fetch group events success"; "[groups] Fetch group events failure"];
   mkFlag [fetchGroupPolicies'] isLoadingPolicies
     ["[groups] Fetch group policies success"; "[groups] Fetch group policies failure"];
   mkFlag [createGroup'] isCreatingGroup
     ["[group] Create group - Success"; "[group] Create group - Failure"];
   mkFlag [updateGroup'] isUpdatingGroup
     ["[groups] Update group - Success"; "[groups] Update group - Failure"];
   mkFlag [copyGroup'] isCopyingGroup
     ["[groups] Copy group - Success"; "[groups] Copy group - Failure"];
   mkFlag [deleteGroup'] isDeletingGroup
     ["[groups] Delete group - Success"; "[groups] Delete group - Failure"];
   mkFlag [linkGroup'] isLinkingGroup
     ["[groups] Link group to policy - Success"; "[groups] Link group to policy - Failure"];
   mkFlag [unlinkGroup'] isUnlinkingGroup
     ["[groups] Unlink group from policy - Success"; "[groups] Unlink group from policy - Failure"];
   mkFlag [updateAgentsData'] isUpdatingAgentData
     ["[groups] Update agent data success"; "[groups] Update agent data failure"];
   mkFlag [upgradeAgents'] isUpgradingAgents
     ["[groups] Upgrade selected agents success"; "[groups] Upgrade selected agents failure"];
   mkFlag [cancelUpgradeAgent'] isCancelUpgradingAgent
     ["[groups]  Cancel upgrade agent success"; "[groups]  Cancel upgrade agent failure"];
   mkFlag [fetchFilterItems'] isLoadingFilterItems
     ["[groups] Fetch filter items success"; "[groups] Fetch filter items failure"];
   mkFlag [fetchAgentFilterItems'] isLoadingAgentFilterItems
     ["[groups] Fetch agent filter items success"; "[groups] Fetch agent filter items failure"];
   mkFlag [fetchPolicyFilterItems'] isLoadingPolicyFilterItems
     ["[groups] Fetch policy filter items success"; "[groups] Fetch policy filter items failure"];
   mkFlag [fetchEventFilterItems'] isLoadingEventFilterItems
     ["[groups] Fetch event filter items success"; "[groups] Fetch event filter items failure"]].

#[export] Instance groups_flagged : Flags State Action.
Proof. refine {| flags := groups_flags |}; solve_flags. Defined.
End runs.
