(* ===== verification/AgentListEffects.v ===== *)
(** * Effects of the agent list store

    [libs/store/agents/src/lib/list/agent-list.effects.ts] and the derived
    selectors of [agent-list.selectors.ts].  One definition per effect, named
    as the effect with a prime for its dollar sign. *)

From S2P Require Import Prelude JsValue Models Filtration Effects Queries AgentListStore.
From S2P Require Import EffectsFacts EffectsFlags.

(** ** Selectors *)

Definition selectFiltersWithCounter (state : State) : res val :=
  withCounter (filtersCounters state) (filters state).

Definition selectSelectedFilter (state : State) : res val :=
  l ← selectFiltersWithCounter state; find_by "id" (selectedFilterId state) l.

Definition selectGridFiltrationByField (state : State) : obj Filtration :=
  filtrationToDictionary (gridFiltration state).

Definition selectSelectedAgents (state : State) : res val :=
  withIds (selectedIds state) (agents state).

(** The filters of [selectInitialListQuery]. *)
Definition initialFilters (state : State) : res (list val) :=
  filter ← selectSelectedFilter state;
  value ← filterValue filter;
  Ok (listFilters value (selectedGroupId state) (gridFiltration state) (VStr (gridSearch state))).

Definition selectInitialListQuery (state : State) : res val :=
  filters ← initialFilters state; Ok (listQuery filters (sorting state)).

(** The request that moves agents to a group. *)
Definition move_action (ids groupId : val) : val :=
  obj_lit [("action", VStr "move"); ("filters", VArr [query_filter "id" ids]); ("to", groupId)].

(** The request for another action on agents. *)
Definition agents_action (action : string) (ids : val) : val :=
  obj_lit [("action", VStr action); ("filters", VArr [query_filter "id" ids])].

Section effects.
Context `{Language}.

(** ** The list *)

Definition fetchFiltersCounters' : Effect State Action := {|
  name := "fetchFiltersCounters$"; triggers := ["[agent-list] Fetch counter by filters"];
  debounced := true; merged := false;
  run _ _ := Ok (Some (asks [] [mkCall "agentsService.fetchStatistics" []]));
  receive _ := caught (with_data fetchCountersByFiltersSuccess) (fails fetchCountersByFiltersFailure)
|}.

Definition setGridFiltration' : Effect State Action := {|
  name := "setGridFiltration$";
  triggers := ["[agent-list] Select filter"; "[agent-list] Select group";
    "[agent-list] Set filtration grid"; "[agent-list] Set filtration grid by tag";
    "[agent-list] Set search grid"; "[agent-list] Set sorting grid"; "[agent-list] Reset filtration"];
  debounced := true; merged := false;
  run _ _ := Ok (Some (emits [fetchAgentsPage (vint 1); fetchFilterItems]));
  receive := no_receive
|}.

Definition fetchAgentsPage' : Effect State Action := {|
  name := "fetchAgentsPage$"; triggers := ["[agent-list] Fetch agents page"];
  debounced := true; merged := false;
  run state a :=
    match a with
    | fetchAgentsPage page =>
        initialQuery ← latest (selectInitialListQuery state);
        currentPage ← page_or_first page;
        let query := pageQuery initialQuery currentPage in
        Ok (Some (asks [vint currentPage] [mkCall "agentsService.fetchList" [query]]))
    | _ => Ok None
    end;
  receive q := caught (with_data (λ data, fetchAgentsPageSuccess data (captured_page q)))
    (fails fetchAgentsFailure)
|}.

Definition fetchFilterItems' : Effect State Action := {|
  name := "fetchFilterItems$"; triggers := ["[agent-list] Fetch filter items"];
  debounced := false; merged := false;
  run state _ :=
    filters ← latest (initialFilters state);
    let query := allGroupedListQuery [("filters", VArr filters)] in
    Ok (Some (asks []
      [mkCall "agentsService.fetchList" [query "version"];
       mkCall "agentsService.fetchList" [query "module_name"];
       mkCall "agentsService.fetchList" [query "group_id"];
       mkCall "agentsService.fetchList" [query "os"];
       mkCall "tagsService.fetchList"
         [allListQuery [("filters", VArr (filters ++ [query_filter "type" (VStr "agents")]))]]]));
  receive _ := caught (λ bodies,
    groupIds ← data_at bodies 2 "grouped";
    moduleNames ← data_at bodies 1 "grouped";
    versions ← data_at bodies 0 "grouped";
    os ← data_at bodies 3 "grouped";
    tags ← data_at bodies 4 "tags";
    Ok (emits [fetchFilterItemsSuccess versions moduleNames groupIds os tags]))
    (fails_whole fetchFilterItemsFailure)
|}.

Definition fetchAgentsVersions' : Effect State Action := {|
  name := "fetchAgentsVersions$"; triggers := ["[agent-list] Fetch agents versions"];
  debounced := false; merged := false;
  run _ _ := Ok (Some (asks [] [mkCall "versionService.getVersions" [VStr "agents"]]));
  receive _ := uncaught (λ bodies,
    versions ← data_atq bodies 0 "versions"; Ok (emits [fetchAgentsVersionsSuccess versions]))
|}.

(** ** One agent, selection *)

Definition fetchAgent' : Effect State Action := {|
  name := "fetchAgent$"; triggers := ["[agent-list] Fetch agent"];
  debounced := false; merged := false;
  run _ a :=
    match a with
    | fetchAgent hash =>
        Ok (Some (asks []
          [mkCall "agentsService.fetchOne" [VStr hash];
           mkCall "agentsService.fetchModules" [VStr hash; allListQuery []]]))
    | _ => Ok None
    end;
  receive _ := caught (λ bodies,
    data ← data_of bodies 0;
    modules ← data_of bodies 1;
    Ok (emits [fetchAgentSuccess data modules]))
    (fails fetchAgentFailure)
|}.

Definition selectAgent' : Effect State Action := {|
  name := "selectAgent$"; triggers := ["[agent-list] Select agents"];
  debounced := false; merged := false;
  run _ a :=
    match a with
    | selectAgents agents =>
        single ← is_single agents;
        if (single : bool) then hash ← first_hash agents; Ok (Some (emits [fetchAgent hash]))
        else Ok None
    | _ => Ok None
    end;
  receive := no_receive
|}.

Definition updateAgentsData' : Effect State Action := {|
  name := "updateAgentsData$"; triggers := ["[agent-list] Update agent data"];
  debounced := false; merged := false;
  run _ a :=
    match a with
    | updateAgentData agents =>
        ids ← mapIds agents;
        Ok (Some (asks [] [mkCall "agentsService.fetchList"
          [defaultListQuery [("filters", VArr [query_filter "id" ids]); ("sort", VObj [])]]]))
    | _ => Ok None
    end;
  receive _ := caught (with_data updateAgentDataSuccess) (fails_with updateAgentDataFailure)
|}.

(** ** Operations on agents *)

Definition upgradeAgents' : Effect State Action := {|
  name := "upgradeAgents$"; triggers := ["[agent-list] Upgrade selected agents"];
  debounced := false; merged := false;
  run _ a :=
    match a with
    | upgradeAgents agents version =>
        query ← upgrade_query agents version;
        Ok (Some (asks [] [mkCall "upgradesService.upgradeAgent" [query]]))
    | _ => Ok None
    end;
  receive _ := caught (succeeds [upgradeAgentsSuccess])
    (fails_telling "agents.Agents.EditAgent.ErrorText.UpgradeAgent" upgradeAgentsFailure)
|}.

Definition cancelUpgradeAgent' : Effect State Action := {|
  name := "cancelUpgradeAgent$"; triggers := ["[agent-list] Cancel upgrade agent"];
  debounced := false; merged := false;
  run _ a :=
    match a with
    | cancelUpgradeAgent hash task =>
        Ok (Some (asks [] [mkCall "upgradesService.updateLastAgentDetails" [VStr hash; canceled task]]))
    | _ => Ok None
    end;
  receive _ := caught (succeeds [cancelUpgradeAgentSuccess]) (fails cancelUpgradeAgentFailure)
|}.

(** The group is created, then the agents are moved: two [switchMap]s.  An
    error of either is caught behind them, which ends the effect. *)
Definition moveToNewGroup' : Effect State Action := {|
  name := "moveToNewGroup$"; triggers := ["[agent-list] Move agents to new group"];
  debounced := false; merged := false;
  run _ a :=
    match a with
    | moveAgentsToNewGroup ids groupName =>
        Ok (Some (asks [ids] [mkCall "groupsService.create"
          [obj_lit [("name", VStr groupName); ("tags", VArr [])]]]))
    | _ => Ok None
    end;
  receive q := caught (λ bodies,
    match stage q with
    | O =>
        groupId ← data_atq bodies 0 "id";
        let ids := default VUndef (head (captured q)) in
        Ok (mkReaction [] (Some (mkRequest 1 [] [mkCall "agentsService.doAction"
          [move_action ids groupId]])) [] Stays)
    | S _ => Ok (emits [moveAgentsToNewGroupSuccess])
    end)
    (λ response,
       error ← get response "error";
       Ok (mkReaction [moveAgentsToNewGroupFailure error] None [] Ends))
|}.

Definition moveToGroup' : Effect State Action := {|
  name := "moveToGroup$"; triggers := ["[agent-list] Move agents to group"];
  debounced := false; merged := false;
  run _ a :=
    match a with
    | moveAgentsToGroup ids groupId =>
        Ok (Some (asks [] [mkCall "agentsService.doAction" [move_action ids groupId]]))
    | _ => Ok None
    end;
  receive _ := caught (succeeds [moveAgentsToGroupSuccess]) (fails_with moveAgentsToGroupFailure)
|}.

Definition updateAgent' : Effect State Action := {|
  name := "updateAgent$"; triggers := ["[agent-list] Update agent"];
  debounced := false; merged := false;
  run _ a :=
    match a with
    | updateAgent agent =>
        hash ← get agent "hash";
        dto ← agentToDto agent;
        Ok (Some (asks [] [mkCall "agentsService.update"
          [hash; obj_lit [("action", VStr "edit"); ("agent", dto)]]]))
    | _ => Ok None
    end;
  receive _ := caught (succeeds [updateAgentSuccess]) (fails_with updateAgentFailure)
|}.

Definition blockAgents' : Effect State Action := {|
  name := "blockAgents$"; triggers := ["[agent-list] Block agents"];
  debounced := false; merged := false;
  run _ a :=
    match a with
    | blockAgents ids =>
        Ok (Some (asks [] [mkCall "agentsService.doAction" [agents_action "block" ids]]))
    | _ => Ok None
    end;
  receive _ := caught
    (succeeds [blockAgentsSuccess; fetchAgentsPage (vint 1); fetchCountersByFilters])
    (fails_telling "agents.Agents.EditAgent.ErrorText.BlockAgent" blockAgentsFailure)
|}.

Definition deleteAgents' : Effect State Action := {|
  name := "deleteAgents$"; triggers := ["[agent-list] Delete agents"];
  debounced := false; merged := false;
  run _ a :=
    match a with
    | deleteAgents ids =>
        Ok (Some (asks [] [mkCall "agentsService.doAction" [agents_action "delete" ids]]))
    | _ => Ok None
    end;
  receive _ := caught (succeeds [deleteAgentsSuccess; fetchCountersByFilters])
    (fails_with deleteAgentsFailure)
|}.

Definition updateAgentsPage' : Effect State Action := {|
  name := "updateAgentsPage$";
  triggers := ["[agent-list] Move agents to group success";
    "[agent-list] Move agents to new group success"];
  debounced := false; merged := false;
  run _ _ := Ok (Some (emits [fetchCountersByFilters]));
  receive := no_receive
|}.

(** ** The feature *)

Definition AgentListEffects : list (Effect State Action) :=
  [fetchFiltersCounters'; setGridFiltration'; fetchAgentsPage'; fetchFilterItems';
   fetchAgentsVersions'; fetchAgent'; upgradeAgents'; cancelUpgradeAgent'; moveToNewGroup';
   moveToGroup'; updateAgent'; blockAgents'; deleteAgents'; selectAgent'; updateAgentsData';
   updateAgentsPage'].

#[export] Instance agents_feature : Feature State Action := {
  reducing := reducer;
  type_of := action_type;
  effects := AgentListEffects
}.

(** Actions that lead to others at once, with all they lead to. *)
Definition agents_weight (a : Action) : nat :=
  match a with
  | selectAgents _ | moveAgentsToGroupSuccess | moveAgentsToNewGroupSuccess => 2
  | _ => 1
  end.

Definition agents_share (e : Effect State Action) : nat :=
  if includes (name e) ["selectAgent$"; "updateAgentsPage$"] then 1 else 0.

End effects.

(** ** Runs of the agent list store

    The actions an action leads to come to an end ([Cascade]), and every
    progress flag belongs to one effect ([Flags]).
    Left out: [isMovingAgents], which two effects share. *)

Section runs.
Context `{Language}.

#[export] Instance agents_cascade : Cascade State Action.
Proof. refine {| weight := agents_weight; share := agents_share |}; solve_cascade. Defined.

(** The flags the page shows, with the effect each one belongs to. *)
Definition agents_flags : list (Flag State Action) :=
  [mkFlag [fetchAgentsPage'] isLoadingAgents
     ["[agent-list] Fetch agents page success"; "[agent-list] Fetch agents page failure"];
   mkFlag [fetchFilterItems'] isLoadingAgentFilterItems
     ["[agent-list] Fetch filter items success"; "[agent-list] Fetch filter items failure"];
   mkFlag [fetchAgent'] isLoadingAgent
     ["[agent-list] Fetch agent success"; "[agent-list] Fetch agent failure"];
   mkFlag [updateAgentsData'] isUpdatingAgentData
     ["[agent-list] Update agent data success"; "[agent-list] Update agent data failure"];
   mkFlag [upgradeAgents'] isUpgradingAgents
     ["[agent-list] Upgrade selected agents success";
      "[agent-list] Upgrade selected agents failure"];
   mkFlag [cancelUpgradeAgent'] isCancelUpgradingAgent
     ["[agent-list] Cancel upgrade agent success"; "[agent-list] Cancel upgrade agent failure"];
   mkFlag [updateAgent'] isUpdatingAgents
     ["[agent-list] Update agent success"; "[agent-list] Update agent failure"];
   mkFlag [blockAgents'] isBlockingAgents
     ["[agent-list] Block agents success"; "[agent-list] Block agents failure"];
   mkFlag [deleteAgents'] isDeletingAgents
     ["[agent-list] Delete agents success"; "[agent-list] Delete agents failure"];
   mkFlag [moveToNewGroup'; moveToGroup'] isMovingAgents
     ["[agent-list] Move agents to new group success";
      "[agent-list] Move agents to new group failure";
      "[agent-list] Move agents to group success";
      "[agent-list] Move agents to group failure"]].

#[export] Instance agents_flagged : Flags State Action.
Proof. refine {| flags := agents_flags |}; solve_flags. Defined.
End runs.
