(* ===== verification/ModuleListEffects.v ===== *)
(** * Effects of the module list store

    [libs/store/modules/src/lib/list/module-list.effects.ts] and the derived
    selectors of [module-list.selectors.ts].  One definition per effect, named
    as the effect with a prime for its dollar sign. *)

From S2P Require Import Prelude JsValue Models Filtration Effects Queries ModuleListStore.
From S2P Require Import EffectsFacts EffectsFlags.

(** ** Selectors *)

Definition selectSelectedModules (state : State) : res val :=
  withIds (selectedIds state) (modules state).

Definition selectGridFiltrationByField (state : State) : obj Filtration :=
  filtrationToDictionary (gridFiltration state).

(** The filters of [selectInitialListQuery]. *)
Definition initialFilters (state : State) : list val :=
  listFilters [] VUndef (gridFiltration state) (gridSearch state).

Definition selectInitialListQuery (state : State) : val :=
  listQuery (initialFilters state) (sorting state).

Section effects.
Context `{Language}.

(** ** The list *)

Definition fetchModules' : Effect State Action := {|
  name := "fetchModules$"; triggers := ["[module-list] Fetch modules"];
  debounced := true; merged := false;
  run _ _ := Ok (Some (asks [] [mkCall "modulesService.fetchList" [allListQuery []]]));
  receive _ := caught (with_data fetchModulesSuccess) (fails fetchModulesFailure)
|}.

Definition fetchModulesPage' : Effect State Action := {|
  name := "fetchModulesPage$"; triggers := ["[module-list] Fetch modules page"];
  debounced := true; merged := false;
  run state a :=
    match a with
    | fetchModulesPage page =>
        currentPage ← page_or_first page;
        let query := pageQuery (selectInitialListQuery state) currentPage in
        Ok (Some (asks [vint currentPage] [mkCall "modulesService.fetchList" [query]]))
    | _ => Ok None
    end;
  receive q := caught (with_data (λ data, fetchModulesPageSuccess data (captured_page q)))
    (fails fetchModulesPageFailure)
|}.

Definition fetchModulesTags' : Effect State Action := {|
  name := "fetchModulesTags$"; triggers := ["[module-list] Fetch modules tags"];
  debounced := false; merged := false;
  run state _ :=
    Ok (Some (asks [] [mkCall "tagsService.fetchList"
      [allListQuery [("filters",
         VArr (initialFilters state ++ [query_filter "type" (VStr "modules")]))]]]));
  receive _ := caught (λ bodies,
    tags ← data_atq bodies 0 "tags"; Ok (emits [fetchModulesTagsSuccess tags]))
    (fails_with fetchModulesTagsFailure)
|}.

Definition setGridFiltration' : Effect State Action := {|
  name := "setGridFiltration$";
  triggers := ["[module-list] Set filtration grid"; "[module-list] Set filtration grid by tag";
    "[module-list] Set search grid"; "[module-list] Set sorting grid"; "[module-list] Reset filtration"];
  debounced := false; merged := false;
  run _ _ := Ok (Some (emits [fetchModulesPage (vint 1)]));
  receive := no_receive
|}.

Definition setGridFilterItems' : Effect State Action := {|
  name := "setGridFilterItems$";
  triggers := ["[module-list] Set filtration grid"; "[module-list] Reset filtration"];
  debounced := false; merged := false;
  run _ _ := Ok (Some (emits [fetchModulesTags]));
  receive := no_receive
|}.

(** ** Operations on modules *)

Definition createModule' : Effect State Action := {|
  name := "createModule$"; triggers := ["[module-list] Create module"];
  debounced := false; merged := false;
  run _ a :=
    match a with
    | createModule module => Ok (Some (asks [] [mkCall "modulesService.create" [module]]))
    | _ => Ok None
    end;
  receive _ := caught (λ bodies,
    module ← data_of bodies 0;
    id ← data_atq bodies 0 "id";
    Ok (emits [createModuleSuccess module; selectModulesByIds (VArr [id])]))
    (fails_with createModuleFailure)
|}.

Definition importModule' : Effect State Action := {|
  name := "importModule$"; triggers := ["[module-list] Import Module"];
  debounced := false; merged := false;
  run _ a :=
    match a with
    | importModule name version data =>
        Ok (Some (asks [] [mkCall "modulesService.importModule" [VStr name; VStr version; data]]))
    | _ => Ok None
    end;
  receive _ := caught (succeeds [importModuleSuccess]) (fails_with importModuleFailure)
|}.

Definition deleteModule' : Effect State Action := {|
  name := "deleteModule$"; triggers := ["[module-list] Delete module"];
  debounced := false; merged := false;
  run _ a :=
    match a with
    | deleteModule name => Ok (Some (asks [] [mkCall "modulesService.deleteModule" [VStr name]]))
    | _ => Ok None
    end;
  receive _ := caught (succeeds [deleteModuleSuccess; fetchModulesPage (vint 1)])
    (fails_with deleteModuleFailure)
|}.

Definition deleteModuleVersion' : Effect State Action := {|
  name := "deleteModuleVersion$"; triggers := ["[module-list] Delete module version"];
  debounced := false; merged := false;
  run _ a :=
    match a with
    | deleteModuleVersion name version =>
        Ok (Some (asks [] [mkCall "modulesService.deleteModuleVersion" [VStr name; VStr version]]))
    | _ => Ok None
    end;
  receive _ := caught (succeeds [deleteModuleVersionSuccess; fetchModulesPage (vint 1)])
    (fails_with deleteModuleVersionFailure)
|}.

Definition fetchModuleVersions' : Effect State Action := {|
  name := "fetchModuleVersions$"; triggers := ["[module-list] Fetch module versions"];
  debounced := false; merged := false;
  run _ a :=
    match a with
    | fetchModuleVersions name =>
        Ok (Some (asks [] [mkCall "modulesService.fetchVersions" [VStr name]]))
    | _ => Ok None
    end;
  receive _ := caught (with_data fetchModuleVersionsSuccess) (fails fetchModuleVersionsFailure)
|}.

(** ** The feature *)

Definition ModuleListEffects : list (Effect State Action) :=
  [fetchModules'; fetchModulesPage'; fetchModulesTags'; createModule'; importModule';
   setGridFiltration'; setGridFilterItems'; deleteModule'; deleteModuleVersion';
   fetchModuleVersions'].

#[export] Instance modules_feature : Feature State Action := {
  reducing := reducer;
  type_of := action_type;
  effects := ModuleListEffects
}.

(** Actions that lead to others at once, with all they lead to. *)
Definition modules_weight (a : Action) : nat :=
  match a with
  | setGridFiltration _ | setGridFiltrationByTag _ | setGridSearch _ | setGridSorting _
  | resetFiltration => 3
  | _ => 1
  end.

Definition modules_share (e : Effect State Action) : nat :=
  if includes (name e) ["setGridFiltration$"; "setGridFilterItems$"] then 1 else 0.

End effects.

(** ** Runs of the module list store

    The actions an action leads to come to an end ([Cascade]), and every
    progress flag belongs to one effect ([Flags]). *)

Section runs.
Context `{Language}.

#[export] Instance modules_cascade : Cascade State Action.
Proof. refine {| weight := modules_weight; share := modules_share |}; solve_cascade. Defined.

(** The flags the page shows, with the effect each one belongs to. *)
Definition modules_flags : list (Flag State Action) :=
  [mkFlag [fetchModulesPage'] isLoadingModules
     ["[module-list] Fetch modules page success"; "[module-list] Fetch modules page failure"];
   mkFlag [fetchModulesTags'] isLoadingModulesTags
     ["[module-list] Fetch modules tags success"; "[module-list] Fetch modules tags failure"];
   mkFlag [createModule'] isCreatingModule
     ["[module-list] Create module success"; "[module-list] Create module failure"];
   mkFlag [importModule'] isImportingModule
     ["[module-list] Import Module success"; "[module-list] Import Module failure"];
   mkFlag [deleteModule'] isDeleteNodule
     ["[module-list] Delete module success"; "[module-list] Delete module failure"];
   mkFlag [deleteModuleVersion'] isDeleteNoduleVersion
     ["[module-list] Delete module version failure"; "[module-list] Delete module version failure"];
   mkFlag [fetchModuleVersions'] isLoadingVersions
     ["[module-list] Fetch module versions success"; "[module-list] Fetch module versions failure"];
   mkFlag [] isLoadingModule []].

#[export] Instance modules_flagged : Flags State Action.
Proof. refine {| flags := modules_flags |}; solve_flags. Defined.
End runs.
