(* ===== verification/AgentCardEffects.v ===== *)
(** * Effects of the agent card store

    [libs/store/agents/src/lib/card/agent-card.effects.ts].  One definition
    per effect, named as the effect with a prime for its dollar sign. *)

From S2P Require Import Prelude JsValue Models Filtration Effects Queries AgentCardStore.
From S2P Require Import EffectsFacts EffectsFlags.

(** ** Selectors *)

Definition selectEventsGridFiltrationByField (state : State) : obj Filtration :=
  filtrationToDictionary (eventsGridFiltration state).

(** The request for an action on the agent. *)
Definition agent_action (action : string) (id : val) : val :=
  obj_lit [("action", VStr action); ("filters", VArr [query_filter "id" (VArr [id])])].

Definition move_action (id groupId : val) : val :=
  obj_lit [("action", VStr "move"); ("filters", VArr [query_filter "id" (VArr [id])]);
    ("to", groupId)].

Section effects.
Context `{Language}.

(** ** The agent and its events *)

Definition fetchAgent' : Effect State Action := {|
  name := "fetchAgent$"; triggers := ["[agent-card] Fetch agent"];
  debounced := false; merged := false;
  run _ a :=
    match a with
    | fetchAgent hash =>
        Ok (Some (asks []
          [mkCall "agentsService.fetchOne" [VStr hash];
           mkCall "agentsService.fetchModules" [VStr hash; allListQuery []]]))
    | _ => Ok None
    end;
  receive _ := caught (λ bodies,
    data ← data_of bodies 0;
    modules ← data_of bodies 1;
    Ok (emits [fetchAgentSuccess data modules]))
    (fails fetchAgentFailure)
|}.

Definition fetchEvents' : Effect State Action := {|
  name := "fetchEvents$"; triggers := ["[agent-card] Fetch agent events"];
  debounced := false; merged := false;
  run state a :=
    match a with
    | fetchAgentEvents id page =>
        page ← page_or_first page;
        let query := defaultListQuery [("page", vint page);
          ("filters", VArr ([query_filter "data" (VStr (eventsGridSearch state));
                             query_filter "agent_id" (VArr [id])]
                            ++ filters_val (eventsGridFiltration state)));
          ("sort", sort_val (eventsSorting state))] in
        Ok (Some (asks [vint page] [mkCall "eventsService.fetchEvents" [query]]))
    | _ => Ok None
    end;
  receive q := caught (with_data (λ data, fetchAgentEventsSuccess data (captured_page q)))
    (fails fetchAgentEventsFailure)
|}.

Definition fetchEventFilterItems' : Effect State Action := {|
  name := "fetchEventFilterItems$"; triggers := ["[agent-card] Fetch filter items of events"];
  debounced := false; merged := false;
  run state _ :=
    id ← get (agent state) "id";
    Ok (Some (asks [] [mkCall "eventsService.fetchEvents"
      [allGroupedListQuery [("filters", filters_and (eventsGridFiltration state)
         [query_filter "agent_id" (VArr [id])])] "module_id"]]));
  receive _ := caught (λ bodies,
    moduleIds ← data_at bodies 0 "grouped"; Ok (emits [fetchEventFilterItemsSuccess moduleIds]))
    (fails_whole fetchEventFilterItemsFailure)
|}.

Definition setEventsGridFiltration' : Effect State Action := {|
  name := "setEventsGridFiltration$";
  triggers := ["[agent-card] Set events grid filtration"; "[agent-card] Set events grid search";
    "[agent-card] Set events grid sorting"; "[agent-card] Reset events filtration"];
  debounced := false; merged := false;
  run state _ := id ← get (agent state) "id"; Ok (Some (emits [fetchAgentEvents id (vint 1)]));
  receive := no_receive
|}.

Definition setEventsGridFilterItems' : Effect State Action := {|
  name := "setEventsGridFilterItems$";
  triggers := ["[agent-card] Set events grid filtration"; "[agent-card] Reset events filtration"];
  debounced := false; merged := false;
  run _ _ := Ok (Some (emits [fetchEventFilterItems]));
  receive := no_receive
|}.

(** ** Operations on the agent *)

Definition upgradeAgent' : Effect State Action := {|
  name := "upgradeAgent$"; triggers := ["[agent-card] Upgrade selected agent"];
  debounced := false; merged := false;
  run _ a :=
    match a with
    | upgradeAgent agent version =>
        ids ← (if truthy agent then id ← get agent "id"; Ok [id] else Ok []);
        Ok (Some (asks [] [mkCall "upgradesService.upgradeAgent"
          [obj_lit [("filters", VArr [query_filter "id" (VArr ids)]); ("version", VStr version)]]]))
    | _ => Ok None
    end;
  receive _ := caught (succeeds [upgradeAgentSuccess])
    (fails_telling "agents.Agents.EditAgent.ErrorText.UpgradeAgent" upgradeAgentFailure)
|}.

Definition cancelUpgradeAgent' : Effect State Action := {|
  name := "cancelUpgradeAgent$"; triggers := ["[agent-card] Cancel upgrade agent"];
  debounced := false; merged := false;
  run _ a :=
    match a with
    | cancelUpgradeAgent hash task =>
        Ok (Some (asks [] [mkCall "upgradesService.updateLastAgentDetails" [VStr hash; canceled task]]))
    | _ => Ok None
    end;
  receive _ := caught (succeeds [cancelUpgradeAgentSuccess]) (fails cancelUpgradeAgentFailure)
|}.

(** The group is created, then the agent is moved: two [switchMap]s.  An error
    of either is caught behind them; the handler goes on with the source. *)
Definition moveToNewGroup' : Effect State Action := {|
  name := "moveToNewGroup$"; triggers := ["[agent-card] Move agent to new group"];
  debounced := false; merged := false;
  run _ a :=
    match a with
    | moveAgentToNewGroup id groupName =>
        Ok (Some (asks [id] [mkCall "groupsService.create"
          [obj_lit [("name", VStr groupName); ("tags", VArr [])]]]))
    | _ => Ok None
    end;
  receive q := caught (λ bodies,
    match stage q with
    | O =>
        groupId ← data_atq bodies 0 "id";
        let id := default VUndef (head (captured q)) in
        Ok (mkReaction [] (Some (mkRequest 1 [] [mkCall "agentsService.doAction"
          [move_action id groupId]])) [] Stays)
    | S _ => Ok (emits [moveAgentToNewGroupSuccess])
    end)
    (λ response,
       error ← get response "error";
       Ok (mkReaction [moveAgentToNewGroupFailure error] None [] Restarts))
|}.

Definition moveToGroup' : Effect State Action := {|
  name := "moveToGroup$"; triggers := ["[agent-card] Move agent to group"];
  debounced := false; merged := false;
  run _ a :=
    match a with
    | moveAgentToGroup id groupId =>
        Ok (Some (asks [] [mkCall "agentsService.doAction" [move_action id groupId]]))
    | _ => Ok None
    end;
  receive _ := caught (succeeds [moveAgentToGroupSuccess]) (fails_with moveAgentToGroupFailure)
|}.

Definition updateAgent' : Effect State Action := {|
  name := "updateAgent$"; triggers := ["[agent-card] Update agent"];
  debounced := false; merged := false;
  run _ a :=
    match a with
    | updateAgent agent =>
        hash ← get agent "hash";
        dto ← agentToDto agent;
        Ok (Some (asks [] [mkCall "agentsService.update"
          [hash; obj_lit [("action", VStr "edit"); ("agent", dto)]]]))
    | _ => Ok None
    end;
  receive _ := caught (succeeds [updateAgentSuccess]) (fails_with updateAgentFailure)
|}.

Definition blockAgent' : Effect State Action := {|
  name := "blockAgent$"; triggers := ["[agent-card] Block agent"];
  debounced := false; merged := false;
  run _ a :=
    match a with
    | blockAgent id => Ok (Some (asks [] [mkCall "agentsService.doAction" [agent_action "block" id]]))
    | _ => Ok None
    end;
  receive _ := caught (succeeds [blockAgentSuccess])
    (fails_telling "agents.Agents.EditAgent.ErrorText.BlockAgent" blockAgentFailure)
|}.

Definition deleteAgent' : Effect State Action := {|
  name := "deleteAgent$"; triggers := ["[agent-card] Delete agent"];
  debounced := false; merged := false;
  run _ a :=
    match a with
    | deleteAgent id => Ok (Some (asks [] [mkCall "agentsService.doAction" [agent_action "delete" id]]))
    | _ => Ok None
    end;
  receive _ := caught (succeeds [deleteAgentSuccess]) (fails_with deleteAgentFailure)
|}.

(** ** The feature *)

Definition AgentCardEffects : list (Effect State Action) :=
  [fetchAgent'; fetchEvents'; fetchEventFilterItems'; setEventsGridFiltration';
   setEventsGridFilterItems'; upgradeAgent'; cancelUpgradeAgent'; moveToNewGroup'; moveToGroup';
   updateAgent'; blockAgent'; deleteAgent'].

#[export] Instance card_feature : Feature State Action := {
  reducing := reducer;
  type_of := action_type;
  effects := AgentCardEffects
}.

(** Actions that lead to others at once, with all they lead to. *)
Definition card_weight (a : Action) : nat :=
  match a with
  | setEventsGridFiltration _ | setEventsGridSearch _ | setEventsGridSorting _
  | resetEventsFiltration => 3
  | _ => 1
  end.

Definition card_share (e : Effect State Action) : nat :=
  if includes (name e) ["setEventsGridFiltration$"; "setEventsGridFilterItems$"] then 1 else 0.

End effects.

(** ** Runs of the agent card store

    The actions an action leads to come to an end ([Cascade]), and every
    progress flag belongs to one effect ([Flags]).
    Left out: [isMovingAgent], which two effects share. *)

Section runs.
Context `{Language}.

#[export] Instance card_cascade : Cascade State Action.
Proof. refine {| weight := card_weight; share := card_share |}; solve_cascade. Defined.

(** The flags the page shows, with the effect each one belongs to. *)
Definition card_flags : list (Flag State Action) :=
  [mkFlag [fetchAgent'] isLoadingAgent
     ["[agent-card] Fetch agent success"; "[agent-card] Fetch agent failure"];
   mkFlag [fetchEvents'] isLoadingEvents
     ["[agent-card] Fetch agent events - Success"; "[agent-card] Fetch agent events - Failure"];
   mkFlag [fetchEventFilterItems'] isLoadingEventFilterItems
     ["[agent-card] Fetch filter items of events - Success";
      "[agent-card] Fetch filter items of events - Failure"];
   mkFlag [upgradeAgent'] isUpgradingAgent
     ["[agent-card] Upgrade selected agent success"; "[agent-card] Upgrade selected agent failure"];
   mkFlag [cancelUpgradeAgent'] isCancelUpgradingAgent
     ["[agent-card] Cancel upgrade agent success"; "[agent-card] Cancel upgrade agent failure"];
   mkFlag [updateAgent'] isUpdatingAgent
     ["[agent-card] Update agent success"; "[agent-card] Update agent failure"];
   mkFlag [blockAgent'] isBlockingAgent
     ["[agent-card] Block agent success"; "[agent-card] Block agent failure"];
   mkFlag [deleteAgent'] isDeletingAgent
     ["[agent-card] Delete agent success"; "[agent-card] Delete agent failure"];
   mkFlag [moveToNewGroup'; moveToGroup'] isMovingAgent
     ["[agent-card] Move agent to new group success";
      "[agent-card] Move agent to new group failure";
      "[agent-card] Move agent to group success";
      "[agent-card] Move agent to group failure"]].

#[export] Instance card_flagged : Flags State Action.
Proof. refine {| flags := card_flags |}; solve_flags. Defined.
End runs.
