(* ===== verification/ModulesInstancesEffects.v ===== *)
(** * Effects of the module instances store

    [libs/store/modules-instances/src/lib/modules-instances.effects.ts].  One
    definition per effect, named as the effect with a prime for its dollar
    sign. *)

From S2P Require Import Prelude JsValue Models Filtration Effects Queries ModulesInstancesStore.
From S2P Require Import EffectsFacts EffectsFlags.

Definition selectEventsGridFiltrationByField (state : State) : obj Filtration :=
  filtrationToDictionary (eventsGridFiltration state).

(** The filters of the entity whose module is shown; spreading what the
    function returns for another view mode, [undefined], throws. *)
Definition getEventsFiltration (viewMode entityId moduleName : val) : res (list val) :=
  let base field := Ok [query_filter field entityId; query_filter "module_name" moduleName] in
  if is_str viewMode "agents" then base "agent_id"
  else if is_str viewMode "groups" then base "group_id"
  else if is_str viewMode "policies" then base "policy_id"
  else Throw TypeError.

Section effects.
Context `{Language}.

(** ** Events *)

Definition fetchEvents' : Effect State Action := {|
  name := "fetchEvents$"; triggers := ["[modules-instances] Fetch events"];
  debounced := false; merged := false;
  run state a :=
    match a with
    | fetchEvents page =>
        page ← page_or_first page;
        baseFiltration ← getEventsFiltration (viewMode state) (entityId state) (moduleName state);
        let query := defaultListQuery [("page", vint page);
          ("filters", VArr (baseFiltration ++ [query_filter "data" (VStr (eventsGridSearch state))]
                            ++ filters_val (eventsGridFiltration state)));
          ("sort", sort_val (eventsSorting state))] in
        Ok (Some (asks [vint page] [mkCall "eventsService.fetchEvents" [query]]))
    | _ => Ok None
    end;
  receive q := caught (with_data (λ data, fetchEventsSuccess data (captured_page q)))
    (fails fetchEventsFailure)
|}.

Definition fetchModuleEventsFilterItems' : Effect State Action := {|
  name := "fetchModuleEventsFilterItems$";
  triggers := ["[modules-instances] Fetch module event filter items"];
  debounced := false; merged := false;
  run state _ :=
    base ← getEventsFiltration (viewMode state) (entityId state) (moduleName state);
    let query := allGroupedListQuery
      [("filters", VArr (base ++ filters_val (eventsGridFiltration state)))] in
    Ok (Some (asks []
      [mkCall "eventsService.fetchEvents" [query "agent_name"];
       mkCall "eventsService.fetchEvents" [query "group_id"]]));
  receive _ := caught (λ bodies,
    agentNames ← data_at bodies 0 "grouped";
    groupIds ← data_at bodies 1 "grouped";
    Ok (emits [fetchModuleEventsFilterItemsSuccess agentNames groupIds]))
    (fails_whole fetchModuleEventsFilterItemsFailure)
|}.

Definition setEventsGridFiltration' : Effect State Action := {|
  name := "setEventsGridFiltration$";
  triggers := ["[modules-instances] Set events grid search";
    "[modules-instances] Set events grid filtration"; "[modules-instances] Reset events filtration";
    "[modules-instances] Set events grid sorting"];
  debounced := false; merged := false;
  run _ _ := Ok (Some (emits [fetchEvents (vint 1); fetchModuleEventsFilterItems]));
  receive := no_receive
|}.

(** ** Operations on the module *)

Definition fetchModuleVersions' : Effect State Action := {|
  name := "fetchModuleVersions$"; triggers := ["[modules-instances] Fetch module versions"];
  debounced := false; merged := false;
  run _ a :=
    match a with
    | fetchModuleVersions moduleName =>
        Ok (Some (asks [] [mkCall "modulesService.fetchVersions" [VStr moduleName]]))
    | _ => Ok None
    end;
  receive _ := caught (with_data fetchModuleVersionSuccess) (fails fetchModuleVersionsFailed)
|}.

Definition enableModule' : Effect State Action := {|
  name := "enableModule$"; triggers := ["[modules-instances] Enable module"];
  debounced := false; merged := false;
  run _ a :=
    match a with
    | enableModule policyHash moduleName =>
        Ok (Some (asks [] [mkCall "policiesService.activateModule" [VStr policyHash; VStr moduleName]]))
    | _ => Ok None
    end;
  receive _ := caught (succeeds [enableModuleSuccess]) (fails_with enableModuleFailure)
|}.

Definition disableModule' : Effect State Action := {|
  name := "disableModule$"; triggers := ["[modules-instances] Disable module"];
  debounced := false; merged := false;
  run _ a :=
    match a with
    | disableModule policyHash moduleName =>
        Ok (Some (asks [] [mkCall "policiesService.deactivateModule" [VStr policyHash; VStr moduleName]]))
    | _ => Ok None
    end;
  receive _ := caught (succeeds [disableModuleSuccess]) (fails_with disableModuleFailure)
|}.

Definition deleteModule' : Effect State Action := {|
  name := "deleteModule$"; triggers := ["[modules-instances] Delete module"];
  debounced := false; merged := false;
  run _ a :=
    match a with
    | deleteModule policyHash moduleName =>
        Ok (Some (asks [] [mkCall "policiesService.deleteModule" [VStr policyHash; VStr moduleName]]))
    | _ => Ok None
    end;
  receive _ := caught (succeeds [deleteModuleSuccess]) (fails_with deleteModuleFailure)
|}.

Definition changeModuleVersion' : Effect State Action := {|
  name := "changeModuleVersion$"; triggers := ["[modules-instances] Change module version "];
  debounced := false; merged := false;
  run _ a :=
    match a with
    | changeModuleVersion policyHash moduleName version =>
        Ok (Some (asks [] [mkCall "policiesService.changeModuleVersion"
          [VStr policyHash; VStr moduleName; VStr version]]))
    | _ => Ok None
    end;
  receive _ := caught (succeeds [changeModuleVersionSuccess]) (fails_with changeModuleVersionFailure)
|}.

Definition updateModule' : Effect State Action := {|
  name := "updateModule$"; triggers := ["[modules-instances] Update module"];
  debounced := false; merged := false;
  run _ a :=
    match a with
    | updateModule policyHash moduleName version =>
        Ok (Some (asks [] [mkCall "policiesService.updateModule"
          [VStr policyHash; VStr moduleName; VStr version]]))
    | _ => Ok None
    end;
  receive _ := caught (succeeds [updateModuleSuccess]) (fails_with updateModuleFailure)
|}.

Definition saveModule' : Effect State Action := {|
  name := "saveModule$"; triggers := ["[modules-instances] Save module"];
  debounced := false; merged := false;
  run _ a :=
    match a with
    | saveModuleConfig policyHash module =>
        Ok (Some (asks [] [mkCall "policiesService.storeModule" [VStr policyHash; module]]))
    | _ => Ok None
    end;
  receive _ := caught (λ _,
    Ok (mkReaction [saveModuleConfigSuccess] None
      [mkCall "toastService.show"
         [VStr "shared.Shared.ModulesConfig.ToastText.SuccessfullySaveModuleConfig"]] Stays))
    (fails_with saveModuleConfigFailure)
|}.

(** ** The feature *)

Definition ModulesInstancesEffects : list (Effect State Action) :=
  [fetchEvents'; fetchModuleEventsFilterItems'; setEventsGridFiltration'; fetchModuleVersions';
   enableModule'; disableModule'; deleteModule'; changeModuleVersion'; updateModule'; saveModule'].

#[export] Instance instances_feature : Feature State Action := {
  reducing := reducer;
  type_of := action_type;
  effects := ModulesInstancesEffects
}.

(** Actions that lead to others at once, with all they lead to. *)
Definition instances_weight (a : Action) : nat :=
  match a with
  | setEventsGridFiltration _ | setEventsGridSearch _ | setEventsGridSorting _
  | resetEventsFiltration => 3
  | _ => 1
  end.

Definition instances_share (e : Effect State Action) : nat :=
  if String.eqb (name e) "setEventsGridFiltration$" then 2 else 0.

End effects.

(** ** Runs of the module instances store

    The actions an action leads to come to an end ([Cascade]), and every
    progress flag belongs to one effect ([Flags]). *)

Section runs.
Context `{Language}.

#[export] Instance instances_cascade : Cascade State Action.
Proof. refine {| weight := instances_weight; share := instances_share |}; solve_cascade. Defined.

(** The flags the page shows, with the effect each one belongs to. *)
Definition instances_flags : list (Flag State Action) :=
  [mkFlag [fetchModuleVersions'] isLoadingModuleVersions
     ["[modules-instances] Fetch module versions success";
      "[modules-instances] Fetch module versions failed"];
   mkFlag [fetchEvents'] isLoadingEvents
     ["[modules-instances] Fetch events success"; "[modules-instances] Fetch events failure"];
   mkFlag [fetchModuleEventsFilterItems'] isLoadingModuleEventsFilterItems
     ["[modules-instances] Fetch module events filter items success";
      "[modules-instances] Fetch module events filter items failure"];
   mkFlag [enableModule'] isEnablingModule
     ["[modules-instances] Enable module success"; "[modules-instances] Enable module failure"];
   mkFlag [disableModule'] isDisablingModule
     ["[modules-instances] Disable module success"; "[modules-instances] Disable module failure"];
   mkFlag [deleteModule'] isDeletingModule
     ["[modules-instances] Delete module success"; "[modules-instances] Delete module failure"];
   mkFlag [changeModuleVersion'] isChangingVersion
     ["[modules-instances] Change module version success";
      "[modules-instances] Change module version failure"];
   mkFlag [updateModule'] isUpdatingModule
     ["[modules-instances] Update module success"; "[modules-instances] Update module failure"];
   mkFlag [saveModule'] isSavingModuleConfig
     ["[modules-instances] Save module success"; "[modules-instances] Save module failure"]].

#[export] Instance instances_flagged : Flags State Action.
Proof. refine {| flags := instances_flags |}; solve_flags. Defined.
End runs.
