(* ===== verification/SharedEffects.v ===== *)
(** * Effects of the shared store

    [libs/store/shared/src/lib/shared.effects.ts] and the derived selectors of
    [shared.selectors.ts].  One definition per effect, named as the effect
    with a prime for its dollar sign. *)

From S2P Require Import Prelude JsString JsValue SharedUtils Models Effects Queries SharedStore.
From S2P Require Import EffectsFacts EffectsFlags.

(** ** Selectors *)

(** [state.info?.type === 'user'] *)
Definition selectIsAuthorized (state : State) : res bool :=
  type ← getq (info state) "type"; Ok (is_str type "user").

Definition by_name (a b : string * val) : Prop := String.le a.1 b.1.
#[export] Instance by_name_dec : RelDecision by_name.
Proof. intros a b. unfold by_name. apply _. Defined.
#[export] Instance by_name_total : Total by_name.
Proof. intros a b. unfold by_name. apply (base.total String.le). Qed.

(** The active services, by name; the names of services are strings. *)
Definition selectShortServices (state : State) : res val :=
  services ← getq (info state) "services";
  if truthy services then
    l ← as_array services;
    l ← mapM (λ service,
      status ← get service "status";
      Ok (service, is_str status "active")) l;
    l ← mapM (λ service,
      name ← getq service "name";
      hash ← getq service "hash";
      name' ← as_string name;
      Ok (name', obj_lit [("name", name); ("path", VStr ("/services/" +:+ to_string hash))]))
      (filter (λ p, p.2 = true) l).*1;
    Ok (VArr (merge_sort by_name l).*2)
  else Ok (VArr []).

(** [state.info?.user?.password_change_required] *)
Definition selectIsPasswordChangeRequired (state : State) : res val :=
  user ← getq (info state) "user"; getq user "password_change_required".

(** ** Helpers of the effects *)

(** [list?.includes(value)] for an array *)
Definition includesq (list : val) (value : string) : res bool :=
  if is_nullish list then Ok false
  else l ← as_array list; Ok (existsb (strict_eq (VStr value)) l).

(** [s.replace(part, '')] *)
Fixpoint remove_first (part s : string) : string :=
  match strip_prefix part s with
  | Some rest => rest
  | None => match s with "" => "" | String c s => String c (remove_first part s) end
  end.

(** A user who may not view the services sees their hashes for names. *)
Definition hideServices (data : val) : res val :=
  privileges ← getq data "privileges";
  visible ← includesq privileges "vxapi.services.api.view";
  service ← getq data "service";
  if negb visible && truthy service then
    hash ← getq service "hash";
    services ← getq data "services";
    services ← map_arrayq (λ service,
      hash ← get service "hash"; Ok (spread service [("name", hash)])) services;
    Ok (spread data [("service", spread service [("name", hash)]); ("services", services)])
  else Ok data.

(** The path of the page. *)
Class Location := { pathname : string }.

(** ** Effects *)

Section effects.
Context `{Language} `{Location}.

Definition changePassword' : Effect State Action := {|
  name := "changePassword$"; triggers := ["[shared] Change password"];
  debounced := false; merged := false;
  run _ a :=
    match a with
    | changePassword data => Ok (Some (asks [] [mkCall "userService.changePassword" [data]]))
    | _ => Ok None
    end;
  receive _ := caught (λ _,
    Ok (mkReaction [changePasswordSuccess] None
      [mkCall "toastService.show" [VStr "shared.Shared.Pseudo.ToastText.SuccessPasswordChange"]]
      Stays))
    (fails_with changePasswordFailure)
|}.

Definition fetchAllGroups' : Effect State Action := {|
  name := "fetchAllGroups$"; triggers := ["[shared] Fetch all groups"];
  debounced := true; merged := false;
  run _ _ := Ok (Some (asks [] [mkCall "groupsService.fetchList"
    [allListQuery [("sort", obj_lit [("prop", VStr "name"); ("order", VStr "ascending")])]]]));
  receive _ := caught (with_data fetchAllGroupsSuccess) (fails fetchAllGroupsFailure)
|}.

Definition fetchAllAgents' : Effect State Action := {|
  name := "fetchAllAgents$"; triggers := ["[shared] Fetch all agents"];
  debounced := true; merged := false;
  run _ _ := Ok (Some (asks [] [mkCall "agentsService.fetchList" [allListQuery []]]));
  receive _ := caught (with_data fetchAllAgentsSuccess) (fails fetchAllAgentsFailure)
|}.

Definition fetchAllPolicies' : Effect State Action := {|
  name := "fetchAllPolicies$"; triggers := ["[shared] Fetch all policies"];
  debounced := true; merged := false;
  run _ _ := Ok (Some (asks [] [mkCall "policiesService.fetchList" [allListQuery []]]));
  receive _ := caught (with_data fetchAllPoliciesSuccess) (fails fetchAllPoliciesFailure)
|}.

Definition fetchAllServices' : Effect State Action := {|
  name := "fetchAllServices$"; triggers := ["[shared] Fetch all services"];
  debounced := true; merged := false;
  run _ _ := Ok (Some (asks [] [mkCall "servicesService.fetchServiceList" [allListQuery []]]));
  receive _ := caught (with_data fetchAllServicesSuccess) (fails_whole fetchAllServicesFailure)
|}.

Definition fetchAllModules' : Effect State Action := {|
  name := "fetchAllModules$"; triggers := ["[shared] Fetch all modules"];
  debounced := true; merged := false;
  run _ _ := Ok (Some (asks [] [mkCall "modulesService.fetchList" [allListQuery []]]));
  receive _ := caught (with_data fetchAllModulesSuccess) (fails fetchAllModulesFailure)
|}.

Definition exportBinaryFile' : Effect State Action := {|
  name := "exportBinaryFile$"; triggers := ["[shared] Export binary file"];
  debounced := false; merged := false;
  run _ a :=
    match a with
    | exportBinaryFile os arch pack version =>
        Ok (Some (asks []
          [mkCall "binariesService.getBinaryFile" [os; arch; pack; VStr version]]))
    | _ => Ok None
    end;
  receive _ := caught (λ bodies,
    Ok (mkReaction [exportBinaryFileSuccess] None [mkCall "saveFile" [body bodies 0]] Stays))
    (fails_with exportBinaryFileFailure)
|}.

Definition fetchInfo' : Effect State Action := {|
  name := "fetchInfo$"; triggers := ["[shared] Fetch info"];
  debounced := true; merged := false;
  run _ a :=
    match a with
    | fetchInfo refreshCookie =>
        Ok (Some (asks [] [mkCall "publicService.getUserInfo" [VBool refreshCookie]]))
    | _ => Ok None
    end;
  receive _ := uncaught (λ bodies,
    data ← getq (body bodies 0) "data";
    info ← hideServices data;
    Ok (emits [fetchInfoSuccess info]))
|}.

(** Agent binaries, the newest first. *)
Definition binariesQuery (pageSize : Z) : val :=
  defaultListQuery [("sort", obj_lit [("prop", VStr "version"); ("order", VStr "descending")]);
    ("page", vint 1); ("pageSize", vint pageSize)].

Definition fetchLatestVersion' : Effect State Action := {|
  name := "fetchLatestVersion$"; triggers := ["[shared] Fetch latest agent binary"];
  debounced := false; merged := false;
  run _ _ := Ok (Some (asks [] [mkCall "binariesService.getBinaries" [binariesQuery 1]]));
  receive _ := caught (λ bodies,
    data ← getq (body bodies 0) "data"; Ok (emits [fetchLatestAgentBinarySuccess data]))
    (fails fetchLatestAgentBinaryFailure)
|}.

Definition fetchVersions' : Effect State Action := {|
  name := "fetchVersions$"; triggers := ["[shared] Fetch agent binary"];
  debounced := true; merged := false;
  run _ _ := Ok (Some (asks [] [mkCall "binariesService.getBinaries" [binariesQuery (-1)]]));
  receive _ := caught (λ bodies,
    data ← getq (body bodies 0) "data"; Ok (emits [fetchAgentBinariesSuccess data]))
    (fails fetchAgentBinariesFailure)
|}.

(** Whatever the server answers, the page goes to the login page. *)
Definition goToLogin : Reaction Action :=
  mkReaction [] (Some (mkRequest 1 [] [mkCall "router.navigate"
    [vstrs ["/login"]; obj_lit [("queryParams",
       obj_lit [("nextUrl", VStr (remove_first "/password_change" pathname))])]]])) [] Stays.

Definition logout' : Effect State Action := {|
  name := "logout$"; triggers := ["[shared] Logout"];
  debounced := false; merged := false;
  run _ _ := Ok (Some (asks [] [mkCall "publicService.logout" []]));
  receive q :=
    match stage q with
    | 0 => caught (λ _, Ok goToLogin) (λ _, Ok goToLogin)
    | _ => caught (succeeds [logoutSuccess]) (fails logoutFailure)
    end
|}.

Definition fetchOptionsActions' : Effect State Action := {|
  name := "fetchOptionsActions$"; triggers := ["[shared] Fetch options actions"];
  debounced := true; merged := false;
  run _ _ := Ok (Some (asks [] [mkCall "optionsService.fetchOptionsActions" [allListQuery []]]));
  receive _ := caught (with_data fetchOptionsActionsSuccess) (fails_whole fetchOptionsActionsFailure)
|}.

Definition fetchOptionsEvents' : Effect State Action := {|
  name := "fetchOptionsEvents$"; triggers := ["[shared] Fetch options events"];
  debounced := true; merged := false;
  run _ _ := Ok (Some (asks [] [mkCall "optionsService.fetchOptionsEvents" [allListQuery []]]));
  receive _ := caught (with_data fetchOptionsEventsSuccess) (fails_whole fetchOptionsEventsFailure)
|}.

Definition fetchOptionsFields' : Effect State Action := {|
  name := "fetchOptionsFields$"; triggers := ["[shared] Fetch options fields"];
  debounced := true; merged := false;
  run _ _ := Ok (Some (asks [] [mkCall "optionsService.fetchOptionsFields" [allListQuery []]]));
  receive _ := caught (with_data fetchOptionsFieldsSuccess) (fails_whole fetchOptionsFieldsFailure)
|}.

Definition fetchOptionsTags' : Effect State Action := {|
  name := "fetchOptionsTags$"; triggers := ["[shared] Fetch options tags"];
  debounced := true; merged := false;
  run _ _ := Ok (Some (asks [] [mkCall "optionsService.fetchOptionsTags" [allListQuery []]]));
  receive _ := caught (with_data fetchOptionsTagsSuccess) (fails_whole fetchOptionsTagsFailure)
|}.

(** ** The feature *)

Definition SharedEffects : list (Effect State Action) :=
  [changePassword'; fetchAllGroups'; fetchAllAgents'; fetchAllPolicies'; fetchAllServices';
   fetchAllModules'; exportBinaryFile'; fetchInfo'; fetchLatestVersion'; fetchVersions';
   logout'; fetchOptionsActions'; fetchOptionsEvents'; fetchOptionsFields'; fetchOptionsTags'].

#[export] Instance shared_feature : Feature State Action := {
  reducing := reducer;
  type_of := action_type;
  effects := SharedEffects
}.

(** No action leads to another at once. *)
Definition shared_weight (_ : Action) : nat := 1.

Definition shared_share (_ : Effect State Action) : nat := 0.

End effects.

(** ** Runs of the shared store

    The actions an action leads to come to an end ([Cascade]), and every
    progress flag belongs to one effect ([Flags]). *)

Section runs.
Context `{Language} `{Location}.

#[export] Instance shared_cascade : Cascade State Action.
Proof. refine {| weight := shared_weight; share := shared_share |}; solve_cascade. Defined.

(** The flags the page shows, with the effect each one belongs to. *)
Definition shared_flags : list (Flag State Action) :=
  [mkFlag [changePassword'] isChangingPassword
     ["[shared] Change password - Success"; "[shared] Change password - Failure"];
   mkFlag [fetchAllGroups'] isLoadingAllGroups
     ["[shared] Fetch all groups - Success"; "[shared] Fetch all groups - Failure"];
   mkFlag [fetchAllAgents'] isLoadingAllAgents
     ["[shared] Fetch all agents - Success"; "[shared] Fetch all agents - Failure"];
   mkFlag [fetchAllPolicies'] isLoadingAllPolicies
     ["[shared] Fetch all policies - Success"; "[shared] Fetch all policies - Failure"];
   mkFlag [fetchAllServices'] isLoadingAllServices
     ["[shared] Fetch all services - Success"; "[shared] Fetch all services - Failure"];
   mkFlag [fetchAllModules'] isLoadingAllModules
     ["[shared] Fetch all modules - Success"; "[shared] Fetch all modules - Failure"];
   mkFlag [exportBinaryFile'] isExportingBinaryFile
     ["[shared] Export binary file - Success"; "[shared] Export binary file - Failure"];
   mkFlag [fetchInfo'] isInfoLoading
     ["[shared] Fetch info - Success"; "[shared] Fetch info - Failure"];
   mkFlag [fetchLatestVersion'] isLoadingLatestAgentBinary
     ["[shared] Fetch latest agent binary - Success";
      "[shared] Fetch latest agent binary - Failure"];
   mkFlag [fetchVersions'] isLoadingAgentBinaries
     ["[shared] Fetch agent binary - Success"; "[shared] Fetch agent binary - Failure"];
   mkFlag [fetchOptionsActions'] isLoadingOptionsActions
     ["[shared] Fetch options actions - Success"; "[shared] Fetch options actions - Failure"];
   mkFlag [fetchOptionsEvents'] isLoadingOptionsEvents
     ["[shared] Fetch options events - Success"; "[shared] Fetch options events - Failure"];
   mkFlag [fetchOptionsFields'] isLoadingOptionsFields
     ["[shared] Fetch options fields - Success"; "[shared] Fetch options fields - Failure"];
   mkFlag [fetchOptionsTags'] isLoadingOptionsTags
     ["[shared] Fetch options tags - Success"; "[shared] Fetch options tags - Failure"]].

#[export] Instance shared_flagged : Flags State Action.
Proof. refine {| flags := shared_flags |}; solve_flags. Defined.
End runs.
