(* ===== verification/TagsStore.v ===== *)
(** * Tags store

    [libs/store/tags/src/lib]: the tags in use, by domain
    ([tags.actions.ts], [tags.reducer.ts], [tags.selectors.ts],
    [tags.effects.ts]). *)

From S2P Require Import Prelude JsValue Effects Queries EffectsFacts EffectsFlags.

(** ** State *)

(** Both fields are keyed by the domain. *)
Record State := mkState { tags : obj val; isLoadingTags : obj bool }.

#[export] Instance State_eta : Eta State := ltac:(eta_of State).

Definition initialState : State := {| tags := []; isLoadingTags := [] |}.

Inductive Action :=
| fetchTags (domain : string)
| fetchTagsSuccess (domain : string) (tags : val)
| fetchTagsFailure (domain : string).

Definition action_type (a : Action) : string :=
  match a with
  | fetchTags _ => "[tags] Fetch tags"
  | fetchTagsSuccess _ _ => "[tags] Fetch tags success"
  | fetchTagsFailure _ => "[tags] Fetch tags failure"
  end.

Definition reducer (state : State) (a : Action) : res State :=
  match a with
  | fetchTags domain =>
      Ok { state with isLoadingTags := obj_set domain true (isLoadingTags state) }
  | fetchTagsSuccess domain tags' =>
      Ok { state with isLoadingTags := obj_set domain false (isLoadingTags state);
                      tags := obj_set domain tags' (tags state) }
  | fetchTagsFailure domain =>
      Ok { state with isLoadingTags := obj_set domain false (isLoadingTags state) }
  end.

(** ** Selectors *)

(** [enum TagDomain] of [tags.facade.ts] *)
Definition TagDomain : list string := ["agents"; "groups"; "modules"; "policies"].

(** [state.tags.agents || []], and so for every domain *)
Definition selectTags (domain : string) (state : State) : val :=
  js_or (obj_lookup domain (tags state)) (VArr []).

(** [state.isLoadingTags.agents] *)
Definition selectIsLoadingTags (domain : string) (state : State) : option bool :=
  obj_get domain (isLoadingTags state).

(** ** Effects *)

Section effects.
Context `{Language}.

(** [data?.tags] of the response. *)
Definition fetchTags' : Effect State Action := {|
  name := "fetchTags$"; triggers := ["[tags] Fetch tags"];
  debounced := false; merged := true;
  run _ a :=
    match a with
    | fetchTags domain =>
        Ok (Some (asks [VStr domain] [mkCall "tagsService.fetchList"
          [allListQuery [("filters", VArr [query_filter "type" (VStr domain)])]]]))
    | _ => Ok None
    end;
  receive q := uncaught (λ bodies,
    tags ← data_atq bodies 0 "tags";
    match captured q with
    | VStr domain :: _ => Ok (emits [fetchTagsSuccess domain tags])
    | _ => Ok (emits [])
    end)
|}.

Definition TagsEffects : list (Effect State Action) := [fetchTags'].

#[export] Instance tags_feature : Feature State Action := {
  reducing := reducer;
  type_of := action_type;
  effects := TagsEffects
}.

Definition tags_weight (_ : Action) : nat := 1.

Definition tags_share (_ : Effect State Action) : nat := 0.

End effects.

(** ** Runs of the tags store

    The actions an action leads to come to an end, and what a failed request
    does to the others. *)

Section runs.
Context `{Language}.

#[export] Instance tags_cascade : Cascade State Action.
Proof. refine {| weight := tags_weight; share := tags_share |}; solve_cascade. Defined.

(** A failed answer is an error of the effect: all the requests it has made go. *)
Lemma failure_cancels_all s i n q error s' :
  tidy s → flying s !! i = Some (n, q) → respond s i (Failed error) = Ok s' →
  flying s' = [] ∧ store s' = store s.
Proof.
  intros (_ & Hsub & _ & _ & _ & Hfl & _) Hi Hr. unfold respond in Hr. rewrite Hi in Hr.
  assert (∀ m, m ∈ (flying s).*1 → m = "fetchTags$") as Hall.
  { intros m Hm. apply Hfl, Hsub in Hm. simpl in Hm. by apply list_elem_of_singleton in Hm. }
  assert (n = "fetchTags$") as ->.
  { apply Hall. apply list_elem_of_fmap. exists (n, q). split; [done|]. by eapply list_elem_of_lookup_2. }
  simpl in Hr. unfold dispatch_all, react, restart in Hr. simpl in Hr.
  destruct (bool_decide _); cbn [mbind res_bind foldM] in Hr; [|done]. injection Hr as <-.
  split; [|done]. simpl. unfold constant. apply elem_of_nil_inv.
  intros x [Hne Hx]%list_elem_of_filter. apply Hne, Hall. apply list_elem_of_fmap. exists x. split; [done|].
  eapply elem_of_sublist; [apply sublist_delete|exact Hx].
Qed.
End runs.
