(* ===== verification/ListGrids.v ===== *)
(** * The lists of policies and groups as grids

    What each action is to a list, and the proof that the stores and their
    effects keep the promises of [Grid]. *)

From S2P Require Import Prelude JsValue Models Filtration Paging Effects EffectsFacts.
From S2P Require Import EffectsFlags Queries Grid.
From S2P Require PoliciesStore PoliciesEffects GroupsStore GroupsEffects.

(** ** The list of policies as a grid

    What each action is to the list, and the proof that the store and its
    effects keep the promises of [Grid]. *)

Module PoliciesGrid.
Import PoliciesStore PoliciesEffects.

Definition policies_role (a : Action) : Role :=
  match a with
  | fetchPoliciesPage page => match page_or_first page with Ok p => Fetch p | Throw _ => Wild end
  | fetchPoliciesPageSuccess data page => Loaded data page
  | fetchPoliciesPageFailure => Missed
  | selectFilter _ | selectGroup _ | selectPolicyGroup _ | setGridFiltration _
  | setGridFiltrationByTag _ | setAgentsGridFiltrationByTag _ | setGroupsGridFiltrationByTag _
  | setGridSearch _ | setGridSorting _ | resetFiltration => Refilter
  | updateFilters _ | restoreState _ | reset => Wild
  | _ => Calm
  end.

Definition policies_query (state : State) : val :=
  listQuery (listFilters (rawValue (filters state) (selectedFilterId state)) (selectedGroupId state)
    (gridFiltration state) (VStr (gridSearch state))) (sorting state).

Section grid.
Context `{Language}.

Lemma policies_query_spec state query :
  selectInitialListQuery state = Ok query → query = policies_query state.
Proof.
  unfold selectInitialListQuery, initialFilters, selectSelectedFilter, selectFiltersWithCounter.
  intros Hq. inv_res. unfold policies_query. do 2 f_equal. symmetry.
  eapply withCounter_value; eassumption.
Qed.

#[export] Instance policies_grid : Grid State Action.
Proof.
  refine {|
    pager := fetchPoliciesPage'; refresher := setGridFiltration'; role := policies_role;
    page_of st := mkPage (policies st) (page st) (total st);
    conv := privatePoliciesToModels; items := "policies"; service := "policiesService.fetchList";
    full st i := pageQuery (policies_query st) i |}.
  - apply list_elem_of_In; simpl; tauto.
  - apply list_elem_of_In; simpl; tauto.
  - done.
  - done.
  - done.
  - intros a p Ha; destruct a; by_role Ha.
  - solve_pager_hears.
  - intros a Ha; destruct a; by_role Ha.
  - intros a Ha; destruct a; by_role Ha.
  - intros st a p Ha. destruct a; try discriminate Ha. simpl in *.
    destruct (page_or_first _) as [z|] eqn:Hz; [|done]. injection Ha as <-.
    destruct (selectInitialListQuery st) as [q|] eqn:Hq; simpl; [|done].
    by rewrite (policies_query_spec _ _ Hq).
  - solve_pager_answered fetchPoliciesPageSuccess.
  - by eexists.
  - solve_refresher_run.
  - done.
  - solve_others_run.
  - solve_others_receive.
  - solve_reduce_page.
  - solve_reduce_full.
Defined.
End grid.
End PoliciesGrid.

(** ** The list of groups as a grid

    What each action is to the list, and the proof that the store and its
    effects keep the promises of [Grid]. *)

Module GroupsGrid.
Import GroupsStore GroupsEffects.

Definition groups_role (a : Action) : Role :=
  match a with
  | fetchGroupsPage page => match page_or_first page with Ok p => Fetch p | Throw _ => Wild end
  | fetchGroupsPageSuccess data page => Loaded data page
  | fetchGroupsPageFailure => Missed
  | setGridFiltration _ | setGridFiltrationByTag _ | setAgentsGridFiltrationByTag _
  | setPoliciesGridFiltrationByTag _ | setGridSearch _ | setGridSorting _ | resetFiltration => Refilter
  | restoreState _ | reset => Wild
  | _ => Calm
  end.

Section grid.
Context `{Language}.

#[export] Instance groups_grid : Grid State Action.
Proof.
  refine {|
    pager := fetchGroupsPage'; refresher := setGridFiltration'; role := groups_role;
    page_of st := mkPage (groups st) (page st) (total st);
    conv := privateGroupsToModels; items := "groups"; service := "groupsService.fetchList";
    full st i := pageQuery (selectInitialListQuery st) i |}.
  - apply list_elem_of_In; simpl; tauto.
  - apply list_elem_of_In; simpl; tauto.
  - done.
  - done.
  - done.
  - intros a p Ha; destruct a; by_role Ha.
  - solve_pager_hears.
  - intros a Ha; destruct a; by_role Ha.
  - intros a Ha; destruct a; by_role Ha.
  - intros st a p Ha. destruct a; try discriminate Ha. simpl in *.
    by destruct (page_or_first _) as [z|] eqn:Hz; [injection Ha as <-|].
  - solve_pager_answered fetchGroupsPageSuccess.
  - by eexists.
  - solve_refresher_run.
  - done.
  - solve_others_run.
  - solve_others_receive.
  - solve_reduce_page.
  - solve_reduce_full.
Defined.
End grid.
End GroupsGrid.
