(* ===== verification/StoreSessionTheorems.v ===== *)
(** * The stores of the client, live

    Every list store with its effects, as one kind of thing: what the
    properties of sessions are proved for. *)

From S2P Require Import Prelude JsValue Effects EffectsFacts EffectsFlags Queries Models.
From S2P Require Import SharedUtils.
From S2P Require PoliciesStore GroupsStore AgentListStore AgentCardStore ModuleListStore.
From S2P Require ModulesInstancesStore SharedStore PoliciesEffects GroupsEffects.
From S2P Require AgentListEffects AgentCardEffects ModuleListEffects ModulesInstancesEffects.
From S2P Require SharedEffects TagsStore.

(** A store with its effects: its cascades end, it knows whose flag is whose,
    and no flag is raised at first. *)
Record LiveStore := mkLive {
  liveState : Type;
  liveAction : Type;
  liveFeature : Feature liveState liveAction;
  liveCascade : Cascade liveState liveAction;
  liveFlags : Flags liveState liveAction;
  liveInitial : liveState;
  live_lowered : ∀ f, f ∈ flags → raised f liveInitial = false
}.
Arguments mkLive {_ _}.
#[export] Existing Instances liveFeature liveCascade liveFlags.

Ltac solve_lowered := intros ? Hf; each_elem Hf; reflexivity.

Section stores.
Context `{Language} `{SharedEffects.Location}.

Definition policies_live : LiveStore.
Proof.
  refine (mkLive PoliciesEffects.policies_feature PoliciesEffects.policies_cascade PoliciesEffects.policies_flagged
    PoliciesStore.initialState _).
  abstract solve_lowered.
Defined.

Definition groups_live : LiveStore.
Proof.
  refine (mkLive GroupsEffects.groups_feature GroupsEffects.groups_cascade GroupsEffects.groups_flagged
    GroupsStore.initialState _).
  abstract solve_lowered.
Defined.

Definition agents_live : LiveStore.
Proof.
  refine (mkLive AgentListEffects.agents_feature AgentListEffects.agents_cascade AgentListEffects.agents_flagged
    AgentListStore.initialState _).
  abstract solve_lowered.
Defined.

Definition card_live : LiveStore.
Proof.
  refine (mkLive AgentCardEffects.card_feature AgentCardEffects.card_cascade AgentCardEffects.card_flagged
    AgentCardStore.initialState _).
  abstract solve_lowered.
Defined.

Definition modules_live : LiveStore.
Proof.
  refine (mkLive ModuleListEffects.modules_feature ModuleListEffects.modules_cascade ModuleListEffects.modules_flagged
    ModuleListStore.initialState _).
  abstract solve_lowered.
Defined.

Definition instances_live : LiveStore.
Proof.
  refine (mkLive ModulesInstancesEffects.instances_feature ModulesInstancesEffects.instances_cascade ModulesInstancesEffects.instances_flagged
    ModulesInstancesStore.initialState _).
  abstract solve_lowered.
Defined.

Definition shared_live : LiveStore.
Proof.
  refine (mkLive SharedEffects.shared_feature SharedEffects.shared_cascade SharedEffects.shared_flagged
    SharedStore.initialState _).
  abstract solve_lowered.
Defined.

(** The flags of the tags store are kept by domain, not one per effect. *)
Definition tags_flagged : @Flags TagsStore.State TagsStore.Action TagsStore.tags_feature.
Proof. refine {| flags := [] |}; abstract (intros; exfalso; by eapply not_elem_of_nil). Defined.

Definition tags_live : LiveStore.
Proof.
  refine (mkLive TagsStore.tags_feature TagsStore.tags_cascade tags_flagged
    TagsStore.initialState _).
  abstract solve_lowered.
Defined.

Definition live_stores : list LiveStore :=
  [policies_live; groups_live; agents_live; card_live; modules_live; instances_live; shared_live;
   tags_live].
End stores.

(** What is reachable from the page that has just loaded the store. *)
Definition live_session (L : LiveStore) (s : Session (liveState L) (liveAction L)) : Prop :=
  runs (opened (liveInitial L)) s.

Lemma live_tidy L s : live_session L s → tidy s.
Proof. apply runs_tidy, tidy_opened. Qed.

Lemma live_accounted L s : live_session L s → accounted s [].
Proof.
  apply runs_accounted; [apply tidy_opened|]. intros f Hf Hb. simpl in Hb.
  by rewrite live_lowered in Hb.
Qed.

(** The session a step leads to, for concrete sessions. *)
Definition the {A} (m : res A) (default : A) : A :=
  match m with Ok a => a | Throw _ => default end.

(** ** Sessions of the stores: properties

    What holds for every list store with its effects, whatever the page, the
    server and the timers do, and what single effects do. *)

Section live.
Context `{Language} `{SharedEffects.Location}.

(** C4: In a session of a list store, whatever the page does and in whatever
    order the server answers and the pauses end: a progress flag of the store
    that is raised belongs to an effect that waits for a pause or has a request
    in flight, or that has failed or completed.  A page whose effects work
    shows no progress when nothing is in progress.  The flags ([flags]) are all
    those of the policies, groups, agents, agent card, modules, instances and
    shared stores but three: [isLoadingGroupFilterItems] of the policies, which
    no answer lowers, and [isDeletingFromGroup] of the two agent stores, which
    says what the last move was and not that one is in progress.  The tags
    store has none: it keeps its progress by domain. *)
Theorem raised_store_flag_accounted L s f :
  L ∈ live_stores → live_session L s → f ∈ @flags _ _ _ (liveFlags L) → raised f (store s) = true →
  ∃ e, e ∈ owners f ∧
    (name e ∈ (timers s).*1 ∨ name e ∈ (flying s).*1 ∨
     name e ∈ failures s ∨ name e ∉ subscribed s).
Proof.
  intros _ Hs Hf Hb.
  destruct (live_accounted L s Hs f Hf Hb) as [(e & He & Hen)|(a & []%elem_of_nil & _)].
  exists e. split; [done|]. unfold engaged in Hen. tauto.
Qed.

(** C6: In a session of any list store, the actions an action leads to at once
    come to an end: the fuel the session gives a cascade is enough, and more
    does not change the result. *)
Theorem cascades_end L s a fuel :
  L ∈ live_stores → live_session L s →
  @weight _ _ _ (liveCascade L) a ≤ fuel →
  drains s [a] (dispatch s a) ∧ drain fuel s [a] = dispatch s a.
Proof.
  intros _ Hs%live_tidy Hf. pose proof (dispatch_drains s a Hs) as Hd. split; [done|].
  eapply drains_unique; [|exact Hd]. apply drain_drains; [done|]. unfold total. simpl. lia.
Qed.

(** In a session of any list store, a [switchMap] never holds two requests,
    and an effect never holds two timers; only live effects hold anything. *)
Theorem one_request_per_operator L s e k :
  L ∈ live_stores → live_session L s →
  e ∈ @effects _ _ (liveFeature L) → merged e = false →
  length (filter (λ nq, operator nq = (name e, k)) (flying s)) ≤ 1 ∧
  NoDup (timers s).*1 ∧ NoDup (subscribed s) ∧
  (timers s).*1 ⊆ subscribed s ∧ (flying s).*1 ⊆ subscribed s.
Proof.
  intros _ (H1 & _ & H3 & H4 & _ & H5 & H6)%live_tidy He Hm. split; [by apply H6|done].
Qed.
End live.

(** *** A page that has asked for a policy *)

#[local] Instance some_language : Language := {| lang := VStr "en" |}.
#[local] Instance some_location : SharedEffects.Location :=
  {| SharedEffects.pathname := "/password_change" |}.

Definition policy_opened : Session (liveState policies_live) (liveAction policies_live) :=
  opened (liveInitial policies_live).
Definition policy_asked : Session (liveState policies_live) (liveAction policies_live) :=
  the (dispatch policy_opened (PoliciesStore.fetchPolicy "1f")) policy_opened.

Lemma policy_asked_live : live_session policies_live policy_asked.
Proof.
  eapply runs_step; [constructor|]. apply (step_dispatch policy_opened (PoliciesStore.fetchPolicy "1f")).
  by vm_compute.
Qed.

Lemma policies_live_listed : policies_live ∈ live_stores.
Proof. apply list_elem_of_here. Qed.

Definition policy_flag : Flag (liveState policies_live) (liveAction policies_live) :=
  mkFlag [PoliciesEffects.fetchPolicy'] PoliciesStore.isLoadingPolicy
    ["[policies] Fetch policy - Success"; "[policies] Fetch policy - Failure"].

Lemma raised_store_flag_accounted_witness :
  "fetchPolicy$" ∈ (timers policy_asked).*1 ∨ "fetchPolicy$" ∈ (flying policy_asked).*1 ∨
  "fetchPolicy$" ∈ failures policy_asked ∨ "fetchPolicy$" ∉ subscribed policy_asked.
Proof.
  destruct (raised_store_flag_accounted policies_live policy_asked policy_flag policies_live_listed
    policy_asked_live) as (e & He & Hen).
  - apply (list_elem_of_lookup_2 _ 2). reflexivity.
  - by vm_compute.
  - apply list_elem_of_singleton in He. subst e. exact Hen.
Defined.

Lemma cascades_end_witness :
  drain 10 policy_asked [PoliciesStore.fetchPolicy "2e" : liveAction policies_live] =
  dispatch policy_asked (PoliciesStore.fetchPolicy "2e").
Proof.
  refine (proj2 (cascades_end policies_live policy_asked _ 10 policies_live_listed
    policy_asked_live _)).
  by apply (bool_decide_unpack _); vm_compute.
Defined.

Lemma one_request_per_operator_witness :
  length (filter (λ nq, operator nq = ("fetchPolicy$", 0)) (flying policy_asked)) ≤ 1.
Proof.
  refine (proj1 (one_request_per_operator policies_live policy_asked PoliciesEffects.fetchPolicy' 0
    policies_live_listed policy_asked_live _ eq_refl)).
  apply list_elem_of_In. simpl. tauto.
Defined.

(** ** Tags *)

Module Tags.
Import TagsStore.

(** When the server fails to answer one request for tags, the requests for
    the tags of all other domains are given up as well, and nothing of what was
    in progress is marked as over. *)
Theorem tags_failure_cancels_all `{Language} s s' i n q error :
  runs (opened initialState) s → flying s !! i = Some (n, q) →
  respond s i (Failed error) = Ok s' → flying s' = [] ∧ store s' = store s.
Proof. intros Hs. apply failure_cancels_all. eapply runs_tidy; [apply tidy_opened|done]. Qed.

(** The tags of agents and of groups are asked for; the first request fails. *)
Definition agents_asked : Session State Action :=
  the (dispatch (opened initialState) (fetchTags "agents")) (opened initialState).
Definition groups_asked : Session State Action :=
  the (dispatch agents_asked (fetchTags "groups")) agents_asked.
Definition agents_failed : Session State Action :=
  the (respond groups_asked 0 (Failed VUndef)) groups_asked.

Lemma groups_asked_reached : runs (opened initialState) groups_asked.
Proof.
  eapply runs_step with agents_asked; [eapply runs_step; [constructor|]|].
  - apply (step_dispatch _ (fetchTags "agents")). by vm_compute.
  - apply (step_dispatch _ (fetchTags "groups")). by vm_compute.
Qed.

Lemma tags_failure_cancels_all_witness :
  length (flying groups_asked) = 2 ∧ flying agents_failed = [] ∧
  selectIsLoadingTags "groups" (store agents_failed) = Some true.
Proof.
  split; [done|].
  destruct (flying groups_asked) as [|[n q] l] eqn:Hl; [by vm_compute in Hl|].
  destruct (tags_failure_cancels_all groups_asked agents_failed 0 n q VUndef groups_asked_reached)
    as [H1 H2].
  - by rewrite Hl.
  - by vm_compute.
  - split; [exact H1|]. rewrite H2. by vm_compute.
Defined.
End Tags.

(** ** Moving agents to a new group *)

Module NewGroup.
Import AgentListStore AgentListEffects.

Lemma failure_ends `{Language} (s s1 : Session State Action) i q error :
  tidy s → flying s !! i = Some ("moveToNewGroup$", q) →
  respond s i (Failed (VObj error)) = Ok s1 → "moveToNewGroup$" ∉ subscribed s1.
Proof.
  intros Ht Hq Hr. unfold respond in Hr. rewrite Hq in Hr. cbn [effect_of] in Hr.
  change (effect_of "moveToNewGroup$") with (Some moveToNewGroup') in Hr. cbv iota beta in Hr.
  unfold dispatch_all in Hr.
  match type of Hr with context [react ?e ?m ?s0] => destruct (react e m s0) as [[s2 l]|] eqn:Hre end;
    cbn [mbind res_bind] in Hr; [|done].
  eapply dispatches_over; [| |exact Hr].
  - refine (proj1 (react_tidy _ _ _ _ _ _ _ _ Hre)).
    + apply list_elem_of_In. simpl. tauto.
    + exact (flying_subscribed _ _ _ _ Ht Hq).
    + by apply tidy_delete_flying.
  - cbn in Hre. injection Hre as <- _. cbn. unfold constant. rewrite list_elem_of_filter. tauto.
Qed.

Lemma nobody_listens `{Language} (s : Session State Action) ids groupName l :
  "moveToNewGroup$" ∉ l →
  notify_all s (moveAgentsToNewGroup ids groupName) l = Ok (s, []).
Proof.
  induction l as [|n l IH]; [done|]. intros [Hn Hl]%not_elem_of_cons. simpl.
  assert (notify s (moveAgentsToNewGroup ids groupName) n = Ok (s, [])) as ->.
  { unfold notify. destruct (effect_of n) as [e|] eqn:He; [|done].
    apply effect_of_Some in He as [He <-].
    each_elem He; try reflexivity. by destruct Hn. }
  cbn [mbind res_bind]. by rewrite IH.
Qed.

(** In the agent list, once creating a group (or moving agents to it) has
    failed, moving agents to a new group never works again: no command of the
    session to come sends the request, and it leaves the page waiting. *)
Theorem new_group_only_until_failure `{Language} s s1 s2 s' i q error ids groupName :
  runs (opened initialState) s → flying s !! i = Some ("moveToNewGroup$", q) →
  respond s i (Failed (VObj error)) = Ok s1 → runs s1 s2 →
  dispatch s2 (moveAgentsToNewGroup ids groupName) = Ok s' →
  isMovingAgents (store s') = true ∧ flying s' = flying s2.
Proof.
  intros Hs Hq Hr Hs2 Hd.
  assert (tidy s) as Ht by (eapply runs_tidy; [apply tidy_opened|done]).
  assert (tidy s1) as Ht1 by by eapply respond_tidy.
  assert ("moveToNewGroup$" ∉ subscribed s2) as Hover.
  { eapply runs_over; [exact Ht1| |exact Hs2]. exact (failure_ends _ _ _ _ _ Ht Hq Hr). }
  unfold dispatch, handle in Hd. simpl in Hd. unfold handle in Hd. simpl in Hd.
  rewrite nobody_listens in Hd by exact Hover. cbn in Hd. by injection Hd as <-.
Qed.


(** The group cannot be created; the user tries again. *)
Definition first_asked : Session State Action :=
  the (dispatch (opened initialState) (moveAgentsToNewGroup (VArr [vint 1]) "new"))
    (opened initialState).
Definition first_failed : Session State Action :=
  the (respond first_asked 0 (Failed (VObj []))) first_asked.
Definition second_asked : Session State Action :=
  the (dispatch first_failed (moveAgentsToNewGroup (VArr [vint 1]) "other")) first_failed.

Lemma first_asked_reached : runs (opened initialState) first_asked.
Proof.
  eapply runs_step; [constructor|].
  apply (step_dispatch _ (moveAgentsToNewGroup (VArr [vint 1]) "new")). by vm_compute.
Qed.

Lemma new_group_only_until_failure_witness :
  isMovingAgents (store second_asked) = true ∧ flying second_asked = [].
Proof.
  destruct (flying first_asked !! 0) as [[n q]|] eqn:Hq; [|by vm_compute in Hq].
  assert (n = "moveToNewGroup$") as -> by (vm_compute in Hq; congruence).
  refine (new_group_only_until_failure first_asked first_failed first_failed second_asked 0 q []
    (VArr [vint 1]) "other" first_asked_reached Hq _ (runs_refl _) _); by vm_compute.
Defined.
End NewGroup.

(** ** Leaving *)

Module Leaving.
Import SharedStore SharedEffects.

(** The address of the login page, with the way back. *)
Definition login_page `{Location} : Request :=
  mkRequest 1 [] [mkCall "router.navigate"
    [vstrs ["/login"]; obj_lit [("queryParams",
       obj_lit [("nextUrl", VStr (remove_first "/password_change" pathname))])]]].

(** Logging out forgets the user at once, and whatever the server answers —
    an error as well — the page then goes to the login page, with the way back to
    where the user was, but never to the page that changes the password. *)
Theorem logout_always_leaves `{Language} `{Location} (s s1 : Session State Action) i q resp :
  dispatch s logout = Ok s1 → flying s1 !! i = Some ("logout$", q) → stage q = 0 →
  info (store s1) = VUndef ∧
  ∃ s', respond s1 i resp = Ok s' ∧ store s' = store s1 ∧ ("logout$", login_page) ∈ flying s'.
Proof.
  intros Hd Hq Hst. split.
  - unfold dispatch in Hd. simpl in Hd. destruct (handle s logout) as [[s2 l]|] eqn:Hh; [|done].
    cbn [mbind res_bind] in Hd. destruct l; [|done]. injection Hd as <-.
    apply handle_stirs in Hh as (st & Hr & Hs & _). rewrite Hs. cbn in Hr. by injection Hr as <-.
  - unfold respond. rewrite Hq. change (effect_of "logout$") with (Some logout'). cbv iota beta.
    simpl. rewrite Hst. assert (caught (λ _, Ok goToLogin) (λ _, Ok goToLogin) resp = Ok goToLogin) as ->
      by by destruct resp.
    eexists. split; [reflexivity|]. split; [done|]. simpl. unfold constant.
    apply elem_of_app. right. by apply list_elem_of_singleton.
Qed.

Definition leaving : Session State Action :=
  the (dispatch (opened initialState) logout) (opened initialState).

Lemma logout_always_leaves_witness :
  info (store leaving) = VUndef ∧
  ∃ s', respond leaving 0 (Failed VUndef) = Ok s' ∧ store s' = store leaving ∧
    ("logout$", login_page) ∈ flying s'.
Proof.
  refine (logout_always_leaves (opened initialState) leaving 0
    (mkRequest 0 [] [mkCall "publicService.logout" []]) (Failed VUndef) _ _ eq_refl); by vm_compute.
Defined.

(** A user who may not view services never sees their names: the current
    service and every service of the list are named by their hashes, and nothing
    else of the information changes. *)
Theorem services_named_by_hash o service l ps :
  prop (VObj o) "privileges" = VArr ps → VStr "vxapi.services.api.view" ∉ ps →
  prop (VObj o) "service" = VObj service → prop (VObj o) "services" = VArr l → Forall is_obj l →
  ∃ info, hideServices (VObj o) = Ok info ∧
    prop info "service" = spread (VObj service) [("name", prop (VObj service) "hash")] ∧
    prop info "services" = VArr ((λ x, spread x [("name", prop x "hash")]) <$> l) ∧
    ∀ k, k ≠ "service" → k ≠ "services" → prop info k = prop (VObj o) k.
Proof.
  intros Hp Hv Hs Hl Ho.
  assert (existsb (strict_eq (VStr "vxapi.services.api.view")) ps = false) as Hno.
  { apply not_true_is_false. intros (x & Hx%list_elem_of_In & Heq)%existsb_exists.
    destruct x; try discriminate Heq. apply String.eqb_eq in Heq. by subst. }
  assert (mapM (λ x, hash ← get x "hash"; Ok (spread x [("name", hash)])) l =
          Ok ((λ x, spread x [("name", prop x "hash")]) <$> l)) as Hm.
  { clear Hl. induction Ho as [|x l Hx _ IH]; [done|]. simpl. rewrite get_is_obj by done.
    cbn [mbind res_bind]. by rewrite IH. }
  unfold hideServices, getq. cbn [is_nullish]. rewrite !get_is_obj by by eexists.
  rewrite Hp, Hs, Hl. cbn [mbind res_bind]. unfold includesq. cbn. rewrite Hno. cbn.
  unfold map_arrayq, map_array. cbn. rewrite Hm. cbn [mbind res_bind].
  eexists. split; [reflexivity|]. rewrite !prop_spread. split; [done|]. split; [done|].
  intros k Hk1 Hk2. rewrite prop_spread. cbn.
  by rewrite !(proj2 (String.eqb_neq _ _)) by done.
Qed.

Lemma services_named_by_hash_witness :
  ∃ info, hideServices (VObj [("privileges", VArr []); ("service", VObj [("hash", VStr "1f")]);
      ("services", VArr [VObj [("name", VStr "secret"); ("hash", VStr "2e")]])]) = Ok info ∧
    prop info "services" = VArr [VObj [("name", VStr "2e"); ("hash", VStr "2e")]].
Proof.
  destruct (services_named_by_hash
    [("privileges", VArr []); ("service", VObj [("hash", VStr "1f")]);
     ("services", VArr [VObj [("name", VStr "secret"); ("hash", VStr "2e")]])]
    [("hash", VStr "1f")] [VObj [("name", VStr "secret"); ("hash", VStr "2e")]] [])
    as (info & Hi & _ & Hs & _).
  - done.
  - apply not_elem_of_nil.
  - done.
  - done.
  - apply List.Forall_cons; [by eexists|apply List.Forall_nil].
  - exists info. split; [exact Hi|]. rewrite Hs. by vm_compute.
Defined.
End Leaving.
