(* ===== verification/GridTheorems.v ===== *)
(** * Small servers for the lists

    Policies: two pages of one policy each; the policy of a page records the filters of
    the query it answers.  Concrete sessions of the list of policies are
    computed with it.  Groups: one page of one group. *)

From S2P Require Import Prelude JsValue Models Paging Effects Queries Grid StoreSessionTheorems.
From S2P Require Import PoliciesStore PoliciesEffects ListGrids Filtration EffectsFacts.
From S2P Require Import EffectsFlags.
From S2P Require GroupsStore GroupsEffects.
Import PoliciesGrid.

#[export] Instance sample_language : Language := {| lang := VStr "en" |}.

Definition raw_policy (page : Z) (filters : val) : val :=
  obj_lit [("hash", vint page); ("info", VObj []); ("filters", filters)].

(** What the server answers to a query for a page. *)
Definition policies_answer (query : val) : val :=
  let page := prop query "page" in
  let filters := prop query "filters" in
  obj_lit
    [("policies", VArr
        (match page with
         | VNum (NInt z) => if bool_decide (1 ≤ z ≤ 2)%Z then [raw_policy z filters] else []
         | _ => []
         end));
     ("details", VArr [obj_lit [("hash", vint 1); ("modules", VArr [])];
                       obj_lit [("hash", vint 2); ("modules", VArr [])]]);
     ("total", vint 2)].

(** The rows it has. *)
Definition policies_server (query : val) : list val :=
  match privatePoliciesToModels (policies_answer query) with Ok (VArr l) => l | _ => [] end.

Lemma server_row z filters query :
  (1 ≤ z ≤ 2)%Z → prop query "page" = vint z → prop query "filters" = filters →
  ∃ row, policies_server query = [row].
Proof.
  intros Hz Hp Hf. unfold policies_server, policies_answer. rewrite Hp, Hf. simpl.
  rewrite bool_decide_eq_true_2 by done.
  assert (z = 1 ∨ z = 2)%Z as [-> | ->] by lia; by eexists.
Qed.

Lemma server_no_row z query :
  (2 < z)%Z → prop query "page" = vint z → policies_server query = [].
Proof.
  intros Hz Hp. unfold policies_server, policies_answer. rewrite Hp. simpl.
  by rewrite bool_decide_eq_false_2 by lia.
Qed.

Lemma pageQuery_page filters sorting page :
  prop (pageQuery (listQuery filters sorting) page) "page" = vint page.
Proof. reflexivity. Qed.

Lemma policies_server_ends st i :
  (1 ≤ i)%Z → policies_server (full st i) = [] → policies_server (full st (i + 1)) = [].
Proof.
  intros Hi H. simpl in *. unfold policies_query in *.
  destruct (decide (i ≤ 2)%Z).
  - match type of H with policies_server ?q = _ =>
      destruct (server_row i (prop q "filters") q) as [row Hrow]; [lia|done..|] end.
    by rewrite Hrow in H.
  - eapply (server_no_row (i + 1)); [lia|done].
Qed.

(** ** Sessions *)

(** The truthful answer to the request for a page. *)
Definition page_answer (s : Session State Action) (i : nat) : Response :=
  match flying s !! i with
  | Some (_, mkRequest _ _ [mkCall _ [x]]) => Answered [obj_lit [("data", policies_answer x)]]
  | _ => Answered []
  end.

Definition asked_page (page : Z) (s : Session State Action) : Session State Action :=
  the (dispatch s (fetchPoliciesPage (vint page))) s.
Definition elapsed (i : nat) (s : Session State Action) : Session State Action :=
  the (elapse s i) s.
Definition answered (s : Session State Action) : Session State Action :=
  the (respond s 0 (page_answer s 0)) s.
Definition searched (value : string) (s : Session State Action) : Session State Action :=
  the (dispatch s (setGridSearch value)) s.

(** The first page, then the second. *)
Definition one_asked := asked_page 1 (opened initialState).
Definition one_sent := elapsed 0 one_asked.
Definition one_loaded := answered one_sent.
Definition two_asked := asked_page 2 one_loaded.
Definition two_sent := elapsed 0 two_asked.
Definition two_loaded := answered two_sent.

(** A search, and scrolling before the pause after it is over. *)
Definition search_set := searched "text" one_loaded.
Definition scrolled_early := asked_page 2 search_set.
Definition early_sent := elapsed 1 scrolled_early.
Definition early_loaded := answered early_sent.

Example two_pages_loaded :
  page (store two_loaded) = vint 2 ∧ timers two_loaded = [] ∧ flying two_loaded = [].
Proof. by vm_compute. Qed.

(** ** The sessions are browsed *)

Lemma settled_dec (s : Session State Action) :
  forallb (λ n, negb (String.eqb n "fetchPoliciesPage$" || String.eqb n "setGridFiltration$"))
    (timers s).*1 = true →
  forallb (λ n, negb (String.eqb n "fetchPoliciesPage$")) (flying s).*1 = true → settled s.
Proof.
  rewrite !forallb_forall. intros Ht Hf. split; [|split]; intros Hin; apply list_elem_of_In in Hin;
    [apply Ht in Hin|apply Ht in Hin|apply Hf in Hin]; discriminate Hin.
Qed.

Ltac solve_honest :=
  eexists _, _, _, _; split; [reflexivity|split; [vm_compute; reflexivity|]];
  split; [vm_compute; reflexivity|];
  split; [vm_compute; reflexivity|eexists; split; vm_compute; reflexivity].

Lemma one_page_browsed : browses policies_server (opened initialState) one_loaded.
Proof.
  eapply browses_step with one_sent; [eapply browses_step with one_asked;
    [eapply browses_step; [constructor|]|]|].
  - eapply (browse_command _ _ (fetchPoliciesPage (vint 1))); [by right; right|by vm_compute].
  - eapply (browse_elapse _ _ 0). by vm_compute.
  - eapply (browse_page _ _ 0 _ (page_answer one_sent 0)); [by vm_compute|solve_honest|by vm_compute].
Qed.

Lemma two_pages_browsed : browses policies_server (opened initialState) two_loaded.
Proof.
  eapply browses_step with two_sent; [eapply browses_step with two_asked;
    [eapply browses_step; [exact one_page_browsed|]|]|].
  - eapply (browse_scroll _ _ (fetchPoliciesPage (vint 2)) 1);
      [by apply settled_dec; vm_compute|by vm_compute|done|by vm_compute].
  - eapply (browse_elapse _ _ 0). by vm_compute.
  - eapply (browse_page _ _ 0 _ (page_answer two_sent 0)); [by vm_compute|solve_honest|by vm_compute].
Qed.

(** ** Groups *)

Module GroupSamples.
Import GroupsStore GroupsEffects GroupsGrid.

Definition raw_group : val := obj_lit [("hash", vint 1)].

Definition groups_answer (query : val) : val :=
  obj_lit
    [("groups", VArr (if strict_eq (prop query "page") (vint 1) then [raw_group] else []));
     ("details", VArr []); ("total", vint 1)].

Definition groups_server (query : val) : list val :=
  match privateGroupsToModels (groups_answer query) with Ok (VArr l) => l | _ => [] end.

Lemma groups_server_ends st i :
  (1 ≤ i)%Z → groups_server (full st i) = [] → groups_server (full st (i + 1)) = [].
Proof.
  intros Hi _. unfold groups_server, groups_answer.
  assert (strict_eq (prop (full st (i + 1)) "page") (vint 1) = false) as ->; [|done].
  refine (bool_decide_eq_false_2 _ _). intros [= ?]. lia.
Qed.

Definition group_asked : Session State Action :=
  the (dispatch (opened initialState) (fetchGroupsPage (vint 1))) (opened initialState).
Definition group_sent : Session State Action := the (elapse group_asked 0) group_asked.
Definition group_answer : Response :=
  match flying group_sent !! 0 with
  | Some (_, mkRequest _ _ [mkCall _ [x]]) => Answered [obj_lit [("data", groups_answer x)]]
  | _ => Answered []
  end.
Definition group_loaded : Session State Action :=
  the (respond group_sent 0 group_answer) group_sent.

Lemma group_browsed : browses groups_server (opened initialState) group_loaded.
Proof.
  eapply browses_step with group_sent; [eapply browses_step with group_asked;
    [eapply browses_step; [constructor|]|]|].
  - eapply (browse_command _ _ (fetchGroupsPage (vint 1))); [by right; right|by vm_compute].
  - eapply (browse_elapse _ _ 0). by vm_compute.
  - eapply (browse_page _ _ 0 _ group_answer); [by vm_compute|solve_honest|by vm_compute].
Qed.

Lemma group_settled : settled group_loaded.
Proof.
  split; [|split]; intros Hin%list_elem_of_In; vm_compute in Hin; exact Hin.
Qed.
End GroupSamples.

(** ** Lists that follow the server: properties

    The lists of policies and of groups, with their effects, show what the
    server has; what breaks this. *)

(** ** Scrolling with the effects *)

(** C2: From the page that has just loaded the store, by any browsing — commands
    that filter, search, sort and operate on policies in any order with pauses
    and answers, scrolling when the list waits for nothing, a server that answers
    requests for pages truthfully and may fail on any but a first page —, when
    the list waits for nothing it shows exactly the rows the server has for the
    pages 1 .. page of the current query, in order. *)
Theorem policies_list_shows_server `{Language} (server : val → list val) s :
  (∀ st i, (1 ≤ i)%Z → server (pageQuery (policies_query st) i) = [] →
     server (pageQuery (policies_query st) (i + 1)) = []) →
  browses server (opened initialState) s → settled s →
  ∃ k : nat, page (store s) = vint (Z.of_nat k) ∧
    policies (store s) =
      VArr (mjoin ((λ i, server (pageQuery (policies_query (store s)) (Z.of_nat i))) <$> seq 1 k)).
Proof. intros He Hb Hs. exact (browses_shown server He initialState s eq_refl eq_refl Hb Hs). Qed.

Lemma policies_list_shows_server_witness :
  ∃ rows, policies (store two_loaded) = VArr rows ∧ length rows = 2.
Proof.
  destruct (policies_list_shows_server policies_server two_loaded) as (k & Hk & Hp).
  - exact policies_server_ends.
  - exact two_pages_browsed.
  - by apply settled_dec; vm_compute.
  - eexists. split; [exact Hp|].
    assert (page (store two_loaded) = vint 2) as E by by vm_compute.
    rewrite E in Hk. injection Hk as Hk. assert (k = 2) as -> by lia. by vm_compute.
Defined.

Module Groups.
Import GroupsStore GroupsEffects GroupsGrid.

(** C27: The same for the list of groups. *)
Theorem groups_list_shows_server `{Language} (server : val → list val) s :
  (∀ st i, (1 ≤ i)%Z → server (pageQuery (selectInitialListQuery st) i) = [] →
     server (pageQuery (selectInitialListQuery st) (i + 1)) = []) →
  browses server (opened initialState) s → settled s →
  ∃ k : nat, page (store s) = vint (Z.of_nat k) ∧
    groups (store s) =
      VArr (mjoin ((λ i, server (pageQuery (selectInitialListQuery (store s)) (Z.of_nat i))) <$> seq 1 k)).
Proof. intros He Hb Hs. exact (browses_shown server He initialState s eq_refl eq_refl Hb Hs). Qed.

Lemma groups_list_shows_server_witness :
  ∃ rows, groups (store GroupSamples.group_loaded) = VArr rows ∧ length rows = 1.
Proof.
  destruct (groups_list_shows_server GroupSamples.groups_server GroupSamples.group_loaded)
    as (k & Hk & Hp).
  - exact GroupSamples.groups_server_ends.
  - exact GroupSamples.group_browsed.
  - exact GroupSamples.group_settled.
  - eexists. split; [exact Hp|].
    assert (page (store GroupSamples.group_loaded) = vint 1) as E by by vm_compute.
    rewrite E in Hk. injection Hk as Hk. assert (k = 1) as -> by lia. by vm_compute.
Defined.
End Groups.

(** ** What breaks it *)

(** A user who scrolls whenever: the next page is asked for also while another
    request is due. *)
Inductive hasty (server : val → list val) : Session State Action → Session State Action → Prop :=
| hasty_refl s : hasty server s s
| hasty_browse s s1 s' : hasty server s s1 → browse server s1 s' → hasty server s s'
| hasty_scroll s s1 k s' :
    hasty server s s1 → page (store s1) = vint k →
    dispatch s1 (fetchPoliciesPage (vint (k + 1))) = Ok s' → hasty server s s'.

Lemma hasty_of_browses server s s' : browses server s s' → hasty server s s'.
Proof. intros H. induction H; [constructor|by eapply hasty_browse]. Qed.

(** Scrolling right after a search, before the pause of the pager is over,
    replaces the request for the first page by one for the second: the list
    ends up with the first page of the old query followed by the second page of
    the new one, while it waits for nothing and the server told the truth. *)
Theorem early_scroll_mixes_rows :
  ∃ s, hasty policies_server (opened initialState) s ∧ settled s ∧
    policies (store s) =
      VArr (policies_server (pageQuery (policies_query initialState) 1)
            ++ policies_server (pageQuery (policies_query (store s)) 2)) ∧
    policies_server (pageQuery (policies_query initialState) 1)
      ≠ policies_server (pageQuery (policies_query (store s)) 1).
Proof.
  exists early_loaded. split; [|split; [by apply settled_dec; vm_compute|]].
  - eapply hasty_browse with early_sent; [eapply hasty_browse with scrolled_early;
      [eapply (hasty_scroll _ _ search_set 1); [eapply hasty_browse with one_loaded;
        [apply hasty_of_browses, one_page_browsed|]|..]|]|].
    + eapply (browse_command _ _ (setGridSearch "text")); [by right; left|by vm_compute].
    + by vm_compute.
    + by vm_compute.
    + eapply (browse_elapse _ _ 1). by vm_compute.
    + eapply (browse_page _ _ 0 _ (page_answer early_sent 0)); [by vm_compute|solve_honest|by vm_compute].
  - split; [by vm_compute|]. intros H. vm_compute in H. discriminate H.
Qed.

(** ** Filtering by tag *)

Section tags.
Context `{Language}.

Definition reload_names : list string := ["fetchPoliciesPage$"; "fetchFilterItems$"].

(** What reloading the list of policies does not touch. *)
Definition agents_untouched (s s' : Session State Action) (q : list Action) : Prop :=
  agentsGridFiltration (store s') = agentsGridFiltration (store s) ∧
  policyAgents (store s') = policyAgents (store s) ∧
  (∀ nq, nq ∈ flying s' → nq ∈ flying s) ∧
  (∀ nb, nb ∈ timers s' → nb ∈ timers s ∨ nb.1 ∈ reload_names) ∧
  Forall (λ a, a = fetchPoliciesPage (vint 1) ∨ a = fetchFilterItems) q.

Lemma reload_handled s0 s a q s1 l :
  agents_untouched s0 s (a :: q) → handle s a = Ok (s1, l) → agents_untouched s0 s1 (q ++ l).
Proof.
  intros (H1 & H2 & H3 & H4 & [Ha Hq]%Forall_cons) (st & Hr & Hst & _ & Ht & Hf & Hl)%handle_stirs.
  assert (∀ e, e ∈ effects → listens e a = true → debounced e = true ∧ name e ∈ reload_names) as Hd.
  { intros e He Hla. each_elem He; destruct Ha as [-> | ->]; try discriminate Hla;
      (split; [done|]); apply list_elem_of_In; simpl; tauto. }
  simpl in Hst, Ht, Hf. unfold constant in *.
  split; [|split; [|split; [|split]]].
  - rewrite Hst, <-H1. destruct Ha as [-> | ->]; cbn in Hr; by injection Hr as <-.
  - rewrite Hst, <-H2. destruct Ha as [-> | ->]; cbn in Hr; by injection Hr as <-.
  - intros nq [Hn|(e & r & x & He & _ & Hla & Hdf & _)]%Hf; [by apply H3|].
    destruct (Hd e He Hla). congruence.
  - intros nb [Hn|(e & He & _ & Hla & _ & ->)]%Ht; [by apply H4|]. right. by destruct (Hd e He Hla).
  - apply Forall_app. split; [done|]. apply Forall_forall.
    intros b (e & r & He & _ & Hla & Hdf & _)%Hl. destruct (Hd e He Hla). congruence.
Qed.

(** Choosing a tag in the agents of a policy sets the filter of the agents,
    but reloads the list of policies: no request for the agents is sent, now or
    after a pause, and the rows of the agents stay as they are. *)
Theorem agents_tag_filter_reloads_policies s tag s' :
  runs (opened initialState) s → dispatch s (setAgentsGridFiltrationByTag tag) = Ok s' →
  agentsGridFiltration (store s') = getGridFiltrationByTag (agentsGridFiltration (store s)) tag ∧
  policyAgents (store s') = policyAgents (store s) ∧
  (∀ nq, nq ∈ flying s' → nq ∈ flying s) ∧
  (∀ nb, nb ∈ timers s' → nb ∈ timers s ∨ nb.1 ∈ reload_names).
Proof.
  intros Hruns Hd. assert (tidy s) as Ht by (eapply runs_tidy; [apply tidy_opened|done]).
  apply dispatch_handle in Hd as (s1 & l & Hh & Hdr); [|done].
  pose proof (handle_stirs _ _ _ _ Hh) as (st & Hr & Hst & _ & Htm & Hfl & Hl).
  injection Hr as <-. simpl in Hst, Htm, Hfl. unfold constant in *.
  assert (∀ e, e ∈ effects → listens e (setAgentsGridFiltrationByTag tag) = true → e = setGridFiltration') as He.
  { intros e He Hla. each_elem He; first [discriminate Hla|reflexivity]. }
  assert (agents_untouched s1 s1 l) as Hu.
  { split; [done|]. split; [done|]. split; [done|]. split; [by left|].
    apply Forall_forall. intros b (e & r & Hin & _ & Hla & _ & Hrun & Hb)%Hl.
    rewrite (He e Hin Hla) in Hrun. injection Hrun as <-.
    apply elem_of_cons in Hb as [->|Hb%list_elem_of_singleton]; [by left|by right]. }
  destruct (drains_inv (agents_untouched s1) s1 l [] s') as [_ (H1 & H2 & H3 & H4 & _)].
  - intros. by eapply reload_handled.
  - intros ? q q' Hq (?&?&?&?&Hf). do 4 (split; [done|]). by rewrite <-Hq.
  - by eapply handle_tidy.
  - by rewrite app_nil_r.
  - done.
  - rewrite H1, H2, Hst. split; [done|]. split; [done|]. split.
    + intros nq [?|(e & r & x & Hin & _ & Hla & _ & Hrun & Hs & _)]%H3%Hfl; [done|].
      rewrite (He e Hin Hla) in Hrun. injection Hrun as <-. discriminate Hs.
    + intros nb [[?|(e & Hin & _ & Hla & Hdb & _)]%Htm|?]%H4; [by left| |by right].
      rewrite (He e Hin Hla) in Hdb. discriminate Hdb.
Qed.
End tags.

Lemma agents_tag_filter_reloads_policies_witness :
  ∃ s', dispatch (opened initialState) (setAgentsGridFiltrationByTag "new") = Ok s' ∧
    policyAgents (store s') = VArr [] ∧ (timers s').*1 = reload_names.
Proof.
  eexists. split; [vm_compute; reflexivity|].
  split; [|by vm_compute].
  refine (proj1 (proj2 (agents_tag_filter_reloads_policies (opened initialState) "new" _ _ _))).
  - constructor.
  - by vm_compute.
Defined.
