(* ===== verification/Facades.v ===== *)
(** * What the facades of the list stores share

    The facades ([libs/store/*/src/lib/*.facade.ts]) are what the pages call.
    Most methods dispatch one action; this file holds what the others use: the
    entries of the column filters, which agents are asked to upgrade, whether
    a name is taken, and the part of a list that is kept in the address of the
    page. *)

From Stdlib Require Import Ascii.
From S2P Require Import Prelude JsString JsValue JsJson JsonText Models Filtration.
From S2P Require Import Effects Queries.

(** ** [parseInt]

    The characters that are not one byte are not taken apart: a text that
    starts with one is not represented, since it may be a space. *)

Definition is_white (c : ascii) : bool :=
  existsb (N.eqb (N_of_ascii c)) [9; 10; 11; 12; 13; 32]%N.

Fixpoint trim_start (s : string) : string :=
  match s with
  | String c s' => if is_white c then trim_start s' else s
  | EmptyString => s
  end.

Definition is_byte (s : string) : bool :=
  match s with String c _ => (N_of_ascii c <? 128)%N | EmptyString => true end.

(** The value of the longest run of digits, none when it is empty. *)
Fixpoint digits_run (radix : N) (acc : option N) (s : string) : option N :=
  match s with
  | EmptyString => acc
  | String c s' =>
      match hex_value c with
      | Some d => if (d <? radix)%N then digits_run radix (Some (default 0 acc * radix + d)%N) s'
                  else acc
      | None => acc
      end
  end.

Definition signed (negative : bool) (n : option N) : num :=
  match n with
  | Some n => NInt (if negative then - Z.of_N n else Z.of_N n)
  | None => NInf negative
  end.

(** The sign and the rest; the base and the digits. *)
Definition take_sign (s : string) : bool * string :=
  match s with
  | String "-" r => (true, r)
  | String "+" r => (false, r)
  | _ => (false, s)
  end%char.

Definition take_base (s : string) : N * string :=
  match strip_prefix "0x" s, strip_prefix "0X" s with
  | Some r, _ | _, Some r => (16%N, r)
  | None, None => (10%N, s)
  end.

Definition parseInt (s : string) : res num :=
  let s := trim_start s in
  if negb (is_byte s) then Throw Unsupported
  else
    let '(negative, s) := take_sign s in
    let '(radix, s) := take_base s in
    Ok (match digits_run radix None s with
        | Some n => signed negative (round_double n)
        | None => NNaN
        end).

Example parseInt_text :
  parseInt <$> ["12"; " -7px"; "0x1F"; "+3"; "x"; ""; "1e3"; "9007199254740993"] =
  [Ok (NInt 12); Ok (NInt (-7)); Ok (NInt 31); Ok (NInt 3); Ok NNaN; Ok NNaN; Ok (NInt 1);
   Ok (NInt 9007199254740992)].
Proof. vm_compute. reflexivity. Qed.

(** ** Entries of the column filters

    [language] is [languageService.lang]; labels of systems are translated. *)

(** [transloco.translate]. *)
Class Translation := { translate : string → val }.

(** [ids?.map((id) => items.find((item) => item.id === parseInt(id)))] *)
Definition foundById (items ids : val) : res val :=
  map_arrayq (λ id, n ← parseInt (to_string id); find_by "id" (VNum n) items) ids.

(** [names?.map((name) => modules.find((item) => item.info.name === name))] *)
Definition foundByName (modules names : val) : res val :=
  map_arrayq (λ name,
    l ← as_array modules;
    find_list (λ item, n ← get_path item ["info"; "name"]; Ok (strict_eq n name)) l) names.

(** [... || []] *)
Definition or_empty (m : res val) : res val := v ← m; Ok (js_or v (VArr [])).

(** [{ label, value }] of a [GridColumnFilterItem]. *)
Definition columnItem (label value : val) : val := obj_lit [("label", label); ("value", value)].

(** [items?.map((x) => ({ label: x, value: x }))] *)
Definition plainItems (items : val) : res val := map_arrayq (λ x, Ok (columnItem x x)) items.

(** [osList] of [operation-systems.ts]. *)
Definition osList : list (string * string) :=
  [("shared.Shared.Pseudo.ListItemText.WindowsI386Dot", "windows:386");
   ("shared.Shared.Pseudo.ListItemText.WindowsAmd64Dot", "windows:amd64");
   ("shared.Shared.Pseudo.ListItemText.LinuxI386Dot", "linux:386");
   ("shared.Shared.Pseudo.ListItemText.LinuxAmd64Dot", "linux:amd64");
   ("shared.Shared.Pseudo.ListItemText.DarwinAmd64Dot", "darwin:amd64")].

Section items.
Context `{Language} `{Translation}.

(** [group?.info.name[lang]] and [group?.id]. *)
Definition entityItem (entity : val) : res val :=
  label ← getq_path entity ["info"; "name"; to_string lang];
  value ← getq entity "id";
  Ok (columnItem label value).

(** The same without [?.]. *)
Definition strictEntityItem (entity : val) : res val :=
  label ← get_path entity ["info"; "name"; to_string lang];
  value ← get entity "id";
  Ok (columnItem label value).

(** [module?.locale.module[lang].title] and [module?.info.name]. *)
Definition moduleTitle (module : val) : res val :=
  getq_path module ["locale"; "module"; to_string lang; "title"].

Definition moduleItem (module : val) : res val :=
  label ← moduleTitle module;
  value ← getq_path module ["info"; "name"];
  Ok (columnItem label value).

(** The same with [title || '']. *)
Definition titledModuleItem (module : val) : res val :=
  label ← moduleTitle module;
  value ← getq_path module ["info"; "name"];
  Ok (columnItem (js_or label (VStr "")) value).

(** The same without [?.]. *)
Definition strictModuleItem (module : val) : res val :=
  label ← get_path module ["locale"; "module"; to_string lang; "title"];
  value ← get_path module ["info"; "name"];
  Ok (columnItem label value).

(** [{ ...osItem, label: this.transloco.translate(osItem.label) }] *)
Definition osItem (it : string * string) : val := columnItem (translate it.1) (VStr it.2).

(** [osList.filter(({ value }) => os?.find((filterItem) => filterItem === value))] and
    the translation. *)
Definition osItems (os : val) : res val :=
  l ← filterM (λ it,
    found ← (if is_nullish os then Ok VUndef
             else l ← as_array os; find_list (λ x, Ok (strict_eq x (VStr it.2))) l);
    Ok (truthy found)) osList;
  Ok (VArr (osItem <$> l)).
End items.

(** [!!items.length] *)
Definition someItems (items : val) : res bool := len ← get items "length"; Ok (truthy len).

(** ** Agents to upgrade

    [agents.filter((agent) => agent.auth_status === 'authorized' &&
    agent.version !== version)] *)
Definition isUpgrading (version : string) (agent : val) : res bool :=
  status ← get agent "auth_status";
  if is_str status "authorized" then
    current ← get agent "version"; Ok (negb (is_str current version))
  else Ok false.

Definition upgradingAgents (agents : val) (version : string) : res val :=
  l ← as_array agents; l ← filterM (isUpgrading version) l; Ok (VArr l).

(** ** Taken names: [getIsExistedPoliciesByName], [getIsExistedGroupsByName] *)

(** [!exclude.some((value) => [item.info.name.ru, item.info.name.en].includes(value))] *)
Definition isForeign (exclude : list string) (item : val) : res bool :=
  b ← someM (λ value,
    ru ← get_path item ["info"; "name"; "ru"];
    en ← get_path item ["info"; "name"; "en"];
    Ok (is_str ru value || is_str en value)) exclude;
  Ok (negb b).

Definition nameQuery `{Language} (name : string) : val :=
  allListQuery [("filters", VArr [query_filter "name" (VArr [VStr name])])].

(** The answer to that query: [true] when an item of the server has the name,
    but for those that are to be left out; [false] when anything fails. *)
Definition isExisted (items : string) (exclude : list string) (resp : Response) : res bool :=
  match resp with
  | Answered bodies =>
      rescue (l ← data_atq bodies 0 items; l ← iter l; l ← filterM (isForeign exclude) l;
              Ok (bool_decide (0 < length l)))
        (λ _, Ok false)
  | Failed _ => Ok false
  end.

(** ** The address of the page

    A list page keeps what is selected, filtered, searched and sorted in the
    query parameters of its address ([initPageStateRx] of the pages), and
    [restoreState] of the facades reads them back. *)

(** What of a list is kept. *)
Record ListView := mkView {
  viewFilterId : val;
  viewGroupId : val;
  viewFiltration : list Filtration;
  viewSearch : string;
  viewSorting : val
}.

(** [queryParams] of the subscription that saves the state. *)
Definition savedParams (view : ListView) : res (obj val) :=
  sortKeys ← Object_keys (viewSorting view);
  Ok [("filtration", match viewFiltration view with
                     | [] => VUndef
                     | l => VStr (json_text (VArr (filters_val l)))
                     end);
      ("search", js_or (VStr (viewSearch view)) VUndef);
      ("sort", match sortKeys with
               | [] => VUndef
               | _ => VStr (json_text (viewSorting view))
               end)].

(** The pages with quick filters and groups. *)
Definition savedSelection (view : ListView) : obj val :=
  [("filterId", viewFilterId view); ("groupId", viewGroupId view)].

(** [router.navigate([], { queryParams, queryParamsHandling: 'merge' })] of
    Angular: the parameters of the address are kept unless they are given;
    those given as [undefined] or [null] are removed; the others are written
    as strings.  An address is its parameters as
    [activatedRoute.snapshot.queryParams] has them. *)
Class Router := {
  navigate : obj string → obj val → obj string;
  navigate_lookup url params k :
    obj_get k (navigate url params) =
    match obj_get k params with
    | Some v => if is_nullish v then None else Some (to_string v)
    | None => obj_get k url
    end
}.

(** [params.k] *)
Definition param (k : string) (params : obj string) : val :=
  match obj_get k params with Some s => VStr s | None => VUndef end.

(** [params.k ? JSON.parse(params.k) : otherwise] *)
Definition parsedParam (k : string) (params : obj string) (otherwise : val) : res val :=
  match obj_get k params with
  | Some s => if String.eqb s "" then Ok otherwise else json_parse s
  | None => Ok otherwise
  end.

(** The filters among JSON values; others are not represented. *)
Definition as_filtration (v : val) : res Filtration :=
  match v with
  | VObj [("field", VStr f); ("value", x)] => Ok (mkFiltration f x)
  | _ => Throw Unsupported
  end.

(** The state [restoreState] dispatches; [unsorted] is the sorting when the
    address has none. *)
Definition restoredState (unsorted : val) (params : obj string) : res RestoredState :=
  filtration ← parsedParam "filtration" params (VArr []);
  sorting ← parsedParam "sort" params unsorted;
  gridFiltration ← match filtration with VArr l => mapM as_filtration l | _ => Throw Unsupported end;
  Ok (mkRestored gridFiltration (default "" (obj_get "search" params)) sorting).

(** What a method dispatches, and the exception it ends with. *)
Record Outcome (A : Type) := mkOutcome { dispatched : list A; raised : option exn }.
Arguments mkOutcome {A}.
Arguments dispatched {A}.
Arguments raised {A}.

(** [restoreState] after it dispatched [first]. *)
Definition restoring {A} (first : list A) (restore : RestoredState → A) (unsorted : val)
    (params : obj string) : Outcome A :=
  match restoredState unsorted params with
  | Ok r => mkOutcome (first ++ [restore r]) None
  | Throw e => mkOutcome first (Some e)
  end.

(** [if (params.groupId) selectGroup; if (params.filterId) selectFilter; if
    neither, the default filter]. *)
Definition restoredSelection {A} (selectGroup selectFilter : val → A) (usual : string)
    (params : obj string) : list A :=
  let groupId := param "groupId" params in
  let filterId := param "filterId" params in
  (if truthy groupId then [selectGroup groupId] else [])
    ++ (if truthy filterId then [selectFilter filterId] else [])
    ++ (if negb (truthy groupId) && negb (truthy filterId) then [selectFilter (VStr usual)] else []).

(** ** Facts *)

Lemma digits_run_digits s n acc :
  digits_acc acc s = Some n → s ≠ "" → digits_run 10 (Some acc) s = Some n.
Proof.
  intros H _. revert acc H. induction s as [|c s IH]; intros acc H; simpl in H |- *; [done|].
  unfold digit_of in H. unfold hex_value.
  destruct ((48 <=? N_of_ascii c) && (N_of_ascii c <=? 57))%N eqn:Hc; simpl in H; [|done].
  apply andb_true_iff in Hc as [H1 H2]. apply N.leb_le in H1, H2.
  rewrite (proj2 (N.ltb_lt _ _)) by lia. simpl. by apply IH.
Qed.

Lemma pretty_digits_run (n : N) : digits_run 10 None (pretty n) = Some n.
Proof.
  pose proof (digits_acc_pretty n) as Hd. destruct (pretty_N_cons n) as (c & t & Hp & Hc).
  rewrite Hp in Hd |- *. simpl in Hd |- *. unfold digit_of in Hd, Hc. unfold hex_value.
  destruct ((48 <=? N_of_ascii c) && (N_of_ascii c <=? 57))%N eqn:H9; [|by destruct Hc].
  simpl in Hd. apply andb_true_iff in H9 as [H1 H2]. apply N.leb_le in H1, H2.
  rewrite (proj2 (N.ltb_lt _ _)) by lia. simpl.
  destruct t as [|c' t]; [done|]. by apply digits_run_digits.
Qed.

(** The text of an identifier is read back as the identifier. *)
Lemma parseInt_pretty (n : N) : (n <= two53)%N → parseInt (pretty n) = Ok (NInt (Z.of_N n)).
Proof.
  intros Hn. pose proof (pretty_digits_run n) as Hd. pose proof (pretty_no_leading_zero n) as Hz.
  destruct (pretty_N_cons n) as (c & t & Hp & Hc). rewrite Hp in Hd, Hz |- *.
  assert (trim_start (String c t) = String c t ∧ is_byte (String c t) = true ∧
    take_sign (String c t) = (false, String c t) ∧ take_base (String c t) = (10%N, String c t))
    as (H1 & H2 & H3 & H4).
  { clear Hd Hp. destruct Hc as [d Hd].
    destruct c as [[] [] [] [] [] [] [] []]; try discriminate Hd; clear Hd;
      (repeat split; try reflexivity);
      destruct t as [|[[] [] [] [] [] [] [] []] t]; try reflexivity; discriminate Hz. }
  unfold parseInt. rewrite H1, H2, H3, H4, Hd. by rewrite round_double_exact by done.
Qed.

(** [find] by identifier among objects, when there is one. *)
Lemma find_by_id_found items (n : N) :
  Forall is_obj items → (∃ x, x ∈ items ∧ prop x "id" = vint (Z.of_N n)) →
  ∃ x, find_by "id" (VNum (NInt (Z.of_N n))) (VArr items) = Ok x ∧
    x ∈ items ∧ prop x "id" = vint (Z.of_N n).
Proof.
  intros Hf Hx. unfold find_by. cbn [as_array mbind res_bind].
  induction Hf as [|x items [o Ho] _ IH]; [by destruct Hx as (? & []%elem_of_nil & _)|].
  cbn [find_list]. subst x.
  change (key_is "id" (VNum (NInt (Z.of_N n))) (VObj o))
    with (Ok (strict_eq (obj_lookup "id" o) (VNum (NInt (Z.of_N n))))). cbn [mbind res_bind].
  destruct (strict_eq (obj_lookup "id" o) (VNum (NInt (Z.of_N n)))) eqn:He.
  - exists (VObj o). split; [done|]. split; [apply list_elem_of_here|].
    cbn [prop]. destruct (obj_lookup "id" o) as [| | |[]| | |]; cbn in He; try done.
    apply bool_decide_eq_true in He. by rewrite He.
  - destruct IH as (x & Hfx & Hin & Hid).
    + destruct Hx as (x & [->|Hin]%elem_of_cons & Hid); [|by exists x].
      cbn [prop] in Hid. rewrite Hid in He. cbn in He. by rewrite bool_decide_eq_true_2 in He.
    + exists x. split; [done|]. split; [by apply list_elem_of_further|done].
Qed.
