(* ===== verification/UpgradeMessage.v ===== *)
(** * The message about the upgrade of an agent

    [libs/shared/src/lib/components/upgrade-status-message]: what the card of
    an agent says about its upgrade, and what its buttons ask for. *)

From S2P Require Import Prelude JsValue Models.

Record UpgradeMessage := mkMessage {
  agent : val;
  latestBinaryVersion : val;
  canShowFailure : bool;
  canShowInProgress : bool;
  canShowNewVersion : val;
  canShowSuccess : bool;
  isHidden : bool;
  task : val
}.

#[export] Instance UpgradeMessage_eta : Eta UpgradeMessage := ltac:(eta_of UpgradeMessage).

(** The component as it is created. *)
Definition created : UpgradeMessage :=
  mkMessage VUndef VUndef false false (VBool false) false false VUndef.

(** [!canShowNewVersion && task?.status === 'failed' &&
    task?.reason !== 'Canceled.By.User'] *)
Definition isFailure (newVersion task : val) : res bool :=
  if truthy newVersion then Ok false
  else
    status ← getq task "status";
    if is_str status "failed" then
      reason ← getq task "reason"; Ok (negb (is_str reason "Canceled.By.User"))
    else Ok false.

(** [!canShowFailure && task?.status === 'ready'] *)
Definition isSuccess (failure : bool) (task : val) : res bool :=
  if failure then Ok false else status ← getq task "status"; Ok (is_str status "ready").

(** What the message shows about its agent. *)
Definition refresh (m : UpgradeMessage) : res UpgradeMessage :=
  inProgress ← isUpgradeAgentInProgress (agent m);
  newVersion ← canUpgradeAgent (agent m) (latestBinaryVersion m);
  task' ← (details ← getq (agent m) "details"; getq details "upgrade_task");
  failure ← isFailure newVersion task';
  success ← isSuccess failure task';
  Ok { m with isHidden := false; canShowInProgress := inProgress; canShowNewVersion := newVersion;
              task := task'; canShowFailure := failure; canShowSuccess := success }.

(** [ngOnChanges]: an input that changed has a value here. *)
Definition ngOnChanges (agent' latest : option val) (m : UpgradeMessage) : res UpgradeMessage :=
  let m := { m with agent := default (agent m) agent';
                    latestBinaryVersion := default (latestBinaryVersion m) latest } in
  if truthy (default VUndef agent') || truthy (default VUndef latest) then refresh m else Ok m.

Definition hide (m : UpgradeMessage) : UpgradeMessage := { m with isHidden := true }.

(** The event [upgradeAgents]: its agents and its version. *)
Definition upgrade (m : UpgradeMessage) : val * val := (VArr [agent m], latestBinaryVersion m).

Definition repeat (m : UpgradeMessage) : val * val := upgrade m.

(** The event [cancelUpgradeAgent]: the hash of the agent and its task. *)
Definition cancel (m : UpgradeMessage) : res (val * val) :=
  hash ← get (agent m) "hash"; Ok (hash, task m).

(** [pairwise(), take(2)] after a button: [current] is the flag of the running
    request when it is pressed, [later] its values from then on.  How often
    [refresh] is emitted: when the flag falls within the first two changes. *)
Definition refreshes (current : bool) (later : list bool) : nat :=
  length (List.filter (λ p : bool * bool, p.1 && negb p.2) (take 2 (zip (current :: later) later))).
