(* ===== verification/ListFacades.v ===== *)
(** * Facades of the list stores

    One module per facade ([libs/store/*]).  A method is what it dispatches;
    the column filters are functions of the states they combine. *)

From S2P Require Import Prelude JsValue Models Filtration.
From S2P Require Effects Queries Facades PoliciesStore PoliciesEffects GroupsStore.
From S2P Require GroupsEffects AgentListStore AgentListEffects AgentCardStore AgentCardEffects.
From S2P Require ModuleListStore ModuleListEffects ModulesInstancesStore SharedStore.
From S2P Require SharedEffects TagsStore.

(** ** Facade of the policies store

    [libs/store/policies/src/lib/policies.facade.ts].  A method is what it dispatches;
    the column filters are functions of the states they combine. *)

Module PoliciesFacade.
Import Effects Queries Facades PoliciesStore PoliciesEffects.

(** ** Column filters *)

Section items.
Context `{Language} `{Translation}.

(** [gridFilterItems$], with the names the code gives its parts. *)
Definition gridFilterItems (state : State) (groups : val) : res val :=
  groups ← or_empty (foundById groups (filterItemsGroupIds state));
  modules ← or_empty (foundByName (modulesOfPolicy state) (filterItemsModuleNames state));
  Ok (obj_lit [("groups", groups); ("modules", modules); ("tags", filterItemsTags state)]).

Definition gridColumnFilterItems (items : val) : res val :=
  groups ← (l ← get items "groups"; map_array entityItem l);
  modules ← (l ← get items "modules"; map_array titledModuleItem l);
  tags ← (l ← get items "tags"; plainItems l);
  Ok (obj_lit [("groups", groups); ("modules", modules); ("tags", tags)]).

Definition agentGridFilterItems (state : State) (allGroups modules : val) : res val :=
  groups ← or_empty (foundById allGroups (agentFilterItemGroupIds state));
  modules ← or_empty (foundByName modules (agentFilterItemModuleNames state));
  Ok (obj_lit [("groups", groups); ("modules", modules); ("os", agentFilterItemOs state);
    ("tags", agentFilterItemTags state)]).

Definition agentGridColumnFilterItems (items : val) : res val :=
  groups ← (l ← get items "groups"; map_array entityItem l);
  modules ← (l ← get items "modules"; map_array moduleItem l);
  os ← (l ← get items "os"; osItems l);
  tags ← (l ← get items "tags"; plainItems l);
  Ok (obj_lit [("groups", groups); ("modules", modules); ("os", os); ("tags", tags)]).

(** [None]: [filter] stops the value, since modules or groups are not there yet. *)
Definition eventGridFilterItems (state : State) (allGroups : val) : res (option val) :=
  let modules := modulesOfPolicy state in
  hasModules ← someItems modules;
  hasGroups ← (if hasModules : bool then someItems allGroups else Ok false);
  if negb hasGroups then Ok None
  else
    found ← or_empty (foundById modules (eventFilterItemModuleIds state));
    groups ← or_empty (foundById allGroups (eventFilterItemGroupIds state));
    Ok (Some (obj_lit [("agents", js_or (eventFilterItemAgentNames state) (VArr []));
      ("modules", found); ("groups", groups)])).

Definition eventGridColumnFilterItems (items : val) : res val :=
  agents ← (l ← get items "agents"; map_array (λ x, Ok (columnItem x x)) l);
  modules ← (l ← get items "modules"; map_array moduleItem l);
  groups ← (l ← get items "groups"; map_array entityItem l);
  Ok (obj_lit [("agents", agents); ("modules", modules); ("groups", groups)]).

Definition gridGroupFilterItems (state : State) (allPolicies modules : val) : res (option val) :=
  hasPolicies ← someItems allPolicies;
  hasModules ← (if hasPolicies : bool then someItems modules else Ok false);
  if negb hasModules then Ok None
  else
    found ← or_empty (foundByName modules (groupFilterItemModuleNames state));
    policies ← or_empty (foundById allPolicies (groupFilterItemPolicyIds state));
    tags ← or_empty (plainItems (groupFilterItemTags state));
    Ok (Some (obj_lit [("modules", found); ("policies", policies); ("tags", tags)])).

Definition gridGroupColumnFilterItems (items : val) : res val :=
  modules ← (l ← get items "modules"; map_array strictModuleItem l);
  policies ← (l ← get items "policies"; map_array strictEntityItem l);
  tags ← get items "tags";
  Ok (obj_lit [("modules", modules); ("policies", policies); ("tags", tags)]).

(** [agentNames] and [groupIds] are those of the store of module instances. *)
Definition moduleEventsGridFilterItems (allGroups agentNames groupIds : val) : res val :=
  groups ← map_arrayq (λ id,
    if is_nullish allGroups then Ok VUndef
    else n ← parseInt (to_string id); find_by "id" (VNum n) allGroups) groupIds;
  Ok (obj_lit [("agents", agentNames); ("groups", groups)]).

Definition moduleEventsGridColumnFilterItems (items : val) : res val :=
  agents ← (l ← get items "agents"; plainItems l);
  groups ← (l ← get items "groups"; map_arrayq entityItem l);
  Ok (obj_lit [("agents", agents); ("groups", groups)]).

(** ** Taken names *)

Definition existedPoliciesQuery (name : string) : Call :=
  mkCall "policiesService.fetchList" [nameQuery name].

Definition getIsExistedPoliciesByName (exclude : list string) (resp : Response) : res bool :=
  isExisted "policies" exclude resp.

Definition allListQuery' (state : State) : res val :=
  initialQuery ← selectInitialListQuery state; Ok (allListQuery (own_props initialQuery)).
End items.

(** ** Methods *)

Definition updateFilters (filters : val) : list Action := [PoliciesStore.updateFilters filters].
Definition selectFilter (id : val) : list Action := [PoliciesStore.selectFilter id].
Definition selectGroup (id : val) : list Action := [PoliciesStore.selectGroup id].
Definition fetchFiltersCounters : list Action := [PoliciesStore.fetchCountersByFilters].
Definition fetchPoliciesPage (page : val) : list Action := [PoliciesStore.fetchPoliciesPage page].
Definition fetchFilterItems : list Action := [PoliciesStore.fetchFilterItems].
Definition fetchAgentFilterItems : list Action := [PoliciesStore.fetchAgentFilterItems].
Definition fetchEventFilterItems : list Action := [PoliciesStore.fetchEventFilterItems].
Definition fetchGroupFilterItems : list Action := [PoliciesStore.fetchGroupFilterItems].
Definition selectPolicies (policies : val) : list Action := [PoliciesStore.selectPolicies policies].
Definition createPolicy (policy : val) : list Action := [PoliciesStore.createPolicy policy].
Definition copyPolicy (policy : val) (redirect : val) : list Action :=
  [PoliciesStore.copyPolicy policy redirect].
Definition updatePolicy (policy : val) : list Action := [PoliciesStore.updatePolicy policy].
Definition deletePolicy (hash : string) : list Action := [PoliciesStore.deletePolicy hash].
Definition linkPolicyToGroup (hash : string) (group : val) : list Action :=
  [PoliciesStore.linkPolicyToGroup hash group].
Definition unlinkPolicyFromGroup (hash : string) (group : val) : list Action :=
  [PoliciesStore.unlinkPolicyFromGroup hash group].
Definition setGridFiltration (filtration : Filtration) : list Action :=
  [PoliciesStore.setGridFiltration filtration].
Definition setGridFiltrationByTag (tag : string) : list Action :=
  [PoliciesStore.setGridFiltrationByTag tag].
Definition setAgentsGridFiltrationByTag (tag : string) : list Action :=
  [PoliciesStore.setAgentsGridFiltrationByTag tag].
Definition setGroupsGridFiltrationByTag (tag : string) : list Action :=
  [PoliciesStore.setGroupsGridFiltrationByTag tag].
Definition setGridSearch (value : string) : list Action := [PoliciesStore.setGridSearch value].
Definition resetFiltration : list Action := [PoliciesStore.resetFiltration].
Definition setGridSorting (sorting : val) : list Action := [PoliciesStore.setGridSorting sorting].
Definition fetchPolicy (hash : string) : list Action := [PoliciesStore.fetchPolicy hash].
Definition fetchModules (hash : string) : list Action := [PoliciesStore.fetchPolicyModules hash].
Definition fetchEvents (id : val) (page : val) : list Action :=
  [PoliciesStore.fetchPolicyEvents id page].
Definition setEventsGridFiltration (filtration : Filtration) : list Action :=
  [PoliciesStore.setEventsGridFiltration filtration].
Definition setEventsGridSearch (value : string) : list Action :=
  [PoliciesStore.setEventsGridSearch value].
Definition resetEventsFiltration : list Action := [PoliciesStore.resetEventsFiltration].
Definition setEventsGridSorting (sorting : val) : list Action :=
  [PoliciesStore.setEventsGridSorting sorting].
Definition fetchAgents (id : val) (page : val) : list Action :=
  [PoliciesStore.fetchPolicyAgents id page].
Definition setAgentsGridFiltration (filtration : Filtration) : list Action :=
  [PoliciesStore.setAgentsGridFiltration filtration].
Definition setAgentsGridSearch (value : string) : list Action :=
  [PoliciesStore.setAgentsGridSearch value].
Definition resetAgentsFiltration : list Action := [PoliciesStore.resetAgentsFiltration].
Definition setAgentsGridSorting (sorting : val) : list Action :=
  [PoliciesStore.setAgentsGridSorting sorting].
Definition selectAgent (id : val) : list Action := [PoliciesStore.selectAgent id].
Definition fetchGroups (id : val) (page : val) : list Action :=
  [PoliciesStore.fetchPolicyGroups id page].
Definition setGroupsGridFiltration (filtration : Filtration) : list Action :=
  [PoliciesStore.setGroupsGridFiltration filtration].
Definition setGroupsGridSearch (value : string) : list Action :=
  [PoliciesStore.setGroupsGridSearch value].
Definition resetGroupsFiltration : list Action := [PoliciesStore.resetGroupsFiltration].
Definition setGroupsGridSorting (sorting : val) : list Action :=
  [PoliciesStore.setGroupsGridSorting sorting].
Definition selectPolicyGroup (id : val) : list Action := [PoliciesStore.selectPolicyGroup id].
Definition updateAgentData (agent : val) : list Action := [PoliciesStore.updateAgentData agent].
Definition cancelUpgradeAgent (hash : string) (task : val) : list Action :=
  [PoliciesStore.cancelUpgradeAgent hash task].
Definition updateModuleConfig (module : val) : list Action :=
  [PoliciesStore.updatePolicyModuleConfig module].
Definition resetCreatedPolicy : list Action := [PoliciesStore.resetCreatedPolicy].
Definition resetPolicyErrors : list Action := [PoliciesStore.resetPolicyErrors].
Definition reset : list Action := [PoliciesStore.reset].

Definition upgradeAgents (agents : val) (version : string) : res (list Action) :=
  upgrading ← upgradingAgents agents version;
  Ok [PoliciesStore.upgradeAgents upgrading version].

Definition restoreState (params : obj string) : Outcome Action :=
  restoring
    (restoredSelection PoliciesStore.selectGroup PoliciesStore.selectFilter "all_policies" params)
    PoliciesStore.restoreState (VObj []) params.

(** ** The part of the list that is kept in the address
    ([initPageStateRx] of policies-page.component.ts) *)

Definition listView (state : State) : ListView :=
  mkView (selectedFilterId state) (selectedGroupId state) (gridFiltration state)
    (gridSearch state) (sorting state).

(** [None] until the state has been restored ([skipWhile]). *)
Definition savedState (state : State) : option (res (obj val)) :=
  if restored state then
    Some (l ← savedParams (listView state); Ok (savedSelection (listView state) ++ l))
  else None.
End PoliciesFacade.

(** ** Facade of the groups store

    [libs/store/groups/src/lib/groups.facade.ts].  A method is what it dispatches;
    the column filters are functions of the states they combine. *)

Module GroupsFacade.
Import Effects Queries Facades GroupsStore GroupsEffects.

(** ** Column filters *)

Section items.
Context `{Language} `{Translation}.

(** [None]: [filter] stops the value, since policies or modules are not there yet. *)
Definition gridFilterItems (state : State) (policies modules : val) : res (option val) :=
  hasPolicies ← someItems policies;
  hasModules ← (if hasPolicies : bool then someItems modules else Ok false);
  if negb hasModules then Ok None
  else
    foundPolicies ← foundById policies (filterItemsPolicyIds state);
    foundModules ← foundByName modules (filterItemsModuleNames state);
    Ok (Some (obj_lit [("policies", foundPolicies); ("modules", foundModules);
      ("tags", filterItemsTags state)])).

Definition gridColumnFilterItems (items : val) : res val :=
  modules ← (l ← get items "modules"; map_arrayq moduleItem l);
  policies ← (l ← get items "policies"; map_arrayq entityItem l);
  tags ← (l ← get items "tags"; plainItems l);
  Ok (obj_lit [("modules", modules); ("policies", policies); ("tags", tags)]).

Definition agentGridFilterItems (state : State) (allGroups modules : val) : res val :=
  groups ← or_empty (foundById allGroups (agentFilterItemGroupIds state));
  modules ← or_empty (foundByName modules (agentFilterItemModuleNames state));
  Ok (obj_lit [("groups", groups); ("modules", modules); ("os", agentFilterItemOs state);
    ("tags", agentFilterItemTags state)]).

Definition agentGridColumnFilterItems (items : val) : res val :=
  groups ← (l ← get items "groups"; map_array entityItem l);
  modules ← (l ← get items "modules"; map_array moduleItem l);
  os ← (l ← get items "os"; osItems l);
  tags ← (l ← get items "tags"; plainItems l);
  Ok (obj_lit [("groups", groups); ("modules", modules); ("os", os); ("tags", tags)]).

Definition policyGridFilterItems (state : State) (modules : val) : res val :=
  modules ← or_empty (foundByName modules (policyFilterItemModuleNames state));
  Ok (obj_lit [("modules", modules); ("tags", policyFilterItemTags state)]).

Definition policyGridColumnFilterItems (items : val) : res val :=
  modules ← (l ← get items "modules"; map_array moduleItem l);
  tags ← (l ← get items "tags"; plainItems l);
  Ok (obj_lit [("modules", modules); ("os", VArr (osItem <$> osList)); ("tags", tags)]).

Definition eventGridFilterItems (state : State) (allPolicies : val) : res (option val) :=
  let modules := modulesOfGroup state in
  hasModules ← someItems modules;
  hasPolicies ← (if hasModules : bool then someItems allPolicies else Ok false);
  if negb hasPolicies then Ok None
  else
    found ← or_empty (foundById modules (eventFilterItemModuleIds state));
    policies ← or_empty (foundById allPolicies (eventFilterItemPolicyIds state));
    Ok (Some (obj_lit [("agents", js_or (eventFilterItemAgentNames state) (VArr []));
      ("modules", found); ("policies", policies)])).

Definition eventGridColumnFilterItems (items : val) : res val :=
  agents ← (l ← get items "agents"; map_array (λ x, Ok (columnItem x x)) l);
  modules ← (l ← get items "modules"; map_array moduleItem l);
  policies ← (l ← get items "policies"; map_array entityItem l);
  Ok (obj_lit [("agents", agents); ("modules", modules); ("policies", policies)]).

(** [agentNames] are those of the store of module instances. *)
Definition moduleEventsGridFilterItems (agentNames : val) : val :=
  obj_lit [("agents", js_or agentNames (VArr []))].

Definition moduleEventsGridColumnFilterItems (items : val) : res val :=
  agents ← (l ← get items "agents"; plainItems l);
  Ok (obj_lit [("agents", agents)]).

(** ** Taken names *)

Definition existedGroupsQuery (name : string) : Call :=
  mkCall "groupsService.fetchList" [nameQuery name].

Definition getIsExistedGroupsByName (exclude : list string) (resp : Response) : res bool :=
  isExisted "groups" exclude resp.

Definition allListQuery' (state : State) : val :=
  allListQuery (own_props (selectInitialListQuery state)).
End items.

(** ** Methods *)

Definition fetchGroupsPage (page : val) : list Action := [GroupsStore.fetchGroupsPage page].
Definition fetchAgents (id : val) (page : val) : list Action :=
  [GroupsStore.fetchGroupAgents id page].
Definition setAgentsGridSearch (value : string) : list Action :=
  [GroupsStore.setAgentsGridSearch value].
Definition setAgentsGridFiltration (filtration : Filtration) : list Action :=
  [GroupsStore.setAgentsGridFiltration filtration].
Definition resetAgentsFiltration : list Action := [GroupsStore.resetAgentsFiltration].
Definition setAgentsGridSorting (sorting : val) : list Action :=
  [GroupsStore.setAgentsGridSorting sorting].
Definition selectAgent (id : val) : list Action := [GroupsStore.selectAgent id].
Definition selectPolicy (id : val) : list Action := [GroupsStore.selectPolicy id].
Definition fetchEvents (id : val) (page : val) : list Action :=
  [GroupsStore.fetchGroupEvents id page].
Definition setEventsGridFiltration (filtration : Filtration) : list Action :=
  [GroupsStore.setEventsGridFiltration filtration].
Definition setEventsGridSearch (value : string) : list Action :=
  [GroupsStore.setEventsGridSearch value].
Definition resetEventsFiltration : list Action := [GroupsStore.resetEventsFiltration].
Definition setEventsGridSorting (sorting : val) : list Action :=
  [GroupsStore.setEventsGridSorting sorting].
Definition fetchPolicies (id : val) (page : val) : list Action :=
  [GroupsStore.fetchGroupPolicies id page].
Definition fetchAgentFilterItems : list Action := [GroupsStore.fetchAgentFilterItems].
Definition fetchPolicyFilterItems : list Action := [GroupsStore.fetchPolicyFilterItems].
Definition fetchEventFilterItems : list Action := [GroupsStore.fetchEventFilterItems].
Definition setPoliciesGridFiltration (filtration : Filtration) : list Action :=
  [GroupsStore.setPoliciesGridFiltration filtration].
Definition setPoliciesGridSearch (value : string) : list Action :=
  [GroupsStore.setPoliciesGridSearch value].
Definition setPoliciesGridSorting (sorting : val) : list Action :=
  [GroupsStore.setPoliciesGridSorting sorting].
Definition resetPoliciesFiltration : list Action := [GroupsStore.resetPoliciesFiltration].
Definition selectGroup (id : string) : list Action := [GroupsStore.selectGroup id].
Definition selectGroups (groups : val) : list Action := [GroupsStore.selectGroups groups].
Definition createGroup (group : val) : list Action := [GroupsStore.createGroup group].
Definition copyGroup (group : val) (redirect : val) : list Action :=
  [GroupsStore.copyGroup group redirect].
Definition updateGroup (group : val) : list Action := [GroupsStore.updateGroup group].
Definition deleteGroup (hash : string) : list Action := [GroupsStore.deleteGroup hash].
Definition linkGroupToPolicy (hash : string) (policy : val) : list Action :=
  [GroupsStore.linkGroupToPolicy hash policy].
Definition unlinkGroupFromPolicy (hash : string) (policy : val) : list Action :=
  [GroupsStore.unlinkGroupFromPolicy hash policy].
Definition setGridFiltration (filtration : Filtration) : list Action :=
  [GroupsStore.setGridFiltration filtration].
Definition setGridFiltrationByTag (tag : string) : list Action :=
  [GroupsStore.setGridFiltrationByTag tag].
Definition setAgentsGridFiltrationByTag (tag : string) : list Action :=
  [GroupsStore.setAgentsGridFiltrationByTag tag].
Definition setPoliciesGridFiltrationByTag (tag : string) : list Action :=
  [GroupsStore.setPoliciesGridFiltrationByTag tag].
Definition setGridSearch (value : string) : list Action := [GroupsStore.setGridSearch value].
Definition resetFiltration : list Action := [GroupsStore.resetFiltration].
Definition setGridSorting (sorting : val) : list Action := [GroupsStore.setGridSorting sorting].
Definition fetchGroup (hash : string) : list Action := [GroupsStore.fetchGroup hash].
Definition updateAgentData (agent : val) : list Action := [GroupsStore.updateAgentData agent].
Definition cancelUpgradeAgent (hash : string) (task : val) : list Action :=
  [GroupsStore.cancelUpgradeAgent hash task].
Definition fetchFilterItems : list Action := [GroupsStore.fetchFilterItems].
Definition resetCreatedGroup : list Action := [GroupsStore.resetCreatedGroup].
Definition resetGroupErrors : list Action := [GroupsStore.resetGroupErrors].
Definition reset : list Action := [GroupsStore.reset].

Definition upgradeAgents (agents : val) (version : string) : res (list Action) :=
  upgrading ← upgradingAgents agents version;
  Ok [GroupsStore.upgradeAgents upgrading version].

(** [{ prop: 'name', order: 'ascending' }] *)
Definition byName : val := obj_lit [("prop", VStr "name"); ("order", VStr "ascending")].

Definition restoreState (params : obj string) : Outcome Action :=
  restoring [] GroupsStore.restoreState byName params.

(** ** The part of the list that is kept in the address
    ([initPageStateRx] of groups-page.component.ts) *)

Definition listView (state : State) : ListView :=
  mkView VUndef VUndef (gridFiltration state) (gridSearch state) (sorting state).

Definition savedState (state : State) : option (res (obj val)) :=
  if restored state then Some (savedParams (listView state)) else None.
End GroupsFacade.

(** ** Facade of the agents store

    [libs/store/agents/src/lib/list/agent-list.facade.ts].  A method is what it dispatches;
    the column filters are functions of the states they combine. *)

Module AgentListFacade.
Import Effects Queries Facades AgentListStore AgentListEffects.

(** ** Column filters *)

Section items.
Context `{Language} `{Translation}.

Definition gridFilterItems (state : State) (groups modules : val) : res val :=
  groups ← or_empty (foundById groups (filterItemsGroupIds state));
  modules ← or_empty (foundByName modules (filterItemsModuleNames state));
  Ok (obj_lit [("groups", groups); ("modules", modules); ("versions", filterItemsVersions state);
    ("os", filterItemsOs state); ("tags", filterItemsTags state)]).

(** [{ label: new AgentVersionPipe().transform(version), value: version }] *)
Definition versionItem (version : val) : res val :=
  formatted ← removeHashFromVersion version; Ok (columnItem (VStr formatted) version).

Definition gridColumnFilterItems (items : val) : res val :=
  groups ← (l ← get items "groups"; map_array entityItem l);
  modules ← (l ← get items "modules"; map_array titledModuleItem l);
  versions ← (l ← get items "versions"; map_arrayq versionItem l);
  os ← (l ← get items "os"; osItems l);
  tags ← (l ← get items "tags"; plainItems l);
  Ok (obj_lit [("groups", groups); ("modules", modules); ("versions", versions); ("os", os);
    ("tags", tags)]).

Definition allListQuery' (state : State) : res val :=
  query ← selectInitialListQuery state; Ok (allListQuery (own_props query)).
End items.

(** ** Methods *)

Definition updateFilters (filters : val) : list Action := [AgentListStore.updateFilters filters].
Definition fetchFiltersCounters : list Action := [AgentListStore.fetchCountersByFilters].
Definition fetchFilterItems : list Action := [AgentListStore.fetchFilterItems].
Definition fetchAgentsPage (page : val) : list Action := [AgentListStore.fetchAgentsPage page].
Definition cancelUpgradeAgent (hash : string) (task : val) : list Action :=
  [AgentListStore.cancelUpgradeAgent hash task].
Definition fetchVersions : list Action := [AgentListStore.fetchAgentsVersions].
Definition selectFilter (id : val) : list Action := [AgentListStore.selectFilter id].
Definition selectGroup (id : val) : list Action := [AgentListStore.selectGroup id].
Definition setGridFiltration (filtration : Filtration) : list Action :=
  [AgentListStore.setGridFiltration filtration].
Definition setGridFiltrationByTag (tag : string) : list Action :=
  [AgentListStore.setGridFiltrationByTag tag].
Definition setGridSearch (value : string) : list Action := [AgentListStore.setGridSearch value].
Definition resetFiltration : list Action := [AgentListStore.resetFiltration].
Definition setGridSorting (sorting : val) : list Action := [AgentListStore.setGridSorting sorting].
Definition selectAgents (agents : val) : list Action := [AgentListStore.selectAgents agents].
Definition moveToGroups (ids : val) (groupId : val) : list Action :=
  [AgentListStore.moveAgentsToGroup ids groupId].
Definition moveToNewGroups (ids : val) (groupName : string) : list Action :=
  [AgentListStore.moveAgentsToNewGroup ids groupName].
Definition updateAgent (agent : val) : list Action := [AgentListStore.updateAgent agent].
Definition blockAgents (ids : val) : list Action := [AgentListStore.blockAgents ids].
Definition deleteAgents (ids : val) : list Action := [AgentListStore.deleteAgents ids].
Definition updateAgentsData (agents : val) : list Action := [AgentListStore.updateAgentData agents].
Definition resetAgentErrors : list Action := [AgentListStore.resetAgentErrors].
Definition reset : list Action := [AgentListStore.reset].

Definition upgradeAgents (agents : val) (version : string) : res (list Action) :=
  upgrading ← upgradingAgents agents version;
  Ok [AgentListStore.upgradeAgents upgrading version].

Definition restoreState (params : obj string) : Outcome Action :=
  restoring
    (restoredSelection AgentListStore.selectGroup AgentListStore.selectFilter "authorized" params)
    AgentListStore.restoreState (VObj []) params.

(** ** The part of the list that is kept in the address
    ([initPageStateRx] of agents-page.component.ts) *)

Definition listView (state : State) : ListView :=
  mkView (selectedFilterId state) (selectedGroupId state) (gridFiltration state)
    (gridSearch state) (sorting state).

(** [None] until the state has been restored ([skipWhile]). *)
Definition savedState (state : State) : option (res (obj val)) :=
  if restored state then
    Some (l ← savedParams (listView state); Ok (savedSelection (listView state) ++ l))
  else None.
End AgentListFacade.

(** ** Facade of the store of one agent

    [libs/store/agents/src/lib/card/agent-card.facade.ts].  A method is what it dispatches;
    the column filters are functions of the state. *)

Module AgentCardFacade.
Import Effects Queries Facades AgentCardStore AgentCardEffects.

Section items.
Context `{Language}.

(** [None]: [filter] stops the value, since the modules are not there yet. *)
Definition eventGridFilterItems (state : State) : res (option val) :=
  hasModules ← someItems (modulesOfAgentCard state);
  if negb hasModules then Ok None
  else
    modules ← or_empty (foundById (modulesOfAgentCard state) (eventFilterItemModuleIds state));
    Ok (Some (obj_lit [("modules", modules)])).

Definition eventGridColumnFilterItems (items : val) : res val :=
  modules ← (l ← get items "modules"; map_array moduleItem l);
  Ok (obj_lit [("modules", modules)]).
End items.

(** ** Methods *)

Definition fetchAgent (hash : string) : list Action := [AgentCardStore.fetchAgent hash].
Definition cancelUpgradeAgent (hash : string) (task : val) : list Action :=
  [AgentCardStore.cancelUpgradeAgent hash task].
Definition moveToGroup (id : val) (groupId : val) : list Action :=
  [AgentCardStore.moveAgentToGroup id groupId].
Definition moveToNewGroup (id : val) (groupName : string) : list Action :=
  [AgentCardStore.moveAgentToNewGroup id groupName].
Definition updateAgent (agent : val) : list Action := [AgentCardStore.updateAgent agent].
Definition blockAgent (id : val) : list Action := [AgentCardStore.blockAgent id].
Definition deleteAgent (id : val) : list Action := [AgentCardStore.deleteAgent id].
Definition fetchEvents (id : val) (page : val) : list Action :=
  [AgentCardStore.fetchAgentEvents id page].
Definition fetchEventFilterItems : list Action := [AgentCardStore.fetchEventFilterItems].
Definition setEventsGridFiltration (filtration : Filtration) : list Action :=
  [AgentCardStore.setEventsGridFiltration filtration].
Definition setEventsGridSearch (value : string) : list Action :=
  [AgentCardStore.setEventsGridSearch value].
Definition resetEventsFiltration : list Action := [AgentCardStore.resetEventsFiltration].
Definition setEventsGridSorting (sorting : val) : list Action :=
  [AgentCardStore.setEventsGridSorting sorting].
Definition reset : list Action := [AgentCardStore.reset].

Definition upgradeAgent (agent : val) (version : string) : res (list Action) :=
  upgrading ← isUpgrading version agent;
  Ok [AgentCardStore.upgradeAgent (if upgrading : bool then agent else VUndef) version].
End AgentCardFacade.

(** ** Facade of the modules store

    [libs/store/modules/src/lib/list/module-list.facade.ts].  A method is what it dispatches;
    whether a name is taken is a function of the state. *)

Module ModuleListFacade.
Import Effects Queries Facades ModuleListStore ModuleListEffects.

(** [modules.findIndex((module) => module.info.name === name) >= 0] *)
Definition getIsModuleNameExists (name : string) (state : State) : res bool :=
  l ← as_array (modules state);
  someM (λ module, n ← get_path module ["info"; "name"]; Ok (is_str n name)) l.

Definition allListQuery' `{Language} (state : State) : val :=
  allListQuery (own_props (selectInitialListQuery state)).

(** ** Methods *)

Definition fetchModules : list Action := [ModuleListStore.fetchModules].
Definition fetchModulesPage (page : val) : list Action := [ModuleListStore.fetchModulesPage page].
Definition fetchModulesTags : list Action := [ModuleListStore.fetchModulesTags].
Definition selectModules (modules : val) : list Action := [ModuleListStore.selectModules modules].
Definition setGridFiltration (filtration : Filtration) : list Action :=
  [ModuleListStore.setGridFiltration filtration].
Definition setGridFiltrationByTag (tag : string) : list Action :=
  [ModuleListStore.setGridFiltrationByTag tag].
Definition setGridSorting (sorting : val) : list Action := [ModuleListStore.setGridSorting sorting].
Definition setGridSearch (value : string) : list Action := [ModuleListStore.setGridSearch value].
Definition createModule (module : val) : list Action := [ModuleListStore.createModule module].
Definition importModule (name : string) (version : string) (data : val) : list Action :=
  [ModuleListStore.importModule name version data].
Definition resetFiltration : list Action := [ModuleListStore.resetFiltration].
Definition deleteModule (name : string) : list Action := [ModuleListStore.deleteModule name].
Definition deleteModuleVersion (name : string) (version : string) : list Action :=
  [ModuleListStore.deleteModuleVersion name version].
Definition fetchModuleVersions (name : string) : list Action :=
  [ModuleListStore.fetchModuleVersions name].
Definition resetImportState : list Action := [ModuleListStore.resetImportState].
Definition resetModuleErrors : list Action := [ModuleListStore.resetModuleErrors].
Definition reset : list Action := [ModuleListStore.reset].

Definition restoreState (params : obj string) : Outcome Action :=
  restoring [] ModuleListStore.restoreState (VObj []) params.

(** ** The part of the list that is kept in the address
    ([initPageStateRx] of modules-page.component.ts) *)

(** The text of the search; the other values a state may hold are not kept. *)
Definition searchText (search : val) : string := match search with VStr s => s | _ => "" end.

Definition listView (state : State) : ListView :=
  mkView VUndef VUndef (gridFiltration state) (searchText (gridSearch state)) (sorting state).

Definition savedState (state : State) : option (res (obj val)) :=
  if restored state then Some (savedParams (listView state)) else None.
End ModuleListFacade.

(** ** Facade of the store of module instances

    [libs/store/modules-instances/src/lib/modules-instances.facade.service.ts].  A method is what it dispatches;
    nothing else is in the class but projections of the state. *)

Module ModulesInstancesFacade.
Import ModulesInstancesStore.

Definition init (viewMode : val) (entityId : val) (moduleName : string) : list Action :=
  [ModulesInstancesStore.init viewMode entityId moduleName].
Definition fetchEvents (page : val) : list Action := [ModulesInstancesStore.fetchEvents page].
Definition fetchModuleEventsFilterItems : list Action :=
  [ModulesInstancesStore.fetchModuleEventsFilterItems].
Definition setEventsGridFiltration (filtration : Filtration) : list Action :=
  [ModulesInstancesStore.setEventsGridFiltration filtration].
Definition setEventsGridSearch (value : string) : list Action :=
  [ModulesInstancesStore.setEventsGridSearch value].
Definition resetEventsFiltration : list Action := [ModulesInstancesStore.resetEventsFiltration].
Definition setEventsGridSorting (sorting : val) : list Action :=
  [ModulesInstancesStore.setEventsGridSorting sorting].
Definition fetchVersions (moduleName : string) : list Action :=
  [ModulesInstancesStore.fetchModuleVersions moduleName].
Definition enableModule (policyHash : string) (moduleName : string) : list Action :=
  [ModulesInstancesStore.enableModule policyHash moduleName].
Definition disableModule (policyHash : string) (moduleName : string) : list Action :=
  [ModulesInstancesStore.disableModule policyHash moduleName].
Definition deleteModule (policyHash : string) (moduleName : string) : list Action :=
  [ModulesInstancesStore.deleteModule policyHash moduleName].
Definition updateModule (policyHash : string) (moduleName : string)
    (version : string) : list Action :=
  [ModulesInstancesStore.updateModule policyHash moduleName version].
Definition changeModuleVersion (policyHash : string) (moduleName : string)
    (version : string) : list Action :=
  [ModulesInstancesStore.changeModuleVersion policyHash moduleName version].
Definition saveModuleConfig (policyHash : string) (module : val) : list Action :=
  [ModulesInstancesStore.saveModuleConfig policyHash module].
Definition resetModuleErrors : list Action := [ModulesInstancesStore.resetModuleErrors].
Definition reset : list Action := [ModulesInstancesStore.reset].
End ModulesInstancesFacade.

(** ** Facade of the shared store

    [libs/store/shared/src/lib/shared.facade.ts].  A method is what it dispatches;
    the streams that compute are functions of the state. *)

Module SharedFacade.
Import Effects SharedStore SharedEffects TagsStore.

Abbreviation Action := SharedStore.Action.
Abbreviation State := SharedStore.State.

(** [agentBinaries?.map((binary) => binary.version)] *)
Definition agentBinaryVersions (state : State) : res val :=
  map_arrayq (λ binary, get binary "version") (agentBinaries state).

Definition latestAgentBinaryVersion (state : State) : res val :=
  getq (latestAgentBinary state) "version".

(** [info?.service?.name || ''] *)
Definition selectedServiceName (state : State) : res val :=
  service ← getq (info state) "service"; name ← getq service "name"; Ok (js_or name (VStr "")).

(** [None] without a service ([filter]). *)
Definition selectedServiceUrl (state : State) : res (option string) :=
  service ← getq (info state) "service";
  if negb (truthy service) then Ok None
  else hash ← getq service "hash"; Ok (Some ("/services/" +:+ to_string hash)).

(** ** Methods *)

Definition changePassword (data : val) : list Action := [SharedStore.changePassword data].
Definition exportBinary (os : val) (arch : val) (pack : val) (version : string) : list Action :=
  [SharedStore.exportBinaryFile os arch pack version].
Definition fetchAllAgents : list Action := [SharedStore.fetchAllAgents].
Definition fetchAllGroups (silent : bool) : list Action := [SharedStore.fetchAllGroups silent].
Definition fetchAllPolicies (silent : bool) : list Action := [SharedStore.fetchAllPolicies silent].
Definition fetchAllServices : list Action := [SharedStore.fetchAllServices].
Definition fetchAllModules : list Action := [SharedStore.fetchAllModules].
Definition fetchInfo (refreshCookie : bool) : list Action := [SharedStore.fetchInfo refreshCookie].
Definition fetchAgentBinaries : list Action := [SharedStore.fetchAgentBinaries].
Definition fetchLatestAgentBinary : list Action := [SharedStore.fetchLatestAgentBinary].
Definition fetchActions : list Action := [SharedStore.fetchOptionsActions].
Definition fetchEvents : list Action := [SharedStore.fetchOptionsEvents].
Definition fetchFields : list Action := [SharedStore.fetchOptionsFields].
Definition fetchTags : list Action := [SharedStore.fetchOptionsTags].
Definition setFilterByTags (tags : val) : list Action := [SharedStore.setFilterByTags tags].
Definition resetFilterByTags : list Action := [SharedStore.resetFilterByTags].
Definition setSearchValue (searchValue : string) : list Action :=
  [SharedStore.setFilterBySearchValue searchValue].

(** [logout] also removes the cookie of the session. *)
Definition logout : list Call * list Action :=
  ([mkCall "document.cookie" [VStr "auth=; Path=/; Expires=Thu, 01 Jan 1970 00:00:01 GMT;"]],
   [SharedStore.logout]).

(** [tags.facade.ts] *)
Definition fetchTags' (domain : string) : list TagsStore.Action := [TagsStore.fetchTags domain].
End SharedFacade.
