(* ===== verification/FacadeTheorems.v ===== *)
(** * Lists that are kept in the address of their page

    The interface of a page with a list: its store and what [restoreState] of
    the facade dispatches; the four pages with their instances.  The round
    trip through the address is proved once against the interface. *)

From S2P Require Import Prelude JsString JsValue JsJson JsonText Models Filtration Effects.
From S2P Require Import Queries Facades UpgradeMessage.
From S2P Require PoliciesStore GroupsStore AgentListStore ModuleListStore.
From S2P Require PoliciesEffects GroupsEffects.
From S2P Require AgentListEffects AgentCardEffects.
From S2P Require Import ListFacades.

(** What is selected in an address: one of a quick filter and a group. *)
Definition one_selected (params : obj string) : Prop :=
  match obj_get "filterId" params, obj_get "groupId" params with
  | Some f, None => f ≠ ""
  | None, Some g => g ≠ ""
  | _, _ => False
  end.

(** The part of a state that is kept, after its address was read. *)
Definition restoredView (selective : bool) (params : obj string) (r : RestoredState) : ListView :=
  mkView (if selective then param "filterId" params else VUndef)
    (if selective then param "groupId" params else VUndef)
    (restoredFiltration r) (restoredSearch r) (restoredSorting r).

Class Listing (S A : Type) := {
  reduces : S → A → res S;
  view : S → ListView;
  saved : S → option (res (obj val));
  restores : obj string → Outcome A;
  selective : bool;                       (* the page has quick filters and groups *)
  unsorted : val;                         (* the sorting of an address without one *)
  saved_params s params :
    saved s = Some (Ok params) →
    ∃ l, savedParams (view s) = Ok l ∧
      params = (if selective then savedSelection (view s) else []) ++ l;
  restores_view s params r :
    restoredState unsorted params = Ok r → (selective = true → one_selected params) →
    raised (restores params) = None ∧
    ∃ s', foldM reduces s (dispatched (restores params)) = Ok s' ∧
      view s' = restoredView selective params r;
  restores_nothing params e :
    restoredState unsorted params = Throw e → raised (restores params) = Some e
}.

Lemma selected_one params :
  one_selected params →
  (∃ f, f ≠ "" ∧ param "filterId" params = VStr f ∧ param "groupId" params = VUndef) ∨
  (∃ g, g ≠ "" ∧ param "filterId" params = VUndef ∧ param "groupId" params = VStr g).
Proof.
  unfold one_selected, param.
  destruct (obj_get "filterId" params) as [f|], (obj_get "groupId" params) as [g|];
    [done| | |done]; intros H; [left; by exists f | right; by exists g].
Qed.

Lemma truthy_str s : s ≠ "" → truthy (VStr s) = true.
Proof. intros H. simpl. by rewrite (proj2 (String.eqb_neq _ _) H). Qed.

(** The selection of an address, read back. *)
Lemma restoredSelection_one {A} (sg sf : val → A) usual params :
  one_selected params →
  restoredSelection sg sf usual params =
  [if truthy (param "groupId" params) then sg (param "groupId" params)
   else sf (param "filterId" params)].
Proof.
  intros H. unfold restoredSelection.
  destruct (selected_one _ H) as [(x & Hx & -> & ->)|(x & Hx & -> & ->)];
    by rewrite (truthy_str x Hx).
Qed.

Ltac saved_of := intros s params; case_match; [|done]; intros ?; simplify_eq; inv_res; by eexists.

(** The states after the actions of an address. *)
Ltac restores_of :=
  intros s params r Hr Hs; cbv [restoring]; rewrite Hr; split; [done|];
  eexists; split; [reflexivity|reflexivity].

Ltac restores_selected :=
  intros s params r Hr Hs; specialize (Hs eq_refl); cbv [restoring]; rewrite Hr;
  split; [done|]; rewrite (restoredSelection_one _ _ _ _ Hs); unfold restoredView;
  destruct (selected_one _ Hs) as [(x & Hx & Hf & Hg)|(x & Hx & Hf & Hg)];
  rewrite Hf, Hg, ?(truthy_str x Hx); eexists; split; reflexivity.

Ltac raises_of := intros params e He; cbv [restoring]; by rewrite He.

#[export] Program Instance policies_listing : Listing PoliciesStore.State PoliciesStore.Action := {
  reduces := PoliciesStore.reducer; view := PoliciesFacade.listView;
  saved := PoliciesFacade.savedState; restores := PoliciesFacade.restoreState;
  selective := true; unsorted := VObj []
}.
Next Obligation. unfold PoliciesFacade.savedState. saved_of. Qed.
Next Obligation. unfold PoliciesFacade.restoreState. restores_selected. Qed.
Next Obligation. unfold PoliciesFacade.restoreState. raises_of. Qed.

#[export] Program Instance agents_listing : Listing AgentListStore.State AgentListStore.Action := {
  reduces := AgentListStore.reducer; view := AgentListFacade.listView;
  saved := AgentListFacade.savedState; restores := AgentListFacade.restoreState;
  selective := true; unsorted := VObj []
}.
Next Obligation. unfold AgentListFacade.savedState. saved_of. Qed.
Next Obligation. unfold AgentListFacade.restoreState. restores_selected. Qed.
Next Obligation. unfold AgentListFacade.restoreState. raises_of. Qed.

#[export] Program Instance groups_listing : Listing GroupsStore.State GroupsStore.Action := {
  reduces := GroupsStore.reducer; view := GroupsFacade.listView;
  saved := GroupsFacade.savedState; restores := GroupsFacade.restoreState;
  selective := false; unsorted := GroupsFacade.byName
}.
Next Obligation. unfold GroupsFacade.savedState. saved_of. Qed.
Next Obligation. unfold GroupsFacade.restoreState. restores_of. Qed.
Next Obligation. unfold GroupsFacade.restoreState. raises_of. Qed.

#[export] Program Instance modules_listing : Listing ModuleListStore.State ModuleListStore.Action := {
  reduces := ModuleListStore.reducer; view := ModuleListFacade.listView;
  saved := ModuleListFacade.savedState; restores := ModuleListFacade.restoreState;
  selective := false; unsorted := VObj []
}.
Next Obligation. unfold ModuleListFacade.savedState. saved_of. Qed.
Next Obligation. unfold ModuleListFacade.restoreState. restores_of. Qed.
Next Obligation. unfold ModuleListFacade.restoreState. raises_of. Qed.

(** ** The round trip *)

(** What an address carries: JSON in the filters and the sorting, and a quick
    filter or a group where the page has them. *)
Definition carried (selective : bool) (v : ListView) : Prop :=
  Forall (λ f, is_json (value f) = true ∧ plain (value f) = true) (viewFiltration v) ∧
  (∃ o, viewSorting v = VObj o ∧ is_json (VObj o) = true ∧ plain (VObj o) = true) ∧
  (if selective then
     (∃ f, f ≠ "" ∧ viewFilterId v = VStr f ∧ viewGroupId v = VUndef) ∨
     (∃ g, g ≠ "" ∧ viewFilterId v = VUndef ∧ viewGroupId v = VStr g)
   else viewFilterId v = VUndef ∧ viewGroupId v = VUndef).

(** The sorting that comes back: a list without sorting gets that of an address
    without one. *)
Definition sortingBack (unsorted sorting : val) : val :=
  match sorting with VObj [] => unsorted | _ => sorting end.

Lemma filters_json l :
  Forall (λ f, is_json (value f) = true ∧ plain (value f) = true) l →
  is_json (VArr (filters_val l)) = true ∧ plain (VArr (filters_val l)) = true.
Proof.
  intros H. rewrite is_json_arr, plain_arr. unfold filters_val.
  split; apply Forall_fmap; (eapply Forall_impl; [exact H|]); intros [f x] [Hj Hp]; simpl in Hj, Hp |- *.
  - by rewrite Hj.
  - by rewrite Hp.
Qed.

Lemma json_text_parses v :
  is_json v = true → plain v = true → is_undef v = false → json_parse (json_text v) = Ok v.
Proof. intros Hj Hp Hu. by rewrite json_parse_text, clone_json. Qed.

Lemma json_text_array l : json_text (VArr l) ≠ "".
Proof. done. Qed.

Lemma json_text_object o : json_text (VObj o) ≠ "".
Proof. done. Qed.

Lemma as_filtrations_val l : mapM as_filtration (filters_val l) = Ok l.
Proof.
  induction l as [|[f x] l IH]; [done|]. cbn [filters_val fmap list_fmap mapM].
  change (as_filtration (filter_val (mkFiltration f x))) with (Ok (mkFiltration f x)).
  cbn [mbind res_bind]. unfold filters_val in IH. by rewrite IH.
Qed.

#[local] Arguments json_text : simpl never.
#[local] Arguments filters_val : simpl never.

Section roundtrip.
Context `{Router}.
Context (v : ListView) (sel l : obj val) (url : obj string) (selects : bool) (unsorted : val).
Context (Hl : savedParams v = Ok l) (Hsel : sel = [] ∨ sel = savedSelection v).
Context (Hv : carried selects v).

Lemma written_filtration :
  parsedParam "filtration" (navigate url (sel ++ l)) (VArr []) =
  Ok (VArr (filters_val (viewFiltration v))).
Proof.
  destruct Hv as (Hf & _ & _). apply filters_json in Hf as [Hj Hp]. revert Hj Hp.
  unfold parsedParam. rewrite navigate_lookup. unfold savedParams in Hl. inv_res.
  assert (obj_get "filtration" (sel ++ _) = _) as -> by
    (destruct Hsel as [-> | ->]; cbn; reflexivity).
  destruct (viewFiltration v) as [|f fs]; [done|]. intros Hj Hp. cbn [is_nullish to_string].
  rewrite (proj2 (String.eqb_neq _ _)) by apply json_text_array. by apply json_text_parses.
Qed.

Lemma written_sort :
  parsedParam "sort" (navigate url (sel ++ l)) unsorted = Ok (sortingBack unsorted (viewSorting v)).
Proof.
  destruct Hv as (_ & (o & Ho & Hj & Hp) & _).
  unfold parsedParam. rewrite navigate_lookup. unfold savedParams in Hl. rewrite Ho in Hl |- *.
  cbn [Object_keys mbind res_bind] in Hl. simplify_eq.
  assert (obj_get "sort" (sel ++ _) = _) as -> by
    (destruct Hsel as [-> | ->]; cbn; reflexivity).
  destruct o as [|kv o]; [done|]. cbn [obj_keys fmap list_fmap is_nullish to_string].
  rewrite (proj2 (String.eqb_neq _ _)) by apply json_text_object. by apply json_text_parses.
Qed.

Lemma written_search : default "" (obj_get "search" (navigate url (sel ++ l))) = viewSearch v.
Proof.
  rewrite navigate_lookup. unfold savedParams in Hl. inv_res.
  assert (obj_get "search" (sel ++ _) = _) as -> by
    (destruct Hsel as [-> | ->]; cbn; reflexivity).
  destruct (viewSearch v); [done|]. by cbn.
Qed.

Lemma written_state :
  restoredState unsorted (navigate url (sel ++ l)) =
  Ok (mkRestored (viewFiltration v) (viewSearch v) (sortingBack unsorted (viewSorting v))).
Proof.
  unfold restoredState. rewrite written_filtration, written_sort, written_search.
  cbn [mbind res_bind]. by rewrite as_filtrations_val.
Qed.
End roundtrip.

Section selection.
Context `{Router} (v : ListView) (l : obj val) (url : obj string).
Context (Hv : carried true v).

Lemma written_selection :
  one_selected (navigate url (savedSelection v ++ l)) ∧
  param "filterId" (navigate url (savedSelection v ++ l)) = viewFilterId v ∧
  param "groupId" (navigate url (savedSelection v ++ l)) = viewGroupId v.
Proof.
  destruct Hv as (_ & _ & Hs). unfold one_selected, param. rewrite !navigate_lookup.
  destruct Hs as [(f & Hf & Hi & Hg)|(g & Hg & Hi & Hi')].
  - unfold savedSelection. rewrite Hi, Hg. cbn. done.
  - unfold savedSelection. rewrite Hi, Hi'. cbn. done.
Qed.
End selection.

(** ** Properties of the facades

    The round trip of a list through the address of its page, which agents an
    upgrade asks for, the entries of column filters, taken names. *)

(** ** Lists in addresses *)

(** An Angular router that does what it documents. *)
Definition merged (url : obj string) (params : obj val) (k : string) : option string :=
  match obj_get k params with
  | Some v => if is_nullish v then None else Some (to_string v)
  | None => obj_get k url
  end.

Definition entries (f : string → option string) (keys : list string) : obj string :=
  flat_map (λ k, match f k with Some s => [(k, s)] | None => [] end) keys.

Lemma entries_get f keys k :
  obj_get k (entries f keys) = if decide (k ∈ keys) then f k else None.
Proof.
  induction keys as [|k' keys IH]; [done|]. unfold entries in *. cbn [flat_map].
  destruct (decide (k = k')) as [->|Hk].
  - rewrite decide_True by apply list_elem_of_here.
    destruct (f k') as [s|] eqn:Hf; cbn [app obj_get].
    + by rewrite String.eqb_refl.
    + rewrite IH. case_decide; congruence.
  - assert (k ∈ k' :: keys ↔ k ∈ keys) as Hin by (rewrite elem_of_cons; naive_solver).
    destruct (f k') as [s|]; cbn [app obj_get];
      [rewrite (proj2 (String.eqb_neq _ _)) by congruence|];
      rewrite IH; repeat case_decide; naive_solver.
Qed.

Lemma entries_lookup url params k :
  obj_get k (entries (merged url params) (obj_keys params ++ obj_keys url)) = merged url params k.
Proof.
  rewrite entries_get. case_decide as Hk; [done|].
  apply not_elem_of_app in Hk as [Hp Hu]. unfold merged. by rewrite !obj_keys_nil by done.
Qed.

#[local] Instance merging : Router := {
  navigate url params := entries (merged url params) (obj_keys params ++ obj_keys url);
  navigate_lookup := entries_lookup
}.

Section listings.
Context `{Router} {S A : Type} `{!Listing S A}.

(** C20: A list comes back as it was left: the address its page saves
    ([initPageStateRx]) leads [restoreState] of the facade, from any state of
    the store, to the same filters, search, sorting and selection, whatever
    other parameters the address had.  Only a list without a sorting ({}, after
    the third click on a header) comes back with the sorting of an address
    without one: none for policies, agents and modules, by name for groups.
    The values of the filters and of the sorting are plain JSON, and a page
    with quick filters and groups has one of them selected ([carried]).
    Proved for every page that is a [Listing]: policies, groups, agents,
    modules. *)
Theorem url_restores_list (s s0 : S) params url :
  saved s = Some (Ok params) → carried selective (view s) →
  raised (restores (navigate url params)) = None ∧
  ∃ s', foldM reduces s0 (dispatched (restores (navigate url params))) = Ok s' ∧
    view s' = { view s with viewSorting := sortingBack unsorted (viewSorting (view s)) }.
Proof.
  intros Hs Hv. destruct (saved_params _ _ Hs) as (l & Hl & ->).
  set (sel := if selective then _ else _).
  assert (sel = [] ∨ sel = savedSelection (view s)) as Hsel
    by (unfold sel; destruct selective; auto).
  destruct (restores_view s0 (navigate url (sel ++ l)) _
    (written_state (view s) sel l url selective unsorted Hl Hsel Hv)) as (Hr & s' & Hs' & Hview).
  - intros Hse. unfold sel. rewrite Hse in Hv |- *. by apply (written_selection (view s) l url).
  - split; [done|]. exists s'. split; [done|]. rewrite Hview. unfold restoredView, sel. simpl.
    destruct selective.
    + destruct (written_selection (view s) l url Hv) as (_ & -> & ->).
      by destruct (view s).
    + destruct Hv as (_ & _ & Hf & Hg). destruct (view s); simpl in *. by subst.
Qed.
End listings.

Lemma url_restores_list_witness :
  let s := match foldM PoliciesStore.reducer PoliciesStore.initialState
      [PoliciesStore.restoreState (mkRestored [] "" (VObj []));
       PoliciesStore.selectGroup (VStr "7"); PoliciesStore.setGridSearch "edr";
       PoliciesStore.setGridSorting (obj_lit [("prop", VStr "name"); ("order", VStr "ascending")]);
       PoliciesStore.setGridFiltrationByTag "new"] with Ok s => s | _ => PoliciesStore.initialState end in
  ∃ params s', saved s = Some (Ok params) ∧
    foldM reduces PoliciesStore.initialState (dispatched (restores
      (navigate [("lang", "ru"); ("search", "x")] params))) = Ok s' ∧
    PoliciesStore.selectedGroupId s' = VStr "7" ∧ PoliciesStore.gridSearch s' = "edr".
Proof.
  intros s. destruct (saved s) as [[params|]|] eqn:Hs; [|vm_compute in Hs; discriminate..].
  destruct (url_restores_list s PoliciesStore.initialState params
    [("lang", "ru"); ("search", "x")] Hs) as (_ & s' & Hs' & Hv).
  - split; [|split].
    + repeat constructor.
    + eexists. split; [reflexivity|]. split; [reflexivity|vm_compute; reflexivity].
    + right. by exists "7".
  - exists params, s'. split; [done|]. split; [exact Hs'|].
    split; [exact (f_equal viewGroupId Hv)|exact (f_equal viewSearch Hv)].
Defined.

(** Groups whose sorting was cleared come back sorted by name. *)
Example groups_come_back_by_name :
  let s := match foldM GroupsStore.reducer GroupsStore.initialState
      [GroupsStore.restoreState (mkRestored [] "" GroupsFacade.byName);
       GroupsStore.setGridSorting (VObj [])] with Ok s => s | _ => GroupsStore.initialState end in
  viewSorting (view s) = VObj [] ∧
  match saved s with
  | Some (Ok params) =>
      (viewSorting ∘ view) <$> match foldM reduces s (dispatched (restores (navigate [] params))) with
        | Ok s' => Some s' | Throw _ => None end
      = Some GroupsFacade.byName
  | _ => False
  end.
Proof. by vm_compute. Qed.

(** ** Which agents an upgrade asks for *)

(** The agents the facades keep. *)
Definition outdated (version : string) (agent : val) : bool :=
  is_str (prop agent "auth_status") "authorized" && negb (is_str (prop agent "version") version).

Lemma isUpgrading_outdated version agent :
  is_obj agent → isUpgrading version agent = Ok (outdated version agent).
Proof.
  intros Ho. unfold isUpgrading, outdated. rewrite !get_is_obj by done. cbn [mbind res_bind].
  by destruct (is_str _ "authorized").
Qed.

Lemma upgradingAgents_outdated agents version :
  Forall is_obj agents →
  upgradingAgents (VArr agents) version = Ok (VArr (List.filter (outdated version) agents)).
Proof.
  intros Hf. unfold upgradingAgents. cbn [as_array mbind res_bind].
  rewrite (filterM_pure _ (outdated version)); [done|].
  intros x Hx. apply isUpgrading_outdated. by eapply Forall_forall in Hf.
Qed.

Lemma mapIds_objects l : Forall is_obj l → mapIds (VArr l) = Ok (VArr ((λ a, prop a "id") <$> l)).
Proof.
  intros Hf. unfold mapIds, map_array. cbn [as_array mbind res_bind].
  assert (mapM (λ item, get item "id") l = Ok ((λ a, prop a "id") <$> l)) as ->; [|done].
  induction Hf as [|a l Ha _ IH]; [done|]. cbn [mapM fmap list_fmap].
  rewrite get_is_obj by done. cbn [mbind res_bind]. by rewrite IH.
Qed.

(** What an upgrade of [agents] asks the server for. *)
Definition upgrade_request (agents : list val) (version : string) : Call :=
  mkCall "upgradesService.upgradeAgent"
    [obj_lit [("filters", VArr [query_filter "id" (VArr ((λ a, prop a "id") <$> agents))]);
              ("version", VStr version)]].

Lemma upgrade_query_objects l version :
  Forall is_obj l → ∃ q, upgrade_query (VArr l) version = Ok q ∧
    mkCall "upgradesService.upgradeAgent" [q] = upgrade_request l version.
Proof. intros Hf. unfold upgrade_query. rewrite mapIds_objects by done. by eexists. Qed.

Lemma outdated_objects version agents :
  Forall is_obj agents → Forall is_obj (List.filter (outdated version) agents).
Proof.
  intros Hf. apply Forall_forall. intros x Hx. apply list_elem_of_In, List.filter_In in Hx as [Hx _].
  apply list_elem_of_In in Hx. by eapply Forall_forall in Hf.
Qed.

(** The calls an effect sends for the actions of a method. *)
Definition sent_calls {A} (r : option (Reaction A)) : list Call :=
  match r with
  | Some r => match sent r with Some q => calls q | None => [] end
  | None => []
  end.

Definition asked {S A} (e : Effect S A) (st : S) (m : res (list A)) : res (list Call) :=
  actions ← m; l ← mapM (run e st) actions; Ok (concat (sent_calls <$> l)).

(** C29: On every page an upgrade asks for the authorized ones among the selected
    agents that have another version, all of them, in their order, and for the
    version that was chosen: the facade drops the others and the effect sends
    the identifiers of the rest. *)
Theorem upgrade_asks_outdated pst gst ast cst agents agent version :
  Forall is_obj (agent :: agents) →
  let request l := Ok [upgrade_request (List.filter (outdated version) l) version] in
  asked PoliciesEffects.upgradeAgents' pst
    (PoliciesFacade.upgradeAgents (VArr agents) version) = request agents ∧
  asked GroupsEffects.upgradeAgents' gst
    (GroupsFacade.upgradeAgents (VArr agents) version) = request agents ∧
  asked AgentListEffects.upgradeAgents' ast
    (AgentListFacade.upgradeAgents (VArr agents) version) = request agents ∧
  asked AgentCardEffects.upgradeAgent' cst
    (AgentCardFacade.upgradeAgent agent version) = request [agent].
Proof.
  intros Hf request. apply Forall_cons in Hf as [Ha Hf].
  destruct (upgrade_query_objects _ version (outdated_objects version _ Hf)) as (q & Hq & Hr).
  unfold asked, request, PoliciesFacade.upgradeAgents, GroupsFacade.upgradeAgents,
    AgentListFacade.upgradeAgents.
  rewrite upgradingAgents_outdated by done. cbn [mbind res_bind mapM].
  unfold PoliciesEffects.upgradeAgents', GroupsEffects.upgradeAgents', AgentListEffects.upgradeAgents'.
  cbn [run]. rewrite Hq. cbn. rewrite Hr. do 3 (split; [done|]).
  unfold AgentCardFacade.upgradeAgent. rewrite isUpgrading_outdated by done. cbn [List.filter].
  destruct (outdated version agent); [|done].
  destruct Ha as [o ->]. done.
Qed.

Lemma upgrade_asks_outdated_witness :
  let blocked := obj_lit [("id", vint 1); ("auth_status", VStr "blocked"); ("version", VStr "v1")] in
  let old := obj_lit [("id", vint 2); ("auth_status", VStr "authorized"); ("version", VStr "v1")] in
  asked PoliciesEffects.upgradeAgents' PoliciesStore.initialState
    (PoliciesFacade.upgradeAgents (VArr [blocked; old]) "v2") = Ok [upgrade_request [old] "v2"].
Proof.
  intros blocked old.
  apply (upgrade_asks_outdated PoliciesStore.initialState GroupsStore.initialState
    AgentListStore.initialState AgentCardStore.initialState [blocked; old] old "v2").
  repeat constructor; by eexists.
Defined.

(** ** The message about an upgrade *)

Lemma refresh_shown m m' :
  refresh m = Ok m' →
  agent m' = agent m ∧ canUpgradeAgent (agent m) (latestBinaryVersion m) = Ok (canShowNewVersion m') ∧
  isFailure (canShowNewVersion m') (task m') = Ok (canShowFailure m') ∧
  (details ← getq (agent m) "details"; getq details "upgrade_task") = Ok (task m').
Proof.
  destruct m as [a l f p n s h t]. unfold refresh. cbn [agent latestBinaryVersion]. intros H.
  apply bind_Ok_inv in H as (inProgress & _ & H).
  apply bind_Ok_inv in H as (newVersion & Hn & H).
  apply bind_Ok_inv in H as (task' & Ht & H).
  apply bind_Ok_inv in H as (failure & Hf & H).
  apply bind_Ok_inv in H as (success & _ & H). by injection H as <-.
Qed.

Lemma refresh_latest m m' : refresh m = Ok m' → latestBinaryVersion m' = latestBinaryVersion m.
Proof. destruct m. unfold refresh. intros H. inv_res. by simplify_eq. Qed.

(** A change of the inputs that the message takes note of. *)
Definition noted (agent' latest : option val) : bool :=
  truthy (default VUndef agent') || truthy (default VUndef latest).

Lemma message_shown m0 m agent' latest :
  ngOnChanges agent' latest m0 = Ok m → noted agent' latest = true →
  canUpgradeAgent (agent m) (latestBinaryVersion m) = Ok (canShowNewVersion m) ∧
  isFailure (canShowNewVersion m) (task m) = Ok (canShowFailure m) ∧
  (details ← getq (agent m) "details"; getq details "upgrade_task") = Ok (task m).
Proof.
  unfold ngOnChanges, noted. cbv zeta. intros Hm Hn. rewrite Hn in Hm.
  pose proof (refresh_latest _ _ Hm) as Hl. apply refresh_shown in Hm as (Ha & H).
  by rewrite Ha, Hl.
Qed.

(** The version without a leading [v] and its build hash. *)
Definition same_release (agent : val) (version : string) : Prop :=
  removeHashFromVersion (prop agent "version") = removeHashFromVersion (VStr version).

Lemma is_str_eq v s : is_str v s = true → v = VStr s.
Proof. destruct v; try done. simpl. by intros ->%String.eqb_eq. Qed.

Lemma getq_path_one v k : getq_path v [k] = getq v k.
Proof. unfold getq_path, getq. destruct (is_nullish v); [done|]. simpl. by destruct (get v k). Qed.

(** What [canUpgradeAgent] says of an object whose task is not running. *)
Lemma canUpgrade_outcome agent version shown :
  canUpgradeAgent agent (VStr version) = Ok shown → is_obj agent → version ≠ "" →
  (truthy shown = true →
    is_str (prop agent "auth_status") "authorized" = true ∧ ¬ same_release agent version) ∧
  (truthy shown = false → is_str (prop agent "auth_status") "authorized" = true →
    same_release agent version ∨
    ∃ t s, (details ← getq agent "details"; getq details "upgrade_task") = Ok t ∧
      getq t "status" = Ok s ∧ upgradeRunning s = true).
Proof.
  intros Hc [o ->] Hv. unfold canUpgradeAgent, same_release in *.
  rewrite (truthy_str version Hv) in Hc. cbn [getq is_nullish get mbind res_bind negb prop] in *.
  destruct (is_str (obj_lookup "auth_status" o) "authorized"); cbn [negb] in Hc; simplify_eq; [|done].
  apply bind_Ok_inv in Hc as (current & -> & Hc). apply bind_Ok_inv in Hc as (latest & -> & Hc).
  destruct (String.eqb_spec current latest) as [->|Hne]; [simplify_eq; by split; [|left]|].
  inv_res. split; [intros _; split; [done|congruence]|]. intros Hr _. right.
  match goal with H : getq_path _ _ = Ok ?t, H' : getq ?t _ = Ok ?s |- _ =>
    exists t, s; rewrite <-getq_path_one end.
  split; [done|]. split; [done|]. simpl in Hr. by destruct (upgradeRunning _).
Qed.

Lemma offered_outdated agent version shown :
  canUpgradeAgent agent (VStr version) = Ok shown → is_obj agent → version ≠ "" →
  truthy shown = true → outdated version agent = true.
Proof.
  intros Hc Ha Hv Ht. destruct (canUpgrade_outcome _ _ _ Hc Ha Hv) as [Hs _].
  destruct (Hs Ht) as [Hauth Hr]. unfold outdated. rewrite Hauth. simpl.
  destruct (is_str (prop agent "version") version) eqn:He; [|done]. destruct Hr.
  unfold same_release. by apply is_str_eq in He as ->.
Qed.

Lemma failed_same_release agent version shown task :
  canUpgradeAgent agent (VStr version) = Ok shown → is_obj agent → version ≠ "" →
  (details ← getq agent "details"; getq details "upgrade_task") = Ok task →
  isFailure shown task = Ok true → outdated version agent = true → same_release agent version.
Proof.
  intros Hc Ha Hv Ht Hf Ho. destruct (canUpgrade_outcome _ _ _ Hc Ha Hv) as [_ Hs].
  unfold isFailure in Hf. destruct (truthy shown) eqn:Hn; [done|].
  apply andb_true_iff in Ho as [Hauth _].
  destruct (Hs eq_refl Hauth) as [|(t & s & Ht' & Hst & Hr)]; [done|].
  rewrite Ht in Ht'. simplify_eq. rewrite Hst in Hf. cbn [mbind res_bind] in Hf.
  unfold upgradeRunning in Hr. apply orb_true_iff in Hr.
  by destruct Hr as [->%is_str_eq| ->%is_str_eq].
Qed.

Section message_theorems.
Context (m0 m : UpgradeMessage) (agent' latest : option val) (version : string).
Context (Hm : ngOnChanges agent' latest m0 = Ok m) (Hn : noted agent' latest = true).
Context (Ha : is_obj (agent m)) (Hl : latestBinaryVersion m = VStr version) (Hv : version ≠ "").

(** When the message offers a new version, its button asks for the upgrade
    of the agent: the test that shows the offer ([canUpgradeAgent]) is finer
    than the one that selects the agents. *)
Theorem offered_upgrade_asks :
  truthy (canShowNewVersion m) = true →
  upgradingAgents (upgrade m).1 version = Ok (VArr [agent m]).
Proof.
  intros Ht. destruct (message_shown m0 m agent' latest Hm Hn) as (Hc & _ & _).
  rewrite Hl in Hc. unfold upgrade. cbn [fst]. rewrite upgradingAgents_outdated by (by constructor).
  do 2 f_equal. cbn [List.filter].
  by rewrite (offered_outdated _ _ _ Hc Ha Hv Ht).
Qed.

(** C30: After any change of its inputs — the agent, the latest version or
    both — that leaves the message with an agent and a known latest version:
    when the message says that an upgrade failed, its button [repeat] does not
    repeat it.  The agent is asked for only when it is authorized and its
    version differs from the latest in a leading [v] or the build hash alone;
    otherwise the list of agents is empty.  (As long as the latest version is
    unknown, the button asks for the agent with no version, see
    [repeat_without_version].) *)
Theorem failed_upgrade_not_repeated :
  canShowFailure m = true →
  ∃ l, upgradingAgents (repeat m).1 version = Ok (VArr l) ∧
    (l = [] ∨ l = [agent m] ∧ outdated version (agent m) = true ∧ same_release (agent m) version).
Proof.
  intros Hf. destruct (message_shown m0 m agent' latest Hm Hn) as (Hc & Hfl & Ht).
  rewrite Hl in Hc. exists (List.filter (outdated version) [agent m]). split.
  - unfold repeat, upgrade. cbn [fst]. apply upgradingAgents_outdated. by constructor.
  - cbn [List.filter]. destruct (outdated version (agent m)) eqn:Ho; [|by left]. right.
    split; [done|]. split; [done|]. rewrite Hf in Hfl.
    by eapply failed_same_release.
Qed.
End message_theorems.

Lemma offered_upgrade_asks_witness :
  let old := obj_lit [("id", vint 2); ("auth_status", VStr "authorized");
    ("version", VStr "v1.0-abc"); ("details", obj_lit [])] in
  match ngOnChanges (Some old) (Some (VStr "v2.0-def")) created with
  | Ok m => upgradingAgents (upgrade m).1 "v2.0-def" = Ok (VArr [old])
  | Throw _ => False
  end.
Proof.
  intros old. destruct (ngOnChanges _ _ created) as [m|] eqn:Hm; [|vm_compute in Hm; discriminate].
  pose proof Hm as Hm'. vm_compute in Hm. injection Hm as Hm. subst m.
  apply (offered_upgrade_asks created _ _ _ "v2.0-def" Hm'); [done|by eexists|done..].
Defined.

(** A blocked agent whose upgrade failed: the message offers to repeat it, and
    the request names no agent. *)
Definition blocked_agent : val :=
  obj_lit [("id", vint 2); ("auth_status", VStr "blocked"); ("version", VStr "v1.0");
    ("details", obj_lit [("upgrade_task", obj_lit [("status", VStr "failed")])])].

Lemma failed_upgrade_not_repeated_witness :
  match ngOnChanges (Some blocked_agent) (Some (VStr "v2.0")) created with
  | Ok m => canShowFailure m = true ∧
      ∃ l, upgradingAgents (repeat m).1 "v2.0" = Ok (VArr l) ∧
        (l = [] ∨ l = [blocked_agent] ∧ outdated "v2.0" blocked_agent = true ∧
          same_release blocked_agent "v2.0")
  | Throw _ => False
  end.
Proof.
  destruct (ngOnChanges _ _ created) as [m|] eqn:Hm; [|vm_compute in Hm; discriminate].
  pose proof Hm as Hm'. vm_compute in Hm. injection Hm as Hm. subst m.
  split; [done|].
  apply (failed_upgrade_not_repeated created _ _ _ "v2.0" Hm'); [done|by eexists|done..].
Defined.

(** The latest version is not known yet: [repeat] asks for the agent, with no
    version. *)
Definition failed_agent : val := spread blocked_agent [("auth_status", VStr "authorized")].

Example repeat_without_version :
  match ngOnChanges (Some failed_agent) None created with
  | Ok m => canShowFailure m = true ∧ repeat m = (VArr [failed_agent], VUndef)
  | Throw _ => False
  end.
Proof. by vm_compute. Qed.

(** What is sent then: a filter without identifiers, which is no filter for the
    server. *)
Theorem repeat_upgrades_any_agent pst :
  match ngOnChanges (Some blocked_agent) (Some (VStr "v2.0")) created with
  | Ok m => asked PoliciesEffects.upgradeAgents' pst (PoliciesFacade.upgradeAgents (repeat m).1 "v2.0")
      = Ok [upgrade_request [] "v2.0"]
  | Throw _ => False
  end.
Proof. reflexivity. Qed.

(** ** Column filters *)

(** Groups, policies: objects with names by language. *)
Definition named (x : val) : Prop :=
  is_obj x ∧ is_obj (prop x "info") ∧ is_obj (x @@ ["info"; "name"]).

Lemma named_path x k : named x → get_path x ["info"; "name"; k] = Ok (x @@ ["info"; "name"; k]).
Proof.
  intros (Hx & Hi & Hn). cbn [get_path]. rewrite get_is_obj by done. cbn [mbind res_bind].
  rewrite get_is_obj by done. cbn [mbind res_bind]. by rewrite get_is_obj by done.
Qed.

Section columns.
Context `{Language}.

Lemma entityItem_named x :
  named x → entityItem x = Ok (columnItem (x @@ ["info"; "name"; to_string lang]) (prop x "id")).
Proof.
  intros Hx. unfold entityItem, getq_path, getq.
  replace (is_nullish x) with false by (by destruct Hx as ([o ->] & _)).
  rewrite named_path, get_is_obj by (done || apply Hx). done.
Qed.

(** The entries of a column filter over groups or policies: for identifiers
    that the server lists, each the text of the identifier of a known item, the
    facades offer one entry per identifier, in the order of the server, with the
    identifier as its value and the name of an item that has it, in the
    language of the page, as its label. *)
Theorem column_entries_found items (ids : list N) :
  Forall named items →
  Forall (λ n, (n <= two53)%N ∧ ∃ x, x ∈ items ∧ prop x "id" = vint (Z.of_N n)) ids →
  ∃ entries,
    (found ← foundById (VArr items) (vstrs (pretty <$> ids)); map_array entityItem found)
      = Ok (VArr entries) ∧
    Forall2 (λ n entry, ∃ x, x ∈ items ∧ prop x "id" = vint (Z.of_N n) ∧
      entry = columnItem (x @@ ["info"; "name"; to_string lang]) (vint (Z.of_N n))) ids entries.
Proof.
  intros Hi Hn.
  destruct (mapM_build
    (λ n : N, m ← parseInt (pretty n); find_by "id" (VNum m) (VArr items))
    (λ n x, x ∈ items ∧ prop x "id" = vint (Z.of_N n)) ids) as (found & Hf & Hall).
  { intros n [Hb Hx]%(proj1 (Forall_forall _ _) Hn). rewrite parseInt_pretty by done.
    apply find_by_id_found; [|done]. by eapply Forall_impl; [exact Hi|intros ? []]. }
  exists ((λ x, columnItem (x @@ ["info"; "name"; to_string lang]) (prop x "id")) <$> found). split.
  - unfold foundById, map_arrayq, vstrs, map_array. cbn [is_nullish as_array mbind res_bind].
    rewrite !mapM_fmap. cbn [to_string]. rewrite Hf. cbn [mbind res_bind as_array].
    rewrite (mapM_pure entityItem
      (λ x, columnItem (x @@ ["info"; "name"; to_string lang]) (prop x "id")) found); [done|].
    intros x Hx. apply entityItem_named.
    destruct (Forall2_elem_r _ _ _ _ Hall Hx) as (n & _ & Hin & _).
    by apply (proj1 (Forall_forall _ _) Hi).
  - apply Forall2_fmap_r. eapply Forall2_impl; [exact Hall|]. intros n x [Hin Hid].
    exists x. by rewrite Hid.
Qed.
End columns.

(** ** Taken names *)

Definition name_in (exclude : list string) (item : val) : bool :=
  existsb (λ e, is_str (item @@ ["info"; "name"; "ru"]) e || is_str (item @@ ["info"; "name"; "en"]) e)
    exclude.

Lemma isForeign_named exclude x : named x → isForeign exclude x = Ok (negb (name_in exclude x)).
Proof.
  intros Hx. unfold isForeign. rewrite (someM_pure _ (λ e,
    is_str (x @@ ["info"; "name"; "ru"]) e || is_str (x @@ ["info"; "name"; "en"]) e)); [done|].
  intros e _. by rewrite !named_path by done.
Qed.

Lemma filter_nonempty {A} (p : A → bool) l :
  bool_decide (0 < length (List.filter p l)) = existsb p l.
Proof.
  induction l as [|x l IH]; [done|]. cbn [List.filter existsb].
  destruct (p x); cbn [length orb]; [|done]. by rewrite bool_decide_eq_true_2 by lia.
Qed.

(** A name is taken exactly when the answer has an item with that name whose
    names, in both languages, are not among those left out; when the request
    fails, or the answer has no items, it is not taken. *)
Theorem name_taken_iff_foreign key exclude data items :
  Forall named items →
  (getq data key = Ok (VArr items) →
   isExisted key exclude (Answered [obj_lit [("data", data)]]) =
     Ok (existsb (λ x, negb (name_in exclude x)) items)) ∧
  (getq data key = Ok VUndef →
   isExisted key exclude (Answered [obj_lit [("data", data)]]) = Ok false) ∧
  ∀ error, isExisted key exclude (Failed error) = Ok false.
Proof.
  intros Hn. unfold isExisted. change (data_atq [obj_lit [("data", data)]] 0 key) with (getq data key).
  split_and!; [|by intros ->|done]. intros ->. cbn [mbind res_bind iter].
  rewrite (filterM_pure _ (λ x, negb (name_in exclude x))).
  - cbn. by rewrite filter_nonempty.
  - intros x Hx. apply isForeign_named. by apply (proj1 (Forall_forall _ _) Hn).
Qed.

Definition some_groups : list val :=
  [obj_lit [("id", vint 3); ("info", obj_lit [("name", obj_lit [("ru", VStr "a"); ("en", VStr "b")])])];
   obj_lit [("id", vint 5); ("info", obj_lit [("name", obj_lit [("ru", VStr "c"); ("en", VStr "d")])])]].

Lemma some_groups_named : Forall named some_groups.
Proof. repeat constructor; by eexists. Qed.

Lemma column_entries_found_witness :
  let H : Language := {| lang := VStr "en" |} in
  ∃ entries,
    (found ← foundById (VArr some_groups) (vstrs (pretty <$> [5%N; 3%N])); map_array entityItem found)
      = Ok (VArr entries) ∧ length entries = 2.
Proof.
  intros H. destruct (column_entries_found some_groups [5%N; 3%N]) as (entries & He & Hf).
  - apply some_groups_named.
  - constructor; [|constructor; [|constructor]]; (split; [done|]).
    + eexists. split; [apply list_elem_of_further, list_elem_of_here|done].
    + eexists. split; [apply list_elem_of_here|done].
  - exists entries. split; [exact He|]. by rewrite <-(Forall2_length _ _ _ Hf).
Defined.

Lemma name_taken_iff_foreign_witness :
  isExisted "groups" ["b"] (Answered [obj_lit [("data", obj_lit [("groups", VArr some_groups)])]])
  = Ok true.
Proof.
  apply (name_taken_iff_foreign "groups" ["b"] (obj_lit [("groups", VArr some_groups)]) some_groups);
    [apply some_groups_named|reflexivity].
Defined.

(** The list of policies names its modules by those of the policy that is
    opened ([policyModules$]); without one, each entry of the filter has an
    empty label and no value, though the module is known to the client. *)
Theorem policies_filter_modules_unnamed `{Language} `{Translation} st names groups items :
  PoliciesStore.modulesOfPolicy st = VArr [] →
  PoliciesStore.filterItemsModuleNames st = vstrs names →
  PoliciesStore.filterItemsGroupIds st = VArr [] →
  PoliciesStore.filterItemsTags st = VArr [] →
  PoliciesFacade.gridFilterItems st groups = Ok items →
  PoliciesFacade.gridColumnFilterItems items =
    Ok (obj_lit [("groups", VArr []);
      ("modules", VArr (const (columnItem (VStr "") VUndef) <$> names)); ("tags", VArr [])]).
Proof.
  intros Hm Hn Hg Ht. unfold PoliciesFacade.gridFilterItems. rewrite Hm, Hn, Hg, Ht.
  unfold foundByName, map_arrayq, vstrs, map_array, or_empty. cbn [is_nullish as_array mbind res_bind mapM].
  rewrite mapM_fmap, (mapM_pure _ (λ _, VUndef)) by done. cbn [mbind res_bind]. intros Hi.
  assert (items = obj_lit [("groups", VArr []); ("modules", VArr ((λ _, VUndef) <$> names));
    ("tags", VArr [])]) as -> by (by injection Hi as <-).
  assert (∀ a b c, let o := obj_lit [("groups", a); ("modules", b); ("tags", c)] in
    get o "groups" = Ok a ∧ get o "modules" = Ok b ∧ get o "tags" = Ok c) as Hget by done.
  unfold PoliciesFacade.gridColumnFilterItems.
  destruct (Hget (VArr []) (VArr ((λ _, VUndef) <$> names)) (VArr [])) as (-> & -> & ->).
  cbn [mbind res_bind map_array as_array mapM].
  rewrite mapM_fmap, (mapM_pure _ (λ _, columnItem (VStr "") VUndef)) by done. done.
Qed.
