(* ===== verification/Vxapi.v ===== *)
(** * The channel between a module's page and its agents

    [libs/features/modules-interactivity/src/lib/utils/proto.js]: the class
    [VXAPI] keeps a web socket to the server, authenticates on it, sends the
    messages of the page as packets and hands incoming packets to the page;
    [PublicAPI] is what the page sees of it.

    The machine of this file is the object together with what it has started
    and not heard of yet: sockets, timers and file readers.  An [event] is a
    call of the page or a callback of the browser; events come in any order
    in which they are [enabled].  A callback that throws keeps what it has
    done before. *)

From Stdlib Require Export Strings.Byte.
From S2P Require Import Prelude.

(** ** Packets ([proto/protocol.proto], [proto/agent.proto])

    A field of type [bytes] takes an array of bytes or a string. *)
Inductive payload :=
| Bytes (b : list byte)
| Chars (s : string).

Inductive contentType := DATA | FILE | TEXT | MSG | ACT.
Inductive msgType := DEBUG | INFO | WARNING | ERROR.

#[export] Instance contentType_eq_dec : EqDecision contentType.
Proof. solve_decision. Defined.

Record part := { number : Z; total : Z }.

Record content := {
  type : contentType;
  data : payload;
  name : option string;
  part_ : option part; (* part *)
  uniq : option string;
  msg_type : option msgType
}.

Record packet := {
  module : string;
  source : string;
  destination : string;
  timestamp : Z;
  content_ : content (* content *)
}.

Record authenticationRequest := { req_timestamp : Z; req_atoken : string; aversion : string }.

Record authenticationResponse := {
  atoken : string;
  stoken : string;
  sversion : string;
  status : string
}.

(** The library of protocol buffers: [verify] gives the reason why a message
    is refused, [decode] throws on bytes that are not a message. *)
Class Protobuf := {
  verifyPart : part → option string;
  createPart : part → part;
  verifyContent : content → option string;
  createContent : content → content;
  verifyPacket : packet → option string;
  encodePacket : packet → list byte;
  encodeRequest : authenticationRequest → list byte;
  decodePacket : list byte → res packet;
  decodeResponse : list byte → res authenticationResponse
}.

(** ** The state

    What is written to a socket is one of three buffers; [buffer] gives its
    bytes ([create] and [encode] of the library). *)
Inductive frame :=
| Ping
| Request (request : authenticationRequest)
| Packet (packet : packet).

Definition buffer `{Protobuf} (f : frame) : list byte :=
  match f with
  | Ping => ["P"; "I"; "N"; "G"]%byte
  | Request r => encodeRequest r
  | Packet p => encodePacket p
  end.

(** The functions of the page are numbered. *)
Record handlers := {
  h_text : option nat;
  h_data : option nat;
  h_file : option nat;
  h_msg : option nat;
  h_act : option nat
}.

(** Functions passed to [setTimeout]. *)
Inductive timer :=
| ChangedState
| SendPing (socket : nat)
| Connect.

(** File readers that have not loaded yet, by their [onload]. *)
Inductive reader :=
| ReadResponse (blob : list byte)
| ReadPacket (blob : list byte).

(** What can be observed: data a socket takes or, when it is closing or
    closed, drops without a word; calls of the page's functions; the promise
    of [connect]; refused packets and accepted responses on the console. *)
Inductive output :=
| Transmitted (socket : nat) (f : frame)
| Dropped (socket : nat) (f : frame)
| Called (handler : nat) (p : packet)
| Resolved (socket : nat)
| Rejected (socket : nat)
| Refused (p : packet)
| Authorized (r : authenticationResponse).

Record vxapi := {
  _module : string;
  _srcToken : string;
  _dstToken : string;
  _queue : list packet;
  _socket : option nat;
  _state : Z;
  _userHandlers : option handlers;
  sockets : list Z; (* the [readyState] of every socket *)
  timers : list timer;
  readers : list reader;
  log : list output
}.

#[export] Instance eta_vxapi : Eta vxapi := ltac:(eta_of vxapi).

(** The constructor; the address of the server plays no part. *)
Definition newVXAPI (moduleName : string) : vxapi :=
  {| _module := moduleName; _srcToken := ""; _dstToken := ""; _queue := []; _socket := None;
     _state := 0; _userHandlers := None; sockets := []; timers := []; readers := []; log := [] |}.

(** Statements that change the object and may throw. *)
Definition M (A : Type) := vxapi → vxapi * res A.

#[export] Instance M_ret : MRet M := λ A a s, (s, Ok a).
#[export] Instance M_bind : MBind M := λ A B f m s,
  match m s with
  | (s, Ok a) => f a s
  | (s, Throw e) => (s, Throw e)
  end.

Definition gets {A} (f : vxapi → A) : M A := λ s, (s, Ok (f s)).
Definition modify (f : vxapi → vxapi) : M unit := λ s, (f s, Ok tt).
Definition lift {A} (r : res A) : M A := λ s, (s, r).

Definition output_ (o : output) : M unit := modify (λ s, { s with log ::= (λ l, l ++ [o]) }).
Definition setTimeout (t : timer) : M unit := modify (λ s, { s with timers ::= (λ l, l ++ [t]) }).
Definition setState (n : Z) : M unit := modify (λ s, { s with _state := n }).

(** ** Sockets of the browser

    [readyState]: 0 connecting, 1 open, 2 closing, 3 closed. *)
Definition readyState (s : vxapi) (id : nat) : Z := default 3%Z (sockets s !! id).

Definition setReadyState (id : nat) (n : Z) : M unit :=
  modify (λ s, { s with sockets ::= <[id := n]> }).

Definition socketSend (id : nat) (f : frame) : M unit :=
  ready ← gets (λ s, readyState s id);
  if (ready =? 0)%Z then lift (Throw (Error (Plain_error "InvalidStateError")))
  else if (ready =? 1)%Z then output_ (Transmitted id f)
  else output_ (Dropped id f).

Definition socketClose (id : nat) : M unit :=
  ready ← gets (λ s, readyState s id);
  if (ready <? 2)%Z then setReadyState id 2 else mret tt.

(** [this._socket.send(buffer)] *)
Definition this_send (f : frame) : M unit :=
  socket ← gets _socket;
  id ← lift (of_option TypeError socket);
  socketSend id f.

Section api.
Context `{Protobuf}.

(** [Math.round(new Date().getTime() / 1000)] *)
Definition seconds (ms : Z) : Z := (ms + 500) / 1000.

(** ** The queue *)

(** [self._queue.pop()] *)
Definition pop : M packet :=
  queue ← gets _queue;
  match last queue with
  | Some p => modify (λ s, { s with _queue ::= @removelast packet }) ≫= λ _, mret p
  | None => lift (Throw TypeError)
  end.

Definition addressed (s : vxapi) (p : packet) : packet :=
  {| module := module p; source := _srcToken s; destination := _dstToken s;
     timestamp := timestamp p; content_ := content_ p |}.

Definition sendQueued : M unit :=
  p ← pop;
  p ← gets (λ s, addressed s p);
  match verifyPacket p with
  | Some err => output_ (Refused p)
  | None => this_send (Packet p)
  end.

(** [for (let i = 0; i < self._queue.length; i++)]; every round shortens the
    queue, so the fuel is its length. *)
Fixpoint sendQueue (fuel i : nat) : M unit :=
  match fuel with
  | O => mret tt
  | S fuel =>
      queue ← gets _queue;
      if i <? length queue then sendQueued ≫= λ _, sendQueue fuel (S i) else mret tt
  end.

Definition changedState : M unit :=
  state ← gets _state;
  queue ← gets _queue;
  if (state =? 2)%Z && (0 <? length queue)
  then sendQueue (length queue) 0 ≫= λ _, setTimeout ChangedState
  else mret tt.

(** ** Connecting *)

(** The socket of a call of [connect] has the next free number. *)
Definition connect : M unit := modify (λ s, { s with sockets ::= (λ l, l ++ [0%Z]) }).

Definition _handshake (ms : Z) : M unit :=
  token ← gets _srcToken;
  setState 1 ≫= λ _,
  this_send (Request {| req_timestamp := seconds ms; req_atoken := token; aversion := "v1.0.0" |}).

Definition onopen (id : nat) (ms : Z) : M unit :=
  setReadyState id 1 ≫= λ _,
  modify (λ s, { s with _socket := Some id }) ≫= λ _,
  _handshake ms ≫= λ _,
  setTimeout (SendPing id) ≫= λ _,
  output_ (Resolved id).

Definition sendPing (id : nat) : M unit :=
  ready ← gets (λ s, readyState s id);
  state ← gets _state;
  if (ready <? 2)%Z
  then (if (state =? 2)%Z then socketSend id Ping else mret tt) ≫= λ _, setTimeout (SendPing id)
  else mret tt.

Definition onclose (id : nat) (wasClean : bool) : M unit :=
  setReadyState id 3 ≫= λ _,
  state ← gets _state;
  if wasClean || (state =? 3)%Z then setState 4 else setTimeout Connect.

Definition onerror (id : nat) : M unit := output_ (Rejected id).

Definition close : M unit :=
  socket ← gets _socket;
  match socket with
  | Some id => setState 3 ≫= λ _, socketClose id
  | None => mret tt
  end.

(** ** Messages of the page *)

Inductive message :=
| MData (data : string)
| MText (data : payload)
| MFile (data : payload) (name uniq : string) (number total : Z)
| MMsg (data mtype : string)
| MAction (data name : string).

(** [new TextEncoder('utf-8').encode]: strings are kept as their bytes. *)
Definition utf8 (s : string) : payload := Bytes (String.list_byte_of_string s).

Definition checked (err : option string) : res unit :=
  match err with Some err => Throw (Error (Plain_error err)) | None => Ok tt end.

Definition contentOf (m : message) : res content :=
  match m with
  | MData d =>
      Ok {| type := DATA; data := utf8 d; name := None; part_ := None; uniq := None;
            msg_type := None |}
  | MText d =>
      Ok {| type := TEXT; data := d; name := None; part_ := None; uniq := None;
            msg_type := None |}
  | MFile d n u number total =>
      let p := {| number := number; total := total |} in
      _ ← checked (verifyPart p);
      Ok {| type := FILE; data := d; name := Some n; part_ := Some (createPart p);
            uniq := Some u; msg_type := None |}
  | MMsg d mtype =>
      mtype ← (if decide (mtype = "error") then Ok ERROR
               else if decide (mtype = "warn") then Ok WARNING
               else if decide (mtype = "info") then Ok INFO
               else if decide (mtype = "debug") then Ok DEBUG
               else Throw (Error (Plain_error "unknown message type")));
      Ok {| type := MSG; data := utf8 d; name := None; part_ := None; uniq := None;
            msg_type := Some mtype |}
  | MAction d n =>
      Ok {| type := ACT; data := utf8 d; name := Some n; part_ := None; uniq := None;
            msg_type := None |}
  end.

(** The packet [send] makes of a message. *)
Definition packetOf (s : vxapi) (ms : Z) (m : message) : res packet :=
  c ← contentOf m;
  _ ← checked (verifyContent c);
  let p := {| module := _module s; source := _srcToken s; destination := _dstToken s;
              timestamp := seconds ms; content_ := createContent c |} in
  _ ← checked (verifyPacket p);
  Ok p.

Definition send (ms : Z) (m : message) : M unit :=
  r ← gets (λ s, packetOf s ms m);
  p ← lift r;
  state ← gets _state;
  if negb (state =? 2)%Z then
    modify (λ s, { s with _queue ::= (λ q, q ++ [p]) }) ≫= λ _,
    if (state =? 4)%Z then setState 0 ≫= λ _, connect else mret tt
  else this_send (Packet p).

(** ** [PublicAPI] *)

Definition no_handlers : handlers :=
  {| h_text := None; h_data := None; h_file := None; h_msg := None; h_act := None |}.

#[export] Instance eta_handlers : Eta handlers := ltac:(eta_of handlers).

Definition subscribe (f : nat) (type : string) : M unit :=
  let set h := modify (λ s, { s with _userHandlers := Some h }) in
  if decide (type = "*") then
    set {| h_text := Some f; h_data := Some f; h_file := Some f; h_msg := Some f;
           h_act := Some f |}
  else if decide (type = "data") then set { no_handlers with h_data := Some f }
  else if decide (type = "text") then set { no_handlers with h_text := Some f }
  else if decide (type = "file") then set { no_handlers with h_file := Some f }
  else if decide (type = "msg") then set { no_handlers with h_msg := Some f }
  else if decide (type = "action") then set { no_handlers with h_act := Some f }
  else mret tt.

Definition getState (s : vxapi) : Z := _state s.
Definition sendData (ms : Z) (data : string) : M unit := send ms (MData data).
Definition sendText (ms : Z) (text : payload) : M unit := send ms (MText text).
Definition sendFile (ms : Z) (data : payload) (name uniq : string) (number total : Z) : M unit :=
  send ms (MFile data name uniq number total).
Definition sendMsg (ms : Z) (data mtype : string) : M unit := send ms (MMsg data mtype).
Definition sendAction (ms : Z) (data name : string) : M unit := send ms (MAction data name).

(** ** Messages of the server *)

(** The function for a type of packets. *)
Definition handlerOf (h : handlers) (t : contentType) : option nat :=
  match t with
  | DATA => h_data h
  | TEXT => h_text h
  | FILE => h_file h
  | MSG => h_msg h
  | ACT => h_act h
  end.

Definition _msgHandler (blob : list byte) : M unit :=
  state ← gets _state;
  if (state =? 1)%Z then
    modify (λ s, { s with readers ::= (λ l, l ++ [ReadResponse blob]) })
  else if (state =? 2)%Z then
    modify (λ s, { s with readers ::= (λ l, l ++ [ReadPacket blob]) })
  else mret tt.

(** [emit] calls [changedState] at once. *)
Definition responseLoaded (blob : list byte) : M unit :=
  r ← lift (decodeResponse blob);
  if decide (status r ≠ "authorized") then setState 4 ≫= λ _, changedState
  else
    modify (λ s, { s with _srcToken := atoken r; _dstToken := stoken r }) ≫= λ _,
    output_ (Authorized r) ≫= λ _,
    setState 2 ≫= λ _,
    changedState.

Definition packetLoaded (blob : list byte) : M unit :=
  p ← lift (decodePacket blob);
  h ← gets _userHandlers;
  match h ≫= λ h, handlerOf h (type (content_ p)) with
  | Some f => output_ (Called f p)
  | None => mret tt
  end.

Definition loaded (r : reader) : M unit :=
  match r with
  | ReadResponse blob => responseLoaded blob
  | ReadPacket blob => packetLoaded blob
  end.

Definition loadFailed (r : reader) : M unit :=
  match r with
  | ReadResponse _ => setState 0
  | ReadPacket _ => mret tt
  end.

(** ** Events *)

Inductive event :=
| CallConnect
| CallClose
| CallSend (ms : Z) (m : message)
| CallSubscribe (f : nat) (type : string)
| Open (socket : nat) (ms : Z)
| Closed (socket : nat) (wasClean : bool)
| Failed (socket : nat)
| Received (socket : nat) (blob : list byte)
| Loaded (reader : nat)
| LoadFailed (reader : nat)
| Fired (timer : nat).

Definition fire (t : timer) : M unit :=
  match t with
  | ChangedState => changedState
  | SendPing id => sendPing id
  | Connect => connect
  end.

(** A socket opens once and closes once, and receives only in between. *)
Definition enabled (s : vxapi) (e : event) : bool :=
  match e with
  | CallConnect | CallClose | CallSend _ _ | CallSubscribe _ _ => true
  | Open id _ => bool_decide (sockets s !! id = Some 0%Z)
  | Closed id _ | Failed id => bool_decide (is_Some (sockets s !! id)) && (readyState s id <? 3)%Z
  | Received id _ => (1 <=? readyState s id)%Z && (readyState s id <? 3)%Z
  | Loaded i | LoadFailed i => i <? length (readers s)
  | Fired i => i <? length (timers s)
  end.

Definition step (e : event) : M unit :=
  match e with
  | CallConnect => connect
  | CallClose => close
  | CallSend ms m => send ms m
  | CallSubscribe f type => subscribe f type
  | Open id ms => onopen id ms
  | Closed id wasClean => onclose id wasClean
  | Failed id => onerror id
  | Received _ blob => _msgHandler blob
  | Loaded i =>
      r ← gets (λ s, readers s !! i);
      r ← lift (of_option Unsupported r);
      modify (λ s, { s with readers ::= delete i }) ≫= λ _, loaded r
  | LoadFailed i =>
      r ← gets (λ s, readers s !! i);
      r ← lift (of_option Unsupported r);
      modify (λ s, { s with readers ::= delete i }) ≫= λ _, loadFailed r
  | Fired i =>
      t ← gets (λ s, timers s !! i);
      t ← lift (of_option Unsupported t);
      modify (λ s, { s with timers ::= delete i }) ≫= λ _, fire t
  end.
End api.
