(* ===== verification/VxapiTheorems.v ===== *)
(** * What holds of the channel of a module's page

    First a small program logic for the statements of [Vxapi], the invariant of
    the object and what sending the queue does; then the properties: messages
    are kept until they are written, packets go out only under the tokens the
    server has given, nothing throws but a refusal; in which order the queue is
    sent, and where messages are lost. *)

From stdpp Require Import relations.
From S2P Require Import Prelude Vxapi.

(** ** What holds of the channel in every session

    A small program logic for the statements of [Vxapi], the invariant of the
    object, and what sending the queue does. *)

(** ** Statements

    [m] started in [P] ends in [Q], or throws in [E]. *)
Definition spec {A} (P : vxapi → Prop) (m : M A) (Q : A → vxapi → Prop) (E : exn → vxapi → Prop) :=
  ∀ s, P s → match m s with
             | (s', Ok a) => Q a s'
             | (s', Throw e) => E e s'
             end.

(** [m] keeps [P], whether it ends or throws. *)
Definition keeps {A} (P : vxapi → Prop) (m : M A) : Prop := spec P m (λ _, P) (λ _, P).

Lemma keeps_ret {A} (a : A) P : keeps P (mret a).
Proof. by intros s Hs. Qed.

Lemma keeps_lift {A} (r : res A) P : keeps P (lift r).
Proof. intros s Hs. unfold lift. by destruct r. Qed.

Lemma keeps_gets {A} (f : vxapi → A) P : keeps P (gets f).
Proof. by intros s Hs. Qed.

Lemma keeps_modify f (P : vxapi → Prop) : (∀ s, P s → P (f s)) → keeps P (modify f).
Proof. by intros Hf s Hs; apply Hf. Qed.

Lemma keeps_bind {A B} P (m : M A) (f : A → M B) :
  keeps P m → (∀ a, keeps P (f a)) → keeps P (m ≫= f).
Proof.
  intros Hm Hf s Hs. specialize (Hm s Hs). unfold mbind, M_bind.
  destruct (m s) as [s' [a|e]]; [by apply Hf | done].
Qed.

Lemma keeps_run {A} P (m : M A) s : keeps P m → P s → P (fst (m s)).
Proof. intros Hm Hs. specialize (Hm s Hs). by destruct (m s) as [? []]. Qed.

(** A sequence of statements keeps [P] when each does. *)
Ltac keeps_steps :=
  repeat first
    [ apply keeps_ret | apply keeps_lift | apply keeps_gets
    | apply keeps_bind; [|intros ?]
    | progress case_match ];
  try (apply keeps_modify).

(** ** The invariant *)

(** The server has let the page in with these tokens. *)
Definition granted (l : list output) (src dst : string) : Prop :=
  ∃ r, Authorized r ∈ l ∧ status r = "authorized" ∧ atoken r = src ∧ stoken r = dst.

(** The packet an output tells of. *)
Definition packetOut (o : output) : option packet :=
  match o with
  | Transmitted _ (Packet p) | Dropped _ (Packet p) | Refused p => Some p
  | _ => None
  end.

(** A socket that has been open. *)
Definition opened (s : vxapi) (id : nat) : Prop := ∃ r, sockets s !! id = Some r ∧ (1 ≤ r)%Z.

Record wf (s : vxapi) : Prop := {
  wf_socket : ∀ id, _socket s = Some id → opened s id;
  wf_state : (1 ≤ _state s ≤ 3)%Z → is_Some (_socket s);
  wf_readers : readers s ≠ [] → is_Some (_socket s);
  wf_timers : ∀ id, SendPing id ∈ timers s → opened s id;
  wf_range : (0 ≤ _state s ≤ 4)%Z;
  wf_tokens : _state s = 2%Z → granted (log s) (_srcToken s) (_dstToken s);
  wf_packets : ∀ o p, o ∈ log s → packetOut o = Some p →
    granted (log s) (source p) (destination p)
}.

Lemma granted_app l1 l2 src dst : granted l1 src dst → granted (l1 ++ l2) src dst.
Proof. intros (r & Hr & ?). exists r. rewrite elem_of_app. naive_solver. Qed.

Lemma granted_here l r :
  status r = "authorized" → granted (l ++ [Authorized r]) (atoken r) (stoken r).
Proof. intros Hs. exists r. rewrite elem_of_app, list_elem_of_singleton. naive_solver. Qed.

Lemma opened_ready s id : opened s id → (1 ≤ readyState s id)%Z.
Proof. intros (r & Hr & ?). unfold readyState. by rewrite Hr. Qed.

Lemma opened_insert s l id i r :
  opened s id → sockets s = l → (1 ≤ r)%Z → ∃ r', <[i := r]> l !! id = Some r' ∧ (1 ≤ r')%Z.
Proof.
  intros (r0 & Hr & ?) <- ?. destruct (decide (i = id)) as [->|Hne].
  - exists r. split; [|done]. apply list_lookup_insert_eq. by eapply lookup_lt_Some.
  - exists r0. by rewrite list_lookup_insert_ne.
Qed.

Lemma opened_app s l id r :
  opened s id → sockets s = l → ∃ r', (l ++ r) !! id = Some r' ∧ (1 ≤ r')%Z.
Proof. intros (r0 & Hr & ?) <-. exists r0. by rewrite (lookup_app_l_Some _ _ _ _ Hr). Qed.

(** An output that is no packet, or one under the tokens of the object. *)
Definition fitting (s : vxapi) (o : output) : Prop :=
  ∀ p, packetOut o = Some p → granted (log s) (source p) (destination p).

Lemma wf_output s o : wf s → fitting s o → wf { s with log ::= (λ l, l ++ [o]) }.
Proof.
  intros [H1 H2 H3 H4 H5 H6 H7] Ho. destruct s; cbn in *. constructor; cbn; try done.
  - intros Hs. by apply granted_app, H6.
  - intros o' p. rewrite elem_of_app, list_elem_of_singleton. intros [Hin| ->] Hp; apply granted_app.
    + by eapply H7.
    + by apply Ho.
Qed.

Lemma wf_setTimeout s t :
  wf s → (∀ id, t = SendPing id → opened s id) → wf { s with timers ::= (λ l, l ++ [t]) }.
Proof.
  intros [H1 H2 H3 H4 H5 H6 H7] Ht. destruct s; cbn in *. constructor; cbn; try done.
  intros id. rewrite elem_of_app, list_elem_of_singleton. intros [?|Hid]; [by apply H4|].
  by apply Ht.
Qed.

Lemma wf_queue s q : wf s → wf { s with _queue := q }.
Proof. intros [H1 H2 H3 H4 H5 H6 H7]. by destruct s; constructor. Qed.

(** The states that do not claim a granted session. *)
Lemma wf_setState s n :
  wf s → (0 ≤ n ≤ 4)%Z → n ≠ 2%Z → ((1 ≤ n ≤ 3)%Z → is_Some (_socket s)) →
  wf { s with _state := n }.
Proof.
  intros [H1 H2 H3 H4 H5 H6 H7] Hn Hn2 Hs. by destruct s; constructor.
Qed.

Lemma wf_new moduleName : wf (newVXAPI moduleName).
Proof. constructor; cbn; try done; [lia | by intros ? ?%not_elem_of_nil | by intros ? ? ?%not_elem_of_nil]. Qed.

#[export] Hint Resolve wf_output wf_setTimeout wf_queue wf_setState opened_ready : soldr.

(** ** Sending *)

(** What becomes of a frame that is written to a socket that has been open. *)
Definition written (s : vxapi) (id : nat) (f : frame) : output :=
  if (readyState s id =? 1)%Z then Transmitted id f else Dropped id f.

Lemma socketSend_eq s id f :
  opened s id → socketSend id f s = ({ s with log ::= (λ l, l ++ [written s id f]) }, Ok ()).
Proof.
  intros Ho%opened_ready. unfold socketSend, written, mbind, M_bind, gets.
  destruct (Z.eqb_spec (readyState s id) 0); [lia|]. by destruct (_ =? 1)%Z.
Qed.

Lemma this_send_eq s id f :
  _socket s = Some id → opened s id →
  this_send f s = ({ s with log ::= (λ l, l ++ [written s id f]) }, Ok ()).
Proof.
  intros Hs Ho. unfold this_send, mbind, M_bind, gets, lift. rewrite Hs. cbn [of_option].
  by apply socketSend_eq.
Qed.

Section sending.
Context `{Protobuf}.

(** What becomes of a packet of the queue. *)
Definition flushedAs (s : vxapi) (id : nat) (p : packet) : output :=
  let p := addressed s p in
  match verifyPacket p with
  | Some _ => Refused p
  | None => written s id (Packet p)
  end.

Lemma sendQueued_eq s id q p :
  _socket s = Some id → opened s id → _queue s = q ++ [p] →
  sendQueued s =
    ({ s with _queue := q; log ::= (λ l, l ++ [flushedAs s id p]) }, Ok ()).
Proof.
  intros Hs Ho Hq. destruct s as [mo src dst qu so st us ss ts rs lg]; cbn in Hs, Hq; subst so qu.
  unfold sendQueued, pop, mbind, M_bind, mret, M_ret, gets, modify. cbn -[this_send last removelast].
  rewrite last_snoc. cbn -[this_send removelast]. rewrite removelast_last. unfold flushedAs, written, readyState.
  cbn -[this_send]. destruct (verifyPacket _); [done|]. by rewrite (this_send_eq _ id).
Qed.

(** The loop takes packets from the end until as many rounds have passed as
    packets are left: [i] rounds have passed. *)
Lemma sendQueue_eq s id fuel i q1 q2 :
  _socket s = Some id → opened s id → _queue s = q1 ++ q2 →
  (i < length (q1 ++ q2) →
    2 * length q1 ≤ length (q1 ++ q2) + i < 2 * length q1 + 2) →
  (length (q1 ++ q2) ≤ i → q2 = []) → length (q1 ++ q2) ≤ i + fuel →
  sendQueue fuel i s =
    ({ s with _queue := q1; log ::= (λ l, l ++ (flushedAs s id <$> reverse q2)) }, Ok ()).
Proof.
  intros Hs Ho. revert s i q2 Hs Ho. induction fuel as [|fuel IH]; intros s i q2 Hs Ho Hq H1 H2 Hf.
  - rewrite H2 in Hq |- * by lia. destruct s; cbn in *. rewrite app_nil_r in Hq. subst.
    by rewrite app_nil_r.
  - cbn [sendQueue]. unfold mbind at 1, M_bind at 1, gets. rewrite Hq.
    destruct (Nat.ltb_spec i (length (q1 ++ q2))) as [Hlt|Hge].
    + destruct q2 as [|p q2 _] using rev_ind; [rewrite app_nil_r in *; lia|].
      rewrite app_assoc in Hq. unfold mbind, M_bind. rewrite (sendQueued_eq s id (q1 ++ q2) p) by done.
      rewrite !length_app in *. cbn [length] in *.
      rewrite (IH _ (S i) q2); rewrite ?length_app; try lia; try (by destruct s).
      * rewrite reverse_snoc, fmap_cons. destruct s; cbn. by rewrite <-app_assoc.
      * intros ?. apply nil_length_inv. lia.
    + rewrite H2 in Hq |- * by done. destruct s; cbn in *. rewrite app_nil_r in Hq. subst.
      by rewrite app_nil_r.
Qed.

(** One call of [changedState] on a connected object. *)
Definition flushed (s : vxapi) (id : nat) : vxapi :=
  let n := length (_queue s) / 2 in
  if decide (_queue s = []) then s
  else { s with _queue := take n (_queue s);
                log ::= (λ l, l ++ (flushedAs s id <$> reverse (drop n (_queue s))));
                timers ::= (λ l, l ++ [ChangedState]) }.

Lemma changedState_eq s id :
  _state s = 2%Z → _socket s = Some id → opened s id → changedState s = (flushed s id, Ok ()).
Proof.
  intros H2 Hs Ho. unfold changedState, flushed, mbind, M_bind, gets. rewrite H2. cbn [Z.eqb Pos.eqb andb].
  destruct (decide (_queue s = [])) as [Hq|Hq]; [by rewrite Hq|].
  assert (0 < length (_queue s)) as Hl by (destruct (_queue s); [done|cbn; lia]).
  rewrite (proj2 (Nat.ltb_lt _ _)) by done.
  pose proof (Nat.div_mod (length (_queue s)) 2 ltac:(lia)) as Hd.
  pose proof (Nat.mod_upper_bound (length (_queue s)) 2 ltac:(lia)).
  rewrite (sendQueue_eq s id _ 0 (take (length (_queue s) / 2) (_queue s))
    (drop (length (_queue s) / 2) (_queue s))); rewrite ?take_drop, ?length_take; try done; lia.
Qed.

Lemma changedState_other s : _state s ≠ 2%Z → changedState s = (s, Ok ()).
Proof.
  intros H2. unfold changedState, mbind, M_bind, gets. by rewrite (proj2 (Z.eqb_neq _ _)).
Qed.

(** The packet a message becomes is under the tokens of the object. *)
Lemma packetOf_tokens s ms m p :
  packetOf s ms m = Ok p → source p = _srcToken s ∧ destination p = _dstToken s.
Proof. unfold packetOf. intros Hp. inv_res. done. Qed.

Definition enqueued (s : vxapi) (p : packet) : vxapi :=
  if decide (_state s = 4)%Z
  then { s with _queue ::= (λ q, q ++ [p]); _state := 0%Z; sockets ::= (λ l, l ++ [0%Z]) }
  else { s with _queue ::= (λ q, q ++ [p]) }.

Lemma send_eq s ms m p :
  packetOf s ms m = Ok p → _state s ≠ 2%Z → send ms m s = (enqueued s p, Ok ()).
Proof.
  intros Hp Hs. unfold send, enqueued, mbind, M_bind, gets, lift. rewrite Hp.
  rewrite (proj2 (Z.eqb_neq _ _)) by done. cbn [negb modify]. 
  destruct (decide (_state s = 4%Z)) as [He|He]; [rewrite He | rewrite (proj2 (Z.eqb_neq _ _)) by done];
    by destruct s.
Qed.

Lemma send_connected s id ms m p :
  packetOf s ms m = Ok p → _state s = 2%Z → _socket s = Some id → opened s id →
  send ms m s = ({ s with log ::= (λ l, l ++ [written s id (Packet p)]) }, Ok ()).
Proof.
  intros Hp H2 Hs Ho. unfold send, mbind, M_bind, gets, lift. rewrite Hp, H2. cbn [negb Z.eqb Pos.eqb].
  by apply this_send_eq.
Qed.

Lemma send_refused s ms m e : packetOf s ms m = Throw e → send ms m s = (s, Throw e).
Proof. intros Hp. unfold send, mbind, M_bind, gets, lift. by rewrite Hp. Qed.

(** ** Every event keeps the invariant *)

Lemma wf_outputs s l : wf s → Forall (fitting s) l → wf { s with log ::= (λ l', l' ++ l) }.
Proof.
  intros Hw Hl. induction l as [|o l IH] using rev_ind; [by destruct s; cbn; rewrite app_nil_r|].
  apply Forall_app in Hl as [Hl Ho]. rewrite Forall_singleton in Ho. specialize (IH Hl).
  assert (wf { { s with log ::= (λ l', l' ++ l) } with log ::= (λ l', l' ++ [o]) }) as Hf.
  { apply wf_output; [done|]. intros p Hp. destruct s; cbn. by apply granted_app, Ho. }
  destruct s; cbn in *. by rewrite app_assoc.
Qed.

Lemma fitting_written s id p :
  granted (log s) (source p) (destination p) → fitting s (written s id (Packet p)).
Proof. intros Hg p' Hp. unfold written in Hp. by destruct (_ =? 1)%Z; injection Hp as <-. Qed.

Lemma fitting_flushedAs s id p : wf s → _state s = 2%Z → fitting s (flushedAs s id p).
Proof.
  intros Hw H2. unfold flushedAs. cbv zeta. destruct (verifyPacket (addressed s p)).
  - intros p' Hp. injection Hp as <-. by apply (wf_tokens s).
  - by apply fitting_written, (wf_tokens s).
Qed.

Lemma wf_flushed s id : wf s → _state s = 2%Z → wf (flushed s id).
Proof.
  intros Hw H2. unfold flushed. case_decide as Hq; [done|].
  set (q := _queue s). set (l := flushedAs s id <$> _).
  assert (Forall (fitting s) l) as Hl.
  { apply Forall_fmap, Forall_true. intros p. by apply fitting_flushedAs. }
  pose proof (wf_queue _ (take (length q / 2) q) (wf_setTimeout _ ChangedState (wf_outputs _ _ Hw Hl)
    ltac:(done))) as Hf.
  by destruct s.
Qed.

Definition contentOut (o : output) : option content := content_ <$> packetOut o.
#[local] Arguments contentOut : simpl never.

(** The messages the object has been given and not forgotten: those that
    wait, and those that were written or refused. *)
Definition kept (s : vxapi) : list content :=
  (content_ <$> _queue s) ++ omap contentOut (log s).

Lemma packetOut_flushedAs s id p : packetOut (flushedAs s id p) = Some (addressed s p).
Proof. unfold flushedAs, written. by destruct (verifyPacket _), (readyState s id =? 1)%Z. Qed.

Lemma kept_flush s q l f :
  kept { s with _queue := q; log ::= (λ l', l' ++ l); timers ::= f } =
    (content_ <$> q) ++ omap contentOut (log s) ++ omap contentOut l.
Proof. destruct s. unfold kept. cbn. by rewrite omap_app. Qed.

Lemma kept_flushed s id : kept (flushed s id) ≡ₚ kept s.
Proof.
  unfold flushed. case_decide as Hq; [done|].
  assert (∀ l : list packet,
    omap contentOut (flushedAs s id <$> reverse l) ≡ₚ content_ <$> l) as Hl.
  { intros l. rewrite reverse_Permutation. induction l as [|p l IH]; [done|].
    cbn. unfold contentOut at 1. rewrite packetOut_flushedAs. cbn. by rewrite IH. }
  rewrite kept_flush, Hl. unfold kept.
  rewrite <-(take_drop (length (_queue s) / 2) (_queue s)) at 5. rewrite fmap_app, <-app_assoc.
  by rewrite (Permutation_app_comm (omap _ _)).
Qed.

Lemma kept_output s o :
  packetOut o = None → kept { s with log ::= (λ l, l ++ [o]) } = kept s.
Proof. intros Ho. destruct s; unfold kept; cbn. rewrite omap_app. cbn. unfold contentOut at 2. by rewrite Ho, app_nil_r. Qed.

Lemma kept_packet s o p :
  packetOut o = Some p → kept { s with log ::= (λ l, l ++ [o]) } ≡ₚ content_ p :: kept s.
Proof.
  intros Ho. destruct s; unfold kept; cbn. rewrite omap_app. cbn. unfold contentOut at 2. rewrite Ho. cbn.
  by rewrite app_assoc, Permutation_app_comm.
Qed.

(** What an event may throw: the message is refused, or what was received
    cannot be decoded. *)
Definition refusal (s : vxapi) (e : event) (x : exn) : Prop :=
  match e with
  | CallSend ms m => packetOf s ms m = Throw x
  | Loaded i =>
      match readers s !! i with
      | Some (ReadResponse blob) => decodeResponse blob = Throw x
      | Some (ReadPacket blob) => decodePacket blob = Throw x
      | None => False
      end
  | _ => False
  end.

(** The message an event hands over, when it is accepted. *)
Definition accepted (s : vxapi) (e : event) : list content :=
  match e with
  | CallSend ms m => match packetOf s ms m with Ok p => [content_ p] | Throw _ => [] end
  | _ => []
  end.

(** An event keeps the invariant and the messages, and throws for a reason. *)
Definition sound (s : vxapi) (e : event) (o : vxapi * res unit) : Prop :=
  wf (fst o) ∧ kept (fst o) ≡ₚ accepted s e ++ kept s ∧
  (∀ x, snd o = Throw x → refusal s e x).

Lemma sound_ok s e s' :
  wf s' → accepted s e = [] → kept s' ≡ₚ kept s → sound s e (s', Ok ()).
Proof. intros Hw Ha Hk. split; [done|]. split; [by rewrite Ha | by intros x [=]]. Qed.

Lemma sound_changedState s0 e s :
  wf s → accepted s0 e = [] → kept s ≡ₚ kept s0 → sound s0 e (changedState s).
Proof.
  intros Hw Ha Hk. destruct (decide (_state s = 2%Z)) as [H2|H2].
  - destruct (wf_state s Hw) as [id Hid]; [lia|].
    rewrite (changedState_eq s id) by (done || by apply wf_socket).
    apply sound_ok; [by apply wf_flushed | done | by rewrite kept_flushed].
  - rewrite changedState_other by done. by apply sound_ok.
Qed.

Lemma wf_connect s : wf s → wf { s with sockets ::= (λ l, l ++ [0%Z]) }.
Proof.
  intros [H1 H2 H3 H4 H5 H6 H7]. destruct s; cbn in *. constructor; cbn; try done.
  - intros id Hid. eapply opened_app; [by apply H1|done].
  - intros id Hid. eapply opened_app; [by apply H4|done].
Qed.

Lemma wf_setReadyState s id n :
  wf s → (1 ≤ n)%Z → wf { s with sockets ::= <[id := n]> }.
Proof.
  intros [H1 H2 H3 H4 H5 H6 H7] Hn. destruct s; cbn in *. constructor; cbn; try done.
  - intros i Hi. eapply opened_insert; [by apply H1|done..].
  - intros i Hi. eapply opened_insert; [by apply H4|done..].
Qed.

Lemma wf_timer_gone s i : wf s → wf { s with timers ::= delete i }.
Proof.
  intros [H1 H2 H3 H4 H5 H6 H7]. destruct s; cbn in *. constructor; cbn; try done.
  intros id Hid%list_elem_of_lookup. destruct Hid as [k Hk]. apply H4.
  rewrite list_lookup_delete in Hk. case_decide; by eapply list_elem_of_lookup_2.
Qed.

Lemma wf_reader_gone s i : wf s → wf { s with readers ::= delete i }.
Proof.
  intros [H1 H2 H3 H4 H5 H6 H7]. destruct s; cbn in *. constructor; cbn; try done.
  intros Hd. apply H3. intros ->. by destruct i.
Qed.

Lemma sound_send s ms m : wf s → sound s (CallSend ms m) (send ms m s).
Proof.
  intros Hw. destruct (packetOf s ms m) as [p|x] eqn:Hp.
  - assert (accepted s (CallSend ms m) = [content_ p]) as Ha by (cbn; by rewrite Hp).
    destruct (decide (_state s = 2%Z)) as [H2|H2].
    + destruct (wf_state s Hw) as [id Hid]; [lia|].
      rewrite (send_connected s id ms m p) by (done || by apply wf_socket).
      destruct (packetOf_tokens _ _ _ _ Hp) as [Hsrc Hdst].
      split; [|split; [|by intros x [=]]].
      * apply wf_output; [done|]. apply fitting_written. rewrite Hsrc, Hdst. by apply wf_tokens.
      * rewrite Ha. apply kept_packet. unfold written. by destruct (readyState s id =? 1)%Z.
    + rewrite (send_eq s ms m p) by done. split; [|split; [|by intros x [=]]].
      * unfold enqueued. case_decide as H4; [|by destruct s; apply (wf_queue _ _ Hw)].
        pose proof (wf_setState _ 0 (wf_queue _ (_queue s ++ [p]) (wf_connect s Hw))
          ltac:(lia) ltac:(lia) ltac:(lia)) as Hf. by destruct s.
      * rewrite Ha. unfold enqueued. destruct s; case_decide; unfold kept; cbn;
          rewrite fmap_app; cbn; by rewrite <-Permutation_middle, app_nil_r.
  - rewrite (send_refused _ _ _ _ Hp). split; [done|]. cbn. rewrite Hp. split; [done|].
    by intros y [= ->].
Qed.

Lemma sound_open s id ms :
  wf s → sockets s !! id = Some 0%Z → sound s (Open id ms) (onopen id ms s).
Proof.
  intros Hw Hid. set (s1 := { { s with sockets ::= <[id := 1%Z]> } with _socket := Some id }).
  assert (wf s1) as Hw1.
  { pose proof (wf_setReadyState s id 1 Hw ltac:(lia)) as [H1 H2 H3 H4 H5 H6 H7].
    destruct s; cbn in *. constructor; cbn; try done.
    intros i [= <-]. exists 1%Z. split; [|done]. apply list_lookup_insert_eq. by eapply lookup_lt_Some. }
  assert (opened s1 id) as Ho by (apply (wf_socket s1 Hw1); by destruct s).
  unfold onopen, mbind, M_bind, setReadyState, modify. fold s1.
  unfold _handshake, setState, mbind, M_bind, gets, modify.
  assert (∃ s2, s2 = { s1 with _state := 1%Z }) as [s2 Hs2] by by eexists. rewrite <-Hs2.
  assert (wf s2 ∧ opened s2 id ∧ _socket s2 = Some id ∧ kept s2 = kept s) as (Hw2 & Ho2 & Hi2 & Hk2).
  { subst s2. split; [apply wf_setState; [done|lia|lia|by destruct s; eexists]|].
    subst s1. by destruct s. }
  rewrite (this_send_eq s2 id) by done.
  set (r := written s2 id _).
  assert (packetOut r = None) as Hr by (subst r; unfold written; by destruct (readyState s2 id =? 1)%Z).
  assert (wf { s2 with log ::= (λ l, l ++ [r]) }) as Hw3.
  { apply wf_output; [done|]. intros p. by rewrite Hr. }
  apply sound_ok; [|done|].
  - apply wf_output; [|by intros p]. apply wf_setTimeout; [done|]. intros i [= <-]. by destruct s2.
  - rewrite kept_output by done. rewrite <-Hk2, <-(kept_output s2 r Hr). by destruct s2.
Qed.

Lemma sound_closed s id wasClean :
  wf s → sound s (Closed id wasClean) (onclose id wasClean s).
Proof.
  intros Hw. pose proof (wf_setReadyState s id 3 Hw ltac:(lia)) as Hw1.
  unfold onclose, mbind, M_bind, setReadyState, modify, gets.
  destruct (wasClean || _)%bool; apply sound_ok; try done; try (by destruct s).
  - apply wf_setState; [done|lia..].
  - by apply wf_setTimeout.
Qed.

Lemma sound_close s : wf s → sound s CallClose (close s).
Proof.
  intros Hw. unfold close, mbind, M_bind, gets. destruct (_socket s) as [id|] eqn:Hid; [|by apply sound_ok].
  assert (wf { s with _state := 3%Z }) as Hw3 by (apply wf_setState; [done|lia..|by eexists]).
  unfold setState, modify, socketClose, mbind, M_bind, gets.
  destruct (_ <? 2)%Z; apply sound_ok; try done; try (by destruct s).
  by apply wf_setReadyState.
Qed.

Lemma sound_received s id blob : wf s → sound s (Received id blob) (_msgHandler blob s).
Proof.
  intros Hw. unfold _msgHandler, mbind, M_bind, gets.
  assert (∀ r, (1 ≤ _state s ≤ 3)%Z → wf { s with readers ::= (λ l, l ++ [r]) }) as Hr.
  { intros r Hs. destruct (wf_state s Hw Hs) as [i Hi].
    destruct Hw as [H1 H2 H3 H4 H5 H6 H7]. destruct s; cbn in *. by constructor; cbn. }
  destruct (Z.eqb_spec (_state s) 1); [|destruct (Z.eqb_spec (_state s) 2)];
    apply sound_ok; try done; try (apply Hr; lia); by destruct s.
Qed.

(** A response that was awaited; [s0] is the object before its reader went. *)
Lemma sound_response s0 s e blob :
  wf s → is_Some (_socket s) → accepted s0 e = [] → kept s = kept s0 →
  (∀ x, decodeResponse blob = Throw x → refusal s0 e x) →
  sound s0 e (responseLoaded blob s).
Proof.
  intros Hw Hi Ha Hk Hx. unfold responseLoaded, mbind at 1, M_bind at 1, lift.
  destruct (decodeResponse blob) as [r|x] eqn:Hr.
  2:{ split; [done|]. split; [by rewrite Ha, <-Hk|]. intros y [= <-]. by apply Hx. }
  destruct (decide (status r ≠ "authorized")) as [Hn|Hn].
  - unfold mbind, M_bind, setState, modify. apply sound_changedState; [|done|by rewrite <-Hk; destruct s].
    apply wf_setState; [done|lia..].
  - apply dec_stable in Hn. unfold mbind, M_bind, setState, output_, modify.
    apply sound_changedState; [|done|].
    + destruct Hw as [H1 H2 H3 H4 H5 H6 H7]. destruct s; cbn in *. constructor; cbn; try done.
      * intros _. by apply granted_here.
      * intros o p. rewrite elem_of_app, list_elem_of_singleton. intros [Ho| ->] Hp; [|done].
        eapply granted_app, H7; done.
    + rewrite <-Hk. destruct s; unfold kept; cbn. by rewrite omap_app; cbn; rewrite app_nil_r.
Qed.

Lemma sound_packet s0 s e blob :
  wf s → accepted s0 e = [] → kept s = kept s0 →
  (∀ x, decodePacket blob = Throw x → refusal s0 e x) →
  sound s0 e (packetLoaded blob s).
Proof.
  intros Hw Ha Hk Hx. unfold packetLoaded, mbind at 1, M_bind at 1, lift.
  destruct (decodePacket blob) as [p|x] eqn:Hp.
  2:{ split; [done|]. split; [by rewrite Ha, <-Hk|]. intros y [= <-]. by apply Hx. }
  unfold mbind at 1, M_bind, gets. destruct (_userHandlers s ≫= _) as [f|].
  - apply sound_ok; [by apply wf_output | done | by rewrite kept_output, Hk].
  - apply sound_ok; [done | done | by rewrite Hk].
Qed.

Lemma sound_fired s0 s e t :
  wf s → (∀ id, t = SendPing id → opened s id) → accepted s0 e = [] → kept s = kept s0 →
  sound s0 e (fire t s).
Proof.
  intros Hw Ht Ha Hk. destruct t as [|id|]; cbn [fire].
  - apply sound_changedState; [done|done|by rewrite Hk].
  - specialize (Ht id eq_refl). unfold sendPing, mbind, M_bind, gets.
    destruct (_ <? 2)%Z; [|by apply sound_ok; rewrite ?Hk].
    destruct (_ =? 2)%Z.
    + rewrite socketSend_eq by done. unfold setTimeout, modify.
      set (o := written s id Ping).
      assert (packetOut o = None) as Ho by (subst o; unfold written; by destruct (readyState s id =? 1)%Z).
      apply sound_ok; [|done|].
      * apply wf_setTimeout; [apply wf_output; [done|intros p; by rewrite Ho]|].
        intros i [= <-]. by destruct s.
      * rewrite <-Hk, <-(kept_output s o Ho). by destruct s.
    + apply sound_ok; [|done|by rewrite <-Hk; destruct s]. apply wf_setTimeout; [done|].
      by intros i [= <-].
  - apply sound_ok; [by apply wf_connect | done | by rewrite <-Hk; destruct s].
Qed.

Lemma step_sound s e : wf s → enabled s e = true → sound s e (step e s).
Proof.
  intros Hw He. destruct e as [| |ms m|f t|id ms|id c|id|id blob|i|i|i]; cbn [step enabled] in *.
  - apply sound_ok; [by apply wf_connect | done | by destruct s].
  - by apply sound_close.
  - by apply sound_send.
  - unfold subscribe. repeat case_decide; apply sound_ok; try done; try (by destruct s);
      by destruct Hw, s; constructor.
  - apply bool_decide_eq_true in He. by apply sound_open.
  - by apply sound_closed.
  - apply sound_ok; [by apply wf_output | done | by rewrite kept_output].
  - by apply sound_received.
  - apply Nat.ltb_lt, lookup_lt_is_Some_2 in He as [r Hr].
    unfold mbind at 1, M_bind at 1, gets. rewrite Hr. cbn [of_option].
    unfold mbind, M_bind, lift, modify.
    pose proof (wf_reader_gone s i Hw) as Hg.
    assert (is_Some (_socket s)) as Hi by (apply (wf_readers s Hw); intros Hn; by rewrite Hn in Hr).
    destruct r as [blob|blob]; [apply sound_response|apply sound_packet]; try done; try (by destruct s);
      intros x Hx; cbn; by rewrite Hr.
  - apply Nat.ltb_lt, lookup_lt_is_Some_2 in He as [r Hr].
    unfold mbind, M_bind, gets, lift, modify. rewrite Hr. cbn [of_option].
    destruct r; apply sound_ok; try done; try (by destruct s).
    + apply wf_setState; [by apply wf_reader_gone|lia..].
    + by apply wf_reader_gone.
  - apply Nat.ltb_lt, lookup_lt_is_Some_2 in He as [t Ht].
    unfold mbind, M_bind, gets, lift, modify. rewrite Ht. cbn [of_option].
    apply sound_fired; [by apply wf_timer_gone| |done|by destruct s].
    intros id ->. apply list_elem_of_lookup_2, (wf_timers s Hw) in Ht as (r & Hr & ?).
    exists r. by destruct s.
Qed.

(** ** Sessions

    The object and the messages it has accepted, after any enabled events. *)
Inductive session (moduleName : string) : list content → vxapi → Prop :=
| session_new : session moduleName [] (newVXAPI moduleName)
| session_step cs s e :
    session moduleName cs s → enabled s e = true →
    session moduleName (accepted s e ++ cs) (fst (step e s)).

Lemma session_wf moduleName cs s : session moduleName cs s → wf s.
Proof. induction 1 as [|cs s e _ IH He]; [apply wf_new | by apply step_sound]. Qed.

Lemma session_kept moduleName cs s : session moduleName cs s → kept s ≡ₚ cs.
Proof.
  induction 1 as [|cs s e Hs IH He]; [done|].
  destruct (step_sound s e) as (_ & -> & _); [by eapply session_wf|done|]. by rewrite IH.
Qed.

(** The events of a list, in order, when each is enabled in its turn. *)
Fixpoint play (es : list event) (cs : list content) (s : vxapi) : option (list content * vxapi) :=
  match es with
  | [] => Some (cs, s)
  | e :: es => if enabled s e then play es (accepted s e ++ cs) (fst (step e s)) else None
  end.

Lemma play_session moduleName es cs s cs' s' :
  session moduleName cs s → play es cs s = Some (cs', s') → session moduleName cs' s'.
Proof.
  revert cs s. induction es as [|e es IH]; intros cs s Hs Hp; cbn in Hp; [by injection Hp as <- <-|].
  destruct (enabled s e) eqn:He; [|done]. eapply IH; [|done]. by apply session_step.
Qed.
End sending.

(** ** Properties of the channel of a module's page

    Messages are kept until they are written, packets go out only under the
    tokens the server has given, nothing throws but a refusal; in which order
    the queue is sent, and where messages are lost. *)

Section properties.
Context `{Protobuf}.

(** C21: in every session of the channel, whatever the page calls and in
    whatever order sockets, timers and files answer, the messages [send] has
    accepted are exactly those that still wait in the queue, those that were
    written to a socket and those the library refused when the queue was
    sent, each as often as it was accepted: no message is lost by the object
    or sent twice. *)
Theorem messages_kept_once moduleName cs s :
  session moduleName cs s →
  (content_ <$> _queue s) ++ omap contentOut (log s) ≡ₚ cs.
Proof. apply session_kept. Qed.

(** C22: no packet leaves before the server has let the page in: the source
    and the destination of every packet written to a socket are the tokens of
    one response of the server with the status "authorized". *)
Theorem packets_under_granted_tokens moduleName cs s id p :
  session moduleName cs s → Transmitted id (Packet p) ∈ log s →
  ∃ r, Authorized r ∈ log s ∧ status r = "authorized" ∧
    source p = atoken r ∧ destination p = stoken r.
Proof.
  intros Hw%session_wf Hp.
  destruct (wf_packets s Hw _ p Hp eq_refl) as (r & Hr & Hs & <- & <-). by exists r.
Qed.

(** An event of the channel throws only when a message of the page is
    refused ([send] throws the reason to its caller) or when the server's
    bytes cannot be decoded; pings, the queue and the callbacks of sockets and
    timers never throw, in particular nothing is written to a missing or
    unopened socket. *)
Theorem channel_throws_refusals_only moduleName cs s e x :
  session moduleName cs s → enabled s e = true → snd (step e s) = Throw x → refusal s e x.
Proof. intros Hw%session_wf He. by apply step_sound. Qed.

(** Sending the queue touches neither the state, the socket nor the tokens. *)
Lemma flushed_same s id :
  _state (flushed s id) = _state s ∧ _socket (flushed s id) = _socket s ∧
  sockets (flushed s id) = sockets s ∧
  (∀ p, flushedAs (flushed s id) id p = flushedAs s id p) ∧
  length (_queue (flushed s id)) = length (_queue s) / 2.
Proof.
  unfold flushed. case_decide as Hq; [by rewrite Hq|].
  assert (length (_queue s) / 2 ≤ length (_queue s)) by (apply Nat.Div0.div_le_upper_bound; lia).
  destruct s; cbn in *. rewrite length_take. by repeat split; try lia.
Qed.

(** One call takes the rest of the queue from its end. *)
Lemma flushed_log s id :
  ∃ l, log (flushed s id) = log s ++ (flushedAs s id <$> l) ∧ reverse (_queue s) = l ++ reverse (_queue (flushed s id)).
Proof.
  unfold flushed. case_decide as Hq.
  - exists []. by rewrite Hq, app_nil_r.
  - exists (reverse (drop (length (_queue s) / 2) (_queue s))).
    split; [by destruct s|].
    rewrite <-(take_drop (length (_queue s) / 2) (_queue s)) at 1. rewrite reverse_app. by destruct s.
Qed.

(** Firings of the timer until a queue of [n] packets is empty: one call of
    [changedState] takes half of it, rounded up. *)
Definition rounds (n : nat) : nat := if decide (n = 0) then 0 else S (Nat.log2 n).

Lemma rounds_half n : n ≠ 0 → rounds (n / 2) = Nat.log2 n.
Proof.
  intros Hn. pose proof (Nat.div_mod n 2 ltac:(lia)) as Hd.
  pose proof (Nat.mod_upper_bound n 2 ltac:(lia)) as Hm. unfold rounds.
  case_decide as H0; [by replace n with 1 by lia|].
  destruct (decide (n mod 2 = 0)) as [He|He].
  - rewrite Hd at 2. rewrite He, Nat.add_0_r, Nat.log2_double; lia.
  - rewrite Hd at 2. replace (n mod 2) with 1 by lia. rewrite Nat.log2_succ_double; lia.
Qed.

(** A connected channel and its socket. *)
Definition connected (s : vxapi) (id : nat) : Prop :=
  _state s = 2%Z ∧ _socket s = Some id ∧ opened s id.

(** The timer goes off: the rest of the queue is sent, and the timer set again
    unless there was none. *)
Lemma timer_fires ts s id :
  connected s id → timers s = ts ++ [ChangedState] →
  enabled s (Fired (length ts)) = true ∧
  step (Fired (length ts)) s = (flushed { s with timers := ts } id, Ok ()).
Proof.
  intros (H2 & Hs & Ho) Ht. split.
  { cbn [enabled]. apply Nat.ltb_lt. rewrite Ht, length_app. cbn. lia. }
  cbn [step]. unfold mbind, M_bind, gets, lift, modify. rewrite Ht, list_lookup_middle by done.
  cbn [of_option fire]. rewrite <-(changedState_eq { s with timers := ts } id);
    [|by destruct s..]. f_equal. destruct s; cbn in *. rewrite Ht. unfold constant.
  by rewrite delete_middle, app_nil_r.
Qed.

Lemma drained_by_timer n ts s id :
  connected s id → timers s = ts ++ [ChangedState] → n = length (_queue s) →
  ∃ s', play (replicate (rounds n) (Fired (length ts))) [] s = Some ([], s') ∧
    _state s' = 2%Z ∧ _queue s' = [] ∧ log s' = log s ++ (flushedAs s id <$> reverse (_queue s)).
Proof.
  revert s. induction n as [n IH] using lt_wf_ind. intros s Hc Ht Hn.
  destruct (decide (n = 0)) as [H0|H0].
  { exists s. unfold rounds. rewrite decide_True by done. split; [done|]. split; [apply Hc|].
    rewrite H0 in Hn. symmetry in Hn. apply nil_length_inv in Hn. by rewrite Hn, app_nil_r. }
  destruct (timer_fires ts s id Hc Ht) as [Hen Hstep]. unfold rounds.
  rewrite decide_False, <-rounds_half by done. cbn [replicate play].
  rewrite Hen, Hstep. cbn [fst accepted app].
  set (s1 := { s with timers := ts }) in *. destruct Hc as (H2 & Hs & Ho).
  destruct (flushed_same s1 id) as (E2 & Es & Ess & Ef & El).
  destruct (flushed_log s1 id) as (l & Hlog & Hrev).
  assert (n / 2 < n) by (apply Nat.div_lt; lia).
  destruct (IH (n / 2) ltac:(done) (flushed s1 id)) as (s' & Hp & H2' & Hq & Hl).
  - unfold connected, opened. rewrite E2, Es, Ess. unfold s1. by destruct s.
  - unfold flushed. case_decide as Hq; [|unfold s1; by destruct s].
    rewrite Hn in H0. unfold s1 in Hq. destruct s; cbn in *. by rewrite Hq in H0.
  - rewrite El, Hn. unfold s1. by destruct s.
  - exists s'. split; [exact Hp|]. split; [done|]. split; [done|]. rewrite Hl, Hlog.
    assert (log s1 = log s ∧ _queue s1 = _queue s) as [-> Eq] by (unfold s1; by destruct s).
    rewrite <-Eq, Hrev, fmap_app, <-app_assoc. f_equal. f_equal.
    apply list_fmap_ext. intros i p _. rewrite Ef. unfold s1. by destruct s.
Qed.

(** The object once the server has let the page in with [r]. *)
Definition letIn (r : authenticationResponse) (s : vxapi) : vxapi :=
  { s with _srcToken := atoken r; _dstToken := stoken r }.

Lemma response_lets_in s i id blob r :
  _socket s = Some id → opened s id → readers s !! i = Some (ReadResponse blob) →
  decodeResponse blob = Ok r → status r = "authorized" →
  let s2 := { letIn r s with readers ::= delete i; log ::= (λ l, l ++ [Authorized r]); _state := 2%Z } in
  enabled s (Loaded i) = true ∧ connected s2 id ∧ step (Loaded i) s = (flushed s2 id, Ok ()).
Proof.
  intros Hs Ho Hi Hd Ha s2.
  assert (connected s2 id) as Hc by (unfold s2; destruct s; by repeat split).
  split; [by apply Nat.ltb_lt, lookup_lt_is_Some_1; eexists|]. split; [done|].
  destruct Hc as (H2 & Hs2 & Ho2). rewrite <-(changedState_eq s2 id) by done.
  cbn [step]. unfold mbind at 1, M_bind at 1, gets at 1. rewrite Hi. cbn [of_option].
  unfold mbind, M_bind, lift, modify. cbn [loaded]. unfold responseLoaded, mbind, M_bind, lift.
  rewrite Hd, decide_False by (by intros H0; apply H0). unfold modify, output_, setState, modify.
  unfold s2, letIn. by destruct s.
Qed.

(** The first half leaves at once, the rest with the timer. *)
Lemma flushed_drains s id :
  connected s id →
  ∃ s', play (replicate (Nat.log2 (length (_queue s))) (Fired (length (timers s)))) [] (flushed s id)
          = Some ([], s') ∧
    _state s' = 2%Z ∧ _queue s' = [] ∧ log s' = log s ++ (flushedAs s id <$> reverse (_queue s)).
Proof.
  intros Hc. pose proof Hc as (H2 & Hs & Ho).
  destruct (flushed_same s id) as (E2 & Es & Ess & Ef & El).
  destruct (flushed_log s id) as (l & Hlog & Hrev).
  destruct (decide (_queue s = [])) as [Hq|Hq].
  - exists s. rewrite Hq. unfold flushed. rewrite decide_True by done. by rewrite app_nil_r.
  - assert (length (_queue s) ≠ 0) as Hn by (by intros ?%nil_length_inv).
    rewrite <-rounds_half by done. rewrite <-El.
    destruct (drained_by_timer (length (_queue (flushed s id))) (timers s) (flushed s id) id)
      as (s' & Hp & H2' & Hq' & Hl); [|by unfold flushed; rewrite decide_False by done; destruct s|done|].
    + unfold connected, opened. by rewrite E2, Es, Ess.
    + exists s'. split; [exact Hp|]. split; [done|]. split; [done|].
      rewrite Hl, Hlog, Hrev, fmap_app, <-app_assoc. f_equal. f_equal.
      apply list_fmap_ext. intros i p _. apply Ef.
Qed.

(** C23: when the server lets the page in on an open socket, the channel sends
    its whole queue: the answer itself sends half of it and starts a timer,
    which starts itself again until, after as many firings as the binary
    logarithm of the length of the queue, the queue is empty.  Nothing else
    happening in between, what was written are the packets of the queue under
    the tokens just granted, with the newest first: messages handed over while
    the channel was not connected arrive in reverse order.  (The library takes
    every packet.) *)
Theorem queue_drains_newest_first s id i blob r :
  _socket s = Some id → sockets s !! id = Some 1%Z →
  readers s !! i = Some (ReadResponse blob) → decodeResponse blob = Ok r → status r = "authorized" →
  (∀ p, p ∈ _queue s → verifyPacket (addressed (letIn r s) p) = None) →
  ∃ s', play (Loaded i :: replicate (Nat.log2 (length (_queue s))) (Fired (length (timers s)))) [] s
          = Some ([], s') ∧
    getState s' = 2%Z ∧ _queue s' = [] ∧
    log s' = log s ++ Authorized r ::
      ((λ p, Transmitted id (Packet (addressed (letIn r s) p))) <$> reverse (_queue s)).
Proof.
  intros Hs Hid Hi Hd Ha Hv.
  assert (opened s id) as Ho by (by exists 1%Z).
  destruct (response_lets_in s i id blob r Hs Ho Hi Hd Ha) as (Hen & Hc & Hstep).
  destruct (flushed_drains _ id Hc) as (s' & Hp & H2 & Hq & Hl).
  exists s'. cbn [play]. rewrite Hen, Hstep. cbn [fst accepted app].
  split; [by destruct s|]. split; [done|]. split; [done|]. rewrite Hl.
  assert (∀ p, p ∈ _queue s → flushedAs (letIn r s) id p =
    Transmitted id (Packet (addressed (letIn r s) p))) as Hf.
  { intros p Hin. unfold flushedAs, written, readyState. cbv zeta. rewrite Hv by done.
    change (sockets (letIn r s)) with (sockets s). by rewrite Hid. }
  destruct s as [mo src dst qu so st us ss ts rs lg]. cbn -[reverse] in Hf |- *. rewrite <-app_assoc. f_equal.
  cbn -[reverse]. f_equal. apply list_fmap_ext. intros j p Hp'%list_elem_of_lookup_2.
  rewrite elem_of_reverse in Hp'. by apply Hf.
Qed.

(** The connection of a connected channel is broken: the state still says that
    it is connected. *)
Definition broken (id : nat) (s : vxapi) : Prop :=
  _state s = 2%Z ∧ _socket s = Some id ∧ sockets s !! id = Some 3%Z.

(** What may come without ending that: no socket opens or closes, the page does
    not close the channel, and no answer of the server to a request for
    authentication is read. *)
Definition quiet (s : vxapi) (e : event) : bool :=
  match e with
  | CallClose | Open _ _ | Closed _ _ => false
  | Loaded i | LoadFailed i =>
      match readers s !! i with Some (ReadPacket _) => true | _ => false end
  | _ => true
  end.

Definition quietly (s s' : vxapi) : Prop :=
  ∃ e, enabled s e = true ∧ quiet s e = true ∧ s' = fst (step e s).

Lemma broken_opened id s : broken id s → opened s id.
Proof. intros (_ & _ & Hr). by exists 3%Z. Qed.

Lemma broken_ext id s s' :
  _state s' = _state s → _socket s' = _socket s → sockets s' = sockets s → broken id s → broken id s'.
Proof. unfold broken. by intros -> -> ->. Qed.

Lemma broken_connect id s : broken id s → broken id (fst (connect s)).
Proof.
  intros (H2 & Hs & Hr). destruct s; cbn in *. split; [done|]. split; [done|]. cbn.
  by apply lookup_app_l_Some.
Qed.

Lemma broken_fire id t s : broken id s → broken id (fst (fire t s)).
Proof.
  intros Hb. destruct t as [|i|]; cbn [fire].
  - destruct Hb as (H2 & Hs & Hr). rewrite (changedState_eq s id) by (done || by exists 3%Z). cbn [fst].
    destruct (flushed_same s id) as (E2 & Es & Ess & _). by split_and!; rewrite ?E2, ?Es, ?Ess.
  - apply keeps_run; [|done]. unfold sendPing, socketSend, output_, setTimeout. keeps_steps;
      intros; by eapply broken_ext; [..|done].
  - by apply broken_connect.
Qed.

Lemma broken_send id s ms m p :
  broken id s → packetOf s ms m = Ok p →
  send ms m s = ({ s with log ::= (λ l, l ++ [Dropped id (Packet p)]) }, Ok ()).
Proof.
  intros Hb Hp. pose proof Hb as (H2 & Hs & Hr).
  rewrite (send_connected s id ms m p) by (done || by apply broken_opened).
  unfold written, readyState. by rewrite Hr.
Qed.

Lemma broken_quiet id s s' : broken id s → quietly s s' → broken id s'.
Proof.
  intros Hb (e & He & Hq & ->). destruct e as [| |ms m|f ty| | |i|i blob|i|i|i]; try done; cbn [step].
  - by apply broken_connect.
  - destruct (packetOf s ms m) as [p|x] eqn:Hp.
    + rewrite (broken_send id s ms m p) by done. by eapply broken_ext; [..|exact Hb].
    + by rewrite (send_refused s ms m x).
  - apply keeps_run; [|done]. unfold subscribe. keeps_steps; intros; by eapply broken_ext; [..|done].
  - apply keeps_run; [|done]. unfold _msgHandler. keeps_steps; intros; by eapply broken_ext; [..|done].
  - cbn [quiet] in Hq. destruct (readers s !! i) as [[|blob]|] eqn:Hr; try done.
    unfold mbind at 1, M_bind at 1, gets at 1. rewrite Hr.
    change (broken id (fst ((modify (λ s, { s with readers ::= delete i }) ≫= λ _, packetLoaded blob) s))).
    apply keeps_run; [|done]. unfold packetLoaded, output_. keeps_steps; intros; by eapply broken_ext; [..|done].
  - cbn [quiet] in Hq. destruct (readers s !! i) as [[|blob]|] eqn:Hr; try done.
    unfold mbind at 1, M_bind at 1, gets at 1. rewrite Hr. by eapply broken_ext; [..|exact Hb].
  - unfold mbind, M_bind, gets, lift, modify. destruct (timers s !! i) as [t|]; [|done].
    apply broken_fire. by eapply broken_ext; [..|exact Hb].
Qed.

(** C24: when the connection of a connected channel breaks, the channel still
    reports that it is connected.  As long as no socket opens or closes, the
    page does not close the channel and no answer to a request for
    authentication is read — timers, packets, attempts to connect and other
    calls of the page may come —, every message the page sends is accepted
    without an error and dropped by the closed socket, although there is a
    queue for messages sent while the channel is not connected.  After a clean
    close the message is queued and the channel connects again. *)
Theorem broken_connection_drops_messages s id :
  getState s = 2%Z → _socket s = Some id → is_Some (sockets s !! id) →
  (∀ s', rtc quietly (fst (step (Closed id false) s)) s' →
    getState s' = 2%Z ∧
    ∀ ms m p, packetOf s' ms m = Ok p →
      step (CallSend ms m) s' = ({ s' with log ::= (λ l, l ++ [Dropped id (Packet p)]) }, Ok ())) ∧
  (let s' := fst (step (Closed id true) s) in
   getState s' = 4%Z ∧
   ∀ ms m p, packetOf s' ms m = Ok p →
     snd (step (CallSend ms m) s') = Ok () ∧
     let s'' := fst (step (CallSend ms m) s') in
     _queue s'' = _queue s ++ [p] ∧ getState s'' = 0%Z ∧ sockets s'' = sockets s' ++ [0%Z]).
Proof.
  unfold getState. intros H2 Hs [r Hr]. split.
  - intros s' Hrun. assert (broken id s') as Hb.
    { refine (rtc_ind_r (broken id) _ _ _ s' Hrun); [|intros x y _ Hxy Hx; by eapply broken_quiet].
      cbn [step]. unfold onclose, mbind, M_bind, setReadyState, modify, gets.
      destruct s as [mo src dst qu so st us ss ts rs lg]; cbn in H2, Hs, Hr; subst st so. cbn.
      split; [done|]. split; [done|]. cbn. unfold constant.
      apply list_lookup_insert_eq. by eapply lookup_lt_Some. }
    split; [apply Hb|]. intros ms m p Hp. by apply broken_send.
  - cbn [step]. unfold onclose, mbind at 1 2, M_bind at 1 2, setReadyState, modify at 1, gets, setState, modify.
    destruct s as [mo src dst qu so st us ss ts rs lg]; cbn in H2, Hs, Hr; subst st so. cbn [orb].
    split; [done|]. intros ms m p Hp.
    rewrite (send_eq _ ms m p) by (done || by cbn). unfold enqueued. cbn. done.
Qed.

(** A packet of the server is handed to the function that subscribed
    last, and only when that subscription is for all types or for the type of
    the packet: a second [subscribe] for another type ends the first one. *)
Theorem packet_reaches_last_subscriber s f t i blob p :
  readers s !! i = Some (ReadPacket blob) → decodePacket blob = Ok p →
  t ∈ ["*"; "data"; "text"; "file"; "msg"; "action"] →
  log (fst (step (Loaded i) (fst (step (CallSubscribe f t) s)))) =
    log s ++
    (if decide (t = "*" ∨ t = match type (content_ p) with
                              | DATA => "data" | TEXT => "text" | FILE => "file"
                              | MSG => "msg" | ACT => "action"
                              end)
     then [Called f p] else []).
Proof.
  intros Hr Hp Ht.
  assert (∃ h, fst (step (CallSubscribe f t) s) = { s with _userHandlers := Some h } ∧
    handlerOf h (type (content_ p)) = if decide (t = "*" ∨ t = match type (content_ p) with
                              | DATA => "data" | TEXT => "text" | FILE => "file"
                              | MSG => "msg" | ACT => "action"
                              end) then Some f else None) as (h & -> & Hh).
  { repeat (apply elem_of_cons in Ht as [->|Ht]); [..|by apply not_elem_of_nil in Ht];
      (eexists; split; [reflexivity|]); by destruct (type (content_ p)). }
  cbn [step]. unfold mbind at 1 2 3, M_bind at 1 2 3, gets, lift, modify.
  destruct s; cbn in Hr |- *. rewrite Hr. cbn.
  unfold packetLoaded, mbind, M_bind, lift, gets. rewrite Hp. cbn. rewrite Hh.
  by case_decide; cbn; rewrite ?app_nil_r.
Qed.
End properties.

(** ** A session

    A library that takes every message; the server lets in whoever answers
    with the byte 1. *)
Definition greeting (b : list byte) : authenticationResponse :=
  {| atoken := "page"; stoken := "server"; sversion := "v1";
     status := match b with [x01] => "authorized" | _ => "unauthorized" end |}.

Definition textPacket (text : string) : packet :=
  {| module := "terminal"; source := "server"; destination := "page"; timestamp := 1;
     content_ := {| type := TEXT; data := utf8 text; name := None; part_ := None; uniq := None;
                    msg_type := None |} |}.

#[local] Instance sampleProtobuf : Protobuf :=
  {| verifyPart _ := None; createPart p := p; verifyContent _ := None; createContent c := c;
     verifyPacket _ := None; encodePacket _ := []; encodeRequest _ := [];
     decodePacket b := match b with [] => Throw (Error (Plain_error "ProtocolError"))
                       | _ => Ok (textPacket "hello") end;
     decodeResponse b := Ok (greeting b) |}.

(** Two messages before the channel is open, then it is opened and lets in. *)
Definition sampleEvents : list event :=
  [CallSend 1499 (MData "ls"); CallSend 1500 (MAction "x" "stop"); CallConnect; Open 0 2000;
   Received 0 [x01]; Loaded 0].

Definition started : vxapi := newVXAPI "terminal".
Definition sampleContents : list content :=
  from_option fst [] (play sampleEvents [] started).
Definition sampleChannel : vxapi :=
  from_option snd started (play sampleEvents [] started).

Lemma sample_session : session "terminal" sampleContents sampleChannel.
Proof. by apply (play_session "terminal" sampleEvents [] started); [constructor|vm_compute]. Qed.

(** One of the two messages is left after one call of [changedState]. *)
Example half_is_sent :
  getState sampleChannel = 2%Z ∧ length (_queue sampleChannel) = 1 ∧
  last (log sampleChannel) =
    Some (Transmitted 0 (Packet (addressed sampleChannel
      {| module := "terminal"; source := ""; destination := ""; timestamp := 2;
         content_ := {| type := ACT; data := utf8 "x"; name := Some "stop"; part_ := None;
                        uniq := None; msg_type := None |} |}))).
Proof. vm_compute. done. Qed.

Lemma messages_kept_once_witness :
  (content_ <$> _queue sampleChannel) ++ omap contentOut (log sampleChannel) ≡ₚ sampleContents ∧
  length sampleContents = 2.
Proof. split; [apply (messages_kept_once "terminal"), sample_session|by vm_compute]. Defined.

Lemma packets_under_granted_tokens_witness :
  ∃ p r, Transmitted 0 (Packet p) ∈ log sampleChannel ∧ Authorized r ∈ log sampleChannel ∧
    source p = atoken r.
Proof.
  exists (addressed sampleChannel
    {| module := "terminal"; source := ""; destination := ""; timestamp := 2;
       content_ := {| type := ACT; data := utf8 "x"; name := Some "stop"; part_ := None;
                      uniq := None; msg_type := None |} |}).
  match goal with |- ∃ r, Transmitted 0 (Packet ?p) ∈ _ ∧ _ =>
    assert (Transmitted 0 (Packet p) ∈ log sampleChannel) as Hp
      by (vm_compute; repeat (apply list_elem_of_here || apply list_elem_of_further)) end.
  destruct (packets_under_granted_tokens "terminal" _ _ _ _ sample_session Hp)
    as (r & Hr & _ & Hs & _).
  by exists r.
Defined.

Lemma channel_throws_refusals_only_witness :
  refusal sampleChannel (CallSend 0 (MMsg "x" "fatal")) (Error (Plain_error "unknown message type")).
Proof.
  apply (channel_throws_refusals_only "terminal" sampleContents); [apply sample_session|done|].
  by vm_compute.
Defined.

(** Three messages wait for the answer of the server. *)
Definition waitingChannel : vxapi :=
  from_option snd started (play
    [CallSend 1 (MData "a"); CallSend 2 (MData "b"); CallSend 3 (MData "c"); CallConnect;
     Open 0 2000; Received 0 [x01]] [] started).

Lemma queue_drains_newest_first_witness :
  length (_queue waitingChannel) = 3 ∧
  ∃ s', play [Loaded 0; Fired 1] [] waitingChannel = Some ([], s') ∧ _queue s' = [].
Proof.
  split; [done|].
  destruct (queue_drains_newest_first waitingChannel 0 0 [x01] (greeting [x01]))
    as (s' & Hp & _ & Hq & _); [by vm_compute..|done|].
  exists s'. split; [exact Hp|exact Hq].
Defined.

(** The connection breaks; the page waits for the timer and sends a message. *)
Definition brokenChannel : vxapi := fst (step (Closed 0 false) sampleChannel).

Lemma broken_connection_drops_messages_witness :
  let s := fst (step (Fired 1) brokenChannel) in
  getState s = 2%Z ∧
  ∃ p, packetOf s 0 (MData "pwd") = Ok p ∧
    log (fst (step (CallSend 0 (MData "pwd")) s)) = log s ++ [Dropped 0 (Packet p)].
Proof.
  intros s.
  destruct (broken_connection_drops_messages sampleChannel 0) as [Hb _];
    [by vm_compute | by vm_compute | by vm_compute; eexists |].
  destruct (Hb s) as [H2 Hsend].
  { apply rtc_once. exists (Fired 1). split; [by vm_compute|]. by split. }
  split; [exact H2|]. eexists. split; [reflexivity|]. by rewrite (Hsend 0%Z (MData "pwd") _ eq_refl).
Defined.

Lemma packet_reaches_last_subscriber_witness :
  ∃ s, log (fst (step (Loaded 0) (fst (step (CallSubscribe 7 "text") s)))) =
    log s ++ [Called 7 (textPacket "hello")].
Proof.
  exists { sampleChannel with readers := [ReadPacket [x01]] }.
  apply (packet_reaches_last_subscriber _ 7 "text" 0 [x01] (textPacket "hello"));
    [by vm_compute | done |].
  do 2 apply list_elem_of_further. apply list_elem_of_here.
Defined.

(** A socket that was given up ends the session of the next one when it
    closes: after a refused response a message opens a second socket, on
    which the server lets the page in. *)
Example stale_close_ends_session :
  let es := [CallConnect; Open 0 1000; Received 0 [x00]; Loaded 0; CallSend 2000 (MData "ls");
             Open 1 3000; Received 1 [x01]; Loaded 0] in
  (λ r, (getState r.2, sockets r.2)) <$> play es [] started = Some (2%Z, [1%Z; 1%Z]) ∧
  (λ r, (getState r.2, sockets r.2)) <$> play (es ++ [Closed 0 true]) [] started =
    Some (4%Z, [3%Z; 1%Z]).
Proof. vm_compute. done. Qed.
