(* ===== verification/EventActions.v ===== *)
(** * Assigning actions to events

    [libs/shared/src/lib/components]: what the two dialogs that assign actions
    share, the dialog that assigns one action to many events
    ([assigning-actions-master]) and the panel that assigns many actions to one
    event ([assigning-actions-to-event]). *)

From stdpp Require Import list sorting.
From S2P Require Import Prelude JsValue JsJson SharedUtils ModuleEditConfig ModuleEditFields.
From S2P Require Import JsString.

(** ** Assigning actions to events

    What the two dialogs of [libs/shared/src/lib/components] that assign
    actions share: [assigning-actions-master] assigns one action to many
    events, [assigning-actions-to-event] many actions to one event.  Both edit
    a copy of the module: the lists of actions in [current_event_config] and,
    for the modules whose actions are used, the dependencies of type
    [to_make_action] in [dynamic_dependencies]. *)

(** ** [types/actions.ts] *)

Definition THIS_MODULE_NAME := "this".
Definition LOG_TO_DB := "log_to_db".
Definition LOG_TO_DB_ACTION : val :=
  obj_lit [("fields", VArr []); ("module_name", VStr THIS_MODULE_NAME); ("name", VStr LOG_TO_DB);
           ("priority", vint 10)].

(** ** The lists of actions *)

(** [arr.find(p)] tells whether there is one; [arr] must be an array. *)
Definition hasM (p : val → res bool) (arr : val) : res bool :=
  l ← as_array arr;
  someM p l.

Definition filterArr (p : val → res bool) (arr : val) : res val :=
  l ← as_array arr;
  l ← filterM p l;
  Ok (VArr l).

Definition push (arr x : val) : res val :=
  l ← as_array arr;
  Ok (VArr (l ++ [x])).

(** [({ name }) => name === actionName] *)
Definition isNamed (actionName : val) (item : val) : res bool :=
  name ← get item "name";
  Ok (strict_eq name actionName).

Definition isOfModule (moduleName : val) (item : val) : res bool :=
  name ← get item "module_name";
  Ok (strict_eq name moduleName).

(** [module.current_event_config[eventName].actions] *)
Definition actionsPath (eventName : string) : list string :=
  ["current_event_config"; eventName; "actions"].

Definition eventNames (module : val) : res (list string) :=
  config ← get module "current_event_config";
  Object_keys config.

(** The loop that takes an action away from every event. *)
Definition withoutAction (actionName : val) (module : val) : res val :=
  names ← eventNames module;
  foldM (λ m eventName,
    update_path m (actionsPath eventName)
      (filterArr (λ item, same ← isNamed actionName item; Ok (negb same)))) module names.

(** The item an action becomes in the list of an event. *)
Definition actionItem (action : val) : res val :=
  name ← getq action "name";
  module_name ← getq action "module_name";
  priority ← getq_path action ["config"; "priority"];
  fields ← getq_path action ["config"; "fields"];
  Ok (obj_lit [("name", name); ("module_name", module_name); ("priority", priority);
               ("fields", fields)]).

(** One round of the loop that assigns an action to events. *)
Definition assignAction (action : val) (module : val) (eventName : string) : res val :=
  actionName ← getq action "name";
  update_path module (actionsPath eventName) (λ actions,
    found ← hasM (isNamed actionName) actions;
    if (found : bool) then Ok actions
    else item ← actionItem action; push actions item).

Definition assignAll (action : val) (events : list string) (module : val) : res val :=
  foldM (assignAction action) module events.

(** ** The dependencies *)

Definition makeActionDependency (moduleName : val) : val :=
  obj_lit [("module_name", moduleName); ("type", VStr DependencyType.ToMakeAction)].

(** [if (!module.dynamic_dependencies.find(p)) push(...)] *)
Definition requireDependency (p : val → res bool) (moduleName : val) (module : val) : res val :=
  update_path module ["dynamic_dependencies"] (λ deps,
    found ← hasM p deps;
    if (found : bool) then Ok deps else push deps (makeActionDependency moduleName)).

(** Whether an action of the module of [dep] is used by an event. *)
Definition lookupDepInEventAction (module dep : val) : res bool :=
  names ← eventNames module;
  someM (λ eventName,
    actions ← get_path module (actionsPath eventName);
    l ← as_array actions;
    l ← filterM (λ item, moduleName ← get dep "module_name"; isOfModule moduleName item) l;
    Ok (bool_decide (l ≠ []))) names.

Definition keepsDependency (module dep : val) : res bool :=
  type ← get dep "type";
  if negb (is_str type DependencyType.ToMakeAction) then Ok true
  else
    moduleName ← get dep "module_name";
    if is_str moduleName THIS_MODULE_NAME then Ok false else lookupDepInEventAction module dep.

Definition clearDynamicDependencies (module : val) : res val :=
  update_path module ["dynamic_dependencies"] (filterArr (keepsDependency module)).

(** ** Which events an action can be assigned to

    An event must provide every field the action needs.  [new Set] of
    [undefined] or [null] is empty. *)
Definition setOf (v : val) : res (list string) :=
  if is_nullish v then Ok [] else to_strings v.

(** [difference(module.default_event_config[eventName].fields, action?.config.fields)] *)
Definition neededFields (module : val) (eventName : string) (action : val) : res (list string) :=
  provided ← get_path module ["default_event_config"; eventName; "fields"];
  needed ← getq_path action ["config"; "fields"];
  provided ← setOf provided;
  needed ← setOf needed;
  Ok (difference provided needed).

Definition getEventAvailability (module : val) (eventName : string) (action : val) : res bool :=
  missing ← neededFields module eventName action;
  Ok (bool_decide (missing = [])).

(** Named for what it is used as: [true] when no event has the fields. *)
Definition getActionAvailability (module action : val) : res bool :=
  config ← getq module "default_event_config";
  names ← Object_keys config;
  some ← someM (λ eventName, getEventAvailability module eventName action) names;
  Ok (negb some).

(** ** The dialog that assigns one action to many events

    [libs/shared/src/lib/components/assigning-actions-master]: on the first
    page an action is selected in a tree, on the second page the events it is
    assigned to.  The state of the dialog are the lists of names on the second
    page, the selected action and the tree; the subjects of the component hold
    their last value, so a subscription that takes one value sees the current
    one.  One subscription waits: entering the second page subscribes to the
    lists and takes the first moment in which one of them is not empty. *)

(** ** Order of titles

    [a.localeCompare(b, 'en')] and [toLowerCase()] are tables of the engine. *)
Class Collation := {
  localeCompare : string → string → Z;
  toLowerCase : string → string
}.

Section sorting.
Context `{Collation}.

Definition before {A} (p q : string * A) : Prop := (localeCompare p.1 q.1 ≤ 0)%Z.

#[export] Instance before_dec {A} (p q : string * A) : Decision (before p q).
Proof. unfold before. apply _. Defined.

(** [arr.sort((a, b) => title(a).localeCompare(title(b), 'en'))]: titles are
    read when there is something to compare.  Titles that are not strings are
    not represented. *)
Definition sortByTitle {A} (title : A → res val) (l : list A) : res (list A) :=
  if length l <=? 1 then Ok l
  else
    titled ← mapM (λ x,
      t ← title x;
      match t with VStr s => Ok (s, x) | _ => Throw Unsupported end) l;
    Ok (merge_sort before titled).*2.
End sorting.

(** ** Actions that can be assigned *)

Inductive ActionTreeNode :=
| ModuleNode (level : Z) (module : val) (children : list ActionTreeNode)
| ActionNode (level : Z) (action module : val) (unavailable : bool).

Inductive ActionFilterKind := All | AvailableForAssigning.
Inductive ActionGroupingKind := ByModule | No.

#[export] Instance ActionFilterKind_eq_dec : EqDecision ActionFilterKind.
Proof. solve_decision. Defined.

Section tree.
Context `{Collation}.
(** [languageService.lang] and [transloco.translate]. *)
Context (lang : string) (translate : string → string).

Definition sortActionTreeNodes (l : list ActionTreeNode) : res (list ActionTreeNode) :=
  sortByTitle (λ node,
    match node with
    | ModuleNode _ module _ => get_path module ["locale"; "module"; lang; "title"]
    | ActionNode _ action _ _ => getq_path action ["locale"; lang; "title"]
    end) l.

Definition isShown (filter : ActionFilterKind) (node : ActionTreeNode) : bool :=
  match filter, node with
  | All, _ => true
  | AvailableForAssigning, ActionNode _ _ _ unavailable => negb unavailable
  | AvailableForAssigning, ModuleNode _ _ children => bool_decide (children ≠ [])
  end.

(** [actions.find(({ name }) => name === actionName)] *)
Fixpoint findNamed (actionName : val) (l : list val) : res val :=
  match l with
  | [] => Ok VUndef
  | x :: l => same ← isNamed actionName x; if (same : bool) then Ok x else findNamed actionName l
  end.

Definition actionNode (this_module : val) (actions : list val) (module : val) (actionName : string) :
    res ActionTreeNode :=
  action ← findNamed (VStr actionName) actions;
  unavailable ← getActionAvailability this_module action;
  Ok (ActionNode 1 action module unavailable).

Definition moduleNode (this_module : val) (actions : list val) (filter : ActionFilterKind)
    (module : val) : res ActionTreeNode :=
  names ← (c ← get module "default_action_config"; Object_keys c);
  nodes ← mapM (actionNode this_module actions module) names;
  children ← sortActionTreeNodes (List.filter (isShown filter) nodes);
  Ok (ModuleNode 0 module children).

(** Another module that has actions. *)
Definition offersActions (this_module module : val) : res bool :=
  names ← (c ← get module "default_action_config"; Object_keys c);
  if bool_decide (names = []) then Ok false
  else if negb (truthy this_module) then Ok false
  else
    name ← get_path this_module ["info"; "name"];
    other ← get_path module ["info"; "name"];
    Ok (negb (strict_eq name other)).

Definition logText : val :=
  VStr (translate "shared.Shared.ModuleConfig.ListItemText.LogToDb").
Definition loggingText : val :=
  VStr (translate "shared.Shared.ModuleConfig.ListItemText.Logging").

Definition inLanguages (text : val) : val :=
  obj_lit ((λ l, (l, obj_lit [("title", text); ("description", text)])) <$> LANGUAGES).

(** The action that logs an event, offered as an action of a module "Logging". *)
Definition logAction : val :=
  obj_lit [("config", obj_lit [("priority", vint 10); ("fields", VArr [])]);
           ("locale", inLanguages logText);
           ("module_name", VStr THIS_MODULE_NAME);
           ("module_os", VObj []);
           ("name", VStr LOG_TO_DB)].

Definition loggingNode (this_module : val) : res ActionTreeNode :=
  locale ← get this_module "locale";
  let module := spread this_module [("locale", spread locale [("module", inLanguages loggingText)])] in
  unavailable ← getActionAvailability this_module logAction;
  Ok (ModuleNode 0 module [ActionNode 1 logAction module unavailable]).

(** [actionsWithModulesTree$], from the modules and actions of the store. *)
Definition actionsWithModulesTree (this_module modules actions : val) (filter : ActionFilterKind) :
    res (list ActionTreeNode) :=
  modules ← as_array modules;
  actions ← as_array actions;
  modules ← filterM (offersActions this_module) modules;
  nodes ← mapM (moduleNode this_module actions filter) modules;
  nodes ← sortActionTreeNodes (List.filter (isShown filter) nodes);
  logging ← loggingNode this_module;
  Ok (logging :: nodes).

Definition childrenOf (node : ActionTreeNode) : list ActionTreeNode :=
  match node with ModuleNode _ _ children => children | ActionNode _ _ _ _ => [] end.

Definition atTop (node : ActionTreeNode) : ActionTreeNode :=
  match node with
  | ModuleNode _ module children => ModuleNode 0 module children
  | ActionNode _ action module unavailable => ActionNode 0 action module unavailable
  end.

(** [onlyActionsTree$] *)
Definition onlyActionsTree (tree : list ActionTreeNode) : res (list ActionTreeNode) :=
  sortActionTreeNodes (atTop <$> (tree ≫= childrenOf)).

(** What a grouping shows and which node it selects; both trees are computed
    whichever is shown. *)
Definition shownTree (grouping : ActionGroupingKind) (trees : list ActionTreeNode * list ActionTreeNode) :
    list ActionTreeNode :=
  match grouping with ByModule => trees.1 | No => trees.2 end.

Definition firstNode (grouping : ActionGroupingKind) (shown : list ActionTreeNode) :
    option ActionTreeNode :=
  match grouping with
  | ByModule => node ← head shown; head (childrenOf node)
  | No => head shown
  end.
End tree.

(** ** The dialog *)

Record Master := {
  module : val; (* @Input *)
  actionsFilter : ActionFilterKind;
  actionsGrouping : ActionGroupingKind;
  actionsDataSource : list ActionTreeNode;
  selectedActionTreeNode : option ActionTreeNode;
  step : Z;
  availableEvents : list string;
  unavailableEvents : list string;
  assignedEvents : list string;
  searchEvents : string;
  searchSelectedEvents : string;
  eventsNodeFromNotSelected : list string;
  eventsNodeFromSelected : list string;
  lastSelectedEvent : val;
  trees : list (list ActionTreeNode * list ActionTreeNode); (* snapshots of the subscriptions to the grouping *)
  waiting : nat; (* subscriptions of [setSelectedEvents] that have not taken a value *)
  opened : bool;
  emitted : list val (* values of [saveModule] *)
}.

#[export] Instance eta_Master : Eta Master := ltac:(eta_of Master).

(** The dialog before it is opened. *)
Definition newMaster (m : val) : Master :=
  {| module := m; actionsFilter := All; actionsGrouping := ByModule; actionsDataSource := [];
     selectedActionTreeNode := None; step := 1; availableEvents := []; unavailableEvents := [];
     assignedEvents := []; searchEvents := ""; searchSelectedEvents := "";
     eventsNodeFromNotSelected := []; eventsNodeFromSelected := []; lastSelectedEvent := VUndef;
     trees := []; waiting := 0; opened := false; emitted := [] |}.

Definition LAST_STEP : Z := 2.

Section dialog.
Context `{Collation}.
Context (lang : string) (translate : string → string).

(** [this.selectedActionTreeNode.data.action] *)
Definition selectedAction (d : Master) : res val :=
  match selectedActionTreeNode d with
  | None => Throw TypeError
  | Some (ModuleNode _ _ _) => Ok VUndef
  | Some (ActionNode _ action _ _) => Ok action
  end.

Definition sortEventsListNodes (module : val) (events : list string) : res (list string) :=
  sortByTitle (λ eventName, get_path module ["locale"; "events"; eventName; lang; "title"]) events.

(** *** The lists as they are shown *)

Definition matches (module : val) (search eventName : string) : res bool :=
  if bool_decide (search = "") then Ok true
  else if contains (toLowerCase search) (toLowerCase eventName) then Ok true
  else
    title ← get_path module ["locale"; "events"; eventName; lang; "title"];
    title ← as_string title;
    Ok (contains (toLowerCase search) (toLowerCase title)).

Definition processEvent (module : val) (search : string) (events : list string) :
    res (list string) :=
  shown ← filterM (matches module search) events;
  sortEventsListNodes module shown.

Definition processedAvailableEvents (d : Master) : res (list string) :=
  processEvent (module d) (searchEvents d) (availableEvents d).
Definition processedUnavailableEvents (d : Master) : res (list string) :=
  processEvent (module d) (searchEvents d) (unavailableEvents d).
Definition processedSelectedEvents (d : Master) : res (list string) :=
  processEvent (module d) (searchSelectedEvents d) (assignedEvents d).

Definition or_blank (o : option string) : string := default "" o.

(** [v1[0] || v2[0]] *)
Definition firstEvent (v1 v2 : list string) : val :=
  from_option VStr VUndef
    (match head v1 with
     | Some e => if bool_decide (e = "") then head v2 else Some e
     | None => head v2
     end).

(** The subscriptions of [setSelectedEvents] that wait see the lists: when
    one is not empty they select its first event. *)
Definition notify (d : Master) : res Master :=
  if waiting d =? 0 then Ok d
  else
    v1 ← processedAvailableEvents d;
    v2 ← processedUnavailableEvents d;
    if bool_decide (v1 = [] ∧ v2 = []) then Ok d
    else
      Ok { d with lastSelectedEvent := firstEvent v1 v2;
                  eventsNodeFromNotSelected ::= (λ l, l ++ replicate (waiting d) (or_blank (head v1)));
                  waiting := 0 }.

Definition availableEvents_next (l : list string) (d : Master) : res Master :=
  notify { d with availableEvents := l }.
Definition unavailableEvents_next (l : list string) (d : Master) : res Master :=
  notify { d with unavailableEvents := l }.

(** A new search text reaches the available events first. *)
Definition searchEvents_next (s : string) (d : Master) : res Master :=
  let d' := { d with searchEvents := s } in
  if waiting d =? 0 then Ok d'
  else
    v1 ← processedAvailableEvents d';
    v2 ← processedUnavailableEvents d;
    if bool_decide (v1 = [] ∧ v2 = []) then notify d'
    else
      Ok { d' with lastSelectedEvent := firstEvent v1 v2;
                   eventsNodeFromNotSelected ::= (λ l, l ++ replicate (waiting d) (or_blank (head v1)));
                   waiting := 0 }.

(** *** Moving events *)

(** [Array.from(new Set(l))] *)
Definition unique (l : list string) : list string := set_of_list_from [] l.

Definition selectEvents (d : Master) (eventName : string) : res Master :=
  let moving := unique (eventsNodeFromNotSelected d ++ [eventName]) in
  d ← availableEvents_next (list_minus (availableEvents d) moving)
        { d with assignedEvents ::= (λ l, l ++ moving) };
  Ok { d with eventsNodeFromNotSelected := [] }.

Definition unselectEvent (d : Master) (eventName : string) : res Master :=
  let moving := unique (eventsNodeFromSelected d ++ [eventName]) in
  d ← availableEvents_next (availableEvents d ++ moving)
        { d with assignedEvents ::= (λ l, list_minus l moving) };
  Ok { d with eventsNodeFromSelected := [] }.

Definition setEventsData (d : Master) : res Master :=
  names ← eventNames (module d);
  available ← filterM (λ e, a ← selectedAction d; getEventAvailability (module d) e a) names;
  available ← sortEventsListNodes (module d) available;
  d ← availableEvents_next available d;
  unavailable ← filterM (λ e, a ← selectedAction d;
    b ← getEventAvailability (module d) e a; Ok (negb b)) names;
  unavailable ← sortEventsListNodes (module d) unavailable;
  d ← unavailableEvents_next unavailable d;
  Ok { d with assignedEvents := [] }.

(** Whether an event has the selected action. *)
Definition hasSelectedAction (d : Master) (eventName : string) : res bool :=
  actions ← get_path (module d) (actionsPath eventName);
  l ← as_array actions;
  someM (λ item, a ← selectedAction d; actionName ← getq a "name"; isNamed actionName item) l.

Definition setSelectedEvents (d : Master) : res Master :=
  names ← eventNames (module d);
  d ← foldM (λ d e, b ← hasSelectedAction d e; if (b : bool) then selectEvents d e else Ok d) d names;
  notify { d with waiting ::= S }.

(** *** The pages of the dialog *)

Definition next (d : Master) : res Master :=
  if (step d <? LAST_STEP)%Z then setSelectedEvents { d with step ::= Z.add 1 } else Ok d.

Definition back (d : Master) : Master :=
  if (1 <? step d)%Z then { d with step ::= Z.pred } else d.

Definition close (d : Master) : res Master :=
  d ← availableEvents_next [] { d with step := 1%Z; opened := false };
  d ← unavailableEvents_next [] d;
  d ← searchEvents_next "" { d with assignedEvents := [] };
  Ok { d with searchSelectedEvents := ""; lastSelectedEvent := VUndef;
              eventsNodeFromNotSelected := [] }.

(** *** The tree

    The component subscribes to the filter when it is created, which is its
    first [changeFilter]. *)

Definition show (d : Master) (trees : list ActionTreeNode * list ActionTreeNode) : Master :=
  let shown := shownTree (actionsGrouping d) trees in
  { d with actionsDataSource := shown;
           selectedActionTreeNode := firstNode (actionsGrouping d) shown }.

(** Every subscription to the grouping shows its own snapshot, in the order
    of the subscriptions. *)
Definition changeGrouping (grouping : ActionGroupingKind) (d : Master) : Master :=
  let d := { d with actionsGrouping := grouping } in
  foldl show d (trees d).

(** The modules and actions are those of the store at this moment. *)
Definition setActionsData (modules actions : val) (d : Master) : res Master :=
  tree ← actionsWithModulesTree lang translate (module d) modules actions (actionsFilter d);
  only ← onlyActionsTree lang tree;
  Ok (show { d with trees ::= (λ l, l ++ [(tree, only)]) } (tree, only)).

Definition changeFilter (filter : ActionFilterKind) (modules actions : val) (d : Master) :
    res Master :=
  setActionsData modules actions { d with actionsFilter := filter }.

Definition open (modules actions : val) (d : Master) : res Master :=
  d ← setActionsData modules actions (changeGrouping ByModule d);
  d ← setEventsData d;
  Ok { d with opened := true }.

Definition onSelectAction (node : ActionTreeNode) (d : Master) : res Master :=
  setEventsData { d with selectedActionTreeNode := Some node }.

(** *** The buttons that change the module

    The module is emitted, the dialog closes. *)
Definition emit (d : Master) (m : val) : res Master :=
  close { d with emitted ::= (λ l, l ++ [m]) }.

Definition savedModule (module action : val) (events : list string) : res val :=
  actionName ← getq action "name";
  actionModuleName ← getq action "module_name";
  m ← withoutAction actionName (clone module);
  m ← assignAll action events m;
  m ← requireDependency (isOfModule actionModuleName) actionModuleName m;
  clearDynamicDependencies m.

Definition save (d : Master) : res Master :=
  action ← selectedAction d;
  m ← savedModule (module d) action (assignedEvents d);
  emit d m.

Definition isMakeActionOf (moduleName dep : val) : res bool :=
  same ← isOfModule moduleName dep;
  if negb same then Ok false
  else type ← get dep "type"; Ok (is_str type DependencyType.ToMakeAction).

Definition moduleForAvailable (module action : val) (events : list string) : res val :=
  actionModuleName ← getq action "module_name";
  m ← assignAll action events (clone module);
  m ← requireDependency (isMakeActionOf actionModuleName) actionModuleName m;
  clearDynamicDependencies m.

Definition assignToAvailableEvents (d : Master) : res Master :=
  action ← selectedAction d;
  m ← moduleForAvailable (module d) action (availableEvents d);
  emit d m.

Definition moduleWithout (module action : val) : res val :=
  actionName ← getq action "name";
  m ← withoutAction actionName (clone module);
  clearDynamicDependencies m.

Definition removeFromAllEvents (d : Master) : res Master :=
  action ← selectedAction d;
  m ← moduleWithout (module d) action;
  emit d m.

(** Whether the button that removes the action is shown. *)
Definition hasEventsWithSelectedAction (d : Master) : res bool :=
  action ← selectedAction d;
  actionName ← getq action "name";
  if negb (truthy actionName) then Ok false
  else
    names ← eventNames (module d);
    someM (hasSelectedAction d) names.

(** *** Details of the last selected event *)

Fixpoint findModule (moduleName : val) (l : list val) : res val :=
  match l with
  | [] => Ok VUndef
  | x :: l => n ← get_path x ["info"; "name"];
              if strict_eq n moduleName then Ok x else findModule moduleName l
  end.

Definition eventActionItem (this_module : val) (modules actions : list val) (action : val) :
    res val :=
  name ← get action "name";
  found ← findNamed name actions;
  moduleName ← get action "module_name";
  m ← (if is_str moduleName THIS_MODULE_NAME then Ok this_module else findModule moduleName modules);
  Ok (spread action [("action", found); ("module", m)]).

(** [lastSelectedEventActions$] *)
Definition lastSelectedEventActions (d : Master) (modules actions : list val) : res val :=
  config ← get (module d) "current_event_config";
  event ← get config (to_string (lastSelectedEvent d));
  if is_nullish event then Ok VUndef
  else
    items ← (a ← get event "actions"; as_array a);
    VArr <$> mapM (eventActionItem (module d) modules actions) items.
End dialog.

(** ** The panel that assigns actions to one event

    [libs/shared/src/lib/components/assigning-actions-to-event]: the panel
    keeps the names of the selected actions; saving replaces the actions of
    the event by them. *)

Record ActionListItem := {
  item_action : val; (* action *)
  item_module : val; (* module *)
  item_neededFields : list val; (* neededFields *)
  item_unavailable : bool (* unavailable *)
}.

Record ModuleListItem := {
  label : option val;
  list_module : val; (* module *)
  actions : list ActionListItem
}.

Record ToEvent := {
  panel_module : val; (* module *)
  eventName : string;
  selected : list string;
  searchActions : string;
  focusedAction : option ActionListItem;
  saved : list val (* values of [saveModule] *)
}.

#[export] Instance eta_ToEvent : Eta ToEvent := ltac:(eta_of ToEvent).

Section panel.
Context `{Collation}.
Context (lang : string) (translate : string → string).

(** ** The list of actions *)

(** Whether the title or the name of an action contains the search text. *)
Definition isFound (search : string) (action : val) : res bool :=
  title ← (t ← get_path action ["locale"; lang; "title"]; as_string t);
  if contains (toLowerCase search) (toLowerCase title) then Ok true
  else
    name ← (n ← get action "name"; as_string n);
    Ok (contains (toLowerCase search) (toLowerCase name)).

(** The fields of the store that the action needs and its module provides. *)
Definition isNeeded (names : list string) (module field : val) : res bool :=
  name ← get field "name";
  fieldModule ← get field "module_name";
  if existsb (λ n, strict_eq name (VStr n)) names then
    moduleName ← get_path module ["info"; "name"];
    Ok (strict_eq fieldModule moduleName)
  else Ok false.

(** Unlike the dialog, [action.config] is read without [?.]. *)
Definition getActionListItem (d : ToEvent) (module : val) (allActions fields : list val)
    (actionName : string) : res ActionListItem :=
  action ← findNamed (VStr actionName) allActions;
  provided ← get_path (panel_module d) ["default_event_config"; eventName d; "fields"];
  needed ← get_path action ["config"; "fields"];
  provided ← setOf provided;
  needed ← setOf needed;
  let names := difference provided needed in
  neededFields ← filterM (isNeeded names module) fields;
  Ok {| item_action := action; item_module := module; item_neededFields := neededFields;
        item_unavailable := bool_decide (names ≠ []) |}.

Definition getActionListItems (d : ToEvent) (module : val) (allActions fields : list val)
    (search : string) : res (list ActionListItem) :=
  names ← (c ← get module "default_action_config"; Object_keys c);
  found ← filterM (λ n, action ← findNamed (VStr n) allActions; isFound search action) names;
  mapM (getActionListItem d module allActions fields) found.

Definition sortActionListItems : list ActionListItem → res (list ActionListItem) :=
  sortByTitle (λ item, get_path (item_action item) ["locale"; lang; "title"]).

Definition sortModuleListItems : list ModuleListItem → res (list ModuleListItem) :=
  sortByTitle (λ item, get_path (list_module item) ["locale"; "module"; lang; "title"]).

Definition getLoggingModuleListItem (currentModule : val) (search : string) :
    res ModuleListItem :=
  name ← get_path currentModule ["info"; "name"];
  os ← get_path currentModule ["info"; "os"];
  let action := obj_lit [("name", VStr LOG_TO_DB); ("module_name", name); ("module_os", os);
                         ("config", obj_lit [("fields", VArr []); ("priority", vint 10)]);
                         ("locale", inLanguages (logText translate))] in
  let item := {| item_action := action; item_module := currentModule; item_neededFields := [];
                 item_unavailable := false |} in
  found ← isFound search action;
  Ok {| label := Some (loggingText translate); list_module := currentModule;
        actions := if (found : bool) then [item] else [] |}.

Definition isThisModule (d : ToEvent) (module : val) : res bool :=
  name ← get_path (panel_module d) ["info"; "name"];
  other ← get_path module ["info"; "name"];
  Ok (strict_eq name other).

Fixpoint findThis (d : ToEvent) (l : list val) : res val :=
  match l with
  | [] => Ok VUndef
  | x :: l => b ← isThisModule d x; if (b : bool) then Ok x else findThis d l
  end.

Definition moduleListItem (d : ToEvent) (allActions fields : list val) (search : string)
    (module : val) : res ModuleListItem :=
  items ← getActionListItems d module allActions fields search;
  items ← sortActionListItems items;
  Ok {| label := None; list_module := module; actions := items |}.

(** [actionsWithModulesTree$]; no list before the modules are there. *)
Definition moduleList (d : ToEvent) (modules allActions fields : list val) (search : string) :
    res (option (list ModuleListItem)) :=
  if bool_decide (modules = []) then Ok None
  else
    currentModule ← findThis d modules;
    rest ← filterM (λ m, b ← isThisModule d m; Ok (negb b)) modules;
    logging ← getLoggingModuleListItem currentModule search;
    rest ← filterM (λ m, names ← (c ← get m "default_action_config"; Object_keys c);
                         Ok (bool_decide (names ≠ []))) rest;
    items ← mapM (moduleListItem d allActions fields search) rest;
    items ← sortModuleListItems items;
    Ok (Some (logging :: items)).

(** ** Selecting *)

(** [arr.map(({ name }) => name)]; names that are not strings are not
    represented. *)
Definition namesOf (arr : val) : res (list string) :=
  l ← as_array arr;
  mapM (λ item, n ← get item "name"; match n with VStr s => Ok s | _ => Throw Unsupported end) l.

(** The first list that arrives after the panel is opened. *)
Definition focusFirst (tree : list ModuleListItem) (d : ToEvent) : ToEvent :=
  { d with focusedAction := item ← head tree; head (actions item) }.

Definition openPanel (name : string) (d : ToEvent) : res ToEvent :=
  names ← (a ← get_path (panel_module d) (actionsPath name); namesOf a);
  Ok { d with eventName := name; selected := names }.

Definition resetToDefault (d : ToEvent) : res ToEvent :=
  event ← get_path (panel_module d) ["default_event_config"; eventName d];
  acts ← getq event "actions";
  names ← (if truthy acts then namesOf acts else Ok []);
  Ok { d with selected := names }.

Definition changeSelected (isSelected : bool) (value : string) (d : ToEvent) : ToEvent :=
  { d with selected ::= (λ l, if isSelected then unique (l ++ [value])
                              else List.filter (λ x, negb (String.eqb x value)) l) }.

Definition isSelected (d : ToEvent) (actionName : string) : bool :=
  includes actionName (selected d).

(** ** Saving *)

Definition updateDynamicDependencies (module : val) (actionName : string) (action : val) : res val :=
  if bool_decide (actionName = LOG_TO_DB) then Ok module
  else
    moduleName ← get action "module_name";
    requireDependency (isOfModule moduleName) moduleName module.

Definition selectedItem (actionName : string) (action : val) : res val :=
  if bool_decide (actionName = LOG_TO_DB) then Ok LOG_TO_DB_ACTION
  else
    fields ← get_path action ["config"; "fields"];
    priority ← get_path action ["config"; "priority"];
    module_name ← get action "module_name";
    Ok (obj_lit [("name", VStr actionName); ("fields", fields); ("priority", priority);
                 ("module_name", module_name)]).

(** One round of the map over the selected names: the module with its
    dependencies, and the items so far. *)
Definition saveRound (allActions : list val) (mi : val * list val) (actionName : string) :
    res (val * list val) :=
  action ← findNamed (VStr actionName) allActions;
  m ← updateDynamicDependencies mi.1 actionName action;
  item ← selectedItem actionName action;
  Ok (m, mi.2 ++ [item]).

Definition savedEvent (module : val) (name : string) (names : list string) (allActions : list val) :
    res val :=
  mi ← foldM (saveRound allActions) (clone module, []) names;
  m ← update_path mi.1 ["current_event_config"; name] (λ event,
    set event "actions" (VArr mi.2));
  clearDynamicDependencies m.

Definition savePanel (allActions : list val) (d : ToEvent) : res ToEvent :=
  m ← savedEvent (panel_module d) (eventName d) (selected d) allActions;
  Ok { d with saved ::= (λ l, l ++ [m]) }.

(** Closing empties the search field. *)
Definition closePanel (d : ToEvent) : ToEvent := { d with searchActions := "" }.
End panel.
