(* ===== verification/EventActionTheorems.v ===== *)
(** * What assigning actions does to a module

    First the operations as functions on lists of actions and dependencies,
    then the properties of the dialog and the panel. *)

From S2P Require Import Prelude JsValue JsJson SharedUtils NameMaps ModuleEditFields.
From S2P Require Import EventActions.

(** ** What the operations on assigned actions do to a module

    [module_wf] is the part of a module that the dialogs read and write.  The
    operations are reduced to functions on the lists of actions
    ([actionsOf]) and of dependencies ([depsOf]); [edited] says that nothing
    else changed. *)

(** ** The part of a module the dialogs work on *)

Definition configOf (m : val) : val := prop m "current_event_config".
Definition eventsOf (m : val) : list string := keys_of (configOf m).
Definition elements (v : val) : list val := match v with VArr l => l | _ => [] end.
Definition actionsOf (m : val) (e : string) : list val := elements (m @@ actionsPath e).
Definition depsOf (m : val) : list val := elements (prop m "dynamic_dependencies").

Definition objects (v : val) : Prop := match v with VArr l => Forall is_obj l | _ => False end.

Record module_wf (m : val) : Prop := {
  module_obj : is_obj m;
  config_wf : ∃ o, configOf m = VObj o ∧ obj_wf o;
  events_wf : ∀ e, e ∈ eventsOf m → is_obj (prop (configOf m) e) ∧ objects (m @@ actionsPath e);
  deps_wf : objects (prop m "dynamic_dependencies")
}.

Lemma objects_elements v : objects v → v = VArr (elements v) ∧ Forall is_obj (elements v).
Proof. destruct v; naive_solver. Qed.

Lemma config_obj m : module_wf m → is_obj (configOf m).
Proof. intros [_ (o & Ho & _) _ _]. by exists o. Qed.

Lemma eventNames_eq m : module_wf m → eventNames m = Ok (eventsOf m).
Proof.
  intros Hm. unfold eventNames. rewrite get_is_obj by apply Hm. cbn [mbind res_bind].
  destruct (config_wf m Hm) as (o & Ho & _). unfold eventsOf. fold (configOf m). by rewrite Ho.
Qed.

Lemma get_actions m e :
  module_wf m → e ∈ eventsOf m →
  get_path m (actionsPath e) = Ok (VArr (actionsOf m e)) ∧ Forall is_obj (actionsOf m e).
Proof.
  intros Hm He. destruct (events_wf m Hm e He) as [Ho Ha]. unfold actionsOf.
  destruct (objects_elements _ Ha) as [Heq Hf]. split; [|done]. rewrite <-Heq.
  cbn [actionsPath get_path at_path]. rewrite get_is_obj by apply Hm. cbn [mbind res_bind].
  rewrite get_is_obj by (by apply config_obj). cbn [mbind res_bind]. fold (configOf m).
  by rewrite get_is_obj.
Qed.

Lemma get_deps m :
  module_wf m → get m "dynamic_dependencies" = Ok (VArr (depsOf m)) ∧ Forall is_obj (depsOf m).
Proof.
  intros Hm. destruct (objects_elements _ (deps_wf m Hm)) as [Heq Hf]. unfold depsOf. split; [|done].
  rewrite <-Heq. apply get_is_obj, Hm.
Qed.

(** ** Writing a list of actions or the dependencies *)

Definition setActions (m : val) (e : string) (l : list val) : val :=
  put m "current_event_config"
    (put (configOf m) e (put (prop (configOf m) e) "actions" (VArr l))).

Definition setDeps (m : val) (l : list val) : val := put m "dynamic_dependencies" (VArr l).

Lemma update_actions m e f l :
  module_wf m → e ∈ eventsOf m → f (VArr (actionsOf m e)) = Ok (VArr l) →
  update_path m (actionsPath e) f = Ok (setActions m e l).
Proof.
  intros Hm He Hf. destruct (events_wf m Hm e He) as [Ho _].
  destruct (get_actions m e Hm He) as [Hg _].
  cbn [actionsPath get_path update_path] in *.
  rewrite get_is_obj in Hg |- * by apply Hm. cbn [mbind res_bind] in *. fold (configOf m) in *.
  rewrite get_is_obj in Hg |- * by (by apply config_obj). cbn [mbind res_bind] in *.
  destruct (get (prop (configOf m) e) "actions") as [x|]; [|done]. cbn [mbind res_bind] in *.
  injection Hg as ->. rewrite Hf. cbn [mbind res_bind].
  rewrite (set_put (prop (configOf m) e)) by done. cbn [mbind res_bind].
  rewrite (set_put (configOf m)) by (by apply config_obj). cbn [mbind res_bind].
  by rewrite set_put by apply Hm.
Qed.

Lemma update_deps m f l :
  module_wf m → f (VArr (depsOf m)) = Ok (VArr l) →
  update_path m ["dynamic_dependencies"] f = Ok (setDeps m l).
Proof.
  intros Hm Hf. cbn [update_path]. rewrite (proj1 (get_deps m Hm)). cbn [mbind res_bind].
  rewrite Hf. cbn [mbind res_bind]. by apply set_put, Hm.
Qed.

Lemma config_setActions m e l :
  module_wf m → configOf (setActions m e l) = put (configOf m) e (put (prop (configOf m) e) "actions" (VArr l)).
Proof. intros Hm. unfold setActions, configOf at 1. rewrite prop_put by apply Hm. done. Qed.

Lemma events_put v e x k : is_obj v → k ∈ keys_of (put v e x) ↔ k = e ∨ k ∈ keys_of v.
Proof. intros [o ->]. apply obj_keys_set. Qed.

Lemma events_setActions m e l e' :
  module_wf m → e ∈ eventsOf m → e' ∈ eventsOf (setActions m e l) ↔ e' ∈ eventsOf m.
Proof.
  intros Hm He. unfold eventsOf at 1. rewrite config_setActions, events_put by (done || by apply config_obj).
  split; [intros [->|]; done | by right].
Qed.

(** Reading below an event after its actions were written. *)
Lemma event_setActions m e l e' k :
  module_wf m → e ∈ eventsOf m →
  setActions m e l @@ ["current_event_config"; e'; k] =
    if decide (e' = e ∧ k = "actions") then VArr l else m @@ ["current_event_config"; e'; k].
Proof.
  intros Hm He. destruct (events_wf m Hm e He) as [Ho _]. cbn [at_path].
  change (prop (setActions m e l) "current_event_config") with (configOf (setActions m e l)).
  rewrite config_setActions by done. rewrite prop_put by (by apply config_obj).
  destruct (decide (e' = e)) as [->|Hne].
  - rewrite prop_put by done. destruct (decide (k = "actions")) as [->|Hk].
    + by rewrite decide_True.
    + rewrite decide_False by naive_solver. done.
  - rewrite decide_False by naive_solver. done.
Qed.

Lemma actionsOf_setActions m e l e' :
  module_wf m → e ∈ eventsOf m →
  actionsOf (setActions m e l) e' = if decide (e' = e) then l else actionsOf m e'.
Proof.
  intros Hm He. unfold actionsOf, actionsPath. rewrite event_setActions by done.
  destruct (decide (e' = e)); [by rewrite decide_True | by rewrite decide_False by naive_solver].
Qed.

Lemma prop_setActions m e l k :
  module_wf m → k ≠ "current_event_config" → prop (setActions m e l) k = prop m k.
Proof. intros Hm Hk. unfold setActions. rewrite prop_put by apply Hm. by rewrite decide_False. Qed.

Lemma setActions_wf m e l :
  module_wf m → e ∈ eventsOf m → Forall is_obj l → module_wf (setActions m e l).
Proof.
  intros Hm He Hl. destruct (events_wf m Hm e He) as [Hoe _]. constructor.
  - by apply put_is_obj, Hm.
  - rewrite config_setActions by done. destruct (config_wf m Hm) as (o & Ho & Hwf).
    rewrite Ho. eexists. split; [done|]. by apply obj_set_wf.
  - intros e' He'%events_setActions; [|done..]. destruct (events_wf m Hm e' He') as [Ho' Ha'].
    split.
    + rewrite config_setActions by done. rewrite prop_put by (by apply config_obj).
      case_decide; [by apply put_is_obj|done].
    + unfold actionsPath in *. rewrite event_setActions by done. by case_decide.
  - by rewrite prop_setActions by done; apply Hm.
Qed.

Lemma prop_setDeps m l k :
  module_wf m → k ≠ "dynamic_dependencies" → prop (setDeps m l) k = prop m k.
Proof. intros Hm Hk. unfold setDeps. rewrite prop_put by apply Hm. by rewrite decide_False. Qed.

Lemma depsOf_setDeps m l : module_wf m → depsOf (setDeps m l) = l.
Proof. intros Hm. unfold depsOf, setDeps. by rewrite prop_put by apply Hm. Qed.

Lemma config_setDeps m l : module_wf m → configOf (setDeps m l) = configOf m.
Proof. intros Hm. by apply prop_setDeps. Qed.

Lemma setDeps_wf m l : module_wf m → Forall is_obj l → module_wf (setDeps m l).
Proof.
  intros Hm Hl. pose proof (config_setDeps m l Hm) as Hc. constructor.
  - by apply put_is_obj, Hm.
  - rewrite Hc. apply Hm.
  - intros e. unfold eventsOf. rewrite Hc. intros He. destruct (events_wf m Hm e He) as [Ho Ha].
    split; [done|]. unfold actionsPath in *. cbn [at_path] in *. fold (configOf (setDeps m l)). by rewrite Hc.
  - unfold setDeps. rewrite prop_put by apply Hm. done.
Qed.

(** ** Nothing else changes *)

Record edited (m m' : val) : Prop := {
  edited_wf : module_wf m';
  edited_events : ∀ e, e ∈ eventsOf m' ↔ e ∈ eventsOf m;
  edited_event : ∀ e k, k ≠ "actions" →
    m' @@ ["current_event_config"; e; k] = m @@ ["current_event_config"; e; k];
  edited_rest : ∀ k, k ≠ "current_event_config" → k ≠ "dynamic_dependencies" → prop m' k = prop m k
}.

Lemma edited_refl m : module_wf m → edited m m.
Proof. by constructor. Qed.

Lemma edited_trans m1 m2 m3 : edited m1 m2 → edited m2 m3 → edited m1 m3.
Proof.
  intros [_ E1 V1 R1] [W2 E2 V2 R2]. constructor; [done| | |].
  - intros e. by rewrite E2.
  - intros e k Hk. by rewrite V2, V1.
  - intros k H1 H2. by rewrite R2, R1.
Qed.

Lemma edited_setActions m e l :
  module_wf m → e ∈ eventsOf m → Forall is_obj l → edited m (setActions m e l).
Proof.
  intros Hm He Hl. constructor.
  - by apply setActions_wf.
  - intros e'. by apply events_setActions.
  - intros e' k Hk. rewrite event_setActions by done. by rewrite decide_False by naive_solver.
  - intros k Hk _. by apply prop_setActions.
Qed.

Lemma edited_setDeps m l : module_wf m → Forall is_obj l → edited m (setDeps m l).
Proof.
  intros Hm Hl. pose proof (config_setDeps m l Hm) as Hc. constructor.
  - by apply setDeps_wf.
  - intros e. unfold eventsOf. by rewrite Hc.
  - intros e k _. cbn [at_path]. fold (configOf (setDeps m l)) (configOf m). by rewrite Hc.
  - intros k _ Hk. by apply prop_setDeps.
Qed.

Lemma actionsOf_setDeps m l e : module_wf m → actionsOf (setDeps m l) e = actionsOf m e.
Proof.
  intros Hm. unfold actionsOf, actionsPath. cbn [at_path]. fold (configOf (setDeps m l)) (configOf m).
  by rewrite config_setDeps.
Qed.

(** ** Loops over events *)

(** A loop that applies [g] to the actions of the events of a list, where
    applying [g] again changes nothing. *)
Lemma edit_loop (step : val → string → res val) (g : list val → list val) names m :
  (∀ m e, module_wf m → e ∈ eventsOf m → step m e = Ok (setActions m e (g (actionsOf m e)))) →
  (∀ l, Forall is_obj l → Forall is_obj (g l)) → (∀ l, g (g l) = g l) →
  module_wf m → (∀ e, e ∈ names → e ∈ eventsOf m) →
  ∃ m', foldM step m names = Ok m' ∧ edited m m' ∧ depsOf m' = depsOf m ∧
    ∀ e, actionsOf m' e = if decide (e ∈ names) then g (actionsOf m e) else actionsOf m e.
Proof.
  intros Hstep Hg Hgg. revert m. induction names as [|e names IH]; intros m Hm Hn; cbn [foldM].
  - exists m. split; [done|]. split; [by apply edited_refl|]. split; [done|].
    intros e. by rewrite decide_False by apply not_elem_of_nil.
  - assert (e ∈ eventsOf m) as He by (apply Hn, list_elem_of_here).
    rewrite Hstep by done. cbn [mbind res_bind].
    assert (Forall is_obj (g (actionsOf m e))) as Hf by (by apply Hg, get_actions).
    destruct (IH (setActions m e (g (actionsOf m e)))) as (m' & -> & Hed & Hd & Ha).
    + by apply setActions_wf.
    + intros e' He'. apply events_setActions; [done..|]. by apply Hn, list_elem_of_further.
    + exists m'. split; [done|]. split; [eapply edited_trans; [by apply edited_setActions|done]|].
      split; [rewrite Hd; unfold depsOf; by rewrite prop_setActions|].
      intros e'. rewrite Ha, actionsOf_setActions by done.
      destruct (decide (e' = e)) as [->|Hne].
      * rewrite Hgg, (decide_True (P := e ∈ e :: names)) by apply list_elem_of_here. by case_decide.
      * destruct (decide (e' ∈ names)) as [Hin|Hni].
        -- by rewrite decide_True by by apply list_elem_of_further.
        -- rewrite decide_False; [done|]. by intros [->|]%elem_of_cons.
Qed.

(** ** The operations *)

Definition named (n item : val) : bool := strict_eq (prop item "name") n.
Definition ofModule (n item : val) : bool := strict_eq (prop item "module_name") n.

Lemma isNamed_eq n item : is_obj item → isNamed n item = Ok (named n item).
Proof. intros Ho. unfold isNamed. by rewrite get_is_obj. Qed.

Lemma isOfModule_eq n item : is_obj item → isOfModule n item = Ok (ofModule n item).
Proof. intros Ho. unfold isOfModule. by rewrite get_is_obj. Qed.

Lemma hasM_eq p f l :
  (∀ x, is_obj x → p x = Ok (f x)) → Forall is_obj l → hasM p (VArr l) = Ok (existsb f l).
Proof.
  intros Hp Hl. unfold hasM. cbn [as_array mbind res_bind]. apply someM_pure.
  intros x Hx. apply Hp. by eapply Forall_forall in Hl.
Qed.

Lemma filterArr_eq p f l :
  (∀ x, is_obj x → p x = Ok (f x)) → Forall is_obj l →
  filterArr p (VArr l) = Ok (VArr (List.filter f l)).
Proof.
  intros Hp Hl. unfold filterArr. cbn [as_array mbind res_bind]. rewrite (filterM_pure p f); [done|].
  intros x Hx. apply Hp. by eapply Forall_forall in Hl.
Qed.

Lemma List_filter_idem {A} (f : A → bool) l : List.filter f (List.filter f l) = List.filter f l.
Proof.
  induction l as [|x l IH]; [done|]. cbn. destruct (f x) eqn:Hf; [|done]. cbn. rewrite Hf. by f_equal.
Qed.

(** The list of an event without an action. *)
Definition without (n : val) (l : list val) : list val := List.filter (λ a, negb (named n a)) l.

(** The list of an event with an action. *)
Definition withItem (n item : val) (l : list val) : list val :=
  if existsb (named n) l then l else l ++ [item].

Lemma withItem_objects n item l : is_obj item → Forall is_obj l → Forall is_obj (withItem n item l).
Proof.
  intros Hi Hl. unfold withItem. destruct (existsb _ l); [done|]. by apply Forall_app; split; [|constructor].
Qed.

Lemma withItem_idem n item l :
  named n item = true → withItem n item (withItem n item l) = withItem n item l.
Proof.
  intros Hn. unfold withItem at 2 3. destruct (existsb (named n) l) eqn:He; unfold withItem.
  - by rewrite He.
  - rewrite existsb_app. cbn. by rewrite Hn, orb_true_r.
Qed.

Lemma withoutAction_ok n m :
  module_wf m →
  ∃ m', withoutAction n m = Ok m' ∧ edited m m' ∧ depsOf m' = depsOf m ∧
    ∀ e, e ∈ eventsOf m → actionsOf m' e = without n (actionsOf m e).
Proof.
  intros Hm. unfold withoutAction. rewrite eventNames_eq by done. cbn [mbind res_bind].
  destruct (edit_loop (λ m eventName, update_path m (actionsPath eventName)
      (filterArr (λ item, same ← isNamed n item; Ok (negb same)))) (without n) (eventsOf m) m)
    as (m' & -> & Hed & Hd & Ha); [| | |done|done|].
  - intros m1 e H1 He. apply update_actions; [done..|].
    apply filterArr_eq; [|by apply get_actions]. intros x Hx. by rewrite isNamed_eq.
  - intros l. apply Forall_List_filter.
  - intros l. apply List_filter_idem.
  - exists m'. split; [done|]. split; [done|]. split; [done|].
    intros e He. by rewrite Ha, decide_True.
Qed.

(** An action as the store knows it. *)
Record action_wf (action : val) : Prop := {
  action_obj : is_obj action;
  action_config : is_obj (prop action "config");
  action_name : ∃ n, prop action "name" = VStr n
}.

Definition itemOf (action : val) : val :=
  obj_lit [("name", prop action "name"); ("module_name", prop action "module_name");
           ("priority", action @@ ["config"; "priority"]);
           ("fields", action @@ ["config"; "fields"])].

Lemma actionItem_eq action : action_wf action → actionItem action = Ok (itemOf action).
Proof.
  intros [Ho Hc _]. unfold actionItem, getq_path. rewrite !getq_obj by done. cbn [mbind res_bind].
  assert (is_nullish action = false) as -> by (by destruct Ho as [o ->]). cbn [get_path].
  rewrite (get_is_obj action) by done. cbn [mbind res_bind]. by rewrite !(get_is_obj (prop action "config")).
Qed.

Lemma itemOf_obj action : is_obj (itemOf action).
Proof. by eexists. Qed.

Lemma itemOf_name action : prop (itemOf action) "name" = prop action "name".
Proof. done. Qed.

Lemma itemOf_module action : prop (itemOf action) "module_name" = prop action "module_name".
Proof. done. Qed.

Lemma named_self action : action_wf action → named (prop action "name") (itemOf action) = true.
Proof. intros [_ _ [n Hn]]. unfold named. rewrite itemOf_name, Hn. cbn. apply String.eqb_refl. Qed.

Lemma assignAction_ok action m e :
  module_wf m → action_wf action → e ∈ eventsOf m →
  assignAction action m e =
    Ok (setActions m e (withItem (prop action "name") (itemOf action) (actionsOf m e))).
Proof.
  intros Hm Ha He. unfold assignAction. rewrite getq_obj by apply Ha. cbn [mbind res_bind].
  apply update_actions; [done..|]. destruct (get_actions m e Hm He) as [_ Hf].
  rewrite (hasM_eq _ (named (prop action "name"))); [|intros; by apply isNamed_eq|done].
  cbn [mbind res_bind]. unfold withItem. destruct (existsb _ _); [done|].
  by rewrite actionItem_eq.
Qed.

(** A name that is no event of the module: its list of actions is read of
    [undefined]. *)
Lemma assignAction_missing action m e :
  module_wf m → action_wf action → e ∉ eventsOf m → assignAction action m e = Throw TypeError.
Proof.
  intros Hm Ha He. unfold assignAction. rewrite getq_obj by apply Ha.
  cbn [mbind res_bind actionsPath update_path]. rewrite get_is_obj by apply Hm. cbn [mbind res_bind].
  fold (configOf m). destruct (config_wf m Hm) as (o & Ho & _). unfold eventsOf in He.
  rewrite Ho in He |- *. cbn [get mbind res_bind]. cbn [keys_of] in He.
  assert (obj_lookup e o = VUndef) as ->; [|done]. unfold obj_lookup.
  destruct (obj_get e o) eqn:Hg; [|done]. destruct He. apply elem_of_obj_keys. by eexists.
Qed.

Lemma assignAll_missing action events m :
  module_wf m → action_wf action → (∃ e, e ∈ events ∧ e ∉ eventsOf m) →
  assignAll action events m = Throw TypeError.
Proof.
  intros Hm Ha. unfold assignAll. revert m Hm.
  induction events as [|e events IH]; intros m Hm (e' & He' & Hno); [by apply elem_of_nil in He'|].
  cbn [foldM]. destruct (decide (e ∈ eventsOf m)) as [He|He]; [|by rewrite assignAction_missing].
  rewrite assignAction_ok by done. cbn [mbind res_bind].
  assert (Forall is_obj (withItem (prop action "name") (itemOf action) (actionsOf m e))) as Hf
    by (apply withItem_objects; [apply itemOf_obj|by apply get_actions]).
  apply IH; [by apply setActions_wf|]. exists e'.
  apply elem_of_cons in He' as [->|He']; [done|]. split; [done|].
  by rewrite events_setActions.
Qed.

Lemma assignAll_ok action events m :
  module_wf m → action_wf action → (∀ e, e ∈ events → e ∈ eventsOf m) →
  ∃ m', assignAll action events m = Ok m' ∧ edited m m' ∧ depsOf m' = depsOf m ∧
    ∀ e, actionsOf m' e = if decide (e ∈ events)
                          then withItem (prop action "name") (itemOf action) (actionsOf m e)
                          else actionsOf m e.
Proof.
  intros Hm Ha He. apply edit_loop; [| | |done|done].
  - intros m1 e H1 He1. by apply assignAction_ok.
  - intros l. apply withItem_objects, itemOf_obj.
  - intros l. apply withItem_idem. by apply named_self.
Qed.

(** *** Dependencies *)

Definition isMake (dep : val) : bool := is_str (prop dep "type") DependencyType.ToMakeAction.

(** Some action of some event belongs to a module. *)
Definition usedIn (m : val) (n : val) : bool :=
  existsb (λ e, existsb (ofModule n) (actionsOf m e)) (eventsOf m).

Definition keptDep (m dep : val) : bool :=
  negb (isMake dep) ||
  (negb (is_str (prop dep "module_name") THIS_MODULE_NAME) && usedIn m (prop dep "module_name")).

Lemma keepsDependency_eq m dep :
  module_wf m → is_obj dep → keepsDependency m dep = Ok (keptDep m dep).
Proof.
  intros Hm Hd. unfold keepsDependency, keptDep, isMake. rewrite !get_is_obj by done. cbn [mbind res_bind].
  destruct (is_str (prop dep "type") _); cbn [negb orb]; [|done].
  destruct (is_str (prop dep "module_name") _); cbn [negb andb]; [done|].
  unfold lookupDepInEventAction, usedIn. rewrite eventNames_eq by done. cbn [mbind res_bind].
  apply someM_pure. intros e He. destruct (get_actions m e Hm He) as [-> Hf]. cbn [mbind res_bind as_array].
  rewrite (filterM_pure _ (ofModule (prop dep "module_name"))).
  - cbn [mbind res_bind]. f_equal. induction (actionsOf m e) as [|a l IH]; [done|].
    apply Forall_cons_1 in Hf as [_ Hf]. cbn. destruct (ofModule _ a); cbn; [done|by apply IH].
  - intros a Hin. eapply Forall_forall in Hf; [|done]. rewrite get_is_obj by done.
    cbn [mbind res_bind]. by apply isOfModule_eq.
Qed.

Lemma clear_ok m :
  module_wf m →
  ∃ m', clearDynamicDependencies m = Ok m' ∧ edited m m' ∧
    depsOf m' = List.filter (keptDep m) (depsOf m) ∧ ∀ e, actionsOf m' e = actionsOf m e.
Proof.
  intros Hm. exists (setDeps m (List.filter (keptDep m) (depsOf m))).
  destruct (get_deps m Hm) as [_ Hf]. split; [|split; [|split]].
  - apply update_deps; [done|]. apply filterArr_eq; [|done]. intros x Hx. by apply keepsDependency_eq.
  - apply edited_setDeps; [done|]. by apply Forall_List_filter.
  - by apply depsOf_setDeps.
  - intros e. by apply actionsOf_setDeps.
Qed.

Lemma requireDependency_ok p f n m :
  module_wf m → (∀ x, is_obj x → p x = Ok (f x)) →
  ∃ m', requireDependency p n m = Ok m' ∧ edited m m' ∧
    depsOf m' = depsOf m ++ (if existsb f (depsOf m) then [] else [makeActionDependency n]) ∧
    ∀ e, actionsOf m' e = actionsOf m e.
Proof.
  intros Hm Hp. destruct (get_deps m Hm) as [_ Hf].
  eexists (setDeps m _). split; [|split; [|split; [by apply depsOf_setDeps|]]].
  - apply update_deps; [done|]. rewrite (hasM_eq _ f) by done. cbn [mbind res_bind].
    destruct (existsb f (depsOf m)); [by rewrite app_nil_r|done].
  - apply edited_setDeps; [done|]. apply Forall_app. split; [done|]. destruct (existsb _ _); [done|].
    constructor; [by eexists|done].
  - intros e. by apply actionsOf_setDeps.
Qed.

(** ** Properties of assigning actions to events

    The dialog assigns the action to the chosen events and to no other, and
    changes nothing else; the dependencies follow the actions in use, except
    where the code looks for a dependency without looking at its type. *)

(** ** What an operation leaves in the lists of actions *)

Lemma existsb_without n l : existsb (named n) (without n l) = false.
Proof.
  unfold without. induction l as [|a l IH]; [done|]. cbn. destruct (named n a) eqn:Ha; cbn; [done|].
  by rewrite Ha.
Qed.

Lemma existsb_elem {A} (f : A → bool) l : existsb f l = true ↔ ∃ x, x ∈ l ∧ f x = true.
Proof. rewrite existsb_exists. by setoid_rewrite list_elem_of_In. Qed.

Lemma usedIn_spec m n :
  usedIn m n = true ↔ ∃ e a, e ∈ eventsOf m ∧ a ∈ actionsOf m e ∧ ofModule n a = true.
Proof.
  unfold usedIn. rewrite existsb_elem. setoid_rewrite existsb_elem. naive_solver.
Qed.

(** The same actions are used. *)
Lemma usedIn_same m m' n :
  edited m m' → (∀ e, actionsOf m' e = actionsOf m e) → usedIn m' n = usedIn m n.
Proof.
  intros He Ha. apply eq_bool_prop_intro. unfold Is_true.
  assert (usedIn m' n = true ↔ usedIn m n = true) as Hiff.
  { rewrite !usedIn_spec. setoid_rewrite (edited_events _ _ He). by setoid_rewrite Ha. }
  destruct (usedIn m' n), (usedIn m n); naive_solver.
Qed.

(** The dependencies of type [to_make_action] are the modules whose actions
    are used. *)
Definition makes (m : val) (n : string) : Prop :=
  ∃ dep, dep ∈ depsOf m ∧ isMake dep = true ∧ prop dep "module_name" = VStr n.

Definition depsExact (m : val) : Prop :=
  ∀ n, n ≠ THIS_MODULE_NAME → usedIn m (VStr n) = true ↔ makes m n.

Lemma ofModule_str n item : ofModule (VStr n) item = true ↔ prop item "module_name" = VStr n.
Proof.
  unfold ofModule. destruct (prop item "module_name") as [| | |[]|s| |]; try done.
  unfold strict_eq. rewrite String.eqb_eq. naive_solver.
Qed.

(** Clearing leaves exactly the used dependencies, when they were there. *)
Lemma cleared_exact m :
  module_wf m → (∀ n, n ≠ THIS_MODULE_NAME → usedIn m (VStr n) = true → makes m n) →
  ∃ m', clearDynamicDependencies m = Ok m' ∧ edited m m' ∧
    (∀ e, actionsOf m' e = actionsOf m e) ∧ depsExact m'.
Proof.
  intros Hm Hc. destruct (clear_ok m Hm) as (m' & Hok & He & Hd & Ha).
  exists m'. split; [done|]. split; [done|]. split; [done|].
  intros n Hn. rewrite (usedIn_same m m') by done. unfold makes. rewrite Hd.
  setoid_rewrite elem_of_List_filter. unfold keptDep. split.
  - intros Hu. destruct (Hc n Hn Hu) as (dep & Hin & Hmk & Hmn). exists dep.
    split; [|done]. split; [done|]. rewrite Hmk, Hmn, Hu. cbn. by rewrite (proj2 (String.eqb_neq _ _)).
  - intros (dep & [_ Hk] & Hmk & Hmn). rewrite Hmk, Hmn in Hk. cbn in Hk.
    apply andb_true_iff in Hk as [_ Hk]. done.
Qed.

(** What an assignment adds is of the module of the action. *)
Lemma usedIn_assigned m m1 action n x :
  edited m m1 → prop action "module_name" = VStr n →
  (∀ e a, e ∈ eventsOf m → a ∈ actionsOf m1 e → a ∈ actionsOf m e ∨ a = itemOf action) →
  usedIn m1 (VStr x) = true → usedIn m (VStr x) = true ∨ x = n.
Proof.
  intros He Hn Hsub (e & a & Hin & Ha & Hx)%usedIn_spec. apply (edited_events _ _ He) in Hin.
  destruct (Hsub e a Hin Ha) as [Ha'| ->].
  - left. apply usedIn_spec. by exists e, a.
  - right. apply ofModule_str in Hx. rewrite itemOf_module, Hn in Hx. congruence.
Qed.

(** Requiring a dependency of the module and clearing keeps the dependencies
    exact, when the test finds only dependencies of the right type. *)
Lemma required_exact m m1 action n p f :
  module_wf m → edited m m1 → depsOf m1 = depsOf m → depsExact m →
  prop action "module_name" = VStr n →
  (∀ e a, e ∈ eventsOf m → a ∈ actionsOf m1 e → a ∈ actionsOf m e ∨ a = itemOf action) →
  (∀ x, is_obj x → p x = Ok (f x)) →
  (∀ dep, dep ∈ depsOf m → f dep = true → isMake dep = true ∧ prop dep "module_name" = VStr n) →
  ∃ m', (m2 ← requireDependency p (VStr n) m1; clearDynamicDependencies m2) = Ok m' ∧ edited m m' ∧
    (∀ e, actionsOf m' e = actionsOf m1 e) ∧ depsExact m'.
Proof.
  intros Hm He1 Hd1 Hx Hn Hsub Hp Hf.
  destruct (requireDependency_ok p f (VStr n) m1) as (m2 & -> & He2 & Hd2 & Ha2); [apply He1|done|].
  cbn [mbind res_bind].
  destruct (cleared_exact m2) as (m' & Hok & He3 & Ha3 & Hd3); [apply He2| |].
  - intros x Hne. rewrite (usedIn_same m1 m2) by done. intros Hu. unfold makes. rewrite Hd2, Hd1.
    destruct (usedIn_assigned m m1 action n x) as [Hu'| ->]; [done..| |].
    + apply Hx in Hu' as (dep & Hin & ?); [|done]. exists dep. rewrite elem_of_app. naive_solver.
    + destruct (existsb f (depsOf m)) eqn:Hex.
      * apply existsb_elem in Hex as (dep & Hin & Hfd). destruct (Hf dep Hin Hfd) as [? ?].
        exists dep. rewrite elem_of_app. naive_solver.
      * exists (makeActionDependency (VStr n)). rewrite elem_of_app, list_elem_of_singleton. naive_solver.
  - exists m'. split; [done|]. split; [by eapply edited_trans; [|eapply edited_trans]|].
    split; [|done]. intros e. by rewrite Ha3, Ha2.
Qed.

(** ** The three buttons of the dialog *)

(** A module as the server sends it. *)
Record sent (m : val) : Prop := {
  sent_json : is_json m = true;
  sent_wf : module_wf m
}.

(** The dialog with an action selected on its first page. *)
Definition selecting (d : Master) (action : val) : Prop :=
  waiting d = 0 ∧ sent (module d) ∧ action_wf action ∧
  ∃ level m unavailable, selectedActionTreeNode d = Some (ActionNode level action m unavailable).

Lemma selectedAction_eq d action : selecting d action → selectedAction d = Ok action.
Proof. intros (_ & _ & _ & l & m & u & Hs). unfold selectedAction. by rewrite Hs. Qed.

(** Closing a dialog whose lists nothing waits for. *)
Lemma emit_ok `{Collation} lang d m :
  waiting d = 0 → ∃ d', emit lang d m = Ok d' ∧ emitted d' = emitted d ++ [m].
Proof.
  intros Hw. destruct d; cbn in Hw; subst. eexists. split; [reflexivity|]. done.
Qed.

Lemma savedModule_ok m action events n :
  sent m → action_wf action → prop action "module_name" = VStr n →
  (∀ e, e ∈ events → e ∈ eventsOf m) →
  ∃ m', savedModule m action events = Ok m' ∧ edited m m' ∧
    (∀ e, e ∈ eventsOf m →
      actionsOf m' e = without (prop action "name") (actionsOf m e) ++
        (if decide (e ∈ events) then [itemOf action] else [])) ∧
    (depsExact m →
     (∀ dep, dep ∈ depsOf m → prop dep "module_name" = VStr n → isMake dep = true) → depsExact m').
Proof.
  intros [Hj Hm] Ha Hn He. unfold savedModule. rewrite !getq_obj by apply Ha. cbn [mbind res_bind].
  rewrite clone_json by done.
  destruct (withoutAction_ok (prop action "name") m Hm) as (m1 & -> & He1 & Hd1 & Ha1).
  cbn [mbind res_bind].
  destruct (assignAll_ok action events m1) as (m2 & -> & He2 & Hd2 & Ha2); [apply He1|done| |].
  { intros e Hin. apply (edited_events _ _ He1). by apply He. }
  cbn [mbind res_bind]. rewrite Hn.
  assert (∀ e, e ∈ eventsOf m → actionsOf m2 e = without (prop action "name") (actionsOf m e) ++
    (if decide (e ∈ events) then [itemOf action] else [])) as Hacts.
  { intros e Hin. rewrite Ha2, Ha1 by done. destruct (decide (e ∈ events)); [|by rewrite app_nil_r].
    unfold withItem. by rewrite existsb_without. }
  destruct (requireDependency_ok (isOfModule (VStr n)) (ofModule (VStr n)) (VStr n) m2)
    as (m3 & Hr & He3 & Hd3 & Ha3); [apply He2|by apply isOfModule_eq|].
  rewrite Hr. cbn [mbind res_bind].
  destruct (clear_ok m3) as (m4 & Hc & He4 & Hd4 & Ha4); [apply He3|].
  exists m4. split; [done|]. split; [|split].
  - eapply edited_trans; [done|]. eapply edited_trans; [done|]. by eapply edited_trans.
  - intros e Hin. by rewrite Ha4, Ha3, Hacts.
  - intros Hx Hty.
    destruct (required_exact m m2 action n (isOfModule (VStr n)) (ofModule (VStr n)))
      as (m' & Hok & _ & _ & Hx'); try done.
    + by eapply edited_trans.
    + by rewrite Hd2.
    + intros e a Hin Hia. rewrite Hacts in Hia by done. apply elem_of_app in Hia as [Hia|Hia].
      * left. by apply elem_of_List_filter in Hia as [? _].
      * right. destruct (decide _); [by apply list_elem_of_singleton in Hia|by apply not_elem_of_nil in Hia].
    + intros x. apply isOfModule_eq.
    + intros dep Hin Hf%ofModule_str. split; [by apply Hty|done].
    + rewrite Hr in Hok. cbn [mbind res_bind] in Hok. rewrite Hc in Hok. by injection Hok as <-.
Qed.

Lemma savedModule_missing m action events :
  sent m → action_wf action → (∃ e, e ∈ events ∧ e ∉ eventsOf m) →
  savedModule m action events = Throw TypeError.
Proof.
  intros [Hj Hm] Ha (e & Hin & Hno). unfold savedModule. rewrite !getq_obj by apply Ha.
  cbn [mbind res_bind]. rewrite clone_json by done.
  destruct (withoutAction_ok (prop action "name") m Hm) as (m1 & -> & He1 & _). cbn [mbind res_bind].
  rewrite assignAll_missing; [done|apply He1|done|]. exists e. split; [done|].
  by rewrite (edited_events _ _ He1).
Qed.

(** C17: saving the dialog, when it waits for none of its lists, an action of
    the store is selected in it and its module is as the server sends it,
    assigns the action to exactly the chosen events, provided they all are
    events of the module: the emitted module has the action, as the store
    knows it, at the end of the list of every chosen event and in no other
    list, every other action keeps its place, and except for these lists and
    the dependencies the module is as it was.  A chosen name that is no event
    of the module (the dialog can choose the empty name, see
    [reassigned_event_cannot_be_saved]) makes saving throw, and nothing is
    emitted. *)
Theorem dialog_assigns_chosen_events `{Collation} lang d action n :
  selecting d action → prop action "module_name" = VStr n →
  if decide (Forall (λ e, e ∈ eventsOf (module d)) (assignedEvents d)) then
    ∃ d' m', save lang d = Ok d' ∧ emitted d' = emitted d ++ [m'] ∧ edited (module d) m' ∧
      ∀ e, e ∈ eventsOf (module d) →
        actionsOf m' e = without (prop action "name") (actionsOf (module d) e) ++
          (if decide (e ∈ assignedEvents d) then [itemOf action] else [])
  else save lang d = Throw TypeError.
Proof.
  intros Hs Hn. pose proof Hs as (Hw & Hm & Ha & _). unfold save. rewrite (selectedAction_eq d action) by done.
  cbn [mbind res_bind]. destruct (decide _) as [He|He]; last first.
  { apply not_Forall_Exists in He; [|intros; apply _].
    by rewrite savedModule_missing by (done || by apply Exists_exists in He). }
  rewrite Forall_forall in He.
  destruct (savedModule_ok (module d) action (assignedEvents d) n) as (m' & -> & Hed & Hacts & _); [done..|].
  cbn [mbind res_bind]. destruct (emit_ok lang d m' Hw) as (d' & -> & Hem).
  by exists d', m'.
Qed.

Lemma moduleForAvailable_ok m action events n :
  sent m → action_wf action → prop action "module_name" = VStr n →
  (∀ e, e ∈ events → e ∈ eventsOf m) → depsExact m →
  ∃ m', moduleForAvailable m action events = Ok m' ∧ depsExact m' ∧
    ∀ e, actionsOf m' e = if decide (e ∈ events)
                          then withItem (prop action "name") (itemOf action) (actionsOf m e)
                          else actionsOf m e.
Proof.
  intros [Hj Hm] Ha Hn He Hx. unfold moduleForAvailable. rewrite !getq_obj by apply Ha. cbn [mbind res_bind].
  rewrite clone_json by done.
  destruct (assignAll_ok action events m) as (m1 & -> & He1 & Hd1 & Ha1); [done..|].
  cbn [mbind res_bind]. rewrite Hn.
  destruct (required_exact m m1 action n (isMakeActionOf (VStr n)) (λ dep, ofModule (VStr n) dep && isMake dep))
    as (m' & -> & _ & Ha' & Hx'); try done.
  - intros e a Hin Hia. rewrite Ha1 in Hia. destruct (decide (e ∈ events)); [|by left].
    unfold withItem in Hia. destruct (existsb _ _); [by left|].
    apply elem_of_app in Hia as [Hia|Hia%list_elem_of_singleton]; [by left|by right].
  - intros x Hox. unfold isMakeActionOf, isMake. rewrite isOfModule_eq by done. cbn [mbind res_bind].
    destruct (ofModule _ x); [|done]. cbn [negb andb]. by rewrite get_is_obj.
  - intros dep Hin [Hf Hmk]%andb_true_iff. split; [done|]. by apply ofModule_str.
  - exists m'. split; [done|]. split; [done|]. intros e. by rewrite Ha', Ha1.
Qed.

Lemma moduleWithout_ok m action :
  sent m → action_wf action → depsExact m →
  ∃ m', moduleWithout m action = Ok m' ∧ depsExact m' ∧
    ∀ e, e ∈ eventsOf m → actionsOf m' e = without (prop action "name") (actionsOf m e).
Proof.
  intros [Hj Hm] Ha Hx. unfold moduleWithout. rewrite getq_obj by apply Ha. cbn [mbind res_bind].
  rewrite clone_json by done.
  destruct (withoutAction_ok (prop action "name") m Hm) as (m1 & -> & He1 & Hd1 & Ha1).
  cbn [mbind res_bind].
  destruct (cleared_exact m1) as (m' & -> & He2 & Ha2 & Hx2); [apply He1| |].
  - intros n Hn (e & a & Hin & Hia & Hof)%usedIn_spec. apply (edited_events _ _ He1) in Hin.
    rewrite Ha1 in Hia by done. apply elem_of_List_filter in Hia as [Hia _].
    unfold makes. rewrite Hd1. apply Hx; [done|]. apply usedIn_spec. by exists e, a.
  - exists m'. split; [done|]. split; [done|]. intros e Hin. by rewrite Ha2, Ha1.
Qed.

(** C18: when the dependencies of type "to_make_action" of a module are exactly
    the other modules whose actions its events use, they are so after each of
    the three buttons of the dialog: after assigning the action to all
    available events and after removing it from all events always, after
    saving whenever the module has no dependency of another type on the module
    of the action. *)
Theorem dependencies_follow_actions m action n events :
  sent m → action_wf action → prop action "module_name" = VStr n →
  (∀ e, e ∈ events → e ∈ eventsOf m) → depsExact m →
  (∃ m', moduleForAvailable m action events = Ok m' ∧ depsExact m') ∧
  (∃ m', moduleWithout m action = Ok m' ∧ depsExact m') ∧
  ((∀ dep, dep ∈ depsOf m → prop dep "module_name" = VStr n → isMake dep = true) →
   ∃ m', savedModule m action events = Ok m' ∧ depsExact m').
Proof.
  intros Hm Ha Hn He Hx. split; [|split].
  - destruct (moduleForAvailable_ok m action events n) as (m' & ? & ? & _); [done..|]. by exists m'.
  - destruct (moduleWithout_ok m action) as (m' & ? & ? & _); [done..|]. by exists m'.
  - intros Hty. destruct (savedModule_ok m action events n) as (m' & ? & _ & _ & Hx'); [done..|].
    exists m'. split; [done|]. by apply Hx'.
Qed.

(** Where the hypothesis of the third part fails, so does the conclusion: a
    dependency of another type on the module of the action stands for the one
    that is missing, and no dependency of type "to_make_action" is written
    although an event uses the action. *)
Theorem saving_takes_any_dependency m action n events e :
  sent m → action_wf action → prop action "module_name" = VStr n →
  (∀ e, e ∈ events → e ∈ eventsOf m) → e ∈ events →
  (∃ dep, dep ∈ depsOf m ∧ prop dep "module_name" = VStr n) → ¬ makes m n →
  ∃ m', savedModule m action events = Ok m' ∧ usedIn m' (VStr n) = true ∧ ¬ makes m' n.
Proof.
  intros Hm Ha Hn He Hin (dep & Hdep & Hdn) Hno. pose proof Hm as [Hj Hwf].
  destruct (savedModule_ok m action events n) as (m' & Hok & Hed & Hacts & _); [done..|].
  exists m'. split; [done|]. split.
  - apply usedIn_spec. exists e, (itemOf action). split; [by apply (edited_events _ _ Hed), He|].
    rewrite Hacts by (by apply He). rewrite decide_True by done. split; [apply elem_of_app; right; apply list_elem_of_here|].
    by apply ofModule_str.
  - unfold savedModule in Hok. rewrite !getq_obj in Hok by apply Ha. cbn [mbind res_bind] in Hok.
    rewrite clone_json in Hok by done.
    destruct (withoutAction_ok (prop action "name") m Hwf) as (m1 & E1 & He1 & Hd1 & _).
    rewrite E1 in Hok. cbn [mbind res_bind] in Hok.
    destruct (assignAll_ok action events m1) as (m2 & E2 & He2 & Hd2 & _); [apply He1|done| |].
    { intros e' ?. apply (edited_events _ _ He1). by apply He. }
    rewrite E2 in Hok. cbn [mbind res_bind] in Hok. rewrite Hn in Hok.
    destruct (requireDependency_ok (isOfModule (VStr n)) (ofModule (VStr n)) (VStr n) m2)
      as (m3 & E3 & He3 & Hd3 & _); [apply He2|by apply isOfModule_eq|].
    rewrite E3 in Hok. cbn [mbind res_bind] in Hok.
    destruct (clear_ok m3) as (m4 & E4 & _ & Hd4 & _); [apply He3|].
    rewrite E4 in Hok. injection Hok as <-. intros (d & Hd & Hmk & Hmn). apply Hno. exists d.
    split; [|done]. rewrite Hd4 in Hd. apply elem_of_List_filter in Hd as [Hd _].
    rewrite Hd3, Hd2, Hd1 in Hd.
    rewrite (proj2 (existsb_elem _ _)), app_nil_r in Hd; [done|].
    exists dep. split; [done|]. by apply ofModule_str.
Qed.

(** ** The panel *)

Definition foundNamed (n : string) (l : list val) : val :=
  default VUndef (List.find (named (VStr n)) l).

Lemma findNamed_eq n l : Forall is_obj l → findNamed (VStr n) l = Ok (foundNamed n l).
Proof.
  unfold foundNamed. induction 1 as [|x l Hx Hl IH]; [done|]. cbn [findNamed List.find].
  rewrite isNamed_eq by done. cbn [mbind res_bind]. by destruct (named (VStr n) x).
Qed.

(** The actions that are selected are known. *)
Definition known (l : list val) (n : string) : Prop :=
  n = LOG_TO_DB ∨ is_obj (foundNamed n l) ∧ is_obj (prop (foundNamed n l) "config").

(** The item of a selected name. *)
Definition panelItem (l : list val) (n : string) : val :=
  if decide (n = LOG_TO_DB) then LOG_TO_DB_ACTION
  else obj_lit [("name", VStr n); ("fields", foundNamed n l @@ ["config"; "fields"]);
                ("priority", foundNamed n l @@ ["config"; "priority"]);
                ("module_name", prop (foundNamed n l) "module_name")].

Lemma panelItem_obj l n : is_obj (panelItem l n).
Proof. unfold panelItem. case_decide; by eexists. Qed.

Lemma panelItem_name l n : prop (panelItem l n) "name" = VStr n.
Proof. unfold panelItem. case_decide; [by subst|done]. Qed.

Lemma selectedItem_eq l n : known l n → selectedItem n (foundNamed n l) = Ok (panelItem l n).
Proof.
  intros Hk. unfold selectedItem, panelItem. destruct (decide (n = LOG_TO_DB)) as [Hn|Hn].
  - by rewrite bool_decide_true.
  - rewrite bool_decide_false by done. destruct Hk as [|[Ho Hc]]; [done|]. cbn [get_path].
    rewrite !(get_is_obj (foundNamed n l)) by done. cbn [mbind res_bind].
    by rewrite !(get_is_obj (prop (foundNamed n l) "config")).
Qed.

Lemma saveRounds l m names items :
  Forall is_obj l → module_wf m → (∀ n, n ∈ names → known l n) →
  ∃ m', foldM (saveRound l) (m, items) names = Ok (m', items ++ (panelItem l <$> names)) ∧
    edited m m' ∧ ∀ e, actionsOf m' e = actionsOf m e.
Proof.
  intros Hl. revert m items. induction names as [|n names IH]; intros m items Hm Hk.
  - exists m. cbn. rewrite app_nil_r. split; [done|]. split; [by apply edited_refl|done].
  - assert (known l n) as Hn by (apply Hk, list_elem_of_here).
    assert (∃ m1, updateDynamicDependencies m n (foundNamed n l) = Ok m1 ∧ edited m m1 ∧
      ∀ e, actionsOf m1 e = actionsOf m e) as (m1 & Hu & He1 & Ha1).
    { unfold updateDynamicDependencies. case_bool_decide as Hlog.
      - exists m. split; [done|]. split; [by apply edited_refl|done].
      - destruct Hn as [|[Ho _]]; [done|]. rewrite get_is_obj by done. cbn [mbind res_bind].
        destruct (requireDependency_ok (isOfModule (prop (foundNamed n l) "module_name"))
          (ofModule (prop (foundNamed n l) "module_name")) (prop (foundNamed n l) "module_name") m)
          as (m1 & ? & ? & _ & ?); [done|by apply isOfModule_eq|]. by exists m1. }
    destruct (IH m1 (items ++ [panelItem l n])) as (m' & Hf & He2 & Ha2).
    + apply He1.
    + intros n' Hn'. apply Hk. by apply list_elem_of_further.
    + assert (saveRound l (m, items) n = Ok (m1, items ++ [panelItem l n])) as Hr.
      { unfold saveRound. rewrite findNamed_eq by done. cbn [mbind res_bind fst snd].
        rewrite Hu. cbn [mbind res_bind]. by rewrite selectedItem_eq. }
      exists m'. cbn [foldM]. rewrite Hr. cbn [mbind res_bind]. rewrite Hf. cbn [fmap list_fmap]. split; [by rewrite <-app_assoc|].
      split; [by eapply edited_trans|]. intros e. by rewrite Ha2.
Qed.

(** Writing the actions of an event as the panel does. *)
Lemma set_event_actions m e l :
  module_wf m → e ∈ eventsOf m →
  update_path m ["current_event_config"; e] (λ event, set event "actions" (VArr l)) = Ok (setActions m e l).
Proof.
  intros Hm He. rewrite <-(update_actions m e (λ _, Ok (VArr l))) by done.
  cbn [actionsPath update_path]. rewrite (get_is_obj m) by apply Hm. cbn [mbind res_bind]. fold (configOf m).
  rewrite (get_is_obj (configOf m)) by (by apply config_obj). cbn [mbind res_bind].
  destruct (events_wf m Hm e He) as [Ho _]. by rewrite (get_is_obj (prop (configOf m) e)).
Qed.

(** C19: saving the panel gives the event exactly the selected actions, in the
    order in which they were selected, each as the store knows it (logging as
    the fixed item), and leaves the actions of every other event and
    everything else but the dependencies as they were. *)
Theorem panel_saves_selection m e names l :
  sent m → e ∈ eventsOf m → Forall is_obj l → (∀ n, n ∈ names → known l n) →
  ∃ m', savedEvent m e names l = Ok m' ∧ edited m m' ∧
    actionsOf m' e = panelItem l <$> names ∧
    (λ item, prop item "name") <$> actionsOf m' e = VStr <$> names ∧
    ∀ e', e' ≠ e → actionsOf m' e' = actionsOf m e'.
Proof.
  intros [Hj Hm] He Hl Hk. unfold savedEvent. rewrite clone_json by done.
  destruct (saveRounds l m names []) as (m1 & -> & He1 & Ha1); [done..|]. cbn [mbind res_bind fst snd app].
  assert (e ∈ eventsOf m1) as Hin by (by apply (edited_events _ _ He1)).
  rewrite set_event_actions by (done || apply He1). cbn [mbind res_bind].
  assert (Forall is_obj (panelItem l <$> names)) as Hobj
    by (apply Forall_fmap, Forall_true; intros n; apply panelItem_obj).
  assert (edited m1 (setActions m1 e (panelItem l <$> names))) as He2
    by (apply edited_setActions; [apply He1|done|done]).
  destruct (clear_ok (setActions m1 e (panelItem l <$> names))) as (m' & -> & He3 & _ & Ha3); [apply He2|].
  assert (∀ e', actionsOf m' e' = if decide (e' = e) then panelItem l <$> names else actionsOf m e') as Ha.
  { intros e'. rewrite Ha3, actionsOf_setActions by (done || apply He1). case_decide; [done|]. apply Ha1. }
  exists m'. split; [done|]. split; [by eapply edited_trans; [|eapply edited_trans]|].
  rewrite (Ha e), decide_True by done. split; [done|]. split.
  - rewrite <-list_fmap_compose. apply list_fmap_ext. intros i n _. apply panelItem_name.
  - intros e' Hne. by rewrite Ha, decide_False.
Qed.

(** ** The tree of actions *)

(** What the tree shows and remembers. *)
Definition treeOf (d : Master) := (actionsDataSource d, trees d).

Lemma notify_tree `{Collation} lang d d' : notify lang d = Ok d' → treeOf d' = treeOf d.
Proof.
  unfold notify. destruct (waiting d =? 0); intros Hn; inv_res; [done|].
  case_bool_decide; simplify_eq; [done|]. by destruct d.
Qed.

Lemma setEventsData_tree `{Collation} lang d d' : setEventsData lang d = Ok d' → treeOf d' = treeOf d.
Proof.
  unfold setEventsData. intros Hs. inv_res.
  repeat match goal with
  | H : availableEvents_next _ _ _ = Ok _ |- _ => apply notify_tree in H
  | H : unavailableEvents_next _ _ _ = Ok _ |- _ => apply notify_tree in H
  end.
  repeat match goal with x : Master |- _ => destruct x end. unfold treeOf in *. cbn in *. congruence.
Qed.

(** A dialog opened before the modules have arrived offers logging alone, and
    their arrival changes nothing: the subscriptions hold what the store had. *)
Theorem early_dialog_offers_logging `{Collation} lang translate acts d d' :
  trees d = [] → open lang translate (VArr []) (VArr acts) d = Ok d' →
  ∃ node, loggingNode translate (module d) = Ok node ∧ actionsDataSource d' = [node] ∧
    actionsDataSource (changeGrouping ByModule d') = [node].
Proof.
  intros Ht Ho. unfold open, setActionsData, actionsWithModulesTree in Ho.
  destruct d; cbn in Ht; subst. cbn -[loggingNode onlyActionsTree setEventsData] in Ho |- *. inv_res.
  match goal with H : setEventsData _ _ = Ok _ |- _ => apply setEventsData_tree in H; rename H into Hs end.
  match goal with H : loggingNode _ _ = Ok ?n |- _ => exists n; split; [done|] end.
  repeat match goal with x : Master |- _ => destruct x end. unfold treeOf in Hs. cbn in *.
  by injection Hs as -> ->.
Qed.

(** ** A module with two events *)

Definition sampleAction : val :=
  obj_lit [("name", VStr "block"); ("module_name", VStr "responder");
           ("config", obj_lit [("priority", vint 5); ("fields", vstrs ["ip"])])].

Definition sampleItem (n m : string) : val := obj_lit [("name", VStr n); ("module_name", VStr m)].

Definition title (t : string) : val := obj_lit [("en", obj_lit [("title", VStr t)])].

(** Only the first event has the field the action needs; it also has the
    action.  [deps] are the dependencies. *)
Definition sampleModule (deps : list val) : val :=
  obj_lit
    [("info", obj_lit [("name", VStr "detector")]);
     ("default_event_config", obj_lit
        [("alarm", obj_lit [("fields", vstrs ["ip"])]); ("scan", obj_lit [("fields", vstrs [])])]);
     ("current_event_config", obj_lit
        [("alarm", obj_lit [("fields", vstrs ["ip"]);
                            ("actions", VArr [sampleItem "block" "responder"; sampleItem "log_to_db" "this"])]);
         ("scan", obj_lit [("fields", vstrs []); ("actions", VArr [])])]);
     ("dynamic_dependencies", VArr deps);
     ("locale", obj_lit [("events", obj_lit [("alarm", title "Alarm"); ("scan", title "Scan")])])].

#[local] Instance byCodeUnits : Collation :=
  {| localeCompare s t := if decide (String.le s t) then (-1)%Z else 1%Z; toLowerCase s := s |}.

Definition sampleDialog (deps : list val) : Master :=
  { newMaster (sampleModule deps) with
    selectedActionTreeNode := Some (ActionNode 1 sampleAction VUndef false);
    assignedEvents := ["scan"] }.

Lemma sample_module_wf deps :
  Forall is_obj deps → module_wf (sampleModule deps).
Proof.
  intros Hd. constructor; [by eexists| |intros e He|done].
  - eexists. split; [reflexivity|]. apply obj_assign_wf, obj_wf_nil.
  - vm_compute in He. repeat (apply elem_of_cons in He as [->|He]); [..|by apply not_elem_of_nil in He];
      (split; [by eexists|]); vm_compute; repeat constructor; by eexists.
Qed.

Lemma sample_sent deps :
  Forall is_obj deps → is_json (sampleModule deps) = true → sent (sampleModule deps).
Proof. intros Hd Hj. split; [done|]. by apply sample_module_wf. Qed.

Lemma sample_action_wf : action_wf sampleAction.
Proof. split; [by eexists..|]. by exists "block". Qed.

Definition makeDep : val := makeActionDependency (VStr "responder").
Definition sendDep : val :=
  obj_lit [("module_name", VStr "responder"); ("type", VStr DependencyType.ToSendData)].

Lemma dialog_assigns_chosen_events_witness :
  ∃ d' m', save "en" (sampleDialog [makeDep]) = Ok d' ∧ emitted d' = [m'] ∧
    actionsOf m' "alarm" = [sampleItem "log_to_db" "this"] ∧
    actionsOf m' "scan" = [itemOf sampleAction].
Proof.
  assert (Forall (λ e, e ∈ eventsOf (module (sampleDialog [makeDep])))
            (assignedEvents (sampleDialog [makeDep]))) as Hch
    by (apply (bool_decide_unpack _); by vm_compute).
  pose proof (dialog_assigns_chosen_events "en" (sampleDialog [makeDep]) sampleAction "responder") as Hd.
  rewrite decide_True in Hd by exact Hch. destruct Hd as (d' & m' & Hs & He & _ & Ha).
  - split; [done|]. split; [apply sample_sent; [by repeat constructor; eexists|by vm_compute]|].
    split; [apply sample_action_wf|]. by do 3 eexists.
  - done.
  - exists d', m'. split; [done|]. split; [done|]. split.
    + rewrite (Ha "alarm") by (vm_compute; apply list_elem_of_here). by vm_compute.
    + rewrite (Ha "scan") by (vm_compute; apply list_elem_of_further, list_elem_of_here). by vm_compute.
Defined.

Lemma sample_exact : depsExact (sampleModule [makeDep]).
Proof.
  intros n Hn. rewrite usedIn_spec. split.
  - intros (e & a & He & Ha & Hm%ofModule_str). exists makeDep.
    split; [vm_compute; apply list_elem_of_here|]. split; [done|].
    vm_compute in He. repeat (apply elem_of_cons in He as [->|He]); [..|by apply not_elem_of_nil in He];
      vm_compute in Ha;
      repeat (apply elem_of_cons in Ha as [->|Ha]); try (by apply not_elem_of_nil in Ha);
      vm_compute in Hm; injection Hm as <-; [done|by destruct Hn].
  - intros (dep & Hdep & _ & Hm). vm_compute in Hdep. apply list_elem_of_singleton in Hdep as ->.
    exists "alarm", (sampleItem "block" "responder").
    split; [vm_compute; apply list_elem_of_here|]. split; [vm_compute; apply list_elem_of_here|].
    by apply ofModule_str.
Qed.

Lemma dependencies_follow_actions_witness :
  ∃ m', savedModule (sampleModule [makeDep]) sampleAction ["scan"] = Ok m' ∧ depsExact m'.
Proof.
  apply (dependencies_follow_actions (sampleModule [makeDep]) sampleAction "responder" ["scan"]).
  - apply sample_sent; [by repeat constructor; eexists|by vm_compute].
  - apply sample_action_wf.
  - done.
  - intros e He. apply list_elem_of_singleton in He as ->. vm_compute.
    apply list_elem_of_further, list_elem_of_here.
  - apply sample_exact.
  - intros dep Hd _. vm_compute in Hd. by apply list_elem_of_singleton in Hd as ->.
Defined.

Lemma saving_takes_any_dependency_witness :
  ∃ m', savedModule (sampleModule [sendDep]) sampleAction ["scan"] = Ok m' ∧
    usedIn m' (VStr "responder") = true ∧ ¬ makes m' "responder".
Proof.
  apply (saving_takes_any_dependency (sampleModule [sendDep]) sampleAction "responder" ["scan"] "scan").
  - apply sample_sent; [by repeat constructor; eexists|by vm_compute].
  - apply sample_action_wf.
  - done.
  - intros e He. apply list_elem_of_singleton in He as ->. vm_compute.
    apply list_elem_of_further, list_elem_of_here.
  - apply list_elem_of_here.
  - exists sendDep. split; [vm_compute; apply list_elem_of_here|done].
  - intros (dep & Hd & Hmk & _). vm_compute in Hd. by apply list_elem_of_singleton in Hd as ->.
Defined.

Lemma panel_saves_selection_witness :
  ∃ m', savedEvent (sampleModule [makeDep]) "scan" ["log_to_db"; "block"] [sampleAction] = Ok m' ∧
    actionsOf m' "scan" = [LOG_TO_DB_ACTION; panelItem [sampleAction] "block"].
Proof.
  destruct (panel_saves_selection (sampleModule [makeDep]) "scan" ["log_to_db"; "block"] [sampleAction])
    as (m' & Hs & _ & Ha & _).
  - apply sample_sent; [by repeat constructor; eexists|by vm_compute].
  - vm_compute. apply list_elem_of_further, list_elem_of_here.
  - repeat constructor. by eexists.
  - intros n Hn. repeat (apply elem_of_cons in Hn as [->|Hn]); [by left| |by apply not_elem_of_nil in Hn].
    right. by split; eexists.
  - exists m'. split; [done|]. rewrite Ha. by vm_compute.
Defined.

(** The second page finds no event to preselect when every event that fits
    already has the action, and remembers the empty name instead: taking the
    action from the event and giving it back assigns the empty name too, and
    the module cannot be saved any more. *)
Example reassigned_event_cannot_be_saved :
  (d ← onSelectAction "en" (ActionNode 1 sampleAction VUndef false) (sampleDialog [makeDep]);
   d ← next "en" d;
   d ← unselectEvent "en" d "alarm";
   d ← selectEvents "en" d "alarm";
   Ok (assignedEvents d, save "en" d)) = Ok (["" ; "alarm"], Throw TypeError).
Proof. vm_compute. done. Qed.

(** An event to which the action cannot be assigned becomes available when
    the action is taken from it. *)
Example unavailable_event_becomes_available :
  (d ← onSelectAction "en" (ActionNode 1 sampleAction VUndef false) (sampleDialog [makeDep]);
   d ← unselectEvent "en" d "scan";
   Ok (availableEvents d, unavailableEvents d)) = Ok (["alarm"; "scan"], ["scan"]).
Proof. vm_compute. done. Qed.
