(* ===== verification/LinkPolicy.v ===== *)
(** * Linking policies and groups

    A policy may be linked to a group unless one of its modules is already
    used by another policy of the group.  The page of a group offers policies
    ([features/groups/src/lib/services/link-policy.facade.service.ts]), the
    page of a policy offers groups ([features/policies/...]); both services
    implement the interface [LinkPolicyToGroupFacade] of the panel
    [shared/src/lib/components/link-group-to-policy].

    The streams are functions of the values they combine: [combineLatest] may
    emit values of different moments in between, the last one it emits is
    made of the current ones. *)

From Stdlib Require Import Ascii.
From stdpp Require Import list sorting.
From S2P Require Import Prelude JsValue JsString Models ParamForms SharedEffects.
From S2P Require SharedStore PoliciesStore GroupsStore ListFacades.

(** ** Reading an item *)

(** [item.details?.joined_modules?.split(',')] *)
Definition joinedModules (item : val) : res (option (list string)) :=
  details ← get item "details";
  joined ← getq details "joined_modules";
  if is_nullish joined then Ok None else s ← as_string joined; Ok (Some (split "," s)).

(** [names?.includes(name)] *)
Definition includes_opt (name : string) (names : option (list string)) : bool :=
  match names with Some names => includes name names | None => false end.

(** [item.details?.joined_modules.split(',').includes(name)] *)
Definition usesModule (name : string) (item : val) : res bool :=
  details ← get item "details";
  if is_nullish details then Ok false
  else s ← (joined ← get details "joined_modules"; as_string joined); Ok (includes name (split "," s)).

(** The same with [joined_modules?.]. *)
Definition mayUseModule (name : string) (item : val) : res bool :=
  names ← joinedModules item; Ok (includes_opt name names).

(** [for (const name of names)], which may be [undefined]. *)
Definition iterated (names : option (list string)) : res (list string) :=
  match names with Some names => Ok names | None => Throw TypeError end.

(** [v?.map(({ id }) => id)]; [undefined] is [None]. *)
Definition idsOf (v : val) : res (option (list val)) :=
  if is_nullish v then Ok None
  else l ← as_array v; ids ← mapM (λ x, get x "id") l; Ok (Some ids).

(** [ids.includes(id)]: ids are primitives. *)
Definition hasId (ids : list val) (id : val) : bool := existsb (strict_eq id) ids.

(** [item.details?.modules?.find((module) => module.info.name === name)] *)
Definition moduleOf (name : string) (item : val) : res val :=
  details ← get item "details";
  modules ← getq details "modules";
  if is_nullish modules then Ok VUndef
  else
    l ← as_array modules;
    find_list (λ module, n ← get_path module ["info"; "name"]; Ok (is_str n name)) l.

(** ** What the services share *)

(** [linkedIds$]: the entities of the base ([key]) it is linked to. *)
Definition linkedIds (key : string) (entity : val) : res (list val) :=
  details ← getq entity "details";
  linked ← getq details key;
  ids ← idsOf linked;
  Ok (default [] ids).

(** [linked$], [notLinked$] *)
Definition linked (linkedIds : list val) (items : val) : res (list val) :=
  l ← as_array items;
  filterM (λ item, id ← get item "id"; Ok (hasId linkedIds id)) l.

Definition notLinked (linkedIds : list val) (items : val) : res (list val) :=
  l ← as_array items;
  filterM (λ item, id ← get item "id"; Ok (negb (hasId linkedIds id))) l.

(** [modulesInLinked$]: a set in the order of insertion. *)
Definition modulesInLinked (linked : list val) : res (list string) :=
  names ← foldM (λ acc item,
    modules ← (m ← joinedModules item; iterated m);
    Ok (acc ++ modules)) [] linked;
  Ok (reverse (remove_dups (reverse names))).

Definition conflict (module conflictedPolicy : val) : val :=
  obj_lit [("module", module); ("conflictedPolicy", conflictedPolicy)].

(** [acc[id] = acc[id] || []; acc[id].push(x)] *)
Definition addConflict (acc item x : val) : res val :=
  id ← get item "id";
  old ← get acc (to_string id);
  acc ← set acc (to_string id) (js_or old (VArr []));
  push_to acc (to_string id) x.

(** [Object.keys(conflictsByEntityId[item.id] || {}).length > 0] *)
Definition hasConflicts (conflicts item : val) : res bool :=
  id ← get item "id";
  c ← get conflicts (to_string id);
  keys ← Object_keys (js_or c (VObj []));
  Ok (negb (bool_decide (keys = []))).

(** [unavailable$], [available$] *)
Definition unavailable (conflicts : val) (notLinked : list val) : res (list val) :=
  filterM (hasConflicts conflicts) notLinked.
Definition available (conflicts : val) (notLinked : list val) : res (list val) :=
  filterM (λ item, b ← hasConflicts conflicts item; Ok (negb b)) notLinked.

(** [groupedConflictsByModule$] *)
Definition groupedConflictsByModule (conflicts item : val) : res val :=
  id ← get item "id"; get conflicts (to_string id).

(** Values are compared to tell the keys of a [Map] apart: the conflicted
    policies are found in one list, and of equal ones always the first. *)
Fixpoint val_eq_dec (v w : val) {struct v} : {v = w} + {v ≠ w}.
Proof.
  destruct v as [| |b|n|s|l|o], w as [| |c|m|t|k|p]; try (left; reflexivity); try (right; discriminate).
  - destruct (decide (b = c)); [left|right]; congruence.
  - destruct (decide (n = m)); [left|right]; congruence.
  - destruct (decide (s = t)); [left|right]; congruence.
  - destruct (List.list_eq_dec val_eq_dec l k); [left|right]; congruence.
  - assert (∀ x y : string * val, {x = y} + {x ≠ y}) as pair_dec.
    { intros [a u] [b t]. destruct (decide (a = b)) as [Ha|Ha]; [|right; congruence].
      destruct (val_eq_dec u t); [left|right]; congruence. }
    destruct (List.list_eq_dec pair_dec o p); [left|right]; congruence.
Defined.

#[global] Arguments val_eq_dec : simpl never.

(** [acc.set(policy, \[...(acc.get(policy) || \[\]), module\])] *)
Fixpoint addModule (policy module : val) (acc : list (val * list val)) : list (val * list val) :=
  match acc with
  | [] => [(policy, [module])]
  | (p, modules) :: acc =>
      if val_eq_dec p policy then (p, modules ++ [module]) :: acc
      else (p, modules) :: addModule policy module acc
  end.

Definition groupByPolicy (conflicts : list val) : res (list (val * list val)) :=
  foldM (λ acc c,
    policy ← get c "conflictedPolicy";
    module ← get c "module";
    Ok (addModule policy module acc)) [] conflicts.

(** [groupedConflictsByPolicy$]; the service of the groups tolerates an item
    without conflicts ([optional]). *)
Definition groupedConflictsByPolicy (optional : bool) (conflicts item : val) :
    res (list (val * list val)) :=
  c ← (id ← get item "id"; get conflicts (to_string id));
  if optional && is_nullish c then Ok []
  else l ← as_array c; groupByPolicy l.

(** ** Offering policies to a group *)

(** One round over the names of a policy's modules. *)
Definition addPolicyConflict (linked : list val) (inLinked : list string) (policy acc : val)
    (name : string) : res val :=
  if negb (String.eqb name "") && includes name inLinked then
    module ← moduleOf name policy;
    conflictedPolicy ← find_list (usesModule name) linked;
    addConflict acc policy (conflict module conflictedPolicy)
  else Ok acc.

Definition addPolicyConflicts (linked : list val) (inLinked : list string) (acc policy : val) :
    res val :=
  names ← (m ← joinedModules policy; iterated m);
  foldM (addPolicyConflict linked inLinked policy) acc names.

Definition policyConflicts (linked notLinked : list val) : res val :=
  inLinked ← modulesInLinked linked;
  foldM (addPolicyConflicts linked inLinked) (VObj []) notLinked.

(** ** Offering groups to a policy *)

(** The policy of a group that uses a module. *)
Definition conflictedPolicyOf (allPolicies : list val) (name : string) (group : val) : res val :=
  details ← get group "details";
  policies ← getq details "policies";
  ids ← idsOf policies;
  inGroup ← filterM (λ policy, id ← get policy "id";
    Ok (match ids with Some ids => hasId ids id | None => false end)) allPolicies;
  find_list (mayUseModule name) inGroup.

(** One round over the names of a group's modules. *)
Definition addGroupConflict (allPolicies linked notLinked : list val) (policy group acc : val)
    (name : string) : res val :=
  policyModules ← (if is_nullish policy then Ok None else joinedModules policy);
  if negb (String.eqb name "") && includes_opt name policyModules then
    groupModule ← moduleOf name group;
    hash ← get group "hash";
    linkedGroups ← filterM (λ g, h ← get g "hash"; Ok (negb (strict_eq h hash))) linked;
    conflictedGroup ← find_list (mayUseModule name) (linkedGroups ++ notLinked);
    if truthy conflictedGroup then
      conflictedPolicy ← conflictedPolicyOf allPolicies name group;
      if truthy groupModule && truthy conflictedPolicy then
        addConflict acc group (conflict groupModule conflictedPolicy)
      else Ok acc
    else Ok acc
  else Ok acc.

Definition addGroupConflicts (allPolicies linked notLinked : list val) (policy acc group : val) :
    res val :=
  names ← (m ← joinedModules group; iterated m);
  foldM (addGroupConflict allPolicies linked notLinked policy group) acc names.

(** Without policies there is no value. *)
Definition groupConflicts (allPolicies : val) (linked notLinked : list val) (policy : val) :
    res (option val) :=
  n ← get allPolicies "length";
  if truthy n then
    l ← as_array allPolicies;
    acc ← foldM (addGroupConflicts l linked notLinked policy) (VObj []) notLinked;
    Ok (Some acc)
  else Ok None.

(** ** The interface of the panel *)

(** What the panel shows of the items. *)
Record Offer := mkOffer {
  linkedItems : list val;
  availableItems : list val;
  unavailableItems : list val;
  conflictsByEntityId : val
}.

Record LinkFacade (A : Type) := mkLinkFacade {
  linkedKey : string;
  items : SharedStore.State → val;
  conflictsOf : SharedStore.State → val → list val → list val → res (option val);
  optionalConflicts : bool;
  fetchData : list SharedStore.Action;
  link_ : string → val → list A;
  unlink_ : string → val → list A
}.
Arguments mkLinkFacade {A} _ _ _ _ _ _ _.
Arguments linkedKey {A} _.
Arguments items {A} _ _.
Arguments conflictsOf {A} _ _ _ _ _.
Arguments optionalConflicts {A} _.
Arguments fetchData {A} _.
Arguments link_ {A} _ _ _.
Arguments unlink_ {A} _ _ _.

Definition GroupLinks : LinkFacade GroupsStore.Action :=
  mkLinkFacade "policies" SharedStore.allPolicies
    (λ _ _ l n, c ← policyConflicts l n; Ok (Some c)) true
    (ListFacades.SharedFacade.fetchAllPolicies false)
    ListFacades.GroupsFacade.linkGroupToPolicy ListFacades.GroupsFacade.unlinkGroupFromPolicy.

Definition PolicyLinks : LinkFacade PoliciesStore.Action :=
  mkLinkFacade "groups" SharedStore.allGroups
    (λ s base l n, groupConflicts (SharedStore.allPolicies s) l n base) false
    (ListFacades.SharedFacade.fetchAllPolicies false ++ ListFacades.SharedFacade.fetchAllGroups false)
    ListFacades.PoliciesFacade.linkPolicyToGroup ListFacades.PoliciesFacade.unlinkPolicyFromGroup.

(** [isLoading$] of the two services: that of the policies does not ask for
    the groups. *)
Definition groupLinksLoading (s : GroupsStore.State) (sh : SharedStore.State) : bool :=
  GroupsStore.isLinkingGroup s || GroupsStore.isUnlinkingGroup s ||
  SharedStore.isLoadingAllPolicies sh.
Definition policyLinksLoading (s : PoliciesStore.State) (sh : SharedStore.State) : bool :=
  PoliciesStore.isLinkingPolicy s || PoliciesStore.isUnlinkingPolicy s ||
  SharedStore.isLoadingAllPolicies sh.

Section facade.
Context {A : Type} (F : LinkFacade A).

Definition offer (sh : SharedStore.State) (base : val) : res (option Offer) :=
  ids ← linkedIds (linkedKey F) base;
  l ← linked ids (items F sh);
  n ← notLinked ids (items F sh);
  c ← conflictsOf F sh base l n;
  match c with
  | None => Ok None
  | Some c =>
      a ← available c n;
      u ← unavailable c n;
      Ok (Some (mkOffer l a u c))
  end.

(** [link], [unlink]: the model of the item as the server sent it. *)
Definition link (hash : string) (item : val) : res (list A) :=
  origin ← get item "_origin"; Ok (link_ F hash origin).
Definition unlink (hash : string) (item : val) : res (list A) :=
  origin ← get item "_origin"; Ok (unlink_ F hash origin).
End facade.

(** The lists of the two pages. *)
Definition policiesForGroup : SharedStore.State → val → res (option Offer) := offer GroupLinks.
Definition groupsForPolicy : SharedStore.State → val → res (option Offer) := offer PolicyLinks.

(** ** The panel ([link-group-to-policy.component.ts]) *)

Inductive SortDirection := ASC | DESC.

(** A flag of a running request with the error of the last one:
    [pairwise(), combineLatestWith(error$)]. *)
Record Watch := mkWatch {
  lastFlag : option bool;
  pair : option (bool * bool);
  lastError : option val
}.
#[export] Instance Watch_eta : Eta Watch := ltac:(eta_of Watch).

Definition newWatch : Watch := mkWatch None None None.

(** The subscriber is called with the latest pair and the latest error; whether
    it reports an error. *)
Definition reports (w : Watch) : bool :=
  match pair w, lastError w with
  | Some (previous, current), Some error => previous && negb current && truthy error
  | _, _ => false
  end.

Definition onFlag (flag : bool) (w : Watch) : Watch * bool :=
  let w := { w with pair := match lastFlag w with Some b => Some (b, flag) | None => pair w end;
                    lastFlag := Some flag } in
  (w, reports w).

Definition onError (error : val) (w : Watch) : Watch * bool :=
  let w := { w with lastError := Some error } in (w, reports w).

(** A change of the store: a selector emits when its value is another one, the
    flag before the error.  The number of reports. *)
Definition onStore (flag : bool) (error : val) (w : Watch) : Watch * nat :=
  let '(w, r1) := (if decide (lastFlag w = Some flag) then (w, false) else onFlag flag w) in
  let '(w, r2) := (match lastError w with
                   | Some e => if val_eq_dec e error then (w, false) else onError error w
                   | None => onError error w
                   end) in
  (w, (if r1 then 1 else 0) + (if r2 then 1 else 0)).

Record Panel := mkPanel {
  disabled : bool;                         (* of the button *)
  sidePanel : option bool;                 (* whether it is open, once created *)
  search : string;
  conflictedItem : option val;
  modalOpen : bool;
  sortDirectionByModule : option SortDirection;
  sortDirectionByPolicy : option SortDirection;
  reported : list string                   (* error messages *)
}.
#[export] Instance Panel_eta : Eta Panel := ltac:(eta_of Panel).

Definition newPanel (disabled : bool) : Panel :=
  mkPanel disabled None "" None false None None [].

(** [open]: the data is fetched also when the button is disabled. *)
Definition open {A} (F : LinkFacade A) (p : Panel) : list SharedStore.Action * Panel :=
  (fetchData F, if disabled p then p else { p with sidePanel := Some true }).

(** The panel is closed: [unloadData]. *)
Definition closeSidePanel (p : Panel) : Panel :=
  match sidePanel p with
  | Some true => { p with sidePanel := Some false; search := "" }
  | _ => p
  end.

(** [NavigationStart] *)
Definition onNavigation (p : Panel) : Panel := closeSidePanel { p with modalOpen := false }.

(** [processedError]: the message is shown when the panel has closed, which
    one that is already closed does not do again. *)
Definition processedError (text : string) (p : Panel) : res Panel :=
  match sidePanel p with
  | None => Throw TypeError
  | Some true => Ok { closeSidePanel p with reported ::= (λ l, l ++ [text]) }
  | Some false => Ok p
  end.

Definition openConflictsPopover (item : val) (p : Panel) : Panel :=
  { p with conflictedItem := Some item; modalOpen := true }.

Definition getNextSortDirection (d : option SortDirection) : option SortDirection :=
  match d with Some ASC => Some DESC | Some DESC => None | None => Some ASC end.

Definition toggleSortByModule (d : option SortDirection) (p : Panel) : Panel :=
  { p with sortDirectionByModule := getNextSortDirection d }.
Definition toggleSortByPolicy (d : option SortDirection) (p : Panel) : Panel :=
  { p with sortDirectionByPolicy := getNextSortDirection d }.

Section sorting.
(** [a.localeCompare(b)] in the language of the browser, and
    [languageService.lang]. *)
Context (localeCompare : string → string → Z) (lang : string).

Definition comparator {B} (direction : option SortDirection) (a b : string * B) : Prop :=
  (match direction with
   | Some DESC => localeCompare b.1 a.1
   | _ => localeCompare a.1 b.1
   end ≤ 0)%Z.

#[export] Instance comparator_dec {B} direction (a b : string * B) :
  Decision (comparator direction a b).
Proof. unfold comparator. apply _. Defined.

(** [arr.sort(comparator)]: titles are read when there is something to compare. *)
Definition sortBy {B} (direction : option SortDirection) (title : B → res val) (l : list B) :
    res (list B) :=
  if length l <=? 1 then Ok l
  else
    titled ← mapM (λ x,
      t ← title x;
      match t with VStr s => Ok (s, x) | _ => Throw Unsupported end) l;
    Ok (merge_sort (comparator direction) titled).*2.

Definition sortConflicts (direction : option SortDirection) (conflicts : list val) : res (list val) :=
  sortBy direction (λ c, get_path c ["module"; "locale"; "module"; lang; "title"]) conflicts.

Definition sortPolicies (direction : option SortDirection) (groups : list (val * list val)) :
    res (list (val * list val)) :=
  sortBy direction (λ g, get_path g.1 ["info"; "name"; lang]) groups.

(** The lists of the popover.  Both are sorted in the direction chosen for the
    modules. *)
Definition shownByModule (conflicts : val) (p : Panel) : res (option (list val)) :=
  match conflictedItem p with
  | None => Ok None
  | Some item =>
      c ← groupedConflictsByModule conflicts item;
      if is_nullish c then Ok None
      else l ← as_array c; l ← sortConflicts (sortDirectionByModule p) l; Ok (Some l)
  end.

Definition shownByPolicy (optional : bool) (conflicts : val) (p : Panel) :
    res (option (list (val * list val))) :=
  match conflictedItem p with
  | None => Ok None
  | Some item =>
      l ← groupedConflictsByPolicy optional conflicts item;
      l ← sortPolicies (sortDirectionByModule p) l;
      Ok (Some l)
  end.
End sorting.
