(* ===== verification/LinkPolicyTheorems.v ===== *)
(** * What the panel offers for linking

    Which items are available, that both sides of a link agree, and that
    linking what is available never makes two policies of a group share a
    module; the ways in which the panel fails to show this. *)

From Stdlib Require Import Ascii.
From stdpp Require Import list sorting.
From S2P Require Import Prelude JsValue JsString Models ModuleEditDefaults ParamForms LinkPolicy.
From S2P Require SharedStore PoliciesStore GroupsStore.

(** ** Items of the server *)

Definition details (v : val) : val := prop v "details".
Definition joinedText (v : val) : string :=
  match prop (details v) "joined_modules" with VStr s => s | _ => "" end.

(** The modules an item uses: the text of an item without modules is empty. *)
Definition moduleNames (v : val) : list string :=
  List.filter (λ name, negb (String.eqb name "")) (split "," (joinedText v)).

Definition module_ok (m : val) : Prop := is_obj m ∧ is_obj (prop m "info").

(** An item as the server sends it: with details, the names of its modules and
    the modules. *)
Record item_ok (v : val) : Prop := {
  item_obj : is_obj v;
  item_details : is_obj (details v);
  item_joined : prop (details v) "joined_modules" = VStr (joinedText v);
  item_modules : ∃ ms, prop (details v) "modules" = VArr ms ∧ Forall module_ok ms
}.

(** The key under which the conflicts of an item are filed. *)
Definition idKey (v : val) : string := to_string (prop v "id").

Definition modulesList (v : val) : list val :=
  match prop (details v) "modules" with VArr ms => ms | _ => [] end.

(** The first module of that name, [undefined] without one. *)
Definition namedModule (name : string) (v : val) : val :=
  default VUndef (List.find (λ m, is_str (prop (prop m "info") "name") name) (modulesList v)).

Lemma moduleNames_spec name v :
  name ∈ moduleNames v ↔ name ∈ split "," (joinedText v) ∧ name ≠ "".
Proof.
  unfold moduleNames. rewrite elem_of_List_filter, negb_true_iff, String.eqb_neq. done.
Qed.

(** ** What the readings return *)

Lemma joinedModules_ok v : item_ok v → joinedModules v = Ok (Some (split "," (joinedText v))).
Proof.
  intros [Ho Hd Hj _]. unfold joinedModules. rewrite get_is_obj by done. cbn [mbind res_bind].
  unfold getq. change (prop v "details") with (details v). destruct Hd as [d Hd].
  assert (is_nullish (details v) = false) as -> by (by rewrite Hd).
  rewrite get_is_obj by (by eexists). rewrite Hj. done.
Qed.

Lemma usesModule_ok name v : item_ok v → usesModule name v = Ok (includes name (split "," (joinedText v))).
Proof.
  intros [Ho Hd Hj _]. unfold usesModule. rewrite get_is_obj by done. cbn [mbind res_bind].
  change (prop v "details") with (details v). destruct Hd as [d Hd].
  assert (is_nullish (details v) = false) as -> by (by rewrite Hd).
  rewrite get_is_obj by (by eexists). rewrite Hj. done.
Qed.

Lemma mayUseModule_ok name v :
  item_ok v → mayUseModule name v = Ok (includes name (split "," (joinedText v))).
Proof. intros Hv. unfold mayUseModule. by rewrite joinedModules_ok. Qed.

Lemma find_list_pure (p : val → res bool) (f : val → bool) l :
  (∀ x, x ∈ l → p x = Ok (f x)) → find_list p l = Ok (default VUndef (List.find f l)).
Proof.
  induction l as [|x l IH]; intros H; [done|]. cbn [find_list List.find].
  rewrite (H x) by apply list_elem_of_here. cbn [mbind res_bind]. destruct (f x); [done|].
  apply IH. intros y Hy. by apply H, list_elem_of_further.
Qed.

Lemma moduleOf_ok name v : item_ok v → moduleOf name v = Ok (namedModule name v).
Proof.
  intros [Ho Hd _ (ms & Hm & Hms)]. unfold moduleOf. rewrite get_is_obj by done. cbn [mbind res_bind].
  change (prop v "details") with (details v). unfold getq. destruct Hd as [d Hd].
  assert (is_nullish (details v) = false) as -> by (by rewrite Hd).
  rewrite get_is_obj by (by eexists). cbn [mbind res_bind]. rewrite Hm.
  cbn [is_nullish as_array mbind res_bind]. unfold namedModule, modulesList. rewrite Hm.
  apply find_list_pure. intros m Hin. rewrite Forall_forall in Hms. destruct (Hms m Hin) as [H1 H2].
  cbn [get_path]. rewrite get_is_obj by done. cbn [mbind res_bind]. by rewrite get_is_obj.
Qed.

(** The first element that satisfies a test is one that satisfies it. *)
Lemma find_exists {A} (f : A → bool) l : is_Some (List.find f l) ↔ ∃ x, x ∈ l ∧ f x = true.
Proof.
  split.
  - intros [x Hx]. apply find_some in Hx as [Hin Hf]. exists x. by rewrite list_elem_of_In.
  - intros (x & Hin%list_elem_of_In & Hf). destruct (List.find f l) eqn:He; [done|].
    by rewrite (find_none _ _ He x Hin) in Hf.
Qed.

(** ** Collecting conflicts

    Both services go over the names of the items that are not linked and file
    a conflict for those that satisfy a test. *)

Section collect.
Context (cond : val → string → bool) (found : val → string → val).

Definition found_by (item : val) : list val :=
  found item <$> List.filter (cond item) (split "," (joinedText item)).

(** What is filed under a key: nothing or a list that is not empty. *)
Definition filed (l : list val) : val := match l with [] => VUndef | _ => VArr l end.

Definition round (item acc : val) (name : string) : res val :=
  if cond item name then addConflict acc item (found item name) else Ok acc.

Lemma addConflict_filed acc item l x :
  is_obj acc → is_obj item → prop acc (idKey item) = filed l →
  ∃ acc', addConflict acc item x = Ok acc' ∧ is_obj acc' ∧ prop acc' (idKey item) = filed (l ++ [x]) ∧
    ∀ k, k ≠ idKey item → prop acc' k = prop acc k.
Proof.
  intros Ha Hi Hl. unfold addConflict. rewrite (get_is_obj item) by done. cbn [mbind res_bind].
  fold (idKey item). rewrite (get_is_obj acc) by done. cbn [mbind res_bind]. rewrite Hl.
  assert (js_or (filed l) (VArr []) = VArr l) as -> by (by destruct l).
  rewrite set_put by done. cbn [mbind res_bind]. unfold push_to.
  pose proof (put_is_obj acc (idKey item) (VArr l) Ha) as Hp.
  rewrite get_is_obj by done. cbn [mbind res_bind]. rewrite prop_put, decide_True by done.
  cbn [as_array mbind res_bind]. rewrite set_put by done. eexists. split; [done|].
  split; [by apply put_is_obj|]. split.
  - rewrite prop_put, decide_True by done. by destruct l.
  - intros k Hk. by rewrite !prop_put, !decide_False by done.
Qed.

Lemma rounds_filed item names acc l :
  is_obj acc → is_obj item → prop acc (idKey item) = filed l →
  ∃ acc', foldM (round item) acc names = Ok acc' ∧ is_obj acc' ∧
    prop acc' (idKey item) = filed (l ++ (found item <$> List.filter (cond item) names)) ∧
    ∀ k, k ≠ idKey item → prop acc' k = prop acc k.
Proof.
  intros Ha Hi. revert acc l Ha. induction names as [|name names IH]; intros acc l Ha Hl.
  { exists acc. cbn. by rewrite app_nil_r. }
  cbn [foldM List.filter].
  assert (round item acc name = if cond item name then addConflict acc item (found item name) else Ok acc)
    as -> by done.
  destruct (cond item name).
  - destruct (addConflict_filed acc item l (found item name) Ha Hi Hl) as (acc1 & -> & H1 & H2 & H3).
    cbn [mbind res_bind]. destruct (IH acc1 _ H1 H2) as (acc' & -> & H4 & H5 & H6).
    exists acc'. split; [done|]. split; [done|]. cbn [fmap list_fmap]. rewrite H5, <-app_assoc.
    split; [done|]. intros k Hk. by rewrite H6, H3.
  - cbn [mbind res_bind]. by apply IH.
Qed.

Lemma collected (add : val → val → res val) (l : list val) :
  (∀ acc item, item ∈ l → is_obj acc →
     add acc item = foldM (round item) acc (split "," (joinedText item))) →
  Forall item_ok l → NoDup (idKey <$> l) →
  ∃ c, foldM add (VObj []) l = Ok c ∧ is_obj c ∧ ∀ item, item ∈ l → prop c (idKey item) = filed (found_by item).
Proof.
  intros Hadd Hok Hnd.
  assert (∀ acc, is_obj acc → (∀ item, item ∈ l → prop acc (idKey item) = VUndef) →
    ∃ c, foldM add acc l = Ok c ∧ is_obj c ∧
      (∀ item, item ∈ l → prop c (idKey item) = filed (found_by item)) ∧
      ∀ k, k ∉ idKey <$> l → prop c k = prop acc k) as H.
  { induction l as [|item l IH]; intros acc Ha Hnone.
    { exists acc. split; [done|]. split; [done|]. split; [by intros ? ?%elem_of_nil|done]. }
    apply Forall_cons in Hok as [Hi Hok]. cbn [fmap list_fmap] in Hnd. apply NoDup_cons in Hnd as [Hk Hnd].
    cbn [foldM]. rewrite Hadd by (done || apply list_elem_of_here).
    destruct (rounds_filed item (split "," (joinedText item)) acc [] Ha (item_obj _ Hi)
      (Hnone _ (list_elem_of_here _ _))) as (acc1 & -> & H1 & H2 & H3).
    cbn [mbind res_bind]. assert (∀ item', item' ∈ l → idKey item' ≠ idKey item) as Hne.
    { intros item' Hin Heq. apply Hk. rewrite <-Heq. by apply list_elem_of_fmap_2. }
    destruct (IH (λ acc0 item' Hin, Hadd acc0 item' (list_elem_of_further _ _ _ Hin)) Hok Hnd acc1 H1)
      as (c & Hc & Hco & Hcl & Hck).
    { intros item' Hin. rewrite H3 by by apply Hne. by apply Hnone, list_elem_of_further. }
    exists c. split; [done|]. split; [done|]. split.
    - intros item' [->|Hin]%elem_of_cons; [|by apply Hcl]. rewrite Hck by done. exact H2.
    - intros k [Hk1 Hk2]%not_elem_of_cons. by rewrite Hck, H3. }
  destruct (H (VObj [])) as (c & Hc & Hco & Hcl & _); [by eexists|done|]. by exists c.
Qed.

Lemma hasConflicts_filed c item :
  is_obj c → is_obj item → prop c (idKey item) = filed (found_by item) →
  hasConflicts c item = Ok (existsb (cond item) (split "," (joinedText item))).
Proof.
  intros Hc Hi Hf. unfold hasConflicts. rewrite (get_is_obj item) by done. cbn [mbind res_bind].
  fold (idKey item). rewrite get_is_obj by done. cbn [mbind res_bind]. rewrite Hf. unfold found_by.
  induction (split "," (joinedText item)) as [|name names IH]; [done|].
  cbn [List.filter existsb]. destruct (cond item name); [done|exact IH].
Qed.
End collect.

(** ** What is offered *)

Definition isLinked (ids : list val) (v : val) : bool := hasId ids (prop v "id").

(** The ids of the entities an item is linked to. *)
Definition memberIds (key : string) (v : val) : list val :=
  match prop (details v) key with VArr l => (λ x, prop x "id") <$> l | _ => [] end.
Definition members_ok (key : string) (v : val) : Prop :=
  ∃ l, prop (details v) key = VArr l ∧ Forall is_obj l.

Lemma idsOf_members key v :
  members_ok key v → idsOf (prop (details v) key) = Ok (Some (memberIds key v)).
Proof.
  intros (l & Hl & HF). unfold memberIds, idsOf. rewrite Hl. cbn [is_nullish as_array mbind res_bind].
  rewrite (mapM_pure _ (λ x, prop x "id")); [done|].
  intros x Hx. rewrite Forall_forall in HF. by apply get_is_obj, HF.
Qed.

Lemma linkedIds_members key v :
  item_ok v → members_ok key v → linkedIds key v = Ok (memberIds key v).
Proof.
  intros [Ho Hd _ _] Hm. unfold linkedIds. rewrite !getq_obj by done. cbn [mbind res_bind].
  change (prop v "details") with (details v). rewrite getq_obj by done. cbn [mbind res_bind].
  by rewrite idsOf_members.
Qed.

Lemma linked_eq ids l :
  Forall item_ok l → linked ids (VArr l) = Ok (List.filter (isLinked ids) l).
Proof.
  intros HF. unfold linked. cbn [as_array mbind res_bind]. apply filterM_pure. intros x Hx.
  rewrite Forall_forall in HF. by rewrite get_is_obj by apply HF, Hx.
Qed.

Lemma notLinked_eq ids l :
  Forall item_ok l → notLinked ids (VArr l) = Ok (List.filter (λ x, negb (isLinked ids x)) l).
Proof.
  intros HF. unfold notLinked. cbn [as_array mbind res_bind]. apply filterM_pure. intros x Hx.
  rewrite Forall_forall in HF. by rewrite get_is_obj by apply HF, Hx.
Qed.

Lemma NoDup_filter_fmap {A B} (f : A → B) (p : A → bool) l : NoDup (f <$> l) → NoDup (f <$> List.filter p l).
Proof.
  induction l as [|x l IH]; [done|]. cbn [fmap list_fmap List.filter]. intros [Hx Hl]%NoDup_cons.
  destruct (p x); [|by apply IH]. cbn [fmap list_fmap]. apply NoDup_cons. split; [|by apply IH].
  intros (y & Hy & Hin)%list_elem_of_fmap. apply Hx. rewrite Hy. apply list_elem_of_fmap_2.
  by apply elem_of_List_filter in Hin as [].
Qed.

Lemma offer_spec {A} (F : LinkFacade A) sh base ids l c cond found :
  linkedIds (linkedKey F) base = Ok ids → items F sh = VArr l → Forall item_ok l →
  let n := List.filter (λ x, negb (isLinked ids x)) l in
  conflictsOf F sh base (List.filter (isLinked ids) l) n = Ok (Some c) → is_obj c →
  (∀ x, x ∈ n → prop c (idKey x) = filed (found_by cond found x)) →
  ∃ o, offer F sh base = Ok (Some o) ∧ linkedItems o = List.filter (isLinked ids) l ∧
    conflictsByEntityId o = c ∧
    (∀ x, x ∈ availableItems o ↔ x ∈ l ∧ isLinked ids x = false ∧
       ∀ m, m ∈ split "," (joinedText x) → cond x m = false) ∧
    (∀ x, x ∈ unavailableItems o ↔ x ∈ l ∧ isLinked ids x = false ∧
       ∃ m, m ∈ split "," (joinedText x) ∧ cond x m = true).
Proof.
  intros Hids Hl HF n Hc Hco Hfiled.
  assert (∀ x, x ∈ n → hasConflicts c x = Ok (existsb (cond x) (split "," (joinedText x)))) as Hhas.
  { intros x Hx. apply (hasConflicts_filed cond found); [done| |by apply Hfiled].
    apply elem_of_List_filter in Hx as [Hx _]. rewrite Forall_forall in HF. by apply HF. }
  eexists. split.
  { unfold offer. rewrite Hids. cbn [mbind res_bind]. rewrite Hl, linked_eq, notLinked_eq by done.
    cbn [mbind res_bind]. fold n. rewrite Hc. cbn [mbind res_bind].
    unfold available. rewrite (filterM_pure _ (λ x, negb (existsb (cond x) (split "," (joinedText x))))).
    2:{ intros x Hx. rewrite Hhas by done. done. }
    cbn [mbind res_bind]. unfold unavailable.
    rewrite (filterM_pure _ (λ x, existsb (cond x) (split "," (joinedText x)))) by done. done. }
  cbn [linkedItems availableItems unavailableItems conflictsByEntityId]. split; [done|]. split; [done|].
  split; intros x; unfold n; rewrite !elem_of_List_filter, negb_true_iff.
  - rewrite negb_true_iff. split.
    + intros [[Hx Hn] He]. split; [done|]. split; [done|]. intros m Hm.
      destruct (cond x m) eqn:Hc1; [|done]. exfalso. apply not_true_iff_false in He. apply He, existsb_exists.
      exists m. by rewrite <-list_elem_of_In.
    + intros (Hx & Hn & He). split; [done|]. apply not_true_iff_false. intros (m & Hm & Hc1)%existsb_exists.
      rewrite He in Hc1; [done|]. by rewrite list_elem_of_In.
  - split.
    + intros [[Hx Hn] (m & Hm & Hc1)%existsb_exists]. rewrite <-list_elem_of_In in Hm. naive_solver.
    + intros (Hx & Hn & m & Hm & Hc1). split; [done|]. apply existsb_exists. exists m.
      by rewrite <-list_elem_of_In.
Qed.

(** ** Policies for a group *)

Lemma modulesInLinked_ok l :
  Forall item_ok l → ∃ names, modulesInLinked l = Ok names ∧
    ∀ m, m ∈ names ↔ ∃ q, q ∈ l ∧ m ∈ split "," (joinedText q).
Proof.
  intros HF. unfold modulesInLinked.
  assert (∀ acc, foldM (λ acc item, modules ← (m ← joinedModules item; iterated m); Ok (acc ++ modules)) acc l
    = Ok (acc ++ mjoin ((λ q, split "," (joinedText q)) <$> l))) as ->.
  { induction HF as [|q l Hq _ IH]; intros acc; cbn [foldM fmap list_fmap].
    - cbn. by rewrite app_nil_r.
    - rewrite joinedModules_ok by done. cbn [mbind res_bind iterated]. rewrite IH.
      cbn [mjoin list_join]. by rewrite <-app_assoc. }
  cbn [mbind res_bind]. eexists. split; [done|]. intros m.
  rewrite elem_of_reverse, elem_of_remove_dups, elem_of_reverse, app_nil_l, list_elem_of_join.
  split.
  - intros (names & Hm & (q & -> & Hq)%list_elem_of_fmap). by exists q.
  - intros (q & Hq & Hm). eexists. split; [exact Hm|]. apply list_elem_of_fmap. by exists q.
Qed.

(** What two items have in common. *)
Definition share (p q : val) : Prop := ∃ m, m ∈ moduleNames p ∧ m ∈ moduleNames q.

Definition policyCond (inLinked : list string) (_ : val) (name : string) : bool :=
  negb (String.eqb name "") && includes name inLinked.

Definition policyFound (linked : list val) (policy : val) (name : string) : val :=
  conflict (namedModule name policy)
    (default VUndef (List.find (λ q, includes name (split "," (joinedText q))) linked)).

Lemma policyConflicts_ok l n :
  Forall item_ok l → Forall item_ok n → NoDup (idKey <$> n) →
  ∃ inLinked c, (∀ m, m ∈ inLinked ↔ ∃ q, q ∈ l ∧ m ∈ split "," (joinedText q)) ∧
    policyConflicts l n = Ok c ∧ is_obj c ∧
    ∀ p, p ∈ n → prop c (idKey p) = filed (found_by (policyCond inLinked) (policyFound l) p).
Proof.
  intros Hl Hn Hnd. destruct (modulesInLinked_ok l Hl) as (inLinked & Hm & Hspec).
  destruct (collected (policyCond inLinked) (policyFound l) (addPolicyConflicts l inLinked) n)
    as (c & Hc & Hco & Hf); [|done|done|].
  { intros acc p Hp _. unfold addPolicyConflicts.
    assert (item_ok p) as Hpok by (rewrite Forall_forall in Hn; by apply Hn).
    rewrite joinedModules_ok by done. cbn [mbind res_bind iterated]. apply foldM_ext. intros a name _.
    unfold addPolicyConflict, round, policyCond. destruct (_ && _); [|done].
    rewrite moduleOf_ok by done. cbn [mbind res_bind].
    rewrite (find_list_pure _ (λ q, includes name (split "," (joinedText q)))); [done|].
    intros q Hq. apply usesModule_ok. rewrite Forall_forall in Hl. by apply Hl. }
  exists inLinked, c. split; [done|]. split; [|done]. unfold policyConflicts. by rewrite Hm.
Qed.

Lemma offered_policies sh group ids ps :
  linkedIds "policies" group = Ok ids → SharedStore.allPolicies sh = VArr ps → Forall item_ok ps →
  NoDup (idKey <$> ps) →
  ∃ o, offer GroupLinks sh group = Ok (Some o) ∧ linkedItems o = List.filter (isLinked ids) ps ∧
    (∀ p, p ∈ availableItems o ↔ p ∈ ps ∧ isLinked ids p = false ∧
       ∀ q, q ∈ linkedItems o → ¬ share p q) ∧
    (∀ p, p ∈ unavailableItems o ↔ p ∈ ps ∧ isLinked ids p = false ∧
       ∃ q, q ∈ linkedItems o ∧ share p q).
Proof.
  intros Hids Hps HF Hnd.
  destruct (policyConflicts_ok (List.filter (isLinked ids) ps) (List.filter (λ x, negb (isLinked ids x)) ps))
    as (inLinked & c & Hin & Hc & Hco & Hf); [by apply Forall_List_filter..|by apply NoDup_filter_fmap|].
  destruct (offer_spec GroupLinks sh group ids ps c (policyCond inLinked)
    (policyFound (List.filter (isLinked ids) ps))) as (o & Ho & Hl & _ & Ha & Hu); [done..| |done|done|].
  { cbn [conflictsOf GroupLinks]. by rewrite Hc. }
  assert (∀ p m, m ∈ split "," (joinedText p) ∧ policyCond inLinked p m = true ↔
    m ∈ moduleNames p ∧ ∃ q, q ∈ linkedItems o ∧ m ∈ moduleNames q) as Hcond.
  { intros p m. unfold policyCond. rewrite andb_true_iff, negb_true_iff, String.eqb_neq, includes_spec, Hin, Hl.
    setoid_rewrite moduleNames_spec. naive_solver. }
  exists o. split; [done|]. split; [done|]. split; intros p; [rewrite Ha|rewrite Hu]; unfold share.
  - split; intros (Hp & Hn & H); (split; [done|split; [done|]]).
    + intros q Hq (m & Hm1 & Hm2). destruct (proj2 (Hcond p m)) as [Hm Ht]; [by eauto|].
      by rewrite H in Ht.
    + intros m Hm. destruct (policyCond inLinked p m) eqn:Ht; [|done]. exfalso.
      destruct (proj1 (Hcond p m)) as (Hm1 & q & Hq & Hm2); [done|]. by apply (H q Hq); exists m.
  - split; intros (Hp & Hn & H); (split; [done|split; [done|]]).
    + destruct H as (m & Hm). apply Hcond in Hm as (Hm1 & q & Hq & Hm2). by eauto.
    + destruct H as (q & Hq & m & Hm1 & Hm2). exists m. apply Hcond. by eauto.
Qed.

(** ** Groups for a policy *)

(** The policies of a group, and the first of them that uses a module. *)
Definition policiesOf (group : val) (ps : list val) : list val :=
  List.filter (isLinked (memberIds "policies" group)) ps.
Definition userOf (group : val) (ps : list val) (name : string) : option val :=
  List.find (λ q, includes name (split "," (joinedText q))) (policiesOf group ps).

Definition groupCond (ps : list val) (policy group : val) (name : string) : bool :=
  negb (String.eqb name "") && includes name (split "," (joinedText policy)) &&
  (truthy (namedModule name group) && truthy (default VUndef (userOf group ps name))).

Definition groupFound (ps : list val) (group : val) (name : string) : val :=
  conflict (namedModule name group) (default VUndef (userOf group ps name)).

Lemma conflictedPolicyOf_ok ps name group :
  item_ok group → members_ok "policies" group → Forall item_ok ps →
  conflictedPolicyOf ps name group = Ok (default VUndef (userOf group ps name)).
Proof.
  intros [Ho Hd _ _] Hm HF. unfold conflictedPolicyOf. rewrite get_is_obj by done. cbn [mbind res_bind].
  change (prop group "details") with (details group). rewrite getq_obj by done. cbn [mbind res_bind].
  rewrite idsOf_members by done. cbn [mbind res_bind]. rewrite Forall_forall in HF.
  rewrite (filterM_pure _ (isLinked (memberIds "policies" group))).
  2:{ intros p Hp. by rewrite get_is_obj by apply HF, Hp. }
  cbn [mbind res_bind]. apply find_list_pure. intros q Hq. apply mayUseModule_ok, HF.
  by apply elem_of_List_filter in Hq as [].
Qed.

(** Some item of the lists uses the module of a group: the group itself. *)
Lemma conflictedGroup_ok name group (l n : list val) hash :
  item_ok group → Forall item_ok l → Forall item_ok n → group ∈ n → name ∈ split "," (joinedText group) →
  ∃ g, (linkedGroups ← filterM (λ g, h ← get g "hash"; Ok (negb (strict_eq h hash))) l;
        find_list (mayUseModule name) (linkedGroups ++ n)) = Ok g ∧ truthy g = true.
Proof.
  intros Hg Hl Hn Hin Hname.
  rewrite (filterM_pure _ (λ g, negb (strict_eq (prop g "hash") hash))).
  2:{ intros g Hg'. rewrite Forall_forall in Hl. by rewrite get_is_obj by apply Hl, Hg'. }
  cbn [mbind res_bind]. set (all := List.filter _ l ++ n).
  assert (Forall item_ok all) as Hall by (apply Forall_app; split; [by apply Forall_List_filter|done]).
  rewrite (find_list_pure _ (λ q, includes name (split "," (joinedText q)))).
  2:{ intros q Hq. apply mayUseModule_ok. rewrite Forall_forall in Hall. by apply Hall. }
  eexists. split; [done|].
  destruct (proj2 (find_exists (λ q, includes name (split "," (joinedText q))) all)) as [g Hf].
  { exists group. split; [apply elem_of_app; by right|by apply includes_spec]. }
  rewrite Hf. apply find_some in Hf as [Hf _]. apply list_elem_of_In in Hf. cbn [default from_option id].
  rewrite Forall_forall in Hall. by destruct (item_obj _ (Hall _ Hf)) as [o ->].
Qed.

Lemma groupConflicts_ok ps policy l n :
  ps ≠ [] → Forall item_ok ps → item_ok policy → Forall item_ok l → Forall item_ok n →
  Forall (members_ok "policies") n → NoDup (idKey <$> n) →
  ∃ c, groupConflicts (VArr ps) l n policy = Ok (Some c) ∧ is_obj c ∧
    ∀ g, g ∈ n → prop c (idKey g) = filed (found_by (groupCond ps policy) (groupFound ps) g).
Proof.
  intros Hne Hps Hp Hl Hn Hm Hnd.
  destruct (collected (groupCond ps policy) (groupFound ps) (addGroupConflicts ps l n policy) n)
    as (c & Hc & Hco & Hf); [|done|done|].
  { intros acc g Hg _. unfold addGroupConflicts. rewrite Forall_forall in Hm.
    assert (item_ok g) as Hgok by (rewrite Forall_forall in Hn; by apply Hn).
    rewrite joinedModules_ok by done. cbn [mbind res_bind iterated]. apply foldM_ext. intros a name Hname.
    unfold addGroupConflict, round, groupCond. pose proof (item_obj _ Hp) as [o Ho].
    assert (is_nullish policy = false) as -> by (by rewrite Ho).
    rewrite joinedModules_ok by done. cbn [mbind res_bind includes_opt]. destruct (negb _ && _); [|done].
    rewrite moduleOf_ok by done. cbn [mbind res_bind andb].
    rewrite (get_is_obj g) by apply Hgok. cbn [mbind res_bind].
    destruct (conflictedGroup_ok name g l n (prop g "hash")) as (g' & Hg' & Ht); [done..|].
    destruct (filterM _ l) as [lg|]; [|done]. cbn [mbind res_bind] in *. rewrite Hg'. cbn [mbind res_bind].
    rewrite Ht. rewrite conflictedPolicyOf_ok by (done || by apply Hm). cbn [mbind res_bind]. done. }
  exists c. split; [|done]. unfold groupConflicts. cbn [get String.eqb Ascii.eqb Bool.eqb mbind res_bind].
  assert (truthy (vlen ps) = true) as -> by (destruct ps; [done|reflexivity]).
  cbn [as_array mbind res_bind]. by rewrite Hc.
Qed.

Lemma userOf_spec group ps name :
  Forall item_ok ps →
  truthy (default VUndef (userOf group ps name)) = true ↔
    ∃ q, q ∈ ps ∧ isLinked (memberIds "policies" group) q = true ∧ name ∈ split "," (joinedText q).
Proof.
  intros HF. unfold userOf. rewrite Forall_forall in HF.
  assert (truthy (default VUndef (List.find (λ q, includes name (split "," (joinedText q))) (policiesOf group ps)))
    = true ↔ is_Some (List.find (λ q, includes name (split "," (joinedText q))) (policiesOf group ps))) as ->.
  { destruct (List.find _ _) as [q|] eqn:Hq; [|split; [done|by intros []]].
    apply find_some in Hq as [Hq%list_elem_of_In _]. apply elem_of_List_filter in Hq as [Hq _].
    destruct (item_obj _ (HF _ Hq)) as [o ->]. by split. }
  rewrite find_exists. unfold policiesOf. setoid_rewrite elem_of_List_filter.
  setoid_rewrite includes_spec. naive_solver.
Qed.

Lemma offered_groups sh policy ids gs ps :
  item_ok policy → linkedIds "groups" policy = Ok ids →
  SharedStore.allGroups sh = VArr gs → Forall item_ok gs → Forall (members_ok "policies") gs →
  NoDup (idKey <$> gs) → SharedStore.allPolicies sh = VArr ps → ps ≠ [] → Forall item_ok ps →
  ∃ o, offer PolicyLinks sh policy = Ok (Some o) ∧ linkedItems o = List.filter (isLinked ids) gs ∧
    (∀ g, g ∈ availableItems o ↔ g ∈ gs ∧ isLinked ids g = false ∧
       ∀ m, m ∈ moduleNames g → groupCond ps policy g m = false) ∧
    (∀ g, g ∈ unavailableItems o ↔ g ∈ gs ∧ isLinked ids g = false ∧
       ∃ m, m ∈ moduleNames g ∧ groupCond ps policy g m = true).
Proof.
  intros Hp Hids Hgs HF Hm Hnd Hps Hne HFp.
  destruct (groupConflicts_ok ps policy (List.filter (isLinked ids) gs)
    (List.filter (λ x, negb (isLinked ids x)) gs)) as (c & Hc & Hco & Hf);
    [done|done|done|by apply Forall_List_filter..|by apply NoDup_filter_fmap|].
  destruct (offer_spec PolicyLinks sh policy ids gs c (groupCond ps policy) (groupFound ps))
    as (o & Ho & Hl & _ & Ha & Hu); [done..| |done|done|].
  { cbn [conflictsOf PolicyLinks]. by rewrite Hps. }
  assert (∀ g m, groupCond ps policy g m = true → m ≠ "") as Hname.
  { intros g m. unfold groupCond. rewrite !andb_true_iff, negb_true_iff, String.eqb_neq. tauto. }
  exists o. split; [done|]. split; [done|]. setoid_rewrite moduleNames_spec.
  split; intros g; [rewrite Ha|rewrite Hu].
  - split; intros (Hg & Hn & H); (split; [done|split; [done|]]).
    + intros m [Hm1 _]. by apply H.
    + intros m Hm1. destruct (groupCond ps policy g m) eqn:Ht; [|done].
      rewrite H in Ht; [done|]. split; [done|by eapply Hname].
  - split; intros (Hg & Hn & m & Hm1 & Ht); (split; [done|split; [done|]]); exists m; [|by destruct Hm1].
    split; [|done]. split; [done|by eapply Hname].
Qed.

(** ** Linking *)

Definition apart (ps : list val) : Prop :=
  ∀ p q, p ∈ ps → q ∈ ps → p ≠ q → ¬ share p q.

Lemma share_sym p q : share p q → share q p.
Proof. intros (m & H1 & H2). by exists m. Qed.

Lemma strict_eq_string v w : strict_eq v w = true → to_string v = to_string w.
Proof.
  destruct v as [| |b|n|s| |], w as [| |c|m|t| |]; try done; simpl; try (by destruct n).
  - by intros ->%eqb_prop.
  - destruct n, m; try done; by intros [= ->]%bool_decide_eq_true_1.
  - by intros ->%String.eqb_eq.
Qed.

(** Among items with distinct ids an id names one. *)
Lemma same_id ps p q :
  NoDup (idKey <$> ps) → p ∈ ps → q ∈ ps → strict_eq (prop q "id") (prop p "id") = true → q = p.
Proof.
  intros Hnd Hp Hq Hs%strict_eq_string. apply list_elem_of_lookup in Hp as [i Hi], Hq as [j Hj].
  assert (j = i) as ->; [|by simplify_eq].
  apply (NoDup_lookup (idKey <$> ps) j i (idKey p)); [done|..]; rewrite list_lookup_fmap.
  - rewrite Hj. cbn. f_equal. exact Hs.
  - by rewrite Hi.
Qed.

Lemma hasId_app ids id v : hasId (ids ++ [id]) v = hasId ids v || strict_eq v id.
Proof. unfold hasId. rewrite existsb_app. cbn. by rewrite orb_false_r. Qed.

(** C15: linking a policy that the page of a group offers keeps the policies of
    the group apart: when no two of them share a module before, none do
    after it. *)
Theorem linking_keeps_modules_apart sh group group' ids ps o p n :
  linkedIds "policies" group = Ok ids → linkedIds "policies" group' = Ok (ids ++ [prop p "id"]) →
  SharedStore.allPolicies sh = VArr ps → Forall item_ok ps → NoDup (idKey <$> ps) →
  prop p "id" = vint n →
  offer GroupLinks sh group = Ok (Some o) → p ∈ availableItems o → apart (linkedItems o) →
  ∃ o', offer GroupLinks sh group' = Ok (Some o') ∧ p ∈ linkedItems o' ∧ apart (linkedItems o').
Proof.
  intros Hids Hids' Hps HF Hnd Hn Ho Hp Hap.
  destruct (offered_policies sh group ids ps) as (o1 & Ho1 & Hl & Ha & _); [done..|].
  rewrite Ho in Ho1. injection Ho1 as <-. apply Ha in Hp as (Hin & Hnot & Hfree).
  destruct (offered_policies sh group' _ ps Hids' Hps HF Hnd) as (o' & Ho' & Hl' & _).
  assert (∀ q, q ∈ linkedItems o' ↔ q ∈ linkedItems o ∨ q = p) as Hq.
  { intros q. rewrite Hl, Hl', !elem_of_List_filter. unfold isLinked. rewrite hasId_app, orb_true_iff.
    split; [intros [Hq [Hk|Hs]]; [by left|right; by eapply same_id]|].
    intros [[Hq Hk]| ->]; [tauto|]. split; [done|right]. rewrite Hn. cbn. by apply bool_decide_eq_true_2. }
  exists o'. split; [done|]. split; [apply Hq; by right|].
  intros q r [Hq1| ->]%Hq [Hr| ->]%Hq Hne; [by apply Hap| | |done].
  - intros Hs%share_sym. by apply (Hfree q).
  - by apply Hfree.
Qed.

(** ** Both pages *)

(** A group agrees with the policies: it uses the modules of the policies it
    is linked to, and knows them. *)
Record coherent (ps : list val) (group : val) : Prop := {
  coherent_ok : item_ok group;
  coherent_members : members_ok "policies" group;
  coherent_modules : ∀ m, m ∈ moduleNames group ↔
    ∃ q, q ∈ ps ∧ isLinked (memberIds "policies" group) q = true ∧ m ∈ moduleNames q;
  coherent_named : ∀ m, m ∈ moduleNames group → truthy (namedModule m group) = true
}.

(** C16: for groups that agree with the policies, the page of a group and the
    page of a policy offer the same links: a policy is available for a group
    exactly when the group is available for the policy. *)
Theorem both_pages_agree sh ps gs p g :
  SharedStore.allPolicies sh = VArr ps → SharedStore.allGroups sh = VArr gs →
  Forall item_ok ps → Forall (coherent ps) gs → Forall (members_ok "groups") ps →
  NoDup (idKey <$> ps) → NoDup (idKey <$> gs) →
  p ∈ ps → g ∈ gs → isLinked (memberIds "policies" g) p = isLinked (memberIds "groups" p) g →
  ∃ og op, offer GroupLinks sh g = Ok (Some og) ∧ offer PolicyLinks sh p = Ok (Some op) ∧
    (p ∈ availableItems og ↔ g ∈ availableItems op) ∧
    (p ∈ unavailableItems og ↔ g ∈ unavailableItems op).
Proof.
  intros Hps Hgs HF HG HM Hnp Hng Hp Hg Hsame.
  assert (Forall item_ok gs ∧ Forall (members_ok "policies") gs) as [HGi HGm]
    by (split; (eapply Forall_impl; [exact HG|]); by intros x []).
  rewrite Forall_forall in HG. destruct (HG g Hg) as [Hgi Hgm Hmod Hnamed].
  assert (item_ok p) as Hpi by (rewrite Forall_forall in HF; by apply HF).
  assert (members_ok "groups" p) as Hpm by (rewrite Forall_forall in HM; by apply HM).
  destruct (offered_policies sh g _ ps (linkedIds_members _ _ Hgi Hgm) Hps HF Hnp)
    as (og & Hog & Hlg & Hag & Hug).
  destruct (offered_groups sh p _ gs ps Hpi (linkedIds_members _ _ Hpi Hpm) Hgs HGi HGm Hng Hps)
    as (op & Hop & _ & Hap & Hup); [by intros ->; apply elem_of_nil in Hp|done|].
  exists og, op. split; [done|]. split; [done|].
  assert (∀ m, m ∈ moduleNames g → groupCond ps p g m = true ↔ m ∈ moduleNames p) as Hcond.
  { intros m Hm. pose proof (proj1 (Hmod m) Hm) as (q & Hq & Hl & Hmq).
    assert (truthy (default VUndef (userOf g ps m)) = true) as Hu.
    { apply userOf_spec; [done|]. exists q. apply moduleNames_spec in Hmq as [Hmq _]. done. }
    unfold groupCond. rewrite Hnamed, Hu by done. rewrite moduleNames_spec, !andb_true_iff, includes_spec,
      negb_true_iff, String.eqb_neq. tauto. }
  assert ((∃ m, m ∈ moduleNames g ∧ m ∈ moduleNames p) ↔ ∃ q, q ∈ linkedItems og ∧ share p q) as Hshare.
  { assert (∀ q, q ∈ linkedItems og ↔ q ∈ ps ∧ isLinked (memberIds "policies" g) q = true) as Hlq
      by (intros q; by rewrite Hlg, elem_of_List_filter).
    unfold share. setoid_rewrite Hlq. split.
    - intros (m & (q & Hq & Hl & Hmq)%Hmod & Hmp). by eauto 10.
    - intros (q & [Hq Hl] & m & Hmp & Hmq). exists m. rewrite Hmod. by eauto 10. }
  rewrite Hag, Hap, Hug, Hup, Hsame. split.
  - split; intros (_ & Hn & H); (split; [done|split; [done|]]).
    + intros m Hm. apply not_true_iff_false. rewrite Hcond by done. intros Hmp.
      destruct (proj1 Hshare) as (q & Hq & Hs); [by eauto|]. by apply (H q).
    + intros q Hq Hs. destruct (proj2 Hshare) as (m & Hm & Hmp); [by eauto|].
      apply Hcond in Hmp; [|done]. by rewrite H in Hmp.
  - split; intros (_ & Hn & H); (split; [done|split; [done|]]).
    + apply Hshare in H as (m & Hm & Hmp). exists m. by rewrite Hcond.
    + apply Hshare. destruct H as (m & Hm & Hc). exists m. by rewrite Hcond in Hc.
Qed.

(** ** Error messages *)

(** The requests to link, one after the other: what the store shows of each
    and how often the panel reports an error. *)
Definition linking (outcomes : list val) : list PoliciesStore.Action :=
  mjoin ((λ e, [PoliciesStore.linkPolicyToGroup "hash" VUndef;
                if truthy e then PoliciesStore.linkPolicyToGroupFailure e
                else PoliciesStore.linkPolicyToGroupSuccess]) <$> outcomes).

Definition watchStep (st : PoliciesStore.State * Watch * nat) (a : PoliciesStore.Action) :
    res (PoliciesStore.State * Watch * nat) :=
  s ← PoliciesStore.reducer st.1.1 a;
  let '(w, n) := onStore (PoliciesStore.isLinkingPolicy s) (PoliciesStore.linkPolicyFromGroupError s) st.1.2 in
  Ok (s, w, st.2 + n).

(** The panel subscribes. *)
Definition watching (s : PoliciesStore.State) : Watch :=
  (onStore (PoliciesStore.isLinkingPolicy s) (PoliciesStore.linkPolicyFromGroupError s) newWatch).1.

Lemma link_start s h g :
  ∃ s', PoliciesStore.reducer s (PoliciesStore.linkPolicyToGroup h g) = Ok s' ∧
    PoliciesStore.isLinkingPolicy s' = true ∧ PoliciesStore.linkPolicyFromGroupError s' = VUndef.
Proof. by eexists. Qed.

Lemma link_done s e :
  ∃ s', PoliciesStore.reducer s (if truthy e then PoliciesStore.linkPolicyToGroupFailure e
                                 else PoliciesStore.linkPolicyToGroupSuccess) = Ok s' ∧
    PoliciesStore.isLinkingPolicy s' = false ∧
    PoliciesStore.linkPolicyFromGroupError s' =
      if truthy e then e else PoliciesStore.linkPolicyFromGroupError s.
Proof. destruct (truthy e); by eexists. Qed.

Lemma watchStep_eq s w n a s' w' r :
  PoliciesStore.reducer s a = Ok s' →
  onStore (PoliciesStore.isLinkingPolicy s') (PoliciesStore.linkPolicyFromGroupError s') w = (w', r) →
  watchStep (s, w, n) a = Ok (s', w', n + r).
Proof. intros H1 H2. unfold watchStep. cbn [fst snd]. rewrite H1. cbn [mbind res_bind]. by rewrite H2. Qed.

(** every failed request to link a policy is reported exactly once, and a
    request that succeeds is not reported, also after one that failed: the
    panel sees the flag fall before it sees the error. *)
Theorem each_failure_reported s outcomes :
  PoliciesStore.isLinkingPolicy s = false →
  ∃ s' w, foldM watchStep (s, watching s, 0) (linking outcomes) =
    Ok (s', w, length (List.filter truthy outcomes)).
Proof.
  intros Hs.
  assert (∀ s w n, lastFlag w = Some false → lastError w = Some (PoliciesStore.linkPolicyFromGroupError s) →
    ∃ s' w', foldM watchStep (s, w, n) (linking outcomes) =
      Ok (s', w', n + length (List.filter truthy outcomes))) as H.
  { clear s Hs. induction outcomes as [|e outcomes IH]; intros s w n Hf He.
    { exists s, w. cbn. by rewrite Nat.add_0_r. }
    change (linking (e :: outcomes)) with
      (PoliciesStore.linkPolicyToGroup "hash" VUndef ::
       (if truthy e then PoliciesStore.linkPolicyToGroupFailure e
        else PoliciesStore.linkPolicyToGroupSuccess) :: linking outcomes).
    cbn [foldM]. destruct (link_start s "hash" VUndef) as (s1 & Hs1 & Hf1 & He1).
    assert (∃ w1, onStore true VUndef w = (w1, 0) ∧ lastFlag w1 = Some true ∧ lastError w1 = Some VUndef)
      as (w1 & Hw1 & Hw1f & Hw1e).
    { destruct w as [lf pr le]. cbn in Hf, He. subst lf le.
      unfold onStore. rewrite decide_False by done. cbn.
      destruct (val_eq_dec _ _) as [->|_]; eexists; (split; [done|done]). }
    destruct (link_done s1 e) as (s2 & Hs2 & Hf2 & He2). rewrite He1 in He2.
    rewrite (watchStep_eq s w n _ s1 w1 0) by (done || by rewrite Hf1, He1). cbn [mbind res_bind].
    assert (∃ w2, onStore false (if truthy e then e else VUndef) w1 = (w2, if truthy e then 1 else 0) ∧
      lastFlag w2 = Some false ∧ lastError w2 = Some (if truthy e then e else VUndef))
      as (w2 & Hw2 & Hw2f & Hw2e).
    { destruct w1 as [lf pr le]. cbn in Hw1f, Hw1e. subst lf le.
      unfold onStore. rewrite decide_False by done. cbn. destruct (truthy e) eqn:Ht.
      - destruct (val_eq_dec VUndef e) as [<-|_]; [done|]. cbn. rewrite Ht. by eexists.
      - destruct (val_eq_dec VUndef VUndef) as [_|Hc]; [|done]. by eexists. }
    rewrite (watchStep_eq s1 w1 _ _ s2 w2 (if truthy e then 1 else 0)) by (done || by rewrite Hf2, He2).
    cbn [mbind res_bind]. destruct (IH s2 w2 (n + 0 + (if truthy e then 1 else 0))) as (s' & w' & ->); [done|by rewrite He2|].
    exists s', w'. cbn [List.filter]. f_equal. f_equal. destruct (truthy e); cbn [length]; lia. }
  destruct (H s (watching s) 0) as (s' & w & Hr); [..|by exists s', w];
    unfold watching, onStore, newWatch, onFlag, onError; cbn; by rewrite Hs.
Qed.

(** ** The theorems at concrete inputs *)

Definition sampleModuleOf (name : string) : val := obj_lit [("info", obj_lit [("name", VStr name)])].
Definition sampleEntity (id : Z) (names : list string) (key : string) (linked : list Z) : val :=
  obj_lit [("id", vint id); ("hash", VStr (pretty id));
    ("info", obj_lit [("name", obj_lit [("en", VStr (pretty id))])]);
    ("details", obj_lit [("joined_modules", VStr (String.concat "," names));
                         ("modules", VArr (sampleModuleOf <$> names));
                         (key, VArr ((λ i, obj_lit [("id", vint i)]) <$> linked))])].

(** Three policies; the first is linked to the group, the third shares a
    module with it. *)
Definition threePolicies : list val :=
  [sampleEntity 1 ["a"; "b"] "groups" [10%Z]; sampleEntity 2 ["c"] "groups" [];
   sampleEntity 3 ["b"; "d"] "groups" []].
Definition sampleGroup : val := sampleEntity 10 ["a"; "b"] "policies" [1%Z].
Definition linkedGroup : val := sampleEntity 10 ["a"; "b"; "c"] "policies" [1%Z; 2%Z].
Definition sampleShared : SharedStore.State :=
  { SharedStore.initialState with SharedStore.allPolicies := VArr threePolicies;
                                  SharedStore.allGroups := VArr [sampleGroup] }.

Ltac prove_item_ok :=
  split; [by eexists|by eexists|reflexivity|];
  eexists; split; [reflexivity|repeat (apply List.Forall_cons || apply List.Forall_nil)];
  (split; by eexists).

Lemma threePolicies_ok : Forall item_ok threePolicies.
Proof. repeat (apply List.Forall_cons || apply List.Forall_nil); prove_item_ok. Qed.

Lemma threePolicies_members : Forall (members_ok "groups") threePolicies.
Proof.
  repeat (apply List.Forall_cons || apply List.Forall_nil); eexists; (split; [reflexivity|]);
    repeat (apply List.Forall_cons || apply List.Forall_nil); by eexists.
Qed.

Lemma sampleGroup_ok : item_ok sampleGroup ∧ members_ok "policies" sampleGroup.
Proof.
  split; [prove_item_ok|]. eexists. split; [reflexivity|].
  repeat (apply List.Forall_cons || apply List.Forall_nil). by eexists.
Qed.

Definition names_of_offer (l : list val) : list string := idKey <$> l.
Definition offered (sh : SharedStore.State) (group : val) : Offer :=
  match offer GroupLinks sh group with Ok (Some o) => o | _ => mkOffer [] [] [] VUndef end.

Example sample_offer :
  let o := offered sampleShared sampleGroup in
  (names_of_offer (linkedItems o), names_of_offer (availableItems o), names_of_offer (unavailableItems o)) =
    (["1"], ["2"], ["3"]).
Proof. by vm_compute. Qed.

Lemma linking_keeps_modules_apart_witness :
  ∃ o', offer GroupLinks sampleShared linkedGroup = Ok (Some o') ∧
    sampleEntity 2 ["c"] "groups" [] ∈ linkedItems o' ∧ apart (linkedItems o').
Proof.
  apply (linking_keeps_modules_apart sampleShared sampleGroup linkedGroup [vint 1] threePolicies
    (offered sampleShared sampleGroup) (sampleEntity 2 ["c"] "groups" []) 2);
    [reflexivity|reflexivity|reflexivity|exact threePolicies_ok| |reflexivity|vm_compute; reflexivity| |].
  - apply (bool_decide_unpack _); vm_compute; reflexivity.
  - apply list_elem_of_here.
  - intros p q Hp Hq Hne. assert (linkedItems (offered sampleShared sampleGroup) =
      [sampleEntity 1 ["a"; "b"] "groups" [10%Z]]) as Hl by (vm_compute; reflexivity).
    rewrite Hl in Hp, Hq. apply list_elem_of_singleton in Hp, Hq. by subst.
Defined.

Lemma sampleGroup_coherent : coherent threePolicies sampleGroup.
Proof.
  destruct sampleGroup_ok as [Hi Hm]. split; [done|done| |].
  - intros m. change (moduleNames sampleGroup) with ["a"; "b"]. split.
    + intros Hin. exists (sampleEntity 1 ["a"; "b"] "groups" [10%Z]).
      split; [apply list_elem_of_here|]. by split.
    + intros (q & Hq & Hl & Hin). apply list_elem_of_lookup in Hq as [i Hq].
      destruct i as [|[|[|i]]]; cbn in Hq; [|injection Hq as <-; by vm_compute in Hl..|done].
      by injection Hq as <-.
  - intros m [->|[->|Hm']%elem_of_cons]%elem_of_cons; [reflexivity..|].
    by apply elem_of_nil in Hm'.
Qed.

Lemma both_pages_agree_witness :
  ∃ og op, offer GroupLinks sampleShared sampleGroup = Ok (Some og) ∧
    offer PolicyLinks sampleShared (sampleEntity 3 ["b"; "d"] "groups" []) = Ok (Some op) ∧
    sampleEntity 3 ["b"; "d"] "groups" [] ∈ unavailableItems og ∧ sampleGroup ∈ unavailableItems op.
Proof.
  destruct (both_pages_agree sampleShared threePolicies [sampleGroup]
    (sampleEntity 3 ["b"; "d"] "groups" []) sampleGroup) as (og & op & Hog & Hop & _ & Hu);
    [reflexivity|reflexivity|exact threePolicies_ok|apply Forall_singleton, sampleGroup_coherent
    |exact threePolicies_members|apply (bool_decide_unpack _); vm_compute; reflexivity..
    |apply list_elem_of_further, list_elem_of_further, list_elem_of_here|apply list_elem_of_here|reflexivity|].
  exists og, op. split; [exact Hog|]. split; [exact Hop|].
  assert (sampleEntity 3 ["b"; "d"] "groups" [] ∈ unavailableItems og) as H3.
  { assert (offer GroupLinks sampleShared sampleGroup = Ok (Some (offered sampleShared sampleGroup))) as Ho
      by (vm_compute; reflexivity).
    rewrite Hog in Ho. injection Ho as ->. apply list_elem_of_here. }
  split; [exact H3|by apply Hu].
Defined.

Lemma each_failure_reported_witness :
  ∃ s' w, foldM watchStep (PoliciesStore.initialState, watching PoliciesStore.initialState, 0)
    (linking [VStr "Policies.Modules"; VUndef; VStr "Policies.Modules"]) = Ok (s', w, 2).
Proof.
  exact (each_failure_reported PoliciesStore.initialState
    [VStr "Policies.Modules"; VUndef; VStr "Policies.Modules"] eq_refl).
Defined.

(** ** What goes wrong *)

(** An item without details, which other code reads with [?.], ends the stream. *)
Example item_without_details_throws :
  offer GroupLinks { sampleShared with SharedStore.allPolicies := VArr [obj_lit [("id", vint 1)]] }
    sampleGroup = Throw TypeError.
Proof. by vm_compute. Qed.

(** Sorting the popover by policy does not sort it: the list by policies reads
    the direction chosen for the modules. *)
Example policy_direction_ignored (localeCompare : string → string → Z) lang optional conflicts p d :
  shownByPolicy localeCompare lang optional conflicts (toggleSortByPolicy d p) =
  shownByPolicy localeCompare lang optional conflicts p.
Proof. by destruct p. Qed.

(** On the page of a policy, a group that uses a module but does not list it
    among its modules is offered. *)
Definition forgetfulGroup : val :=
  obj_lit [("id", vint 10); ("hash", VStr "10");
    ("details", obj_lit [("joined_modules", VStr "a,b"); ("modules", VArr []);
                         ("policies", VArr [obj_lit [("id", vint 1)]])])].

Definition offeredGroups (group : val) : res (list string) :=
  o ← offer PolicyLinks { sampleShared with SharedStore.allGroups := VArr [group] }
        (sampleEntity 3 ["b"; "d"] "groups" []);
  Ok (match o with Some o => names_of_offer (availableItems o) | None => [] end).

Example forgetful_group_is_offered : offeredGroups forgetfulGroup = Ok ["10"].
Proof. by vm_compute. Qed.

(** A failed request is only shown when the panel is open: before it was
    opened the message throws, after it was closed it is dropped. *)
Example message_needs_panel text :
  processedError text (newPanel false) = Throw TypeError ∧
  processedError text (closeSidePanel (open GroupLinks (newPanel false)).2) =
    Ok (closeSidePanel (open GroupLinks (newPanel false)).2).
Proof. by split. Qed.
