(* ===== verification/ModulesConfig.v ===== *)
(** * The modules of a policy

    [ModulesConfigComponent] ([shared/src/lib/components/modules-config]): the
    page of a policy, a group or an agent lists the modules of the policy in
    four parts, selects one of them, and enables, disables, deletes, updates
    and configures it.  What the subscriptions to the store emit is followed
    value by value: a selector emits when its value changes, and the flag of a
    request is subscribed to before its error. *)

From Stdlib Require Import Ascii.
From stdpp Require Import list sorting.
From S2P Require Import Prelude JsValue JsString Models ModuleEditDefaults EventActions LinkPolicy.
From S2P Require ModulesInstancesStore ListFacades.
Import ModulesInstancesStore.

#[export] Instance val_eq_decision : EqDecision val := val_eq_dec.

(** ** Consistency *)

(** [consistencyByModuleName$]: one round of [reduce]. *)
Definition addDependency (acc dependency : val) : res val :=
  name ← get dependency "source_module_name";
  status ← get dependency "status";
  prevValue ← get acc (to_string name);
  Ok (spread acc [(to_string name, if is_undef prevValue then status else js_and prevValue status)]).

Definition consistencyByModuleName (dependencies : list val) : res val :=
  foldM addDependency (VObj []) dependencies.

(** [consistency[name] || consistency[name] === undefined] *)
Definition isConsistent (consistency : val) (name : string) : bool :=
  match get consistency name with
  | Ok c => truthy c || is_undef c
  | Throw _ => true
  end.

(** ** The four lists *)

Section lists.
Context `{Collation}.
Context (language : string) (policy : val).

(** [policy?.info?.system] *)
Definition system : res val := info ← getq policy "info"; getq info "system".

(** [module.locale.module[language].title] *)
Definition titleOf (module : val) : res val := get_path module ["locale"; "module"; language; "title"].

Definition strict_bool (v : val) (b : bool) : bool :=
  match v with VBool c => Bool.eqb b c | _ => false end.

(** The comparison of [enabledModules$]: modules with unmet dependencies come
    first.  Modules without a title are not represented. *)
Definition enabledBefore (consistency : val) (a b : string * (string * val)) : Prop :=
  match isConsistent consistency a.2.1, isConsistent consistency b.2.1 with
  | true, false => False
  | false, true => True
  | _, _ => before a b
  end.

#[export] Instance enabledBefore_dec consistency a b : Decision (enabledBefore consistency a b).
Proof. unfold enabledBefore. repeat destruct (isConsistent _ _); apply _. Defined.

Definition sortEnabled (consistency : val) (l : list val) : res (list val) :=
  if length l <=? 1 then Ok l
  else
    named ← mapM (λ m,
      n ← get_path m ["info"; "name"];
      match titleOf m with
      | Ok (VStr t) => Ok (t, (to_string n, m))
      | _ => Throw Unsupported
      end) l;
    Ok (merge_sort (enabledBefore consistency) named).*2.*2.

Definition isEnabled (item : val) : res bool := s ← get item "status"; Ok (is_str s "joined").

Definition isDisabled (item : val) : res bool :=
  s ← get item "status";
  if is_str s "inactive" then
    details ← get item "details"; e ← getq details "exists"; Ok (truthy e)
  else Ok false.

(** [item?.details.exists], [item?.details.duplicate] *)
Definition detail (key : string) (item : val) : res val := getq_path item ["details"; key].

Definition isNotInstalled (item : val) : res bool :=
  e ← detail "exists" item;
  if strict_bool e false then
    d ← detail "duplicate" item;
    if strict_bool d false then s ← system; Ok (strict_bool s false) else Ok false
  else Ok false.

Definition isUnavailable (item : val) : res bool :=
  d ← detail "duplicate" item;
  some ← (if truthy d then Ok true else s ← system; Ok (truthy s));
  if (some : bool) then e ← detail "exists" item; Ok (strict_bool e false) else Ok false.

Definition enabledModules (modules : list val) (consistency : val) : res (list val) :=
  l ← filterM isEnabled modules; sortEnabled consistency l.
Definition disabledModules (modules : list val) : res (list val) :=
  l ← filterM isDisabled modules; sortByTitle titleOf l.
Definition notInstalledModules (modules : list val) : res (list val) :=
  l ← filterM isNotInstalled modules; sortByTitle titleOf l.
Definition unavailableForInstallation (modules : list val) : res (list val) :=
  l ← filterM isUnavailable modules; sortByTitle titleOf l.

(** The four lists, in the order in which they are shown. *)
Record Lists := mkLists {
  enabled : list val; disabled : list val; notInstalled : list val; unavailable : list val
}.

Definition defineLists (modules dependencies : list val) : res Lists :=
  consistency ← consistencyByModuleName dependencies;
  e ← enabledModules modules consistency;
  d ← disabledModules modules;
  n ← notInstalledModules modules;
  u ← unavailableForInstallation modules;
  Ok (mkLists e d n u).

Definition shown (l : Lists) : list val := enabled l ++ disabled l ++ notInstalled l ++ unavailable l.

(** ** Selection *)

(** [defaultModuleName]: the name of the first module, when there is one. *)
Definition defaultModuleName (l : Lists) : res val :=
  match shown l with
  | [] => Ok VUndef
  | m :: _ => get_path m ["info"; "name"]
  end.

(** [selectedModule$] *)
Definition selectedModule (modules : list val) (name : val) : res val :=
  find_list (λ m, n ← get_path m ["info"; "name"]; Ok (strict_eq n name)) modules.

(** [isReadOnly]; [editPolicies] is the permission of the user. *)
Definition isReadOnly (viewMode : string) (editPolicies : bool) : res bool :=
  if negb (String.eqb viewMode "policies") then Ok true
  else s ← system; Ok (truthy s || negb editPolicies).
End lists.

(** ** Requests *)

(** What the page emits and shows. *)
Inductive Output :=
| Refresh
| AfterChangeModuleState
| AfterChangeModuleConfig (module : val)
| ErrorInfoModal (text : string).

(** [pairwise(), combineLatestWith(error$)]: the values for which the
    subscriber is called when the store changes, the flag before the error. *)
Definition called (w : Watch) : list (bool * bool * val) :=
  match pair w, lastError w with Some p, Some e => [(p, e)] | _, _ => [] end.

Definition follow (flag : bool) (error : val) (w : Watch) : Watch * list (bool * bool * val) :=
  let '(w, c1) := (if decide (lastFlag w = Some flag) then (w, [])
                   else let w := (onFlag flag w).1 in (w, called w)) in
  if decide (lastError w = Some error) then (w, c1)
  else let w := (onError error w).1 in (w, c1 ++ called w).

Definition afterToggleModule (error : val) (text : string) : list Output :=
  if truthy error then [ErrorInfoModal text] else [Refresh; AfterChangeModuleState].

(** The four subscribers of [defineOperationsObservables]. *)
Definition onToggle (text : string) (c : bool * bool * val) : list Output :=
  if c.1.1 && negb c.1.2 then afterToggleModule c.2 text else [].

Definition onDelete (c : bool * bool * val) : list Output :=
  if c.1.1 && negb c.1.2 && negb (truthy c.2) then [Refresh] else [].

Definition onChangeVersion (text : string) (c : bool * bool * val) : list Output :=
  if c.1.1 && negb c.1.2 then
    if truthy c.2 then [ErrorInfoModal text] else [Refresh]
  else [].

Record Watches := mkWatches { disabling : Watch; enabling : Watch; deleting : Watch; changing : Watch }.
Definition newWatches : Watches := mkWatches newWatch newWatch newWatch newWatch.

(** A change of the store. *)
Definition onState (s : State) (ws : Watches) : Watches * list Output :=
  let '(w1, c1) := follow (isDisablingModule s) (disableModuleError s) (disabling ws) in
  let '(w2, c2) := follow (isEnablingModule s) (enableModuleError s) (enabling ws) in
  let '(w3, c3) := follow (isDeletingModule s) (deleteModuleError s) (deleting ws) in
  let '(w4, c4) := follow (isChangingVersion s) (changeVersionError s) (changing ws) in
  (mkWatches w1 w2 w3 w4,
   mjoin (onToggle "shared.Shared.ModulesConfig.ErrorText.Disable" <$> c1) ++
   mjoin (onToggle "shared.Shared.ModulesConfig.ErrorText.Enable" <$> c2) ++
   mjoin (onDelete <$> c3) ++
   mjoin (onChangeVersion "shared.Shared.ModulesConfig.ErrorText.ChangeVersion" <$> c4)).

Definition watchingState (s : State) : Watches := (onState s newWatches).1.

(** An action of the store: the watches and what they emit. *)
Definition pageStep (st : State * Watches * list Output) (a : Action) :
    res (State * Watches * list Output) :=
  s ← reducer st.1.1 a;
  let '(ws, out) := onState s st.1.2 in
  Ok (s, ws, st.2 ++ out).

(** The buttons. *)
Definition doEnableModule (policy module : val) : res (list Action) :=
  hash ← (h ← get policy "hash"; as_string h); name ← (n ← get_path module ["info"; "name"]; as_string n);
  Ok (ListFacades.ModulesInstancesFacade.enableModule hash name).
Definition doDisableModule (policy module : val) : res (list Action) :=
  hash ← (h ← get policy "hash"; as_string h); name ← (n ← get_path module ["info"; "name"]; as_string n);
  Ok (ListFacades.ModulesInstancesFacade.disableModule hash name).

(** [saveModuleEventConfig]: [pairwise(), take(2), withLatestFrom(saveError$)];
    the error is subscribed to first.  [flags] are the values of the flag from
    the subscription on, with the error at that moment. *)
Definition savedOutputs (onlyConfig : bool) (module : val) (flags : list (bool * val)) : list Output :=
  mjoin ((λ p : (bool * val) * (bool * val),
    if p.1.1 && negb p.2.1 && negb (truthy p.2.2)
    then [if onlyConfig then AfterChangeModuleState else AfterChangeModuleConfig module] else [])
  <$> take 2 (zip flags (tail flags))).

(** ** Consistency is a conjunction *)

Definition dependency_ok (d : val) : Prop :=
  is_obj d ∧ (∃ n, prop d "source_module_name" = VStr n) ∧ ∃ b, prop d "status" = VBool b.

Definition statusesOf (name : string) (dependencies : list val) : list val :=
  (λ d, prop d "status") <$> List.filter (λ d, is_str (prop d "source_module_name") name) dependencies.

Definition conjunction (statuses : list val) : val :=
  match statuses with [] => VUndef | _ => VBool (forallb truthy statuses) end.

Lemma conjunction_app l b :
  conjunction (l ++ [VBool b]) = if is_undef (conjunction l) then VBool b else js_and (conjunction l) (VBool b).
Proof.
  destruct l as [|v l]; [by destruct b|]. unfold conjunction. cbn [app is_undef]. unfold js_and.
  change (v :: l ++ [VBool b]) with ((v :: l) ++ [VBool b]).
  rewrite forallb_app. cbn [forallb truthy]. rewrite andb_true_r.
  by destruct (truthy v && forallb truthy l).
Qed.

(** The value under the name of a module is the conjunction of the statuses of
    the dependencies it is the source of; there is none without a dependency. *)
Lemma consistency_conj dependencies :
  Forall dependency_ok dependencies →
  ∃ c, consistencyByModuleName dependencies = Ok c ∧ is_obj c ∧
    ∀ name, prop c name = conjunction (statusesOf name dependencies).
Proof.
  intros HF. unfold consistencyByModuleName.
  assert (∀ acc done', is_obj acc → (∀ name, prop acc name = conjunction (statusesOf name done')) →
    ∃ c, foldM addDependency acc dependencies = Ok c ∧ is_obj c ∧
      ∀ name, prop c name = conjunction (statusesOf name (done' ++ dependencies))) as H.
  { induction HF as [|d ds (Ho & (n & Hn) & b & Hb) _ IH]; intros acc done' Ha Hc.
    { exists acc. by rewrite app_nil_r. }
    assert (addDependency acc d = Ok (spread acc [(n,
      if is_undef (prop acc n) then VBool b else js_and (prop acc n) (VBool b))])) as Hd.
    { unfold addDependency. rewrite !(get_is_obj d), Hn, Hb by done. cbn [mbind res_bind to_string].
      by rewrite get_is_obj. }
    cbn [foldM]. rewrite Hd, Hc. cbn [mbind res_bind].
    replace (done' ++ d :: ds) with ((done' ++ [d]) ++ ds) by by rewrite <-app_assoc.
    destruct Ha as [o ->]. apply IH; [by eexists|]. intros name. unfold spread. cbn [prop own_props obj_assign foldl].
    unfold obj_lookup. cbn [fst snd]. rewrite obj_get_set. unfold statusesOf. rewrite List.filter_app, fmap_app.
    cbn [List.filter]. rewrite Hn. cbn [is_str].
    destruct (String.eqb_spec name n) as [->|Hne].
    - rewrite String.eqb_refl. cbn [fmap list_fmap default from_option id]. by rewrite Hb, conjunction_app.
    - assert (String.eqb n name = false) as -> by (apply String.eqb_neq; congruence).
      cbn [fmap list_fmap]. rewrite app_nil_r. apply (Hc name). }
  destruct (H (VObj []) []) as (c & ? & ? & ?); [by eexists|done|]. by exists c.
Qed.

(** ** Every module is in one list *)

Section partition.
Context `{Collation}.
Context (language : string) (policy : val).

(** A module of a policy: it has a title and a status, and the details say
    whether it is installed and whether it is a duplicate. *)
Record listed (m : val) : Prop := {
  listed_title : ∃ t, titleOf language m = Ok (VStr t);
  listed_name : ∃ n, get_path m ["info"; "name"] = Ok n;
  listed_obj : is_obj m;
  listed_details : is_obj (prop m "details");
  listed_status : prop m "status" = VStr "joined" ∨ prop m "status" = VStr "inactive";
  listed_flags : ∃ e d, prop (prop m "details") "exists" = VBool e ∧
    prop (prop m "details") "duplicate" = VBool d ∧ (prop m "status" = VStr "joined" → e = true)
}.

Definition flag (key : string) (m : val) : bool := truthy (prop (prop m "details") key).

(** The list a module belongs to. *)
Definition place (sys : bool) (m : val) : nat :=
  if is_str (prop m "status") "joined" then 0
  else if flag "exists" m then 1
  else if flag "duplicate" m || sys then 3 else 2.

Lemma filters_by_place {A} (f : A → nat) l :
  (∀ x, x ∈ l → f x < 4) →
  List.filter (λ x, Nat.eqb (f x) 0) l ++ List.filter (λ x, Nat.eqb (f x) 1) l ++
  List.filter (λ x, Nat.eqb (f x) 2) l ++ List.filter (λ x, Nat.eqb (f x) 3) l ≡ₚ l.
Proof.
  induction l as [|x l IH]; intros Hl; [done|]. cbn [List.filter].
  specialize (IH (λ y Hy, Hl y (list_elem_of_further _ _ _ Hy))).
  pose proof (Hl x (list_elem_of_here _ _)) as Hx.
  destruct (f x) as [|[|[|[|n]]]]; [| | | |lia]; cbn [Nat.eqb app].
  - by rewrite IH.
  - by rewrite <-Permutation_middle, IH.
  - rewrite <-Permutation_middle, app_assoc, <-Permutation_middle, <-app_assoc. by rewrite IH.
  - rewrite !app_assoc, <-Permutation_middle, <-!app_assoc. by rewrite IH.
Qed.

Lemma sortByTitle_perm l :
  Forall listed l → ∃ l', sortByTitle (titleOf language) l = Ok l' ∧ l' ≡ₚ l.
Proof.
  intros HF. unfold sortByTitle. destruct (length l <=? 1); [by exists l|].
  destruct (mapM_build (λ x, t ← titleOf language x; match t with VStr s => Ok (s, x) | _ => Throw Unsupported end)
    (λ x y, y.2 = x) l) as (titled & -> & H2).
  { intros x Hx. rewrite Forall_forall in HF. destruct (listed_title _ (HF x Hx)) as (t & ->).
    by exists (t, x). }
  eexists. split; [done|]. assert (titled.*2 = l) as <-.
  { clear -H2. induction H2 as [|x y l k Hxy H2 IH]; [done|]. cbn [fmap list_fmap]. by rewrite Hxy, IH. }
  apply fmap_Permutation, merge_sort_Permutation.
Qed.

Lemma sortEnabled_perm consistency l :
  Forall listed l → ∃ l', sortEnabled language consistency l = Ok l' ∧ l' ≡ₚ l.
Proof.
  intros HF. unfold sortEnabled. destruct (length l <=? 1); [by exists l|].
  destruct (mapM_build (λ m, n ← get_path m ["info"; "name"];
      match titleOf language m with Ok (VStr t) => Ok (t, (to_string n, m)) | _ => Throw Unsupported end)
    (λ x y, y.2.2 = x) l) as (named & Hn & H2).
  { intros x Hx. rewrite Forall_forall in HF. destruct (listed_title _ (HF x Hx)) as (t & ->).
    destruct (listed_name _ (HF x Hx)) as (n & ->). by exists (t, (to_string n, x)). }
  rewrite Hn. eexists. split; [done|]. assert (named.*2.*2 = l) as <-.
  { clear -H2. induction H2 as [|x y l k Hxy H2 IH]; [done|]. cbn [fmap list_fmap]. by rewrite Hxy, IH. }
  apply fmap_Permutation, fmap_Permutation, merge_sort_Permutation.
Qed.

Lemma filter_place (p : val → res bool) sys i l :
  (∀ m, m ∈ l → p m = Ok (Nat.eqb (place sys m) i)) →
  filterM p l = Ok (List.filter (λ m, Nat.eqb (place sys m) i) l).
Proof. apply filterM_pure. Qed.

Lemma listed_filters sys m :
  system policy = Ok (VBool sys) → listed m →
  isEnabled m = Ok (Nat.eqb (place sys m) 0) ∧ isDisabled m = Ok (Nat.eqb (place sys m) 1) ∧
  isNotInstalled policy m = Ok (Nat.eqb (place sys m) 2) ∧ isUnavailable policy m = Ok (Nat.eqb (place sys m) 3).
Proof.
  intros Hs [_ _ Ho Hd Hst (e & d & He & Hdu & Hje)].
  assert (is_nullish m = false) as Hm by (by destruct Ho as [o ->]).
  assert (detail "exists" m = Ok (VBool e)) as He'.
  { unfold detail, getq_path. rewrite Hm. cbn [get_path]. rewrite get_is_obj by done. cbn [mbind res_bind].
    rewrite get_is_obj, He by done. done. }
  assert (detail "duplicate" m = Ok (VBool d)) as Hd'.
  { unfold detail, getq_path. rewrite Hm. cbn [get_path]. rewrite get_is_obj by done. cbn [mbind res_bind].
    rewrite get_is_obj, Hdu by done. done. }
  unfold isEnabled, isDisabled, isNotInstalled, isUnavailable. rewrite !(get_is_obj m) by done.
  rewrite He', Hd', Hs. cbn [mbind res_bind]. rewrite !(getq_obj (prop m "details")) by done.
  rewrite He. cbn [mbind res_bind]. unfold place, flag. rewrite He, Hdu.
  destruct Hst as [Hst|Hst]; rewrite Hst; [rewrite Hje by done|]; destruct d, sys; try done; by destruct e.
Qed.

(** What puts a module in one of the lists. *)
Definition isActive (m : val) : bool := is_str (prop m "status") "joined".
Definition isInactive (m : val) : bool := is_str (prop m "status") "inactive" && flag "exists" m.
Definition isInstallable (sys : bool) (m : val) : bool :=
  negb (flag "exists" m) && negb (flag "duplicate" m) && negb sys.
Definition isExcluded (sys : bool) (m : val) : bool :=
  negb (flag "exists" m) && (flag "duplicate" m || sys).

Lemma place_conditions sys m :
  listed m →
  isActive m = Nat.eqb (place sys m) 0 ∧ isInactive m = Nat.eqb (place sys m) 1 ∧
  isInstallable sys m = Nat.eqb (place sys m) 2 ∧ isExcluded sys m = Nat.eqb (place sys m) 3.
Proof.
  intros [_ _ _ _ Hst (e & d & He & Hd & Hje)].
  unfold isActive, isInactive, isInstallable, isExcluded, place, flag. rewrite He, Hd. cbn [truthy].
  destruct Hst as [Hst|Hst]; rewrite Hst in *; [rewrite Hje by done|]; destruct d, sys; try done;
    by destruct e.
Qed.

(** C32: in a policy whose modules have a title, a status (joined or inactive)
    and the details that say whether they are installed and whether they are
    duplicates, a joined module being installed ([listed]): every module is in
    exactly one of the four lists.  Active are the modules that joined,
    inactive those that are installed and have not joined; of those that are
    not installed, the ones that are no duplicates can be installed unless the
    policy is a system policy, and the duplicates, or all of them in a system
    policy, cannot. *)
Theorem every_module_listed_once modules dependencies sys :
  system policy = Ok (VBool sys) → Forall listed modules → Forall dependency_ok dependencies →
  ∃ l, defineLists language policy modules dependencies = Ok l ∧ shown l ≡ₚ modules ∧
    enabled l ≡ₚ List.filter isActive modules ∧
    disabled l ≡ₚ List.filter isInactive modules ∧
    notInstalled l ≡ₚ List.filter (isInstallable sys) modules ∧
    unavailable l ≡ₚ List.filter (isExcluded sys) modules.
Proof.
  intros Hs HF HD. destruct (consistency_conj dependencies HD) as (c & Hc & _).
  assert (∀ m, m ∈ modules → listed m) as HF' by (by apply Forall_forall).
  assert (∀ p : val → bool, Forall listed (List.filter p modules)) as HL by (intros p; by apply Forall_List_filter).
  unfold defineLists, enabledModules, disabledModules, notInstalledModules, unavailableForInstallation.
  rewrite Hc. cbn [mbind res_bind].
  rewrite !(filter_place isEnabled sys 0), !(filter_place isDisabled sys 1),
    !(filter_place (isNotInstalled policy) sys 2), !(filter_place (isUnavailable policy) sys 3)
    by (intros m Hm; by apply listed_filters, HF').
  cbn [mbind res_bind].
  destruct (sortEnabled_perm c _ (HL (λ m, Nat.eqb (place sys m) 0))) as (l0 & -> & H0).
  destruct (sortByTitle_perm _ (HL (λ m, Nat.eqb (place sys m) 1))) as (l1 & -> & H1).
  destruct (sortByTitle_perm _ (HL (λ m, Nat.eqb (place sys m) 2))) as (l2 & -> & H2).
  destruct (sortByTitle_perm _ (HL (λ m, Nat.eqb (place sys m) 3))) as (l3 & -> & H3).
  cbn [mbind res_bind]. eexists. split; [done|]. unfold shown. cbn [enabled disabled notInstalled unavailable].
  rewrite H0, H1, H2, H3. split.
  - apply filters_by_place. intros m _. unfold place. repeat case_match; lia.
  - split_and!; apply Permutation_refl', filter_ext_in;
      intros m Hm%list_elem_of_In%HF'; symmetry; by apply place_conditions.
Qed.
End partition.

(** ** What a failed request leads to *)

Definition disableText : string := "shared.Shared.ModulesConfig.ErrorText.Disable".

(** Requests to disable a module, one after the other. *)
Definition disablingAll (outcomes : list val) : list Action :=
  mjoin ((λ e, [disableModule "hash" "name";
                if truthy e then disableModuleFailure e else disableModuleSuccess]) <$> outcomes).

Definition reportOf (e : val) : list Output :=
  [Refresh; AfterChangeModuleState] ++ (if truthy e then [ErrorInfoModal disableText] else []).

(** The watches of the requests that are not running stay as they are. *)
Record quiet (s : State) (ws : Watches) : Prop := {
  quiet_disabling : lastFlag (disabling ws) = Some (isDisablingModule s) ∧
    lastError (disabling ws) = Some (disableModuleError s);
  quiet_enabling : lastFlag (enabling ws) = Some (isEnablingModule s) ∧
    lastError (enabling ws) = Some (enableModuleError s);
  quiet_deleting : lastFlag (deleting ws) = Some (isDeletingModule s) ∧
    lastError (deleting ws) = Some (deleteModuleError s);
  quiet_changing : lastFlag (changing ws) = Some (isChangingVersion s) ∧
    lastError (changing ws) = Some (changeVersionError s)
}.

Lemma follow_same flag error w :
  lastFlag w = Some flag → lastError w = Some error → follow flag error w = (w, []).
Proof. intros Hf He. unfold follow. by rewrite decide_True, decide_True. Qed.

Lemma onState_other s s' ws :
  quiet s ws → isEnablingModule s' = isEnablingModule s → enableModuleError s' = enableModuleError s →
  isDeletingModule s' = isDeletingModule s → deleteModuleError s' = deleteModuleError s →
  isChangingVersion s' = isChangingVersion s → changeVersionError s' = changeVersionError s →
  ∀ w c, follow (isDisablingModule s') (disableModuleError s') (disabling ws) = (w, c) →
  onState s' ws = (mkWatches w (enabling ws) (deleting ws) (changing ws),
                   mjoin (onToggle disableText <$> c)).
Proof.
  intros [_ [H1 H2] [H3 H4] [H5 H6]] E1 E2 E3 E4 E5 E6 w c Hw. unfold onState. rewrite Hw, E1, E2, E3, E4, E5, E6.
  rewrite (follow_same _ _ (enabling ws)), (follow_same _ _ (deleting ws)), (follow_same _ _ (changing ws)) by done.
  cbn [fmap list_fmap mjoin list_join]. by rewrite !app_nil_r.
Qed.

(** A request starts: the flag is up and the error is gone. *)
Lemma follow_start w e :
  lastFlag w = Some false → lastError w = Some e →
  ∃ w' c, follow true VUndef w = (w', c) ∧ lastFlag w' = Some true ∧ lastError w' = Some VUndef ∧
    mjoin (onToggle disableText <$> c) = [].
Proof.
  destruct w as [lf pr le]. cbn [lastFlag lastError]. intros -> ->. unfold follow.
  rewrite decide_False by done. cbn. destruct (decide (Some e = Some VUndef)) as [[= ->]|_];
    do 2 eexists; split; done.
Qed.

(** It ends: the flag falls, then the error comes. *)
Lemma follow_end w e :
  lastFlag w = Some true → lastError w = Some VUndef →
  ∃ w' c, follow false (if truthy e then e else VUndef) w = (w', c) ∧ lastFlag w' = Some false ∧
    lastError w' = Some (if truthy e then e else VUndef) ∧
    mjoin (onToggle disableText <$> c) = reportOf e.
Proof.
  destruct w as [lf pr le]. cbn [lastFlag lastError]. intros -> ->. unfold follow, reportOf.
  rewrite decide_False by done. cbn. destruct (truthy e) eqn:Ht.
  - rewrite decide_False by by intros [= <-]. do 2 eexists. split; [done|]. split; [done|]. split; [done|].
    cbn. unfold onToggle, afterToggleModule. cbn. by rewrite Ht.
  - rewrite decide_True by done. do 2 eexists. split; done.
Qed.

Lemma pageStep_eq s ws out a s' ws' new :
  reducer s a = Ok s' → onState s' ws = (ws', new) → pageStep (s, ws, out) a = Ok (s', ws', out ++ new).
Proof. intros H1 H2. unfold pageStep. cbn [fst snd]. rewrite H1. cbn [mbind res_bind]. by rewrite H2. Qed.

(** C33: a request to disable a module that fails is first taken for one that
    succeeded: after every request the page refreshes and reports that the
    module has changed; a failed one shows its message after that. *)
Theorem failed_toggle_reported_as_change s outcomes :
  isDisablingModule s = false →
  ∃ s' ws', foldM pageStep (s, watchingState s, []) (disablingAll outcomes) =
    Ok (s', ws', mjoin (reportOf <$> outcomes)).
Proof.
  intros Hs.
  assert (∀ s ws out, isDisablingModule s = false → quiet s ws →
    ∃ s' ws', foldM pageStep (s, ws, out) (disablingAll outcomes) =
      Ok (s', ws', out ++ mjoin (reportOf <$> outcomes))) as H.
  { clear s Hs. induction outcomes as [|e outcomes IH]; intros s ws out Hs Hq.
    { exists s, ws. cbn. by rewrite app_nil_r. }
    change (disablingAll (e :: outcomes)) with
      (disableModule "hash" "name" :: (if truthy e then disableModuleFailure e else disableModuleSuccess)
       :: disablingAll outcomes).
    cbn [foldM]. pose proof Hq as [[Hf He] Hq1 Hq2 Hq3]. rewrite Hs in Hf.
    destruct (follow_start _ _ Hf He) as (w1 & c1 & Hw1 & Hf1 & He1 & Hc1).
    set (s1 := { s with isDisablingModule := true; disableModuleError := VUndef }).
    rewrite (pageStep_eq s ws out _ s1 (mkWatches w1 (enabling ws) (deleting ws) (changing ws)) [])
      by (done || (rewrite <-Hc1; by apply (onState_other s s1 ws))).
    cbn [mbind res_bind]. rewrite app_nil_r.
    destruct (follow_end w1 e Hf1 He1) as (w2 & c2 & Hw2 & Hf2 & He2 & Hc2).
    set (s2 := { s1 with isDisablingModule := false; disableModuleError := if truthy e then e else VUndef }).
    rewrite (pageStep_eq s1 _ out _ s2 (mkWatches w2 (enabling ws) (deleting ws) (changing ws)) (reportOf e)).
    2: by destruct (truthy e).
    2: { rewrite <-Hc2.
         apply (onState_other s1 s2 (mkWatches w1 (enabling ws) (deleting ws) (changing ws))); [|done..].
         by split. }
    cbn [mbind res_bind]. destruct (IH s2 (mkWatches w2 (enabling ws) (deleting ws) (changing ws)) (out ++ reportOf e))
      as (s' & ws' & ->); [done|by split|].
    exists s', ws'. cbn [fmap list_fmap mjoin list_join]. by rewrite <-app_assoc. }
  destruct (H s (watchingState s) []) as (s' & ws' & Hr); [done|by split|]. by exists s', ws'.
Qed.

(** ** The theorems at concrete inputs *)

Lemma failed_toggle_reported_as_change_witness :
  ∃ s' ws', foldM pageStep (initialState, watchingState initialState, [])
      (disablingAll [VStr "Policies.Modules"; VUndef]) =
    Ok (s', ws', [Refresh; AfterChangeModuleState; ErrorInfoModal disableText; Refresh; AfterChangeModuleState]).
Proof.
  exact (failed_toggle_reported_as_change initialState [VStr "Policies.Modules"; VUndef] eq_refl).
Defined.

(** Selecting another module resets the errors: after a failure the page once
    more reports that the module has changed. *)
Definition outputsOf (actions : list Action) : list Output :=
  match foldM pageStep (initialState, watchingState initialState, []) actions with
  | Ok (_, _, out) => out
  | Throw _ => []
  end.

Example reset_after_failure_refreshes :
  outputsOf (disablingAll [VStr "error"] ++ ListFacades.ModulesInstancesFacade.resetModuleErrors) =
  reportOf (VStr "error") ++ [Refresh; AfterChangeModuleState].
Proof. by vm_compute. Qed.

Definition listedModule (name status : string) (installed duplicate : bool) : val :=
  obj_lit [("info", obj_lit [("name", VStr name)]); ("status", VStr status);
    ("locale", obj_lit [("module", obj_lit [("en", obj_lit [("title", VStr name)])])]);
    ("details", obj_lit [("exists", VBool installed); ("duplicate", VBool duplicate)])].

Definition fourModules : list val :=
  [listedModule "a" "inactive" false true; listedModule "b" "inactive" false false;
   listedModule "c" "inactive" true false; listedModule "d" "joined" true false].
Definition samplePolicy : val := obj_lit [("info", obj_lit [("system", VBool false)])].

Lemma fourModules_listed : Forall (listed "en") fourModules.
Proof.
  repeat (apply List.Forall_cons || apply List.Forall_nil);
    (split; [by eexists|by eexists|by eexists|by eexists|(by left) || (by right)|]);
    do 2 eexists; (split; [reflexivity|]); (split; [reflexivity|]); done.
Qed.

Definition byteOrder : Collation := {|
  localeCompare a b := if String.leb a b then 0%Z else 1%Z;
  toLowerCase := id
|}.

Lemma every_module_listed_once_witness :
  ∃ l, @defineLists byteOrder "en" samplePolicy fourModules [] = Ok l ∧ shown l ≡ₚ fourModules ∧
    notInstalled l ≡ₚ [listedModule "b" "inactive" false false] ∧
    unavailable l ≡ₚ [listedModule "a" "inactive" false true].
Proof.
  destruct (@every_module_listed_once byteOrder "en" samplePolicy fourModules [] false)
    as (l & H1 & H2 & _ & _ & H3 & H4); [reflexivity|exact fourModules_listed|apply List.Forall_nil|].
  exists l. split; [exact H1|]. split; [exact H2|]. split; [exact H3|exact H4].
Defined.
